(* ===== verification/_CoqProject ===== *)
-Q . S2P
Prelude.v
RustStr.v
BTree.v
Json.v
Attr.v
Base64Std.v
Ast.v
Winnow.v
Parser.v
ParserFuel.v
ParserRoundTrip.v
Reserved.v
Substitute.v
F64.v
EvalCondition.v
EvalUpdate.v
Storage.v
Operations.v
Schema.v
Errors.v
Plan.v
Keys.v
Checks.v
KeyCondition.v
Paging.v
Projection.v
Materialize.v
Translate.v
Retry.v
PgTypes.v
PgSelect.v
Keyset.v
Query.v
QueryPaging.v
PgReference.v
ConditionSql.v
Catalog.v
Reconciler.v
ApiError.v
Backend.v
Server.v
ServerCorrect.v
MemoryBackend.v
PgWrite.v
PgSql.v
PgBackend.v
PgExec.v
PgContract.v
System.v
PgInMemory.v
DdlTypes.v
Naming.v
Validation.v
ValidationSpec.v
CreateTable.v
TableSpecs.v
DdlHandlers.v
GsiState.v
Backfill.v
GsiWorkers.v
GsiLifecycle.v
Ddl.v
DdlCorrect.v
DdlUpdate.v
DdlSamples.v
AuthCache.v
Auth.v
SigV4.v
SigV4Canonical.v
SigV4Verify.v
SigV4Std.v
ApiToken.v
Jwt.v
Config.v
AuthWiring.v
AuthSamples.v
RequestJson.v
Bench.v
BenchPaths.v
BenchSamples.v
