(* ===== verification/Prelude.v ===== *)
(** * A verification of rektifier, the DynamoDB-to-PostgreSQL sidecar

    rektifier speaks the DynamoDB wire protocol and stores items as JSONB
    rows in PostgreSQL.  A request goes through these parts:

    - [rekt-protocol] decodes the JSON body into request structs and
      attribute values;
    - [rekt-expressions] parses UpdateExpression and ConditionExpression
      strings and substitutes the [#n] and [:v] placeholders;
    - [rekt-translator] checks the request against the table's schema and
      turns it into a plan: typed keys, resolved expressions, the routing
      of the condition, index and paging bounds;
    - [rekt-storage-libpq] runs the plan as SQL, either as one statement
      (the fast paths) or as a read-modify-write that calls back into the
      translator's in-memory evaluators;
    - [rekt-server] dispatches, routes updates between those paths and
      builds the responses; [rekt-ddl], [rekt-catalog] and [rekt-gsi] run
      the control plane;
    - [rekt-auth] says who a request comes from, before it is dispatched:
      a chain of verifiers for AWS SigV4 signatures, JSON web tokens and
      API tokens, wired at start-up ([rektifier]) from what [rekt-config]
      reads.

    The development covers the data plane, the control plane and
    authentication, from the request to the statements and back: requests,
    expressions, translator, storage backend, handlers, catalog and
    reconciler, table DDL, the lifecycle of online GSIs, the verifiers,
    the configuration and the wiring of the chain.  Source paths below are
    relative to [src/crates/].

    ** Files

    - [Prelude]: [Result] with panics kept apart from errors, the [?]
      notation, [collect]/[for_each]/[fold_result] for the loops over
      [Result], byte-wise string order, the hint database [rekt].
    - [RustStr]: the [core::str] and [core::char] operations the crates
      use, on the UTF-8 bytes of a string.
    - [BTree]: [BTreeMap] and [BTreeSet] as key-sorted lists.
    - [Json]: [serde_json::Value] and its accessors.
    - [Attr] (rekt-protocol/src/attribute_value.rs): [AttributeValue],
      serialisation and the deserialising visitor; base64 is the class
      [Base64], with the RFC 4648 instance in [Base64Std].
    - [Operations] (rekt-protocol/src/operations.rs): request structs;
      [RequestJson] is what their derived [Deserialize] makes of a JSON
      document, and supplies the decoders of the handlers.
    - [Ast], [Parser], [Reserved], [Substitute]
      (rekt-expressions/src/*.rs): the trees, the parsers over the
      combinator interface [Winnow], the reserved-word search, the
      resolvers.  [ParserFuel] and [ParserRoundTrip] prove the parsers.
    - [F64]: [f64] as IEEE 754 binary64: decimal parsing, addition and
      subtraction, comparison, the decimal rendering of Rust's [Display].
    - [EvalCondition], [EvalUpdate] (rekt-translator/src/eval/): the two
      in-memory evaluators over DDB-JSON rows.
    - [Storage] (rekt-storage/src/lib.rs): the data types of the backend
      interface.
    - [Schema], [Errors], [Plan], [Keys], [Checks], [KeyCondition],
      [Paging], [Projection], [Materialize], [Translate]
      (rekt-translator/src/*.rs, classify.rs in [Checks]): one file per
      module, the ten entry points in [Translate].
    - [Retry] (rekt-storage-libpq/src/retry.rs): the error classifier, the
      backoff on [u64] milliseconds and the loop around an operation.
    - [PgTypes] (types.rs and the pool errors of lib.rs there): identifier
      quoting, casts, error mapping.  [PgSelect]: the SELECT statements of
      the backend as syntax, text and meaning, with the server as the
      class [Postgres]; [PgReference] is an instance.
    - [Query] (query.rs, scan.rs): [query_raw] and [scan_raw], from the
      assembly of the text to the cursor.  [Keyset] and [QueryPaging]
      prove that following the cursors visits every row once.
    - [ConditionSql] (condition_sql.rs): the compiler of conditions to SQL,
      and the SQL with its three-valued meaning.
    - [Backend] (rekt-storage/src/lib.rs): the [Backend] trait as a class
      of state-passing methods, and the contract its documentation makes.
      [MemoryBackend] is an instance on plain rows.
    - [PgWrite], [PgSql], [PgBackend] (rekt-storage-libpq/src/): the row
      statements as syntax, text and effect, the builders of their texts,
      and the methods with transactions, SQL cache and retries.  [PgExec]
      and [PgContract] prove that this is an instance of the contract;
      [PgInMemory] is a server that keeps the assumed laws.
    - [ApiError], [Server] (rekt-server/src/lib.rs): error conversions and
      the data-plane handlers over the class [Backend].  [ServerCorrect]
      proves them against the contract, [System] over PostgreSQL.
    - [Catalog], [Reconciler] (rekt-catalog/src/): entries, metadata rows,
      the verdict on a live table and one pass of the worker.
    - [DdlTypes], [Naming], [Validation], [CreateTable], [TableSpecs],
      [Ddl] (rekt-protocol/src/ddl.rs, rekt-ddl/src/): the types, the
      derived PostgreSQL names, the validators, the CREATE TABLE
      statement, specs and descriptions, and CreateTable, DeleteTable and
      UpdateTable as transactions.  [ValidationSpec], [DdlCorrect] and
      [DdlUpdate] prove them, [DdlSamples] applies them to a server.
    - [DdlHandlers] (rekt-server/src/ddl.rs): the control-plane handlers
      over the class [DdlBackend], of which [Ddl] is an instance.
    - [GsiState], [Backfill], [GsiWorkers] (rekt-gsi/src/): the phases and
      state rows, the chunked backfill, and the coordinators that build,
      promote, verify and remove a GSI.  [GsiLifecycle] proves them.
    - [AuthCache] (rekt-auth/src/sigv4/cache.rs, api_token/cache.rs): the
      caches of secrets and tokens, with the histories in which concurrent
      look-ups interleave with changes of the table behind them.
    - [Auth] (lib.rs, permissive.rs, audit.rs, sigv4/mod.rs there): the
      identity, the routing on the Authorization header, the chain.
      [serve] is [dispatch] of the server run on a chain.
    - [SigV4] (sigv4/, crypto.rs): canonical request, signature, encrypted
      credentials, verifier.  [SigV4Canonical] proves what the canonical
      request binds, [SigV4Verify] what the verifier accepts; [SigV4Std]
      is SHA-256 and the other primitives themselves, checked on AWS's
      published example.
    - [ApiToken] (api_token/), [Jwt] (jwt/): the two bearer-token
      verifiers; [AuthSamples] applies the theorems of both and of the two
      files below.
    - [Config] (rekt-config/src/): raw and resolved configuration, defaults
      and validation.  [AuthWiring] (rekt-auth/src/master_key.rs,
      rektifier/src/auth_wiring.rs, main.rs): the master key and the
      construction of the chain.
    - [Bench] (rekt-bench/src/main.rs): the benchmark's HTTP client, its
      workloads and its worker loop.  [BenchPaths] follows each of its
      requests through the server and counts the increments of the hot
      row; [BenchSamples] runs both on the backend in memory.

    A Rust function is a Rocq function of the same name; a [Result] with
    [?] is [let?]; a loop that returns early is [fold_result] or
    [collect]; [expect], [unwrap] and [unreachable!] are [Panic], and so is
    [Instant + Duration] out of range; left out are the [expect]s on
    [Hmac::new_from_slice], which takes keys of every length, and on locks,
    which are poisoned only by a panic under them.  Integers
    that are only counted are [nat] or [N], with the [u32] truncation of a
    [usize] written out ([total_as_u32]); [f64] keeps its width.  Tracing
    attributes are not modelled.

    ** What the theorems show

    - The evaluators implement a typed specification: conditions
      ([evaluate_condition_decides_sat]), updates
      ([apply_update_implements_update_item]), with the order of reads and
      writes, the frame of an update, totality, exactness of integer
      arithmetic below 2^53 and of set operations.
    - The translator is safe: an accepted update
      cannot change a key, plans carry exactly the requested keys and
      writes, without duplicates and within the caps.
    - Lowerings are exact: a key condition and the bounds it becomes, the
      one-statement update and the read-modify-write with the evaluator on
      PostgreSQL ([fast_path_equals_slow_path]), the insert-only routing.
    - Paging is complete: following [LastEvaluatedKey] through
      [query_raw] or [scan_raw] ends, and returns every selected row
      exactly once and in order, when keys are unique; on an index, where
      they are not, rows can be skipped ([index_pages_skip_equal_keys]).
      So is the paging of ListTables.  The retry loop ends within its
      budget and retries only transient errors.
    - The backend refines its contract: every keyed method, retries, cache
      and transactions included, does to the rows and answers what the trait
      documents, as long as attribute names are plain and no reply is lost
      (or nothing is retried) ([pg_backend_meets_contract]), and the SQL of a condition
      decides as the evaluator does.  Over any backend that meets the
      contract the handlers keep the stored rows well formed, read what
      was written and apply transactions whole; over PostgreSQL the index
      columns stay those of the items ([session_invariant]).
    - The control plane is atomic: whatever calls fail, CreateTable,
      DeleteTable and UpdateTable change the metadata row, the schema and
      the GSI state rows together or not at all ([create_table_atomic],
      [delete_table_atomic], [update_table_atomic]); what validation
      accepts is characterised by rules ([create_table_validation_spec]).
      The reconciler converges.
    - The GSI coordinators end in a phase from which they can resume, flip
      a spec only together with the phase, and reach ACTIVE when nothing
      fails; the backfill is complete when the text order of the keys
      agrees with the table's and RETURNING yields rows in key order.
    - Authentication is sound: a request that is not identified reaches no
      operation and is answered with the error of the chain, or the 500 of
      a verifier that panicked ([no_access_without_identity]); two requests accepted with
      one signature are the same in all that is signed, or a hash collides
      ([tampering_needs_collision]); an accepted JWT was verified with a
      key that the configured URL of its issuer has served, and the issuer,
      audience and asymmetric algorithm of the configuration
      ([jwt_acceptance_sound]); a revoked credential or token is dead once
      the cache has expired, however requests interleave
      ([revoked_credential_dies], [revoked_token_dies]).  It is also
      complete: a registered client that signs as AWS documents it (written
      out in [SigV4Verify] apart from the server), and a minted token, are
      accepted ([registered_client_accepted], [minted_token_accepted]).
    - A configuration that loads is valid ([loaded_config_valid]) and is
      wired without a panic, if the HTTP client of the key caches can be
      built ([loaded_config_wires]); the verifier that
      accepts anyone needs the sentinel ([permissive_is_guarded]).
    - The parts compose: each of the requests the benchmark client sends
      is authenticated, decoded, parsed, planned and routed to exactly one
      storage call ([workload_storage_call]), and over any backend that meets
      the contract no acknowledged increment is lost and none is applied
      twice, however clients interleave ([hot_counter_counts]).
    - Where the code does not do what it means to, the theorem says what it
      does instead ([readded_gsi_keeps_cursor],
      [stale_entry_overwrites_specs], [backfill_skips_numeric_keys],
      [lost_reply_misreported], [signed_headers_panic],
      [stale_key_served_forever], [cached_token_outlives_expiry],
      [audience_claim_lost], [anonymous_on_public_address]).
    - Round trips: attribute values and items on the wire, the bodies of
      the ten requests ([request_bodies_decode]), paging
      cursors, condition and update expressions printed and parsed.
    - The parsers terminate; the fuel they are given is computed from the
      length of the input ([S (length s)]), every recursive call follows
      a consumed character, and [parsers_meet_source_equations] shows
      that the fuelled functions satisfy the source's own recursive
      equations, so the bound is never what makes a parse fail.  The
      decimal rendering of a binary64 searches at most 17 significant
      digits, which always suffices for that format.

    ** Parameters

    Code outside the repository is a parameter with its documented
    behaviour as named laws, and a concrete instance shows that the laws
    can be met: [Winnow] (combinators; [winnow_reference]), [Base64]
    ([base64_std]), [SerdeJson] (the rendering of a JSON value inside an
    error message), [KeyOrder], [Like] and [Postgres] (the order of key columns,
    LIKE, and the result of the SELECT statements; [reference_order],
    [reference_like], [reference_server]), the server of [PgWrite]
    ([PgInMemory]), [Sha1] ([Sha1Reference], the algorithm itself),
    [SetIter] (the iteration order of a set), [DdlWire] (serde on
    request bodies of the control plane), [JsonText] (the reader of JSON
    text and serde's messages; [plain_json]), [GsiServer] and [DdlServer] (what PostgreSQL does for
    the GSI workers and for DDL; [MemServer], [log_server]), [Sha256],
    [Hex], [PercentEncoding], [HeaderNames], [Chrono] and [Ciphers]
    (instances in [SigV4Std]), [JwtLib] (jsonwebtoken and the URL parser;
    [sample_jwt]), [KeyDecoders].  Clocks, random bytes, the environment,
    files and HTTP replies are arguments.  Nothing is assumed of SHA-256
    and HMAC, and of SHA-1 only the length of its result: where strength
    matters, the theorem exhibits the collision.  Failing
    calls are a parameter ([Faults], or the outcomes of the server): every
    theorem about a worker or a transaction quantifies over them.  A call
    of a worker that fails outside a transaction may have taken effect, a
    failed DDL statement may leave something behind, and the validity of an
    index may change from poll to poll.  The
    fuel of [backfill_chunks] is any number above the rows still to fill,
    which [chunk_progress] makes smaller at each chunk; the fuel of
    [list_all] is one more than the number of tables.

    ** Not modelled

    The bootstrap of the catalog tables (one DDL text), the order of
    start-up in main.rs, the HTTP loop, the pool and TLS, tracing, the
    benchmark's direct PostgreSQL target, table set-up and report, and the
    tests: input and output, third-party code or code that is not part of
    the server.  Parsing of TOML, of request
    bodies of the control plane and of socket addresses is a parameter.
    The coordinators and the requests are each modelled alone; what others
    commit in between is in the arbitrary initial state, not an
    interleaving of steps, except for the caches of [AuthCache], where
    interleavings are what the theorems are about. *)

From Stdlib Require Export Ascii String NArith ZArith Lia Sorted.
From stdpp Require Export base list strings gmap.

(** Concatenation reduces when its first argument is a constructor. *)
#[global] Arguments String.append !s1 s2 : simpl nomatch.

(** ** Results of fallible code

    [Result E A] is the outcome of a Rust function returning
    [Result<A, E>].  The third constructor is a panic ([expect],
    [unwrap], [unreachable!]); it is kept apart from [Err] so that the
    absence of panics is a theorem and not a convention. *)
Inductive Result (E A : Type) : Type :=
| Ok (a : A)
| Err (e : E)
| Panic.
Arguments Ok {E A} a.
Arguments Err {E A} e.
Arguments Panic {E A}.

Declare Scope rekt_scope.
Delimit Scope rekt_scope with rekt.
Open Scope rekt_scope.

(** The [?] operator. *)
Notation "'let?' x := c 'in' k" :=
  (match c with
   | Ok x => k
   | Err e => Err e
   | Panic => Panic
   end)
  (at level 10, x pattern, c at level 100, k at level 200,
   format "'[v' 'let?'  x  :=  c  'in' '/' k ']'") : rekt_scope.

(** [Result::map_err]. *)
Definition map_err {E F A : Type} (f : E -> F) (r : Result E A) : Result F A :=
  match r with
  | Ok a => Ok a
  | Err e => Err (f e)
  | Panic => Panic
  end.

(** [Result::map]. *)
Definition res_map {E A B : Type} (f : A -> B) (r : Result E A) : Result E B :=
  match r with
  | Ok a => Ok (f a)
  | Err e => Err e
  | Panic => Panic
  end.

(** [Option::ok_or] and [Option::expect]. *)
Definition ok_or {E A : Type} (o : option A) (e : E) : Result E A :=
  match o with
  | Some a => Ok a
  | None => Err e
  end.

Definition expect {E A : Type} (o : option A) : Result E A :=
  match o with
  | Some a => Ok a
  | None => Panic
  end.

(** [iter().map(f).collect::<Result<Vec<_>, _>>()]: stops at the first
    error. *)
Section collect_def.
Context {E A B : Type} (f : A -> Result E B).

Fixpoint collect (l : list A) : Result E (list B) :=
  match l with
  | [] => Ok []
  | x :: l => let? y := f x in let? ys := collect l in Ok (y :: ys)
  end.
End collect_def.

(** [for x in l { f(x)?; }]. *)
Section for_each_def.
Context {E A : Type} (f : A -> Result E unit).

Fixpoint for_each (l : list A) : Result E unit :=
  match l with
  | [] => Ok tt
  | x :: l => let? _ := f x in for_each l
  end.
End for_each_def.

(** [for x in l { st = f(st, x)?; }]. *)
Section fold_result_def.
Context {E S A : Type} (f : S -> A -> Result E S).

Fixpoint fold_result (st : S) (l : list A) : Result E S :=
  match l with
  | [] => Ok st
  | x :: l => let? st' := f st x in fold_result st' l
  end.
End fold_result_def.

Definition is_ok {E A : Type} (r : Result E A) : bool :=
  match r with Ok _ => true | _ => false end.

(** ** Automation *)

(** Case analysis on the fallible call in an equation, keeping the
    branches that are consistent with it. *)
Ltac res_step :=
  match goal with
  | H : Ok _ = Ok _ |- _ => injection H as H; try subst
  | H : Err _ = Err _ |- _ => injection H as H; try subst
  | H : Ok _ = Err _ |- _ => discriminate H
  | H : Err _ = Ok _ |- _ => discriminate H
  | H : Panic = Ok _ |- _ => discriminate H
  | H : Ok _ = Panic |- _ => discriminate H
  | H : Panic = Err _ |- _ => discriminate H
  | H : Err _ = Panic |- _ => discriminate H
  | H : Some _ = Some _ |- _ => injection H as H; try subst
  | H : Some _ = None |- _ => discriminate H
  | H : None = Some _ |- _ => discriminate H
  | H : (_, _) = (_, _) |- _ => injection H as H; try subst
  | H : (match ?c with Ok _ => _ | Err _ => _ | Panic => _ end) = _ |- _ =>
      let E := fresh "E" in destruct c eqn:E
  | H : (match ?c with Some _ => _ | None => _ end) = _ |- _ =>
      let E := fresh "E" in destruct c eqn:E
  | H : (if ?c then _ else _) = _ |- _ =>
      let E := fresh "E" in destruct c eqn:E
  end.
Ltac res_inv := repeat res_step.

(** ** Lists and results *)

Section collect_facts.
Context {E A B : Type} (f : A -> Result E B).

Lemma collect_Ok_iff l ys :
  collect f l = Ok ys <-> Forall2 (fun x y => f x = Ok y) l ys.
Proof.
  revert ys; induction l as [|x l IH]; intros ys; simpl.
  - split; intros H; [injection H as <-; constructor | by inversion H].
  - split; intros H.
    + res_inv. constructor; [done|]. by apply IH.
    + inversion H as [|? y ? ys' Hx Hl]; subst.
      apply IH in Hl. by rewrite Hx, Hl.
Qed.

Lemma collect_length l ys : collect f l = Ok ys -> length ys = length l.
Proof. rewrite collect_Ok_iff. intros H. symmetry. by eapply Forall2_length. Qed.

Lemma collect_no_panic l :
  (forall x, x ∈ l -> f x <> Panic) -> collect f l <> Panic.
Proof.
  induction l as [|x l IH]; simpl; intros Hf; [done|].
  assert (f x <> Panic) by (apply Hf; left).
  assert (collect f l <> Panic) by (apply IH; intros; apply Hf; by right).
  destruct (f x); try done. by destruct (collect f l).
Qed.

Lemma collect_is_ok l :
  is_ok (collect f l) = true <-> Forall (fun x => is_ok (f x) = true) l.
Proof.
  induction l as [|x l IH]; simpl; [split; [constructor | done]|].
  rewrite Forall_cons, <- IH.
  destruct (f x), (collect f l); simpl; naive_solver.
Qed.
End collect_facts.

Section for_each_facts.
Context {E A : Type} (f : A -> Result E unit).

Lemma for_each_Ok_iff l : for_each f l = Ok tt <-> Forall (fun x => f x = Ok tt) l.
Proof.
  induction l as [|x l IH]; simpl; [split; [constructor | done]|].
  rewrite Forall_cons, <- IH.
  destruct (f x) as [[]| |]; naive_solver.
Qed.

Lemma for_each_no_panic l :
  (forall x, x ∈ l -> f x <> Panic) -> for_each f l <> Panic.
Proof.
  induction l as [|x l IH]; simpl; intros Hf; [done|].
  assert (f x <> Panic) by (apply Hf; left).
  destruct (f x); try done. apply IH; intros; apply Hf; by right.
Qed.
End for_each_facts.

(** An invariant of the loop state holds at the end of a fallible loop. *)
Lemma fold_result_inv {E S A} (f : S -> A -> Result E S) (P : S -> Prop) l st st' :
  (forall s x s', x ∈ l -> P s -> f s x = Ok s' -> P s') ->
  P st -> fold_result f st l = Ok st' -> P st'.
Proof.
  revert st; induction l as [|x l IH]; simpl; intros st Hstep HP H; res_inv; [done|].
  eapply (IH a); [| |done].
  - intros s y s' Hy. apply Hstep. by right.
  - eapply Hstep; [|done|done]. left.
Qed.

Lemma fold_result_no_panic {E S A} (f : S -> A -> Result E S) (P : S -> Prop) l st :
  (forall s x s', x ∈ l -> P s -> f s x = Ok s' -> P s') ->
  (forall s x, x ∈ l -> P s -> f s x <> Panic) ->
  P st -> fold_result f st l <> Panic.
Proof.
  revert st; induction l as [|x l IH]; simpl; intros st Hstep Hnp HP; [done|].
  assert (f st x <> Panic) by (apply Hnp; [left|done]).
  destruct (f st x) as [s'| |] eqn:E1; try done.
  apply IH.
  - intros s y s'' Hy. apply Hstep. by right.
  - intros s y Hy. apply Hnp. by right.
  - eapply Hstep; [|exact HP|exact E1]. left.
Qed.

(** ** The order of Rust strings

    [str::cmp] is the lexicographic order of the bytes, which is
    [String.compare] on the byte representation used here. *)
Definition str_lt (s t : string) : Prop := String.compare s t = Lt.
Definition str_ltb (s t : string) : bool :=
  match String.compare s t with Lt => true | _ => false end.

Lemma ascii_compare_lt_trans a b c :
  Ascii.compare a b = Lt -> Ascii.compare b c = Lt -> Ascii.compare a c = Lt.
Proof. unfold Ascii.compare. rewrite !N.compare_lt_iff. apply N.lt_trans. Qed.

Lemma ascii_compare_refl a : Ascii.compare a a = Eq.
Proof. apply N.compare_refl. Qed.

Lemma str_compare_refl s : String.compare s s = Eq.
Proof. induction s as [|a s IH]; simpl; [done|]. by rewrite ascii_compare_refl. Qed.

Lemma str_compare_eq s t : String.compare s t = Eq <-> s = t.
Proof.
  split; [apply String.compare_eq_iff|]. intros ->. apply str_compare_refl.
Qed.

Lemma str_lt_irrefl s : ~ str_lt s s.
Proof. unfold str_lt. by rewrite str_compare_refl. Qed.

Lemma str_lt_trans s t u : str_lt s t -> str_lt t u -> str_lt s u.
Proof.
  unfold str_lt. revert t u.
  induction s as [|a s IH]; intros [|b t] [|c u]; simpl; try done.
  destruct (Ascii.compare a b) eqn:E1; try done;
    destruct (Ascii.compare b c) eqn:E2; try done; intros H1 H2.
  - apply Ascii.compare_eq_iff in E1, E2. subst.
    rewrite ascii_compare_refl. by eapply IH.
  - apply Ascii.compare_eq_iff in E1. subst. by rewrite E2.
  - apply Ascii.compare_eq_iff in E2. subst. by rewrite E1.
  - by rewrite (ascii_compare_lt_trans _ _ _ E1 E2).
Qed.

Lemma str_lt_antisym s t : str_lt s t -> ~ str_lt t s.
Proof. intros H1 H2. eapply str_lt_irrefl, str_lt_trans; eassumption. Qed.

Lemma str_compare_gt s t : String.compare s t = Gt <-> str_lt t s.
Proof.
  unfold str_lt. rewrite (String.compare_antisym s t).
  destruct (String.compare t s); naive_solver.
Qed.

Lemma str_ltb_spec s t : str_ltb s t = true <-> str_lt s t.
Proof. unfold str_ltb, str_lt. destruct (String.compare s t); naive_solver. Qed.

#[export] Instance str_lt_dec s t : Decision (str_lt s t).
Proof. unfold str_lt. destruct (String.compare s t); [right|left|right]; done. Defined.

#[export] Instance str_lt_transitive : Transitive str_lt.
Proof. intros s t u. apply str_lt_trans. Qed.

(** ** Bytes *)
Definition bytes : Type := list Byte.byte.

#[export] Instance byte_eq_dec : EqDecision Byte.byte := Byte.byte_eq_dec.

(** Boolean equality of decidable types, the [==] of [derive(PartialEq)]. *)
Definition eqb {A : Type} `{EqDecision A} (x y : A) : bool := bool_decide (x = y).

Lemma eqb_true {A} `{EqDecision A} (x y : A) : eqb x y = true <-> x = y.
Proof. apply bool_decide_eq_true. Qed.

Lemma eqb_false {A} `{EqDecision A} (x y : A) : eqb x y = false <-> x <> y.
Proof. apply bool_decide_eq_false. Qed.

Lemma eqb_refl {A} `{EqDecision A} (x : A) : eqb x x = true.
Proof. by apply eqb_true. Qed.

(** [slice::contains]. *)
Definition contains {A : Type} `{EqDecision A} (l : list A) (x : A) : bool :=
  existsb (eqb x) l.

Lemma contains_true {A} `{EqDecision A} (l : list A) x : contains l x = true <-> x ∈ l.
Proof.
  unfold contains. rewrite existsb_exists. setoid_rewrite eqb_true.
  setoid_rewrite <- list_elem_of_In. naive_solver.
Qed.

Lemma contains_false {A} `{EqDecision A} (l : list A) x : contains l x = false <-> x ∉ l.
Proof. rewrite <- contains_true. by destruct (contains l x). Qed.

(** The shared rewriting base: boolean tests of the code as the
    propositions they decide. *)
Create HintDb rekt.
Create Rewrite HintDb rekt.
#[export] Hint Rewrite @eqb_true @eqb_false @contains_true @contains_false
  str_ltb_spec andb_true_iff orb_true_iff negb_true_iff negb_false_iff
  andb_false_iff orb_false_iff : rekt.
#[export] Hint Resolve str_lt_trans str_lt_irrefl : rekt.

(** Loops and [collect] under a change of representation. *)
Lemma fold_result_map {E S T A} (h : S -> T) (f : S -> A -> Result E S)
    (g : T -> A -> Result E T) :
  (forall st x, g (h st) x = res_map h (f st x)) ->
  forall l st, fold_result g (h st) l = res_map h (fold_result f st l).
Proof.
  intros Hfg l. induction l as [|x l IH]; intros st; simpl; [done|].
  rewrite Hfg. destruct (f st x); simpl; [apply IH | done | done].
Qed.

Lemma collect_res_map {E A B C} (h : B -> C) (f : A -> Result E B) (g : A -> Result E C) l :
  (forall x, g x = res_map h (f x)) -> collect g l = res_map (map h) (collect f l).
Proof.
  intros Hfg. induction l as [|x l IH]; simpl; [done|].
  rewrite Hfg. destruct (f x); simpl; [|done|done]. rewrite IH. by destruct (collect f l).
Qed.

Lemma collect_perm {E A B} (f : A -> Result E B) l1 l2 y1 :
  l1 ≡ₚ l2 -> collect f l1 = Ok y1 -> exists y2, collect f l2 = Ok y2 /\ y1 ≡ₚ y2.
Proof.
  intros Hp. revert y1. induction Hp as [|x l1 l2 Hp IH|x y l|l1 l2 l3 H1 IH1 H2 IH2]; intros y1.
  - intros [= <-]. by exists [].
  - simpl. destruct (f x) as [b| |]; [|done|done].
    destruct (collect f l1) as [z| |]; [|done|done]. intros [= <-].
    destruct (IH z eq_refl) as (y2 & -> & Hy). exists (b :: y2). split; [done | by f_equiv].
  - simpl. destruct (f x) as [b| |], (f y) as [c| |]; try done.
    destruct (collect f l) as [z| |]; try done. intros [= <-].
    exists (b :: c :: z). split; [done | apply Permutation_swap].
  - intros Hy. apply IH1 in Hy as (y2 & Hy2 & P1). apply IH2 in Hy2 as (y3 & Hy3 & P2).
    exists y3. split; [done | by rewrite P1].
Qed.

(** ** Filtering by a boolean, and sorted lists *)

Definition bfilter {A : Type} (p : A -> bool) (l : list A) : list A :=
  base.filter (fun x => p x = true) l.

Lemma elem_of_bfilter {A} (p : A -> bool) l x : x ∈ bfilter p l <-> p x = true /\ x ∈ l.
Proof. unfold bfilter. by rewrite list_elem_of_filter. Qed.

Lemma bfilter_cons {A} (p : A -> bool) x l :
  bfilter p (x :: l) = if p x then x :: bfilter p l else bfilter p l.
Proof. unfold bfilter. rewrite filter_cons. destruct (p x) eqn:E; by case_decide. Qed.

Lemma bfilter_NoDup {A} (p : A -> bool) l : NoDup l -> NoDup (bfilter p l).
Proof. apply NoDup_filter. Qed.

#[export] Instance bfilter_perm {A} (p : A -> bool) : Proper ((≡ₚ) ==> (≡ₚ)) (bfilter p).
Proof. intros l1 l2 Hl. unfold bfilter. by rewrite Hl. Qed.

Lemma bfilter_app {A} (p : A -> bool) l1 l2 : bfilter p (l1 ++ l2) = bfilter p l1 ++ bfilter p l2.
Proof. apply filter_app. Qed.

Lemma bfilter_all {A} (p : A -> bool) l : Forall (fun x => p x = true) l -> bfilter p l = l.
Proof. induction 1 as [|x l Hx _ IH]; [done|]. by rewrite bfilter_cons, Hx, IH. Qed.

Lemma bfilter_none {A} (p : A -> bool) l : Forall (fun x => p x = false) l -> bfilter p l = [].
Proof. induction 1 as [|x l Hx _ IH]; [done|]. by rewrite bfilter_cons, Hx, IH. Qed.

Lemma bfilter_filter {A} (p q : A -> bool) l :
  bfilter p (bfilter q l) = bfilter (fun x => q x && p x) l.
Proof.
  induction l as [|x l IH]; [done|]. rewrite !bfilter_cons, <- IH.
  destruct (q x); [|done]. by rewrite bfilter_cons.
Qed.

Lemma bfilter_ext {A} (p q : A -> bool) l :
  Forall (fun x => p x = q x) l -> bfilter p l = bfilter q l.
Proof. induction 1 as [|x l Hx _ IH]; [done|]. by rewrite !bfilter_cons, Hx, IH. Qed.

Lemma StronglySorted_app_inv {A} (R : A -> A -> Prop) l1 l2 :
  StronglySorted R (l1 ++ l2) ->
  StronglySorted R l1 /\ StronglySorted R l2 /\ (forall x y, x ∈ l1 -> y ∈ l2 -> R x y).
Proof.
  induction l1 as [|a l1 IH]; simpl; intros Hs.
  - split_and!; [constructor|done|]. intros x y Hx. set_solver.
  - apply StronglySorted_inv in Hs as [Hs Ha]. destruct (IH Hs) as (H1 & H2 & H3).
    rewrite Forall_app in Ha. destruct Ha as [Ha1 Ha2].
    split_and!; [by constructor|done|]. intros x y [->|Hx]%elem_of_cons Hy; [|by apply H3].
    rewrite Forall_forall in Ha2. by apply Ha2.
Qed.

Lemma StronglySorted_app_intro {A} (R : A -> A -> Prop) l1 l2 :
  StronglySorted R l1 -> StronglySorted R l2 -> (forall x y, x ∈ l1 -> y ∈ l2 -> R x y) ->
  StronglySorted R (l1 ++ l2).
Proof.
  intros H1 H2 Hx. induction H1 as [|a l1 H1 IH Ha]; [done|]. simpl. constructor.
  - apply IH. intros x y Hxl Hy. apply Hx; set_solver.
  - rewrite Forall_app. split; [done|]. apply Forall_forall. intros y Hy. apply Hx; set_solver.
Qed.
