(* ===== verification/RustStr.v ===== *)
(** * Rust string primitives

    A [&str] is its UTF-8 byte sequence, a Stdlib [string].  This file
    holds the [core::str] and [core::char] operations the crates use:
    ASCII character classes, [trim], [starts_with], [contains],
    [strip_prefix], [split], [to_ascii_lowercase], and the decimal form
    of an unsigned integer. *)

From S2P Require Import Prelude.
From Stdlib Require Import DecimalString DecimalN DecimalPos.

Definition code (c : ascii) : nat := nat_of_ascii c.

Definition in_range (lo hi : nat) (c : ascii) : bool :=
  Nat.leb lo (code c) && Nat.leb (code c) hi.

(** [char::is_ascii_digit], [is_ascii_alphabetic], [is_ascii_alphanumeric]. *)
Definition is_ascii_digit : ascii -> bool := in_range 48 57.
Definition is_ascii_lower : ascii -> bool := in_range 97 122.
Definition is_ascii_upper : ascii -> bool := in_range 65 90.
Definition is_ascii_alphabetic (c : ascii) : bool := is_ascii_lower c || is_ascii_upper c.
Definition is_ascii_alphanumeric (c : ascii) : bool :=
  is_ascii_alphabetic c || is_ascii_digit c.

(** [char::to_ascii_lowercase] on one byte. *)
Definition to_ascii_lowercase (c : ascii) : ascii :=
  if is_ascii_upper c then ascii_of_nat (code c + 32) else c.

Fixpoint str_map (f : ascii -> ascii) (s : string) : string :=
  match s with
  | EmptyString => EmptyString
  | String c s => String (f c) (str_map f s)
  end.

Definition str_lower : string -> string := str_map to_ascii_lowercase.

Fixpoint str_forall (f : ascii -> bool) (s : string) : bool :=
  match s with
  | EmptyString => true
  | String c s => f c && str_forall f s
  end.

(** [str::is_ascii]. *)
Definition is_ascii : string -> bool := str_forall (fun c => Nat.ltb (code c) 128).

(** [str::strip_prefix] and [str::starts_with]. *)
Fixpoint strip_prefix (p s : string) : option string :=
  match p, s with
  | EmptyString, _ => Some s
  | String a p, String b s => if Ascii.eqb a b then strip_prefix p s else None
  | String _ _, EmptyString => None
  end.

Definition starts_with (s p : string) : bool :=
  match strip_prefix p s with Some _ => true | None => false end.

(** [str::contains(&str)]. *)
Fixpoint str_contains (s p : string) : bool :=
  starts_with s p ||
  match s with
  | EmptyString => false
  | String _ s => str_contains s p
  end.

(** [str::contains(char)]. *)
Fixpoint str_mem (c : ascii) (s : string) : bool :=
  match s with
  | EmptyString => false
  | String d s => Ascii.eqb c d || str_mem c s
  end.

(** [str::split(char)]: always at least one piece. *)
Fixpoint split_on (c : ascii) (s : string) : list string :=
  match s with
  | EmptyString => [EmptyString]
  | String d s =>
      if Ascii.eqb c d then EmptyString :: split_on c s
      else match split_on c s with
           | [] => [String d EmptyString]
           | w :: ws => String d w :: ws
           end
  end.

(** The UTF-8 encodings of the characters with the Unicode [White_Space]
    property, which is what [str::trim] removes. *)
Definition byte_str (l : list nat) : string :=
  foldr (fun n s => String (ascii_of_nat n) s) EmptyString l.

Definition white_space : list string :=
  map byte_str
    ([[9]; [10]; [11]; [12]; [13]; [32]; [194; 133]; [194; 160]; [225; 154; 128]]
     ++ map (fun n => [226; 128; n]) (seq 128 11)
     ++ [[226; 128; 168]; [226; 128; 169]; [226; 128; 175]; [226; 129; 159];
         [227; 128; 128]]).

(** The rest of [s] after one white-space character. *)
Definition strip_space (s : string) : option string :=
  foldr (fun w k => match strip_prefix w s with Some r => Some r | None => k end)
        None white_space.

(** [str::trim_start], by the length of the input: every step removes at
    least one byte. *)
Fixpoint trim_start_fuel (n : nat) (s : string) : string :=
  match n with
  | 0 => s
  | S n => match strip_space s with
           | Some r => trim_start_fuel n r
           | None => s
           end
  end.
Definition trim_start (s : string) : string := trim_start_fuel (String.length s) s.

(** [str::trim_end] removes the longest suffix made of white space: the
    shortest prefix of [s] whose remainder is all white space. *)
Fixpoint trim_end (s : string) : string :=
  match trim_start s with
  | EmptyString => EmptyString
  | String _ _ => match s with
                  | EmptyString => EmptyString
                  | String c s' => String c (trim_end s')
                  end
  end.
Definition trim (s : string) : string := trim_end (trim_start s).

Definition str_is_empty (s : string) : bool :=
  match s with EmptyString => true | String _ _ => false end.

(** [input.trim().is_empty()]. *)
Definition is_blank (s : string) : bool := str_is_empty (trim s).

(** [usize] on a 64-bit target: [to_string] and [str::parse::<usize>] on
    a string of digits, which fails on overflow. *)
Definition usize_max : N := 18446744073709551615%N.

Definition usize_to_string (n : N) : string := NilZero.string_of_uint (N.to_uint n).

Definition parse_usize (s : string) : option N :=
  match NilEmpty.uint_of_string s with
  | Some d => let n := N.of_uint d in if N.leb n usize_max then Some n else None
  | None => None
  end.

(** ** Facts *)

Lemma str_forall_app f a b : str_forall f (a +:+ b) = str_forall f a && str_forall f b.
Proof. induction a as [|c a IH]; simpl; [done|]. by rewrite IH, andb_assoc. Qed.

Lemma str_forall_impl (f g : ascii -> bool) s :
  (forall c, f c = true -> g c = true) -> str_forall f s = true -> str_forall g s = true.
Proof. intros Hfg. induction s as [|c s IH]; simpl; [done|]. rewrite !andb_true_iff. naive_solver. Qed.

Lemma app_assoc_str (a b c : string) : a +:+ (b +:+ c) = (a +:+ b) +:+ c.
Proof. induction a as [|x a IH]; simpl; [done|]. by rewrite IH. Qed.

Lemma app_nil_r_str (a : string) : a +:+ EmptyString = a.
Proof. induction a as [|x a IH]; simpl; [done|]. by rewrite IH. Qed.

Lemma app_length_str (a b : string) :
  String.length (a +:+ b) = String.length a + String.length b.
Proof. induction a as [|x a IH]; simpl; [done|]. by rewrite IH. Qed.

Lemma strip_prefix_Some p s r : strip_prefix p s = Some r <-> s = p +:+ r.
Proof.
  revert s; induction p as [|a p IH]; intros s; simpl; [naive_solver|].
  destruct s as [|b s]; [naive_solver|].
  destruct (Ascii.eqb_spec a b) as [<-|Hne]; [rewrite IH|]; naive_solver.
Qed.

Lemma starts_with_spec s p : starts_with s p = true <-> exists r, s = p +:+ r.
Proof.
  unfold starts_with. setoid_rewrite <- strip_prefix_Some.
  destruct (strip_prefix p s); naive_solver.
Qed.

Lemma str_contains_spec s p :
  str_contains s p = true <-> exists l r, s = l +:+ p +:+ r.
Proof.
  induction s as [|c s IH]; simpl; rewrite orb_true_iff, starts_with_spec; split.
  - intros [[r ->]|H]; [by exists EmptyString, r | done].
  - intros ([|? l] & r & H); [left; by exists r | done].
  - intros [[r ->]|H]; [by exists EmptyString, r|].
    apply IH in H as (l & r & ->). by exists (String c l), r.
  - intros ([|d l] & r & H); [left; by exists r | right].
    injection H as -> ->. apply IH. by exists l, r.
Qed.

Lemma to_uint_nonnil n : N.to_uint n <> Decimal.Nil.
Proof. destruct n; [done|]. apply DecimalPos.Unsigned.to_uint_nonnil. Qed.

Lemma usize_roundtrip n : (n <= usize_max)%N -> parse_usize (usize_to_string n) = Some n.
Proof.
  intros Hn. unfold parse_usize, usize_to_string.
  assert (NilEmpty.uint_of_string (NilZero.string_of_uint (N.to_uint n))
          = Some (N.to_uint n)) as ->.
  { destruct (N.to_uint n) eqn:E; try apply NilEmpty.usu.
    exfalso. by apply (to_uint_nonnil n). }
  rewrite DecimalN.Unsigned.of_to. by rewrite (proj2 (N.leb_le _ _) Hn).
Qed.

Lemma digits_string_of_uint d : str_forall is_ascii_digit (NilEmpty.string_of_uint d) = true.
Proof. induction d; simpl; done. Qed.

Lemma usize_to_string_digits n :
  str_forall is_ascii_digit (usize_to_string n) = true /\ usize_to_string n <> EmptyString.
Proof.
  unfold usize_to_string.
  assert (NilZero.string_of_uint (N.to_uint n) = NilEmpty.string_of_uint (N.to_uint n)) as ->.
  { pose proof (to_uint_nonnil n). by destruct (N.to_uint n). }
  split; [apply digits_string_of_uint|].
  pose proof (to_uint_nonnil n). by destruct (N.to_uint n).
Qed.

(** Membership, and cutting a text at a character. *)
Lemma str_mem_app c a b : str_mem c (a +:+ b) = str_mem c a || str_mem c b.
Proof. induction a as [|d a IH]; simpl; [done|]. by rewrite IH, orb_assoc. Qed.

Lemma str_mem_forall (f : ascii -> bool) c s : f c = false -> str_forall f s = true -> str_mem c s = false.
Proof.
  intros Hc. induction s as [|d s IH]; simpl; [done|]. rewrite andb_true_iff. intros [Hd Hs].
  rewrite IH, orb_false_r by done. destruct (Ascii.eqb_spec c d); [congruence | done].
Qed.

Lemma split_first c a b a' b' :
  str_mem c a = false -> str_mem c a' = false -> a +:+ String c b = a' +:+ String c b' -> a = a' /\ b = b'.
Proof.
  revert a'. induction a as [|d a IH]; intros [|d' a']; simpl; rewrite ?orb_false_iff.
  - by intros _ _ [= ->].
  - intros _ [Hd _] [= -> _]. by rewrite Ascii.eqb_refl in Hd.
  - intros [Hd _] _ [= -> _]. by rewrite Ascii.eqb_refl in Hd.
  - intros [_ Ha] [_ Ha'] [= -> E]. destruct (IH _ Ha Ha' E) as [-> ->]. done.
Qed.

Lemma app_inv_head_str (a b b' : string) : a +:+ b = a +:+ b' -> b = b'.
Proof. induction a as [|c a IH]; simpl; [done|]. intros [= E]. by apply IH. Qed.

Lemma usize_to_string_inj n n' : usize_to_string n = usize_to_string n' -> n = n'.
Proof.
  unfold usize_to_string. pose proof (to_uint_nonnil n). pose proof (to_uint_nonnil n').
  assert (Hz : forall d, d <> Decimal.Nil -> NilZero.string_of_uint d = NilEmpty.string_of_uint d) by (by intros []).
  rewrite !Hz by done. intros E. apply (f_equal NilEmpty.uint_of_string) in E. rewrite !NilEmpty.usu in E.
  injection E as E. by apply DecimalN.Unsigned.to_uint_inj.
Qed.

(** White space is stripped from the front by whole characters, so the
    result of [trim_start] never starts with one. *)
Lemma strip_space_length s r : strip_space s = Some r -> String.length r < String.length s.
Proof.
  unfold strip_space.
  assert (Forall (fun w => w <> EmptyString) white_space) as Hw.
  { apply (bool_decide_unpack _). vm_compute. exact I. }
  induction Hw as [|w ws Hw Hws IH]; simpl; [done|].
  destruct (strip_prefix w s) as [r'|] eqn:E; [|done].
  intros [= ->]. apply strip_prefix_Some in E as ->.
  rewrite app_length_str. destruct w; [done|]. simpl. lia.
Qed.

Lemma trim_start_fuel_fix n s :
  String.length s <= n -> strip_space (trim_start_fuel n s) = None.
Proof.
  revert s; induction n as [|n IH]; intros s Hn; simpl.
  - destruct s; [by vm_compute | simpl in Hn; lia].
  - destruct (strip_space s) as [r|] eqn:E; [|done].
    apply IH. apply strip_space_length in E. lia.
Qed.

Lemma trim_start_fix s : strip_space (trim_start s) = None.
Proof. by apply trim_start_fuel_fix. Qed.

Lemma trim_start_id s : strip_space s = None -> trim_start s = s.
Proof. unfold trim_start. destruct (String.length s); simpl; [done|]. by intros ->. Qed.

Lemma trim_start_empty_iff s : trim_end s = EmptyString <-> trim_start s = EmptyString.
Proof.
  destruct s as [|c s]; [done|].
  change (trim_end (String c s)) with
    (match trim_start (String c s) with
     | EmptyString => EmptyString
     | String _ _ => String c (trim_end s)
     end).
  by destruct (trim_start (String c s)).
Qed.

(** [s.trim().is_empty()] holds exactly when nothing but white space is
    in [s]. *)
Lemma is_blank_spec s : is_blank s = true <-> trim_start s = EmptyString.
Proof.
  unfold is_blank, trim.
  assert (str_is_empty (trim_end (trim_start s)) = true <->
          trim_end (trim_start s) = EmptyString) as -> by (by destruct (trim_end _)).
  rewrite trim_start_empty_iff, (trim_start_id (trim_start s)); [done|].
  apply trim_start_fix.
Qed.

(** ** Longest prefixes *)

(** The longest prefix whose characters satisfy [f], and the rest. *)
Fixpoint span (f : ascii -> bool) (s : string) : string * string :=
  match s with
  | EmptyString => (EmptyString, EmptyString)
  | String c s' => if f c then let '(a, b) := span f s' in (String c a, b)
                   else (EmptyString, s)
  end.

Lemma span_app f s : (span f s).1 +:+ (span f s).2 = s.
Proof.
  induction s as [|c s IH]; simpl; [done|]. destruct (f c); [|done].
  destruct (span f s) as [a b]; simpl in *. by rewrite IH.
Qed.

Lemma span_length f s : String.length (span f s).2 <= String.length s.
Proof. rewrite <- (span_app f s) at 2. rewrite app_length_str. lia. Qed.

(** The next character, if any, does not satisfy [f]. *)
Definition stops (f : ascii -> bool) (s : string) : Prop :=
  match s with
  | EmptyString => True
  | String c _ => f c = false
  end.

Lemma span_stops f s : stops f (span f s).2.
Proof.
  induction s as [|c s IH]; simpl; [done|]. destruct (f c) eqn:E; [|done].
  by destruct (span f s) as [a b].
Qed.

Lemma span_forall f a r :
  str_forall f a = true -> stops f r -> span f (a +:+ r) = (a, r).
Proof.
  induction a as [|c a IH]; simpl.
  - intros _ Hr. destruct r as [|c r]; simpl in *; [done|]. by rewrite Hr.
  - rewrite andb_true_iff. intros [Hc Ha] Hr. by rewrite Hc, IH.
Qed.

Lemma span_none f r : stops f r -> span f r = (EmptyString, r).
Proof. by apply (span_forall f EmptyString). Qed.
