(* ===== verification/BTree.v ===== *)
(** * [BTreeMap<String, V>]

  Items, JSON objects and placeholder maps are [BTreeMap]s (serde_json
  is built without [preserve_order], so [serde_json::Map] is one too).
  The model is the sequence of entries an iteration yields: an
  association list whose keys are strictly increasing.  [wf] is that
  invariant, every operation preserves it, and under it two maps with
  the same lookups are equal. *)

From S2P Require Import Prelude.

Definition btree (V : Type) : Type := list (string * V).

Module BTreeMap.
Section btree.
Context {V : Type}.
Implicit Types (m : btree V) (k : string) (v : V).

Fixpoint get (k : string) (m : list (string * V)) : option V :=
  match m with
  | [] => None
  | (k', v) :: m => if decide (k = k') then Some v else get k m
  end.

Fixpoint insert (k : string) (v : V) (m : list (string * V)) : list (string * V) :=
  match m with
  | [] => [(k, v)]
  | (k', v') :: m' =>
    match String.compare k k' with
    | Lt => (k, v) :: (k', v') :: m'
    | Eq => (k, v) :: m'
    | Gt => (k', v') :: insert k v m'
    end
  end.

Fixpoint remove (k : string) (m : list (string * V)) : list (string * V) :=
  match m with
  | [] => []
  | (k', v') :: m' => if decide (k = k') then m' else (k', v') :: remove k m'
  end.

Definition keys (m : list (string * V)) : list string := map fst m.

(** [iter().collect::<BTreeMap<_, _>>()] and [extend]: later entries win. *)
Definition insert_all (l : list (string * V)) (m : btree V) : btree V :=
  fold_left (fun m kv => insert kv.1 kv.2 m) l m.
Definition of_list (l : list (string * V)) : btree V := insert_all l [].

Definition wf (m : list (string * V)) : Prop := StronglySorted str_lt (keys m).

(** ** Lookup *)

Lemma get_None k m : get k m = None <-> k ∉ keys m.
Proof.
  induction m as [|[k' v] m IH]; simpl; [set_solver|].
  case_decide; [subst; set_solver|]. rewrite IH. set_solver.
Qed.

Lemma get_Some_in k v m : get k m = Some v -> (k, v) ∈ m.
Proof.
  induction m as [|[k' v'] m IH]; simpl; [done|].
  case_decide; [intros [= ->]; subst; left | intros ?; right; auto].
Qed.

Lemma wf_nil : wf [].
Proof. constructor. Qed.

Lemma wf_cons k v m : wf ((k, v) :: m) <-> Forall (str_lt k) (keys m) /\ wf m.
Proof. unfold wf; simpl. split; [by inversion 1 | intros [??]; by constructor]. Qed.

Lemma wf_get_None k v m : wf ((k, v) :: m) -> get k m = None.
Proof.
  intros [Hlt _]%wf_cons. apply get_None. intros Hin.
  rewrite Forall_forall in Hlt. by apply (str_lt_irrefl k), Hlt.
Qed.

Lemma wf_in_get k v m : wf m -> (k, v) ∈ m -> get k m = Some v.
Proof.
  induction m as [|[k' v'] m IH]; simpl; intros Hwf Hin; [set_solver|].
  apply elem_of_cons in Hin as [[= -> ->]|Hin]; [by rewrite decide_True|].
  case_decide as Heq; [subst|apply IH; [by apply wf_cons in Hwf as []|done]].
  apply wf_get_None, get_None in Hwf. destruct Hwf. unfold keys.
  by apply (list_elem_of_fmap_2 fst) in Hin.
Qed.

Lemma get_insert_eq k v m : get k (insert k v m) = Some v.
Proof.
  induction m as [|[k' v'] m IH]; simpl; [by rewrite decide_True|].
  destruct (String.compare k k') eqn:E; simpl; try (by rewrite decide_True).
  rewrite decide_False; [done|]. intros ->. by rewrite str_compare_refl in E.
Qed.

Lemma get_insert_ne k k' v m : k <> k' -> get k' (insert k v m) = get k' m.
Proof.
  intros Hne. induction m as [|[k1 v1] m IH]; simpl; [by rewrite decide_False|].
  destruct (String.compare k k1) eqn:E; simpl.
  - apply str_compare_eq in E as <-. by rewrite !decide_False.
  - by rewrite (decide_False (P := k' = k)).
  - by rewrite IH.
Qed.

Lemma get_insert k k' v m :
  get k' (insert k v m) = if decide (k = k') then Some v else get k' m.
Proof. case_decide; [subst; apply get_insert_eq | by apply get_insert_ne]. Qed.

Lemma get_remove_ne k k' m : k <> k' -> get k' (remove k m) = get k' m.
Proof.
  intros Hne. induction m as [|[k1 v1] m IH]; simpl; [done|].
  case_decide; simpl; [subst; by rewrite decide_False | by rewrite IH].
Qed.

Lemma get_remove_eq k m : wf m -> get k (remove k m) = None.
Proof.
  induction m as [|[k1 v1] m IH]; simpl; intros Hwf; [done|].
  case_decide; [subst; by eapply wf_get_None|].
  simpl. rewrite decide_False by done. apply IH. by apply wf_cons in Hwf as [].
Qed.

Lemma get_remove k k' m :
  wf m -> get k' (remove k m) = if decide (k = k') then None else get k' m.
Proof. intros. case_decide; [subst; by apply get_remove_eq | by apply get_remove_ne]. Qed.

(** ** The invariant *)

Lemma keys_insert k v m x : x ∈ keys (insert k v m) <-> x = k \/ x ∈ keys m.
Proof.
  induction m as [|[k' v'] m IH]; simpl; [set_solver|].
  destruct (String.compare k k') eqn:E; simpl; [|set_solver|set_solver].
  apply str_compare_eq in E as <-. set_solver.
Qed.

Lemma keys_remove_subset k m x : x ∈ keys (remove k m) -> x ∈ keys m.
Proof.
  induction m as [|[k' v'] m IH]; simpl; [done|].
  case_decide; simpl; [set_solver|]. set_solver.
Qed.

Lemma wf_insert k v m : wf m -> wf (insert k v m).
Proof.
  induction m as [|[k' v'] m IH]; simpl; intros Hwf; [apply wf_cons; split; constructor|].
  pose proof (proj1 (wf_cons _ _ _) Hwf) as [Hlt Hm].
  destruct (String.compare k k') eqn:E.
  - apply str_compare_eq in E as <-. by apply wf_cons.
  - apply wf_cons; split; [|done]. simpl. constructor; [done|].
  eapply Forall_impl; [exact Hlt|]. intros x. by apply str_lt_trans.
  - apply wf_cons; split; [|by apply IH]. apply Forall_forall. intros x Hx.
  apply keys_insert in Hx as [->|Hx]; [by apply str_compare_gt|].
  rewrite Forall_forall in Hlt. by apply Hlt.
Qed.

Lemma wf_remove k m : wf m -> wf (remove k m).
Proof.
  induction m as [|[k' v'] m IH]; simpl; intros Hwf; [done|].
  pose proof (proj1 (wf_cons _ _ _) Hwf) as [Hlt Hm].
  case_decide; [done|]. apply wf_cons. split; [|by apply IH].
  rewrite Forall_forall in *. intros x Hx. by apply Hlt, (keys_remove_subset k).
Qed.

Lemma wf_insert_all l m : wf m -> wf (insert_all l m).
Proof.
  revert m; induction l as [|[k v] l IH]; intros m Hm; simpl; [done|].
  apply IH. by apply wf_insert.
Qed.

Lemma wf_of_list l : wf (of_list l).
Proof. apply wf_insert_all, wf_nil. Qed.

(** Well-formed maps are determined by their lookups, so [==] on maps
  is equality of the representation. *)
Lemma btree_ext m1 m2 : wf m1 -> wf m2 -> (forall k, get k m1 = get k m2) -> m1 = m2.
Proof.
  revert m2; induction m1 as [|[k1 v1] m1 IH]; intros [|[k2 v2] m2] Hw1 Hw2 Hget.
  - done.
  - specialize (Hget k2). simpl in Hget. by rewrite decide_True in Hget.
  - specialize (Hget k1). simpl in Hget. by rewrite decide_True in Hget.
  - pose proof (proj1 (wf_cons _ _ _) Hw1) as [Hl1 Hm1].
  pose proof (proj1 (wf_cons _ _ _) Hw2) as [Hl2 Hm2].
  assert (k1 = k2) as <-.
  { pose proof (Hget k1) as H1. pose proof (Hget k2) as H2. simpl in H1, H2.
    rewrite decide_True in H1 by done. rewrite (decide_True (P := k2 = k2)) in H2 by done.
    destruct (decide (k1 = k2)) as [|Hne]; [done|].
    rewrite decide_False in H2 by congruence.
    symmetry in H1. apply get_Some_in, (list_elem_of_fmap_2 fst) in H1.
    apply get_Some_in, (list_elem_of_fmap_2 fst) in H2.
    rewrite Forall_forall in Hl1, Hl2. simpl in *.
    destruct (str_lt_antisym k1 k2); auto. }
  assert (v1 = v2) as <-.
  { specialize (Hget k1). simpl in Hget. rewrite !decide_True in Hget by done. congruence. }
  f_equal. apply IH; [done..|]. intros k.
  destruct (decide (k = k1)) as [->|Hne].
  + by rewrite (wf_get_None _ _ _ Hw1), (wf_get_None _ _ _ Hw2).
  + specialize (Hget k). simpl in Hget. by rewrite !decide_False in Hget.
Qed.

Lemma remove_id k m : get k m = None -> remove k m = m.
Proof.
  induction m as [|[k' v'] m IH]; simpl; [done|].
  case_decide; [done|]. intros ?. by rewrite IH.
Qed.
End btree.

#[export] Hint Resolve wf_nil wf_insert wf_remove wf_insert_all wf_of_list : rekt.

(** Inserting a list of entries: the last entry of a key wins. *)
Lemma get_insert_all {V} (l : list (string * V)) m k :
  get k (insert_all l m) =
  match get k (reverse l) with Some v => Some v | None => get k m end.
Proof.
  revert m; induction l as [|[k1 v1] l IH]; intros m; [done|].
  simpl. rewrite IH, reverse_cons.
  assert (forall l1, get k (l1 ++ [(k1, v1)]) =
        match get k l1 with Some v => Some v | None => get k [(k1, v1)] end) as ->.
  { induction l1 as [|[a b] l1 IHl]; simpl; [done|]. case_decide; [done|]. by rewrite IHl. }
  destruct (get k (reverse l)); [done|]. simpl. rewrite get_insert.
  destruct (decide (k1 = k)), (decide (k = k1)); congruence.
Qed.

(** Writes to distinct keys commute. *)
Lemma insert_comm {V} k1 k2 (v1 v2 : V) m :
  wf m -> k1 <> k2 -> insert k1 v1 (insert k2 v2 m) = insert k2 v2 (insert k1 v1 m).
Proof.
  intros Hm Hne. apply btree_ext; [by auto with rekt..|]. intros k.
  rewrite !get_insert. repeat case_decide; congruence.
Qed.

Lemma insert_all_perm {V} (l1 l2 : list (string * V)) m :
  l1 ≡ₚ l2 -> NoDup (keys l1) -> wf m -> insert_all l1 m = insert_all l2 m.
Proof.
  intros Hp. revert m.
  induction Hp as [|[k v] l1 l2 Hp IH|[k1 v1] [k2 v2] l|l1 l2 l3 H1 IH1 H2 IH2];
    intros m Hnd Hm; simpl.
  - done.
  - apply NoDup_cons in Hnd as [_ Hnd]. apply IH; [done | by auto with rekt].
  - rewrite insert_comm; [done|done|].
    unfold keys in Hnd. simpl in Hnd. apply NoDup_cons in Hnd as [Hk _]. set_solver.
  - rewrite IH1 by done. apply IH2; [|done]. unfold keys in *. by rewrite <- H1.
Qed.

End BTreeMap.

(** ** [BTreeSet<String>] *)
Definition bset : Type := btree unit.

Module BTreeSet.
Definition empty : bset := [].
Definition insert (k : string) (s : bset) : bset := BTreeMap.insert k tt s.
Definition contains (k : string) (s : bset) : bool :=
  match BTreeMap.get k s with Some _ => true | None => false end.
Definition elements (s : bset) : list string := BTreeMap.keys s.

Lemma contains_insert k k' s :
  contains k' (insert k s) = true <-> k = k' \/ contains k' s = true.
Proof.
  unfold contains, insert. rewrite BTreeMap.get_insert. case_decide; naive_solver.
Qed.

Lemma contains_elements k s : contains k s = true <-> k ∈ elements s.
Proof.
  unfold contains, elements. pose proof (BTreeMap.get_None k s) as H.
  destruct (BTreeMap.get k s) eqn:E; [|naive_solver].
  split; [intros _ | done]. destruct (decide (k ∈ BTreeMap.keys s)); [done|].
  by apply H in n.
Qed.
End BTreeSet.
