(* ===== verification/Json.v ===== *)
(** * [serde_json::Value]

    The DDB-JSON form of rows and values ([{"S": "x"}], ...) and the
    shallow accessors the evaluators use on it. *)

From S2P Require Import Prelude BTree.

Inductive Value : Type :=
| VNull
| VBool (b : bool)
| VNumber (literal : string)
| VString (s : string)
| VArray (l : list Value)
| VObject (m : list (string * Value)).

(** Induction that reaches the elements of arrays and objects. *)
Section value_ind.
Variable P : Value -> Prop.
Hypothesis Hnull : P VNull.
Hypothesis Hbool : forall b, P (VBool b).
Hypothesis Hnumber : forall s, P (VNumber s).
Hypothesis Hstring : forall s, P (VString s).
Hypothesis Harray : forall l, Forall P l -> P (VArray l).
Hypothesis Hobject : forall m, Forall (fun kv => P kv.2) m -> P (VObject m).

Fixpoint value_nested_ind (v : Value) : P v :=
  match v with
  | VNull => Hnull
  | VBool b => Hbool b
  | VNumber s => Hnumber s
  | VString s => Hstring s
  | VArray l =>
      Harray l ((fix go l : Forall P l :=
        match l with
        | [] => List.Forall_nil _
        | v :: l => List.Forall_cons _ _ _ (value_nested_ind v) (go l)
        end) l)
  | VObject m =>
      Hobject m ((fix go m : Forall (fun kv => P kv.2) m :=
        match m with
        | [] => List.Forall_nil _
        | (k, v) :: m => List.Forall_cons _ (k, v) _ (value_nested_ind v) (go m)
        end) m)
  end.
End value_ind.

(** The derived [PartialEq] of [Value]. *)
Fixpoint value_eqb (v w : Value) : bool :=
  match v, w with
  | VNull, VNull => true
  | VBool a, VBool b => Bool.eqb a b
  | VNumber s, VNumber t => String.eqb s t
  | VString s, VString t => String.eqb s t
  | VArray l, VArray l' =>
      (fix go l l' :=
         match l, l' with
         | [], [] => true
         | v :: l, w :: l' => value_eqb v w && go l l'
         | _, _ => false
         end) l l'
  | VObject m, VObject m' =>
      (fix go m m' :=
         match m, m' with
         | [], [] => true
         | (k, v) :: m, (k', w) :: m' => String.eqb k k' && value_eqb v w && go m m'
         | _, _ => false
         end) m m'
  | _, _ => false
  end.

Lemma value_eqb_spec v w : value_eqb v w = true <-> v = w.
Proof.
  revert w.
  induction v as [|b|s|s|l IH|m IH] using value_nested_ind; intros w; destruct w; simpl;
    try (by split); try (by split; [done | intros [=]]).
  - rewrite Bool.eqb_true_iff. naive_solver.
  - rewrite String.eqb_eq. naive_solver.
  - rewrite String.eqb_eq. naive_solver.
  - rename l0 into l'. revert l'.
    induction IH as [|v l Hv Hl IHl]; intros [|w l'];
      try (by split); try (by split; [done | intros [=]]).
    rewrite andb_true_iff, Hv, IHl. naive_solver.
  - rename m0 into m'. revert m'.
    induction IH as [|[k v] m Hv Hm IHm]; intros [|[k' w] m'];
      try (by split); try (by split; [done | intros [=]]).
    simpl in Hv. rewrite !andb_true_iff, String.eqb_eq, Hv, IHm. naive_solver.
Qed.

#[export] Instance value_eq_dec : EqDecision Value.
Proof.
  intros v w. destruct (value_eqb v w) eqn:E; [left | right].
  - by apply value_eqb_spec.
  - intros ->. by rewrite (proj2 (value_eqb_spec w w) eq_refl) in E.
Defined.

(** [Value::get(&str)], [as_str], [as_array], [as_object]. *)
Definition value_get (v : Value) (k : string) : option Value :=
  match v with
  | VObject m => BTreeMap.get k m
  | _ => None
  end.

Definition as_str (v : Value) : option string :=
  match v with VString s => Some s | _ => None end.

Definition as_array (v : Value) : option (list Value) :=
  match v with VArray l => Some l | _ => None end.

Definition as_object (v : Value) : option (list (string * Value)) :=
  match v with VObject m => Some m | _ => None end.

(** [impl Display for serde_json::Value], used in error messages only. *)
Class SerdeJson : Type := { value_to_string : Value -> string }.

(** The standard DDB-JSON shape [{"<TAG>": <inner>}]: a map of exactly
    one entry. *)
Definition single_tagged (v : Value) : option (string * Value) :=
  match as_object v with
  | None => None
  | Some m => if Nat.eqb (length m) 1 then head m else None
  end.

(** [serde_json::json!({ tag: inner })]. *)
Definition tagged (tag : string) (inner : Value) : Value := VObject [(tag, inner)].

Lemma single_tagged_tagged t v : single_tagged (tagged t v) = Some (t, v).
Proof. done. Qed.

Lemma single_tagged_Some v t i : single_tagged v = Some (t, i) <-> v = tagged t i.
Proof.
  unfold single_tagged, tagged. split; [|by intros ->].
  destruct v as [| | | | |[|[k w] [|? m]]]; simpl; try done. by intros [= -> ->].
Qed.

(** Every object in a value has strictly increasing keys: the invariant
    that [serde_json::Map] maintains. *)
Fixpoint wf_value (v : Value) : Prop :=
  match v with
  | VArray l =>
      (fix go l : Prop := match l with [] => True | v :: l => wf_value v /\ go l end) l
  | VObject m =>
      BTreeMap.wf m /\
      (fix go m : Prop := match m with [] => True | (_, v) :: m => wf_value v /\ go m end) m
  | _ => True
  end.

Lemma wf_value_array l : wf_value (VArray l) <-> Forall wf_value l.
Proof.
  simpl. induction l as [|v l IH]; [split; [constructor|done]|].
  rewrite Forall_cons, <- IH. done.
Qed.

Lemma wf_value_object m :
  wf_value (VObject m) <-> BTreeMap.wf m /\ Forall (fun kv => wf_value kv.2) m.
Proof.
  simpl. f_equiv. induction m as [|[k v] m IH]; [split; [constructor|done]|].
  rewrite Forall_cons, <- IH. done.
Qed.

Lemma wf_value_get m k v :
  Forall (fun kv => wf_value kv.2) m -> BTreeMap.get k m = Some v -> wf_value v.
Proof.
  intros Hm Hget. apply BTreeMap.get_Some_in in Hget.
  rewrite Forall_forall in Hm. by apply (Hm (k, v)).
Qed.
