(* ===== verification/Attr.v ===== *)
(** * [AttributeValue] and its wire form (rekt-protocol)

    The polymorphic DynamoDB value, its serde serialisation to DDB-JSON
    and the visitor that reads it back.  Base64 is the [base64] crate: a
    parameter with its documented inverse law ([Base64]); a concrete
    RFC 4648 instance is in [Base64Std]. *)

From S2P Require Import Prelude BTree Json.

Inductive AttributeValue : Type :=
| S_ (s : string)
| N_ (n : string)
| B_ (b : bytes)
| Bool_ (b : bool)
| Null_
| L_ (l : list AttributeValue)
| M_ (m : list (string * AttributeValue))
| Ss_ (l : list string)
| Ns_ (l : list string)
| Bs_ (l : list bytes).

Definition Item : Type := btree AttributeValue.

Section av_ind.
Variable P : AttributeValue -> Prop.
Hypothesis HS : forall s, P (S_ s).
Hypothesis HN : forall s, P (N_ s).
Hypothesis HB : forall b, P (B_ b).
Hypothesis HBool : forall b, P (Bool_ b).
Hypothesis HNull : P Null_.
Hypothesis HL : forall l, Forall P l -> P (L_ l).
Hypothesis HM : forall m, Forall (fun kv => P kv.2) m -> P (M_ m).
Hypothesis HSs : forall l, P (Ss_ l).
Hypothesis HNs : forall l, P (Ns_ l).
Hypothesis HBs : forall l, P (Bs_ l).

Fixpoint av_nested_ind (v : AttributeValue) : P v :=
  match v with
  | S_ s => HS s | N_ s => HN s | B_ b => HB b | Bool_ b => HBool b | Null_ => HNull
  | L_ l => HL l ((fix go l : Forall P l :=
      match l with
      | [] => List.Forall_nil _
      | v :: l => List.Forall_cons _ _ _ (av_nested_ind v) (go l)
      end) l)
  | M_ m => HM m ((fix go m : Forall (fun kv => P kv.2) m :=
      match m with
      | [] => List.Forall_nil _
      | (k, v) :: m => List.Forall_cons _ (k, v) _ (av_nested_ind v) (go m)
      end) m)
  | Ss_ l => HSs l | Ns_ l => HNs l | Bs_ l => HBs l
  end.
End av_ind.

(** The maps inside a value are [BTreeMap]s. *)
Fixpoint wf_av (v : AttributeValue) : Prop :=
  match v with
  | L_ l => (fix go l : Prop := match l with [] => True | v :: l => wf_av v /\ go l end) l
  | M_ m => BTreeMap.wf m /\
      (fix go m : Prop := match m with [] => True | (_, v) :: m => wf_av v /\ go m end) m
  | _ => True
  end.

Definition wf_item (m : Item) : Prop := BTreeMap.wf m /\ Forall (fun kv => wf_av kv.2) m.

Lemma wf_av_L l : wf_av (L_ l) <-> Forall wf_av l.
Proof.
  simpl. induction l as [|v l IH]; [split; [constructor|done]|].
  rewrite Forall_cons, <- IH. done.
Qed.

Lemma wf_av_M m : wf_av (M_ m) <-> wf_item m.
Proof.
  unfold wf_item. simpl. f_equiv. induction m as [|[k v] m IH]; [split; [constructor|done]|].
  rewrite Forall_cons, <- IH. done.
Qed.

Definition type_name (v : AttributeValue) : string :=
  match v with
  | S_ _ => "S"
  | N_ _ => "N"
  | B_ _ => "B"
  | Bool_ _ => "BOOL"
  | Null_ => "NULL"
  | L_ _ => "L"
  | M_ _ => "M"
  | Ss_ _ => "SS"
  | Ns_ _ => "NS"
  | Bs_ _ => "BS"
  end.

(** The [base64] crate's [STANDARD] engine. *)
Class Base64 : Type := {
  b64_encode : bytes -> string;
  b64_decode : string -> option bytes;
  b64_decode_encode : forall b, b64_decode (b64_encode b) = Some b
}.

(** What the [Deserialize] visitor reports. *)
Inductive DeError : Type :=
| EmptyObject
| InvalidBase64
| NullNotTrue
| UnknownVariant (key : string)
| MoreThanOneKey
| InvalidType.

Section serde.
Context `{Base64}.

(** [impl Serialize for AttributeValue], through [serde_json::to_value]. *)
Fixpoint to_value (v : AttributeValue) : Value :=
  match v with
  | S_ s => tagged "S" (VString s)
  | N_ s => tagged "N" (VString s)
  | B_ b => tagged "B" (VString (b64_encode b))
  | Bool_ b => tagged "BOOL" (VBool b)
  | Null_ => tagged "NULL" (VBool true)
  | L_ l => tagged "L" (VArray (map to_value l))
  | M_ m => tagged "M" (VObject (map (fun kv => match kv with (k, v) => (k, to_value v) end) m))
  | Ss_ l => tagged "SS" (VArray (map VString l))
  | Ns_ l => tagged "NS" (VArray (map VString l))
  | Bs_ l => tagged "BS" (VArray (map (fun b => VString (b64_encode b)) l))
  end.

(** [serde_json::to_value(&item)]. *)
Definition entry_to_value (kv : string * AttributeValue) : string * Value :=
  (kv.1, to_value kv.2).
Definition item_to_value (m : Item) : Value := VObject (map entry_to_value m).

(** The stored form of an optional row. *)
Definition row_value (existing : option Item) : option Value := item_to_value <$> existing.

(** [map.next_value::<String>()], [::<bool>()], [::<Vec<String>>()]. *)
Definition de_string (v : Value) : Result DeError string :=
  ok_or (as_str v) InvalidType.
Definition de_bool (v : Value) : Result DeError bool :=
  match v with VBool b => Ok b | _ => Err InvalidType end.
Definition de_strings (v : Value) : Result DeError (list string) :=
  match v with VArray l => collect de_string l | _ => Err InvalidType end.
Definition de_b64 (s : string) : Result DeError bytes := ok_or (b64_decode s) InvalidBase64.

(** [impl Deserialize for AttributeValue], through
    [serde_json::from_value]: the visitor takes the first key, reads
    its value, then requires that there is no second key. *)
Fixpoint from_value (v : Value) : Result DeError AttributeValue :=
  match v with
  | VObject [] => Err EmptyObject
  | VObject ((key, inner) :: rest) =>
      let? av :=
        (if String.eqb key "S" then let? s := de_string inner in Ok (S_ s)
         else if String.eqb key "N" then let? s := de_string inner in Ok (N_ s)
         else if String.eqb key "B" then
           let? s := de_string inner in let? b := de_b64 s in Ok (B_ b)
         else if String.eqb key "BOOL" then let? b := de_bool inner in Ok (Bool_ b)
         else if String.eqb key "NULL" then
           let? b := de_bool inner in if negb b then Err NullNotTrue else Ok Null_
         else if String.eqb key "L" then
           match inner with
           | VArray l => let? l := collect from_value l in Ok (L_ l)
           | _ => Err InvalidType
           end
         else if String.eqb key "M" then
           match inner with
           | VObject m =>
               let? m := collect (fun kv => match kv with
                 (k, v) => let? av := from_value v in Ok (k, av) end) m in
               Ok (M_ (BTreeMap.of_list m))
           | _ => Err InvalidType
           end
         else if String.eqb key "SS" then let? l := de_strings inner in Ok (Ss_ l)
         else if String.eqb key "NS" then let? l := de_strings inner in Ok (Ns_ l)
         else if String.eqb key "BS" then
           let? l := de_strings inner in let? bs := collect de_b64 l in Ok (Bs_ bs)
         else Err (UnknownVariant key)) in
      match rest with [] => Ok av | _ :: _ => Err MoreThanOneKey end
  | _ => Err InvalidType
  end.

(** [serde_json::from_value::<Item>]. *)
Definition entry_from_value (kv : string * Value) : Result DeError (string * AttributeValue) :=
  let? av := from_value kv.2 in Ok (kv.1, av).
Definition item_from_value (v : Value) : Result DeError Item :=
  match v with
  | VObject m => let? l := collect entry_from_value m in Ok (BTreeMap.of_list l)
  | _ => Err InvalidType
  end.

(** ** Lookups and well-formedness through serialisation *)

Lemma to_value_tag v : exists inner, to_value v = tagged (type_name v) inner.
Proof. destruct v; simpl; eauto. Qed.

Lemma keys_item_to_value m : BTreeMap.keys (map entry_to_value m) = BTreeMap.keys m.
Proof. unfold BTreeMap.keys. rewrite map_map. by apply map_ext. Qed.

Lemma to_value_M m : to_value (M_ m) = tagged "M" (item_to_value m).
Proof.
  simpl. unfold tagged, item_to_value. do 4 f_equal. apply map_ext. by intros [].
Qed.

Lemma get_item_to_value k (m : Item) :
  BTreeMap.get k (map entry_to_value m) = to_value <$> BTreeMap.get k m.
Proof.
  induction m as [|[k' v] m IH]; simpl; [done|].
  unfold entry_to_value. simpl. by case_decide.
Qed.

Lemma wf_to_value v : wf_av v -> wf_value (to_value v).
Proof.
  assert (forall t i, wf_value i -> wf_value (tagged t i)) as Ht.
  { intros t i Hi. apply wf_value_object. split; [apply BTreeMap.wf_cons; split; constructor|].
    by constructor. }
  assert (forall l, wf_value (VArray (map VString l))) as Hs.
  { intros l. apply wf_value_array, Forall_map, Forall_forall. done. }
  induction v as [| | | | |l IH|m IH| | |] using av_nested_ind; intros Hwf;
    try (apply Ht; first [apply Hs | done]).
  - apply Ht. rewrite wf_av_L in Hwf. apply wf_value_array, Forall_map.
    by rewrite Forall_forall in *; auto.
  - rewrite to_value_M. apply Ht.
    rewrite wf_av_M in Hwf. destruct Hwf as [Hm Hall]. apply wf_value_object. split.
    + unfold BTreeMap.wf in *. by rewrite <- keys_item_to_value in Hm.
    + apply Forall_map. rewrite Forall_forall in *. intros [k v] Hin. simpl.
      by apply (IH (k, v)), (Hall (k, v)).
  - apply Ht, wf_value_array, Forall_map, Forall_forall. done.
Qed.

Lemma insert_item_to_value k v (m : Item) :
  BTreeMap.insert k (to_value v) (map entry_to_value m) =
  map entry_to_value (BTreeMap.insert k v m).
Proof.
  induction m as [|[k' v'] m IH]; simpl; [done|].
  destruct (String.compare k k'); simpl; try done. unfold entry_to_value at 3. simpl.
  by rewrite IH.
Qed.

Lemma remove_item_to_value k (m : Item) :
  BTreeMap.remove k (map entry_to_value m) = map entry_to_value (BTreeMap.remove k m).
Proof.
  induction m as [|[k' v'] m IH]; simpl; [done|]. case_decide; simpl; [done|]. by rewrite IH.
Qed.

(** ** Round trip *)

Lemma collect_map {E A B C} (f : B -> Result E C) (g : A -> B) (h : A -> C) l :
  Forall (fun x => f (g x) = Ok (h x)) l -> collect f (map g l) = Ok (map h l).
Proof. induction 1 as [|x l Hx Hl IH]; simpl; [done|]. by rewrite Hx, IH. Qed.

Lemma insert_all_wf {V} (m1 m2 : btree V) :
  BTreeMap.wf (m1 ++ m2) -> BTreeMap.insert_all m2 m1 = m1 ++ m2.
Proof.
  revert m1; induction m2 as [|[k v] m2 IH]; intros m1 Hwf; simpl; [by rewrite app_nil_r|].
  assert (BTreeMap.insert k v m1 = m1 ++ [(k, v)]) as ->.
  { clear IH. unfold BTreeMap.wf, BTreeMap.keys in Hwf. rewrite map_app in Hwf. simpl in Hwf.
    induction m1 as [|[k' v'] m1 IH]; simpl in *; [done|].
    inversion Hwf as [|? ? Hs Hf]; subst.
    rewrite Forall_app, Forall_cons in Hf. destruct Hf as (_ & Hlt & _).
    unfold str_lt in Hlt. rewrite (String.compare_antisym k k'), Hlt. simpl.
    by rewrite IH. }
  rewrite IH; rewrite <- app_assoc; done.
Qed.

Lemma of_list_wf {V} (m : btree V) : BTreeMap.wf m -> BTreeMap.of_list m = m.
Proof. apply (insert_all_wf []). Qed.

Lemma de_strings_map (l : list string) : de_strings (VArray (map VString l)) = Ok l.
Proof.
  simpl. rewrite (collect_map _ _ (fun s => s)), map_id; [done|]. by apply Forall_forall.
Qed.

Lemma from_to_value v : wf_av v -> from_value (to_value v) = Ok v.
Proof.
  induction v as [| | | | |l IH|m IH|l|l|l] using av_nested_ind; intros Hwf; simpl; try done.
  - unfold de_b64. by rewrite b64_decode_encode.
  - rewrite wf_av_L in Hwf. rewrite (collect_map _ _ (fun v => v)), map_id; [done|].
    rewrite Forall_forall in *. auto.
  - rewrite wf_av_M in Hwf. destruct Hwf as [Hm Hall].
    rewrite (collect_map _ _ (fun kv => kv)), map_id; [by rewrite of_list_wf|].
    rewrite Forall_forall in *. intros [k v] Hin.
    pose proof (IH (k, v) Hin (Hall (k, v) Hin)) as Hv. simpl in Hv. by rewrite Hv.
  - pose proof (de_strings_map l) as Hd. unfold de_strings in Hd. by rewrite Hd.
  - pose proof (de_strings_map l) as Hd. unfold de_strings in Hd. by rewrite Hd.
  - rewrite (collect_map _ _ b64_encode) by (by apply Forall_forall).
    rewrite (collect_map _ _ (fun b => b)), map_id; [done|].
    apply Forall_forall. intros b _. unfold de_b64. by rewrite b64_decode_encode.
Qed.

Lemma item_from_to_value m : wf_item m -> item_from_value (item_to_value m) = Ok m.
Proof.
  intros [Hm Hall]. unfold item_to_value, item_from_value.
  rewrite (collect_map _ _ (fun kv => kv)), map_id; [by rewrite of_list_wf|].
  rewrite Forall_forall in *. intros [k v] Hin. unfold entry_from_value, entry_to_value. simpl.
  rewrite from_to_value; [done|]. by apply (Hall (k, v)).
Qed.

Lemma b64_encode_inj b c : b64_encode b = b64_encode c -> b = c.
Proof. intros H0. pose proof (b64_decode_encode b). rewrite H0, b64_decode_encode in *. congruence. Qed.

#[global] Instance vstring_inj : Inj (=) (=) VString.
Proof. by intros ?? [= ->]. Qed.
#[global] Instance vb64_inj : Inj (=) (=) (fun b => VString (b64_encode b)).
Proof. intros ?? [= Heq]. by apply b64_encode_inj. Qed.

(** Serialisation is injective: [==] on wire values is equality of
    attribute values. *)
Lemma to_value_inj v w : to_value v = to_value w -> v = w.
Proof.
  revert w; induction v as [| | | | |l IH|m IH| | |] using av_nested_ind;
    intros w; destruct w; intros Heq; try discriminate Heq;
    try (injection Heq as Heq); subst; try done; try (by f_equal; apply b64_encode_inj);
    f_equal.
  - revert l0 Heq. induction IH as [|v l Hv Hl IHl]; intros [|w l'] Heq; try done.
    injection Heq as H1 H2. by rewrite (Hv w H1), (IHl l' H2).
  - revert m0 Heq. induction IH as [|[k v] l Hv Hl IHl]; intros [|[k' w] l'] Heq; try done.
    injection Heq as H0 H1 H2. simpl in Hv. by rewrite H0, (Hv w H1), (IHl l' H2).
  - by apply (inj (fmap (M := list) VString)).
  - by apply (inj (fmap (M := list) VString)).
  - by apply (inj (fmap (M := list) (fun b => VString (b64_encode b)))).
Qed.

#[global] Instance to_value_inj' : Inj (=) (=) to_value.
Proof. exact to_value_inj. Qed.

(** C38: The wire form loses nothing: reading back the DDB-JSON of a
    well-formed attribute value gives that value (type tag, nested lists
    and maps, sets and binary included), no other value has the same
    wire form, and the same holds of whole items. *)
Theorem attribute_value_round_trip (v : AttributeValue) (m : Item) :
  wf_av v -> wf_item m ->
  from_value (to_value v) = Ok v
  /\ (forall w, to_value w = to_value v -> w = v)
  /\ item_from_value (item_to_value m) = Ok m.
Proof.
  intros Hv Hm. split; [by apply from_to_value|]. split; [|by apply item_from_to_value].
  intros w. apply to_value_inj.
Qed.
End serde.
