(* ===== verification/Base64Std.v ===== *)
(** * RFC 4648 base64

    A concrete instance of the [Base64] interface: the standard alphabet
    with mandatory canonical padding, which is what the [base64] crate's
    [STANDARD] engine implements.  It is used to evaluate the model on
    concrete inputs; the theorems are about any [Base64]. *)

From S2P Require Import Prelude Attr.

(** Six bits, most significant first. *)
Definition sextet : Type := bool * bool * bool * bool * bool * bool.

Definition sextet_nat (x : sextet) : nat :=
  let '(a, b, c, d, e, f) := x in
  let n (b : bool) := if b then 1 else 0 in
  ((((n a * 2 + n b) * 2 + n c) * 2 + n d) * 2 + n e) * 2 + n f.

Definition sextet_char (x : sextet) : ascii :=
  let n := sextet_nat x in
  ascii_of_nat
    (if Nat.ltb n 26 then 65 + n
     else if Nat.ltb n 52 then 97 + (n - 26)
     else if Nat.ltb n 62 then 48 + (n - 52)
     else if Nat.eqb n 62 then 43 else 47).

Definition sextets : list sextet :=
  let bs := [false; true] in
  a ← bs; b ← bs; c ← bs; d ← bs; e ← bs; f ← bs; [(a, b, c, d, e, f)].

Definition char_sextet (c : ascii) : option sextet :=
  List.find (fun x => Ascii.eqb (sextet_char x) c) sextets.

Definition pad : ascii := "="%char.

Definition bits_byte (a b c d e f g h : bool) : Byte.byte :=
  Byte.of_bits (h, (g, (f, (e, (d, (c, (b, a))))))).

Fixpoint encode (l : bytes) : string :=
  match l with
  | [] => EmptyString
  | [x] =>
      let '(a0, (a1, (a2, (a3, (a4, (a5, (a6, a7))))))) := Byte.to_bits x in
      String (sextet_char (a7, a6, a5, a4, a3, a2))
      (String (sextet_char (a1, a0, false, false, false, false))
      (String pad (String pad EmptyString)))
  | [x; y] =>
      let '(a0, (a1, (a2, (a3, (a4, (a5, (a6, a7))))))) := Byte.to_bits x in
      let '(b0, (b1, (b2, (b3, (b4, (b5, (b6, b7))))))) := Byte.to_bits y in
      String (sextet_char (a7, a6, a5, a4, a3, a2))
      (String (sextet_char (a1, a0, b7, b6, b5, b4))
      (String (sextet_char (b3, b2, b1, b0, false, false))
      (String pad EmptyString)))
  | x :: y :: z :: l =>
      let '(a0, (a1, (a2, (a3, (a4, (a5, (a6, a7))))))) := Byte.to_bits x in
      let '(b0, (b1, (b2, (b3, (b4, (b5, (b6, b7))))))) := Byte.to_bits y in
      let '(c0, (c1, (c2, (c3, (c4, (c5, (c6, c7))))))) := Byte.to_bits z in
      String (sextet_char (a7, a6, a5, a4, a3, a2))
      (String (sextet_char (a1, a0, b7, b6, b5, b4))
      (String (sextet_char (b3, b2, b1, b0, c7, c6))
      (String (sextet_char (c5, c4, c3, c2, c1, c0)) (encode l))))
  end.

Definition decode1 (p q : ascii) : option bytes :=
  match char_sextet p, char_sextet q with
  | Some (a7, a6, a5, a4, a3, a2), Some (a1, a0, false, false, false, false) =>
      Some [bits_byte a7 a6 a5 a4 a3 a2 a1 a0]
  | _, _ => None
  end.

Definition decode2 (p q r : ascii) : option bytes :=
  match char_sextet p, char_sextet q, char_sextet r with
  | Some (a7, a6, a5, a4, a3, a2), Some (a1, a0, b7, b6, b5, b4),
    Some (b3, b2, b1, b0, false, false) =>
      Some [bits_byte a7 a6 a5 a4 a3 a2 a1 a0; bits_byte b7 b6 b5 b4 b3 b2 b1 b0]
  | _, _, _ => None
  end.

Definition decode3 (p q r s : ascii) : option bytes :=
  match char_sextet p, char_sextet q, char_sextet r, char_sextet s with
  | Some (a7, a6, a5, a4, a3, a2), Some (a1, a0, b7, b6, b5, b4),
    Some (b3, b2, b1, b0, c7, c6), Some (c5, c4, c3, c2, c1, c0) =>
      Some [bits_byte a7 a6 a5 a4 a3 a2 a1 a0; bits_byte b7 b6 b5 b4 b3 b2 b1 b0;
            bits_byte c7 c6 c5 c4 c3 c2 c1 c0]
  | _, _, _, _ => None
  end.

Fixpoint decode (s : string) : option bytes :=
  match s with
  | EmptyString => Some []
  | String p (String q (String r (String t rest))) =>
      if Ascii.eqb r pad && Ascii.eqb t pad && bool_decide (rest = EmptyString) then decode1 p q
      else if Ascii.eqb t pad && bool_decide (rest = EmptyString) then decode2 p q r
      else match decode3 p q r t, decode rest with
           | Some x, Some y => Some (x ++ y)
           | _, _ => None
           end
  | _ => None
  end.

Lemma char_sextet_char x : char_sextet (sextet_char x) = Some x.
Proof. by destruct x as [[[[[[] []] []] []] []] []]; vm_compute. Qed.

Lemma sextet_char_not_pad x : Ascii.eqb (sextet_char x) pad = false.
Proof. by destruct x as [[[[[[] []] []] []] []] []]; vm_compute. Qed.

Lemma bits_byte_to_bits x :
  let '(a0, (a1, (a2, (a3, (a4, (a5, (a6, a7))))))) := Byte.to_bits x in
  bits_byte a7 a6 a5 a4 a3 a2 a1 a0 = x.
Proof.
  pose proof (Byte.of_bits_to_bits x) as H.
  by destruct (Byte.to_bits x) as (a0 & a1 & a2 & a3 & a4 & a5 & a6 & a7).
Qed.

Ltac byte_bits x :=
  let H := fresh "Hbits" in
  pose proof (bits_byte_to_bits x) as H;
  let E := fresh "Ebits" in
  destruct (Byte.to_bits x) as (? & ? & ? & ? & ? & ? & ? & ?) eqn:E.

Lemma decode_encode l : decode (encode l) = Some l.
Proof.
  assert (forall n l, length l <= n -> decode (encode l) = Some l) as Hn; [|by apply (Hn (length l))].
  clear l. induction n as [|n IH]; intros l Hl; [by destruct l; simpl in Hl; [|lia]|].
  destruct l as [|x [|y [|z l]]]; [done|..]; simpl.
  - byte_bits x. simpl. unfold decode1. by rewrite !char_sextet_char, Hbits.
  - byte_bits x. byte_bits y. simpl. rewrite sextet_char_not_pad. simpl.
    unfold decode2. by rewrite !char_sextet_char, Hbits, Hbits0.
  - byte_bits x. byte_bits y. byte_bits z. simpl. rewrite !sextet_char_not_pad. simpl.
    rewrite IH by (simpl in Hl; lia). unfold decode3.
    rewrite !char_sextet_char, Hbits, Hbits0, Hbits1. done.
Qed.

#[export] Instance base64_std : Base64 :=
  {| b64_encode := encode; b64_decode := decode; b64_decode_encode := decode_encode |}.

(** A nested item on which the wire round trip is evaluated. *)
Definition sample_av : AttributeValue :=
  M_ [("b", B_ [Byte.x00; Byte.xff]); ("l", L_ [N_ "1"; Null_; Ss_ ["x"; "y"]])].

Lemma attribute_value_round_trip_witness :
  wf_av sample_av /\ wf_item [("k", sample_av)]
  /\ from_value (to_value sample_av) = Ok sample_av
  /\ item_from_value (item_to_value [("k", sample_av)]) = Ok [("k", sample_av)].
Proof.
  assert (Hv : wf_av sample_av) by (simpl; repeat split; repeat constructor).
  assert (Hm : wf_item [("k", sample_av)]) by (split; [|constructor; [exact Hv|]]; repeat constructor).
  destruct (attribute_value_round_trip sample_av [("k", sample_av)] Hv Hm) as (E1 & _ & E2).
  split; [done|]. split; [done|]. by split.
Defined.
