(* ===== verification/Ast.v ===== *)
(** * Expression ASTs (rekt-expressions, [ast.rs])

    The raw trees the parser produces, with [#n] and [:v] placeholders,
    and the resolved trees that substitution produces from them. *)

From S2P Require Import Prelude BTree Attr.

(** ** Resolved trees *)

Inductive PathSegment : Type :=
| PathSegment_Name (n : string)
| PathSegment_Index (i : N).

Record Path : Type := mkPath { segments : list PathSegment }.

Inductive Operand : Type :=
| Operand_Path (p : Path)
| Operand_Value (v : AttributeValue).

Inductive SetRhs : Type :=
| SetRhs_Operand (o : Operand)
| SetRhs_Plus (a b : Operand)
| SetRhs_Minus (a b : Operand)
| SetRhs_IfNotExists (p : Path) (r : SetRhs)
| SetRhs_ListAppend (a b : SetRhs).

Record SetClause : Type := mkSetClause { set_path : Path; set_value : SetRhs }.
Record AddAction : Type := mkAddAction { add_path : Path; add_value : AttributeValue }.
Record DeleteAction : Type := mkDeleteAction { del_path : Path; del_value : AttributeValue }.

Record UpdateExpression : Type := mkUpdateExpression {
  ue_set : list SetClause;
  ue_remove : list Path;
  ue_add : list AddAction;
  ue_delete : list DeleteAction
}.

Inductive ComparisonOp : Type := Eq_ | Ne_ | Lt_ | Le_ | Gt_ | Ge_.

Inductive Condition : Type :=
| Condition_Compare (op : ComparisonOp) (left right : Operand)
| Condition_AttributeExists (p : Path)
| Condition_AttributeNotExists (p : Path)
| Condition_BeginsWith (p : Path) (o : Operand)
| Condition_Contains (p : Path) (o : Operand)
| Condition_Between (v lo hi : Operand)
| Condition_In (v : Operand) (items : list Operand)
| Condition_AttributeType (p : Path) (o : Operand)
| Condition_And (a b : Condition)
| Condition_Or (a b : Condition)
| Condition_Not (c : Condition).

#[export] Instance ComparisonOp_eq_dec : EqDecision ComparisonOp.
Proof. solve_decision. Defined.

(** [ComparisonOp::as_str]. *)
Definition as_str_op (op : ComparisonOp) : string :=
  match op with
  | Eq_ => "="
  | Ne_ => "<>"
  | Lt_ => "<"
  | Le_ => "<="
  | Gt_ => ">"
  | Ge_ => ">="
  end.

(** [Path::is_top_level]. *)
Definition is_top_level (p : Path) : bool :=
  match segments p with
  | [PathSegment_Name _] => true
  | _ => false
  end.

(** [Path::top_name]: the first segment, if it is a name. *)
Definition top_name (p : Path) : option string :=
  match head (segments p) with
  | Some (PathSegment_Name n) => Some n
  | _ => None
  end.

(** [UpdateExpression::is_simple]: only top-level [SET attr = literal]
    and [REMOVE attr]. *)
Definition is_simple (e : UpdateExpression) : bool :=
  match ue_add e with [] => true | _ => false end
  && match ue_delete e with [] => true | _ => false end
  && forallb (fun c => is_top_level (set_path c) &&
                       match set_value c with
                       | SetRhs_Operand (Operand_Value _) => true
                       | _ => false
                       end) (ue_set e)
  && forallb is_top_level (ue_remove e).

(** The bare top-level path [n]. *)
Definition name_path (n : string) : Path := mkPath [PathSegment_Name n].

Lemma is_top_level_iff p : is_top_level p = true <-> exists n, p = name_path n.
Proof.
  unfold is_top_level, name_path. destruct p as [[|[n|i] [|? ?]]]; simpl; naive_solver.
Qed.

Lemma top_name_name_path n : top_name (name_path n) = Some n.
Proof. done. Qed.

(** ** Raw trees *)

Inductive RawPathSegment : Type :=
| RawPathSegment_Name (n : string)
| RawPathSegment_NameRef (n : string)
| RawPathSegment_Index (i : N).

Record RawPath : Type := mkRawPath { raw_segments : list RawPathSegment }.

Inductive RawOperand : Type :=
| RawOperand_Path (p : RawPath)
| RawOperand_ValueRef (v : string).

Inductive RawSetRhs : Type :=
| RawSetRhs_Operand (o : RawOperand)
| RawSetRhs_Plus (a b : RawOperand)
| RawSetRhs_Minus (a b : RawOperand)
| RawSetRhs_IfNotExists (p : RawPath) (r : RawSetRhs)
| RawSetRhs_ListAppend (a b : RawSetRhs).

Record RawSetClause : Type := mkRawSetClause { raw_set_path : RawPath; raw_set_value : RawSetRhs }.
Record RawAddAction : Type := mkRawAddAction { raw_add_path : RawPath; raw_add_value : RawOperand }.
Record RawDeleteAction : Type :=
  mkRawDeleteAction { raw_del_path : RawPath; raw_del_value : RawOperand }.

Record RawUpdateExpression : Type := mkRawUpdateExpression {
  raw_set : list RawSetClause;
  raw_remove : list RawPath;
  raw_add : list RawAddAction;
  raw_delete : list RawDeleteAction
}.

Inductive RawCondition : Type :=
| RawCondition_Compare (op : ComparisonOp) (left right : RawOperand)
| RawCondition_AttributeExists (p : RawPath)
| RawCondition_AttributeNotExists (p : RawPath)
| RawCondition_BeginsWith (p : RawPath) (o : RawOperand)
| RawCondition_Contains (p : RawPath) (o : RawOperand)
| RawCondition_Between (v lo hi : RawOperand)
| RawCondition_In (v : RawOperand) (items : list RawOperand)
| RawCondition_AttributeType (p : RawPath) (o : RawOperand)
| RawCondition_And (a b : RawCondition)
| RawCondition_Or (a b : RawCondition)
| RawCondition_Not (c : RawCondition).

#[export] Instance RawPathSegment_eq_dec : EqDecision RawPathSegment.
Proof. solve_decision. Defined.
#[export] Instance RawPath_eq_dec : EqDecision RawPath.
Proof. solve_decision. Defined.
#[export] Instance RawOperand_eq_dec : EqDecision RawOperand.
Proof. solve_decision. Defined.
