(* ===== verification/Winnow.v ===== *)
(** * The parser-combinator interface

    [rekt-expressions] parses with the [winnow] crate.  The crate is a
    parameter: the class [Winnow] has one field for each combinator and
    token parser the expression parser calls, with the behaviour its
    documentation states.  A parser maps the remaining input to a value
    and the input left, or fails ([ErrMode::Backtrack]; the expression
    parsers never raise [Cut]).  [winnow_reference] shows that the laws
    can be met together, and evaluates the parsers on concrete inputs. *)

From S2P Require Import Prelude RustStr.

Definition P (A : Type) : Type := string -> option (A * string).

Definition ret {A} (a : A) : P A := fun s => Some (a, s).
Definition bind {A B} (p : P A) (k : A -> P B) : P B := fun s =>
  match p s with
  | Some (a, s') => k a s'
  | None => None
  end.

#[export] Instance P_ret : MRet P := @ret.
#[export] Instance P_bind : MBind P := fun A B k p => bind p k.

Lemma bind_eq {A B} (p : P A) (k : A -> P B) s :
  (p ≫= k) s = match p s with Some (a, s') => k a s' | None => None end.
Proof. done. Qed.

(** Space, tab, carriage return, line feed. *)
Definition is_multispace (c : ascii) : bool :=
  existsb (Nat.eqb (code c)) [32; 9; 13; 10].

Fixpoint strip_prefix_caseless (p s : string) : option string :=
  match p, s with
  | EmptyString, _ => Some s
  | String a p, String b s =>
      if Ascii.eqb (to_ascii_lowercase a) (to_ascii_lowercase b)
      then strip_prefix_caseless p s else None
  | String _ _, EmptyString => None
  end.

(** The first alternative that succeeds. *)
Fixpoint first_of {A} (ps : list (P A)) (s : string) : option (A * string) :=
  match ps with
  | [] => None
  | p :: ps => match p s with Some r => Some r | None => first_of ps s end
  end.

(** [winnow::error::ParseError]: the input the parse started from, the
    offset of the failure in it, and the rendered inner error. *)
Record WinnowParseError : Type := mkWinnowParseError {
  pe_input : string;
  pe_offset : nat;
  pe_inner : string
}.

Class Winnow : Type := {
  literal : string -> P unit;
  literal_spec t s :
    literal t s = (fun r => (tt, r)) <$> strip_prefix t s;

  caseless : string -> P unit;
  caseless_spec t s :
    caseless t s = (fun r => (tt, r)) <$> strip_prefix_caseless t s;

  multispace0 : P unit;
  multispace0_spec s : multispace0 s = Some (tt, (span is_multispace s).2);

  multispace1 : P unit;
  multispace1_spec s :
    multispace1 s =
    match (span is_multispace s).1 with
    | EmptyString => None
    | String _ _ => Some (tt, (span is_multispace s).2)
    end;

  digit1 : P string;
  digit1_spec s :
    digit1 s =
    match (span is_ascii_digit s).1 with
    | EmptyString => None
    | String _ _ => Some (span is_ascii_digit s)
    end;

  (** [take_while(0.., f)] and [take_while(1..=1, f)]. *)
  take_while0 : (ascii -> bool) -> P string;
  take_while0_spec f s : take_while0 f s = Some (span f s);

  take_one : (ascii -> bool) -> P string;
  take_one_spec f s :
    take_one f s =
    match s with
    | String c r => if f c then Some (String c EmptyString, r) else None
    | EmptyString => None
    end;

  fail : forall {A}, P A;
  fail_spec A s : @fail A s = None;

  opt : forall {A}, P A -> P (option A);
  opt_spec A (p : P A) s :
    opt p s = match p s with
              | Some (a, s') => Some (Some a, s')
              | None => Some (None, s)
              end;

  (** [alt((p1, .., pn))]. *)
  alt : forall {A}, list (P A) -> P A;
  alt_spec A (ps : list (P A)) s :
    alt ps s = first_of ps s;

  preceded : forall {A B}, P A -> P B -> P B;
  preceded_spec A B (p : P A) (q : P B) s : preceded p q s = (p ;; q) s;

  terminated : forall {A B}, P A -> P B -> P A;
  terminated_spec A B (p : P A) (q : P B) s :
    terminated p q s = (a ← p; q ;; ret a) s;

  delimited : forall {A B C}, P A -> P B -> P C -> P B;
  delimited_spec A B C (p : P A) (q : P B) (r : P C) s :
    delimited p q r s = (p ;; b ← q; r ;; ret b) s;

  (** [repeat(0.., p)] and [repeat(1.., p)], for a parser that consumes
      input whenever it succeeds. *)
  repeat0 : forall {A}, P A -> P (list A);
  repeat0_stop A (p : P A) s : p s = None -> repeat0 p s = Some ([], s);
  repeat0_step A (p : P A) s a s' :
    p s = Some (a, s') -> String.length s' < String.length s ->
    repeat0 p s = (l ← repeat0 p; ret (a :: l)) s';

  repeat1 : forall {A}, P A -> P (list A);
  repeat1_stop A (p : P A) s : p s = None -> repeat1 p s = None;
  repeat1_step A (p : P A) s a s' :
    p s = Some (a, s') -> String.length s' < String.length s ->
    repeat1 p s = (l ← repeat0 p; ret (a :: l)) s';

  (** [separated(1.., p, sep)]: a separator that is not followed by an
      element is not consumed. *)
  separated1 : forall {A}, P A -> P unit -> P (list A);
  separated1_stop A (p : P A) sep s : p s = None -> separated1 p sep s = None;
  separated1_last A (p : P A) sep s a s' :
    p s = Some (a, s') -> (sep ;; p) s' = None ->
    separated1 p sep s = Some ([a], s');
  separated1_more A (p : P A) sep s a s' u s1 b s2 :
    p s = Some (a, s') -> sep s' = Some (u, s1) -> p s1 = Some (b, s2) ->
    String.length s2 < String.length s' ->
    separated1 p sep s = (l ← separated1 p sep; ret (a :: l)) s1;

  (** [Parser::parse]: the whole input must be consumed.  The error keeps
      the input at the location where parsing started. *)
  parse_error : forall {A}, P A -> string -> WinnowParseError;
  parse_error_input A (p : P A) s : pe_input (parse_error p s) = s
}.

Definition parse `{Winnow} {A} (p : P A) (s : string) : Result WinnowParseError A :=
  match p s with
  | Some (a, EmptyString) => Ok a
  | _ => Err (parse_error p s)
  end.

(** ** Facts about spans *)

Lemma strip_prefix_length p s r :
  strip_prefix p s = Some r -> String.length r = String.length s - String.length p.
Proof. intros ->%strip_prefix_Some. rewrite app_length_str. lia. Qed.

Lemma strip_prefix_app p r : strip_prefix p (p +:+ r) = Some r.
Proof. by apply strip_prefix_Some. Qed.

Lemma strip_prefix_caseless_app p r : strip_prefix_caseless p (p +:+ r) = Some r.
Proof. induction p as [|c p IH]; simpl; [done|]. by rewrite Ascii.eqb_refl. Qed.

Lemma strip_prefix_caseless_length p s r :
  strip_prefix_caseless p s = Some r ->
  String.length r + String.length p = String.length s.
Proof.
  revert s; induction p as [|a p IH]; intros s; simpl; [intros [= ->]; lia|].
  destruct s as [|b s]; [done|]. case_match; [|done]. intros Hr%IH. simpl. lia.
Qed.

(** ** A model of the interface

    [repeat] and [separated] by fuel; an iteration that consumes nothing
    is an error, as the crate documents. *)

Fixpoint repeat_ref (n : nat) {A} (p : P A) : P (list A) := fun s =>
  match n with
  | 0 => None
  | S n => match p s with
           | None => Some ([], s)
           | Some (a, s') =>
               if Nat.ltb (String.length s') (String.length s)
               then (l ← repeat_ref n p; ret (a :: l)) s' else None
           end
  end.

Lemma repeat_ref_fuel {A} (p : P A) n m s :
  String.length s < n -> String.length s < m -> repeat_ref n p s = repeat_ref m p s.
Proof.
  revert m s; induction n as [|n IH]; intros m s Hn Hm; [lia|].
  destruct m as [|m]; [lia|]. simpl. destruct (p s) as [[a s']|] eqn:E; [|done].
  destruct (Nat.ltb_spec (String.length s') (String.length s)); [|done].
  rewrite !bind_eq. by rewrite (IH m) by lia.
Qed.

Fixpoint separated_ref (n : nat) {A} (p : P A) (sep : P unit) : P (list A) := fun s =>
  match n with
  | 0 => None
  | S n => match p s with
           | None => None
           | Some (a, s') =>
               match sep s' with
               | None => Some ([a], s')
               | Some (_, s1) =>
                   match p s1 with
                   | None => Some ([a], s')
                   | Some (_, s2) =>
                       if Nat.ltb (String.length s2) (String.length s')
                       then (l ← separated_ref n p sep; ret (a :: l)) s1 else None
                   end
               end
           end
  end.

Lemma separated_ref_fuel {A} (p : P A) sep n m s a s' :
  p s = Some (a, s') -> String.length s' < n -> String.length s' < m ->
  separated_ref n p sep s = separated_ref m p sep s.
Proof.
  revert m s a s'; induction n as [|n IH]; intros m s a s' Hp Hn Hm; [lia|].
  destruct m as [|m]; [lia|]. simpl. rewrite Hp.
  destruct (sep s') as [[u s1]|] eqn:E1; [|done].
  destruct (p s1) as [[b s2]|] eqn:E2; [|done].
  destruct (Nat.ltb_spec (String.length s2) (String.length s')); [|done].
  rewrite !bind_eq. by rewrite (IH m s1 b s2) by (done || lia).
Qed.

Definition separated_full {A} (p : P A) (sep : P unit) : P (list A) := fun s =>
  match p s with
  | None => None
  | Some (_, s') => separated_ref (S (String.length s')) p sep s
  end.

#[export] Instance winnow_reference : Winnow.
Proof.
  refine {|
    literal t s := (fun r => (tt, r)) <$> strip_prefix t s;
    caseless t s := (fun r => (tt, r)) <$> strip_prefix_caseless t s;
    multispace0 s := Some (tt, (span is_multispace s).2);
    multispace1 s := match (span is_multispace s).1 with
                     | EmptyString => None
                     | String _ _ => Some (tt, (span is_multispace s).2)
                     end;
    digit1 s := match (span is_ascii_digit s).1 with
                | EmptyString => None
                | String _ _ => Some (span is_ascii_digit s)
                end;
    take_while0 f s := Some (span f s);
    take_one f s := match s with
                    | String c r => if f c then Some (String c EmptyString, r) else None
                    | EmptyString => None
                    end;
    fail A s := None;
    opt A p s := match p s with
                 | Some (a, s') => Some (Some a, s')
                 | None => Some (None, s)
                 end;
    alt A ps s := first_of ps s;
    preceded A B p q := p ;; q;
    terminated A B p q := a ← p; q ;; ret a;
    delimited A B C p q r := p ;; b ← q; r ;; ret b;
    repeat0 A p s := repeat_ref (S (String.length s)) p s;
    repeat1 A p s := match p s with
                     | None => None
                     | Some _ => repeat_ref (S (String.length s)) p s
                     end;
    separated1 A p sep := separated_full p sep;
    parse_error A p s := mkWinnowParseError s 0 "parse error"
  |}; try done.
  - intros A p s Hp. simpl. by rewrite Hp.
  - intros A p s a s' Hp Hlt. simpl repeat_ref at 1. rewrite Hp.
    rewrite (proj2 (Nat.ltb_lt _ _) Hlt). rewrite !bind_eq.
    by rewrite (repeat_ref_fuel p (String.length s) (S (String.length s')) s') by lia.
  - intros A p s Hp. by rewrite Hp.
  - intros A p s a s' Hp Hlt. rewrite Hp. simpl repeat_ref at 1. rewrite Hp.
    rewrite (proj2 (Nat.ltb_lt _ _) Hlt). rewrite !bind_eq.
    by rewrite (repeat_ref_fuel p (String.length s) (S (String.length s')) s') by lia.
  - intros A p sep s Hp. unfold separated_full. by rewrite Hp.
  - intros A p sep s a s' Hp Hn. unfold separated_full. rewrite Hp. simpl. rewrite Hp.
    rewrite bind_eq in Hn. destruct (sep s') as [[u s1]|]; [|done]. by rewrite Hn.
  - intros A p sep s a s' u s1 b s2 Hp Hs Hp1 Hlt. rewrite bind_eq. unfold separated_full.
    rewrite Hp, Hp1. simpl separated_ref at 1. rewrite Hp, Hs, Hp1.
    rewrite (proj2 (Nat.ltb_lt _ _) Hlt). rewrite bind_eq.
    by rewrite (separated_ref_fuel p sep (String.length s') (S (String.length s2)) s1 b s2)
      by (done || lia).
Defined.
