(* ===== verification/Parser.v ===== *)
(** * The expression parsers (rekt-expressions, [parser.rs])

    One definition per parser function, over the combinator interface of
    [Winnow].  The recursive parsers ([set_rhs]; [or_expr], [and_expr],
    [not_expr], [cond_atom]) and the [while opt(..)] loops carry fuel;
    the entry points supply an amount computed from the length of the
    input, and [ParserFuel] proves that any larger amount gives the same
    result. *)

From S2P Require Import Prelude RustStr Attr Ast Winnow.

Inductive ParseError : Type :=
| ParseError_Invalid (kind : string) (position : nat) (message : string)
| ParseError_Empty (kind : string)
| ParseError_DuplicateKeyword (clause : string).

(** [ParseError::from_winnow]. *)
Definition from_winnow (kind input_orig : string) (e : WinnowParseError) : ParseError :=
  ParseError_Invalid kind (String.length input_orig - String.length (pe_input e)) (pe_inner e).

Inductive RawClauseBlock : Type :=
| RawClauseBlock_Set (v : list RawSetClause)
| RawClauseBlock_Remove (v : list RawPath)
| RawClauseBlock_Add (v : list RawAddAction)
| RawClauseBlock_Delete (v : list RawDeleteAction).

Definition is_underscore (c : ascii) : bool := Ascii.eqb c "_".
Definition is_ident_start (c : ascii) : bool := is_ascii_alphabetic c || is_underscore c.
Definition is_ident_char (c : ascii) : bool := is_ascii_alphanumeric c || is_underscore c.

Section parser.
Context `{Winnow}.

(** ** Paths, names, values *)

Definition ident : P string :=
  first ← take_one is_ident_start;
  rest ← take_while0 is_ident_char;
  ret (first +:+ rest).

Definition name_ref : P string := preceded (literal "#") ident.
Definition value_ref : P string := preceded (literal ":") ident.

Definition path_seg : P RawPathSegment :=
  alt [ n ← name_ref; ret (RawPathSegment_NameRef n);
        n ← ident; ret (RawPathSegment_Name n) ].

Definition dot_segment : P RawPathSegment := literal "." ;; path_seg.

Definition bracket_index : P RawPathSegment :=
  n ← delimited (literal "[") digit1 (literal "]");
  match parse_usize n with
  | Some i => ret (RawPathSegment_Index i)
  | None => fail
  end.

Definition path_continuation : P RawPathSegment := alt [dot_segment; bracket_index].

Definition path : P RawPath :=
  first ← path_seg;
  rest ← repeat0 path_continuation;
  ret (mkRawPath (first :: rest)).

Definition operand : P RawOperand :=
  alt [ v ← value_ref; ret (RawOperand_ValueRef v);
        p ← path; ret (RawOperand_Path p) ].

(** [(multispace0, tok, multispace0)]. *)
Definition spaced (tok : string) : P unit := multispace0 ;; literal tok ;; multispace0.

Definition comma_sep : P unit := spaced ",".

(** ** SET right-hand sides *)

Definition arith_tail : P (ascii * RawOperand) :=
  multispace0 ;;
  op ← alt [ literal "+" ;; ret "+"%char; literal "-" ;; ret "-"%char ];
  multispace0 ;;
  b ← operand;
  ret (op, b).

Definition operand_or_arith : P RawSetRhs :=
  a ← operand;
  tail ← opt arith_tail;
  match tail with
  | None => ret (RawSetRhs_Operand a)
  | Some (op, b) =>
      if Ascii.eqb op "+" then ret (RawSetRhs_Plus a b)
      else if Ascii.eqb op "-" then ret (RawSetRhs_Minus a b)
      else fail
  end.

Definition if_not_exists_call (set_rhs : P RawSetRhs) : P RawSetRhs :=
  caseless "if_not_exists" ;;
  spaced "(" ;;
  p ← path;
  spaced "," ;;
  v ← set_rhs;
  multispace0 ;; literal ")" ;;
  ret (RawSetRhs_IfNotExists p v).

Definition list_append_call (set_rhs : P RawSetRhs) : P RawSetRhs :=
  caseless "list_append" ;;
  spaced "(" ;;
  a ← set_rhs;
  spaced "," ;;
  b ← set_rhs;
  multispace0 ;; literal ")" ;;
  ret (RawSetRhs_ListAppend a b).

Fixpoint set_rhs_fuel (n : nat) (s : string) : option (RawSetRhs * string) :=
  match n with
  | 0 => fail s
  | S n => alt [ if_not_exists_call (set_rhs_fuel n);
                 list_append_call (set_rhs_fuel n);
                 operand_or_arith ] s
  end.

Definition set_rhs : P RawSetRhs := fun s => set_rhs_fuel (S (String.length s)) s.

(** ** Actions and clause blocks *)

Definition set_action : P RawSetClause :=
  p ← path;
  spaced "=" ;;
  v ← set_rhs;
  ret (mkRawSetClause p v).

Definition add_action : P RawAddAction :=
  p ← path;
  multispace1 ;;
  v ← operand;
  ret (mkRawAddAction p v).

Definition delete_action : P RawDeleteAction :=
  p ← path;
  multispace1 ;;
  v ← operand;
  ret (mkRawDeleteAction p v).

Definition set_block : P (list RawSetClause) :=
  caseless "SET" ;; multispace1 ;; separated1 set_action comma_sep.

Definition remove_block : P (list RawPath) :=
  caseless "REMOVE" ;; multispace1 ;; separated1 path comma_sep.

Definition add_block : P (list RawAddAction) :=
  caseless "ADD" ;; multispace1 ;; separated1 add_action comma_sep.

Definition delete_block : P (list RawDeleteAction) :=
  caseless "DELETE" ;; multispace1 ;; separated1 delete_action comma_sep.

Definition clause_block : P RawClauseBlock :=
  alt [ v ← set_block; ret (RawClauseBlock_Set v);
        v ← remove_block; ret (RawClauseBlock_Remove v);
        v ← add_block; ret (RawClauseBlock_Add v);
        v ← delete_block; ret (RawClauseBlock_Delete v) ].

Definition full_expression : P (list RawClauseBlock) :=
  multispace0 ;; repeat1 (terminated clause_block multispace0).

(** ** UpdateExpression *)

(** The loop state: the expression so far and the [seen] flags. *)
Record merge_state : Type := mkMergeState {
  ms_expr : RawUpdateExpression;
  ms_seen : bool * bool * bool * bool
}.

Definition merge_block (st : merge_state) (c : RawClauseBlock) : Result ParseError merge_state :=
  let '(mkMergeState (mkRawUpdateExpression se re ad de) (s0, s1, s2, s3)) := st in
  match c with
  | RawClauseBlock_Set v =>
      if s0 then Err (ParseError_DuplicateKeyword "SET")
      else Ok (mkMergeState (mkRawUpdateExpression (se ++ v) re ad de) (true, s1, s2, s3))
  | RawClauseBlock_Remove v =>
      if s1 then Err (ParseError_DuplicateKeyword "REMOVE")
      else Ok (mkMergeState (mkRawUpdateExpression se (re ++ v) ad de) (s0, true, s2, s3))
  | RawClauseBlock_Add v =>
      if s2 then Err (ParseError_DuplicateKeyword "ADD")
      else Ok (mkMergeState (mkRawUpdateExpression se re (ad ++ v) de) (s0, s1, true, s3))
  | RawClauseBlock_Delete v =>
      if s3 then Err (ParseError_DuplicateKeyword "DELETE")
      else Ok (mkMergeState (mkRawUpdateExpression se re ad (de ++ v)) (s0, s1, s2, true))
  end.

Definition empty_update : RawUpdateExpression := mkRawUpdateExpression [] [] [] [].

Definition parse_update_expression (input : string) : Result ParseError RawUpdateExpression :=
  if is_blank input then Err (ParseError_Empty "UpdateExpression")
  else
    let? raw_blocks := map_err (from_winnow "UpdateExpression" input)
                               (parse full_expression input) in
    let? st := fold_result merge_block
                 (mkMergeState empty_update (false, false, false, false)) raw_blocks in
    Ok (ms_expr st).

(** ** ConditionExpression *)

Definition keyword_word_boundary : P unit := fun s =>
  match s with
  | String c _ => if is_ascii_alphanumeric c || is_underscore c then fail s else Some (tt, s)
  | EmptyString => Some (tt, s)
  end.

Definition comparator : P ComparisonOp :=
  alt [ literal "<=" ;; ret Le_;
        literal ">=" ;; ret Ge_;
        literal "<>" ;; ret Ne_;
        literal "=" ;; ret Eq_;
        literal "<" ;; ret Lt_;
        literal ">" ;; ret Gt_ ].

Definition and_keyword : P unit := multispace1 ;; caseless "AND" ;; multispace1.
Definition or_keyword : P unit := multispace1 ;; caseless "OR" ;; multispace1.
Definition not_keyword : P unit := caseless "NOT" ;; multispace1.

Definition attribute_exists_fn : P RawCondition :=
  caseless "attribute_exists" ;;
  spaced "(" ;;
  p ← path;
  multispace0 ;; literal ")" ;;
  ret (RawCondition_AttributeExists p).

Definition attribute_not_exists_fn : P RawCondition :=
  caseless "attribute_not_exists" ;;
  spaced "(" ;;
  p ← path;
  multispace0 ;; literal ")" ;;
  ret (RawCondition_AttributeNotExists p).

Definition two_arg_call : P (RawPath * RawOperand) :=
  spaced "(" ;;
  p ← path;
  spaced "," ;;
  o ← operand;
  multispace0 ;; literal ")" ;;
  ret (p, o).

Definition begins_with_fn : P RawCondition :=
  caseless "begins_with" ;; keyword_word_boundary ;;
  po ← two_arg_call; ret (RawCondition_BeginsWith po.1 po.2).

Definition contains_fn : P RawCondition :=
  caseless "contains" ;; keyword_word_boundary ;;
  po ← two_arg_call; ret (RawCondition_Contains po.1 po.2).

Definition attribute_type_fn : P RawCondition :=
  caseless "attribute_type" ;; keyword_word_boundary ;;
  po ← two_arg_call; ret (RawCondition_AttributeType po.1 po.2).

Definition between_tail : P (RawOperand * RawOperand) :=
  multispace1 ;; caseless "BETWEEN" ;; keyword_word_boundary ;; multispace1 ;;
  lo ← operand;
  multispace1 ;; caseless "AND" ;; keyword_word_boundary ;; multispace1 ;;
  hi ← operand;
  ret (lo, hi).

(** [while opt(comma).is_some() { items.push(operand()?) }]. *)
Fixpoint in_items (n : nat) (items : list RawOperand) : P (list RawOperand) :=
  match n with
  | 0 => fail
  | S n =>
      c ← opt comma_sep;
      match c with
      | Some _ => o ← operand; in_items n (items ++ [o])
      | None => ret items
      end
  end.

Definition in_tail : P (list RawOperand) :=
  multispace1 ;; caseless "IN" ;; keyword_word_boundary ;;
  spaced "(" ;;
  first ← operand;
  items ← ((fun s => in_items (S (String.length s)) [first] s) : P (list RawOperand));
  multispace0 ;; literal ")" ;;
  ret items.

Definition operand_based : P RawCondition :=
  left ← operand;
  b ← opt between_tail;
  match b with
  | Some (lo, hi) => ret (RawCondition_Between left lo hi)
  | None =>
      i ← opt in_tail;
      match i with
      | Some items => ret (RawCondition_In left items)
      | None =>
          multispace0 ;;
          op ← comparator;
          multispace0 ;;
          right ← operand;
          ret (RawCondition_Compare op left right)
      end
  end.

Definition paren_group (or_expr : P RawCondition) : P RawCondition :=
  literal "(" ;;
  inner ← or_expr;
  multispace0 ;; literal ")" ;;
  ret inner.

Definition cond_atom (or_expr : P RawCondition) : P RawCondition :=
  multispace0 ;;
  alt [ paren_group or_expr;
        attribute_exists_fn;
        attribute_not_exists_fn;
        begins_with_fn;
        contains_fn;
        attribute_type_fn;
        operand_based ].

(** The left-associative chains [x (kw x)*]. *)
Fixpoint chain_loop (n : nat) (kw : P unit) (term : P RawCondition)
    (join : RawCondition -> RawCondition -> RawCondition) (left : RawCondition)
  : P RawCondition :=
  match n with
  | 0 => fail
  | S n =>
      k ← opt kw;
      match k with
      | Some _ => right ← term; chain_loop n kw term join (join left right)
      | None => ret left
      end
  end.

Definition chain (kw : P unit) (term : P RawCondition)
    (join : RawCondition -> RawCondition -> RawCondition) : P RawCondition :=
  left ← term;
  ((fun s => chain_loop (S (String.length s)) kw term join left s) : P RawCondition).

Definition not_step (not_expr or_expr : P RawCondition) : P RawCondition :=
  multispace0 ;;
  k ← opt not_keyword;
  match k with
  | Some _ => inner ← not_expr; ret (RawCondition_Not inner)
  | None => cond_atom or_expr
  end.

(** The nesting depth of [NOT] and parentheses is bounded by [n]. *)
Fixpoint not_expr (n : nat) (s : string) : option (RawCondition * string) :=
  match n with
  | 0 => fail s
  | S n =>
      not_step (not_expr n)
               (chain or_keyword (chain and_keyword (not_expr n) RawCondition_And)
                      RawCondition_Or) s
  end.

Definition and_expr (n : nat) : P RawCondition :=
  chain and_keyword (not_expr n) RawCondition_And.

Definition or_expr (n : nat) : P RawCondition :=
  chain or_keyword (and_expr n) RawCondition_Or.

Definition cond_top : P RawCondition :=
  multispace0 ;;
  c ← ((fun s => or_expr (S (String.length s)) s) : P RawCondition);
  multispace0 ;;
  ret c.

Definition parse_condition_expression (input : string) : Result ParseError RawCondition :=
  if is_blank input then Err (ParseError_Empty "ConditionExpression")
  else map_err (from_winnow "ConditionExpression" input) (parse cond_top input).
End parser.
