(* ===== verification/ParserFuel.v ===== *)
(** * Fuel in the expression parsers

    Every parser of [Parser] leaves at most the input it was given, and
    the recursive ones consume before they recurse.  So the fuel the entry
    points supply is enough: any larger amount gives the same result, on
    every input. *)

From S2P Require Import Prelude RustStr Ast Winnow Parser.

Create HintDb fuel.

Section fuel.
Context `{Winnow}.

(** [p] leaves no more (resp. strictly less) than it was given. *)
Definition shrinks {A} (p : P A) : Prop :=
  forall s a r, p s = Some (a, r) -> String.length r <= String.length s.
Definition consumes {A} (p : P A) : Prop :=
  forall s a r, p s = Some (a, r) -> String.length r < String.length s.

Lemma consumes_shrinks {A} (p : P A) : consumes p -> shrinks p.
Proof. intros Hp s a r E. apply Hp in E. lia. Qed.

Lemma shrinks_ret {A} (a : A) : shrinks (ret a).
Proof. intros s b r [= _ ->]. lia. Qed.

Lemma shrinks_bind {A B} (p : P A) (k : A -> P B) :
  shrinks p -> (forall a, shrinks (k a)) -> shrinks (p ≫= k).
Proof.
  intros Hp Hk s b r. rewrite bind_eq. destruct (p s) as [[a s']|] eqn:E; [|done].
  intros E2. apply Hp in E. apply Hk in E2. lia.
Qed.

Lemma consumes_bind_l {A B} (p : P A) (k : A -> P B) :
  consumes p -> (forall a, shrinks (k a)) -> consumes (p ≫= k).
Proof.
  intros Hp Hk s b r. rewrite bind_eq. destruct (p s) as [[a s']|] eqn:E; [|done].
  intros E2. apply Hp in E. apply Hk in E2. lia.
Qed.

Lemma consumes_bind_r {A B} (p : P A) (k : A -> P B) :
  shrinks p -> (forall a, consumes (k a)) -> consumes (p ≫= k).
Proof.
  intros Hp Hk s b r. rewrite bind_eq. destruct (p s) as [[a s']|] eqn:E; [|done].
  intros E2. apply Hp in E. apply Hk in E2. lia.
Qed.

Lemma literal_length t s a r :
  literal t s = Some (a, r) -> String.length r + String.length t = String.length s.
Proof.
  rewrite literal_spec. destruct (strip_prefix t s) eqn:E; simpl; [|done]. intros [= _ <-].
  apply strip_prefix_Some in E as ->. rewrite app_length_str. lia.
Qed.

Lemma consumes_literal c t : consumes (literal (String c t)).
Proof. intros s a r E%literal_length. simpl in E. lia. Qed.

Lemma consumes_caseless c t : consumes (caseless (String c t)).
Proof.
  intros s a r. rewrite caseless_spec. destruct (strip_prefix_caseless _ s) eqn:E; simpl; [|done].
  intros [= _ <-]. apply strip_prefix_caseless_length in E. simpl in E. lia.
Qed.

Lemma shrinks_multispace0 : shrinks multispace0.
Proof. intros s a r. rewrite multispace0_spec. intros [= _ <-]. apply span_length. Qed.

Lemma consumes_multispace1 : consumes multispace1.
Proof.
  intros s a r. rewrite multispace1_spec.
  pose proof (span_app is_multispace s) as Hs.
  destruct (span is_multispace s) as [[|c w] r']; simpl in *; [done|]. intros [= _ <-].
  rewrite <- Hs. simpl. rewrite app_length_str. lia.
Qed.

Lemma consumes_digit1 : consumes digit1.
Proof.
  intros s a r. rewrite digit1_spec. pose proof (span_app is_ascii_digit s) as Hs.
  destruct (span is_ascii_digit s) as [[|c w] r']; simpl in *; [done|]. intros [= _ <-].
  rewrite <- Hs. simpl. rewrite app_length_str. lia.
Qed.

Lemma shrinks_take_while0 f : shrinks (take_while0 f).
Proof.
  intros s a r. rewrite take_while0_spec. pose proof (span_length f s).
  intros [= E]. rewrite E in *. done.
Qed.

Lemma consumes_take_one f : consumes (take_one f).
Proof.
  intros s a r. rewrite take_one_spec. destruct s as [|c s]; [done|].
  destruct (f c); [|done]. intros [= _ <-]. simpl. lia.
Qed.

Lemma shrinks_fail {A} : consumes (@fail _ A).
Proof. intros s a r. by rewrite fail_spec. Qed.

Lemma shrinks_opt {A} (p : P A) : shrinks p -> shrinks (opt p).
Proof.
  intros Hp s a r. rewrite opt_spec. destruct (p s) as [[b s']|] eqn:E.
  - intros [= _ <-]. by apply Hp in E.
  - intros [= _ <-]. lia.
Qed.

Lemma consumes_alt {A} (ps : list (P A)) : Forall consumes ps -> consumes (alt ps).
Proof.
  intros Hps s a r. rewrite alt_spec.
  induction Hps as [|p ps Hp Hps IH]; simpl; [done|].
  destruct (p s) as [[b s']|] eqn:E; [|done]. intros [= -> ->]. by apply Hp in E.
Qed.

Lemma consumes_preceded {A B} (p : P A) (q : P B) :
  consumes p -> shrinks q -> consumes (preceded p q).
Proof.
  intros Hp Hq s b r. rewrite preceded_spec. revert s b r.
  change (consumes (p ;; q)). by apply consumes_bind_l.
Qed.

Lemma consumes_delimited {A B C} (p : P A) (q : P B) (r : P C) :
  consumes p -> shrinks q -> shrinks r -> consumes (delimited p q r).
Proof.
  intros Hp Hq Hr s b r'. rewrite delimited_spec. revert s b r'.
  change (consumes (p ;; b ← q; r ;; ret b)).
  apply consumes_bind_l; [done|intros _]. apply shrinks_bind; [done|intros b].
  apply shrinks_bind; [done|intros _]. apply shrinks_ret.
Qed.

Lemma shrinks_repeat0 {A} (p : P A) : consumes p -> shrinks (repeat0 p).
Proof.
  intros Hp s. induction (well_founded_ltof _ String.length s) as [s _ IH]. intros l r.
  destruct (p s) as [[a s']|] eqn:E.
  - pose proof (Hp _ _ _ E) as Hlt. rewrite (repeat0_step _ _ _ _ _ E Hlt), bind_eq.
    destruct (repeat0 p s') as [[l' s2]|] eqn:E2; [|done]. intros [= _ <-].
    apply (IH s') in E2; [lia | exact Hlt].
  - rewrite (repeat0_stop _ _ _ E). intros [= _ <-]. lia.
Qed.

Lemma shrinks_separated1 {A} (p : P A) sep :
  consumes p -> shrinks sep -> shrinks (separated1 p sep).
Proof.
  intros Hp Hsep s. induction (well_founded_ltof _ String.length s) as [s _ IH]. intros l r.
  destruct (p s) as [[a s']|] eqn:E; [|by rewrite (separated1_stop _ _ _ _ E)].
  pose proof (Hp _ _ _ E) as Hlt.
  destruct (sep s') as [[u s1]|] eqn:E1.
  - pose proof (Hsep _ _ _ E1) as Hle. destruct (p s1) as [[b s2]|] eqn:E2.
    + pose proof (Hp _ _ _ E2). rewrite (separated1_more _ _ _ _ _ _ _ _ _ _ E E1 E2), bind_eq by lia.
      destruct (separated1 p sep s1) as [[l' r']|] eqn:E3; [|done]. intros [= _ <-].
      apply (IH s1) in E3; [lia | unfold ltof; lia].
    + rewrite (separated1_last _ _ _ _ _ _ E); [intros [= _ <-]; lia|]. by rewrite bind_eq, E1.
  - rewrite (separated1_last _ _ _ _ _ _ E); [intros [= _ <-]; lia|]. by rewrite bind_eq, E1.
Qed.

#[local] Hint Resolve shrinks_ret consumes_literal consumes_caseless shrinks_multispace0
  consumes_multispace1 consumes_digit1 shrinks_take_while0 consumes_take_one shrinks_fail
  shrinks_opt consumes_preceded consumes_delimited shrinks_repeat0 : fuel.

(** Structural proof search through a parser body. *)
Ltac shrink :=
  repeat first
    [ solve [auto with fuel]
    | match goal with
      | |- shrinks (match ?x with _ => _ end) => destruct x
      | |- consumes (match ?x with _ => _ end) => destruct x
      | |- shrinks (_ ≫= _) => apply shrinks_bind; [|intros ?]
      | |- shrinks (opt _) => apply shrinks_opt
      | |- consumes (alt _) => apply consumes_alt; repeat (apply List.Forall_cons); [..|apply List.Forall_nil]
      | |- consumes (?p ≫= _) =>
          first [ apply consumes_bind_l; [solve [auto with fuel]|intros ?]
                | apply consumes_bind_r; [solve [shrink]|intros ?] ]
      | |- shrinks _ => apply consumes_shrinks
      end ].

Lemma consumes_ident : consumes ident.
Proof. unfold ident. shrink. Qed.
#[local] Hint Resolve consumes_ident consumes_shrinks : fuel.

Lemma consumes_path_seg : consumes path_seg.
Proof.
  unfold path_seg. apply consumes_alt. repeat constructor.
  - apply consumes_bind_l; [|intros; apply shrinks_ret].
    apply consumes_preceded; [apply consumes_literal | auto with fuel].
  - apply consumes_bind_l; [apply consumes_ident | intros; apply shrinks_ret].
Qed.

Lemma consumes_path_continuation : consumes path_continuation.
Proof.
  unfold path_continuation. apply consumes_alt. repeat constructor.
  - unfold dot_segment.
    apply consumes_bind_l; [apply consumes_literal | auto using consumes_shrinks, consumes_path_seg].
  - unfold bracket_index. apply consumes_bind_l.
    + apply consumes_delimited; auto using consumes_literal, consumes_shrinks, consumes_digit1.
    + intros n. destruct (parse_usize n); auto with fuel.
Qed.

Lemma consumes_path : consumes path.
Proof.
  unfold path. apply consumes_bind_l; [apply consumes_path_seg|]. intros a.
  apply shrinks_bind; [apply shrinks_repeat0, consumes_path_continuation | intros; apply shrinks_ret].
Qed.

Lemma consumes_operand : consumes operand.
Proof.
  unfold operand. apply consumes_alt. repeat constructor.
  - apply consumes_bind_l; [|intros; apply shrinks_ret].
    apply consumes_preceded; [apply consumes_literal | auto with fuel].
  - apply consumes_bind_l; [apply consumes_path | intros; apply shrinks_ret].
Qed.

Lemma consumes_spaced c : consumes (spaced (String c EmptyString)).
Proof.
  unfold spaced. apply consumes_bind_r; [apply shrinks_multispace0|intros _].
  apply consumes_bind_l; [apply consumes_literal | auto with fuel].
Qed.
#[local] Hint Resolve consumes_path consumes_operand consumes_spaced : fuel.

Lemma shrinks_keyword_word_boundary : shrinks keyword_word_boundary.
Proof.
  intros s a r. unfold keyword_word_boundary. destruct s as [|c s]; [intros [= _ <-]; simpl; lia|].
  case_match; [by rewrite fail_spec|]. intros [= _ <-]. lia.
Qed.

Lemma consumes_arith_tail : consumes arith_tail.
Proof. unfold arith_tail. shrink. Qed.
#[local] Hint Resolve shrinks_keyword_word_boundary consumes_arith_tail : fuel.

Lemma consumes_operand_or_arith : consumes operand_or_arith.
Proof. unfold operand_or_arith. shrink. Qed.
#[local] Hint Resolve consumes_operand_or_arith : fuel.

Lemma consumes_set_rhs_fuel n : consumes (set_rhs_fuel n).
Proof.
  induction n as [|n IH].
  - intros s a r. simpl. by rewrite fail_spec.
  - change (consumes (alt [ if_not_exists_call (set_rhs_fuel n);
                            list_append_call (set_rhs_fuel n); operand_or_arith ])).
    unfold if_not_exists_call, list_append_call. shrink.
Qed.

(** ** Agreement of parsers on short inputs *)

(** [p] and [q] agree on the inputs shorter than [k]. *)
Definition agree {A} (k : nat) (p q : P A) : Prop :=
  forall s, String.length s < k -> p s = q s.

Lemma agree_refl {A} k (p : P A) : agree k p p.
Proof. done. Qed.

Lemma agree_bind {A B} k (p q : P A) (f g : A -> P B) :
  shrinks p -> agree k p q -> (forall a, agree k (f a) (g a)) ->
  agree k (p ≫= f) (q ≫= g).
Proof.
  intros Hp Hpq Hfg s Hs. rewrite !bind_eq, <- (Hpq s Hs).
  destruct (p s) as [[a r]|] eqn:E; [|done]. apply Hfg. apply Hp in E. lia.
Qed.

(** After a consuming prefix the agreement reaches one character further. *)
Lemma agree_bind_consumes {A B} k (p : P A) (f g : A -> P B) :
  consumes p -> (forall a, agree k (f a) (g a)) -> agree (S k) (p ≫= f) (p ≫= g).
Proof.
  intros Hp Hfg s Hs. rewrite !bind_eq.
  destruct (p s) as [[a r]|] eqn:E; [|done]. apply Hfg. apply Hp in E. lia.
Qed.

Lemma agree_alt {A} k (ps qs : list (P A)) :
  Forall2 (agree k) ps qs -> agree k (alt ps) (alt qs).
Proof.
  intros Hps s Hs. rewrite !alt_spec.
  induction Hps as [|p q ps qs Hpq Hps IH]; simpl; [done|].
  rewrite (Hpq s Hs). by destruct (q s).
Qed.

(** Descent through the parts of a parser that do not recurse. *)
Ltac agreement :=
  repeat first
    [ solve [auto using agree_refl]
    | match goal with
      | |- agree _ (match ?x with _ => _ end) _ => destruct x
      | |- agree _ (_ ≫= _) (_ ≫= _) => apply agree_bind; [solve [auto with fuel]| |intros ?]
      end ].

Lemma agree_if_not_exists k p q :
  consumes p -> agree k p q -> agree (S k) (if_not_exists_call p) (if_not_exists_call q).
Proof.
  intros Hc Ha. unfold if_not_exists_call.
  apply agree_bind_consumes; [auto with fuel|intros _]. agreement.
Qed.

Lemma agree_list_append k p q :
  consumes p -> agree k p q -> agree (S k) (list_append_call p) (list_append_call q).
Proof.
  intros Hc Ha. unfold list_append_call.
  apply agree_bind_consumes; [auto with fuel|intros _]. agreement.
Qed.

Lemma set_rhs_fuel_enough n m : forall k, k <= n -> k <= m ->
  agree k (set_rhs_fuel n) (set_rhs_fuel m).
Proof.
  revert m. induction n as [|n IH]; intros m k Hn Hm; [intros s; lia|].
  destruct m as [|m]; [intros s; lia|]. destruct k as [|k]; [intros s; lia|].
  assert (agree k (set_rhs_fuel n) (set_rhs_fuel m)) by (apply IH; lia).
  pose proof (consumes_set_rhs_fuel n).
  intros s Hs. simpl. revert s Hs.
  match goal with |- forall s, _ -> alt ?l s = alt ?l' s => change (agree (S k) (alt l) (alt l')) end.
  apply agree_alt. repeat constructor;
    auto using agree_if_not_exists, agree_list_append, agree_refl.
Qed.

(** ** Conditions *)

Lemma consumes_and_keyword : consumes and_keyword.
Proof. unfold and_keyword. shrink. Qed.
Lemma consumes_or_keyword : consumes or_keyword.
Proof. unfold or_keyword. shrink. Qed.
Lemma consumes_not_keyword : consumes not_keyword.
Proof. unfold not_keyword. shrink. Qed.
Lemma consumes_comma_sep : consumes comma_sep.
Proof. apply consumes_spaced. Qed.
Lemma consumes_comparator : consumes comparator.
Proof. unfold comparator. shrink. Qed.
#[local] Hint Resolve consumes_and_keyword consumes_or_keyword consumes_not_keyword
  consumes_comma_sep consumes_comparator : fuel.

Lemma consumes_two_arg_call : consumes two_arg_call.
Proof. unfold two_arg_call. shrink. Qed.

Lemma consumes_between_tail : consumes between_tail.
Proof. unfold between_tail. shrink. Qed.

Lemma shrinks_in_items n l : shrinks (in_items n l).
Proof.
  revert l. induction n as [|n IH]; intros l; simpl; [auto with fuel|]. shrink.
Qed.
#[local] Hint Resolve consumes_two_arg_call consumes_between_tail shrinks_in_items : fuel.

(** A parser whose fuel is computed from its input. *)
Lemma shrinks_self {A} (p : nat -> P A) :
  (forall n, shrinks (p n)) -> shrinks (fun s => p (S (String.length s)) s).
Proof. intros Hp s a r. apply Hp. Qed.

Lemma consumes_in_tail : consumes in_tail.
Proof.
  assert (forall a, shrinks (fun s => in_items (S (String.length s)) [a] s)).
  { intros a. apply (shrinks_self (fun n => in_items n [a])). auto with fuel. }
  unfold in_tail. shrink.
Qed.
#[local] Hint Resolve consumes_in_tail : fuel.

Lemma consumes_operand_based : consumes operand_based.
Proof. unfold operand_based. shrink. Qed.
#[local] Hint Resolve consumes_operand_based : fuel.

Lemma consumes_cond_atom p : shrinks p -> consumes (cond_atom p).
Proof.
  intros Hp. unfold cond_atom, paren_group, attribute_exists_fn, attribute_not_exists_fn,
    begins_with_fn, contains_fn, attribute_type_fn.
  apply consumes_bind_r; [auto with fuel|intros _]. shrink.
Qed.

Lemma shrinks_chain_loop n kw term join left :
  shrinks kw -> shrinks term -> shrinks (chain_loop n kw term join left).
Proof.
  intros Hk Ht. revert left. induction n as [|n IH]; intros left; simpl; [auto with fuel|].
  shrink.
Qed.

Lemma consumes_chain kw term join : shrinks kw -> consumes term -> consumes (chain kw term join).
Proof.
  intros Hk Ht. unfold chain. apply consumes_bind_l; [done|]. intros left.
  apply (shrinks_self (fun n => chain_loop n kw term join left)).
  intros n. apply shrinks_chain_loop; auto using consumes_shrinks.
Qed.

Lemma consumes_not_expr n : consumes (not_expr n).
Proof.
  induction n as [|n IH].
  - intros s a r. simpl. by rewrite fail_spec.
  - match goal with |- consumes (not_expr (S ?n)) =>
      change (consumes (not_step (not_expr n) (or_expr n))) end.
    assert (consumes (cond_atom (or_expr n))).
    { apply consumes_cond_atom. unfold or_expr, and_expr.
      auto 10 using consumes_shrinks, consumes_chain, consumes_or_keyword, consumes_and_keyword. }
    unfold not_step. shrink.
Qed.

Lemma agree_chain_loop k n kw term term' join left :
  shrinks kw -> shrinks term -> agree k term term' ->
  agree k (chain_loop n kw term join left) (chain_loop n kw term' join left).
Proof.
  intros Hk Ht Ha. revert left. induction n as [|n IH]; intros left; simpl; [apply agree_refl|].
  agreement.
Qed.

Lemma agree_chain k kw term term' join :
  shrinks kw -> shrinks term -> agree k term term' ->
  agree k (chain kw term join) (chain kw term' join).
Proof.
  intros Hk Ht Ha. unfold chain. apply agree_bind; [done..|]. intros left s Hs.
  by apply (agree_chain_loop k).
Qed.

Lemma chain_loop_fuel_enough n m kw term join : consumes kw -> shrinks term ->
  forall k left, k <= n -> k <= m ->
  agree k (chain_loop n kw term join left) (chain_loop m kw term join left).
Proof.
  intros Hk Ht. revert m. induction n as [|n IH]; intros m k left Hn Hm; [intros s; lia|].
  destruct m as [|m]; [intros s; lia|]. destruct k as [|k]; [intros s; lia|].
  intros s Hs. simpl. rewrite !bind_eq, !opt_spec.
  destruct (kw s) as [[[] r]|] eqn:E; [|done]. apply Hk in E.
  assert (Hr : String.length r < k) by lia. revert r Hr E. intros r Hr _. revert r Hr.
  match goal with |- forall r, _ -> ?p r = ?q r => change (agree k p q) end.
  apply agree_bind; [done|apply agree_refl|]. intros a. apply IH; lia.
Qed.

Lemma agree_not_step k p p' q q' : consumes p -> consumes q ->
  agree k p p' -> agree k q q' -> agree (S k) (not_step p q) (not_step p' q').
Proof.
  intros Hp Hq Hpa Hqa. unfold not_step, cond_atom, paren_group.
  apply agree_bind; [auto with fuel|apply agree_refl|intros _].
  intros s Hs. rewrite !bind_eq, !opt_spec.
  destruct (not_keyword s) as [[[] r]|] eqn:E.
  - apply consumes_not_keyword in E. rewrite !bind_eq.
    rewrite (Hpa r) by lia. done.
  - revert s Hs E. intros s Hs _. revert s Hs.
    match goal with |- forall r, _ -> ?p r = ?q r => change (agree (S k) p q) end.
    apply agree_bind; [auto with fuel|apply agree_refl|intros _].
    apply agree_alt. constructor; [|repeat constructor; apply agree_refl].
    apply agree_bind_consumes; [auto with fuel|intros _]. agreement.
Qed.

Lemma consumes_or_expr n : consumes (or_expr n).
Proof.
  unfold or_expr, and_expr.
  auto 10 using consumes_shrinks, consumes_chain, consumes_or_keyword, consumes_and_keyword,
    consumes_not_expr.
Qed.

Lemma agree_or_expr k n m :
  agree k (not_expr n) (not_expr m) -> agree k (or_expr n) (or_expr m).
Proof.
  intros Ha. unfold or_expr, and_expr.
  apply agree_chain; [auto with fuel| |apply agree_chain; auto with fuel].
  - auto 10 using consumes_shrinks, consumes_chain, consumes_and_keyword, consumes_not_expr.
  - apply consumes_shrinks, consumes_not_expr.
Qed.

Lemma not_expr_fuel_enough n m : forall k, k <= n -> k <= m ->
  agree k (not_expr n) (not_expr m).
Proof.
  revert m. induction n as [|n IH]; intros m k Hn Hm; [intros s; lia|].
  destruct m as [|m]; [intros s; lia|]. destruct k as [|k]; [intros s; lia|].
  assert (agree k (not_expr n) (not_expr m)) by (apply IH; lia).
  change (agree (S k) (not_step (not_expr n) (or_expr n)) (not_step (not_expr m) (or_expr m))).
  apply agree_not_step; auto using consumes_not_expr, consumes_or_expr, agree_or_expr.
Qed.

Lemma in_items_fuel_enough n m : forall k items, k <= n -> k <= m ->
  agree k (in_items n items) (in_items m items).
Proof.
  revert m. induction n as [|n IH]; intros m k items Hn Hm; [intros s; lia|].
  destruct m as [|m]; [intros s; lia|]. destruct k as [|k]; [intros s; lia|].
  intros s Hs. simpl. rewrite !bind_eq, !opt_spec.
  destruct (comma_sep s) as [[[] r]|] eqn:E; [|done]. apply consumes_comma_sep in E.
  rewrite !bind_eq. destruct (operand r) as [[o r']|] eqn:Eo; [|done].
  apply consumes_operand in Eo. apply (IH m k); lia.
Qed.

(** ** The recursive equations of the source *)

(** The mutually recursive parsers at the fuel their input calls for. *)
Definition full {A} (p : nat -> P A) : P A := fun s => p (S (String.length s)) s.

Lemma agree_full {A} (p : nat -> P A) k n :
  (forall n m k, k <= n -> k <= m -> agree k (p n) (p m)) -> k <= n ->
  agree k (p n) (full p).
Proof. intros Hp Hk s Hs. apply (Hp n (S (String.length s)) (S (String.length s))); lia. Qed.

Lemma full_or_expr_fuel n m k : k <= n -> k <= m -> agree k (or_expr n) (or_expr m).
Proof. intros. by apply agree_or_expr, not_expr_fuel_enough. Qed.

Lemma full_and_expr_fuel n m k : k <= n -> k <= m -> agree k (and_expr n) (and_expr m).
Proof.
  intros. unfold and_expr. apply agree_chain; [auto with fuel| |by apply not_expr_fuel_enough].
  apply consumes_shrinks, consumes_not_expr.
Qed.

Lemma consumes_and_expr n : consumes (and_expr n).
Proof.
  unfold and_expr. apply consumes_chain; [auto with fuel|apply consumes_not_expr].
Qed.

Lemma set_rhs_unfold s :
  set_rhs s = alt [if_not_exists_call set_rhs; list_append_call set_rhs; operand_or_arith] s.
Proof.
  unfold set_rhs at 1. simpl.
  assert (Ha : agree (String.length s) (set_rhs_fuel (String.length s)) set_rhs).
  { apply (agree_full set_rhs_fuel); [|lia]. intros. by apply set_rhs_fuel_enough. }
  pose proof (consumes_set_rhs_fuel (String.length s)).
  match goal with |- alt ?l s = alt ?l' s => apply (agree_alt (S (String.length s)) l l') end; [|lia].
  repeat constructor; auto using agree_if_not_exists, agree_list_append, agree_refl.
Qed.

Lemma not_expr_unfold s :
  full not_expr s = not_step (full not_expr) (full or_expr) s.
Proof.
  change (full not_expr s) with
    (not_step (not_expr (String.length s)) (or_expr (String.length s)) s).
  apply (agree_not_step (String.length s)); auto using consumes_not_expr, consumes_or_expr.
  - apply (agree_full not_expr); [|lia]. intros. by apply not_expr_fuel_enough.
  - apply (agree_full or_expr); [|lia]. apply full_or_expr_fuel.
Qed.

Lemma and_expr_unfold s :
  full and_expr s = chain and_keyword (full not_expr) RawCondition_And s.
Proof.
  change (full and_expr s) with
    (chain and_keyword (not_expr (S (String.length s))) RawCondition_And s).
  apply (agree_chain (S (String.length s)));
    [auto with fuel | apply consumes_shrinks, consumes_not_expr | | lia].
  apply (agree_full not_expr); [|lia]. intros. by apply not_expr_fuel_enough.
Qed.

Lemma or_expr_unfold s :
  full or_expr s = chain or_keyword (full and_expr) RawCondition_Or s.
Proof.
  change (full or_expr s) with
    (chain or_keyword (and_expr (S (String.length s))) RawCondition_Or s).
  apply (agree_chain (S (String.length s)));
    [auto with fuel | apply consumes_shrinks, consumes_and_expr | | lia].
  apply (agree_full and_expr); [|lia]. apply full_and_expr_fuel.
Qed.

Lemma chain_loop_unfold kw term join left s : consumes kw -> shrinks term ->
  full (fun n => chain_loop n kw term join left) s =
  (k ← opt kw;
   match k with
   | Some _ => right ← term; full (fun n => chain_loop n kw term join (join left right))
   | None => ret left
   end) s.
Proof.
  intros Hk Ht. unfold full at 1. simpl. rewrite !bind_eq, !opt_spec.
  destruct (kw s) as [[u r]|] eqn:E; [|done]. apply Hk in E.
  rewrite !bind_eq. destruct (term r) as [[c r']|] eqn:Et; [|done]. apply Ht in Et.
  apply (chain_loop_fuel_enough _ _ _ _ _ Hk Ht (S (String.length r'))); lia.
Qed.

Lemma in_items_unfold items s :
  full (fun n => in_items n items) s =
  (c ← opt comma_sep;
   match c with
   | Some _ => o ← operand; full (fun n => in_items n (items ++ [o]))
   | None => ret items
   end) s.
Proof.
  unfold full at 1. simpl. rewrite !bind_eq, !opt_spec.
  destruct (comma_sep s) as [[u r]|] eqn:E; [|done]. apply consumes_comma_sep in E.
  rewrite !bind_eq. destruct (operand r) as [[o r']|] eqn:Eo; [|done].
  apply consumes_operand in Eo. apply (in_items_fuel_enough _ _ (S (String.length r'))); lia.
Qed.

Lemma consumes_full {A} (p : nat -> P A) : (forall n, consumes (p n)) -> consumes (full p).
Proof. intros Hp s a r. apply Hp. Qed.

End fuel.
