(* ===== verification/ParserRoundTrip.v ===== *)
(** * Printing and parsing expressions

    A canonical concrete syntax for the raw trees of [Ast], and the proof
    that the parsers of [Parser] read it back: every well-formed condition
    and every well-formed update expression has a text that parses to it,
    and the clause-keyword rule of [parse_update_expression] holds on
    every list of clause blocks.  The printers take the text that follows
    as an argument, so that a printed tree is read back in any context
    that delimits it. *)

From S2P Require Import Prelude RustStr Ast Winnow Parser ParserFuel.

(** ** Concrete syntax *)

Definition show_first (seg : RawPathSegment) (r : string) : string :=
  match seg with
  | RawPathSegment_Name n => n +:+ r
  | RawPathSegment_NameRef n => "#" +:+ (n +:+ r)
  | RawPathSegment_Index i => "[" +:+ (usize_to_string i +:+ ("]" +:+ r))
  end.

Definition show_continuation (seg : RawPathSegment) (r : string) : string :=
  match seg with
  | RawPathSegment_Index _ => show_first seg r
  | _ => "." +:+ show_first seg r
  end.

Fixpoint show_continuations (l : list RawPathSegment) (r : string) : string :=
  match l with
  | [] => r
  | seg :: l => show_continuation seg (show_continuations l r)
  end.

Definition show_path (p : RawPath) (r : string) : string :=
  match raw_segments p with
  | [] => r
  | seg :: l => show_first seg (show_continuations l r)
  end.

Definition show_operand (o : RawOperand) (r : string) : string :=
  match o with
  | RawOperand_Path p => show_path p r
  | RawOperand_ValueRef v => ":" +:+ (v +:+ r)
  end.

Fixpoint show_list {A} (show : A -> string -> string) (l : list A) (r : string) : string :=
  match l with
  | [] => r
  | [x] => show x r
  | x :: l => show x (", " +:+ show_list show l r)
  end.

Fixpoint show_rhs (v : RawSetRhs) (r : string) : string :=
  match v with
  | RawSetRhs_Operand o => show_operand o r
  | RawSetRhs_Plus a b => show_operand a (" + " +:+ show_operand b r)
  | RawSetRhs_Minus a b => show_operand a (" - " +:+ show_operand b r)
  | RawSetRhs_IfNotExists p v =>
      "if_not_exists" +:+ ("(" +:+ show_path p (", " +:+ show_rhs v (")" +:+ r)))
  | RawSetRhs_ListAppend a b =>
      "list_append" +:+ ("(" +:+ show_rhs a (", " +:+ show_rhs b (")" +:+ r)))
  end.

Definition show_call (f : string) (p : RawPath) (o : RawOperand) (r : string) : string :=
  f +:+ ("(" +:+ show_path p (", " +:+ show_operand o (")" +:+ r))).

Fixpoint show_condition (c : RawCondition) (r : string) : string :=
  match c with
  | RawCondition_Compare op a b =>
      show_operand a (" " +:+ (as_str_op op +:+ (" " +:+ show_operand b r)))
  | RawCondition_AttributeExists p => "attribute_exists" +:+ ("(" +:+ show_path p (")" +:+ r))
  | RawCondition_AttributeNotExists p =>
      "attribute_not_exists" +:+ ("(" +:+ show_path p (")" +:+ r))
  | RawCondition_BeginsWith p o => show_call "begins_with" p o r
  | RawCondition_Contains p o => show_call "contains" p o r
  | RawCondition_AttributeType p o => show_call "attribute_type" p o r
  | RawCondition_Between v lo hi =>
      show_operand v
        (" " +:+ ("BETWEEN" +:+ (" " +:+ show_operand lo
        (" " +:+ ("AND" +:+ (" " +:+ show_operand hi r))))))
  | RawCondition_In v items =>
      show_operand v (" " +:+ ("IN" +:+ (" (" +:+ show_list show_operand items (")" +:+ r))))
  | RawCondition_And a b =>
      "(" +:+ show_condition a (")" +:+ (" AND " +:+ ("(" +:+ show_condition b (")" +:+ r))))
  | RawCondition_Or a b =>
      "(" +:+ show_condition a (")" +:+ (" OR " +:+ ("(" +:+ show_condition b (")" +:+ r))))
  | RawCondition_Not c => "NOT " +:+ ("(" +:+ show_condition c (")" +:+ r))
  end.

Definition print_condition (c : RawCondition) : string := show_condition c "".

Definition show_set (c : RawSetClause) (r : string) : string :=
  show_path (raw_set_path c) (" = " +:+ show_rhs (raw_set_value c) r).
Definition show_add (a : RawAddAction) (r : string) : string :=
  show_path (raw_add_path a) (" " +:+ show_operand (raw_add_value a) r).
Definition show_delete (a : RawDeleteAction) (r : string) : string :=
  show_path (raw_del_path a) (" " +:+ show_operand (raw_del_value a) r).

Definition show_block (b : RawClauseBlock) (r : string) : string :=
  match b with
  | RawClauseBlock_Set v => "SET" +:+ (" " +:+ show_list show_set v r)
  | RawClauseBlock_Remove v => "REMOVE" +:+ (" " +:+ show_list show_path v r)
  | RawClauseBlock_Add v => "ADD" +:+ (" " +:+ show_list show_add v r)
  | RawClauseBlock_Delete v => "DELETE" +:+ (" " +:+ show_list show_delete v r)
  end.

Fixpoint print_blocks (l : list RawClauseBlock) : string :=
  match l with
  | [] => ""
  | [b] => show_block b ""
  | b :: l => show_block b (" " +:+ print_blocks l)
  end.

(** ** Well-formed trees *)

Definition wf_ident (n : string) : bool :=
  match n with
  | EmptyString => false
  | String c n => is_ident_start c && str_forall is_ident_char n
  end.

Definition wf_continuation (seg : RawPathSegment) : bool :=
  match seg with
  | RawPathSegment_Name n | RawPathSegment_NameRef n => wf_ident n
  | RawPathSegment_Index i => N.leb i usize_max
  end.

Definition wf_path (p : RawPath) : bool :=
  match raw_segments p with
  | [] | RawPathSegment_Index _ :: _ => false
  | seg :: l => forallb wf_continuation (seg :: l)
  end.

Definition wf_operand (o : RawOperand) : bool :=
  match o with
  | RawOperand_Path p => wf_path p
  | RawOperand_ValueRef v => wf_ident v
  end.

Fixpoint wf_rhs (v : RawSetRhs) : bool :=
  match v with
  | RawSetRhs_Operand o => wf_operand o
  | RawSetRhs_Plus a b | RawSetRhs_Minus a b => wf_operand a && wf_operand b
  | RawSetRhs_IfNotExists p v => wf_path p && wf_rhs v
  | RawSetRhs_ListAppend a b => wf_rhs a && wf_rhs b
  end.

(** A condition that starts with the attribute [not] would be read as a
    negation; such an attribute is written through a [#name]. *)
Definition wf_leading (o : RawOperand) : bool :=
  wf_operand o && negb (eqb (str_lower (show_operand o "")) "not").

Definition nonempty {A} (l : list A) : bool := match l with [] => false | _ => true end.

Fixpoint wf_condition (c : RawCondition) : bool :=
  match c with
  | RawCondition_Compare _ a b => wf_leading a && wf_operand b
  | RawCondition_AttributeExists p | RawCondition_AttributeNotExists p => wf_path p
  | RawCondition_BeginsWith p o | RawCondition_Contains p o
  | RawCondition_AttributeType p o => wf_path p && wf_operand o
  | RawCondition_Between v lo hi => wf_leading v && wf_operand lo && wf_operand hi
  | RawCondition_In v items => wf_leading v && nonempty items && forallb wf_operand items
  | RawCondition_And a b | RawCondition_Or a b => wf_condition a && wf_condition b
  | RawCondition_Not c => wf_condition c
  end.

Definition wf_set (c : RawSetClause) : bool := wf_path (raw_set_path c) && wf_rhs (raw_set_value c).
Definition wf_add (a : RawAddAction) : bool :=
  wf_path (raw_add_path a) && wf_operand (raw_add_value a).
Definition wf_delete (a : RawDeleteAction) : bool :=
  wf_path (raw_del_path a) && wf_operand (raw_del_value a).

Definition wf_block (b : RawClauseBlock) : bool :=
  match b with
  | RawClauseBlock_Set v => nonempty v && forallb wf_set v
  | RawClauseBlock_Remove v => nonempty v && forallb wf_path v
  | RawClauseBlock_Add v => nonempty v && forallb wf_add v
  | RawClauseBlock_Delete v => nonempty v && forallb wf_delete v
  end.

(** ** Characters of the printed text *)

(** A visible ASCII character. *)
Definition graph (c : ascii) : bool := in_range 33 126 c.

(** The characters of a printed operand. *)
Definition operand_char (c : ascii) : bool :=
  is_ident_char c || Ascii.eqb c "#" || Ascii.eqb c ":" || Ascii.eqb c "." ||
  Ascii.eqb c "[" || Ascii.eqb c "]".

(** The text after the white space [r] starts with. *)
Definition skip_space (r : string) : string := (span is_multispace r).2.

Definition starts_graph (s : string) : Prop := exists c t, s = String c t /\ graph c = true.

(** Case analysis over all the characters. *)
Ltac by_char c :=
  destruct c as [[] [] [] [] [] [] [] []]; vm_compute; (done || naive_solver).

Lemma graph_not_space c : graph c = true -> is_multispace c = false.
Proof. by_char c. Qed.
Lemma ident_char_operand c : is_ident_char c = true -> operand_char c = true.
Proof. unfold operand_char. by intros ->. Qed.
Lemma ident_start_char c : is_ident_start c = true -> is_ident_char c = true.
Proof. by_char c. Qed.
Lemma operand_char_graph c : operand_char c = true -> graph c = true.
Proof. by_char c. Qed.
Lemma digit_operand_char c : is_ascii_digit c = true -> operand_char c = true.
Proof. by_char c. Qed.
Lemma operand_char_not_open c : operand_char c = true -> Ascii.eqb "(" c = false.
Proof. by_char c. Qed.
Lemma ident_start_not_hash c : is_ident_start c = true -> Ascii.eqb "#" c = false.
Proof. by_char c. Qed.
Lemma ident_start_not_colon c : is_ident_start c = true -> Ascii.eqb ":" c = false.
Proof. by_char c. Qed.

Lemma stops_graph s : starts_graph s -> stops is_multispace s.
Proof. intros (c & t & -> & Hc). by apply graph_not_space. Qed.

Lemma skip_space_graph s : starts_graph s -> skip_space s = s.
Proof. intros Hs%stops_graph. unfold skip_space. by rewrite span_none. Qed.

Lemma skip_space_one s : starts_graph s -> skip_space (" " +:+ s) = s.
Proof.
  intros Hs%stops_graph. unfold skip_space. by rewrite (span_forall is_multispace " " s).
Qed.

Lemma graph_not_blank s : starts_graph s -> is_blank s = false.
Proof.
  intros (c & t & -> & Hc). apply not_true_iff_false. rewrite is_blank_spec.
  rewrite trim_start_id; [done|]. revert Hc. by_char c.
Qed.

(** ** Operands as words *)

(** A nonempty word of operand characters that the printer puts before
    the text that follows. *)
Definition is_word (w : string) : Prop := w <> "" /\ str_forall operand_char w = true.

Lemma wf_ident_inv n : wf_ident n = true ->
  exists c t, n = String c t /\ is_ident_start c = true /\ str_forall is_ident_char t = true.
Proof. destruct n as [|c t]; simpl; [done|]. rewrite andb_true_iff. naive_solver. Qed.

Lemma wf_ident_word n : wf_ident n = true -> str_forall operand_char n = true.
Proof.
  intros (c & t & -> & Hc & Ht)%wf_ident_inv. simpl.
  rewrite (ident_char_operand _ (ident_start_char _ Hc)). simpl.
  eapply str_forall_impl; [|done]. apply ident_char_operand.
Qed.

Lemma show_first_word seg : wf_continuation seg = true ->
  exists w, is_word w /\ forall r, show_first seg r = w +:+ r.
Proof.
  destruct seg as [n|n|i]; simpl; intros Hn.
  - exists n. split; [|done]. split; [by destruct n|]. by apply wf_ident_word.
  - exists ("#" +:+ n). split; [|done]. split; [done|]. simpl. by apply wf_ident_word.
  - exists ("[" +:+ (usize_to_string i +:+ "]")). split.
    + split; [done|]. simpl. rewrite str_forall_app. apply andb_true_iff. split; [|done].
      eapply str_forall_impl; [|apply usize_to_string_digits]. apply digit_operand_char.
    + intros r. by rewrite <- !app_assoc_str.
Qed.

Lemma show_continuations_word l : forallb wf_continuation l = true ->
  exists w, str_forall operand_char w = true /\ forall r, show_continuations l r = w +:+ r.
Proof.
  induction l as [|seg l IH]; simpl; [by exists ""|]. rewrite andb_true_iff.
  intros [Hs (w & Hw & E)%IH]. destruct (show_first_word seg Hs) as (v & [_ Hv] & E').
  exists ((match seg with RawPathSegment_Index _ => "" | _ => "." end) +:+ (v +:+ w)).
  rewrite !str_forall_app, Hv, Hw. split; [by destruct seg|]. intros r.
  rewrite E, <- !app_assoc_str, <- E'. by destruct seg.
Qed.

Lemma show_path_word p : wf_path p = true ->
  exists w, is_word w /\ forall r, show_path p r = w +:+ r.
Proof.
  destruct p as [[|seg l]]; unfold wf_path, show_path; simpl; [done|]. intros Hwf.
  assert (wf_continuation seg = true /\ forallb wf_continuation l = true) as [Hs Hl].
  { apply andb_true_iff. by destruct seg. }
  destruct (show_first_word seg Hs) as (v & [Hv1 Hv2] & E).
  destruct (show_continuations_word l Hl) as (w & Hw & E').
  exists (v +:+ w). split.
  - split; [by destruct v|]. by rewrite str_forall_app, Hv2, Hw.
  - intros r. by rewrite E, E', app_assoc_str.
Qed.

Lemma show_operand_word o : wf_operand o = true ->
  exists w, is_word w /\ forall r, show_operand o r = w +:+ r.
Proof.
  destruct o as [p|v]; simpl; [apply show_path_word|]. intros Hv.
  exists (":" +:+ v). split; [|done]. split; [done|]. simpl. by apply wf_ident_word.
Qed.

Lemma word_graph w r : is_word w -> starts_graph (w +:+ r).
Proof.
  intros [Hw1 Hw2]. destruct w as [|c w]; [done|]. simpl in Hw2.
  apply andb_true_iff in Hw2 as [Hc _]. exists c, (w +:+ r). split; [done|].
  by apply operand_char_graph.
Qed.

Lemma show_operand_graph o r : wf_operand o = true -> starts_graph (show_operand o r).
Proof. intros (w & Hw & ->)%show_operand_word. by apply word_graph. Qed.

Lemma show_path_graph p r : wf_path p = true -> starts_graph (show_path p r).
Proof. intros (w & Hw & ->)%show_path_word. by apply word_graph. Qed.

(** ** Tokens *)

(** The keyword of a block, and the keyword that a list of them repeats
    first. *)
Definition clause_name (b : RawClauseBlock) : string :=
  match b with
  | RawClauseBlock_Set _ => "SET"
  | RawClauseBlock_Remove _ => "REMOVE"
  | RawClauseBlock_Add _ => "ADD"
  | RawClauseBlock_Delete _ => "DELETE"
  end.

Fixpoint first_repeat (seen l : list string) : option string :=
  match l with
  | [] => None
  | n :: l => if contains seen n then Some n else first_repeat (n :: seen) l
  end.

(** The actions of a list of blocks, kind by kind. *)
Definition append_block (e : RawUpdateExpression) (b : RawClauseBlock) : RawUpdateExpression :=
  let '(mkRawUpdateExpression se re ad de) := e in
  match b with
  | RawClauseBlock_Set v => mkRawUpdateExpression (se ++ v) re ad de
  | RawClauseBlock_Remove v => mkRawUpdateExpression se (re ++ v) ad de
  | RawClauseBlock_Add v => mkRawUpdateExpression se re (ad ++ v) de
  | RawClauseBlock_Delete v => mkRawUpdateExpression se re ad (de ++ v)
  end.

(** The blocks of an expression, one for each kind of action it has. *)
Definition blocks (e : RawUpdateExpression) : list RawClauseBlock :=
  (if nonempty (raw_set e) then [RawClauseBlock_Set (raw_set e)] else []) ++
  (if nonempty (raw_remove e) then [RawClauseBlock_Remove (raw_remove e)] else []) ++
  (if nonempty (raw_add e) then [RawClauseBlock_Add (raw_add e)] else []) ++
  (if nonempty (raw_delete e) then [RawClauseBlock_Delete (raw_delete e)] else []).

Definition print_update (e : RawUpdateExpression) : string := print_blocks (blocks e).

Definition wf_update (e : RawUpdateExpression) : bool :=
  nonempty (blocks e) && forallb wf_block (blocks e).

Section round_trip.
Context `{Winnow}.

Lemma bind_some {A B} (p : P A) (k : A -> P B) s a s' :
  p s = Some (a, s') -> (p ≫= k) s = k a s'.
Proof. intros E. by rewrite bind_eq, E. Qed.

Lemma bind_none {A B} (p : P A) (k : A -> P B) s : p s = None -> (p ≫= k) s = None.
Proof. intros E. by rewrite bind_eq, E. Qed.

(** Run the next parser of a sequence. *)
#[local] Abbreviation step E := (bind_some _ _ _ _ _ E) (only parsing).

Lemma parse_literal t r : literal t (t +:+ r) = Some (tt, r).
Proof. by rewrite literal_spec, strip_prefix_app. Qed.

Lemma parse_caseless t r : caseless t (t +:+ r) = Some (tt, r).
Proof. by rewrite caseless_spec, strip_prefix_caseless_app. Qed.

Lemma parse_multispace0 s : multispace0 s = Some (tt, skip_space s).
Proof. apply multispace0_spec. Qed.

Lemma parse_multispace0_none s : starts_graph s -> multispace0 s = Some (tt, s).
Proof. intros Hs. by rewrite parse_multispace0, skip_space_graph. Qed.

Lemma parse_multispace1 s : starts_graph s -> multispace1 (" " +:+ s) = Some (tt, s).
Proof.
  intros Hs%stops_graph. by rewrite multispace1_spec, (span_forall is_multispace " " s).
Qed.

Lemma multispace1_graph s : starts_graph s -> multispace1 s = None.
Proof. intros Hs%stops_graph. by rewrite multispace1_spec, span_none. Qed.

Lemma spaced_skip t s : spaced t s =
  match strip_prefix t (skip_space s) with
  | Some r => Some (tt, skip_space r)
  | None => None
  end.
Proof.
  unfold spaced. rewrite (step (parse_multispace0 s)), bind_eq, literal_spec.
  destruct (strip_prefix t (skip_space s)); simpl; [|done]. apply parse_multispace0.
Qed.

(** A delimiter between printed parts, with a blank on neither, the right
    or both sides. *)
Lemma parse_tight c s : graph c = true -> starts_graph s ->
  spaced (String c "") (String c "" +:+ s) = Some (tt, s).
Proof.
  intros Hc Hs. rewrite spaced_skip, skip_space_graph by (by exists c, s).
  by rewrite strip_prefix_app, skip_space_graph.
Qed.

Lemma parse_comma s : starts_graph s -> comma_sep (", " +:+ s) = Some (tt, s).
Proof.
  intros Hs. unfold comma_sep. rewrite spaced_skip, skip_space_graph by (by exists ","%char, (" " +:+ s)).
  change (", " +:+ s) with ("," +:+ (" " +:+ s)).
  by rewrite strip_prefix_app, skip_space_one.
Qed.

Lemma parse_spaced_both c s : graph c = true -> starts_graph s ->
  spaced (String c "") (String " " (String c " ") +:+ s) = Some (tt, s).
Proof.
  intros Hc Hs. rewrite spaced_skip.
  change (String " " (String c " ") +:+ s) with (" " +:+ (String c "" +:+ (" " +:+ s))).
  rewrite skip_space_one by (by exists c, (" " +:+ s)).
  by rewrite strip_prefix_app, skip_space_one.
Qed.

Lemma close_graph r : starts_graph (")" +:+ r).
Proof. by exists ")"%char, r. Qed.
Lemma open_graph r : starts_graph ("(" +:+ r).
Proof. by exists "("%char, r. Qed.

(** ** Identifiers and paths *)

(** The text after a path: nothing that would extend it. *)
Definition ends_path (r : string) : Prop :=
  stops (fun c => is_ident_char c || Ascii.eqb c "." || Ascii.eqb c "[") r.

Lemma ends_path_ident r : ends_path r -> stops is_ident_char r.
Proof. destruct r as [|c r]; simpl; [done|]. by rewrite !orb_false_iff; intros [[??]?]. Qed.

Lemma parse_ident n r : wf_ident n = true -> stops is_ident_char r ->
  ident (n +:+ r) = Some (n, r).
Proof.
  intros (c & t & -> & Hc & Ht)%wf_ident_inv Hr. unfold ident.
  rewrite bind_eq, take_one_spec. simpl. rewrite Hc, bind_eq, take_while0_spec.
  by rewrite span_forall.
Qed.

Lemma parse_path_seg seg r :
  match seg with RawPathSegment_Index _ => False | _ => wf_continuation seg = true end ->
  stops is_ident_char r -> path_seg (show_first seg r) = Some (seg, r).
Proof.
  intros Hs Hr. unfold path_seg. rewrite alt_spec. destruct seg as [n|n|i]; [..|done]; simpl in *.
  - destruct (wf_ident_inv n Hs) as (c & t & -> & Hc & Ht). unfold name_ref.
    rewrite bind_eq, preceded_spec, bind_eq, literal_spec. cbn [strip_prefix String.app].
    rewrite (ident_start_not_hash c Hc). cbn [fmap option_fmap option_map].
    change (String c (t +:+ r)) with (String c t +:+ r).
    by rewrite (step (parse_ident (String c t) r Hs Hr)).
  - unfold name_ref. rewrite bind_eq, preceded_spec.
    change (String "#" (n +:+ r)) with ("#" +:+ (n +:+ r)).
    by rewrite (step (parse_literal "#" (n +:+ r))), parse_ident.
Qed.

Lemma parse_digit1 n r : str_forall is_ascii_digit n = true /\ n <> EmptyString ->
  stops is_ascii_digit r -> digit1 (n +:+ r) = Some (n, r).
Proof. intros [Hn Hne] Hr. rewrite digit1_spec, span_forall by done. by destruct n. Qed.

Lemma parse_bracket_index i r : N.leb i usize_max = true ->
  bracket_index ("[" +:+ (usize_to_string i +:+ ("]" +:+ r))) = Some (RawPathSegment_Index i, r).
Proof.
  intros Hi. unfold bracket_index.
  erewrite bind_some; [by rewrite usize_roundtrip by (by apply N.leb_le)|].
  rewrite delimited_spec, (step (parse_literal "[" _)).
  rewrite (bind_some digit1 _ _ _ _ (parse_digit1 _ ("]" +:+ r) (usize_to_string_digits i) eq_refl)).
  by rewrite (step (parse_literal "]" r)).
Qed.

Lemma parse_continuation seg r :
  wf_continuation seg = true -> stops is_ident_char r ->
  path_continuation (show_continuation seg r) = Some (seg, r).
Proof.
  intros Hs Hr. unfold path_continuation. rewrite alt_spec.
  destruct seg as [n|n|i]; cbn [first_of show_continuation]; unfold dot_segment.
  - by rewrite (step (parse_literal "." _)), (parse_path_seg (RawPathSegment_Name n)).
  - by rewrite (step (parse_literal "." _)), (parse_path_seg (RawPathSegment_NameRef n)).
  - rewrite bind_eq, literal_spec. pose proof (parse_bracket_index i r Hs) as E.
    simpl in E |- *. by rewrite E.
Qed.

Lemma continuation_stops l r : forallb wf_continuation l = true -> ends_path r ->
  stops is_ident_char (show_continuations l r).
Proof.
  destruct l as [|[n|n|i] l]; simpl; [|done..]. intros _. apply ends_path_ident.
Qed.

Lemma parse_continuations l r : forallb wf_continuation l = true -> ends_path r ->
  repeat0 path_continuation (show_continuations l r) = Some (l, r).
Proof.
  induction l as [|seg l IH]; simpl; intros Hl Hr.
  - apply repeat0_stop. unfold path_continuation, dot_segment, bracket_index.
    rewrite alt_spec. cbn [first_of].
    rewrite !bind_eq, delimited_spec, bind_eq, !literal_spec.
    destruct r as [|c r]; [done|]. unfold ends_path in Hr. cbn [stops] in Hr.
    apply orb_false_iff in Hr as [[_ Hd]%orb_false_iff Hb].
    cbn [strip_prefix]. rewrite (Ascii.eqb_sym "."), (Ascii.eqb_sym "["), Hd, Hb. done.
  - apply andb_true_iff in Hl as [Hs Hl].
    assert (E : path_continuation (show_continuation seg (show_continuations l r))
                = Some (seg, show_continuations l r))
      by (apply parse_continuation, continuation_stops; done).
    rewrite (repeat0_step _ _ _ _ _ E (consumes_path_continuation _ _ _ E)).
    by rewrite (step (IH Hl Hr)).
Qed.

Lemma parse_path p r : wf_path p = true -> ends_path r -> path (show_path p r) = Some (p, r).
Proof.
  destruct p as [[|seg l]]; unfold wf_path, show_path; simpl; [done|]. intros Hwf Hr.
  assert (match seg with RawPathSegment_Index _ => False | _ => wf_continuation seg = true end
          /\ forallb wf_continuation l = true) as [Hs Hl].
  { destruct seg; [by apply andb_true_iff in Hwf..|done]. }
  unfold path. rewrite (step (parse_path_seg seg _ Hs (continuation_stops l r Hl Hr))).
  by rewrite (step (parse_continuations l r Hl Hr)).
Qed.

Lemma parse_operand o r :
  wf_operand o = true -> ends_path r -> operand (show_operand o r) = Some (o, r).
Proof.
  intros Ho Hr. unfold operand. rewrite alt_spec. destruct o as [p|v]; cbn [first_of show_operand].
  - assert (value_ref (show_path p r) = None) as E.
    { unfold value_ref. rewrite preceded_spec, bind_eq, literal_spec.
      destruct p as [[|[n|n|i] l]]; [done| |done..]. cbn in Ho.
      apply andb_true_iff in Ho as [(c & t & -> & Hc & _)%wf_ident_inv _].
      cbn [show_path raw_segments show_first String.app strip_prefix].
      by rewrite (ident_start_not_colon c Hc). }
    by rewrite (bind_none _ _ _ E), (step (parse_path p r Ho Hr)).
  - assert (value_ref (":" +:+ (v +:+ r)) = Some (v, r)) as E.
    { unfold value_ref. rewrite preceded_spec, (step (parse_literal ":" _)).
      apply parse_ident; [done|]. by apply ends_path_ident. }
    by rewrite (step E).
Qed.

(** ** Keywords against operands *)

Lemma lower_ident_char c : is_ident_char (to_ascii_lowercase c) = is_ident_char c.
Proof. by_char c. Qed.

(** A keyword read off the front of an operand leaves a suffix of the
    operand. *)
Lemma strip_keyword kw w r t :
  str_forall is_ident_char kw = true -> str_forall operand_char w = true ->
  stops is_ident_char r -> strip_prefix_caseless kw (w +:+ r) = Some t ->
  exists w', t = w' +:+ r /\ str_forall operand_char w' = true /\
             (w' = "" -> str_lower w = str_lower kw).
Proof.
  revert w. induction kw as [|a kw IH]; intros w Hk Hw Hr E; simpl in E.
  - injection E as <-. exists w. naive_solver.
  - simpl in Hk. apply andb_true_iff in Hk as [Ha Hk]. destruct w as [|c w]; simpl in E.
    + destruct r as [|c r]; [done|]. simpl in Hr. case_match eqn:Ec; [|done].
      apply Ascii.eqb_eq in Ec. rewrite <- lower_ident_char, Ec, lower_ident_char in Ha. congruence.
    + case_match eqn:Ec; [|done]. apply Ascii.eqb_eq in Ec. simpl in Hw.
      apply andb_true_iff in Hw as [_ Hw].
      destruct (IH w Hk Hw Hr E) as (w' & -> & Hw' & Hl). exists w'. split_and!; [done..|].
      intros Hn. unfold str_lower in *. simpl. by rewrite Ec, Hl.
Qed.

(** What follows the operand is not an argument list. *)
Definition no_call (r : string) : Prop :=
  stops is_ident_char r /\ stops (fun c => Ascii.eqb c "(") (skip_space r).

Lemma spaced_none c r : stops (fun d => Ascii.eqb d c) (skip_space r) ->
  spaced (String c "") r = None.
Proof.
  intros Hr. rewrite spaced_skip. destruct (skip_space r) as [|d t]; [done|]. simpl in Hr.
  cbn [strip_prefix]. by rewrite Ascii.eqb_sym, Hr.
Qed.

Lemma no_call_word w r : str_forall operand_char w = true -> no_call r ->
  spaced "(" (w +:+ r) = None.
Proof.
  intros Hw Hr. destruct w as [|c w]; [by apply spaced_none, Hr|]. simpl in Hw.
  apply andb_true_iff in Hw as [Hc _]. apply spaced_none.
  rewrite skip_space_graph by (exists c, (w +:+ r); by auto using operand_char_graph).
  simpl. by rewrite Ascii.eqb_sym, operand_char_not_open.
Qed.

Lemma not_a_call {A} kw (k : P A) w r :
  str_forall is_ident_char kw = true -> str_forall operand_char w = true -> no_call r ->
  (caseless kw ;; spaced "(" ;; k) (w +:+ r) = None.
Proof.
  intros Hk Hw Hr. rewrite bind_eq, caseless_spec.
  destruct (strip_prefix_caseless kw (w +:+ r)) as [t|] eqn:E; [|done]. simpl.
  destruct (strip_keyword _ _ _ _ Hk Hw (proj1 Hr) E) as (w' & -> & Hw' & _).
  by rewrite (bind_none _ _ _ (no_call_word w' r Hw' Hr)).
Qed.

(** ** Right-hand sides of SET *)

Definition ends_rhs (r : string) : Prop :=
  ends_path r /\
  stops (fun c => Ascii.eqb c "(" || Ascii.eqb c "+" || Ascii.eqb c "-") (skip_space r).

Lemma stops_impl (f g : ascii -> bool) r :
  (forall c, g c = true -> f c = true) -> stops f r -> stops g r.
Proof.
  intros Hfg. destruct r as [|c r]; simpl; [done|]. intros Hf.
  apply not_true_iff_false. intros Hg%Hfg. congruence.
Qed.

Lemma ends_rhs_no_call r : ends_rhs r -> no_call r.
Proof.
  intros [H1 H2]. split; [by apply ends_path_ident|]. eapply stops_impl; [|done]. intros c Hc. cbn beta in *. by rewrite Hc.
Qed.

Lemma comma_ends_rhs t : ends_rhs (", " +:+ t).
Proof. split; [done|]. by rewrite (skip_space_graph (", " +:+ t)) by (by eexists _, _). Qed.
Lemma close_ends_rhs t : ends_rhs (")" +:+ t).
Proof. split; [done|]. by rewrite skip_space_graph by apply close_graph. Qed.

Lemma arith_tail_none r : ends_rhs r -> arith_tail r = None.
Proof.
  intros [_ Hr]. unfold arith_tail. rewrite (step (parse_multispace0 r)).
  apply bind_none. rewrite alt_spec. cbn [first_of]. rewrite !bind_eq, !literal_spec.
  destruct (skip_space r) as [|c t]; [done|]. cbn [stops] in Hr.
  apply orb_false_iff in Hr as [[_ Hp]%orb_false_iff Hm]. cbn [strip_prefix].
  by rewrite (Ascii.eqb_sym "+"), (Ascii.eqb_sym "-"), Hp, Hm.
Qed.

Lemma opt_none {A} (p : P A) s : p s = None -> opt p s = Some (None, s).
Proof. intros E. by rewrite opt_spec, E. Qed.
Lemma opt_some {A} (p : P A) s a r : p s = Some (a, r) -> opt p s = Some (Some a, r).
Proof. intros E. by rewrite opt_spec, E. Qed.

Lemma parse_rhs_operand o r : wf_operand o = true -> ends_rhs r ->
  operand_or_arith (show_operand o r) = Some (RawSetRhs_Operand o, r).
Proof.
  intros Ho Hr. unfold operand_or_arith.
  rewrite (step (parse_operand o r Ho (proj1 Hr))).
  by rewrite (step (opt_none _ _ (arith_tail_none r Hr))).
Qed.

Lemma parse_rhs_arith c a b r :
  c = "+"%char \/ c = "-"%char -> wf_operand a = true -> wf_operand b = true -> ends_rhs r ->
  operand_or_arith (show_operand a (String " " (String c " ") +:+ show_operand b r)) =
  Some (if Ascii.eqb c "+" then RawSetRhs_Plus a b else RawSetRhs_Minus a b, r).
Proof.
  intros Hc Ha Hb Hr. unfold operand_or_arith.
  pose proof (show_operand_graph b r Hb) as Hg.
  set (t := show_operand b r) in *.
  assert (E : arith_tail (String " " (String c " ") +:+ t) = Some ((c, b), r)).
  { unfold arith_tail. change (String " " (String c " ") +:+ t) with
      (" " +:+ (String c "" +:+ (" " +:+ t))).
    rewrite (step (parse_multispace0 _)).
    rewrite skip_space_one by (exists c, (" " +:+ t); by destruct Hc as [->| ->]).
    assert (E : alt [literal "+" ;; ret "+"%char; literal "-" ;; ret "-"%char]
              (String c "" +:+ (" " +:+ t)) = Some (c, " " +:+ t)).
    { rewrite alt_spec. cbn [first_of]. rewrite !bind_eq, !literal_spec. by destruct Hc as [->| ->]. }
    rewrite (step E), (step (parse_multispace0 _)).
    rewrite skip_space_one by done.
    by rewrite (step (parse_operand b r Hb (proj1 Hr))). }
  rewrite (step (parse_operand a (String " " (String c " ") +:+ t) Ha eq_refl)).
  rewrite (step (opt_some _ _ _ _ E)). by destruct Hc as [->| ->].
Qed.

(** The function alternatives do not apply to an operand. *)
Lemma set_rhs_operand o t : wf_operand o = true -> no_call t ->
  set_rhs (show_operand o t) = operand_or_arith (show_operand o t).
Proof.
  intros Ho Ht. rewrite set_rhs_unfold, alt_spec. cbn [first_of].
  unfold if_not_exists_call, list_append_call.
  destruct (show_operand_word o Ho) as (w & [_ Hw] & ->).
  rewrite !not_a_call by done. by destruct (operand_or_arith _).
Qed.

Lemma blank_no_call c t : graph c = true -> Ascii.eqb c "(" = false ->
  no_call (String " " (String c t)).
Proof.
  intros Hc Ho. split; [done|]. change (String " " (String c t)) with (" " +:+ String c t).
  rewrite skip_space_one by (by exists c, t). done.
Qed.

Lemma show_rhs_graph v r : wf_rhs v = true -> starts_graph (show_rhs v r).
Proof.
  destruct v; simpl; rewrite ?andb_true_iff; intros; destruct_and?;
    auto using show_operand_graph; by eexists _, _.
Qed.

(** The closing parenthesis of a call. *)
Lemma parse_close_ret {A} (a : A) r : (multispace0 ;; literal ")" ;; ret a) (")" +:+ r) = Some (a, r).
Proof.
  rewrite (step (parse_multispace0_none _ (close_graph r))).
  by rewrite (step (parse_literal ")" r)).
Qed.

Lemma parse_set_rhs v r : wf_rhs v = true -> ends_rhs r -> set_rhs (show_rhs v r) = Some (v, r).
Proof.
  revert r. induction v as [o|a b|a b|p v IH|a IHa b IHb]; intros r; cbn [show_rhs wf_rhs];
    rewrite ?andb_true_iff; intros Hv Hr.
  - rewrite set_rhs_operand by auto using ends_rhs_no_call. by apply parse_rhs_operand.
  - destruct Hv as [Ha Hb]. rewrite set_rhs_operand by (done || by apply blank_no_call).
    apply (parse_rhs_arith "+"); auto.
  - destruct Hv as [Ha Hb]. rewrite set_rhs_operand by (done || by apply blank_no_call).
    apply (parse_rhs_arith "-"); auto.
  - destruct Hv as [Hp Hv]. rewrite set_rhs_unfold, alt_spec. cbn [first_of].
    unfold if_not_exists_call at 1.
    rewrite (step (parse_caseless "if_not_exists" _)).
    rewrite (step (parse_tight "(" _ eq_refl (show_path_graph p _ Hp))).
    rewrite (step (parse_path p _ Hp (proj1 (comma_ends_rhs _)))).
    rewrite (step (parse_comma _ (show_rhs_graph v _ Hv))).
    by rewrite (step (IH _ Hv (close_ends_rhs r))), parse_close_ret.
  - destruct Hv as [Ha Hb]. rewrite set_rhs_unfold, alt_spec. cbn [first_of].
    assert (if_not_exists_call set_rhs
      ("list_append" +:+ ("(" +:+ show_rhs a (", " +:+ show_rhs b (")" +:+ r)))) = None) as ->.
    { unfold if_not_exists_call. apply bind_none. rewrite caseless_spec. done. }
    unfold list_append_call at 1.
    rewrite (step (parse_caseless "list_append" _)).
    rewrite (step (parse_tight "(" _ eq_refl (show_rhs_graph a _ Ha))).
    rewrite (step (IHa _ Ha (comma_ends_rhs _))).
    rewrite (step (parse_comma _ (show_rhs_graph b _ Hb))).
    by rewrite (step (IHb _ Hb (close_ends_rhs r))), parse_close_ret.
Qed.

(** ** Comma-separated lists *)

Lemma comma_none r : stops (fun c => Ascii.eqb c ",") (skip_space r) -> comma_sep r = None.
Proof. apply spaced_none. Qed.

Section separated.
Context {A : Type} (p : P A) (show : A -> string -> string) (wf : A -> bool) (ends : string -> Prop).
Hypothesis Hparse : forall x r, wf x = true -> ends r -> p (show x r) = Some (x, r).
Hypothesis Hgraph : forall x r, wf x = true -> starts_graph (show x r).
Hypothesis Hcomma : forall t, ends (", " +:+ t).
Hypothesis Hconsumes : consumes p.

Lemma show_list_graph l r :
  nonempty l = true -> forallb wf l = true -> starts_graph (show_list show l r).
Proof.
  destruct l as [|x [|y l]]; simpl; [done|..]; rewrite ?andb_true_iff; naive_solver.
Qed.

(** Parsing a printed list yields its head and reaches the rest of it. *)
Lemma show_list_head x l r : wf x = true -> ends r ->
  exists t, p (show_list show (x :: l) r) = Some (x, t).
Proof. intros Hx Hr. destruct l as [|y l]; cbn [show_list]; eexists; apply Hparse; auto. Qed.

Lemma parse_separated l r :
  nonempty l = true -> forallb wf l = true -> ends r ->
  stops (fun c => Ascii.eqb c ",") (skip_space r) ->
  separated1 p comma_sep (show_list show l r) = Some (l, r).
Proof.
  intros Hne Hl Hr Hc. induction l as [|x l IH]; [done|]. simpl in Hl.
  apply andb_true_iff in Hl as [Hx Hl]. destruct l as [|y l].
  - simpl. apply separated1_last; [by apply Hparse|]. by apply bind_none, comma_none.
  - specialize (IH eq_refl Hl). pose proof Hl as [Hy _]%andb_true_iff.
    change (show_list show (x :: y :: l) r) with
      (show x (", " +:+ show_list show (y :: l) r)).
    destruct (show_list_head y l r Hy Hr) as [t Et].
    assert (Hlg : starts_graph (show_list show (y :: l) r)) by by apply show_list_graph.
    rewrite (separated1_more _ _ _ _ _ _ _ _ _ _ (Hparse x _ Hx (Hcomma _)) (parse_comma _ Hlg) Et).
    + by rewrite (step IH).
    + apply Hconsumes in Et. rewrite app_length_str. lia.
Qed.

Lemma parse_keyword_list kw l r :
  nonempty l && forallb wf l = true -> ends r ->
  stops (fun c => Ascii.eqb c ",") (skip_space r) ->
  (caseless kw ;; multispace1 ;; separated1 p comma_sep)
    (kw +:+ (" " +:+ show_list show l r)) = Some (l, r).
Proof.
  intros [Hn Hl]%andb_true_iff Hr Hc.
  rewrite (step (parse_caseless kw _)).
  rewrite (step (parse_multispace1 _ (show_list_graph l r Hn Hl))).
  by apply parse_separated.
Qed.
End separated.

(** ** Clause blocks *)

Lemma consumes_set_action : consumes set_action.
Proof.
  unfold set_action. apply consumes_bind_l; [apply consumes_path|intros q].
  apply shrinks_bind; [apply consumes_shrinks, consumes_spaced|intros _].
  apply shrinks_bind; [|intros; apply shrinks_ret].
  apply (shrinks_self set_rhs_fuel). intros. apply consumes_shrinks, consumes_set_rhs_fuel.
Qed.

Lemma consumes_path_operand {A} (f : RawPath -> RawOperand -> A) :
  consumes (p ← path; multispace1 ;; v ← operand; ret (f p v)).
Proof.
  apply consumes_bind_l; [apply consumes_path|intros q].
  apply shrinks_bind; [apply consumes_shrinks, consumes_multispace1|intros _].
  apply shrinks_bind; [apply consumes_shrinks, consumes_operand|intros; apply shrinks_ret].
Qed.

Lemma parse_set_action c r : wf_set c = true -> ends_rhs r -> set_action (show_set c r) = Some (c, r).
Proof.
  destruct c as [q v]. unfold wf_set, show_set, set_action. cbn [raw_set_path raw_set_value].
  rewrite andb_true_iff. intros [Hq Hv] Hr.
  rewrite (step (parse_path q (" = " +:+ show_rhs v r) Hq eq_refl)).
  rewrite (step (parse_spaced_both "=" _ eq_refl (show_rhs_graph v r Hv))).
  by rewrite (step (parse_set_rhs v r Hv Hr)).
Qed.

Lemma parse_path_operand {A} (f : RawPath -> RawOperand -> A) q o r :
  wf_path q = true -> wf_operand o = true -> ends_path r ->
  (p ← path; multispace1 ;; v ← operand; ret (f p v)) (show_path q (" " +:+ show_operand o r))
  = Some (f q o, r).
Proof.
  intros Hq Ho Hr.
  rewrite (step (parse_path q (" " +:+ show_operand o r) Hq eq_refl)).
  rewrite (step (parse_multispace1 _ (show_operand_graph o r Ho))).
  by rewrite (step (parse_operand o r Ho Hr)).
Qed.

(** What follows a block: the end of the text, or a blank and a keyword. *)
Definition ends_block (r : string) : Prop :=
  r = "" \/ exists c t, r = " " +:+ String c t /\ is_ascii_alphabetic c = true.

Lemma alphabetic_facts c : is_ascii_alphabetic c = true ->
  graph c = true /\ Ascii.eqb c "," = false /\
  Ascii.eqb c "(" || Ascii.eqb c "+" || Ascii.eqb c "-" = false.
Proof. by_char c. Qed.

Lemma ends_block_facts r : ends_block r ->
  ends_rhs r /\ stops (fun c => Ascii.eqb c ",") (skip_space r).
Proof.
  intros [->|(c & t & -> & (Hg & Hc & Ho)%alphabetic_facts)]; [done|].
  unfold ends_rhs. rewrite skip_space_one by (by exists c, t). done.
Qed.

Lemma other_keyword {A} kw kw' t (k : P A) : strip_prefix_caseless kw (kw' +:+ t) = None ->
  (caseless kw ;; k) (kw' +:+ t) = None.
Proof. intros E. apply bind_none. by rewrite caseless_spec, E. Qed.

Lemma parse_set_block v r : nonempty v && forallb wf_set v = true -> ends_rhs r ->
  stops (fun c => Ascii.eqb c ",") (skip_space r) ->
  set_block ("SET" +:+ (" " +:+ show_list show_set v r)) = Some (v, r).
Proof.
  apply (parse_keyword_list _ _ wf_set); auto using comma_ends_rhs, consumes_set_action.
  - intros. by apply parse_set_action.
  - intros x r' [Hp _]%andb_true_iff. by apply show_path_graph.
Qed.

Lemma parse_remove_block v r : nonempty v && forallb wf_path v = true -> ends_path r ->
  stops (fun c => Ascii.eqb c ",") (skip_space r) ->
  remove_block ("REMOVE" +:+ (" " +:+ show_list show_path v r)) = Some (v, r).
Proof.
  apply (parse_keyword_list _ _ wf_path); auto using show_path_graph, parse_path, consumes_path.
  by intros t.
Qed.

Lemma parse_add_block v r : nonempty v && forallb wf_add v = true -> ends_path r ->
  stops (fun c => Ascii.eqb c ",") (skip_space r) ->
  add_block ("ADD" +:+ (" " +:+ show_list show_add v r)) = Some (v, r).
Proof.
  apply (parse_keyword_list _ _ wf_add); [..|apply (consumes_path_operand mkRawAddAction)]; [| |done].
  - intros [q o] r' [Hq Ho]%andb_true_iff Hr. by apply (parse_path_operand mkRawAddAction).
  - intros x r' [Hp _]%andb_true_iff. by apply show_path_graph.
Qed.

Lemma parse_delete_block v r : nonempty v && forallb wf_delete v = true -> ends_path r ->
  stops (fun c => Ascii.eqb c ",") (skip_space r) ->
  delete_block ("DELETE" +:+ (" " +:+ show_list show_delete v r)) = Some (v, r).
Proof.
  apply (parse_keyword_list _ _ wf_delete); [..|apply (consumes_path_operand mkRawDeleteAction)]; [| |done].
  - intros [q o] r' [Hq Ho]%andb_true_iff Hr. by apply (parse_path_operand mkRawDeleteAction).
  - intros x r' [Hp _]%andb_true_iff. by apply show_path_graph.
Qed.

Lemma parse_block b r : wf_block b = true -> ends_block r ->
  clause_block (show_block b r) = Some (b, r).
Proof.
  intros Hb [Hr Hc]%ends_block_facts. unfold clause_block. rewrite alt_spec. cbn [first_of].
  assert (Hset : forall kw t, strip_prefix_caseless "SET" (kw +:+ t) = None ->
            set_block (kw +:+ t) = None) by (intros; by apply other_keyword).
  assert (Hrem : forall kw t, strip_prefix_caseless "REMOVE" (kw +:+ t) = None ->
            remove_block (kw +:+ t) = None) by (intros; by apply other_keyword).
  assert (Hadd : forall kw t, strip_prefix_caseless "ADD" (kw +:+ t) = None ->
            add_block (kw +:+ t) = None) by (intros; by apply other_keyword).
  destruct b as [v|v|v|v]; cbn [wf_block show_block] in *; rewrite !bind_eq.
  - by rewrite (parse_set_block v r Hb Hr Hc).
  - by rewrite Hset, (parse_remove_block v r Hb (proj1 Hr) Hc).
  - by rewrite Hset, Hrem, (parse_add_block v r Hb (proj1 Hr) Hc).
  - by rewrite Hset, Hrem, Hadd, (parse_delete_block v r Hb (proj1 Hr) Hc).
Qed.

Definition block_tail (l : list RawClauseBlock) : string :=
  match l with
  | [] => ""
  | _ => " " +:+ print_blocks l
  end.

Lemma print_blocks_cons b l : print_blocks (b :: l) = show_block b (block_tail l).
Proof. by destruct l. Qed.

Lemma show_block_alphabetic b r : exists c t, show_block b r = String c t /\
  is_ascii_alphabetic c = true.
Proof. destruct b; by eexists _, _. Qed.

Lemma ends_block_tail l : ends_block (block_tail l).
Proof.
  destruct l as [|b l]; [by left|]. right. unfold block_tail. rewrite print_blocks_cons.
  destruct (show_block_alphabetic b (block_tail l)) as (c & t & -> & Hc). by exists c, t.
Qed.

Lemma print_blocks_graph b l : starts_graph (print_blocks (b :: l)).
Proof.
  rewrite print_blocks_cons. destruct (show_block_alphabetic b (block_tail l)) as (c & t & -> & Hc).
  exists c, t. split; [done|]. by apply alphabetic_facts.
Qed.

Lemma skip_block_tail l : skip_space (block_tail l) = print_blocks l.
Proof. destruct l as [|b l]; [done|]. apply skip_space_one, print_blocks_graph. Qed.

Lemma parse_terminated_block b l : wf_block b = true ->
  terminated clause_block multispace0 (print_blocks (b :: l)) = Some (b, print_blocks l).
Proof.
  intros Hb. rewrite terminated_spec, print_blocks_cons.
  rewrite (step (parse_block b _ Hb (ends_block_tail l))).
  by rewrite (step (parse_multispace0 _)), skip_block_tail.
Qed.

Lemma consumes_keyword_list {A} c kw (p : P A) :
  consumes p -> consumes (caseless (String c kw) ;; multispace1 ;; separated1 p comma_sep).
Proof.
  intros Hp. apply consumes_bind_l; [apply consumes_caseless|intros _].
  apply shrinks_bind; [apply consumes_shrinks, consumes_multispace1|intros _].
  apply shrinks_separated1; [done|]. apply consumes_shrinks, consumes_comma_sep.
Qed.

Lemma consumes_terminated_block : consumes (terminated clause_block multispace0).
Proof.
  intros s b r. rewrite terminated_spec. revert s b r.
  change (consumes (a ← clause_block; multispace0 ;; ret a)).
  apply consumes_bind_l; [|intros b; apply shrinks_bind; [apply shrinks_multispace0|intros _; apply shrinks_ret]].
  unfold clause_block. apply consumes_alt. repeat constructor;
    (apply consumes_bind_l; [|intros; apply shrinks_ret]); apply consumes_keyword_list;
    first [apply consumes_set_action | apply consumes_path
          | apply (consumes_path_operand mkRawAddAction)
          | apply (consumes_path_operand mkRawDeleteAction)].
Qed.

Lemma parse_blocks_rest l : forallb wf_block l = true ->
  repeat0 (terminated clause_block multispace0) (print_blocks l) = Some (l, "").
Proof.
  induction l as [|b l IH]; intros Hl.
  - apply repeat0_stop. rewrite terminated_spec. apply bind_none. unfold clause_block.
    rewrite alt_spec. cbn [first_of]. unfold set_block, remove_block, add_block, delete_block.
    by rewrite !bind_eq, !caseless_spec.
  - simpl in Hl. apply andb_true_iff in Hl as [Hb Hl].
    pose proof (parse_terminated_block b l Hb) as E.
    rewrite (repeat0_step _ _ _ _ _ E (consumes_terminated_block _ _ _ E)).
    by rewrite (step (IH Hl)).
Qed.

Lemma parse_full_expression l : nonempty l = true -> forallb wf_block l = true ->
  full_expression (print_blocks l) = Some (l, "").
Proof.
  destruct l as [|b l]; [done|]. intros _ Hl. unfold full_expression.
  rewrite (step (parse_multispace0_none _ (print_blocks_graph b l))).
  simpl in Hl. apply andb_true_iff in Hl as [Hb Hl].
  pose proof (parse_terminated_block b l Hb) as E.
  rewrite (repeat1_step _ _ _ _ _ E (consumes_terminated_block _ _ _ E)).
  by rewrite (step (parse_blocks_rest l Hl)).
Qed.

(** ** The clause-keyword rule *)

Definition flags (seen : list string) : bool * bool * bool * bool :=
  (contains seen "SET", contains seen "REMOVE", contains seen "ADD", contains seen "DELETE").

Lemma merge_block_flags e seen b :
  merge_block (mkMergeState e (flags seen)) b =
  if contains seen (clause_name b) then Err (ParseError_DuplicateKeyword (clause_name b))
  else Ok (mkMergeState (append_block e b) (flags (clause_name b :: seen))).
Proof. by destruct e, b. Qed.

Lemma merge_blocks e seen l :
  (let? st := fold_result merge_block (mkMergeState e (flags seen)) l in Ok (ms_expr st)) =
  match first_repeat seen (map clause_name l) with
  | Some n => Err (ParseError_DuplicateKeyword n)
  | None => Ok (fold_left append_block l e)
  end.
Proof.
  revert e seen. induction l as [|b l IH]; intros e seen; [done|].
  cbn [fold_result map first_repeat fold_left]. rewrite merge_block_flags.
  destruct (contains seen (clause_name b)); [done|]. apply IH.
Qed.

Lemma parse_update_blocks l : nonempty l = true -> forallb wf_block l = true ->
  parse_update_expression (print_blocks l) =
  match first_repeat [] (map clause_name l) with
  | Some n => Err (ParseError_DuplicateKeyword n)
  | None => Ok (fold_left append_block l empty_update)
  end.
Proof.
  intros Hn Hl. unfold parse_update_expression.
  assert (is_blank (print_blocks l) = false) as ->.
  { destruct l; [done|]. apply graph_not_blank, print_blocks_graph. }
  unfold parse. rewrite (parse_full_expression l Hn Hl). simpl.
  rewrite <- merge_blocks. unfold flags. simpl.
  by destruct (fold_result merge_block _ l).
Qed.

(** ** Conditions: the operator levels *)

Lemma chain_one kw term join s a r :
  term s = Some (a, r) -> kw r = None -> chain kw term join s = Some (a, r).
Proof.
  intros Ht Hk. unfold chain. rewrite (step Ht). simpl.
  by rewrite (step (opt_none _ _ Hk)).
Qed.

Lemma chain_two kw term join s a r1 r2 b r :
  consumes kw -> term s = Some (a, r1) -> kw r1 = Some (tt, r2) ->
  term r2 = Some (b, r) -> kw r = None -> chain kw term join s = Some (join a b, r).
Proof.
  intros Hc Ht Hk Ht' Hk'. unfold chain. rewrite (step Ht).
  pose proof (Hc _ _ _ Hk) as Hlt. destruct (String.length r1) as [|n] eqn:En; [lia|].
  simpl. rewrite (step (opt_some _ _ _ _ Hk)), (step Ht').
  by rewrite (step (opt_none _ _ Hk')).
Qed.

(** What follows a condition: the end of the text or a parenthesis. *)
Definition ends_condition (r : string) : Prop := r = "" \/ exists t, r = ")" +:+ t.

Lemma ends_condition_path r : ends_condition r -> ends_path r.
Proof. by intros [->|[t ->]]. Qed.

Lemma keyword_none (kw r : string) : ends_condition r ->
  (multispace1 ;; caseless kw ;; multispace1) r = None.
Proof. intros Hr. apply bind_none. rewrite multispace1_spec. by destruct Hr as [->|[t ->]]. Qed.

Lemma parse_keyword kw t : starts_graph (kw +:+ (" " +:+ t)) -> starts_graph t ->
  (multispace1 ;; caseless kw ;; multispace1) (" " +:+ (kw +:+ (" " +:+ t))) = Some (tt, t).
Proof.
  intros Hg Ht. rewrite (step (parse_multispace1 _ Hg)).
  rewrite (step (parse_caseless kw _)). by apply parse_multispace1.
Qed.

Lemma and_of_not s c r : full not_expr s = Some (c, r) -> and_keyword r = None ->
  full and_expr s = Some (c, r).
Proof. intros. rewrite and_expr_unfold. by apply chain_one. Qed.

Lemma or_of_and s c r : full and_expr s = Some (c, r) -> ends_condition r ->
  full or_expr s = Some (c, r).
Proof. intros. rewrite or_expr_unfold. apply chain_one; [done|]. by apply keyword_none. Qed.

Lemma or_of_not s c r : full not_expr s = Some (c, r) -> ends_condition r ->
  full or_expr s = Some (c, r).
Proof. intros Hc Hr. apply or_of_and; [|done]. apply and_of_not; [done|]. by apply keyword_none. Qed.

Lemma not_of_atom s : starts_graph s -> not_keyword s = None ->
  full not_expr s = cond_atom (full or_expr) s.
Proof.
  intros Hs Hn. rewrite not_expr_unfold. unfold not_step.
  rewrite (step (parse_multispace0_none _ Hs)).
  by rewrite (step (opt_none _ _ Hn)).
Qed.

Lemma not_keyword_none s : strip_prefix_caseless "NOT" s = None -> not_keyword s = None.
Proof. intros E. unfold not_keyword. apply bind_none. by rewrite caseless_spec, E. Qed.

Lemma parse_paren c r :
  full or_expr (show_condition c (")" +:+ r)) = Some (c, ")" +:+ r) ->
  full not_expr ("(" +:+ show_condition c (")" +:+ r)) = Some (c, r).
Proof.
  intros IH. rewrite not_of_atom by (apply open_graph || by apply not_keyword_none).
  unfold cond_atom. rewrite (step (parse_multispace0_none _ (open_graph _))).
  rewrite alt_spec. cbn [first_of]. unfold paren_group at 1.
  rewrite (step (parse_literal "(" _)).
  by rewrite (step IH), parse_close_ret.
Qed.

(** ** Conditions: the atoms *)

Lemma parse_attribute_call {A} kw (f : RawPath -> A) p r : wf_path p = true ->
  (caseless kw ;; spaced "(" ;; p ← path; multispace0 ;; literal ")" ;; ret (f p))
    (kw +:+ ("(" +:+ show_path p (")" +:+ r))) = Some (f p, r).
Proof.
  intros Hp. rewrite (step (parse_caseless kw _)).
  rewrite (step (parse_tight "(" _ eq_refl (show_path_graph p _ Hp))).
  by rewrite (step (parse_path p (")" +:+ r) Hp eq_refl)), parse_close_ret.
Qed.

Lemma parse_two_arg_call {A} kw (f : RawPath * RawOperand -> A) p o r :
  wf_path p = true -> wf_operand o = true ->
  (caseless kw ;; keyword_word_boundary ;; po ← two_arg_call; ret (f po)) (show_call kw p o r)
  = Some (f (p, o), r).
Proof.
  intros Hp Ho. unfold show_call. rewrite (step (parse_caseless kw _)).
  match goal with |- (keyword_word_boundary ≫= _) ?s = _ =>
    rewrite (bind_some keyword_word_boundary _ s tt s eq_refl) end.
  erewrite bind_some; [done|]. unfold two_arg_call.
  rewrite (step (parse_tight "(" _ eq_refl (show_path_graph p _ Hp))).
  rewrite (step (parse_path p _ Hp (proj1 (comma_ends_rhs _)))).
  rewrite (step (parse_comma _ (show_operand_graph o _ Ho))).
  by rewrite (step (parse_operand o (")" +:+ r) Ho eq_refl)), parse_close_ret.
Qed.

Lemma two_arg_call_none s : spaced "(" s = None -> two_arg_call s = None.
Proof. apply bind_none. Qed.

Lemma not_a_two_arg_call {A} kw (k : RawPath * RawOperand -> P A) w r :
  str_forall is_ident_char kw = true -> str_forall operand_char w = true -> no_call r ->
  (caseless kw ;; keyword_word_boundary ;; po ← two_arg_call; k po) (w +:+ r) = None.
Proof.
  intros Hk Hw Hr. rewrite bind_eq, caseless_spec.
  destruct (strip_prefix_caseless kw (w +:+ r)) as [t|] eqn:E; [|done]. simpl.
  destruct (strip_keyword _ _ _ _ Hk Hw (proj1 Hr) E) as (w' & -> & Hw' & _).
  pose proof (bind_none _ k _ (two_arg_call_none _ (no_call_word w' r Hw' Hr))) as Hn.
  rewrite bind_eq. unfold keyword_word_boundary. destruct (w' +:+ r) as [|c t]; [done|].
  destruct (is_ascii_alphanumeric c || is_underscore c); [by rewrite fail_spec|done].
Qed.

(** An operand that is not the word [not] does not start a negation. *)
Lemma not_keyword_operand o t : wf_leading o = true ->
  not_keyword (show_operand o (" " +:+ t)) = None.
Proof.
  unfold wf_leading. rewrite andb_true_iff, negb_true_iff. intros [Ho Hn]. apply eqb_false in Hn.
  destruct (show_operand_word o Ho) as (w & Hw & E). rewrite E, app_nil_r_str in Hn. rewrite E.
  unfold not_keyword. rewrite bind_eq, caseless_spec.
  destruct (strip_prefix_caseless "NOT" _) as [r|] eqn:Es; [|done]. simpl.
  destruct (strip_keyword "NOT" w (" " +:+ t) r eq_refl (proj2 Hw) eq_refl Es)
    as (w' & -> & Hw' & Hl).
  destruct w' as [|c w']; [by destruct Hn; apply Hl|]. apply multispace1_graph, word_graph. done.
Qed.

Lemma cond_atom_operand o c t : wf_leading o = true -> graph c = true -> Ascii.eqb c "(" = false ->
  full not_expr (show_operand o (" " +:+ String c t)) =
  operand_based (show_operand o (" " +:+ String c t)).
Proof.
  intros Hl Hc Hp. pose proof Hl as [Ho _]%andb_true_iff.
  pose proof (show_operand_graph o (" " +:+ String c t) Ho) as Hg.
  rewrite not_of_atom by (done || by apply not_keyword_operand).
  unfold cond_atom. rewrite (step (parse_multispace0_none _ Hg)).
  rewrite alt_spec. cbn [first_of].
  pose proof (blank_no_call c t Hc Hp) as Hnc.
  destruct (show_operand_word o Ho) as (w & Hw & ->).
  assert (paren_group (full or_expr) (w +:+ (" " +:+ String c t)) = None) as ->.
  { unfold paren_group. apply bind_none. destruct w as [|d w]; [by destruct Hw|].
    rewrite literal_spec. destruct Hw as [_ Hw]. simpl in Hw. apply andb_true_iff in Hw as [Hd _].
    cbn [String.app strip_prefix]. by rewrite operand_char_not_open. }
  destruct Hw as [_ Hw].
  unfold attribute_exists_fn, attribute_not_exists_fn, begins_with_fn, contains_fn,
    attribute_type_fn.
  rewrite !not_a_call, !not_a_two_arg_call by done.
  by destruct (operand_based _).
Qed.

Lemma tail_none {A} kw (k : P A) s : starts_graph s -> strip_prefix_caseless kw s = None ->
  (multispace1 ;; caseless kw ;; k) (" " +:+ s) = None.
Proof.
  intros Hs E. rewrite (step (parse_multispace1 s Hs)).
  apply bind_none. by rewrite caseless_spec, E.
Qed.

(** [kw] after a blank, with the word boundary. *)
Lemma parse_word {A} kw (k : P A) t : starts_graph (kw +:+ t) -> stops is_ident_char t ->
  (multispace1 ;; caseless kw ;; keyword_word_boundary ;; k) (" " +:+ (kw +:+ t)) = k t.
Proof.
  intros Hg Ht. rewrite (step (parse_multispace1 _ Hg)).
  rewrite (step (parse_caseless kw _)). rewrite bind_eq.
  unfold keyword_word_boundary. destruct t as [|c t]; [done|].
  simpl in Ht. unfold is_ident_char in Ht. by rewrite Ht.
Qed.

Lemma parse_comparator op t :
  comparator (as_str_op op +:+ (" " +:+ t)) = Some (op, " " +:+ t).
Proof.
  unfold comparator. rewrite alt_spec. cbn [first_of]. rewrite !bind_eq, !literal_spec.
  by destruct op.
Qed.

Lemma op_graph op t : starts_graph (as_str_op op +:+ t).
Proof. destruct op; by eexists _, _. Qed.

Lemma parse_compare op a b r : wf_operand a = true -> wf_operand b = true -> ends_path r ->
  operand_based (show_operand a (" " +:+ (as_str_op op +:+ (" " +:+ show_operand b r)))) =
  Some (RawCondition_Compare op a b, r).
Proof.
  intros Ha Hb Hr. unfold operand_based. pose proof (show_operand_graph b r Hb) as Hg.
  pose proof (parse_operand b r Hb Hr) as Eb. set (t := " " +:+ show_operand b r) in *.
  rewrite (step (parse_operand a (" " +:+ (as_str_op op +:+ t)) Ha eq_refl)).
  assert (between_tail (" " +:+ (as_str_op op +:+ t)) = None) as E1
    by (apply tail_none; [apply op_graph|by destruct op]).
  assert (in_tail (" " +:+ (as_str_op op +:+ t)) = None) as E2
    by (apply tail_none; [apply op_graph|by destruct op]).
  rewrite (step (opt_none _ _ E1)), (step (opt_none _ _ E2)).
  rewrite (step (parse_multispace0 _)), skip_space_one by apply op_graph.
  rewrite (step (parse_comparator op (show_operand b r))).
  rewrite (step (parse_multispace0 _)), skip_space_one by done.
  by rewrite (step Eb).
Qed.

Lemma parse_between v lo hi r :
  wf_operand v = true -> wf_operand lo = true -> wf_operand hi = true -> ends_path r ->
  operand_based (show_condition (RawCondition_Between v lo hi) r) =
  Some (RawCondition_Between v lo hi, r).
Proof.
  intros Hv Hlo Hhi Hr. cbn [show_condition]. unfold operand_based.
  rewrite (step (parse_operand v (" " +:+ _) Hv eq_refl)).
  erewrite bind_some; [|eapply opt_some].
  2:{ unfold between_tail. rewrite (parse_word "BETWEEN") by (done || by eexists _, _).
      rewrite (step (parse_multispace1 _ (show_operand_graph lo _ Hlo))).
      rewrite (step (parse_operand lo (" " +:+ _) Hlo eq_refl)).
      rewrite (parse_word "AND") by (done || by eexists _, _).
      rewrite (step (parse_multispace1 _ (show_operand_graph hi r Hhi))).
      by rewrite (step (parse_operand hi r Hhi Hr)). }
  done.
Qed.

Definition items_tail (l : list RawOperand) (r : string) : string :=
  match l with
  | [] => r
  | _ => ", " +:+ show_list show_operand l r
  end.

Lemma show_items_cons o l r :
  show_list show_operand (o :: l) r = show_operand o (items_tail l r).
Proof. by destruct l. Qed.

Lemma items_tail_ends l r : ends_path (items_tail l (")" +:+ r)).
Proof. by destruct l. Qed.

Lemma parse_in_items acc l r : forallb wf_operand l = true ->
  full (fun n => in_items n acc) (items_tail l (")" +:+ r)) = Some (acc ++ l, ")" +:+ r).
Proof.
  revert acc. induction l as [|o l IH]; intros acc Hl; rewrite in_items_unfold.
  - assert (comma_sep (")" +:+ r) = None) as E
      by (apply comma_none; by rewrite skip_space_graph by apply close_graph).
    rewrite (step (opt_none _ _ E)), app_nil_r. done.
  - simpl in Hl. apply andb_true_iff in Hl as [Ho Hl]. unfold items_tail at 1.
    rewrite show_items_cons.
    rewrite (step (opt_some _ _ _ _ (parse_comma _ (show_operand_graph o _ Ho)))).
    rewrite (step (parse_operand o _ Ho (items_tail_ends l r))).
    rewrite (IH _ Hl). by rewrite <- app_assoc.
Qed.

Lemma parse_in v items r :
  wf_operand v = true -> nonempty items = true -> forallb wf_operand items = true ->
  operand_based (show_condition (RawCondition_In v items) r) = Some (RawCondition_In v items, r).
Proof.
  intros Hv Hn Hi. destruct items as [|o l]; [done|]. simpl in Hi.
  apply andb_true_iff in Hi as [Ho Hl].
  cbn [show_condition]. rewrite show_items_cons. unfold operand_based.
  rewrite (step (parse_operand v (" " +:+ _) Hv eq_refl)).
  erewrite bind_some; [|apply opt_none, tail_none; [by eexists _, _|done]]. cbv beta iota.
  erewrite bind_some; [|eapply opt_some].
  2:{ unfold in_tail. rewrite (parse_word "IN") by (done || by eexists _, _).
      pose proof (show_operand_graph o (items_tail l (")" +:+ r)) Ho) as Hg.
      erewrite bind_some.
      2:{ rewrite spaced_skip. rewrite (skip_space_one ("(" +:+ _) (open_graph _) : skip_space (" (" +:+ _) = _).
          by rewrite strip_prefix_app, skip_space_graph. }
      rewrite (step (parse_operand o _ Ho (items_tail_ends l r))).
      rewrite (step (parse_in_items [o] l r Hl)).
      apply parse_close_ret. }
  done.
Qed.

(** Skip the alternatives of [cond_atom] whose keyword differs. *)
Ltac skip_alternative :=
  match goal with
  | |- match ?p ?s with Some _ => _ | None => _ end = _ =>
      let E := fresh in
      assert (E : p s = None) by
        (apply bind_none; rewrite ?literal_spec, ?caseless_spec; reflexivity);
      rewrite E; clear E
  end.

Lemma call_atom s : starts_graph s -> strip_prefix_caseless "NOT" s = None ->
  full not_expr s =
  first_of [paren_group (full or_expr); attribute_exists_fn; attribute_not_exists_fn;
            begins_with_fn; contains_fn; attribute_type_fn; operand_based] s.
Proof.
  intros Hs Hn. rewrite not_of_atom by (done || by apply not_keyword_none).
  unfold cond_atom. by rewrite (step (parse_multispace0_none _ Hs)), alt_spec.
Qed.

Lemma parse_call c r : wf_condition c = true ->
  match c with
  | RawCondition_AttributeExists _ | RawCondition_AttributeNotExists _
  | RawCondition_BeginsWith _ _ | RawCondition_Contains _ _
  | RawCondition_AttributeType _ _ => True
  | _ => False
  end -> full not_expr (show_condition c r) = Some (c, r).
Proof.
  intros Hwf Hc. destruct c; try done; cbn [wf_condition show_condition] in *;
    rewrite call_atom by (reflexivity || by eexists _, _); cbn [first_of].
  - skip_alternative. unfold attribute_exists_fn at 1. by rewrite (parse_attribute_call "attribute_exists").
  - do 2 skip_alternative. unfold attribute_not_exists_fn at 1.
    by rewrite (parse_attribute_call "attribute_not_exists").
  - apply andb_true_iff in Hwf as [Hp Ho]. do 3 skip_alternative. unfold begins_with_fn at 1.
    by rewrite (parse_two_arg_call "begins_with").
  - apply andb_true_iff in Hwf as [Hp Ho]. do 4 skip_alternative. unfold contains_fn at 1.
    by rewrite (parse_two_arg_call "contains").
  - apply andb_true_iff in Hwf as [Hp Ho]. do 5 skip_alternative. unfold attribute_type_fn at 1.
    by rewrite (parse_two_arg_call "attribute_type").
Qed.

Lemma parse_operand_condition c r : wf_condition c = true -> ends_path r ->
  match c with
  | RawCondition_Compare _ _ _ | RawCondition_Between _ _ _ | RawCondition_In _ _ => True
  | _ => False
  end -> full not_expr (show_condition c r) = Some (c, r).
Proof.
  intros Hwf Hr Hc.
  destruct c as [op a b| | | | |v lo hi|v items| | | | ]; try done; cbn [wf_condition] in Hwf;
    rewrite ?andb_true_iff in Hwf; destruct_and?;
    match goal with Hl : wf_leading ?o = true |- _ =>
      pose proof Hl as [Ho _]%andb_true_iff end.
  - transitivity (operand_based (show_condition (RawCondition_Compare op a b) r));
      [|by apply parse_compare].
    cbn [show_condition]. destruct op; by apply (cond_atom_operand a).
  - transitivity (operand_based (show_condition (RawCondition_Between v lo hi) r));
      [|by apply parse_between]. by apply (cond_atom_operand v).
  - transitivity (operand_based (show_condition (RawCondition_In v items) r));
      [|by apply parse_in]. by apply (cond_atom_operand v).
Qed.

Lemma parse_or_expr c : wf_condition c = true -> forall r, ends_condition r ->
  full or_expr (show_condition c r) = Some (c, r).
Proof.
  induction c as [op a b|p|p|p o|p o|v lo hi|v items|p o|a IHa b IHb|a IHa b IHb|c IH];
    intros Hwf r Hr;
    try (apply or_of_not; [first [by apply parse_call
                                | apply parse_operand_condition; [done | by apply ends_condition_path | done]]|done]).
  - cbn [wf_condition show_condition] in *. apply andb_true_iff in Hwf as [Ha Hb].
    apply or_of_and; [|done]. rewrite and_expr_unfold. eapply chain_two.
    + apply consumes_and_keyword.
    + apply parse_paren, IHa; [done|]. right. by eexists.
    + apply (parse_keyword "AND"); by eexists _, _.
    + apply parse_paren, IHb; [done|]. right. by eexists.
    + by apply keyword_none.
  - cbn [wf_condition show_condition] in *. apply andb_true_iff in Hwf as [Ha Hb].
    rewrite or_expr_unfold. eapply chain_two.
    + apply consumes_or_keyword.
    + apply and_of_not; [apply parse_paren, IHa; [done|]; right; by eexists|].
      apply (tail_none "AND" _ ("OR " +:+ _)); [by eexists _, _|done].
    + apply (parse_keyword "OR"); by eexists _, _.
    + apply and_of_not; [apply parse_paren, IHb; [done|]; right; by eexists|].
      by apply keyword_none.
    + by apply keyword_none.
  - cbn [wf_condition show_condition] in *. apply or_of_not; [|done]. rewrite not_expr_unfold.
    unfold not_step. rewrite (step (parse_multispace0_none ("NOT " +:+ _) ltac:(by eexists _, _))).
    assert (Ek : forall t, not_keyword ("NOT " +:+ ("(" +:+ t)) = Some (tt, "(" +:+ t)).
    { intros t. unfold not_keyword.
      rewrite (step (parse_caseless "NOT" (" " +:+ ("(" +:+ t)))).
      apply parse_multispace1, open_graph. }
    rewrite (step (opt_some _ _ _ _ (Ek _))).
    erewrite bind_some; [done|]. apply parse_paren, IH; [done|]. right. by eexists.
Qed.

Lemma show_condition_graph c r : wf_condition c = true -> starts_graph (show_condition c r).
Proof.
  destruct c; cbn [wf_condition show_condition]; rewrite ?andb_true_iff; intros; destruct_and?;
    try (by eexists _, _);
    match goal with Hl : wf_leading _ = true |- _ => apply andb_true_iff in Hl as [Ho _] end;
    by apply show_operand_graph.
Qed.

(** ** The parsers read the printed form back *)

Lemma parse_cond_top s c : starts_graph s -> full or_expr s = Some (c, "") -> parse_condition_expression s = Ok c.
Proof.
  intros Hg Hc. unfold parse_condition_expression. rewrite (graph_not_blank _ Hg). unfold parse, cond_top.
  rewrite (step (parse_multispace0_none _ Hg)), (step Hc). by rewrite (step (parse_multispace0 "")).
Qed.

(** Two comparisons joined by [AND], without parentheses. *)
Definition operand_condition (c : RawCondition) : Prop :=
  match c with
  | RawCondition_Compare _ _ _ | RawCondition_Between _ _ _ | RawCondition_In _ _ => True
  | _ => False
  end.

Lemma parse_plain_and a b : wf_condition a = true -> wf_condition b = true ->
  operand_condition a -> operand_condition b ->
  parse_condition_expression (show_condition a (" AND " +:+ show_condition b "")) = Ok (RawCondition_And a b).
Proof.
  intros Ha Hb Hoa Hob. apply parse_cond_top; [by apply show_condition_graph|].
  apply or_of_and; [|by left]. rewrite and_expr_unfold. eapply chain_two.
  - apply consumes_and_keyword.
  - by apply parse_operand_condition.
  - apply (parse_keyword "AND"); [by eexists _, _ | by apply show_condition_graph].
  - by apply parse_operand_condition.
  - apply keyword_none. by left.
Qed.

(** C33: Every well-formed condition tree has a concrete syntax that
    [parse_condition_expression] reads back to exactly that tree:
    precedence, parentheses, [NOT], [BETWEEN .. AND ..], [IN] lists, the
    function calls and nested paths all survive. *)
Theorem condition_round_trip (c : RawCondition) :
  wf_condition c = true -> parse_condition_expression (print_condition c) = Ok c.
Proof.
  intros Hc. apply parse_cond_top; [by apply show_condition_graph|]. apply parse_or_expr; [done|]. by left.
Qed.

(** Every well-formed, nonempty update expression has a concrete
    syntax that [parse_update_expression] reads back to exactly that
    tree, with all of its SET, REMOVE, ADD and DELETE actions in order. *)
Theorem update_round_trip (e : RawUpdateExpression) :
  wf_update e = true -> parse_update_expression (print_update e) = Ok e.
Proof.
  intros [Hn Hw]%andb_true_iff. unfold print_update. rewrite parse_update_blocks by done.
  destruct e as [[|] [|] [|] [|]]; done.
Qed.

(** On every nonempty sequence of well-formed clause blocks,
    [parse_update_expression] accepts exactly when no clause keyword
    occurs twice, whatever their order; then the result has the actions
    of each kind in source order, and otherwise the error names the
    keyword that was repeated first. *)
Theorem update_clause_keywords (l : list RawClauseBlock) :
  nonempty l = true -> forallb wf_block l = true ->
  parse_update_expression (print_blocks l) =
  match first_repeat [] (map clause_name l) with
  | Some n => Err (ParseError_DuplicateKeyword n)
  | None => Ok (fold_left append_block l empty_update)
  end.
Proof. apply parse_update_blocks. Qed.

(** A text the parsers reject is reported as [Empty] exactly when it
    is blank; every other syntax error carries position 0, whatever the
    place of the error, because the position is computed against the
    input the parse started from. *)
Theorem syntax_errors_have_position_zero (input : string) e :
  parse_condition_expression input = Err e ->
  (e = ParseError_Empty "ConditionExpression" /\ is_blank input = true)
  \/ (exists msg, e = ParseError_Invalid "ConditionExpression" 0 msg /\ is_blank input = false).
Proof.
  unfold parse_condition_expression. destruct (is_blank input); [intros [= <-]; by left|].
  intros E. right. exists (pe_inner (parse_error cond_top input)).
  assert (from_winnow "ConditionExpression" input (parse_error cond_top input)
          = ParseError_Invalid "ConditionExpression" 0 (pe_inner (parse_error cond_top input))) as <-.
  { unfold from_winnow. by rewrite parse_error_input, Nat.sub_diag. }
  unfold parse in E. destruct (cond_top input) as [[c [|]]|]; naive_solver.
Qed.
End round_trip.

(** ** Witnesses *)

Definition v_ref (n : string) : RawOperand := RawOperand_ValueRef n.
Definition p_ref (l : list RawPathSegment) : RawOperand := RawOperand_Path (mkRawPath l).

Definition sample_condition : RawCondition :=
  RawCondition_Or
    (RawCondition_And
      (RawCondition_Compare Le_ (p_ref [RawPathSegment_Name "a"; RawPathSegment_Index 3;
                                        RawPathSegment_NameRef "n"]) (v_ref "v"))
      (RawCondition_Not (RawCondition_Between (v_ref "x") (v_ref "lo") (p_ref [RawPathSegment_NameRef "hi"]))))
    (RawCondition_In (p_ref [RawPathSegment_Name "contains"]) [v_ref "a"; v_ref "b"; v_ref "c"]).

Lemma condition_round_trip_witness :
  wf_condition sample_condition = true
  /\ parse_condition_expression (print_condition sample_condition) = Ok sample_condition.
Proof. split; [by vm_compute|]. apply (condition_round_trip sample_condition). by vm_compute. Defined.

Definition sample_update : RawUpdateExpression :=
  mkRawUpdateExpression
    [mkRawSetClause (mkRawPath [RawPathSegment_Name "a"])
       (RawSetRhs_ListAppend
          (RawSetRhs_IfNotExists (mkRawPath [RawPathSegment_Name "a"]) (RawSetRhs_Operand (v_ref "e")))
          (RawSetRhs_Operand (v_ref "tail")));
     mkRawSetClause (mkRawPath [RawPathSegment_NameRef "n"])
       (RawSetRhs_Minus (p_ref [RawPathSegment_NameRef "n"]) (v_ref "one"))]
    [mkRawPath [RawPathSegment_Name "old"; RawPathSegment_Index 0]]
    [mkRawAddAction (mkRawPath [RawPathSegment_Name "count"]) (v_ref "d")]
    [].

Lemma update_round_trip_witness :
  wf_update sample_update = true
  /\ parse_update_expression (print_update sample_update) = Ok sample_update.
Proof. split; [by vm_compute|]. apply (update_round_trip sample_update). by vm_compute. Defined.

Lemma update_clause_keywords_witness :
  let l := [RawClauseBlock_Remove [mkRawPath [RawPathSegment_Name "a"]];
            RawClauseBlock_Set (raw_set sample_update);
            RawClauseBlock_Remove [mkRawPath [RawPathSegment_Name "b"]]] in
  nonempty l = true /\ forallb wf_block l = true
  /\ parse_update_expression (print_blocks l) = Err (ParseError_DuplicateKeyword "REMOVE").
Proof.
  intros l. split; [done|]. split; [by vm_compute|].
  rewrite (update_clause_keywords l); [by vm_compute..].
Defined.

Lemma syntax_errors_witness :
  exists e, parse_condition_expression "a = :v AND AND" = Err e
  /\ ((e = ParseError_Empty "ConditionExpression" /\ is_blank "a = :v AND AND" = true)
  \/ (exists msg, e = ParseError_Invalid "ConditionExpression" 0 msg
                  /\ is_blank "a = :v AND AND" = false)).
Proof.
  exists (ParseError_Invalid "ConditionExpression" 0 "parse error"). split; [by vm_compute|].
  apply (syntax_errors_have_position_zero "a = :v AND AND"). by vm_compute.
Defined.
