(* ===== verification/Reserved.v ===== *)
(** * Reserved words (rekt-expressions, [reserved_words.rs])

    The DynamoDB reserved-word list and the binary search over it.  The
    main lemma is that the search decides case-insensitive membership. *)

From S2P Require Import Prelude RustStr.

Definition RESERVED_WORDS : list string := [
    "abort"; "absolute"; "action"; "add"; "after"; "agent"; "aggregate"; "all";
    "allocate"; "alter"; "analyze"; "and"; "any"; "archive"; "are"; "array"; "as";
    "asc"; "ascii"; "asensitive"; "assertion"; "asymmetric"; "at"; "atomic"; "attach";
    "attribute"; "auth"; "authorization"; "authorize"; "auto"; "avg"; "back"; "backup";
    "base"; "batch"; "before"; "begin"; "between"; "bigint"; "binary"; "bit"; "blob";
    "block"; "boolean"; "both"; "breadth"; "bucket"; "bulk"; "by"; "byte"; "call";
    "called"; "calling"; "capacity"; "cascade"; "cascaded"; "case"; "cast"; "catalog";
    "char"; "character"; "check"; "class"; "clob"; "close"; "cluster"; "clustered";
    "clustering"; "clusters"; "coalesce"; "collate"; "collation"; "collection";
    "column"; "columns"; "combine"; "comment"; "commit"; "compact"; "compile";
    "compress"; "condition"; "conflict"; "connect"; "connection"; "consistency";
    "consistent"; "constraint"; "constraints"; "constructor"; "consumed"; "continue";
    "convert"; "copy"; "corresponding"; "count"; "counter"; "create"; "cross"; "cube";
    "current"; "cursor"; "cycle"; "data"; "database"; "date"; "datetime"; "day";
    "deallocate"; "dec"; "decimal"; "declare"; "default"; "deferrable"; "deferred";
    "define"; "defined"; "definition"; "delete"; "delimited"; "depth"; "deref"; "desc";
    "describe"; "descriptor"; "detach"; "deterministic"; "diagnostics"; "directories";
    "disable"; "disconnect"; "distinct"; "distribute"; "do"; "domain"; "double"; "drop";
    "dump"; "duration"; "dynamic"; "each"; "element"; "else"; "elseif"; "empty";
    "enable"; "end"; "equal"; "equals"; "error"; "escape"; "escaped"; "eval";
    "evaluate"; "exceeded"; "except"; "exception"; "exceptions"; "exclusive"; "exec";
    "execute"; "exists"; "exit"; "explain"; "explode"; "export"; "expression";
    "extended"; "external"; "extract"; "fail"; "false"; "family"; "fetch"; "fields";
    "file"; "filter"; "filtering"; "final"; "finish"; "first"; "fixed"; "flattern";
    "float"; "for"; "force"; "foreign"; "format"; "forward"; "found"; "free"; "from";
    "full"; "function"; "functions"; "general"; "generate"; "get"; "glob"; "global";
    "go"; "goto"; "grant"; "greater"; "group"; "grouping"; "handler"; "hash"; "have";
    "having"; "heap"; "hidden"; "hold"; "hour"; "identified"; "identity"; "if";
    "ignore"; "immediate"; "import"; "in"; "including"; "inclusive"; "increment";
    "incremental"; "index"; "indexed"; "indexes"; "indicator"; "infinite"; "initially";
    "inline"; "inner"; "innter"; "inout"; "input"; "insensitive"; "insert"; "instead";
    "int"; "integer"; "intersect"; "interval"; "into"; "invalidate"; "is"; "isolation";
    "item"; "items"; "iterate"; "join"; "key"; "keys"; "lag"; "language"; "large";
    "last"; "lateral"; "lead"; "leading"; "leave"; "left"; "length"; "less"; "level";
    "like"; "limit"; "limited"; "lines"; "list"; "load"; "local"; "localtime";
    "localtimestamp"; "location"; "locator"; "lock"; "locks"; "log"; "loged"; "long";
    "loop"; "lower"; "map"; "match"; "materialized"; "max"; "maxlen"; "member"; "merge";
    "method"; "metrics"; "min"; "minus"; "minute"; "missing"; "mod"; "mode"; "modifies";
    "modify"; "module"; "month"; "multi"; "multiset"; "name"; "names"; "national";
    "natural"; "nchar"; "nclob"; "new"; "next"; "no"; "none"; "not"; "null"; "nullif";
    "number"; "numeric"; "object"; "of"; "offline"; "offset"; "old"; "on"; "online";
    "only"; "opaque"; "open"; "operator"; "option"; "or"; "order"; "ordinality";
    "other"; "others"; "out"; "outer"; "output"; "over"; "overlaps"; "override";
    "owner"; "pad"; "parallel"; "parameter"; "parameters"; "partial"; "partition";
    "partitioned"; "partitions"; "path"; "percent"; "percentile"; "permission";
    "permissions"; "pipe"; "pipelined"; "plan"; "pool"; "position"; "precision";
    "prepare"; "preserve"; "primary"; "prior"; "private"; "privileges"; "procedure";
    "processed"; "project"; "projection"; "property"; "provisioning"; "public"; "put";
    "query"; "quit"; "quorum"; "raise"; "random"; "range"; "rank"; "raw"; "read";
    "reads"; "real"; "rebuild"; "record"; "recursive"; "reduce"; "ref"; "reference";
    "references"; "referencing"; "regexp"; "region"; "reindex"; "relative"; "release";
    "remainder"; "rename"; "repeat"; "replace"; "request"; "reset"; "resignal";
    "resource"; "response"; "restore"; "restrict"; "result"; "return"; "returning";
    "returns"; "reverse"; "revoke"; "right"; "role"; "roles"; "rollback"; "rollup";
    "routine"; "row"; "rows"; "rule"; "rules"; "sample"; "satisfies"; "save";
    "savepoint"; "scan"; "schema"; "scope"; "scroll"; "search"; "second"; "section";
    "segment"; "segments"; "select"; "self"; "semi"; "sensitive"; "separate";
    "sequence"; "serializable"; "session"; "set"; "sets"; "shard"; "share"; "shared";
    "short"; "show"; "signal"; "similar"; "size"; "skewed"; "smallint"; "snapshot";
    "some"; "source"; "space"; "spaces"; "sparse"; "specific"; "specifictype"; "split";
    "sql"; "sqlcode"; "sqlerror"; "sqlexception"; "sqlstate"; "sqlwarning"; "start";
    "state"; "static"; "status"; "storage"; "store"; "stored"; "stream"; "string";
    "struct"; "style"; "sub"; "submultiset"; "subpartition"; "substring"; "subtype";
    "sum"; "super"; "symmetric"; "synonym"; "system"; "table"; "tablesample"; "temp";
    "temporary"; "terminated"; "text"; "than"; "then"; "throughput"; "time";
    "timestamp"; "timezone"; "tinyint"; "to"; "token"; "total"; "touch"; "trailing";
    "transaction"; "transform"; "translate"; "translation"; "treat"; "trigger"; "trim";
    "true"; "truncate"; "ttl"; "tuple"; "type"; "under"; "undo"; "union"; "unique";
    "unit"; "unknown"; "unlogged"; "unnest"; "unprocessed"; "unsigned"; "until";
    "update"; "upper"; "url"; "usage"; "use"; "user"; "users"; "using"; "uuid";
    "vacuum"; "value"; "valued"; "values"; "varchar"; "variable"; "variance"; "varint";
    "varying"; "view"; "views"; "virtual"; "void"; "wait"; "when"; "whenever"; "where";
    "while"; "window"; "with"; "within"; "without"; "work"; "wrapped"; "write"; "year";
    "zone"
  ]%string.

(** The closure passed to [binary_search_by]: the list entry against the
    lower-cased name, byte by byte, then by length. *)
Fixpoint cmp_reserved (w name : string) : comparison :=
  match w, name with
  | EmptyString, EmptyString => Eq
  | EmptyString, String _ _ => Lt
  | String _ _, EmptyString => Gt
  | String a w, String b name =>
      match Ascii.compare a (to_ascii_lowercase b) with
      | Eq => cmp_reserved w name
      | o => o
      end
  end.

(** [slice::binary_search_by] of the standard library: halve [size]
    until one candidate at [base] is left.  [fuel] bounds the iterations;
    the slice length is enough. *)
Section binary_search.
Context {A : Type} (f : A -> comparison) (d : A) (l : list A).

Fixpoint bs_loop (fuel base size : nat) : nat :=
  match fuel with
  | 0 => base
  | S fuel =>
      if Nat.ltb 1 size then
        let half := Nat.div2 size in
        let mid := base + half in
        let base' := match f (nth mid l d) with Gt => base | _ => mid end in
        bs_loop fuel base' (size - half)
      else base
  end.

Definition binary_search_by : option nat :=
  match l with
  | [] => None
  | _ :: _ =>
      let base := bs_loop (length l) 0 (length l) in
      match f (nth base l d) with
      | Eq => Some base
      | _ => None
      end
  end.

Lemma binary_search_by_nonempty :
  0 < length l ->
  binary_search_by =
  match f (nth (bs_loop (length l) 0 (length l)) l d) with
  | Eq => Some (bs_loop (length l) 0 (length l))
  | _ => None
  end.
Proof. unfold binary_search_by. destruct l; simpl; [lia|done]. Qed.
End binary_search.

Definition is_reserved (name : string) : bool :=
  if negb (is_ascii name) then false
  else match binary_search_by (fun w => cmp_reserved w name) EmptyString RESERVED_WORDS with
       | Some _ => true
       | None => false
       end.

(** ** The binary search is correct on a sorted slice *)

Section binary_search_facts.
Context {A : Type} (f : A -> comparison) (d : A) (l : list A).

(** Entries before a match compare less, entries after it greater. *)
Hypothesis equal_strict : forall i j, i < j -> j < length l ->
  f (nth j l d) = Eq -> f (nth i l d) = Lt.
Hypothesis equal_strict_r : forall i j, i < j -> j < length l ->
  f (nth i l d) = Eq -> f (nth j l d) = Gt.

Lemma bs_loop_spec fuel base size k :
  size <= fuel -> 0 < size -> base + size <= length l ->
  base <= k < base + size -> f (nth k l d) = Eq ->
  bs_loop f d l fuel base size = k.
Proof.
  revert base size; induction fuel as [|fuel IH]; intros base size Hf Hs Hlen Hk Hk_eq; [lia|].
  simpl. destruct (Nat.ltb_spec 1 size); [|lia].
  set (half := Nat.div2 size).
  assert (0 < half < size /\ 2 * half <= size) as Hhalf.
  { unfold half. rewrite Nat.div2_div. split; [split|].
    - apply Nat.div_str_pos; lia.
    - apply Nat.div_lt; lia.
    - apply Nat.Div0.mul_div_le. }
  destruct (decide (k < base + half)) as [Hlt|Hge].
  - rewrite (equal_strict_r k (base + half)) by (done || lia).
    apply IH; (done || lia).
  - destruct (decide (k = base + half)) as [->|Hne].
    + rewrite Hk_eq. apply IH; (done || lia).
    + rewrite (equal_strict (base + half) k) by (done || lia). apply IH; (done || lia).
Qed.

Lemma bs_loop_bound fuel base size :
  0 < size -> base + size <= length l -> bs_loop f d l fuel base size < length l.
Proof.
  revert base size; induction fuel as [|fuel IH]; intros base size Hs Hlen; simpl; [lia|].
  destruct (Nat.ltb_spec 1 size); [|lia].
  assert (0 < Nat.div2 size < size) as Hhalf.
  { rewrite Nat.div2_div. split; [apply Nat.div_str_pos; lia | apply Nat.div_lt; lia]. }
  destruct (f _); apply IH; lia.
Qed.

Lemma binary_search_by_spec :
  (exists i, binary_search_by f d l = Some i) <-> exists x, x ∈ l /\ f x = Eq.
Proof.
  destruct (decide (0 < length l)) as [Hpos|Hnil].
  - rewrite binary_search_by_nonempty by done. split.
    + intros [i Hi]. case_match; try done. eexists. split; [|done].
      apply list_elem_of_In, nth_In. by apply bs_loop_bound.
    + intros (x & Hx & Heq). apply list_elem_of_In, (In_nth _ _ d) in Hx as (k & Hk & <-).
      rewrite (bs_loop_spec _ _ _ k) by (done || lia). rewrite Heq. eauto.
  - assert (l = []) as Hl by (apply length_zero_iff_nil; lia).
    unfold binary_search_by. rewrite Hl.
    split; [by intros [? ?] | intros (x & Hx & _); set_solver].
Qed.
End binary_search_facts.

(** ** The reserved-word search *)

Lemma cmp_reserved_compare w name :
  cmp_reserved w name = String.compare w (str_lower name).
Proof.
  revert name; induction w as [|a w IH]; intros [|b name]; simpl; try done.
  by rewrite IH.
Qed.

(** The list is strictly increasing (checked by evaluation). *)
Lemma reserved_words_sorted : StronglySorted str_lt RESERVED_WORDS.
Proof.
  apply Sorted_StronglySorted; [intros ???; apply str_lt_trans|].
  assert (forall l : list string,
    (fix go (l : list string) := match l with
     | a :: (b :: _) as t => str_ltb a b && go t
     | _ => true
     end) l = true -> Sorted str_lt l) as Hs.
  { induction l as [|a [|b l] IH]; [constructor | repeat constructor |].
    intros [Hab Hl]%andb_true_iff. constructor; [by apply IH|].
    constructor. by apply str_ltb_spec. }
  apply Hs. by vm_compute.
Qed.

Lemma sorted_nth_lt (ws : list string) i j :
  StronglySorted str_lt ws -> i < j -> j < length ws ->
  str_lt (nth i ws EmptyString) (nth j ws EmptyString).
Proof.
  intros Hs. revert i j.
  induction Hs as [|x l Hs IH Hx]; intros i j Hij Hj; simpl in *; [lia|].
  destruct j as [|j]; [lia|]. destruct i as [|i]; simpl.
  - rewrite Forall_forall in Hx. apply Hx, list_elem_of_In, nth_In. lia.
  - apply IH; lia.
Qed.

Lemma search_sorted_spec (ws : list string) name :
  StronglySorted str_lt ws ->
  (exists i, binary_search_by (fun w => cmp_reserved w name) EmptyString ws = Some i) <->
  str_lower name ∈ ws.
Proof.
  intros Hs. rewrite binary_search_by_spec.
  - setoid_rewrite cmp_reserved_compare. setoid_rewrite str_compare_eq. naive_solver.
  - intros i j Hij Hj. rewrite !cmp_reserved_compare, str_compare_eq.
    intros <-. by apply sorted_nth_lt.
  - intros i j Hij Hj. rewrite !cmp_reserved_compare, str_compare_eq, str_compare_gt.
    intros <-. by apply sorted_nth_lt.
Qed.

Lemma is_reserved_spec name :
  is_reserved name = true <-> is_ascii name = true /\ str_lower name ∈ RESERVED_WORDS.
Proof.
  rewrite <- (search_sorted_spec _ _ reserved_words_sorted). unfold is_reserved.
  destruct (is_ascii name); cbn [negb]; [|split; [done|by intros []]].
  destruct (binary_search_by _ _ _); [|split; [done|by intros [_ [? ?]]]].
  split; [|done]. intros _. split; [done|]. by eexists.
Qed.

(** [is_reserved] is a case-insensitive membership test: the binary
    search over [RESERVED_WORDS] with the folding comparator answers
    [true] exactly on the ASCII names whose lower-case form is in the
    list (so the list is sorted for that comparator, and no name with a
    non-ASCII byte is ever rejected). *)
Theorem reserved_word_check (name : string) :
  is_reserved name = true <-> is_ascii name = true /\ str_lower name ∈ RESERVED_WORDS.
Proof. apply is_reserved_spec. Qed.
