(* ===== verification/Substitute.v ===== *)
(** * Placeholder substitution (rekt-expressions, [substitute.rs])

    Resolves [#n] through [ExpressionAttributeNames] and [:v] through
    [ExpressionAttributeValues], rejecting bare reserved words. *)

From S2P Require Import Prelude RustStr BTree Attr Ast Reserved.

Inductive SubstituteError : Type :=
| SubstituteError_UnknownName (name : string)
| SubstituteError_UnknownValue (name : string)
| SubstituteError_ReservedWord (word : string).

(** [debug_path]. *)
Fixpoint debug_segments (i : nat) (l : list RawPathSegment) : string :=
  match l with
  | [] => EmptyString
  | seg :: l =>
      let dot := if Nat.ltb 0 i then "." else EmptyString in
      match seg with
      | RawPathSegment_Name n => dot +:+ n
      | RawPathSegment_NameRef n => dot +:+ "#" +:+ n
      | RawPathSegment_Index i => "[" +:+ usize_to_string i +:+ "]"
      end +:+ debug_segments (S i) l
  end.

Definition debug_path (p : RawPath) : string := debug_segments 0 (raw_segments p).

(** [map.get(&format!("{sigil}{n}")).or_else(|| map.get(&n))]. *)
Definition get_placeholder {V} (sigil : string) (n : string) (m : btree V) : option V :=
  match BTreeMap.get (sigil +:+ n) m with
  | Some v => Some v
  | None => BTreeMap.get n m
  end.

Section substitute.
Context (names : btree string) (values : btree AttributeValue).

Definition resolve_segment (s : RawPathSegment) : Result SubstituteError PathSegment :=
  match s with
  | RawPathSegment_Name n =>
      if is_reserved n then Err (SubstituteError_ReservedWord n) else Ok (PathSegment_Name n)
  | RawPathSegment_Index i => Ok (PathSegment_Index i)
  | RawPathSegment_NameRef n =>
      let? actual := ok_or (get_placeholder "#" n names) (SubstituteError_UnknownName n) in
      Ok (PathSegment_Name actual)
  end.

Definition resolve_path (p : RawPath) : Result SubstituteError Path :=
  let? segs := collect resolve_segment (raw_segments p) in
  Ok (mkPath segs).

Definition resolve_value (v : string) : Result SubstituteError AttributeValue :=
  ok_or (get_placeholder ":" v values) (SubstituteError_UnknownValue v).

Definition resolve_operand (op : RawOperand) : Result SubstituteError Operand :=
  match op with
  | RawOperand_Path p => let? p := resolve_path p in Ok (Operand_Path p)
  | RawOperand_ValueRef v => let? av := resolve_value v in Ok (Operand_Value av)
  end.

(** ADD and DELETE take a value reference only. *)
Definition resolve_operand_to_value (op : RawOperand) : Result SubstituteError AttributeValue :=
  match op with
  | RawOperand_Path p =>
      Err (SubstituteError_UnknownValue
             ("ADD/DELETE require a value reference (`:v`), got path `"
              +:+ debug_path p +:+ "`"))
  | RawOperand_ValueRef v => resolve_value v
  end.

Fixpoint resolve_set_rhs (rhs : RawSetRhs) : Result SubstituteError SetRhs :=
  match rhs with
  | RawSetRhs_Operand o => let? o := resolve_operand o in Ok (SetRhs_Operand o)
  | RawSetRhs_Plus a b =>
      let? a := resolve_operand a in let? b := resolve_operand b in Ok (SetRhs_Plus a b)
  | RawSetRhs_Minus a b =>
      let? a := resolve_operand a in let? b := resolve_operand b in Ok (SetRhs_Minus a b)
  | RawSetRhs_IfNotExists p inner =>
      let? p := resolve_path p in let? r := resolve_set_rhs inner in
      Ok (SetRhs_IfNotExists p r)
  | RawSetRhs_ListAppend a b =>
      let? a := resolve_set_rhs a in let? b := resolve_set_rhs b in
      Ok (SetRhs_ListAppend a b)
  end.

Definition resolve_set_clause (c : RawSetClause) : Result SubstituteError SetClause :=
  let? p := resolve_path (raw_set_path c) in
  let? v := resolve_set_rhs (raw_set_value c) in
  Ok (mkSetClause p v).

Definition resolve_add (a : RawAddAction) : Result SubstituteError AddAction :=
  let? p := resolve_path (raw_add_path a) in
  let? v := resolve_operand_to_value (raw_add_value a) in
  Ok (mkAddAction p v).

Definition resolve_delete (d : RawDeleteAction) : Result SubstituteError DeleteAction :=
  let? p := resolve_path (raw_del_path d) in
  let? v := resolve_operand_to_value (raw_del_value d) in
  Ok (mkDeleteAction p v).

Definition substitute_update (raw : RawUpdateExpression)
  : Result SubstituteError UpdateExpression :=
  let? se := collect resolve_set_clause (raw_set raw) in
  let? re := collect resolve_path (raw_remove raw) in
  let? ad := collect resolve_add (raw_add raw) in
  let? de := collect resolve_delete (raw_delete raw) in
  Ok (mkUpdateExpression se re ad de).

Fixpoint substitute_condition (raw : RawCondition) : Result SubstituteError Condition :=
  match raw with
  | RawCondition_Compare op lhs rhs =>
      let? l := resolve_operand lhs in let? r := resolve_operand rhs in
      Ok (Condition_Compare op l r)
  | RawCondition_AttributeExists p =>
      let? p := resolve_path p in Ok (Condition_AttributeExists p)
  | RawCondition_AttributeNotExists p =>
      let? p := resolve_path p in Ok (Condition_AttributeNotExists p)
  | RawCondition_BeginsWith p o =>
      let? p := resolve_path p in let? o := resolve_operand o in
      Ok (Condition_BeginsWith p o)
  | RawCondition_Contains p o =>
      let? p := resolve_path p in let? o := resolve_operand o in
      Ok (Condition_Contains p o)
  | RawCondition_Between v lo hi =>
      let? v := resolve_operand v in let? lo := resolve_operand lo in
      let? hi := resolve_operand hi in
      Ok (Condition_Between v lo hi)
  | RawCondition_In v items =>
      let? v := resolve_operand v in let? items := collect resolve_operand items in
      Ok (Condition_In v items)
  | RawCondition_AttributeType p o =>
      let? p := resolve_path p in let? o := resolve_operand o in
      Ok (Condition_AttributeType p o)
  | RawCondition_And a b =>
      let? a := substitute_condition a in let? b := substitute_condition b in
      Ok (Condition_And a b)
  | RawCondition_Or a b =>
      let? a := substitute_condition a in let? b := substitute_condition b in
      Ok (Condition_Or a b)
  | RawCondition_Not c => let? c := substitute_condition c in Ok (Condition_Not c)
  end.

(** ** When substitution succeeds *)

(** A path can be resolved: every bare name is not reserved, every
    alias has an entry. *)
Definition segment_resolvable (s : RawPathSegment) : Prop :=
  match s with
  | RawPathSegment_Name n =>
      ~ (is_ascii n = true /\ str_lower n ∈ RESERVED_WORDS)
  | RawPathSegment_NameRef n =>
      (("#" +:+ n)%string ∈ BTreeMap.keys names) \/ n ∈ BTreeMap.keys names
  | RawPathSegment_Index _ => True
  end.
Definition path_resolvable (p : RawPath) : Prop := Forall segment_resolvable (raw_segments p).
Definition value_known (v : string) : Prop :=
  ((":" +:+ v)%string ∈ BTreeMap.keys values) \/ v ∈ BTreeMap.keys values.

(** The paths and value references of a raw condition, left to right. *)
Definition operand_paths (o : RawOperand) : list RawPath :=
  match o with RawOperand_Path p => [p] | RawOperand_ValueRef _ => [] end.
Definition operand_refs (o : RawOperand) : list string :=
  match o with RawOperand_Path _ => [] | RawOperand_ValueRef v => [v] end.

Fixpoint condition_operands (c : RawCondition) : list RawOperand :=
  match c with
  | RawCondition_Compare _ l r => [l; r]
  | RawCondition_AttributeExists p | RawCondition_AttributeNotExists p => [RawOperand_Path p]
  | RawCondition_BeginsWith p o | RawCondition_Contains p o | RawCondition_AttributeType p o =>
      [RawOperand_Path p; o]
  | RawCondition_Between v lo hi => [v; lo; hi]
  | RawCondition_In v items => v :: items
  | RawCondition_And a b | RawCondition_Or a b =>
      condition_operands a ++ condition_operands b
  | RawCondition_Not c => condition_operands c
  end.

Definition operand_resolvable (o : RawOperand) : Prop :=
  match o with
  | RawOperand_Path p => path_resolvable p
  | RawOperand_ValueRef v => value_known v
  end.

Lemma get_placeholder_is_some {V} sigil n (m : btree V) :
  is_Some (get_placeholder sigil n m) <->
  ((sigil +:+ n)%string ∈ BTreeMap.keys m) \/ n ∈ BTreeMap.keys m.
Proof.
  unfold get_placeholder.
  pose proof (BTreeMap.get_None (sigil +:+ n) m) as H1.
  pose proof (BTreeMap.get_None n m) as H2.
  destruct (BTreeMap.get (sigil +:+ n) m).
  - split; [|by eauto]. intros _. left. destruct (decide ((sigil +:+ n)%string ∈ BTreeMap.keys m));
      naive_solver.
  - destruct (BTreeMap.get n m); split; try (by eauto); try (by intros []); [|naive_solver].
    intros _. right. destruct (decide (n ∈ BTreeMap.keys m)); naive_solver.
Qed.

Lemma resolve_segment_ok s : is_ok (resolve_segment s) = true <-> segment_resolvable s.
Proof.
  destruct s as [n|n|i]; simpl.
  - rewrite <- is_reserved_spec. destruct (is_reserved n); naive_solver.
  - rewrite <- (get_placeholder_is_some "#" n names).
    destruct (get_placeholder "#" n names); simpl; split; try done; by intros [].
  - done.
Qed.

Lemma resolve_path_ok p : is_ok (resolve_path p) = true <-> path_resolvable p.
Proof.
  unfold resolve_path, path_resolvable.
  rewrite <- (Forall_iff _ _ _ resolve_segment_ok), <- collect_is_ok.
  by destruct (collect _ _).
Qed.

Lemma resolve_value_ok v : is_ok (resolve_value v) = true <-> value_known v.
Proof.
  unfold resolve_value, value_known. rewrite <- get_placeholder_is_some.
  destruct (get_placeholder ":" v values); simpl; split; try done; by intros [].
Qed.

Lemma resolve_operand_ok o : is_ok (resolve_operand o) = true <-> operand_resolvable o.
Proof.
  destruct o; simpl.
  - rewrite <- resolve_path_ok. by destruct (resolve_path p).
  - rewrite <- resolve_value_ok. by destruct (resolve_value v).
Qed.

Lemma substitute_condition_is_ok raw :
  is_ok (substitute_condition raw) = true <->
  Forall operand_resolvable (condition_operands raw).
Proof.
  assert (forall p, is_ok (resolve_path p) = true <-> operand_resolvable (RawOperand_Path p))
    as Hp by apply resolve_path_ok.
  induction raw; simpl; rewrite ?Forall_app, ?Forall_cons, ?Forall_nil;
    rewrite <- ?Hp, <- ?IHraw, <- ?IHraw1, <- ?IHraw2, <- ?resolve_operand_ok;
    repeat match goal with
    | |- context [match resolve_path ?p with _ => _ end] => destruct (resolve_path p)
    | |- context [match resolve_operand ?p with _ => _ end] => destruct (resolve_operand p)
    | |- context [match substitute_condition ?p with _ => _ end] =>
        destruct (substitute_condition p)
    end; simpl; try (clear; intuition congruence).
  rewrite <- (Forall_iff _ _ _ resolve_operand_ok), <- collect_is_ok.
  destruct (collect resolve_operand items); naive_solver.
Qed.

(** ** Substitution never panics *)

Lemma resolve_path_no_panic p : resolve_path p <> Panic.
Proof.
  unfold resolve_path.
  assert (collect resolve_segment (raw_segments p) <> Panic) as Hc.
  { apply collect_no_panic. intros [n|n|i] _; simpl; [by case_match| |done].
    by destruct (get_placeholder _ _ _). }
  by destruct (collect _ _).
Qed.

Lemma resolve_value_no_panic v : resolve_value v <> Panic.
Proof. unfold resolve_value. by destruct (get_placeholder _ _ _). Qed.

Lemma resolve_operand_no_panic o : resolve_operand o <> Panic.
Proof.
  destruct o; simpl.
  - pose proof (resolve_path_no_panic p). by destruct (resolve_path p).
  - pose proof (resolve_value_no_panic v). by destruct (resolve_value v).
Qed.

Lemma resolve_set_rhs_no_panic r : resolve_set_rhs r <> Panic.
Proof.
  induction r as [o|a b|a b|p r IH|a IHa b IHb]; simpl;
    try pose proof (resolve_operand_no_panic o); try pose proof (resolve_operand_no_panic a);
    try pose proof (resolve_operand_no_panic b); try pose proof (resolve_path_no_panic p);
    repeat case_match; done.
Qed.

Lemma substitute_update_no_panic raw : substitute_update raw <> Panic.
Proof.
  unfold substitute_update.
  assert (collect resolve_set_clause (raw_set raw) <> Panic).
  { apply collect_no_panic. intros c _. unfold resolve_set_clause.
    pose proof (resolve_path_no_panic (raw_set_path c)).
    pose proof (resolve_set_rhs_no_panic (raw_set_value c)). repeat case_match; done. }
  assert (collect resolve_path (raw_remove raw) <> Panic).
  { apply collect_no_panic. intros c _. apply resolve_path_no_panic. }
  assert (forall o, resolve_operand_to_value o <> Panic) as Hv.
  { intros []; simpl; [done|]. apply resolve_value_no_panic. }
  assert (collect resolve_add (raw_add raw) <> Panic).
  { apply collect_no_panic. intros c _. unfold resolve_add.
    pose proof (resolve_path_no_panic (raw_add_path c)).
    pose proof (Hv (raw_add_value c)). repeat case_match; done. }
  assert (collect resolve_delete (raw_delete raw) <> Panic).
  { apply collect_no_panic. intros c _. unfold resolve_delete.
    pose proof (resolve_path_no_panic (raw_del_path c)).
    pose proof (Hv (raw_del_value c)). repeat case_match; done. }
  repeat case_match; done.
Qed.

Lemma substitute_condition_no_panic raw : substitute_condition raw <> Panic.
Proof.
  induction raw; simpl;
    repeat match goal with
    | |- context [match resolve_path ?p with _ => _ end] =>
        pose proof (resolve_path_no_panic p); destruct (resolve_path p)
    | |- context [match resolve_operand ?p with _ => _ end] =>
        pose proof (resolve_operand_no_panic p); destruct (resolve_operand p)
    | |- context [match substitute_condition ?p with _ => _ end] =>
        destruct (substitute_condition p)
    end; try done.
  assert (collect resolve_operand items <> Panic).
  { apply collect_no_panic. intros c _. apply resolve_operand_no_panic. }
  by destruct (collect _ _).
Qed.

(** ** Updates *)

Fixpoint rhs_operands (r : RawSetRhs) : list RawOperand :=
  match r with
  | RawSetRhs_Operand o => [o]
  | RawSetRhs_Plus a b | RawSetRhs_Minus a b => [a; b]
  | RawSetRhs_IfNotExists p r => RawOperand_Path p :: rhs_operands r
  | RawSetRhs_ListAppend a b => rhs_operands a ++ rhs_operands b
  end.

(** The value of an ADD or DELETE must be a known value reference. *)
Definition action_resolvable (p : RawPath) (o : RawOperand) : Prop :=
  path_resolvable p /\ match o with
                       | RawOperand_Path _ => False
                       | RawOperand_ValueRef v => value_known v
                       end.

Definition update_resolvable (raw : RawUpdateExpression) : Prop :=
  Forall (fun c => path_resolvable (raw_set_path c)
                   /\ Forall operand_resolvable (rhs_operands (raw_set_value c))) (raw_set raw)
  /\ Forall path_resolvable (raw_remove raw)
  /\ Forall (fun a => action_resolvable (raw_add_path a) (raw_add_value a)) (raw_add raw)
  /\ Forall (fun d => action_resolvable (raw_del_path d) (raw_del_value d)) (raw_delete raw).

Lemma resolve_set_rhs_ok r :
  is_ok (resolve_set_rhs r) = true <-> Forall operand_resolvable (rhs_operands r).
Proof.
  assert (forall p, is_ok (resolve_path p) = true <-> operand_resolvable (RawOperand_Path p))
    as Hp by apply resolve_path_ok.
  induction r as [o|a b|a b|p r IH|a IHa b IHb]; simpl;
    rewrite ?Forall_app, ?Forall_cons, ?Forall_nil;
    rewrite <- ?Hp, <- ?IH, <- ?IHa, <- ?IHb, <- ?resolve_operand_ok;
    repeat match goal with
    | |- context [match ?r with _ => _ end] => destruct r
    end; simpl; clear; intuition congruence.
Qed.

Lemma resolve_operand_to_value_ok o :
  is_ok (resolve_operand_to_value o) = true <->
  match o with RawOperand_Path _ => False | RawOperand_ValueRef v => value_known v end.
Proof. destruct o; simpl; [done|]. apply resolve_value_ok. Qed.

Lemma substitute_update_is_ok raw :
  is_ok (substitute_update raw) = true <-> update_resolvable raw.
Proof.
  unfold substitute_update, update_resolvable, action_resolvable.
  assert (Hs : forall c, is_ok (resolve_set_clause c) = true <->
    path_resolvable (raw_set_path c) /\ Forall operand_resolvable (rhs_operands (raw_set_value c))).
  { intros c. rewrite <- resolve_path_ok, <- resolve_set_rhs_ok. unfold resolve_set_clause.
    destruct (resolve_path _), (resolve_set_rhs _); simpl; clear; intuition congruence. }
  assert (Ha : forall a, is_ok (resolve_add a) = true <->
    action_resolvable (raw_add_path a) (raw_add_value a)).
  { intros a. unfold action_resolvable. rewrite <- resolve_path_ok, <- resolve_operand_to_value_ok.
    unfold resolve_add.
    destruct (resolve_path _), (resolve_operand_to_value _); simpl; clear; intuition congruence. }
  assert (Hd : forall d, is_ok (resolve_delete d) = true <->
    action_resolvable (raw_del_path d) (raw_del_value d)).
  { intros d. unfold action_resolvable. rewrite <- resolve_path_ok, <- resolve_operand_to_value_ok.
    unfold resolve_delete.
    destruct (resolve_path _), (resolve_operand_to_value _); simpl; clear; intuition congruence. }
  unfold action_resolvable in Ha, Hd.
  rewrite <- (Forall_iff _ _ _ Hs), <- (Forall_iff _ _ _ Ha), <- (Forall_iff _ _ _ Hd),
    <- (Forall_iff _ _ _ resolve_path_ok), <- !collect_is_ok.
  destruct (collect resolve_set_clause _), (collect resolve_path _), (collect resolve_add _),
    (collect resolve_delete _); simpl; clear; intuition congruence.
Qed.

(** Substitution succeeds exactly when every bare attribute name of
    the expression is not a reserved word, every [#n] and [:v] it uses
    has an entry (with or without its sigil), and the operands of ADD and
    DELETE are value references; otherwise it returns an error, and it
    never panics. *)
Theorem substitution_succeeds_iff_resolvable (c : RawCondition) (u : RawUpdateExpression) :
  (is_ok (substitute_condition c) = true <-> Forall operand_resolvable (condition_operands c))
  /\ (is_ok (substitute_update u) = true <-> update_resolvable u)
  /\ substitute_condition c <> Panic /\ substitute_update u <> Panic.
Proof.
  split; [apply substitute_condition_is_ok|]. split; [apply substitute_update_is_ok|].
  split; [apply substitute_condition_no_panic|apply substitute_update_no_panic].
Qed.
End substitute.
