(* ===== verification/F64.v ===== *)
(** * [f64] as the evaluators use it

    The update and condition evaluators read a DynamoDB number with
    [str::parse::<f64>], add, subtract and compare, and print the result.
    A float is a [spec_float] of the Standard Library at binary64
    ([prec = 53], [emax = 1024]); the decimal conversions are written out
    here.  The last part shows that on integers below [2^53] in magnitude
    all of it is exact. *)

From S2P Require Import Prelude RustStr.
From Stdlib Require Import SpecFloat DecimalString DecimalN.
Open Scope Z_scope.

Definition prec : Z := 53.
Definition emax : Z := 1024.

Definition f64 : Type := spec_float.

(** [a + b], [a - b], [a.partial_cmp(&b)]. *)
Definition f64_add : f64 -> f64 -> f64 := SFadd prec emax.
Definition f64_sub : f64 -> f64 -> f64 := SFsub prec emax.
Definition partial_cmp : f64 -> f64 -> option comparison := SFcompare.

#[export] Instance spec_float_eq_dec : EqDecision spec_float.
Proof. solve_decision. Defined.

(** ** [str::parse::<f64>] *)

Definition digit_value (c : ascii) : Z := Z.of_nat (code c) - 48.

Fixpoint digits_value (acc : Z) (s : string) : Z :=
  match s with
  | EmptyString => acc
  | String c s => digits_value (10 * acc + digit_value c) s
  end.

(** The binary64 nearest to [m * 10^e], ties to even; [len] is the number
    of decimal digits [m] was read from.  Outside [10^(-400), 10^400] the
    result is the zero or the infinity without computing the power. *)
Definition decimal_to_f64 (neg : bool) (m : Z) (len : Z) (e : Z) : f64 :=
  match m with
  | Zpos p =>
      if e >? 400 then S754_infinity neg
      else if e + len <? -400 then S754_zero neg
      else if 0 <=? e then binary_normalize prec emax (cond_Zopp neg (m * 10 ^ e)) 0 neg
      else let '(q, e', loc) := SFdiv_core_binary prec emax m 0 (10 ^ (- e)) 0 in
           binary_round_aux prec emax neg q e' loc
  | _ => S754_zero neg
  end.

Definition parse_sign (s : string) : bool * string :=
  match s with
  | String c s' =>
      if Ascii.eqb c "-" then (true, s') else if Ascii.eqb c "+" then (false, s') else (false, s)
  | EmptyString => (false, s)
  end.

(** The optional exponent, which must end the input. *)
Definition parse_exponent (s : string) : option Z :=
  match s with
  | EmptyString => Some 0
  | String c s =>
      if Ascii.eqb (to_ascii_lowercase c) "e" then
        let '(neg, s) := parse_sign s in
        match span is_ascii_digit s with
        | (String _ _ as ds, EmptyString) => Some (cond_Zopp neg (digits_value 0 ds))
        | _ => None
        end
      else None
  end.

(** Digits, an optional point, digits, an optional exponent; at least one
    digit around the point. *)
Definition parse_number (neg : bool) (s : string) : option f64 :=
  let '(ip, s1) := span is_ascii_digit s in
  let '(fp, s2) :=
    match strip_prefix "." s1 with
    | Some r => span is_ascii_digit r
    | None => (EmptyString, s1)
    end in
  match ip +:+ fp with
  | EmptyString => None
  | ds =>
      match parse_exponent s2 with
      | Some e =>
          Some (decimal_to_f64 neg (digits_value 0 ds) (Z.of_nat (String.length ds))
                  (e - Z.of_nat (String.length fp)))
      | None => None
      end
  end.

Definition parse_inf_nan (neg : bool) (s : string) : option f64 :=
  let l := str_lower s in
  if String.eqb l "inf" || String.eqb l "infinity" then Some (S754_infinity neg)
  else if String.eqb l "nan" then Some S754_nan
  else None.

Definition parse_f64 (s : string) : option f64 :=
  let '(neg, s) := parse_sign s in
  match s with
  | EmptyString => None
  | _ => match parse_number neg s with
         | Some f => Some f
         | None => parse_inf_nan neg s
         end
  end.

(** ** [format!("{}", _)] *)

Definition i64_to_string (z : Z) : string :=
  (if z <? 0 then "-" else EmptyString) +:+ usize_to_string (Z.abs_N z).

(** [f.fract() == 0.0]: not for the infinities and NaN, whose fraction is
    NaN. *)
Definition fract_is_zero (f : f64) : bool :=
  match f with
  | S754_zero _ => true
  | S754_finite _ m e => (0 <=? e) || (Zpos m mod 2 ^ (- e) =? 0)
  | _ => false
  end.

(** [f as i64] on an integer-valued float. *)
Definition f64_as_i64 (f : f64) : Z :=
  match f with
  | S754_finite s m e =>
      cond_Zopp s (if 0 <=? e then Zpos m * 2 ^ e else Zpos m / 2 ^ (- e))
  | _ => 0
  end.

(** The decimal exponent: [10^k <= m * 2^e < 10^(k+1)], from the binary
    one by an estimate that is too small by at most one. *)
Definition pow_le (k : Z) (m e : Z) : bool :=
  10 ^ Z.max 0 k * 2 ^ Z.max 0 (- e) <=? m * 2 ^ Z.max 0 e * 10 ^ Z.max 0 (- k).

Definition decimal_exponent (m e : Z) : Z :=
  let k := ((Z.log2 m + e) * 30103) / 100000 - 1 in
  if pow_le (k + 2) m e then k + 2 else if pow_le (k + 1) m e then k + 1 else k.

(** [m * 2^e / 10^k], as a numerator and a denominator. *)
Definition scaled (m e k : Z) : Z * Z :=
  (m * 2 ^ Z.max 0 e * 10 ^ Z.max 0 (- k), 2 ^ Z.max 0 (- e) * 10 ^ Z.max 0 k).

(** The shortest decimal that reads back as the float, the closest of
    that length, upwards on a tie: [d * 10^k]. *)
Fixpoint shortest_from (fuel : nat) (n : Z) (kd : Z) (m : positive) (e : Z) : Z * Z :=
  let k := kd - n + 1 in
  let '(num, den) := scaled (Zpos m) e k in
  let d := num / den in
  let r := num mod den in
  let reads d := bool_decide (decimal_to_f64 false d 20 k = S754_finite false m e) in
  match fuel with
  | O => (d, k)
  | S fuel =>
      match reads d, reads (d + 1) with
      | true, true => if den <=? 2 * r then (d + 1, k) else (d, k)
      | true, false => (d, k)
      | false, true => (d + 1, k)
      | false, false => shortest_from fuel (n + 1) kd m e
      end
  end.

Fixpoint strip_zeros (fuel : nat) (d k : Z) : Z * Z :=
  match fuel with
  | O => (d, k)
  | S fuel => if (d mod 10 =? 0) && (0 <? d) then strip_zeros fuel (d / 10) (k + 1) else (d, k)
  end.

Fixpoint zeros (n : nat) : string :=
  match n with O => EmptyString | S n => String "0" (zeros n) end.

(** Positional notation of [d * 10^k], never scientific. *)
Definition positional (d k : Z) : string :=
  let ds := usize_to_string (Z.to_N d) in
  let n := Z.of_nat (String.length ds) in
  if 0 <=? k then ds +:+ zeros (Z.to_nat k)
  else if 0 <? n + k then
    String.substring 0 (Z.to_nat (n + k)) ds +:+ "."
      +:+ String.substring (Z.to_nat (n + k)) (String.length ds) ds
  else "0." +:+ zeros (Z.to_nat (- (n + k))) +:+ ds.

Definition f64_to_string (f : f64) : string :=
  match f with
  | S754_nan => "NaN"
  | S754_infinity s => (if s then "-" else EmptyString) +:+ "inf"
  | S754_zero s => (if s then "-" else EmptyString) +:+ "0"
  | S754_finite s m e =>
      let '(d, k) := shortest_from 16 1 (decimal_exponent (Zpos m) e) m e in
      let '(d, k) := strip_zeros 20 d k in
      (if s then "-" else EmptyString) +:+ positional d k
  end.

(** [1e16]. *)
Definition ten16 : f64 := Eval vm_compute in decimal_to_f64 false 1 1 16.
Definition abs_lt_ten16 (f : f64) : bool :=
  match partial_cmp (SFabs f) ten16 with Some Lt => true | _ => false end.

(** ** Exactness on integers below [2^53] *)

Lemma digits2_log2 p : Zpos (digits2_pos p) = Z.log2 (Zpos p) + 1.
Proof.
  induction p as [p IH|p IH|]; simpl digits2_pos; [| |done].
  - rewrite Pos2Z.inj_succ, IH, Pos2Z.inj_xI, Z.log2_succ_double by lia. lia.
  - rewrite Pos2Z.inj_succ, IH, Pos2Z.inj_xO, Z.log2_double by lia. lia.
Qed.

Lemma iter_xO p d : Zpos (Pos.iter xO p d) = Zpos p * 2 ^ Zpos d.
Proof.
  revert p. induction d as [|d IH] using Pos.peano_ind; intros p.
  - simpl. lia.
  - rewrite Pos.iter_succ, Pos2Z.inj_xO, IH, Pos2Z.inj_succ, Z.pow_succ_r by lia. lia.
Qed.

Lemma shl_align_spec p ex ex' :
  ex' <= ex -> Zpos (shl_align p ex ex').1 = Zpos p * 2 ^ (ex - ex')
               /\ (shl_align p ex ex').2 = ex'.
Proof.
  intros H. unfold shl_align. destruct (ex' - ex) as [|d|d] eqn:E; simpl; [|lia|].
  - replace (ex - ex') with 0 by lia. split; lia.
  - rewrite iter_xO. replace (ex - ex') with (Zpos d) by lia. done.
Qed.

Lemma shl_align_id p ex ex' : ex <= ex' -> shl_align p ex ex' = (p, ex).
Proof. intros H. unfold shl_align. destruct (ex' - ex) eqn:E; [done|done|lia]. Qed.

Definition exact_record (m : Z) : shr_record := Build_shr_record m false false.

Lemma shr_1_double m : 0 < m -> shr_1 (exact_record (2 * m)) = exact_record m.
Proof. destruct m; [lia | done | lia]. Qed.

Lemma iter_shr_exact n m :
  0 < m -> iter_pos shr_1 n (exact_record (m * 2 ^ Zpos n)) = exact_record m.
Proof.
  revert m; induction n as [n IH|n IH|]; intros m Hm; cbn [iter_pos].
  - replace (m * 2 ^ Zpos (xI n)) with (2 * (m * 2 ^ Zpos n * 2 ^ Zpos n)).
    + rewrite shr_1_double, IH, IH by (auto; repeat apply Z.mul_pos_pos; auto with zarith).
      done.
    + replace (Zpos (xI n)) with (1 + Zpos n + Zpos n) by lia.
      rewrite !Z.pow_add_r by lia. lia.
  - replace (m * 2 ^ Zpos (xO n)) with (m * 2 ^ Zpos n * 2 ^ Zpos n).
    + rewrite IH, IH by (auto; repeat apply Z.mul_pos_pos; auto with zarith). done.
    + replace (Zpos (xO n)) with (Zpos n + Zpos n) by lia.
      rewrite Z.pow_add_r by lia. lia.
  - replace (m * 2 ^ 1) with (2 * m) by lia. by apply shr_1_double.
Qed.

(** The float of a positive integer of at most 53 bits: its mantissa
    filled up to 53 bits. *)
Definition canon (neg : bool) (p : positive) : f64 :=
  let d := Zpos (digits2_pos p) in
  S754_finite neg (Z.to_pos (Zpos p * 2 ^ (53 - d))) (d - 53).

Definition f64_of_Z (z : Z) : f64 :=
  match z with
  | Z0 => S754_zero false
  | Zpos p => canon false p
  | Zneg p => canon true p
  end.

Lemma pos_digits_bound p : Zpos p < 2 ^ 53 <-> Zpos (digits2_pos p) <= 53.
Proof. rewrite digits2_log2, (Z.log2_lt_pow2 (Zpos p)) by lia. lia. Qed.

Lemma fexp_bits d : 0 < d -> fexp prec emax d = d - 53.
Proof. unfold fexp, emin, prec, emax. lia. Qed.

Lemma digits_shift m p j :
  0 <= j -> Zpos m = Zpos p * 2 ^ j ->
  Zpos (digits2_pos m) = Zpos (digits2_pos p) + j.
Proof. intros Hj Hm. rewrite !digits2_log2, Hm, Z.log2_mul_pow2 by lia. lia. Qed.

(** Rounding an integer of at most 53 bits scaled by a power of two. *)
Lemma binary_round_aux_exact s m p e :
  Zpos p < 2 ^ 53 -> e <= Zpos (digits2_pos p) - 53 ->
  Zpos m = Zpos p * 2 ^ (- e) ->
  binary_round_aux prec emax s (Zpos m) e loc_Exact = canon s p.
Proof.
  intros Hp He Hm. apply pos_digits_bound in Hp. set (d := Zpos (digits2_pos p)) in *.
  assert (0 < d) by lia.
  assert (Zpos (digits2_pos m) = d - e) as Hd.
  { rewrite (digits_shift m p (- e)) by (done || lia). unfold d. lia. }
  set (c := Z.to_pos (Zpos p * 2 ^ (53 - d))).
  assert (Zpos c = Zpos p * 2 ^ (53 - d)) as Hc.
  { unfold c. apply Z2Pos.id, Z.mul_pos_pos; [lia|]. apply Z.pow_pos_nonneg; lia. }
  assert (Zpos (digits2_pos c) = 53) as Hdc.
  { rewrite (digits_shift c p (53 - d)) by (done || lia). unfold d. lia. }
  assert (shr_fexp prec emax (Zpos m) e loc_Exact = (exact_record (Zpos c), d - 53)) as Hs.
  { unfold shr_fexp, shr_record_of_loc, Zdigits2. rewrite Hd, fexp_bits by lia.
    fold (exact_record (Zpos m)). unfold shr.
    destruct (d - e + e - 53 - e) as [|n|n] eqn:En; [|f_equal; [|lia]|lia].
    - do 2 f_equal; [|lia]. rewrite Hm, Hc. do 2 f_equal. lia.
    - replace (Zpos m) with (Zpos c * 2 ^ Zpos n); [by apply iter_shr_exact|].
      rewrite Hm, Hc, <- Z.mul_assoc, <- Z.pow_add_r by lia. do 2 f_equal. lia. }
  unfold binary_round_aux. rewrite Hs. simpl.
  unfold shr_fexp, Zdigits2. rewrite Hdc, fexp_bits by lia.
  replace (53 + (d - 53) - 53 - (d - 53)) with 0 by lia. simpl.
  unfold emax, prec. rewrite (proj2 (Z.leb_le _ _)) by lia. done.
Qed.

Lemma binary_round_exact s m p j :
  Zpos p < 2 ^ 53 -> 0 <= j -> Zpos m = Zpos p * 2 ^ j ->
  binary_round prec emax s m (- j) = canon s p.
Proof.
  intros Hp Hj Hm. unfold binary_round.
  rewrite (digits_shift m p j), fexp_bits by (done || lia).
  set (ex' := Zpos (digits2_pos p) + j + - j - 53).
  destruct (Z.le_gt_cases ex' (- j)) as [Hle|Hgt].
  - destruct (shl_align_spec m (- j) ex' Hle) as [Hz Hz2].
    destruct (shl_align m (- j) ex') as [mz ez]; simpl in Hz, Hz2. subst ez.
    apply binary_round_aux_exact; [done | unfold ex'; lia |].
    rewrite Hz, Hm, <- Z.mul_assoc, <- Z.pow_add_r by lia. do 2 f_equal. lia.
  - rewrite shl_align_id by lia.
    apply binary_round_aux_exact; [done | unfold ex' in Hgt; lia |].
    rewrite Hm. do 2 f_equal. lia.
Qed.

Lemma binary_normalize_exact z j :
  Z.abs z < 2 ^ 53 -> 0 <= j ->
  binary_normalize prec emax (z * 2 ^ j) (- j) false = f64_of_Z z.
Proof.
  intros Hz Hj. assert (0 < 2 ^ j) by (apply Z.pow_pos_nonneg; lia).
  destruct z as [|p|p]; [done| |];
    (destruct (_ * 2 ^ j) as [|m|m] eqn:E; [nia | |]); try nia; simpl;
    apply binary_round_exact; lia.
Qed.

(** A sign and a magnitude: the integer behind [canon]. *)
Lemma canon_aligned s p e :
  Zpos p < 2 ^ 53 -> e <= Zpos (digits2_pos p) - 53 ->
  cond_Zopp s (Zpos (shl_align (Z.to_pos (Zpos p * 2 ^ (53 - Zpos (digits2_pos p))))
                       (Zpos (digits2_pos p) - 53) e).1)
  = cond_Zopp s (Zpos p) * 2 ^ (- e).
Proof.
  intros Hp He. apply pos_digits_bound in Hp.
  destruct (shl_align_spec (Z.to_pos (Zpos p * 2 ^ (53 - Zpos (digits2_pos p))))
              (Zpos (digits2_pos p) - 53) e He) as [-> _].
  rewrite Z2Pos.id by (apply Z.mul_pos_pos; [lia | apply Z.pow_pos_nonneg; lia]).
  rewrite <- Z.mul_assoc, <- Z.pow_add_r by lia.
  replace (53 - _ + _) with (- e) by lia. destruct s; simpl cond_Zopp; lia.
Qed.

Lemma canon_add s p t q :
  let z := cond_Zopp s (Zpos p) + cond_Zopp t (Zpos q) in
  Zpos p < 2 ^ 53 -> Zpos q < 2 ^ 53 -> Z.abs z < 2 ^ 53 ->
  f64_add (canon s p) (canon t q) = f64_of_Z z.
Proof.
  intros z Hp Hq Hz. unfold f64_add, canon, SFadd.
  pose proof (proj1 (pos_digits_bound p) Hp). pose proof (proj1 (pos_digits_bound q) Hq).
  set (ez := Z.min _ _). rewrite !canon_aligned by (done || (unfold ez; lia)).
  rewrite <- Z.mul_add_distr_r. fold z. replace ez with (- - ez) at 2 by lia.
  apply binary_normalize_exact; [done | unfold ez; lia].
Qed.

Lemma canon_sub s p t q :
  let z := cond_Zopp s (Zpos p) - cond_Zopp t (Zpos q) in
  Zpos p < 2 ^ 53 -> Zpos q < 2 ^ 53 -> Z.abs z < 2 ^ 53 ->
  f64_sub (canon s p) (canon t q) = f64_of_Z z.
Proof.
  intros z Hp Hq Hz. unfold f64_sub, canon, SFsub.
  pose proof (proj1 (pos_digits_bound p) Hp). pose proof (proj1 (pos_digits_bound q) Hq).
  set (ez := Z.min _ _). rewrite !canon_aligned by (done || (unfold ez; lia)).
  rewrite <- Z.mul_sub_distr_r. fold z. replace ez with (- - ez) at 2 by lia.
  apply binary_normalize_exact; [done | unfold ez; lia].
Qed.

Lemma f64_add_exact a b :
  Z.abs a < 2 ^ 53 -> Z.abs b < 2 ^ 53 -> Z.abs (a + b) < 2 ^ 53 ->
  f64_add (f64_of_Z a) (f64_of_Z b) = f64_of_Z (a + b).
Proof.
  intros Ha Hb Hab.
  destruct a as [|p|p], b as [|q|q]; try done;
    [apply (canon_add false p false q) | apply (canon_add false p true q)
    |apply (canon_add true p false q) | apply (canon_add true p true q)]; done.
Qed.

Lemma f64_sub_exact a b :
  Z.abs a < 2 ^ 53 -> Z.abs b < 2 ^ 53 -> Z.abs (a - b) < 2 ^ 53 ->
  f64_sub (f64_of_Z a) (f64_of_Z b) = f64_of_Z (a - b).
Proof.
  intros Ha Hb Hab.
  destruct a as [|p|p], b as [|q|q]; try done;
    [apply (canon_sub false p false q) | apply (canon_sub false p true q)
    |apply (canon_sub true p false q) | apply (canon_sub true p true q)]; done.
Qed.

(** Magnitudes compare by exponent first. *)
Lemma canon_compare p q :
  Zpos p < 2 ^ 53 -> Zpos q < 2 ^ 53 ->
  match (Zpos (digits2_pos p) - 53) ?= (Zpos (digits2_pos q) - 53) with
  | Lt => Lt
  | Gt => Gt
  | Eq => Pos.compare_cont Eq (Z.to_pos (Zpos p * 2 ^ (53 - Zpos (digits2_pos p))))
            (Z.to_pos (Zpos q * 2 ^ (53 - Zpos (digits2_pos q))))
  end = (Zpos p ?= Zpos q).
Proof.
  intros Hp Hq. apply pos_digits_bound in Hp, Hq. symmetry.
  pose proof (digits2_log2 p) as Lp. pose proof (digits2_log2 q) as Lq.
  destruct (Z.compare_spec (Zpos (digits2_pos p) - 53) (Zpos (digits2_pos q) - 53)) as [E|E|E].
  - replace (Zpos (digits2_pos q)) with (Zpos (digits2_pos p)) by lia.
    set (w := 2 ^ (53 - Zpos (digits2_pos p))).
    assert (0 < w) by (apply Z.pow_pos_nonneg; lia).
    change (Pos.compare_cont Eq ?a ?b) with (Zpos a ?= Zpos b).
    rewrite !Z2Pos.id by lia.
    destruct w as [|w|w]; [lia | | lia]. symmetry. apply Pos.mul_compare_mono_r.
  - apply Z.compare_lt_iff, Z.log2_lt_cancel. lia.
  - apply Z.compare_gt_iff, Z.log2_lt_cancel. lia.
Qed.

Lemma partial_cmp_exact a b :
  Z.abs a < 2 ^ 53 -> Z.abs b < 2 ^ 53 ->
  partial_cmp (f64_of_Z a) (f64_of_Z b) = Some (a ?= b).
Proof.
  intros Ha Hb. unfold partial_cmp, f64_of_Z, canon.
  destruct a as [|p|p], b as [|q|q]; try done; simpl SFcompare; f_equal.
  - apply canon_compare; done.
  - transitivity (CompOpp (Zpos p ?= Zpos q)); [|done].
    rewrite <- (canon_compare p q) by done. by destruct (_ ?= _).
Qed.

(** Printing and reading an integer. *)
Lemma digits_value_pos d acc :
  digits_value (Zpos acc) (NilEmpty.string_of_uint d) = Zpos (Pos.of_uint_acc d acc).
Proof.
  revert acc. induction d; intros acc; cbn [digits_value NilEmpty.string_of_uint];
    [done|..];
    cbn [Pos.of_uint_acc]; rewrite <- IHd; f_equal;
    match goal with
    | |- context [digit_value ?c] =>
        let v := eval vm_compute in (digit_value c) in change (digit_value c) with v
    end; lia.
Qed.

Lemma digits_value_spec d :
  digits_value 0 (NilEmpty.string_of_uint d) = Z.of_N (Pos.of_uint d).
Proof. induction d; simpl; [done|done|..]; apply digits_value_pos. Qed.

Lemma digits_value_usize n : digits_value 0 (usize_to_string n) = Z.of_N n.
Proof.
  unfold usize_to_string.
  assert (NilZero.string_of_uint (N.to_uint n) = NilEmpty.string_of_uint (N.to_uint n)) as ->.
  { pose proof (to_uint_nonnil n). by destruct (N.to_uint n). }
  rewrite digits_value_spec. f_equal. apply DecimalN.Unsigned.of_to.
Qed.

Lemma parse_sign_digit c s : is_ascii_digit c = true -> parse_sign (String c s) = (false, String c s).
Proof.
  intros H. simpl. destruct (Ascii.eqb_spec c "-"%char) as [->|_]; [done|].
  by destruct (Ascii.eqb_spec c "+"%char) as [->|_].
Qed.

Lemma binary_normalize_int neg p :
  Zpos p < 2 ^ 53 ->
  binary_normalize prec emax (cond_Zopp neg (Zpos p * 10 ^ 0)) 0 neg
  = f64_of_Z (cond_Zopp neg (Zpos p)).
Proof.
  intros Hp.
  pose proof (binary_normalize_exact (cond_Zopp neg (Zpos p)) 0) as H.
  rewrite !Z.mul_1_r in *. rewrite <- H by (destruct neg; simpl; lia). by destruct neg.
Qed.

Lemma parse_number_digits neg n :
  (n < 2 ^ 53)%N ->
  parse_number neg (usize_to_string n)
  = Some (match n with N0 => S754_zero neg | Npos p => canon neg p end).
Proof.
  intros Hn. destruct (usize_to_string_digits n) as [Hd Hne].
  unfold parse_number.
  rewrite <- (app_nil_r_str (usize_to_string n)), span_forall by done.
  cbn [strip_prefix parse_exponent String.length].
  rewrite app_nil_r_str. destruct (usize_to_string n) as [|c s] eqn:E; [done|].
  rewrite <- E. f_equal. rewrite digits_value_usize. unfold decimal_to_f64.
  destruct n as [|p]; [done|]. simpl Z.of_N. rewrite (proj2 (Z.ltb_ge _ _)) by lia.
  simpl. rewrite Z.mul_1_r.
  pose proof (binary_normalize_int neg p) as H. simpl in H. rewrite Z.mul_1_r in H.
  rewrite H by lia. by destruct neg.
Qed.

Lemma parse_i64_exact z :
  Z.abs z < 2 ^ 53 -> parse_f64 (i64_to_string z) = Some (f64_of_Z z).
Proof.
  intros Hz. unfold parse_f64, i64_to_string.
  destruct (usize_to_string_digits (Z.abs_N z)) as [Hd Hne].
  pose proof (parse_number_digits (z <? 0) (Z.abs_N z)) as Hp.
  destruct (usize_to_string (Z.abs_N z)) as [|c s] eqn:E; [done|].
  assert (parse_sign ((if z <? 0 then "-" else EmptyString) +:+ String c s)
          = (z <? 0, String c s)) as ->.
  { destruct (z <? 0); [done|]. apply parse_sign_digit.
    simpl in Hd. by destruct (is_ascii_digit c). }
  rewrite Hp by lia. by destruct z.
Qed.

Lemma integer_display z :
  Z.abs z < 2 ^ 53 ->
  fract_is_zero (f64_of_Z z) = true /\ abs_lt_ten16 (f64_of_Z z) = true
  /\ f64_as_i64 (f64_of_Z z) = z.
Proof.
  intros Hz.
  assert (forall neg p, Zpos p < 2 ^ 53 ->
    fract_is_zero (canon neg p) = true /\ abs_lt_ten16 (canon neg p) = true
    /\ f64_as_i64 (canon neg p) = cond_Zopp neg (Zpos p)) as Hcanon.
  { intros neg p Hp. apply pos_digits_bound in Hp. unfold canon.
    set (d := Zpos (digits2_pos p)) in *. simpl.
    assert (0 < 2 ^ (53 - d)) by (apply Z.pow_pos_nonneg; lia).
    rewrite Z2Pos.id by lia. replace (- (d - 53)) with (53 - d) by lia. split_and!.
    - rewrite Z_mod_mult. apply orb_true_r.
    - unfold abs_lt_ten16, partial_cmp, ten16. cbn [SFabs SFcompare]. rewrite (proj2 (Z.compare_lt_iff (d - 53) 1)) by lia. done.
    - destruct (Z.leb_spec 0 (d - 53)) as [Hle|Hlt].
      + replace (d - 53) with 0 by lia. replace (53 - d) with 0 by lia. f_equal. lia.
      + by rewrite Z_div_mult by lia. }
  destruct z as [|p|p]; [done| |]; apply Hcanon; lia.
Qed.

Close Scope Z_scope.
