(* ===== verification/EvalCondition.v ===== *)
(** * The condition evaluator (rekt-translator, [eval/condition.rs])

    [evaluate_condition] runs a resolved condition over a stored row in
    DDB-JSON.  [sat] is the same judgement on typed attribute values; the
    refinement [evaluate_condition_sat] says that on the rows the backend
    stores (serialised items) the evaluator decides it. *)

From S2P Require Import Prelude RustStr BTree Json Attr Base64Std Ast F64.

Section evaluate.
Context `{Base64}.

(** [path.top_name().and_then(|n| existing.and_then(|v| v.get(n)))]. *)
Definition path_value (existing : option Value) (p : Path) : option Value :=
  n ← top_name p; v ← existing; value_get v n.

Definition condition_operand_value (op : Operand) (existing : option Value) : option Value :=
  match op with
  | Operand_Path p => v ← existing; n ← top_name p; value_get v n
  | Operand_Value v => Some (to_value v)
  end.

Definition apply_ord (op : ComparisonOp) (ord : option comparison) : bool :=
  match op, ord with
  | Lt_, Some Lt => true
  | Le_, Some (Lt | Eq) => true
  | Gt_, Some Gt => true
  | Ge_, Some (Gt | Eq) => true
  | _, _ => false
  end.

Definition compare_values (op : ComparisonOp) (l r : Value) : bool :=
  match op with
  | Eq_ => eqb l r
  | Ne_ => negb (eqb l r)
  | _ =>
      match single_tagged l, single_tagged r with
      | Some (l_tag, l_val), Some (r_tag, r_val) =>
          if negb (String.eqb l_tag r_tag) then false
          else if String.eqb l_tag "N" then
            match as_str l_val ≫= parse_f64, as_str r_val ≫= parse_f64 with
            | Some a, Some b => apply_ord op (partial_cmp a b)
            | _, _ => false
            end
          else if String.eqb l_tag "S" then
            match as_str l_val, as_str r_val with
            | Some a, Some b => apply_ord op (Some (String.compare a b))
            | _, _ => false
            end
          else false
      | _, _ => false
      end
  end.

#[local] Arguments compare_values : simpl never.

Definition eval_begins_with (existing : option Value) (p : Path) (o : Operand) : bool :=
  match path_value existing p with
  | None => false
  | Some attr_val =>
      match condition_operand_value o existing with
      | None => false
      | Some needle =>
          match single_tagged attr_val, single_tagged needle with
          | Some (ta, a), Some (tb, b) =>
              if String.eqb ta "S" && String.eqb tb "S" then
                match as_str a, as_str b with
                | Some haystack, Some prefix => starts_with haystack prefix
                | _, _ => false
                end
              else false
          | _, _ => false
          end
      end
  end.

Definition contains_in_set (arr needle : Value) (scalar_tag : string) : bool :=
  match as_array arr with
  | None => false
  | Some items =>
      match single_tagged needle with
      | Some (tag, needle_scalar) =>
          if String.eqb tag scalar_tag then existsb (fun item => eqb item needle_scalar) items
          else false
      | None => false
      end
  end.

Definition eval_contains (existing : option Value) (p : Path) (o : Operand) : bool :=
  match path_value existing p with
  | None => false
  | Some attr_val =>
      match condition_operand_value o existing with
      | None => false
      | Some needle =>
          match single_tagged attr_val with
          | None => false
          | Some (tag, inner) =>
              if String.eqb tag "S" then
                match as_str inner, single_tagged needle with
                | Some haystack, Some (tn, needle_v) =>
                    if String.eqb tn "S" then
                      match as_str needle_v with
                      | Some n => str_contains haystack n
                      | None => false
                      end
                    else false
                | _, _ => false
                end
              else if String.eqb tag "SS" then contains_in_set inner needle "S"
              else if String.eqb tag "NS" then contains_in_set inner needle "N"
              else if String.eqb tag "BS" then contains_in_set inner needle "B"
              else if String.eqb tag "L" then
                match as_array inner with
                | Some items => existsb (fun i => eqb i needle) items
                | None => false
                end
              else false
          end
      end
  end.

Definition eval_between (existing : option Value) (v lo hi : Operand) : bool :=
  match condition_operand_value v existing, condition_operand_value lo existing,
        condition_operand_value hi existing with
  | Some vv, Some lov, Some hiv => compare_values Ge_ vv lov && compare_values Le_ vv hiv
  | _, _, _ => false
  end.

Definition eval_in (existing : option Value) (v : Operand) (items : list Operand) : bool :=
  match condition_operand_value v existing with
  | None => false
  | Some vv =>
      existsb (fun op => match condition_operand_value op existing with
                         | Some iv => eqb iv vv
                         | None => false
                         end) items
  end.

Definition eval_attribute_type (existing : option Value) (p : Path) (o : Operand) : bool :=
  match path_value existing p with
  | None => false
  | Some attr_val =>
      match condition_operand_value o existing with
      | None => false
      | Some v =>
          match single_tagged v with
          | Some (tv, s) =>
              if String.eqb tv "S" then
                match as_str s with
                | None => false
                | Some type_str =>
                    match single_tagged attr_val with
                    | Some (tag, _) => String.eqb tag type_str
                    | None => false
                    end
                end
              else false
          | None => false
          end
      end
  end.

Fixpoint evaluate_condition (existing : option Value) (cond : Condition) : bool :=
  match cond with
  | Condition_AttributeExists p =>
      match top_name p with
      | Some n => bool_decide (is_Some (v ← existing; value_get v n))
      | None => false
      end
  | Condition_AttributeNotExists p =>
      match top_name p with
      | Some n => bool_decide ((v ← existing; value_get v n) = None)
      | None => false
      end
  | Condition_Compare op lhs rhs =>
      match condition_operand_value lhs existing, condition_operand_value rhs existing with
      | Some lv, Some rv => compare_values op lv rv
      | _, _ => false
      end
  | Condition_BeginsWith p o => eval_begins_with existing p o
  | Condition_Contains p o => eval_contains existing p o
  | Condition_Between v lo hi => eval_between existing v lo hi
  | Condition_In v items => eval_in existing v items
  | Condition_AttributeType p o => eval_attribute_type existing p o
  | Condition_And a b => evaluate_condition existing a && evaluate_condition existing b
  | Condition_Or a b => evaluate_condition existing a || evaluate_condition existing b
  | Condition_Not inner => negb (evaluate_condition existing inner)
  end.

(** ** The typed specification *)

(** The value an operand denotes on an item; [None] for a missing
    attribute. *)
Definition attr_of (existing : option Item) (p : Path) : option AttributeValue :=
  it ← existing; n ← top_name p; BTreeMap.get n it.

Definition operand_av (existing : option Item) (op : Operand) : option AttributeValue :=
  match op with
  | Operand_Path p => attr_of existing p
  | Operand_Value v => Some v
  end.

(** The order of two values: numbers by their [f64], strings by bytes;
    nothing else is ordered. *)
Definition av_compare (a b : AttributeValue) : option comparison :=
  match a, b with
  | N_ x, N_ y => p ← parse_f64 x; q ← parse_f64 y; partial_cmp p q
  | S_ x, S_ y => Some (String.compare x y)
  | _, _ => None
  end.

(** What an operator asks of the order of its operands. *)
Definition ord_rel (op : ComparisonOp) (c : option comparison) : Prop :=
  match op with
  | Lt_ => c = Some Lt
  | Le_ => c = Some Lt \/ c = Some Eq
  | Gt_ => c = Some Gt
  | Ge_ => c = Some Gt \/ c = Some Eq
  | Eq_ | Ne_ => False
  end.

Definition av_rel (op : ComparisonOp) (a b : AttributeValue) : Prop :=
  match op with
  | Eq_ => a = b
  | Ne_ => a <> b
  | _ => ord_rel op (av_compare a b)
  end.

(** [contains(a, b)] by the type of [a]. *)
Definition av_contains (a b : AttributeValue) : Prop :=
  match a, b with
  | S_ s, S_ t => exists l r, s = l +:+ t +:+ r
  | Ss_ l, S_ x => x ∈ l
  | Ns_ l, N_ x => x ∈ l
  | Bs_ l, B_ x => x ∈ l
  | L_ l, v => v ∈ l
  | _, _ => False
  end.

Definition av_begins_with (a b : AttributeValue) : Prop :=
  match a, b with
  | S_ s, S_ p => exists r, s = p +:+ r
  | _, _ => False
  end.

(** [x] is the value the operand denotes. *)
Definition both (existing : option Item) (o1 o2 : Operand)
  (R : AttributeValue -> AttributeValue -> Prop) : Prop :=
  exists a b, operand_av existing o1 = Some a /\ operand_av existing o2 = Some b /\ R a b.

Fixpoint sat (existing : option Item) (cond : Condition) : Prop :=
  match cond with
  | Condition_AttributeExists p => is_Some (attr_of existing p)
  | Condition_AttributeNotExists p => is_Some (top_name p) /\ attr_of existing p = None
  | Condition_Compare op l r => both existing l r (av_rel op)
  | Condition_BeginsWith p o => both existing (Operand_Path p) o av_begins_with
  | Condition_Contains p o => both existing (Operand_Path p) o av_contains
  | Condition_Between v lo hi =>
      both existing v lo (av_rel Ge_) /\ both existing v hi (av_rel Le_)
  | Condition_In v items => exists o, o ∈ items /\ both existing v o eq
  | Condition_AttributeType p o =>
      both existing (Operand_Path p) o (fun a t => t = S_ (type_name a))
  | Condition_And a b => sat existing a /\ sat existing b
  | Condition_Or a b => sat existing a \/ sat existing b
  | Condition_Not c => ~ sat existing c
  end.

(** ** Refinement *)

Lemma apply_ord_spec op c : apply_ord op c = true <-> ord_rel op c.
Proof. destruct op, c as [[]|]; simpl; naive_solver. Qed.

Lemma path_value_row existing p :
  path_value (row_value existing) p = to_value <$> attr_of existing p.
Proof.
  unfold path_value, attr_of, row_value. destruct existing as [it|]; simpl.
  - destruct (top_name p) as [n|]; simpl; [apply get_item_to_value | done].
  - by destruct (top_name p).
Qed.

Lemma operand_value_row existing o :
  condition_operand_value o (row_value existing) = to_value <$> operand_av existing o.
Proof.
  destruct o as [p|v]; simpl; [|done]. rewrite <- path_value_row.
  unfold path_value, row_value. destruct existing, (top_name p); done.
Qed.

Lemma eqb_to_value a b : eqb (to_value a) (to_value b) = true <-> a = b.
Proof. rewrite eqb_true. split; [apply to_value_inj | by intros ->]. Qed.

Lemma compare_values_rel op a b :
  compare_values op (to_value a) (to_value b) = true <-> av_rel op a b.
Proof.
  unfold compare_values.
  destruct op; cbn [av_rel];
    [apply eqb_to_value | rewrite negb_true_iff, <- not_true_iff_false, eqb_to_value; done | ..];
    rewrite <- apply_ord_spec; destruct a, b; simpl; try done;
    repeat match goal with |- context [parse_f64 ?s] => destruct (parse_f64 s) end; done.
Qed.

(** An evaluator that looks two operands up, given the typed relation it
    decides. *)
Lemma both_spec existing o1 o2 (f : Value -> Value -> bool) R :
  (forall a b, f (to_value a) (to_value b) = true <-> R a b) ->
  match condition_operand_value o1 (row_value existing) with
  | None => false
  | Some v => match condition_operand_value o2 (row_value existing) with
              | None => false
              | Some w => f v w
              end
  end = true <-> both existing o1 o2 R.
Proof.
  intros Hf. rewrite !operand_value_row. unfold both.
  destruct (operand_av existing o1) as [a|]; simpl; [|naive_solver].
  destruct (operand_av existing o2) as [b|]; simpl; [|naive_solver].
  rewrite Hf. naive_solver.
Qed.

Lemma existsb_map_eqb {A} (g : A -> Value) `{!Inj (=) (=) g} l x :
  existsb (fun i => eqb i (g x)) (map g l) = true <-> x ∈ l.
Proof.
  rewrite existsb_exists. split.
  - intros (v & Hin & He). apply eqb_true in He as ->. apply in_map_iff in Hin as (y & Hy & Hin).
    apply (inj g) in Hy as ->. by apply list_elem_of_In.
  - intros Hin. exists (g x). split; [by apply in_map, list_elem_of_In | by apply eqb_true].
Qed.

Lemma eval_begins_with_sat existing p o :
  eval_begins_with (row_value existing) p o = true
  <-> both existing (Operand_Path p) o av_begins_with.
Proof.
  rewrite <- (both_spec existing (Operand_Path p) o
    (fun attr_val needle =>
       match single_tagged attr_val, single_tagged needle with
       | Some (ta, a), Some (tb, b) =>
           if String.eqb ta "S" && String.eqb tb "S" then
             match as_str a, as_str b with
             | Some haystack, Some prefix => starts_with haystack prefix
             | _, _ => false
             end
           else false
       | _, _ => false
       end)).
  - unfold eval_begins_with. rewrite path_value_row, (operand_value_row _ (Operand_Path p)). done.
  - intros a b. destruct a, b; simpl; try done. apply starts_with_spec.
Qed.

Lemma eval_contains_sat existing p o :
  eval_contains (row_value existing) p o = true
  <-> both existing (Operand_Path p) o av_contains.
Proof.
  unfold eval_contains. rewrite path_value_row.
  change (attr_of existing p) with (operand_av existing (Operand_Path p)).
  rewrite <- operand_value_row. apply both_spec.
  intros a b. destruct a; simpl; try (by destruct b).
  - destruct b; simpl; try done. apply str_contains_spec.
  - apply (existsb_map_eqb to_value).
  - destruct b; simpl; try done. apply (existsb_map_eqb VString).
  - destruct b; simpl; try done. apply (existsb_map_eqb VString).
  - destruct b; simpl; try done. apply (existsb_map_eqb (fun b => VString (b64_encode b))).
Qed.

Lemma eval_attribute_type_sat existing p o :
  eval_attribute_type (row_value existing) p o = true
  <-> both existing (Operand_Path p) o (fun a t => t = S_ (type_name a)).
Proof.
  unfold eval_attribute_type. rewrite path_value_row.
  change (attr_of existing p) with (operand_av existing (Operand_Path p)).
  rewrite <- operand_value_row. apply both_spec.
  intros a b. destruct b; simpl; try naive_solver.
  destruct (to_value_tag a) as [i ->]. rewrite single_tagged_tagged, String.eqb_eq. naive_solver.
Qed.

Lemma eval_between_sat existing v lo hi :
  eval_between (row_value existing) v lo hi = true
  <-> both existing v lo (av_rel Ge_) /\ both existing v hi (av_rel Le_).
Proof.
  unfold eval_between, both. rewrite !operand_value_row.
  destruct (operand_av existing v) as [a|]; simpl; [|naive_solver].
  destruct (operand_av existing lo) as [b|]; simpl; [|naive_solver].
  destruct (operand_av existing hi) as [c|]; simpl; [|naive_solver].
  rewrite andb_true_iff, !compare_values_rel. naive_solver.
Qed.

Lemma eval_in_sat existing v items :
  eval_in (row_value existing) v items = true
  <-> exists o, o ∈ items /\ both existing v o eq.
Proof.
  unfold eval_in, both. rewrite operand_value_row.
  destruct (operand_av existing v) as [a|]; simpl; [|naive_solver].
  rewrite existsb_exists. setoid_rewrite list_elem_of_In. f_equiv. intros o.
  rewrite operand_value_row. destruct (operand_av existing o) as [b|]; simpl; [|naive_solver].
  rewrite eqb_to_value. naive_solver.
Qed.

Lemma evaluate_condition_refines existing cond :
  evaluate_condition (row_value existing) cond = true <-> sat existing cond.
Proof.
  assert (forall p, match top_name p with
                    | Some n => v ← row_value existing; value_get v n
                    | None => None
                    end = to_value <$> attr_of existing p) as Hp.
  { intros p. rewrite <- path_value_row. unfold path_value. by destruct (top_name p). }
  induction cond as [op l r|p|p|p o|p o|v lo hi|v items|p o|a IHa b IHb|a IHa b IHb|c IH]; simpl.
  - rewrite <- (both_spec existing l r (compare_values op)) by apply compare_values_rel.
    by destruct (condition_operand_value l (row_value existing)),
      (condition_operand_value r (row_value existing)).
  - specialize (Hp p). destruct (top_name p) eqn:E; simpl.
    + rewrite bool_decide_eq_true, Hp, fmap_is_Some. done.
    + destruct (attr_of existing p) eqn:E2; [done|]. split; [done | by intros []].
  - specialize (Hp p). destruct (top_name p) eqn:E; simpl.
    + rewrite bool_decide_eq_true, Hp, fmap_None. naive_solver.
    + split; [done | by intros [[] _]].
  - apply eval_begins_with_sat.
  - apply eval_contains_sat.
  - apply eval_between_sat.
  - apply eval_in_sat.
  - apply eval_attribute_type_sat.
  - by rewrite andb_true_iff, IHa, IHb.
  - by rewrite orb_true_iff, IHa, IHb.
  - by rewrite negb_true_iff, <- not_true_iff_false, IH.
Qed.

(** ** Derived forms *)

(** [v BETWEEN lo AND hi] is [v >= lo AND v <= hi], on every row. *)
Lemma between_desugar existing v lo hi :
  evaluate_condition existing (Condition_Between v lo hi)
  = evaluate_condition existing
      (Condition_And (Condition_Compare Ge_ v lo) (Condition_Compare Le_ v hi)).
Proof.
  simpl. unfold eval_between.
  destruct (condition_operand_value v existing), (condition_operand_value lo existing),
    (condition_operand_value hi existing); simpl; try done; by rewrite andb_false_r.
Qed.

Fixpoint any_equal (v o : Operand) (items : list Operand) : Condition :=
  match items with
  | [] => Condition_Compare Eq_ o v
  | o' :: items => Condition_Or (Condition_Compare Eq_ o v) (any_equal v o' items)
  end.

(** [v IN (o1, ..., on)] is [o1 = v OR ... OR on = v]. *)
Lemma in_desugar existing v o items :
  evaluate_condition existing (Condition_In v (o :: items))
  = evaluate_condition existing (any_equal v o items).
Proof.
  revert o. induction items as [|o' items IH]; intros o; simpl in *; unfold eval_in in *;
    destruct (condition_operand_value v existing) as [vv|] eqn:E; simpl in *.
  - rewrite orb_false_r. by destruct (condition_operand_value o existing).
  - by destruct (condition_operand_value o existing).
  - rewrite <- IH. f_equal.
  - rewrite <- IH. by destruct (condition_operand_value o existing).
Qed.

(** Number comparison is exact on integers below [2^53]. *)
Lemma compare_integers op (a b : Z) :
  (Z.abs a < 2 ^ 53 -> Z.abs b < 2 ^ 53 ->
   compare_values op (to_value (N_ (i64_to_string a))) (to_value (N_ (i64_to_string b)))
   = match op with
     | Eq_ => a =? b | Ne_ => negb (a =? b) | Lt_ => a <? b | Le_ => a <=? b
     | Gt_ => b <? a | Ge_ => b <=? a
     end)%Z.
Proof.
  intros Ha Hb. pose proof (parse_i64_exact a Ha) as Pa. pose proof (parse_i64_exact b Hb) as Pb.
  assert (eqb (to_value (N_ (i64_to_string a))) (to_value (N_ (i64_to_string b))) = (a =? b)%Z)
    as Heq.
  { apply eq_bool_prop_intro. rewrite !Is_true_true, eqb_to_value, Z.eqb_eq.
    split; [|by intros ->]. intros [= Hs]. rewrite Hs, Pb in Pa.
    pose proof (partial_cmp_exact a b Ha Hb) as Hc.
    pose proof (partial_cmp_exact b b Hb Hb) as Hc'.
    injection Pa as Pa. rewrite <- Pa, Hc', Z.compare_refl in Hc. injection Hc as Hc.
    symmetry in Hc. by apply Z.compare_eq_iff in Hc. }
  unfold compare_values. destruct op; rewrite ?Heq; try done; simpl;
    rewrite Pa, Pb; simpl; rewrite partial_cmp_exact by done;
    rewrite ?(Z.ltb_compare b a), ?(Z.leb_compare b a), ?(Z.compare_antisym a b);
    unfold Z.ltb, Z.leb; by destruct (a ?= b)%Z.
Qed.

(** ** Theorems *)

(** C25: on a stored row (the serialisation of an item, or no row) the
    JSON evaluator decides the typed condition semantics: comparisons on
    typed values, byte order on strings, substring and membership for
    [contains], falsity of every comparison with a missing attribute. *)
Theorem evaluate_condition_decides_sat existing cond :
  evaluate_condition (row_value existing) cond = true <-> sat existing cond.
Proof. apply evaluate_condition_refines. Qed.

(** [BETWEEN] is the conjunction of the two inclusive comparisons and
    [IN] the disjunction of the equalities, on every row. *)
Theorem between_and_in_desugar existing v lo hi o items :
  evaluate_condition existing (Condition_Between v lo hi)
  = evaluate_condition existing
      (Condition_And (Condition_Compare Ge_ v lo) (Condition_Compare Le_ v hi))
  /\ evaluate_condition existing (Condition_In v (o :: items))
     = evaluate_condition existing (any_equal v o items).
Proof. split; [apply between_desugar | apply in_desugar]. Qed.

(** comparing two numbers is exact for integers below [2^53] in
    magnitude, whatever the operator. *)
Theorem number_comparison_exact op (a b : Z) :
  (Z.abs a < 2 ^ 53)%Z -> (Z.abs b < 2 ^ 53)%Z ->
  compare_values op (to_value (N_ (i64_to_string a))) (to_value (N_ (i64_to_string b)))
  = match op with
    | Eq_ => a =? b | Ne_ => negb (a =? b) | Lt_ => a <? b | Le_ => a <=? b
    | Gt_ => b <? a | Ge_ => b <=? a
    end%Z.
Proof. apply compare_integers. Qed.
End evaluate.

Lemma number_comparison_witness :
  compare_values Lt_ (to_value (N_ "-9007199254740991")) (to_value (N_ "12")) = true.
Proof.
  apply (number_comparison_exact Lt_ (-9007199254740991) 12); vm_compute; reflexivity.
Defined.

(** Above [2^53] the order is the one of the nearest floats: two distinct
    integers compare as neither above nor below one another. *)
Lemma number_comparison_rounds :
  compare_values Gt_ (to_value (N_ "9007199254740993")) (to_value (N_ "9007199254740992")) = false
  /\ compare_values Le_ (to_value (N_ "9007199254740993")) (to_value (N_ "9007199254740992"))
     = true.
Proof. split; reflexivity. Qed.
