(* ===== verification/EvalUpdate.v ===== *)
(** * The update evaluator (rekt-translator, [eval/update.rs])

    [apply_update_expression] computes the new row from the stored one.
    [update_item] is the same computation on typed items; the refinement
    [apply_update_refines] says the evaluator implements it on serialised
    rows, errors included. *)

From S2P Require Import Prelude RustStr BTree Json Attr Base64Std Ast F64.

Inductive EvalError : Type :=
| EvalError_PathDoesNotExist (path : string)
| EvalError_ArithmeticOperandNotNumber (got : string)
| EvalError_ArithmeticParseFailed (value : string)
| EvalError_ListAppendOperandNotList (got : string)
| EvalError_ItemNotObject.

(** [top_name_or_unreachable]: panics on a path whose head is not a name. *)
Definition top_name_or_unreachable (p : Path) : Result EvalError string := expect (top_name p).

Definition static_tag (tag : string) : string :=
  if existsb (String.eqb tag) ["S"; "N"; "B"; "BOOL"; "NULL"; "L"; "M"; "SS"; "NS"; "BS"]
  then tag else "unknown".

Definition parse_decimal (s : string) : Result EvalError f64 :=
  ok_or (parse_f64 s) (EvalError_ArithmeticParseFailed s).

Definition format_decimal (f : f64) : string :=
  if fract_is_zero f && abs_lt_ten16 f then i64_to_string (f64_as_i64 f) else f64_to_string f.

(** The push-if-absent loop of [set_union]. *)
Section push_new.
Context {A : Type} `{EqDecision A}.

Fixpoint push_new (combined addend : list A) : list A :=
  match addend with
  | [] => combined
  | x :: addend =>
      push_new (if contains combined x then combined else combined ++ [x]) addend
  end.
End push_new.

Section push_new_facts.
Context {A B : Type} `{EqDecision A, EqDecision B} (g : A -> B) `{!Inj (=) (=) g}.

Lemma contains_map l x : contains (map g l) (g x) = contains l x.
Proof.
  apply eq_bool_prop_intro. rewrite !Is_true_true, !contains_true.
  split; [|apply list_elem_of_fmap_2]. intros (y & Hy & Hin)%list_elem_of_fmap.
  by apply (inj g) in Hy as ->.
Qed.

Lemma push_new_map l0 l : push_new (map g l0) (map g l) = map g (push_new l0 l).
Proof.
  revert l0; induction l as [|x l IH]; intros l0; simpl; [done|].
  rewrite contains_map. destruct (contains l0 x); [apply IH|].
  rewrite <- IH, map_app. done.
Qed.

Lemma filter_contains_map l0 l :
  List.filter (fun s => negb (contains (map g l) s)) (map g l0)
  = map g (List.filter (fun s => negb (contains l s)) l0).
Proof.
  induction l0 as [|x l0 IH]; simpl; [done|].
  rewrite contains_map. destruct (contains l x); simpl; by rewrite IH.
Qed.
End push_new_facts.

(** [push_new] is a union: it keeps the left operand as a prefix, adds
    exactly the missing elements and no duplicates. *)
Section push_new_spec.
Context {A : Type} `{EqDecision A}.
Implicit Types l : list A.

Lemma push_new_elem l0 l x : x ∈ push_new l0 l <-> x ∈ l0 \/ x ∈ l.
Proof.
  revert l0; induction l as [|y l IH]; intros l0; simpl; [set_solver|].
  rewrite IH. destruct (contains l0 y) eqn:E; [apply contains_true in E|]; set_solver.
Qed.

Lemma push_new_NoDup l0 l : NoDup l0 -> NoDup (push_new l0 l).
Proof.
  revert l0; induction l as [|y l IH]; intros l0 Hl0; simpl; [done|].
  apply IH. destruct (contains l0 y) eqn:E; [done|].
  apply NoDup_app. split_and!; [done| |apply NoDup_singleton].
  intros x Hx Hy%list_elem_of_singleton. subst.
  apply contains_false in E. done.
Qed.

Lemma push_new_prefix l0 l : exists l', push_new l0 l = l0 ++ l'.
Proof.
  revert l0; induction l as [|y l IH]; intros l0; simpl; [exists []; by rewrite app_nil_r|].
  destruct (contains l0 y); [apply IH|]. destruct (IH (l0 ++ [y])) as [l' ->].
  exists ([y] ++ l'). by rewrite app_assoc.
Qed.

End push_new_spec.

Section update.
Context `{Base64} `{SerdeJson}.

(** [a.iter().filter_map(|s| s.as_str().map(str::to_string))]. *)
Definition strings_of (l : list Value) : list string := omap as_str l.

Definition ddb_n_value (v : Value) : Result EvalError string :=
  let? (tag, inner) :=
    ok_or (single_tagged v) (EvalError_ArithmeticOperandNotNumber "non-DDB-tagged value") in
  if negb (String.eqb tag "N") then Err (EvalError_ArithmeticOperandNotNumber (static_tag tag))
  else ok_or (as_str inner) (EvalError_ArithmeticOperandNotNumber "non-string N").

(** [existing.and_then(|v| v.get(attr))]. *)
Definition existing_get (existing : option Value) (attr : string) : option Value :=
  v ← existing; value_get v attr.

Definition operand_value (op : Operand) (existing : option Value) : Result EvalError Value :=
  match op with
  | Operand_Value v => Ok (to_value v)
  | Operand_Path p =>
      let? attr := top_name_or_unreachable p in
      ok_or (existing_get existing attr) (EvalError_PathDoesNotExist attr)
  end.

Definition arith (a b : Operand) (existing : option Value) (plus : bool)
  : Result EvalError Value :=
  let? av := operand_value a existing in
  let? bv := operand_value b existing in
  let? an := ddb_n_value av in
  let? bn := ddb_n_value bv in
  let? lhs := parse_decimal an in
  let? rhs := parse_decimal bn in
  let result := if plus then f64_add lhs rhs else f64_sub lhs rhs in
  Ok (tagged "N" (VString (format_decimal result))).

Definition ddb_list (v : Value) : Result EvalError (list Value) :=
  let? (tag, inner) :=
    ok_or (single_tagged v) (EvalError_ListAppendOperandNotList "non-DDB-tagged value") in
  if negb (String.eqb tag "L") then Err (EvalError_ListAppendOperandNotList (static_tag tag))
  else ok_or (as_array inner) (EvalError_ListAppendOperandNotList "non-array L").

Definition list_concat (a b : Value) : Result EvalError Value :=
  let? av := ddb_list a in
  let? bv := ddb_list b in
  Ok (tagged "L" (VArray (av ++ bv))).

Fixpoint compute_set_rhs (rhs : SetRhs) (existing : option Value) : Result EvalError Value :=
  match rhs with
  | SetRhs_Operand (Operand_Value v) => Ok (to_value v)
  | SetRhs_Operand (Operand_Path p) =>
      let? attr := top_name_or_unreachable p in
      ok_or (existing_get existing attr) (EvalError_PathDoesNotExist attr)
  | SetRhs_Plus a b => arith a b existing true
  | SetRhs_Minus a b => arith a b existing false
  | SetRhs_IfNotExists path fallback =>
      let? attr := top_name_or_unreachable path in
      match existing_get existing attr with
      | Some existing_val => Ok existing_val
      | None => compute_set_rhs fallback existing
      end
  | SetRhs_ListAppend a b =>
      let? av := compute_set_rhs a existing in
      let? bv := compute_set_rhs b existing in
      list_concat av bv
  end.

Definition set_union (existing : option Value) (tag : string) (addend : list string)
  : Result EvalError Value :=
  let? combined :=
    match existing with
    | None => Ok []
    | Some v =>
        match single_tagged v with
        | Some (existing_tag, arr) =>
            if String.eqb existing_tag tag then
              Ok (match as_array arr with Some a => strings_of a | None => [] end)
            else Err (EvalError_ListAppendOperandNotList (static_tag existing_tag))
        | None => Ok []
        end
    end in
  Ok (tagged tag (VArray (map VString (push_new combined addend)))).

Definition apply_add (existing : option Value) (addend : AttributeValue)
  : Result EvalError Value :=
  match addend with
  | N_ n =>
      let? lhs :=
        match existing with
        | None => Ok (SpecFloat.S754_zero false)
        | Some v =>
            match single_tagged v with
            | Some (tag, s) =>
                if String.eqb tag "N" then
                  match as_str s ≫= parse_f64 with
                  | Some f => Ok f
                  | None => Err (EvalError_ArithmeticParseFailed (value_to_string s))
                  end
                else Err (EvalError_ArithmeticOperandNotNumber (static_tag tag))
            | None => Err (EvalError_ArithmeticOperandNotNumber "non-DDB-tagged value")
            end
        end in
      let? rhs := parse_decimal n in
      Ok (tagged "N" (VString (format_decimal (f64_add lhs rhs))))
  | Ss_ items => set_union existing "SS" items
  | Ns_ items => set_union existing "NS" items
  | Bs_ items => set_union existing "BS" (map b64_encode items)
  | _ => Err (EvalError_ArithmeticOperandNotNumber (type_name addend))
  end.

Definition apply_delete (existing : Value) (subset : AttributeValue)
  : Result EvalError (option Value) :=
  let? (tag, to_remove) :=
    match subset with
    | Ss_ items => Ok ("SS", items)
    | Ns_ items => Ok ("NS", items)
    | Bs_ items => Ok ("BS", map b64_encode items)
    | other => Err (EvalError_ListAppendOperandNotList (type_name other))
    end in
  let? (existing_tag, arr) :=
    ok_or (single_tagged existing) (EvalError_ListAppendOperandNotList "non-DDB-tagged value") in
  if negb (String.eqb existing_tag tag)
  then Err (EvalError_ListAppendOperandNotList (static_tag existing_tag))
  else
    let? arr := ok_or (as_array arr) (EvalError_ListAppendOperandNotList "non-array set wrapper") in
    let remaining := List.filter (fun s => negb (contains to_remove s)) (strings_of arr) in
    match remaining with
    | [] => Ok None
    | _ => Ok (Some (tagged tag (VArray (map VString remaining))))
    end.

(** Phase 1: every right-hand side, before any write. *)
Definition stage_set (existing : option Value) (clause : SetClause)
  : Result EvalError (string * Value) :=
  let? attr := top_name_or_unreachable (set_path clause) in
  let? value := compute_set_rhs (set_value clause) existing in
  Ok (attr, value).

(** The bodies of the REMOVE, ADD and DELETE loops of phase 2. *)
Definition remove_step (obj : btree Value) (path : Path) : Result EvalError (btree Value) :=
  let? attr := top_name_or_unreachable path in
  Ok (BTreeMap.remove attr obj).

Definition add_step (obj : btree Value) (action : AddAction) : Result EvalError (btree Value) :=
  let? attr := top_name_or_unreachable (add_path action) in
  let? new_val := apply_add (BTreeMap.get attr obj) (add_value action) in
  Ok (BTreeMap.insert attr new_val obj).

Definition delete_step (obj : btree Value) (action : DeleteAction)
  : Result EvalError (btree Value) :=
  let? attr := top_name_or_unreachable (del_path action) in
  match BTreeMap.get attr obj with
  | None => Ok obj
  | Some existing =>
      let? r := apply_delete existing (del_value action) in
      match r with
      | Some new_val => Ok (BTreeMap.insert attr new_val obj)
      | None => Ok (BTreeMap.remove attr obj)
      end
  end.

Definition apply_update_expression (existing : option Value) (expr : UpdateExpression)
  (key : Item) : Result EvalError Value :=
  let? staged := collect (stage_set existing) (ue_set expr) in
  let item := match existing with Some v => v | None => item_to_value key end in
  let? obj := ok_or (as_object item) EvalError_ItemNotObject in
  let obj := BTreeMap.insert_all staged obj in
  let? obj := fold_result remove_step obj (ue_remove expr) in
  let? obj := fold_result add_step obj (ue_add expr) in
  let? obj := fold_result delete_step obj (ue_delete expr) in
  Ok (VObject obj).

(** ** The typed specification *)

(** The attribute [attr] of the row. *)
Definition item_get (existing : option Item) (attr : string) : option AttributeValue :=
  it ← existing; BTreeMap.get attr it.

Definition operand_item (op : Operand) (existing : option Item)
  : Result EvalError AttributeValue :=
  match op with
  | Operand_Value v => Ok v
  | Operand_Path p =>
      let? attr := top_name_or_unreachable p in
      ok_or (item_get existing attr) (EvalError_PathDoesNotExist attr)
  end.

Definition number_of (v : AttributeValue) : Result EvalError string :=
  match v with
  | N_ s => Ok s
  | v => Err (EvalError_ArithmeticOperandNotNumber (type_name v))
  end.

Definition list_of (v : AttributeValue) : Result EvalError (list AttributeValue) :=
  match v with
  | L_ l => Ok l
  | v => Err (EvalError_ListAppendOperandNotList (type_name v))
  end.

Definition arith_item (a b : Operand) (existing : option Item) (plus : bool)
  : Result EvalError AttributeValue :=
  let? av := operand_item a existing in
  let? bv := operand_item b existing in
  let? an := number_of av in
  let? bn := number_of bv in
  let? lhs := parse_decimal an in
  let? rhs := parse_decimal bn in
  Ok (N_ (format_decimal (if plus then f64_add lhs rhs else f64_sub lhs rhs))).

Fixpoint rhs_item (rhs : SetRhs) (existing : option Item) : Result EvalError AttributeValue :=
  match rhs with
  | SetRhs_Operand o => operand_item o existing
  | SetRhs_Plus a b => arith_item a b existing true
  | SetRhs_Minus a b => arith_item a b existing false
  | SetRhs_IfNotExists path fallback =>
      let? attr := top_name_or_unreachable path in
      match item_get existing attr with
      | Some v => Ok v
      | None => rhs_item fallback existing
      end
  | SetRhs_ListAppend a b =>
      let? av := rhs_item a existing in
      let? bv := rhs_item b existing in
      let? la := list_of av in
      let? lb := list_of bv in
      Ok (L_ (la ++ lb))
  end.

(** ADD: the sum of two numbers or the union of two sets of a type. *)
Definition not_a_set (v : AttributeValue) : Result EvalError AttributeValue :=
  Err (EvalError_ListAppendOperandNotList (type_name v)).

Definition add_item (existing : option AttributeValue) (addend : AttributeValue)
  : Result EvalError AttributeValue :=
  match addend with
  | N_ n =>
      let? lhs :=
        match existing with
        | None => Ok (SpecFloat.S754_zero false)
        | Some (N_ s) =>
            ok_or (parse_f64 s) (EvalError_ArithmeticParseFailed (value_to_string (VString s)))
        | Some v => Err (EvalError_ArithmeticOperandNotNumber (type_name v))
        end in
      let? rhs := parse_decimal n in
      Ok (N_ (format_decimal (f64_add lhs rhs)))
  | Ss_ l => match existing with
             | None => Ok (Ss_ (push_new [] l))
             | Some (Ss_ l0) => Ok (Ss_ (push_new l0 l))
             | Some v => not_a_set v
             end
  | Ns_ l => match existing with
             | None => Ok (Ns_ (push_new [] l))
             | Some (Ns_ l0) => Ok (Ns_ (push_new l0 l))
             | Some v => not_a_set v
             end
  | Bs_ l => match existing with
             | None => Ok (Bs_ (push_new [] l))
             | Some (Bs_ l0) => Ok (Bs_ (push_new l0 l))
             | Some v => not_a_set v
             end
  | _ => Err (EvalError_ArithmeticOperandNotNumber (type_name addend))
  end.

(** DELETE: set difference; [None] when nothing is left. *)
Definition difference {A} `{EqDecision A} (l0 l : list A) : list A :=
  List.filter (fun s => negb (contains l s)) l0.

Definition some_set {A} (mk : list A -> AttributeValue) (l : list A) : option AttributeValue :=
  match l with [] => None | _ => Some (mk l) end.

Definition delete_item (existing subset : AttributeValue)
  : Result EvalError (option AttributeValue) :=
  match subset, existing with
  | Ss_ l, Ss_ l0 => Ok (some_set Ss_ (difference l0 l))
  | Ns_ l, Ns_ l0 => Ok (some_set Ns_ (difference l0 l))
  | Bs_ l, Bs_ l0 => Ok (some_set Bs_ (difference l0 l))
  | (Ss_ _ | Ns_ _ | Bs_ _), v => Err (EvalError_ListAppendOperandNotList (type_name v))
  | v, _ => Err (EvalError_ListAppendOperandNotList (type_name v))
  end.

Definition stage_item (existing : option Item) (clause : SetClause)
  : Result EvalError (string * AttributeValue) :=
  let? attr := top_name_or_unreachable (set_path clause) in
  let? value := rhs_item (set_value clause) existing in
  Ok (attr, value).

Definition remove_item (it : Item) (path : Path) : Result EvalError Item :=
  let? attr := top_name_or_unreachable path in
  Ok (BTreeMap.remove attr it).

Definition add_to_item (it : Item) (action : AddAction) : Result EvalError Item :=
  let? attr := top_name_or_unreachable (add_path action) in
  let? new_val := add_item (BTreeMap.get attr it) (add_value action) in
  Ok (BTreeMap.insert attr new_val it).

Definition delete_from_item (it : Item) (action : DeleteAction) : Result EvalError Item :=
  let? attr := top_name_or_unreachable (del_path action) in
  match BTreeMap.get attr it with
  | None => Ok it
  | Some v =>
      let? r := delete_item v (del_value action) in
      match r with
      | Some v' => Ok (BTreeMap.insert attr v' it)
      | None => Ok (BTreeMap.remove attr it)
      end
  end.

Definition update_item (existing : option Item) (expr : UpdateExpression) (key : Item)
  : Result EvalError Item :=
  let? staged := collect (stage_item existing) (ue_set expr) in
  let it := BTreeMap.insert_all staged (default key existing) in
  let? it := fold_result remove_item it (ue_remove expr) in
  let? it := fold_result add_to_item it (ue_add expr) in
  fold_result delete_from_item it (ue_delete expr).

(** ** Refinement *)

Lemma static_tag_type_name v : static_tag (type_name v) = type_name v.
Proof. by destruct v. Qed.

Lemma existing_get_row existing attr :
  existing_get (row_value existing) attr = to_value <$> item_get existing attr.
Proof.
  unfold existing_get, item_get, row_value. destruct existing; simpl; [|done].
  apply get_item_to_value.
Qed.

Lemma ok_or_fmap {E A B} (f : A -> B) o (e : E) :
  ok_or (f <$> o) e = res_map f (ok_or o e).
Proof. by destruct o. Qed.

Lemma operand_value_refines op existing :
  operand_value op (row_value existing) = res_map to_value (operand_item op existing).
Proof.
  destruct op as [p|v]; simpl; [|done].
  destruct (top_name_or_unreachable p); simpl; [|done|done].
  by rewrite existing_get_row, ok_or_fmap.
Qed.

Lemma ddb_n_value_refines v : ddb_n_value (to_value v) = number_of v.
Proof. by destruct v. Qed.

Lemma ddb_list_refines v : ddb_list (to_value v) = res_map (map to_value) (list_of v).
Proof. by destruct v. Qed.

Lemma arith_refines a b existing plus :
  arith a b (row_value existing) plus = res_map to_value (arith_item a b existing plus).
Proof.
  unfold arith, arith_item. rewrite !operand_value_refines.
  destruct (operand_item a existing); simpl; [|done|done].
  destruct (operand_item b existing); simpl; [|done|done].
  rewrite !ddb_n_value_refines.
  repeat case_match; simplify_eq; done.
Qed.

Lemma compute_set_rhs_refines rhs existing :
  compute_set_rhs rhs (row_value existing) = res_map to_value (rhs_item rhs existing).
Proof.
  induction rhs as [o|a b|a b|p r IH|a IHa b IHb].
  - transitivity (operand_value o (row_value existing)); [by destruct o|].
    apply operand_value_refines.
  - apply arith_refines.
  - apply arith_refines.
  - simpl. destruct (top_name_or_unreachable p); simpl; [|done|done].
    rewrite existing_get_row. by destruct (item_get existing a).
  - simpl. rewrite IHa. destruct (rhs_item a existing); simpl; [|done|done].
    rewrite IHb. destruct (rhs_item b existing); simpl; [|done|done].
    unfold list_concat. rewrite !ddb_list_refines.
    destruct (list_of _); simpl; [|done|done]. destruct (list_of _); simpl; [|done|done].
    by rewrite map_app.
Qed.

Lemma strings_of_VString {A} (g : A -> string) l :
  strings_of (map (fun x => VString (g x)) l) = map g l.
Proof. unfold strings_of. induction l as [|x l IH]; simpl; [done|]. f_equal. exact IH. Qed.

#[local] Instance b64_encode_Inj : Inj (=) (=) b64_encode.
Proof. exact b64_encode_inj. Qed.

Lemma apply_add_refines existing addend :
  apply_add (to_value <$> existing) addend = res_map to_value (add_item existing addend).
Proof.
  destruct addend; simpl; try done.
  - unfold parse_decimal. destruct existing as [[| t | | | | | | | |]|]; simpl; try done.
    + destruct (parse_f64 t); simpl; [|done]. by destruct (parse_f64 n).
    + by destruct (parse_f64 n).
  - destruct existing as [[]|]; try done. unfold set_union. simpl.
    by rewrite (strings_of_VString id), map_id.
  - destruct existing as [[]|]; try done. unfold set_union. simpl.
    by rewrite (strings_of_VString id), map_id.
  - destruct existing as [[]|]; try done; unfold set_union; simpl.
    + rewrite strings_of_VString, push_new_map, map_map by apply _. done.
    + rewrite (push_new_map b64_encode []), map_map. done.
Qed.

Lemma apply_delete_refines existing subset :
  apply_delete (to_value existing) subset = res_map (fmap to_value) (delete_item existing subset).
Proof.
  destruct subset; simpl; try done; destruct existing; simpl; try done;
    unfold apply_delete; simpl; rewrite ?(strings_of_VString id), ?map_id.
  - unfold difference. by destruct (List.filter _ _).
  - unfold difference. by destruct (List.filter _ _).
  - rewrite strings_of_VString, filter_contains_map by apply _.
    unfold difference. destruct (List.filter _ _); simpl; [done|]. by rewrite map_map.
Qed.

Lemma insert_all_refines staged (it : Item) :
  BTreeMap.insert_all (map entry_to_value staged) (map entry_to_value it)
  = map entry_to_value (BTreeMap.insert_all staged it).
Proof.
  revert it; induction staged as [|[k v] l IH]; intros it; simpl; [done|].
  by rewrite insert_item_to_value, IH.
Qed.

Lemma stage_set_refines existing clause :
  stage_set (row_value existing) clause = res_map entry_to_value (stage_item existing clause).
Proof.
  unfold stage_set, stage_item. destruct (top_name_or_unreachable _); simpl; [|done|done].
  rewrite compute_set_rhs_refines. by destruct (rhs_item _ _).
Qed.

Lemma remove_step_refines it path :
  remove_step (map entry_to_value it) path = res_map (map entry_to_value) (remove_item it path).
Proof.
  unfold remove_step, remove_item. destruct (top_name_or_unreachable _); simpl; [|done|done].
  by rewrite remove_item_to_value.
Qed.

Lemma add_step_refines it action :
  add_step (map entry_to_value it) action = res_map (map entry_to_value) (add_to_item it action).
Proof.
  unfold add_step, add_to_item. destruct (top_name_or_unreachable _); simpl; [|done|done].
  rewrite get_item_to_value, apply_add_refines.
  destruct (add_item _ _); simpl; [|done|done]. by rewrite insert_item_to_value.
Qed.

Lemma delete_step_refines it action :
  delete_step (map entry_to_value it) action
  = res_map (map entry_to_value) (delete_from_item it action).
Proof.
  unfold delete_step, delete_from_item. destruct (top_name_or_unreachable _); simpl; [|done|done].
  rewrite get_item_to_value. destruct (BTreeMap.get _ it); simpl; [|done].
  rewrite apply_delete_refines. destruct (delete_item _ _) as [[]| |]; simpl; try done.
  - by rewrite insert_item_to_value.
  - by rewrite remove_item_to_value.
Qed.

Lemma apply_update_refines existing expr key :
  apply_update_expression (row_value existing) expr key
  = res_map item_to_value (update_item existing expr key).
Proof.
  unfold apply_update_expression, update_item.
  rewrite (collect_res_map entry_to_value _ _ _ (stage_set_refines existing)).
  destruct (collect (stage_item existing) (ue_set expr)) as [staged| |]; simpl; [|done|done].
  assert (match row_value existing with Some v => v | None => item_to_value key end
          = VObject (map entry_to_value (default key existing))) as ->.
  { by destruct existing. }
  simpl. rewrite insert_all_refines.
  rewrite (fold_result_map (S := Item) (map entry_to_value) remove_item) by apply remove_step_refines.
  destruct (fold_result remove_item _ _); simpl; [|done|done].
  rewrite (fold_result_map (S := Item) (map entry_to_value) add_to_item) by apply add_step_refines.
  destruct (fold_result add_to_item _ _); simpl; [|done|done].
  rewrite (fold_result_map (S := Item) (map entry_to_value) delete_from_item) by apply delete_step_refines.
  by destruct (fold_result delete_from_item _ _).
Qed.

(** ** What an update changes *)

Definition set_targets (expr : UpdateExpression) : list string :=
  omap (fun c => top_name (set_path c)) (ue_set expr).
Definition later_targets (expr : UpdateExpression) : list string :=
  omap top_name (ue_remove expr)
  ++ omap (fun a => top_name (add_path a)) (ue_add expr)
  ++ omap (fun d => top_name (del_path d)) (ue_delete expr).
Definition targets (expr : UpdateExpression) : list string :=
  set_targets expr ++ later_targets expr.

(** Every path of the expression starts with a name: what the translator
    guarantees. *)
Definition named_operand (o : Operand) : Prop :=
  match o with Operand_Path p => is_Some (top_name p) | Operand_Value _ => True end.
Fixpoint named_rhs (r : SetRhs) : Prop :=
  match r with
  | SetRhs_Operand o => named_operand o
  | SetRhs_Plus a b | SetRhs_Minus a b => named_operand a /\ named_operand b
  | SetRhs_IfNotExists p r => is_Some (top_name p) /\ named_rhs r
  | SetRhs_ListAppend a b => named_rhs a /\ named_rhs b
  end.
Definition named_update (e : UpdateExpression) : Prop :=
  Forall (fun c => is_Some (top_name (set_path c)) /\ named_rhs (set_value c)) (ue_set e)
  /\ Forall (fun p => is_Some (top_name p)) (ue_remove e)
  /\ Forall (fun a => is_Some (top_name (add_path a))) (ue_add e)
  /\ Forall (fun d => is_Some (top_name (del_path d))) (ue_delete e).

Lemma top_name_ok p n : top_name_or_unreachable p = Ok n -> top_name p = Some n.
Proof. unfold top_name_or_unreachable. destruct (top_name p); simpl; congruence. Qed.

Lemma omap_target {A} (f : A -> option string) (x : A) (l : list A) n :
  x ∈ l -> f x = Some n -> n ∈ omap f l.
Proof. intros. apply list_elem_of_omap. eauto. Qed.

(** The attributes a stage does not name are untouched by it. *)
Lemma remove_frame it p it' n :
  remove_item it p = Ok it' -> top_name p <> Some n -> BTreeMap.get n it' = BTreeMap.get n it.
Proof.
  unfold remove_item. intros Hr Hn. res_inv. apply BTreeMap.get_remove_ne.
  match goal with Ht : _ = Ok _ |- _ => apply top_name_ok in Ht end. congruence.
Qed.

Lemma add_frame it a it' n :
  add_to_item it a = Ok it' -> top_name (add_path a) <> Some n ->
  BTreeMap.get n it' = BTreeMap.get n it.
Proof.
  unfold add_to_item. intros Hr Hn.
  destruct (top_name_or_unreachable _) as [m| |] eqn:Hm; [|done|done].
  apply top_name_ok in Hm. destruct (add_item _ _); [|done|done].
  injection Hr as <-. apply BTreeMap.get_insert_ne. congruence.
Qed.

Lemma delete_frame it d it' n :
  delete_from_item it d = Ok it' -> top_name (del_path d) <> Some n ->
  BTreeMap.get n it' = BTreeMap.get n it.
Proof.
  unfold delete_from_item. intros Hr Hn.
  destruct (top_name_or_unreachable _) as [m| |] eqn:Hm; [|done|done].
  apply top_name_ok in Hm. destruct (BTreeMap.get m it); [|by injection Hr as <-].
  destruct (delete_item _ _) as [[]| |]; [| |done|done]; injection Hr as <-;
    [apply BTreeMap.get_insert_ne | apply BTreeMap.get_remove_ne]; congruence.
Qed.

Lemma later_frame expr it1 it2 it3 it4 n :
  n ∉ later_targets expr ->
  fold_result remove_item it1 (ue_remove expr) = Ok it2 ->
  fold_result add_to_item it2 (ue_add expr) = Ok it3 ->
  fold_result delete_from_item it3 (ue_delete expr) = Ok it4 ->
  BTreeMap.get n it4 = BTreeMap.get n it1.
Proof.
  unfold later_targets. rewrite !elem_of_app. intros Hn H1 H2 H3.
  assert (BTreeMap.get n it2 = BTreeMap.get n it1) as <-.
  { revert H1. apply (fold_result_inv _ (fun it => BTreeMap.get n it = _)); [|done].
    intros s p s' Hp <- Hs. apply (remove_frame _ _ _ _ Hs). intros Ht.
    apply Hn. left. by apply (omap_target _ p). }
  assert (BTreeMap.get n it3 = BTreeMap.get n it2) as <-.
  { revert H2. apply (fold_result_inv _ (fun it => BTreeMap.get n it = _)); [|done].
    intros s p s' Hp <- Hs. apply (add_frame _ _ _ _ Hs). intros Ht.
    apply Hn. right; left. by apply (omap_target _ p). }
  revert H3. apply (fold_result_inv _ (fun it => BTreeMap.get n it = _)); [|done].
  intros s p s' Hp <- Hs. apply (delete_frame _ _ _ _ Hs). intros Ht.
  apply Hn. right; right. by apply (omap_target _ p).
Qed.

(** The staged writes, in clause order. *)
Lemma staged_targets existing cs staged :
  collect (stage_item existing) cs = Ok staged ->
  omap (fun c => top_name (set_path c)) cs = BTreeMap.keys staged.
Proof.
  rewrite collect_Ok_iff. unfold BTreeMap.keys.
  induction 1 as [|c [k v] cs staged Hc Hl IH]; simpl; [done|].
  unfold stage_item in Hc. destruct (top_name_or_unreachable _) eqn:Ht; [|done|done].
  apply top_name_ok in Ht. rewrite Ht. destruct (rhs_item _ _); [|done|done].
  injection Hc as <- <-. simpl. f_equal. exact IH.
Qed.

Lemma update_item_stages existing expr key it :
  update_item existing expr key = Ok it ->
  exists staged it2 it3,
    collect (stage_item existing) (ue_set expr) = Ok staged /\
    fold_result remove_item (BTreeMap.insert_all staged (default key existing))
      (ue_remove expr) = Ok it2 /\
    fold_result add_to_item it2 (ue_add expr) = Ok it3 /\
    fold_result delete_from_item it3 (ue_delete expr) = Ok it.
Proof.
  unfold update_item. destruct (collect _ _) as [staged| |]; [|done|done].
  destruct (fold_result remove_item _ _) as [it2| |] eqn:H1; [|done|done].
  destruct (fold_result add_to_item _ _) as [it3| |] eqn:H2; [|done|done].
  intros H3. by exists staged, it2, it3.
Qed.

Lemma get_insert_all_notin {V} k (l : list (string * V)) m :
  k ∉ BTreeMap.keys l -> BTreeMap.get k (BTreeMap.insert_all l m) = BTreeMap.get k m.
Proof.
  intros Hk. rewrite BTreeMap.get_insert_all.
  rewrite (proj2 (BTreeMap.get_None k (reverse l))); [done|].
  unfold BTreeMap.keys in *. rewrite list_elem_of_fmap in *.
  intros (y & Hy & Hin). apply Hk. exists y. by rewrite elem_of_reverse in Hin.
Qed.

Lemma update_item_frame existing expr key it n :
  update_item existing expr key = Ok it -> n ∉ targets expr ->
  BTreeMap.get n it = BTreeMap.get n (default key existing).
Proof.
  intros (staged & it2 & it3 & Hs & H1 & H2 & H3)%update_item_stages Hn.
  unfold targets in Hn. rewrite elem_of_app in Hn.
  rewrite (later_frame expr _ _ _ _ n) by (done || tauto).
  apply get_insert_all_notin. rewrite <- (staged_targets _ _ _ Hs). tauto.
Qed.

(** A SET clause whose target nothing else writes stores its right-hand
    side evaluated in the original row. *)
Lemma insert_all_unique {V} k (v : V) l m :
  NoDup (BTreeMap.keys l) -> (k, v) ∈ l -> BTreeMap.get k (BTreeMap.insert_all l m) = Some v.
Proof.
  revert m; induction l as [|[k1 v1] l IH]; intros m Hnd Hin; [set_solver|].
  unfold BTreeMap.keys in Hnd. simpl in Hnd. apply NoDup_cons in Hnd as [Hk Hnd].
  apply elem_of_cons in Hin as [[= -> ->]|Hin]; [|by apply IH].
  simpl. rewrite get_insert_all_notin by done. apply BTreeMap.get_insert_eq.
Qed.

Lemma update_item_set existing expr key it c n :
  update_item existing expr key = Ok it ->
  NoDup (set_targets expr) -> c ∈ ue_set expr -> top_name (set_path c) = Some n ->
  n ∉ later_targets expr ->
  exists v, rhs_item (set_value c) existing = Ok v /\ BTreeMap.get n it = Some v.
Proof.
  intros (staged & it2 & it3 & Hs & H1 & H2 & H3)%update_item_stages Hnd Hc Hn Hl.
  pose proof (staged_targets _ _ _ Hs) as Hk. unfold set_targets in Hnd. rewrite Hk in Hnd.
  apply collect_Ok_iff in Hs. apply list_elem_of_lookup in Hc as [i Hi].
  destruct (Forall2_lookup_l _ _ _ _ _ Hs Hi) as ([k v] & Hkv & Hst).
  unfold stage_item in Hst. destruct (top_name_or_unreachable _) as [k'| |] eqn:Ht; [|done|done].
  apply top_name_ok in Ht. destruct (rhs_item (set_value c) existing) as [w| |]; [|done|done].
  injection Hst as <- <-. exists w. split; [done|].
  rewrite (later_frame expr _ _ _ _ n) by done.
  apply insert_all_unique; [done|]. rewrite Hn in Ht. injection Ht as <-.
  by eapply list_elem_of_lookup_2.
Qed.

(** ** No panic on named paths *)

Lemma operand_item_no_panic o existing : named_operand o -> operand_item o existing <> Panic.
Proof.
  destruct o as [p|v]; simpl; [|done]. intros [n Hn].
  unfold top_name_or_unreachable. rewrite Hn. simpl. by destruct (item_get _ _).
Qed.

Lemma arith_item_no_panic a b existing plus :
  named_operand a -> named_operand b -> arith_item a b existing plus <> Panic.
Proof.
  intros Ha%(operand_item_no_panic _ existing) Hb%(operand_item_no_panic _ existing).
  unfold arith_item, parse_decimal.
  destruct (operand_item a existing) as [[]| |], (operand_item b existing) as [[]| |];
    simpl; try done.
  destruct (parse_f64 n), (parse_f64 n0); done.
Qed.

Lemma rhs_item_no_panic r existing : named_rhs r -> rhs_item r existing <> Panic.
Proof.
  induction r as [o|a b|a b|p r IH|a IHa b IHb]; simpl.
  - apply operand_item_no_panic.
  - intros [??]. by apply arith_item_no_panic.
  - intros [??]. by apply arith_item_no_panic.
  - intros [[n Hn] Hr]. unfold top_name_or_unreachable. rewrite Hn. simpl.
    destruct (item_get _ _); [done | auto].
  - intros [Ha Hb]. specialize (IHa Ha). specialize (IHb Hb).
    destruct (rhs_item a existing) as [va| |]; [|done|done].
    destruct (rhs_item b existing) as [vb| |]; [|done|done].
    by destruct va, vb.
Qed.

Lemma update_item_no_panic existing expr key :
  named_update expr -> update_item existing expr key <> Panic.
Proof.
  intros (Hs & Hr & Ha & Hd). unfold update_item. rewrite !Forall_forall in *.
  assert (collect (stage_item existing) (ue_set expr) <> Panic) as H1.
  { apply collect_no_panic. intros c Hc. destruct (Hs c Hc) as [[n Hn] Hv].
    unfold stage_item, top_name_or_unreachable. rewrite Hn. simpl.
    pose proof (rhs_item_no_panic _ existing Hv). by destruct (rhs_item _ _). }
  destruct (collect _ _) as [staged| |]; [|done|done].
  assert (forall it, fold_result remove_item it (ue_remove expr) <> Panic) as H2.
  { intros it. apply (fold_result_no_panic _ (fun _ => True)); [done| |done].
    intros s p Hp _. destruct (Hr p Hp) as [n Hn].
    unfold remove_item, top_name_or_unreachable. by rewrite Hn. }
  assert (forall it, fold_result add_to_item it (ue_add expr) <> Panic) as H3.
  { intros it. apply (fold_result_no_panic _ (fun _ => True)); [done| |done].
    intros s p Hp _. destruct (Ha p Hp) as [n Hn].
    unfold add_to_item, top_name_or_unreachable, add_item, parse_decimal. rewrite Hn. simpl.
    destruct (add_value p) as [|x| | | | | | | |]; try done;
      destruct (BTreeMap.get n s) as [[| y | | | | | | | |]|]; simpl; try done;
      try destruct (parse_f64 y); simpl; try done; by destruct (parse_f64 x). }
  assert (forall it, fold_result delete_from_item it (ue_delete expr) <> Panic) as H4.
  { intros it. apply (fold_result_no_panic _ (fun _ => True)); [done| |done].
    intros s p Hp _. destruct (Hd p Hp) as [n Hn].
    unfold delete_from_item, top_name_or_unreachable, delete_item. rewrite Hn. simpl.
    destruct (BTreeMap.get n s) as [v|]; [|done].
    destruct (del_value p), v; simpl; try done; by destruct (some_set _ _). }
  specialize (H2 (BTreeMap.insert_all staged (default key existing))).
  destruct (fold_result remove_item _ _) as [it2| |]; [|done|done].
  specialize (H3 it2). destruct (fold_result add_to_item _ _) as [it3| |]; [|done|done].
  apply H4.
Qed.

(** ** Well-formedness *)

Definition wf_operand (o : Operand) : Prop :=
  match o with Operand_Path _ => True | Operand_Value v => wf_av v end.
Fixpoint wf_rhs (r : SetRhs) : Prop :=
  match r with
  | SetRhs_Operand o => wf_operand o
  | SetRhs_Plus a b | SetRhs_Minus a b => True
  | SetRhs_IfNotExists p r => wf_rhs r
  | SetRhs_ListAppend a b => wf_rhs a /\ wf_rhs b
  end.

Lemma wf_item_get it n v : wf_item it -> BTreeMap.get n it = Some v -> wf_av v.
Proof.
  intros [_ Hall] Hg. apply BTreeMap.get_Some_in in Hg. rewrite Forall_forall in Hall.
  by apply (Hall (n, v)).
Qed.

Lemma insert_forall {V} (P : string * V -> Prop) k v m :
  P (k, v) -> Forall P m -> Forall P (BTreeMap.insert k v m).
Proof.
  intros Hv Hm. induction Hm as [|[k' v'] m Hkv Hm IH]; simpl; [by constructor|].
  destruct (String.compare k k'); by repeat constructor.
Qed.

Lemma remove_forall {V} (P : string * V -> Prop) k m :
  Forall P m -> Forall P (BTreeMap.remove k m).
Proof.
  intros Hm. induction Hm as [|[k' v'] m Hkv Hm IH]; simpl; [by constructor|].
  case_decide; [done | by constructor].
Qed.

Lemma wf_item_insert k v it : wf_av v -> wf_item it -> wf_item (BTreeMap.insert k v it).
Proof. intros Hv [H1 H2]. split; [by apply BTreeMap.wf_insert | by apply insert_forall]. Qed.

Lemma wf_item_remove k it : wf_item it -> wf_item (BTreeMap.remove k it).
Proof. intros [H1 H2]. split; [by apply BTreeMap.wf_remove | by apply remove_forall]. Qed.

Lemma wf_item_insert_all l it :
  Forall (fun kv => wf_av kv.2) l -> wf_item it -> wf_item (BTreeMap.insert_all l it).
Proof.
  intros Hl. revert it. induction Hl as [|[k v] l Hv Hl IH]; intros it Hit; simpl; [done|].
  apply IH. by apply wf_item_insert.
Qed.

Lemma operand_item_wf o existing v :
  wf_operand o -> (forall it, existing = Some it -> wf_item it) ->
  operand_item o existing = Ok v -> wf_av v.
Proof.
  intros Ho He. destruct o as [p|w]; simpl; [|intros [= <-]; done].
  destruct (top_name_or_unreachable p); [|done|done].
  unfold item_get. destruct existing as [it|]; simpl; [|done].
  destruct (BTreeMap.get a it) eqn:E; simpl; [|done]. intros [= <-].
  by eapply wf_item_get; [apply He|].
Qed.

Lemma rhs_item_wf r existing v :
  wf_rhs r -> (forall it, existing = Some it -> wf_item it) ->
  rhs_item r existing = Ok v -> wf_av v.
Proof.
  intros Hr He. revert v Hr.
  induction r as [o|a b|a b|p r IH|a IHa b IHb]; intros v Hr; simpl in *.
  - by apply operand_item_wf.
  - unfold arith_item. intros Hv. repeat (case_match; try done). by injection Hv as <-.
  - unfold arith_item. intros Hv. repeat (case_match; try done). by injection Hv as <-.
  - destruct (top_name_or_unreachable p); [|done|done]. unfold item_get.
    destruct existing as [it|]; simpl in *; [|by apply IH].
    destruct (BTreeMap.get a it) eqn:E; [|by apply IH]. intros [= <-].
    by eapply wf_item_get; [apply He|].
  - destruct Hr as [Ha Hb].
    destruct (rhs_item a existing) as [va| |]; [|done|done].
    destruct (rhs_item b existing) as [vb| |]; [|done|done].
    specialize (IHa va Ha eq_refl). specialize (IHb vb Hb eq_refl).
    destruct va; try done; destruct vb; try done. intros [= <-].
    rewrite wf_av_L in *. by apply Forall_app.
Qed.

Lemma add_item_wf o addend v : add_item o addend = Ok v -> wf_av v.
Proof.
  unfold add_item, parse_decimal, not_a_set.
  destruct addend as [|x| | | | | | | |]; try done;
    destruct o as [[| y | | | | | | | |]|]; simpl; try done;
    try destruct (parse_f64 y); simpl; try destruct (parse_f64 x); try done; by intros [= <-].
Qed.

Lemma delete_item_wf o subset v : delete_item o subset = Ok (Some v) -> wf_av v.
Proof.
  destruct subset, o; simpl; try done; unfold some_set; intros [= Hv];
    destruct (difference _ _); simplify_eq; done.
Qed.

Lemma update_item_wf existing expr key it :
  wf_item key -> (forall it, existing = Some it -> wf_item it) ->
  Forall (fun c => wf_rhs (set_value c)) (ue_set expr) ->
  update_item existing expr key = Ok it -> wf_item it.
Proof.
  intros Hkey He Hset (staged & it2 & it3 & Hs & H1 & H2 & H3)%update_item_stages.
  assert (wf_item (BTreeMap.insert_all staged (default key existing))) as W1.
  { apply wf_item_insert_all; [|destruct existing; simpl; auto].
    apply collect_Ok_iff in Hs. clear H1. revert Hset Hs. generalize (ue_set expr) as cs0.
    intros cs0 Hset Hs. induction Hs as [|c [k v] cs st Hc Hl IH]; [done|].
    inversion_clear Hset. constructor; [|by apply IH]. unfold stage_item in Hc.
    destruct (top_name_or_unreachable _); [|done|done].
    destruct (rhs_item _ _) eqn:Hv; [|done|done]. injection Hc as <- <-.
    by eapply rhs_item_wf. }
  assert (wf_item it2) as W2.
  { revert H1. apply fold_result_inv; [|done]. intros s p s' _ Hw. unfold remove_item.
    destruct (top_name_or_unreachable _); [|done|done]. intros [= <-]. by apply wf_item_remove. }
  assert (wf_item it3) as W3.
  { revert H2. apply fold_result_inv; [|done]. intros s p s' _ Hw. unfold add_to_item.
    destruct (top_name_or_unreachable _); [|done|done].
    destruct (add_item _ _) eqn:Ha; [|done|done]. intros [= <-].
    apply wf_item_insert; [by eapply add_item_wf | done]. }
  revert H3. apply fold_result_inv; [|done]. intros s p s' _ Hw. unfold delete_from_item.
  destruct (top_name_or_unreachable _); [|done|done].
  destruct (BTreeMap.get _ s); [|by intros [= <-]].
  destruct (delete_item _ _) as [[v'|]| |] eqn:Hd; [| |done|done]; intros [= <-].
  - apply wf_item_insert; [by eapply delete_item_wf | done].
  - by apply wf_item_remove.
Qed.

(** ** Integer arithmetic *)

Lemma format_integer z : (Z.abs z < 2 ^ 53)%Z -> format_decimal (f64_of_Z z) = i64_to_string z.
Proof.
  intros Hz. destruct (integer_display z Hz) as (H1 & H2 & H3).
  unfold format_decimal. by rewrite H1, H2, H3.
Qed.

Lemma parse_integer z :
  (Z.abs z < 2 ^ 53)%Z -> parse_decimal (i64_to_string z) = Ok (f64_of_Z z).
Proof. intros Hz. unfold parse_decimal. by rewrite parse_i64_exact. Qed.

(** ** Theorems *)

(** C24: on a stored row (the serialisation of an item, or no row) the
    JSON evaluator computes exactly the typed update: same new item,
    same error, same panic. *)
Theorem apply_update_implements_update_item existing expr key :
  apply_update_expression (row_value existing) expr key
  = res_map item_to_value (update_item existing expr key).
Proof. apply apply_update_refines. Qed.

(** C35: evaluating an update whose paths all start with a name never
    panics, and when it succeeds on a well-formed row the result is the
    serialisation of a well-formed item, which deserialises back to it. *)
Theorem update_total_and_well_typed existing expr key :
  named_update expr -> wf_item key -> (forall it, existing = Some it -> wf_item it) ->
  Forall (fun c => wf_rhs (set_value c)) (ue_set expr) ->
  match apply_update_expression (row_value existing) expr key with
  | Ok v => exists it, v = item_to_value it /\ wf_item it /\ item_from_value v = Ok it
  | Err _ => True
  | Panic => False
  end.
Proof.
  intros Hn Hk He Hs. rewrite apply_update_refines.
  pose proof (update_item_no_panic existing expr key Hn).
  destruct (update_item existing expr key) as [it| |] eqn:Hit; [|done|done].
  exists it. pose proof (update_item_wf _ _ _ _ Hk He Hs Hit).
  split_and!; [done | done | by apply item_from_to_value].
Qed.

Lemma apply_update_frame existing expr key v n :
  apply_update_expression (row_value existing) expr key = Ok v -> n ∉ targets expr ->
  value_get v n = value_get (item_to_value (default key existing)) n.
Proof.
  rewrite apply_update_refines. destruct (update_item existing expr key) as [it| |] eqn:Hit;
    [|done|done]. intros [= <-] Hn. simpl. rewrite !get_item_to_value.
  by rewrite (update_item_frame _ _ _ _ _ Hit Hn).
Qed.

(** right-hand sides are read before anything is written. When the
    SET targets are distinct and nothing else touches [n], the new value
    of [n] is its clause's right-hand side evaluated in the original
    row, whatever the other clauses write. *)
Theorem set_reads_original_row existing expr key v c n :
  apply_update_expression (row_value existing) expr key = Ok v ->
  NoDup (set_targets expr) -> c ∈ ue_set expr -> top_name (set_path c) = Some n ->
  n ∉ later_targets expr ->
  exists w, compute_set_rhs (set_value c) (row_value existing) = Ok w /\ value_get v n = Some w.
Proof.
  rewrite apply_update_refines. destruct (update_item existing expr key) as [it| |] eqn:Hit;
    [|done|done]. intros [= <-] Hnd Hc Hn Hl.
  destruct (update_item_set _ _ _ _ _ _ Hit Hnd Hc Hn Hl) as (w & Hw & Hg).
  exists (to_value w). rewrite compute_set_rhs_refines, Hw. simpl.
  by rewrite get_item_to_value, Hg.
Qed.

(** The order of SET clauses with distinct targets does not matter. *)
Theorem set_clause_order_irrelevant existing expr cs key v :
  wf_item (default key existing) -> NoDup (set_targets expr) -> ue_set expr ≡ₚ cs ->
  apply_update_expression (row_value existing) expr key = Ok v ->
  apply_update_expression (row_value existing)
    (mkUpdateExpression cs (ue_remove expr) (ue_add expr) (ue_delete expr)) key = Ok v.
Proof.
  intros [Hwf _] Hnd Hp. rewrite !apply_update_refines. unfold update_item at 1.
  destruct (collect (stage_item existing) (ue_set expr)) as [st| |] eqn:Hs; [|done|done].
  destruct (collect_perm _ _ _ _ Hp Hs) as (st2 & Hs2 & Hst). unfold update_item. simpl.
  rewrite Hs2. rewrite <- (BTreeMap.insert_all_perm st st2); [done|done| |done].
  unfold set_targets in Hnd. by rewrite (staged_targets _ _ _ Hs) in Hnd.
Qed.

(** integer arithmetic is exact. For integers below [2^53] in
    magnitude, [+], [-] and numeric ADD return the decimal form of the
    mathematical result. *)
Theorem integer_arithmetic_exact (a b : Z) :
  (Z.abs a < 2 ^ 53)%Z -> (Z.abs b < 2 ^ 53)%Z ->
  (Z.abs (a + b) < 2 ^ 53)%Z -> (Z.abs (a - b) < 2 ^ 53)%Z ->
  let N z := N_ (i64_to_string z) in
  (forall row, arith (Operand_Value (N a)) (Operand_Value (N b)) row true
               = Ok (to_value (N (a + b)%Z)))
  /\ (forall row, arith (Operand_Value (N a)) (Operand_Value (N b)) row false
                  = Ok (to_value (N (a - b)%Z)))
  /\ apply_add (Some (to_value (N a))) (N b) = Ok (to_value (N (a + b)%Z)).
Proof.
  intros Ha Hb Hs Hd N. unfold arith, N. simpl.
  rewrite !parse_integer, f64_add_exact, f64_sub_exact, !format_integer by done.
  split_and!; [done|done|]. rewrite parse_i64_exact by done. simpl.
  rewrite f64_add_exact, format_integer by done. done.
Qed.

(** Set ADD is union and set DELETE is difference. On string sets:
    ADD keeps the stored order, contains exactly the elements of either
    operand and introduces no duplicate; DELETE keeps exactly the other
    elements, and removes the attribute exactly when none is left. *)
Theorem string_set_add_delete (stored operand : list string) :
  (exists u, apply_add (Some (to_value (Ss_ stored))) (Ss_ operand) = Ok (to_value (Ss_ u))
     /\ (forall x, x ∈ u <-> x ∈ stored \/ x ∈ operand)
     /\ (NoDup stored -> NoDup u) /\ stored `prefix_of` u)
  /\ match apply_delete (to_value (Ss_ stored)) (Ss_ operand) with
     | Ok (Some v) => exists d, v = to_value (Ss_ d) /\ d <> []
         /\ forall x, x ∈ d <-> x ∈ stored /\ x ∉ operand
     | Ok None => forall x, x ∈ stored -> x ∈ operand
     | _ => False
     end.
Proof.
  split.
  - exists (push_new stored operand).
    pose proof (apply_add_refines (Some (Ss_ stored)) (Ss_ operand)) as Ha. simpl in Ha.
    split_and!; [exact Ha | apply push_new_elem | apply push_new_NoDup | apply push_new_prefix].
  - rewrite apply_delete_refines. simpl. unfold some_set.
    assert (forall x, x ∈ difference stored operand <-> x ∈ stored /\ x ∉ operand) as Hd.
    { intros x. unfold difference. rewrite !list_elem_of_In, filter_In, negb_true_iff.
      rewrite contains_false, !list_elem_of_In. done. }
    destruct (difference stored operand) as [|y d]; simpl.
    + intros x Hx. destruct (decide (x ∈ operand)); [done|].
      exfalso. apply (not_elem_of_nil x), Hd. done.
    + exists (y :: d). done.
Qed.
End update.

(** ** Witnesses *)

#[local] Instance display_strings : SerdeJson :=
  {| value_to_string v := match v with VString s => s | _ => EmptyString end |}.

Definition swap_row : Item := [("a", S_ "1"); ("b", S_ "2"); ("pk", S_ "k")].
Definition swap_expr : UpdateExpression :=
  mkUpdateExpression
    [mkSetClause (name_path "a") (SetRhs_Operand (Operand_Path (name_path "b")));
     mkSetClause (name_path "b") (SetRhs_Operand (Operand_Path (name_path "a")))] [] [] [].
Definition swapped_row : Item := [("a", S_ "2"); ("b", S_ "1"); ("pk", S_ "k")].

Lemma swap_row_wf : wf_item swap_row.
Proof. split; [by repeat constructor | by repeat constructor]. Qed.

Lemma swap_expr_named : named_update swap_expr.
Proof. split_and!; repeat constructor; simpl; eauto. Qed.

Lemma swap_result :
  apply_update_expression (row_value (Some swap_row)) swap_expr swap_row
  = Ok (item_to_value swapped_row).
Proof. reflexivity. Qed.

Lemma update_total_witness :
  match apply_update_expression (row_value (Some swap_row)) swap_expr swap_row with
  | Ok v => exists it, v = item_to_value it /\ wf_item it /\ item_from_value v = Ok it
  | Err _ => True
  | Panic => False
  end.
Proof.
  apply (update_total_and_well_typed (Some swap_row) swap_expr swap_row).
  - exact swap_expr_named.
  - exact swap_row_wf.
  - intros it [= <-]. exact swap_row_wf.
  - by repeat constructor.
Defined.

Lemma set_reads_original_witness :
  exists w, compute_set_rhs (SetRhs_Operand (Operand_Path (name_path "a")))
              (row_value (Some swap_row)) = Ok w
            /\ value_get (item_to_value swapped_row) "b" = Some w.
Proof.
  apply (set_reads_original_row (Some swap_row) swap_expr swap_row (item_to_value swapped_row)
           (mkSetClause (name_path "b") (SetRhs_Operand (Operand_Path (name_path "a")))) "b"
           swap_result).
  - apply (bool_decide_unpack _). vm_compute. exact I.
  - right. left.
  - reflexivity.
  - apply (bool_decide_unpack _). vm_compute. exact I.
Defined.

Lemma set_clause_order_witness :
  apply_update_expression (row_value (Some swap_row))
    (mkUpdateExpression (reverse (ue_set swap_expr)) [] [] []) swap_row
  = Ok (item_to_value swapped_row).
Proof.
  apply (set_clause_order_irrelevant (Some swap_row) swap_expr (reverse (ue_set swap_expr))
           swap_row (item_to_value swapped_row)).
  - exact swap_row_wf.
  - apply (bool_decide_unpack _). vm_compute. exact I.
  - symmetry. apply reverse_Permutation.
  - exact swap_result.
Defined.

Lemma integer_arithmetic_witness :
  apply_add (Some (to_value (N_ "9007199254740000"))) (N_ "-42")
  = Ok (to_value (N_ "9007199254739958")).
Proof.
  apply (integer_arithmetic_exact 9007199254740000 (-42)); vm_compute; reflexivity.
Defined.

(** A NaN operand is not rejected: [str::parse::<f64>] accepts it and the
    result is stored as a number. *)
Lemma nan_is_accepted :
  apply_add (Some (to_value (N_ "1"))) (N_ "NaN") = Ok (to_value (N_ "NaN")).
Proof. reflexivity. Qed.
