(* ===== verification/Storage.v ===== *)
(** * The storage interface's data (rekt-storage, [lib.rs])

    Key types and values, the table shape handed to a backend, its
    errors, and the payloads of the backend operations. *)

From S2P Require Import Prelude BTree Json Attr.

Inductive KeyType : Type := KeyType_S | KeyType_N | KeyType_B.

Inductive KeyValue : Type :=
| KeyValue_S (s : string)
| KeyValue_N (n : string)
| KeyValue_B (b : bytes).

#[export] Instance KeyType_eq_dec : EqDecision KeyType.
Proof. solve_decision. Defined.
#[export] Instance KeyValue_eq_dec : EqDecision KeyValue.
Proof. solve_decision. Defined.

(** [KeyValue::key_type]. *)
Definition key_type (k : KeyValue) : KeyType :=
  match k with
  | KeyValue_S _ => KeyType_S
  | KeyValue_N _ => KeyType_N
  | KeyValue_B _ => KeyType_B
  end.

Record DualWriteCol : Type := mkDualWriteCol {
  dw_col : string;
  dw_attr : string;
  dw_key_type : KeyType
}.

#[export] Instance DualWriteCol_eq_dec : EqDecision DualWriteCol.
Proof. solve_decision. Defined.

Record TableShape : Type := mkTableShape {
  shape_table : string;
  shape_pk_col : string;
  shape_pk_type : KeyType;
  shape_sk_col : option string;
  shape_sk_type : option KeyType;
  shape_jsonb_col : string;
  shape_dual_write_cols : list DualWriteCol
}.

(** One slot of [CancellationReasons]. *)
Record TransactCancelReason : Type := mkTransactCancelReason {
  reason_code : string;
  reason_message : option string;
  reason_item : option Value
}.

Inductive BackendError : Type :=
| BackendError_TableNotFound (name : string)
| BackendError_KeyTypeMismatch (col : string) (expected actual : KeyType)
| BackendError_MissingSortKey (name : string)
| BackendError_UnexpectedSortKey (name : string)
| BackendError_ConditionalCheckFailed
| BackendError_PoolExhausted (waited_ms : N)
| BackendError_ConnectFailed (reason : string)
| BackendError_PgError (sqlstate message : string)
| BackendError_TransactionCancelled (reasons : list TransactCancelReason)
| BackendError_Other (message : string).

Inductive WriteOp : Type :=
| WriteOp_Put (pk : KeyValue) (sk : option KeyValue) (item : Value)
| WriteOp_Delete (pk : KeyValue) (sk : option KeyValue).

Inductive SkCondition : Type :=
| SkCondition_Eq (v : KeyValue)
| SkCondition_Lt (v : KeyValue)
| SkCondition_Le (v : KeyValue)
| SkCondition_Gt (v : KeyValue)
| SkCondition_Ge (v : KeyValue)
| SkCondition_Between (lo hi : KeyValue)
| SkCondition_BeginsWithS (prefix : string).

Record QueryOutcome : Type := mkQueryOutcome {
  qo_items : list Value;
  qo_count : N;
  qo_scanned_count : N;
  qo_last_evaluated_key : option (KeyValue * option KeyValue)
}.

Record UpdateOutcome : Type := mkUpdateOutcome {
  uo_new_item : Value;
  uo_old_item : option Value
}.

Inductive UpdateDecision : Type :=
| UpdateDecision_Apply (new_item : Value)
| UpdateDecision_Fail.
