(* ===== verification/Operations.v ===== *)
(** * Request records (rekt-protocol, [operations.rs])

    The requests as serde yields them.  A [HashMap] is the list of its
    entries in the order an iteration visits them. *)

From S2P Require Import Prelude BTree Attr.

Definition Names : Type := btree string.
Definition Values : Type := btree AttributeValue.

Record PutItemRequest : Type := mkPutItemRequest {
  put_table_name : string;
  put_item : Item;
  put_expression_attribute_names : option Names;
  put_expression_attribute_values : option Values;
  put_condition_expression : option string;
  put_return_values : option string
}.

Record GetItemRequest : Type := mkGetItemRequest {
  get_table_name : string;
  get_key : Item
}.

Record DeleteItemRequest : Type := mkDeleteItemRequest {
  delete_table_name : string;
  delete_key : Item;
  delete_expression_attribute_names : option Names;
  delete_expression_attribute_values : option Values;
  delete_condition_expression : option string;
  delete_return_values : option string
}.

Record UpdateItemRequest : Type := mkUpdateItemRequest {
  update_table_name : string;
  update_key : Item;
  update_update_expression : string;
  update_expression_attribute_names : option Names;
  update_expression_attribute_values : option Values;
  update_condition_expression : option string;
  update_return_values : option string
}.

(** [limit] is a [u32]. *)
Record QueryRequest : Type := mkQueryRequest {
  query_table_name : string;
  query_key_condition_expression : string;
  query_expression_attribute_names : option Names;
  query_expression_attribute_values : option Values;
  query_index_name : option string;
  query_consistent_read : option bool;
  query_limit : option N;
  query_exclusive_start_key : option Item;
  query_filter_expression : option string;
  query_scan_index_forward : option bool;
  query_select : option string;
  query_projection_expression : option string
}.

Record ScanRequest : Type := mkScanRequest {
  scan_table_name : string;
  scan_consistent_read : option bool;
  scan_index_name : option string;
  scan_segment : option N;
  scan_total_segments : option N;
  scan_limit : option N;
  scan_exclusive_start_key : option Item;
  scan_filter_expression : option string;
  scan_expression_attribute_names : option Names;
  scan_expression_attribute_values : option Values;
  scan_select : option string;
  scan_projection_expression : option string
}.

Record KeysAndAttributes : Type := mkKeysAndAttributes {
  ka_keys : list Item;
  ka_consistent_read : option bool;
  ka_projection_expression : option string;
  ka_expression_attribute_names : option Names;
  ka_attributes_to_get : option (list string)
}.

Record BatchGetItemRequest : Type := mkBatchGetItemRequest {
  bg_request_items : list (string * KeysAndAttributes);
  bg_return_consumed_capacity : option string
}.

Record PutRequest : Type := mkPutRequest { pr_item : Item }.
Record DeleteRequest : Type := mkDeleteRequest { dr_key : Item }.

Record WriteRequest : Type := mkWriteRequest {
  wr_put_request : option PutRequest;
  wr_delete_request : option DeleteRequest
}.

Record BatchWriteItemRequest : Type := mkBatchWriteItemRequest {
  bw_request_items : list (string * list WriteRequest);
  bw_return_consumed_capacity : option string;
  bw_return_item_collection_metrics : option string
}.

Record Get : Type := mkGet {
  tg_table_name : string;
  tg_key : Item;
  tg_projection_expression : option string;
  tg_expression_attribute_names : option Names
}.

Record TransactGetItem : Type := mkTransactGetItem { tgi_get : option Get }.

Record TransactGetItemsRequest : Type := mkTransactGetItemsRequest {
  tg_transact_items : list TransactGetItem;
  tg_return_consumed_capacity : option string
}.

Record TransactPut : Type := mkTransactPut {
  tp_table_name : string;
  tp_item : Item;
  tp_condition_expression : option string;
  tp_expression_attribute_names : option Names;
  tp_expression_attribute_values : option Values;
  tp_return_values_on_condition_check_failure : option string
}.

Record TransactDelete : Type := mkTransactDelete {
  td_table_name : string;
  td_key : Item;
  td_condition_expression : option string;
  td_expression_attribute_names : option Names;
  td_expression_attribute_values : option Values;
  td_return_values_on_condition_check_failure : option string
}.

Record TransactUpdate : Type := mkTransactUpdate {
  tu_table_name : string;
  tu_key : Item;
  tu_update_expression : string;
  tu_condition_expression : option string;
  tu_expression_attribute_names : option Names;
  tu_expression_attribute_values : option Values;
  tu_return_values_on_condition_check_failure : option string
}.

Record TransactConditionCheck : Type := mkTransactConditionCheck {
  tc_table_name : string;
  tc_key : Item;
  tc_condition_expression : string;
  tc_expression_attribute_names : option Names;
  tc_expression_attribute_values : option Values;
  tc_return_values_on_condition_check_failure : option string
}.

Record TransactWriteItem : Type := mkTransactWriteItem {
  twi_put : option TransactPut;
  twi_delete : option TransactDelete;
  twi_update : option TransactUpdate;
  twi_condition_check : option TransactConditionCheck
}.

Record TransactWriteItemsRequest : Type := mkTransactWriteItemsRequest {
  tw_transact_items : list TransactWriteItem;
  tw_client_request_token : option string;
  tw_return_consumed_capacity : option string;
  tw_return_item_collection_metrics : option string
}.
