(* ===== verification/Schema.v ===== *)
(** * Table schemas (rekt-translator, [schema.rs])

    The schema the translator and the storage layer agree on, the shapes
    derived from it, and the columns a write must fill in for the
    dual-write indexes.  The [HashMap]s of indexes are lists in iteration
    order, which Rust leaves unspecified: [dual_write_cols_order]
    shows the derived columns do not depend on it. *)

From S2P Require Import Prelude BTree Storage.

Record GsiSchema : Type := mkGsiSchema {
  gsi_name : string;
  gsi_partition_attr : string;
  gsi_partition_type : KeyType;
  gsi_partition_pg_col : string;
  gsi_sort_attr : option string;
  gsi_sort_type : option KeyType;
  gsi_sort_pg_col : option string;
  gsi_is_dual_write : bool;
  gsi_serveable : bool;
  gsi_unserveable_reason : option string
}.

Record LsiSchema : Type := mkLsiSchema {
  lsi_name : string;
  lsi_sort_attr : string;
  lsi_sort_type : KeyType;
  lsi_sort_pg_col : string;
  lsi_serveable : bool;
  lsi_unserveable_reason : option string
}.

Record TableSchema : Type := mkTableSchema {
  name : string;
  pg_table : string;
  pk_attr : string;
  pk_type : KeyType;
  sk_attr : option string;
  sk_type : option KeyType;
  jsonb_col : string;
  lsis : list (string * LsiSchema);
  gsis : list (string * GsiSchema)
}.

(** What the catalog guarantees: a sort key has a name and a type
    together, and the two key attributes differ. *)
Definition wf_schema (s : TableSchema) : Prop :=
  (is_Some (sk_attr s) <-> is_Some (sk_type s)) /\ sk_attr s <> Some (pk_attr s).

Definition shape_with_dual_write (s : TableSchema) (cols : list DualWriteCol) : TableShape :=
  mkTableShape (pg_table s) (pk_attr s) (pk_type s) (sk_attr s) (sk_type s) (jsonb_col s) cols.

Definition shape (s : TableSchema) : TableShape :=
  mkTableShape (pg_table s) (pk_attr s) (pk_type s) (sk_attr s) (sk_type s) (jsonb_col s) [].

Definition shape_for_lsi (s : TableSchema) (lsi : LsiSchema) : TableShape :=
  mkTableShape (pg_table s) (pk_attr s) (pk_type s) (Some (lsi_sort_pg_col lsi))
    (Some (lsi_sort_type lsi)) (jsonb_col s) [].

Definition shape_for_gsi (s : TableSchema) (gsi : GsiSchema) : TableShape :=
  mkTableShape (pg_table s) (gsi_partition_pg_col gsi) (gsi_partition_type gsi)
    (gsi_sort_pg_col gsi) (gsi_sort_type gsi) (jsonb_col s) [].

(** ** [dual_write_cols] *)

Definition opt_list {A} (o : option A) : list A :=
  match o with Some a => [a] | None => [] end.

(** The columns PostgreSQL generates: the initial [seen] set. *)
Definition pg_owned (s : TableSchema) : list string :=
  pk_attr s :: opt_list (sk_attr s)
  ++ map (fun kv => lsi_sort_pg_col kv.2) (lsis s)
  ++ concat (map (fun kv => if gsi_is_dual_write kv.2 then []
                            else gsi_partition_pg_col kv.2 :: opt_list (gsi_sort_pg_col kv.2))
                 (gsis s)).

(** [if seen.insert(col) { out.push(..) }]. *)
Definition push_col (st : list string * list DualWriteCol) (c : DualWriteCol)
  : list string * list DualWriteCol :=
  let '(seen, out) := st in
  if contains seen (dw_col c) then (seen, out) else (dw_col c :: seen, out ++ [c]).

(** The key columns of one GSI, partition first. *)
Definition gsi_cols (gsi : GsiSchema) : list DualWriteCol :=
  mkDualWriteCol (gsi_partition_pg_col gsi) (gsi_partition_attr gsi) (gsi_partition_type gsi)
  :: match gsi_sort_pg_col gsi, gsi_sort_attr gsi, gsi_sort_type gsi with
     | Some col, Some attr, Some t => [mkDualWriteCol col attr t]
     | _, _, _ => []
     end.

Definition candidate_cols (s : TableSchema) : list DualWriteCol :=
  concat (map (fun kv => if gsi_is_dual_write kv.2 then gsi_cols kv.2 else []) (gsis s)).

(** [out.sort_by(|a, b| a.col.cmp(b.col))], a stable sort. *)
Fixpoint insert_col (c : DualWriteCol) (l : list DualWriteCol) : list DualWriteCol :=
  match l with
  | [] => [c]
  | d :: l' => match String.compare (dw_col c) (dw_col d) with
               | Lt | Eq => c :: l
               | Gt => d :: insert_col c l'
               end
  end.
Definition sort_cols (l : list DualWriteCol) : list DualWriteCol := foldr insert_col [] l.

Definition dual_write_cols (s : TableSchema) : list DualWriteCol :=
  let '(_, out) := fold_left push_col (candidate_cols s) (pg_owned s, []) in
  sort_cols out.

(** ** Facts *)

Lemma insert_col_perm c l : insert_col c l ≡ₚ c :: l.
Proof.
  induction l as [|d l IH]; simpl; [done|].
  destruct (String.compare _ _); [done|done|]. by rewrite IH, Permutation_swap.
Qed.

Lemma sort_cols_perm l : sort_cols l ≡ₚ l.
Proof. induction l as [|c l IH]; simpl; [done|]. by rewrite insert_col_perm, IH. Qed.

Definition col_lt (c d : DualWriteCol) : Prop := str_lt (dw_col c) (dw_col d).

Lemma sort_cols_sorted l :
  NoDup (map dw_col l) -> StronglySorted col_lt (sort_cols l).
Proof.
  induction l as [|c l IH]; simpl; intros Hnd; [constructor|].
  apply NoDup_cons in Hnd as [Hc Hnd]. specialize (IH Hnd).
  assert (dw_col c ∉ map dw_col (sort_cols l)) as Hc'.
  { intros Hin. apply Hc. by rewrite <- (sort_cols_perm l) at 1. }
  clear Hc Hnd. revert IH Hc'. induction (sort_cols l) as [|d r IHr]; intros Hs Hc; simpl.
  { repeat constructor. }
  inversion Hs as [|? ? Hr Hd]; subst. simpl in Hc. apply not_elem_of_cons in Hc as [Hne Hc].
  destruct (String.compare (dw_col c) (dw_col d)) eqn:E.
  - by apply str_compare_eq in E.
  - constructor; [done|]. constructor; [done|]. eapply Forall_impl; [exact Hd|].
    intros x. by apply str_lt_trans.
  - constructor; [by apply IHr|]. rewrite insert_col_perm. constructor; [|done].
    by apply str_compare_gt.
Qed.

(** The loop keeps the first candidate of each column that is not owned. *)
Lemma push_cols_spec cands seen out :
  (forall c, c ∈ out -> dw_col c ∈ seen) -> NoDup (map dw_col out) ->
  let r := fold_left push_col cands (seen, out) in
  NoDup (map dw_col r.2)
  /\ (forall c, c ∈ r.2 -> c ∈ out \/ (c ∈ cands /\ dw_col c ∉ seen))
  /\ (forall x, x ∈ map dw_col r.2 <->
        x ∈ map dw_col out \/ (x ∈ map dw_col cands /\ x ∉ seen)).
Proof.
  revert seen out; induction cands as [|c cands IH]; intros seen out Hout Hnd; simpl.
  { split_and!; [done | by left |]. intros x. rewrite elem_of_nil. tauto. }
  destruct (contains seen (dw_col c)) eqn:E.
  - apply contains_true in E. destruct (IH seen out Hout Hnd) as (H1 & H2 & H3).
    split_and!; [done | |].
    + intros d Hd. destruct (H2 d Hd) as [|[? ?]]; [by left | right]. by rewrite elem_of_cons; auto.
    + intros x. rewrite H3, elem_of_cons. intuition congruence.
  - apply contains_false in E.
    assert (dw_col c ∉ map dw_col out) as Hnew.
    { intros (d & Hd & Hin)%list_elem_of_fmap. apply E. rewrite Hd. by apply Hout. }
    destruct (IH (dw_col c :: seen) (out ++ [c])) as (H1 & H2 & H3).
    + intros d [Hd| ->%list_elem_of_singleton]%elem_of_app; rewrite elem_of_cons; auto.
    + rewrite map_app. apply NoDup_app. simpl. split_and!; [done | | apply NoDup_singleton].
      intros x Hx ->%list_elem_of_singleton. done.
    + split_and!; [done | |].
      * intros d Hd. rewrite elem_of_cons.
        destruct (H2 d Hd) as [[?| ->%list_elem_of_singleton]%elem_of_app|[? Hs]];
          [by left | by right; auto | right].
        rewrite elem_of_cons in Hs. tauto.
      * intros x. rewrite H3, map_app, elem_of_app, !elem_of_cons. simpl.
        rewrite list_elem_of_singleton. destruct (decide (x = dw_col c)) as [->|]; tauto.
Qed.

Lemma dual_write_cols_facts s :
  StronglySorted col_lt (dual_write_cols s)
  /\ (forall c, c ∈ dual_write_cols s -> c ∈ candidate_cols s /\ dw_col c ∉ pg_owned s)
  /\ (forall x, x ∈ map dw_col (dual_write_cols s) <->
        x ∈ map dw_col (candidate_cols s) /\ x ∉ pg_owned s).
Proof.
  unfold dual_write_cols.
  destruct (push_cols_spec (candidate_cols s) (pg_owned s) []) as (H1 & H2 & H3);
    [by intros c Hc%elem_of_nil | constructor |].
  destruct (fold_left _ _ _) as [seen out]; simpl in *. split_and!.
  - by apply sort_cols_sorted.
  - intros c Hc. rewrite sort_cols_perm in Hc. destruct (H2 c Hc) as [Hn|?]; [|done].
    by apply elem_of_nil in Hn.
  - intros x. rewrite (sort_cols_perm out), H3, elem_of_nil. tauto.
Qed.

(** A strictly sorted list is determined by its elements. *)
Lemma col_sorted_unique l1 l2 :
  StronglySorted col_lt l1 -> StronglySorted col_lt l2 ->
  (forall c, c ∈ l1 <-> c ∈ l2) -> l1 = l2.
Proof.
  revert l2; induction l1 as [|c l1 IH]; intros l2 H1 H2 Hel.
  - destruct l2 as [|d l2]; [done|]. destruct (not_elem_of_nil d). apply Hel. left.
  - destruct l2 as [|d l2]; [destruct (not_elem_of_nil c); apply Hel; left|].
    inversion H1 as [|? ? S1 F1]; inversion H2 as [|? ? S2 F2]; subst.
    rewrite Forall_forall in F1, F2.
    assert (c = d) as ->.
    { assert (c ∈ d :: l2) as Hc by (apply Hel; left).
      assert (d ∈ c :: l1) as Hd by (apply Hel; left).
      apply elem_of_cons in Hc as [|Hc], Hd as [|Hd]; try done.
      destruct (str_lt_antisym (dw_col c) (dw_col d)); [by apply F1 | by apply F2]. }
    f_equal. apply IH; [done|done|]. intros x. split; intros Hx.
    + assert (x ∈ d :: l2) as [->|]%elem_of_cons; [apply Hel; by right | | done].
      exfalso. by apply (str_lt_irrefl (dw_col d)), F1.
    + assert (x ∈ d :: l1) as [->|]%elem_of_cons; [apply Hel; by right | | done].
      exfalso. by apply (str_lt_irrefl (dw_col d)), F2.
Qed.

(** Two indexes that share a column agree on its attribute and type. *)
Definition consistent_cols (s : TableSchema) : Prop :=
  forall c d, c ∈ candidate_cols s -> d ∈ candidate_cols s -> dw_col c = dw_col d -> c = d.

Definition with_indexes (s : TableSchema) (l : list (string * LsiSchema))
  (g : list (string * GsiSchema)) : TableSchema :=
  mkTableSchema (name s) (pg_table s) (pk_attr s) (pk_type s) (sk_attr s) (sk_type s)
    (jsonb_col s) l g.

Lemma concat_map_perm {A B} (f : A -> list B) l1 l2 :
  l1 ≡ₚ l2 -> concat (map f l1) ≡ₚ concat (map f l2).
Proof.
  induction 1 as [|x l1 l2 Hp IH|x y l|l1 l2 l3 H1 IH1 H2 IH2]; simpl; [done| | |].
  - by rewrite IH.
  - rewrite !app_assoc. f_equiv. apply Permutation_app_comm.
  - by rewrite IH1.
Qed.

(** ** Theorems *)

(** the dual-write columns of a schema are strictly increasing by
    name (so distinct), are key columns of dual-write indexes, never a
    column PostgreSQL generates, and every other key column of a
    dual-write index is among them. *)
Theorem dual_write_cols_correct s :
  StronglySorted col_lt (dual_write_cols s)
  /\ (forall c, c ∈ dual_write_cols s -> c ∈ candidate_cols s /\ dw_col c ∉ pg_owned s)
  /\ (forall x, x ∈ map dw_col (dual_write_cols s) <->
        x ∈ map dw_col (candidate_cols s) /\ x ∉ pg_owned s).
Proof. apply dual_write_cols_facts. Qed.

(** The iteration order of the index maps does not matter: schemas
    that list the same indexes in another order have the same dual-write
    columns, in the same order. *)
Theorem dual_write_cols_order s l g :
  consistent_cols s -> lsis s ≡ₚ l -> gsis s ≡ₚ g ->
  dual_write_cols (with_indexes s l g) = dual_write_cols s.
Proof.
  intros Hc Hl Hg. set (s' := with_indexes s l g).
  assert (candidate_cols s' ≡ₚ candidate_cols s) as Hcand.
  { unfold candidate_cols. simpl. by apply concat_map_perm. }
  assert (pg_owned s' ≡ₚ pg_owned s) as Hown.
  { unfold pg_owned. simpl. f_equiv. f_equiv. rewrite <- Hl. f_equiv.
    by apply concat_map_perm. }
  destruct (dual_write_cols_facts s) as (S1 & I1 & C1).
  destruct (dual_write_cols_facts s') as (S2 & I2 & C2).
  apply col_sorted_unique; [done|done|].
  assert (forall t1 t2, (forall x, x ∈ map dw_col (dual_write_cols t1) ->
                                   x ∈ map dw_col (dual_write_cols t2)) ->
            (forall c, c ∈ dual_write_cols t1 -> c ∈ candidate_cols s) ->
            (forall c, c ∈ dual_write_cols t2 -> c ∈ candidate_cols s) ->
            forall c, c ∈ dual_write_cols t1 -> c ∈ dual_write_cols t2) as Hsub.
  { intros t1 t2 Hx H1 H2 c Hin.
    destruct (list_elem_of_fmap_1 _ _ _ (Hx _ (list_elem_of_fmap_2 dw_col _ _ Hin)))
      as (d & Hd & Hin2).
    by rewrite (Hc c d (H1 c Hin) (H2 d Hin2) Hd). }
  intros c. split; apply Hsub; intros x; rewrite ?C1, ?C2, ?Hcand, ?Hown; try done;
    intros Hx; first [by apply I1 | by rewrite <- Hcand; apply I2].
Qed.

Definition two_gsis : list (string * GsiSchema) :=
  [("by_tier", mkGsiSchema "by_tier" "tier" KeyType_S "tier" (Some "score") (Some KeyType_N)
      (Some "score") true true None);
   ("by_score", mkGsiSchema "by_score" "score" KeyType_N "score" None None None true true None)].
Definition users_schema : TableSchema :=
  mkTableSchema "Users" "users" "id" KeyType_S (Some "ts") (Some KeyType_N) "data" [] two_gsis.

Lemma dual_write_cols_order_witness :
  dual_write_cols (with_indexes users_schema [] (reverse two_gsis))
  = [mkDualWriteCol "score" "score" KeyType_N; mkDualWriteCol "tier" "tier" KeyType_S].
Proof.
  rewrite (dual_write_cols_order users_schema [] (reverse two_gsis)).
  - reflexivity.
  - intros c d Hc Hd. vm_compute in Hc, Hd.
    repeat (apply elem_of_cons in Hc as [-> | Hc]); [..|by apply elem_of_nil in Hc];
    repeat (apply elem_of_cons in Hd as [-> | Hd]); try (by apply elem_of_nil in Hd); done.
  - reflexivity.
  - symmetry. apply reverse_Permutation.
Defined.
