(* ===== verification/Errors.v ===== *)
(** * Translation errors (rekt-translator, [error.rs]) *)

From S2P Require Import Prelude RustStr Ast Winnow Parser Substitute Storage.

Inductive TranslateError : Type :=
| TranslateError_MissingPartitionKey (attr : string)
| TranslateError_MissingSortKey (attr : string)
| TranslateError_PartitionKeyTypeMismatch (attr : string) (expected : KeyType) (got : string)
| TranslateError_SortKeyTypeMismatch (attr : string) (expected : KeyType) (got : string)
| TranslateError_ExtraKeyAttribute (attr : string)
| TranslateError_EmptyUpdateExpression
| TranslateError_InvalidUpdateExpression (message : string)
| TranslateError_UnknownPlaceholder (message : string)
| TranslateError_UpdateTouchesKey (attr : string)
| TranslateError_UnsupportedNestedPath (path : string)
| TranslateError_UnsupportedSetRhs (shape : string)
| TranslateError_InvalidAddValueType (got : string)
| TranslateError_InvalidDeleteValueType (got : string)
| TranslateError_InvalidConditionExpression (message : string)
| TranslateError_ReservedWordInUpdateExpression (word : string)
| TranslateError_ReservedWordInConditionExpression (word : string)
| TranslateError_UnsupportedConditionInFastPath
| TranslateError_UnsupportedConditionNestedPath (path : string)
| TranslateError_UnsupportedReturnValues (got : string)
| TranslateError_UnsupportedReturnValuesForOp (op : string) (got : string)
| TranslateError_KeyConditionMissingPkEquality (attr : string)
| TranslateError_KeyConditionNonKeyAttr (attr : string)
| TranslateError_KeyConditionUnsupportedShape (reason : string)
| TranslateError_KeyConditionPkMustBeEquality (attr : string) (op : string)
| TranslateError_KeyConditionRhsMustBeValue
| TranslateError_KeyConditionBeginsWithRequiresStringSk (attr : string) (got : KeyType)
| TranslateError_KeyConditionSkTypeMismatch (attr : string) (expected : KeyType) (got : string)
| TranslateError_KeyConditionPkTypeMismatch (attr : string) (expected : KeyType) (got : string)
| TranslateError_InvalidLimit (got : N)
| TranslateError_InvalidExclusiveStartKey (reason : string)
| TranslateError_ExclusiveStartKeyPkMismatch (attr : string)
| TranslateError_ScanFeatureNotSupported (what : string)
| TranslateError_IndexNotFound (index : string)
| TranslateError_IndexNotServeable (index : string) (reason : string)
| TranslateError_UnsupportedSelect (got : string)
| TranslateError_InvalidSelectMode (reason : string)
| TranslateError_InvalidProjectionExpression (reason : string)
| TranslateError_ProjectionNestedPathUnsupported (path : string)
| TranslateError_ReservedWordInProjectionExpression (word : string)
| TranslateError_EmptyBatchGetRequest
| TranslateError_EmptyKeysInBatchGet (table : string)
| TranslateError_TooManyKeysInBatchGet (got : N) (max : N)
| TranslateError_DuplicateKeyInBatch
| TranslateError_AttributesToGetNotSupported
| TranslateError_ResourceNotFoundForBatch (table : string)
| TranslateError_EmptyBatchWriteRequest
| TranslateError_EmptyWritesInBatch (table : string)
| TranslateError_TooManyWritesInBatch (got : N) (max : N)
| TranslateError_MalformedWriteRequest
| TranslateError_EmptyTransactRequest
| TranslateError_TooManyTransactItems (got : N) (max : N)
| TranslateError_MalformedTransactItem (expected : string)
| TranslateError_DuplicateTransactTarget
| TranslateError_ResourceNotFoundForTransact (table : string).

(** [impl Display for ParseError] (thiserror). *)
Definition parse_error_to_string (e : ParseError) : string :=
  match e with
  | ParseError_Invalid kind position message =>
      kind +:+ " parse error at position " +:+ usize_to_string (N.of_nat position)
      +:+ ": " +:+ message
  | ParseError_Empty kind => kind +:+ " is empty"
  | ParseError_DuplicateKeyword clause =>
      "UpdateExpression contains duplicate `" +:+ clause
      +:+ "` keyword — DDB requires actions of one kind to be grouped under a single `SET`/`REMOVE`/`ADD`/`DELETE` keyword"
  end.

(** [impl From<ParseError> for TranslateError]. *)
Definition from_parse_error (e : ParseError) : TranslateError :=
  let is_condition :=
    match e with
    | ParseError_Invalid kind _ _ => String.eqb kind "ConditionExpression"
    | ParseError_Empty kind => String.eqb kind "ConditionExpression"
    | ParseError_DuplicateKeyword _ => false
    end in
  if is_condition then TranslateError_InvalidConditionExpression (parse_error_to_string e)
  else TranslateError_InvalidUpdateExpression (parse_error_to_string e).

(** [impl From<SubstituteError> for TranslateError]. *)
Definition from_substitute_error (e : SubstituteError) : TranslateError :=
  match e with
  | SubstituteError_UnknownName name => TranslateError_UnknownPlaceholder ("#" +:+ name)
  | SubstituteError_UnknownValue name => TranslateError_UnknownPlaceholder (":" +:+ name)
  | SubstituteError_ReservedWord word => TranslateError_ReservedWordInUpdateExpression word
  end.

Definition map_substitute_for_condition (e : SubstituteError) : TranslateError :=
  match e with
  | SubstituteError_ReservedWord word => TranslateError_ReservedWordInConditionExpression word
  | other => from_substitute_error other
  end.
