(* ===== verification/Plan.v ===== *)
(** * Plans (rekt-translator, [plan.rs])

    The backend-neutral plans the translator produces. *)

From S2P Require Import Prelude BTree Json Attr Ast Storage.

Inductive ReturnValuesMode : Type :=
| ReturnValuesMode_None
| ReturnValuesMode_AllNew
| ReturnValuesMode_AllOld
| ReturnValuesMode_UpdatedNew
| ReturnValuesMode_UpdatedOld.

Inductive ConditionRouting : Type :=
| ConditionRouting_InsertOnlyOnPk
| ConditionRouting_SimpleSql
| ConditionRouting_NeedsTx.

#[export] Instance ReturnValuesMode_eq_dec : EqDecision ReturnValuesMode.
Proof. solve_decision. Defined.
#[export] Instance ConditionRouting_eq_dec : EqDecision ConditionRouting.
Proof. solve_decision. Defined.

Record ConditionPlan : Type := mkConditionPlan {
  cp_routing : ConditionRouting;
  cp_condition : Condition
}.

Record PutItemPlan : Type := mkPutItemPlan {
  pp_pk : KeyValue;
  pp_sk : option KeyValue;
  pp_item_json : Value;
  pp_condition : option ConditionPlan;
  pp_return_values : ReturnValuesMode
}.

Record GetItemPlan : Type := mkGetItemPlan {
  gp_pk : KeyValue;
  gp_sk : option KeyValue
}.

Record DeleteItemPlan : Type := mkDeleteItemPlan {
  dp_pk : KeyValue;
  dp_sk : option KeyValue;
  dp_condition : option ConditionPlan;
  dp_return_values : ReturnValuesMode
}.

Record UpdateItemPlan : Type := mkUpdateItemPlan {
  up_pk : KeyValue;
  up_sk : option KeyValue;
  up_expression : UpdateExpression;
  up_condition : option ConditionPlan;
  up_return_values : ReturnValuesMode
}.

Record IndexColumn : Type := mkIndexColumn {
  ic_pg_col : string;
  ic_key_type : KeyType
}.

Record IndexSort : Type := mkIndexSort {
  is_index_name : string;
  is_partition_override : option IndexColumn;
  is_sort : option IndexColumn
}.

Record ScanPlan : Type := mkScanPlan {
  sp_limit : option N;
  sp_esk_pk : option KeyValue;
  sp_esk_sk : option KeyValue;
  sp_filter : option ConditionPlan;
  sp_select_count_only : bool;
  sp_projection : option bset;
  sp_index_sort : option IndexSort
}.

Record QueryPlan : Type := mkQueryPlan {
  qp_pk : KeyValue;
  qp_sk_condition : option SkCondition;
  qp_limit : option N;
  qp_esk_sk : option KeyValue;
  qp_filter : option ConditionPlan;
  qp_forward : bool;
  qp_select_count_only : bool;
  qp_projection : option bset;
  qp_index_sort : option IndexSort
}.

Record SimpleUpdatePrimitives : Type := mkSimpleUpdatePrimitives {
  sup_insert_item : Value;
  sup_sets : list (string * Value);
  sup_removes : list string
}.

Record SimpleSqlUpdatePrimitives : Type := mkSimpleSqlUpdatePrimitives {
  ssup_sets : list (string * Value);
  ssup_removes : list string
}.

Record BatchGetPerTable : Type := mkBatchGetPerTable {
  bgt_table_name : string;
  bgt_keys : list (KeyValue * option KeyValue);
  bgt_projection : option bset;
  bgt_consistent_read : bool
}.

Record BatchGetItemPlan : Type := mkBatchGetItemPlan { bgp_per_table : list BatchGetPerTable }.

Record BatchWritePerTable : Type := mkBatchWritePerTable {
  bwt_table_name : string;
  bwt_ops : list WriteOp
}.

Record BatchWriteItemPlan : Type := mkBatchWriteItemPlan {
  bwp_per_table : list BatchWritePerTable
}.

Record TransactGetPlanItem : Type := mkTransactGetPlanItem {
  tgp_table_name : string;
  tgp_pk : KeyValue;
  tgp_sk : option KeyValue;
  tgp_projection : option bset
}.

Record TransactGetItemsPlan : Type := mkTransactGetItemsPlan {
  tgp_items : list TransactGetPlanItem
}.

Inductive TransactWriteKind : Type :=
| TransactWriteKind_Put (item_json : Value)
| TransactWriteKind_Delete
| TransactWriteKind_ConditionCheck
| TransactWriteKind_Update (expression : UpdateExpression) (key : Item).

Record TransactWritePlanItem : Type := mkTransactWritePlanItem {
  twp_table_name : string;
  twp_pk : KeyValue;
  twp_sk : option KeyValue;
  twp_kind : TransactWriteKind;
  twp_condition : option ConditionPlan;
  twp_return_old_on_failure : bool
}.

Record TransactWriteItemsPlan : Type := mkTransactWriteItemsPlan {
  twp_items : list TransactWritePlanItem
}.

(** [if let Some(n) = p.top_name() { paths.insert(n) }]. *)
Definition insert_top_name (paths : bset) (p : Path) : bset :=
  match top_name p with
  | Some n => BTreeSet.insert n paths
  | None => paths
  end.

Definition touched_paths (expr : UpdateExpression) : bset :=
  let paths := BTreeSet.empty in
  let paths := fold_left (fun s c => insert_top_name s (set_path c)) (ue_set expr) paths in
  let paths := fold_left insert_top_name (ue_remove expr) paths in
  let paths := fold_left (fun s a => insert_top_name s (add_path a)) (ue_add expr) paths in
  fold_left (fun s d => insert_top_name s (del_path d)) (ue_delete expr) paths.

Lemma insert_top_names_spec {A} (f : A -> Path) (l : list A) (s : bset) k :
  BTreeSet.contains k (fold_left (fun s x => insert_top_name s (f x)) l s) = true
  <-> BTreeSet.contains k s = true \/ k ∈ omap (fun x => top_name (f x)) l.
Proof.
  revert s; induction l as [|x l IH]; intros s.
  { simpl. rewrite elem_of_nil. tauto. }
  cbn [fold_left]. rewrite IH. cbn [omap list_omap]. unfold insert_top_name.
  destruct (top_name (f x)) as [n|]; [|tauto].
  rewrite BTreeSet.contains_insert, elem_of_cons. intuition congruence.
Qed.
