(* ===== verification/Keys.v ===== *)
(** * Key extraction (rekt-translator, [keys.rs]) *)

From S2P Require Import Prelude BTree Attr Storage Errors Schema.

Inductive KeyRole : Type := KeyRole_Pk | KeyRole_Sk.

Definition extract_key (m : Item) (attr : string) (expected : KeyType) (role : KeyRole)
  : Result TranslateError KeyValue :=
  let? av := ok_or (BTreeMap.get attr m)
    match role with
    | KeyRole_Pk => TranslateError_MissingPartitionKey attr
    | KeyRole_Sk => TranslateError_MissingSortKey attr
    end in
  match expected, av with
  | KeyType_S, S_ s => Ok (KeyValue_S s)
  | KeyType_N, N_ s => Ok (KeyValue_N s)
  | KeyType_B, B_ b => Ok (KeyValue_B b)
  | _, other =>
      Err match role with
          | KeyRole_Pk => TranslateError_PartitionKeyTypeMismatch attr expected (type_name other)
          | KeyRole_Sk => TranslateError_SortKeyTypeMismatch attr expected (type_name other)
          end
  end.

Definition extract_key_pair (item : Item) (schema : TableSchema)
  : Result TranslateError (KeyValue * option KeyValue) :=
  let? pk := extract_key item (pk_attr schema) (pk_type schema) KeyRole_Pk in
  match sk_attr schema, sk_type schema with
  | Some attr, Some t =>
      let? sk := extract_key item attr t KeyRole_Sk in
      Ok (pk, Some sk)
  | _, _ => Ok (pk, None)
  end.

(** [attr == pk_attr || sk_attr == Some(attr)]. *)
Definition is_key_attr (schema : TableSchema) (attr : string) : bool :=
  String.eqb attr (pk_attr schema) || eqb (sk_attr schema) (Some attr).

Definition reject_extra_key_attrs (key : Item) (schema : TableSchema)
  : Result TranslateError unit :=
  for_each (fun attr => if negb (is_key_attr schema attr)
                        then Err (TranslateError_ExtraKeyAttribute attr) else Ok tt)
    (BTreeMap.keys key).

(** ** Facts *)

(** The attribute value a key value is bound from ([kv_to_av] of
    [paging.rs]). *)
Definition kv_to_av (kv : KeyValue) : AttributeValue :=
  match kv with
  | KeyValue_S s => S_ s
  | KeyValue_N s => N_ s
  | KeyValue_B b => B_ b
  end.

Lemma extract_key_Ok m attr t role kv :
  extract_key m attr t role = Ok kv <->
  BTreeMap.get attr m = Some (kv_to_av kv) /\ key_type kv = t.
Proof.
  unfold extract_key. destruct (BTreeMap.get attr m) as [av|]; simpl; [|naive_solver].
  destruct t, av; simpl; split; try (by destruct kv; simpl; naive_solver); try done;
    try (intros [= <-]; done); intros [Hav Hk]; destruct kv; simplify_eq; done.
Qed.

Lemma extract_key_no_panic m attr t role : extract_key m attr t role <> Panic.
Proof.
  unfold extract_key. destruct (BTreeMap.get attr m) as [av|]; simpl; [|done].
  by destruct t, av.
Qed.

(** The key attributes of a schema. *)
Definition key_attrs (s : TableSchema) : list string := pk_attr s :: opt_list (sk_attr s).

Lemma is_key_attr_spec s attr : is_key_attr s attr = true <-> attr ∈ key_attrs s.
Proof.
  unfold is_key_attr, key_attrs. rewrite orb_true_iff, String.eqb_eq, eqb_true, elem_of_cons.
  destruct (sk_attr s); simpl; rewrite ?list_elem_of_singleton, ?elem_of_nil; naive_solver.
Qed.

(** A key pair is accepted exactly when each declared key attribute is
    present at its declared type; the pair is those values. *)
Definition is_key_pair (item : Item) (s : TableSchema) (k : KeyValue * option KeyValue) : Prop :=
  BTreeMap.get (pk_attr s) item = Some (kv_to_av k.1) /\ key_type k.1 = pk_type s /\
  match sk_attr s, sk_type s, k.2 with
  | Some attr, Some t, Some v => BTreeMap.get attr item = Some (kv_to_av v) /\ key_type v = t
  | Some _, Some _, None => False
  | _, _, Some _ => False
  | _, _, None => True
  end.

Lemma extract_key_pair_Ok item s k :
  extract_key_pair item s = Ok k <-> is_key_pair item s k.
Proof.
  unfold extract_key_pair, is_key_pair. destruct k as [pk sk]; simpl.
  assert (extract_key item (pk_attr s) (pk_type s) KeyRole_Pk = Ok pk <->
          BTreeMap.get (pk_attr s) item = Some (kv_to_av pk) /\ key_type pk = pk_type s)
    as Hpk by apply extract_key_Ok.
  destruct (extract_key item (pk_attr s) (pk_type s) KeyRole_Pk) as [pk'|e|] eqn:Ep;
    [|naive_solver|naive_solver].
  destruct (sk_attr s) as [attr|], (sk_type s) as [t|]; simpl; try (destruct sk; naive_solver).
  destruct (extract_key item attr t KeyRole_Sk) as [sk'|e|] eqn:Es.
  - apply extract_key_Ok in Es as [E1 E2]. destruct sk as [v|]; [|naive_solver].
    split; [naive_solver|]. intros (H1 & H2 & H3 & H4).
    assert (pk' = pk) as -> by naive_solver.
    rewrite E1 in H3. destruct sk', v; naive_solver.
  - split; [done|]. intros (H1 & H2 & H3). destruct sk as [v|]; [|done].
    apply extract_key_Ok with (role := KeyRole_Sk) in H3. congruence.
  - by apply extract_key_no_panic in Es.
Qed.

Lemma reject_extra_Ok key s :
  reject_extra_key_attrs key s = Ok tt <-> forall a, a ∈ BTreeMap.keys key -> a ∈ key_attrs s.
Proof.
  unfold reject_extra_key_attrs. rewrite for_each_Ok_iff, Forall_forall.
  split; intros Hall a Ha; specialize (Hall a Ha); rewrite <- is_key_attr_spec in *;
    destruct (is_key_attr s a); simpl in *; congruence.
Qed.

