(* ===== verification/Checks.v ===== *)
(** * Validation of expressions (rekt-translator, [checks.rs] and
      [classify.rs])

    Path and value-type checks on resolved expressions, and the
    classifier that routes a condition to a storage path. *)

From S2P Require Import Prelude RustStr BTree Json Attr Ast Storage Errors Schema Plan Keys EvalUpdate.

Fixpoint format_segments (i : nat) (l : list PathSegment) : string :=
  match l with
  | [] => EmptyString
  | PathSegment_Name n :: l =>
      (if Nat.ltb 0 i then "." else EmptyString) +:+ n +:+ format_segments (S i) l
  | PathSegment_Index n :: l => "[" +:+ usize_to_string n +:+ "]" +:+ format_segments (S i) l
  end.
Definition format_path (p : Path) : string := format_segments 0 (segments p).

Definition check_top_level (p : Path) : Result TranslateError unit :=
  if is_top_level p then Ok tt else Err (TranslateError_UnsupportedNestedPath (format_path p)).

Definition check_not_key (p : Path) (schema : TableSchema) : Result TranslateError unit :=
  match top_name p with
  | None => Ok tt
  | Some n => if is_key_attr schema n then Err (TranslateError_UpdateTouchesKey n) else Ok tt
  end.

Definition check_operand_path_top_level (o : Operand) : Result TranslateError unit :=
  match o with
  | Operand_Path p => check_top_level p
  | Operand_Value _ => Ok tt
  end.

Fixpoint check_set_rhs_paths_top_level (rhs : SetRhs) : Result TranslateError unit :=
  match rhs with
  | SetRhs_Operand o => check_operand_path_top_level o
  | SetRhs_Plus a b | SetRhs_Minus a b =>
      let? _ := check_operand_path_top_level a in check_operand_path_top_level b
  | SetRhs_IfNotExists p inner =>
      let? _ := check_top_level p in check_set_rhs_paths_top_level inner
  | SetRhs_ListAppend a b =>
      let? _ := check_set_rhs_paths_top_level a in check_set_rhs_paths_top_level b
  end.

Definition check_add_value_type (v : AttributeValue) : Result TranslateError unit :=
  match v with
  | N_ _ | Ss_ _ | Ns_ _ | Bs_ _ => Ok tt
  | other => Err (TranslateError_InvalidAddValueType (type_name other))
  end.

Definition check_delete_value_type (v : AttributeValue) : Result TranslateError unit :=
  match v with
  | Ss_ _ | Ns_ _ | Bs_ _ => Ok tt
  | other => Err (TranslateError_InvalidDeleteValueType (type_name other))
  end.

Definition check_condition_path (p : Path) : Result TranslateError unit :=
  if is_top_level p then Ok tt
  else Err (TranslateError_UnsupportedConditionNestedPath (format_path p)).

Definition check_condition_operand (o : Operand) : Result TranslateError unit :=
  match o with
  | Operand_Path p => check_condition_path p
  | Operand_Value _ => Ok tt
  end.

Fixpoint check_condition_paths_top_level (cond : Condition) : Result TranslateError unit :=
  match cond with
  | Condition_AttributeExists p | Condition_AttributeNotExists p => check_condition_path p
  | Condition_Compare _ l r =>
      let? _ := check_condition_operand l in check_condition_operand r
  | Condition_BeginsWith p o | Condition_Contains p o | Condition_AttributeType p o =>
      let? _ := check_condition_path p in check_condition_operand o
  | Condition_Between v lo hi =>
      let? _ := check_condition_operand v in
      let? _ := check_condition_operand lo in
      check_condition_operand hi
  | Condition_In v items =>
      let? _ := check_condition_operand v in for_each check_condition_operand items
  | Condition_And a b | Condition_Or a b =>
      let? _ := check_condition_paths_top_level a in check_condition_paths_top_level b
  | Condition_Not inner => check_condition_paths_top_level inner
  end.

(** The per-clause walk of [translate_update_item], which
    [translate_transact_write_items] repeats. *)
Definition check_update_expression (e : UpdateExpression) (schema : TableSchema)
  : Result TranslateError unit :=
  let? _ := for_each (fun c =>
    let? _ := check_top_level (set_path c) in
    let? _ := check_not_key (set_path c) schema in
    check_set_rhs_paths_top_level (set_value c)) (ue_set e) in
  let? _ := for_each (fun p =>
    let? _ := check_top_level p in
    check_not_key p schema) (ue_remove e) in
  let? _ := for_each (fun a =>
    let? _ := check_top_level (add_path a) in
    let? _ := check_not_key (add_path a) schema in
    check_add_value_type (add_value a)) (ue_add e) in
  for_each (fun d =>
    let? _ := check_top_level (del_path d) in
    let? _ := check_not_key (del_path d) schema in
    check_delete_value_type (del_value d)) (ue_delete e).

(** ** [classify.rs] *)

Definition ordering_has_typed_extraction (l r : Operand) : bool :=
  match l, r with
  | Operand_Path _, Operand_Value v | Operand_Value v, Operand_Path _ =>
      match v with N_ _ | S_ _ => true | _ => false end
  | _, _ => false
  end.

Fixpoint condition_fits_sql (cond : Condition) : bool :=
  match cond with
  | Condition_AttributeExists _ | Condition_AttributeNotExists _ => true
  | Condition_Compare op l r =>
      match op with
      | Eq_ | Ne_ => true
      | Lt_ | Le_ | Gt_ | Ge_ => ordering_has_typed_extraction l r
      end
  | Condition_BeginsWith _ _ | Condition_Contains _ _ | Condition_Between _ _ _
  | Condition_In _ _ | Condition_AttributeType _ _ => false
  | Condition_And a b | Condition_Or a b => condition_fits_sql a && condition_fits_sql b
  | Condition_Not inner => condition_fits_sql inner
  end.

Definition classify_condition (cond : Condition) (schema : TableSchema) : ConditionRouting :=
  let by_shape :=
    if condition_fits_sql cond then ConditionRouting_SimpleSql else ConditionRouting_NeedsTx in
  match cond with
  | Condition_AttributeNotExists p =>
      if eqb (top_name p) (Some (pk_attr schema)) then ConditionRouting_InsertOnlyOnPk
      else by_shape
  | _ => by_shape
  end.

(** ** Facts *)

Lemma check_top_level_Ok p : check_top_level p = Ok tt <-> exists n, p = name_path n.
Proof. rewrite <- is_top_level_iff. unfold check_top_level. by destruct (is_top_level p). Qed.

Lemma check_not_key_Ok p s :
  check_not_key p s = Ok tt <-> forall n, top_name p = Some n -> n ∉ key_attrs s.
Proof.
  unfold check_not_key. destruct (top_name p) as [n|]; [|naive_solver].
  pose proof (is_key_attr_spec s n). destruct (is_key_attr s n); naive_solver.
Qed.

Lemma seq_Ok {E} (a b : Result E unit) :
  (let? _ := a in b) = Ok tt <-> a = Ok tt /\ b = Ok tt.
Proof. destruct a as [[]| |]; naive_solver. Qed.

(** Every path of a right-hand side is a bare attribute name. *)
Definition top_operand (o : Operand) : Prop :=
  match o with Operand_Path p => is_top_level p = true | Operand_Value _ => True end.
Fixpoint top_rhs (r : SetRhs) : Prop :=
  match r with
  | SetRhs_Operand o => top_operand o
  | SetRhs_Plus a b | SetRhs_Minus a b => top_operand a /\ top_operand b
  | SetRhs_IfNotExists p r => is_top_level p = true /\ top_rhs r
  | SetRhs_ListAppend a b => top_rhs a /\ top_rhs b
  end.

Lemma check_operand_Ok o : check_operand_path_top_level o = Ok tt <-> top_operand o.
Proof.
  destruct o as [p|v]; simpl; [|naive_solver]. unfold check_top_level.
  destruct (is_top_level p); naive_solver.
Qed.

Lemma check_set_rhs_Ok r : check_set_rhs_paths_top_level r = Ok tt <-> top_rhs r.
Proof.
  induction r as [o|a b|a b|p r IH|a IHa b IHb]; simpl;
    rewrite ?seq_Ok, ?check_operand_Ok, ?IH, ?IHa, ?IHb; try done.
  unfold check_top_level. destruct (is_top_level p); naive_solver.
Qed.

(** What an accepted update expression satisfies. *)
Definition accepted_update (e : UpdateExpression) (s : TableSchema) : Prop :=
  let writes p := exists n, p = name_path n /\ n ∉ key_attrs s in
  Forall (fun c => writes (set_path c) /\ top_rhs (set_value c)) (ue_set e)
  /\ Forall writes (ue_remove e)
  /\ Forall (fun a => writes (add_path a) /\ check_add_value_type (add_value a) = Ok tt) (ue_add e)
  /\ Forall (fun d => writes (del_path d) /\ check_delete_value_type (del_value d) = Ok tt)
       (ue_delete e).

Lemma check_write_path_Ok p s :
  check_top_level p = Ok tt /\ check_not_key p s = Ok tt <->
  exists n, p = name_path n /\ n ∉ key_attrs s.
Proof.
  rewrite check_top_level_Ok, check_not_key_Ok. split.
  - intros [[n ->] Hn]. exists n. split; [done | by apply Hn].
  - intros (n & -> & Hn). split; [by exists n | by intros m [= <-]].
Qed.

Lemma check_update_Ok e s : check_update_expression e s = Ok tt <-> accepted_update e s.
Proof.
  unfold check_update_expression, accepted_update.
  rewrite !seq_Ok, !for_each_Ok_iff.
  assert (forall A (P Q : A -> Prop) l, (forall x, P x <-> Q x) -> Forall P l <-> Forall Q l)
    as HF by (intros; by apply Forall_iff).
  rewrite (HF _ _ (fun c => (exists n, set_path c = name_path n /\ n ∉ key_attrs s)
                            /\ top_rhs (set_value c))).
  2: { intros c. rewrite !seq_Ok, check_set_rhs_Ok, <- check_write_path_Ok. tauto. }
  rewrite (HF _ _ (fun p => exists n, p = name_path n /\ n ∉ key_attrs s)).
  2: { intros p. rewrite seq_Ok. apply check_write_path_Ok. }
  rewrite (HF _ _ (fun a => (exists n, add_path a = name_path n /\ n ∉ key_attrs s)
                            /\ check_add_value_type (add_value a) = Ok tt)).
  2: { intros a. rewrite !seq_Ok, <- check_write_path_Ok. tauto. }
  rewrite (HF _ _ (fun d => (exists n, del_path d = name_path n /\ n ∉ key_attrs s)
                            /\ check_delete_value_type (del_value d) = Ok tt)).
  2: { intros d. rewrite !seq_Ok, <- check_write_path_Ok. tauto. }
  done.
Qed.

Lemma top_rhs_named r : top_rhs r -> named_rhs r.
Proof.
  assert (forall p, is_top_level p = true -> is_Some (top_name p)) as Hp.
  { intros p [n ->]%is_top_level_iff. by exists n. }
  assert (forall o, top_operand o -> named_operand o) as Ho by (intros []; simpl; auto).
  induction r; simpl; naive_solver.
Qed.

(** An accepted update is panic-free for the evaluator and writes no key
    attribute. *)
Lemma accepted_update_named e s : accepted_update e s -> named_update e.
Proof.
  intros (H1 & H2 & H3 & H4). split_and!; (eapply Forall_impl; [eassumption|]); simpl.
  - intros c [(n & -> & _) Hr]. split; [by exists n | by apply top_rhs_named].
  - intros p (n & -> & _). by exists n.
  - intros a [(n & -> & _) _]. by exists n.
  - intros d [(n & -> & _) _]. by exists n.
Qed.

Lemma accepted_update_targets e s n : accepted_update e s -> n ∈ targets e -> n ∉ key_attrs s.
Proof.
  assert (forall A (f : A -> Path) (P : A -> Prop) (l : list A),
    Forall P l -> (forall x, P x -> exists m, f x = name_path m /\ m ∉ key_attrs s) ->
    n ∈ omap (fun x => top_name (f x)) l -> n ∉ key_attrs s) as Hl.
  { intros A f P l Hall HP (x & Hx & Hn)%list_elem_of_omap. rewrite Forall_forall in Hall.
    destruct (HP x (Hall x Hx)) as (m & Hm & Hk). rewrite Hm in Hn. injection Hn as <-. done. }
  intros (H1 & H2 & H3 & H4). unfold targets, set_targets, later_targets.
  rewrite !elem_of_app. intros [Hn|[Hn|[Hn|Hn]]].
  - eapply (Hl _ _ _ _ H1); [|exact Hn]. naive_solver.
  - eapply (Hl _ id _ _ H2); [|exact Hn]. naive_solver.
  - eapply (Hl _ _ _ _ H3); [|exact Hn]. naive_solver.
  - eapply (Hl _ _ _ _ H4); [|exact Hn]. naive_solver.
Qed.

Lemma touched_paths_targets e k :
  BTreeSet.contains k (touched_paths e) = true <-> k ∈ targets e.
Proof.
  unfold touched_paths, targets, set_targets, later_targets.
  rewrite (insert_top_names_spec del_path), (insert_top_names_spec add_path),
    (insert_top_names_spec (fun p => p)), (insert_top_names_spec set_path), !elem_of_app.
  assert (BTreeSet.contains k BTreeSet.empty = false) as -> by done.
  intuition congruence.
Qed.

(** [touched_paths] is the write footprint of an update: it contains
    exactly the top-level names that some clause targets, and an
    attribute outside it has the same value before and after the update
    (the request key standing in for a missing row). *)
Theorem touched_paths_footprint `{Base64} `{SerdeJson} existing (e : UpdateExpression) key v k :
  (BTreeSet.contains k (touched_paths e) = true <-> k ∈ targets e)
  /\ (apply_update_expression (row_value existing) e key = Ok v ->
      BTreeSet.contains k (touched_paths e) = false ->
      value_get v k = value_get (item_to_value (default key existing)) k).
Proof.
  pose proof (touched_paths_targets e k) as Ht. split; [done|]. intros Hv Hk.
  apply (apply_update_frame _ _ _ _ _ Hv). rewrite <- Ht, Hk. done.
Qed.
