(* ===== verification/KeyCondition.v ===== *)
(** * Key conditions (rekt-translator, [key_condition.rs])

    Lowering of a resolved KeyConditionExpression to storage bounds.  The
    bounds are given a meaning on typed key values and compared with the
    condition evaluator. *)

From S2P Require Import Prelude RustStr BTree Json Attr Base64Std Ast F64 EvalCondition Storage.
From S2P Require Import Errors Schema Keys.

Record QueryKeyBounds : Type := mkQueryKeyBounds {
  kb_pk : KeyValue;
  kb_sk_condition : option SkCondition
}.

Definition unsupported_shape {A} (reason : string) : Result TranslateError A :=
  Err (TranslateError_KeyConditionUnsupportedShape reason).

Definition av_to_keyvalue (av : AttributeValue) (expected : KeyType) : Result string KeyValue :=
  match expected, av with
  | KeyType_S, S_ s => Ok (KeyValue_S s)
  | KeyType_N, N_ s => Ok (KeyValue_N s)
  | KeyType_B, B_ b => Ok (KeyValue_B b)
  | _, other => Err (type_name other)
  end.

Definition path_and_value (l r : Operand) : Result TranslateError (string * AttributeValue) :=
  match l, r with
  | Operand_Path p, Operand_Value v | Operand_Value v, Operand_Path p =>
      let? n := ok_or (top_name p) (TranslateError_KeyConditionUnsupportedShape
                  "operand path is not a top-level name") in
      Ok (n, v)
  | Operand_Path _, Operand_Path _ => Err TranslateError_KeyConditionRhsMustBeValue
  | Operand_Value _, Operand_Value _ =>
      unsupported_shape "both operands are values (must reference a key attribute)"
  end.

Definition path_name (op : Operand) : Result TranslateError string :=
  match op with
  | Operand_Path p => ok_or (top_name p) (TranslateError_KeyConditionUnsupportedShape
                        "operand path is not a top-level name")
  | Operand_Value _ => unsupported_shape "BETWEEN target must be a path"
  end.

Definition operand_value (op : Operand) : Result TranslateError AttributeValue :=
  match op with
  | Operand_Value v => Ok v
  | Operand_Path _ => Err TranslateError_KeyConditionRhsMustBeValue
  end.

Definition match_pk_equality (cond : Condition) (schema : TableSchema)
  : Result TranslateError KeyValue :=
  match cond with
  | Condition_Compare op l r =>
      let? (attr, value) := path_and_value l r in
      if negb (String.eqb attr (pk_attr schema)) then
        if eqb (Some attr) (sk_attr schema)
        then Err (TranslateError_KeyConditionMissingPkEquality (pk_attr schema))
        else Err (TranslateError_KeyConditionNonKeyAttr attr)
      else if negb (eqb op Eq_)
      then Err (TranslateError_KeyConditionPkMustBeEquality attr (as_str_op op))
      else map_err (TranslateError_KeyConditionPkTypeMismatch attr (pk_type schema))
             (av_to_keyvalue value (pk_type schema))
  | Condition_And _ _ => unsupported_shape "nested AND not allowed on the PK side"
  | Condition_Or _ _ | Condition_Not _ => unsupported_shape "OR / NOT are not allowed"
  | Condition_AttributeExists _ | Condition_AttributeNotExists _ =>
      unsupported_shape "attribute_exists / attribute_not_exists are not allowed"
  | Condition_BeginsWith _ _ | Condition_Contains _ _ | Condition_Between _ _ _
  | Condition_In _ _ | Condition_AttributeType _ _ =>
      unsupported_shape "function-call shape used on the partition key term"
  end.

Definition match_sk_predicate (cond : Condition) (schema : TableSchema)
  : Result TranslateError SkCondition :=
  let? skattr := ok_or (sk_attr schema) (TranslateError_KeyConditionUnsupportedShape
    "table is hash-only; AND'ing a sort-key predicate is not allowed") in
  let? sktype := expect (sk_type schema) in
  match cond with
  | Condition_Compare op l r =>
      let? (attr, value) := path_and_value l r in
      if negb (String.eqb attr skattr) then Err (TranslateError_KeyConditionNonKeyAttr attr)
      else
        let? kv := map_err (TranslateError_KeyConditionSkTypeMismatch attr sktype)
                     (av_to_keyvalue value sktype) in
        match op with
        | Eq_ => Ok (SkCondition_Eq kv)
        | Lt_ => Ok (SkCondition_Lt kv)
        | Le_ => Ok (SkCondition_Le kv)
        | Gt_ => Ok (SkCondition_Gt kv)
        | Ge_ => Ok (SkCondition_Ge kv)
        | Ne_ => unsupported_shape "`<>` is not valid on the sort key"
        end
  | Condition_Between target lo hi =>
      let? attr := path_name target in
      if negb (String.eqb attr skattr) then Err (TranslateError_KeyConditionNonKeyAttr attr)
      else
        let? lo_av := operand_value lo in
        let? hi_av := operand_value hi in
        let? lo_kv := map_err (TranslateError_KeyConditionSkTypeMismatch attr sktype)
                        (av_to_keyvalue lo_av sktype) in
        let? hi_kv := map_err (TranslateError_KeyConditionSkTypeMismatch attr sktype)
                        (av_to_keyvalue hi_av sktype) in
        Ok (SkCondition_Between lo_kv hi_kv)
  | Condition_BeginsWith path operand =>
      let? attr := ok_or (top_name path) (TranslateError_KeyConditionUnsupportedShape
                     "begins_with target is not a top-level name") in
      if negb (String.eqb attr skattr) then Err (TranslateError_KeyConditionNonKeyAttr attr)
      else if negb (eqb sktype KeyType_S)
      then Err (TranslateError_KeyConditionBeginsWithRequiresStringSk attr sktype)
      else
        let? av := operand_value operand in
        match av with
        | S_ s => Ok (SkCondition_BeginsWithS s)
        | other => Err (TranslateError_KeyConditionSkTypeMismatch attr KeyType_S (type_name other))
        end
  | Condition_And _ _ | Condition_Or _ _ | Condition_Not _ =>
      unsupported_shape "boolean combinators are not allowed on the sort-key term"
  | Condition_AttributeExists _ | Condition_AttributeNotExists _ =>
      unsupported_shape "attribute_exists / attribute_not_exists are not allowed"
  | Condition_Contains _ _ =>
      unsupported_shape "contains is not allowed in KeyConditionExpression"
  | Condition_In _ _ => unsupported_shape "IN is not allowed in KeyConditionExpression"
  | Condition_AttributeType _ _ =>
      unsupported_shape "attribute_type is not allowed in KeyConditionExpression"
  end.

Definition extract_key_condition (cond : Condition) (schema : TableSchema)
  : Result TranslateError QueryKeyBounds :=
  let '(pk_term, sk_term) :=
    match cond with
    | Condition_And a b => (a, Some b)
    | single => (single, None)
    end in
  let? pk := match_pk_equality pk_term schema in
  match sk_term with
  | None => Ok (mkQueryKeyBounds pk None)
  | Some term =>
      let? sk := match_sk_predicate term schema in
      Ok (mkQueryKeyBounds pk (Some sk))
  end.

(** ** The meaning of the bounds *)

Definition sk_matches (c : SkCondition) (v : AttributeValue) : Prop :=
  match c with
  | SkCondition_Eq k => v = kv_to_av k
  | SkCondition_Lt k => av_rel Lt_ v (kv_to_av k)
  | SkCondition_Le k => av_rel Le_ v (kv_to_av k)
  | SkCondition_Gt k => av_rel Gt_ v (kv_to_av k)
  | SkCondition_Ge k => av_rel Ge_ v (kv_to_av k)
  | SkCondition_Between lo hi => av_rel Ge_ v (kv_to_av lo) /\ av_rel Le_ v (kv_to_av hi)
  | SkCondition_BeginsWithS p => av_begins_with v (S_ p)
  end.

Definition bounds_match (b : QueryKeyBounds) (s : TableSchema) (it : Item) : Prop :=
  BTreeMap.get (pk_attr s) it = Some (kv_to_av (kb_pk b)) /\
  match kb_sk_condition b with
  | None => True
  | Some c => exists attr v, sk_attr s = Some attr /\ BTreeMap.get attr it = Some v
                             /\ sk_matches c v
  end.

(** The ordering comparison of a sort-key term has its path on the left. *)
Definition path_first (cond : Condition) : Prop :=
  match cond with
  | Condition_And _ (Condition_Compare op l _) =>
      op = Eq_ \/ exists p, l = Operand_Path p
  | _ => True
  end.

Lemma av_to_keyvalue_Ok av t k : av_to_keyvalue av t = Ok k -> av = kv_to_av k /\ key_type k = t.
Proof. destruct t, av; simpl; try done; by intros [= <-]. Qed.

Lemma path_and_value_Ok l r attr v :
  path_and_value l r = Ok (attr, v) ->
  exists p, top_name p = Some attr /\
    ((l = Operand_Path p /\ r = Operand_Value v) \/ (l = Operand_Value v /\ r = Operand_Path p)).
Proof.
  destruct l as [p|w], r as [q|w']; simpl; try done.
  - destruct (top_name p) eqn:E; simpl; [|done]. intros [= <- <-]. exists p. auto.
  - destruct (top_name q) eqn:E; simpl; [|done]. intros [= <- <-]. exists q. auto.
Qed.

Lemma attr_of_named it p n : top_name p = Some n -> attr_of (Some it) p = BTreeMap.get n it.
Proof. unfold attr_of. simpl. by intros ->. Qed.

(** A comparison of a path with a value, either way round. *)
Lemma both_path_value it p n v R :
  top_name p = Some n ->
  both (Some it) (Operand_Path p) (Operand_Value v) R <->
  exists a, BTreeMap.get n it = Some a /\ R a v.
Proof.
  intros Hn. unfold both, operand_av. rewrite (attr_of_named _ _ _ Hn). split.
  - intros (a & b & Ha & [= ->] & HR). eauto.
  - intros (a & Ha & HR). eauto.
Qed.

Lemma both_flip it o1 o2 (R : AttributeValue -> AttributeValue -> Prop) :
  both it o1 o2 R <-> both it o2 o1 (fun a b => R b a).
Proof. unfold both. naive_solver. Qed.

Lemma match_pk_sat cond s pk it :
  match_pk_equality cond s = Ok pk ->
  (sat (Some it) cond <-> BTreeMap.get (pk_attr s) it = Some (kv_to_av pk)) /\ key_type pk = pk_type s.
Proof.
  destruct cond as [op l r| | | | | | | | | |]; try done. simpl.
  destruct (path_and_value l r) as [[attr v]| |] eqn:Hpv; [|done|done].
  destruct (String.eqb_spec attr (pk_attr s)) as [->|]; simpl; [|by case_match].
  destruct (eqb op Eq_) eqn:Hop; simpl; [|done]. apply eqb_true in Hop as ->.
  destruct (av_to_keyvalue v (pk_type s)) as [k| |] eqn:Hk; simpl; [|done|done].
  intros [= ->]. apply av_to_keyvalue_Ok in Hk as [-> Hk]. split; [|done].
  apply path_and_value_Ok in Hpv as (p & Hp & [[-> ->]|[-> ->]]); [|rewrite both_flip];
    rewrite (both_path_value _ _ _ _ _ Hp); simpl; naive_solver.
Qed.

Lemma match_sk_sat cond s c it :
  match cond with
  | Condition_Compare op l _ => op = Eq_ \/ exists p, l = Operand_Path p
  | _ => True
  end ->
  match_sk_predicate cond s = Ok c ->
  sat (Some it) cond <->
  exists attr v, sk_attr s = Some attr /\ BTreeMap.get attr it = Some v /\ sk_matches c v.
Proof.
  intros Hfirst. unfold match_sk_predicate.
  destruct (sk_attr s) as [attr|]; simpl; [|done]. destruct (sk_type s) as [t|]; simpl; [|done].
  assert (forall (P : AttributeValue -> Prop),
    (exists a v, Some attr = Some a /\ BTreeMap.get a it = Some v /\ P v) <->
    exists v, BTreeMap.get attr it = Some v /\ P v) as Hex by naive_solver.
  rewrite Hex. clear Hex.
  destruct cond as [op l r| | |p o| |v lo hi| | | | |]; try done.
  - destruct (path_and_value l r) as [[a v]| |] eqn:Hpv; simpl; [|done|done].
    destruct (String.eqb_spec a attr) as [->|]; simpl; [|done].
    destruct (av_to_keyvalue v t) as [k| |] eqn:Hk; simpl; [|done|done].
    apply av_to_keyvalue_Ok in Hk as [-> _].
    apply path_and_value_Ok in Hpv as (p & Hp & [[-> ->]|[-> ->]]).
    + rewrite (both_path_value _ _ _ _ _ Hp). destruct op; try done; by intros [= <-].
    + destruct Hfirst as [->|[q Hq]]; [|done]. intros [= <-].
      rewrite both_flip, (both_path_value _ _ _ _ _ Hp). simpl. naive_solver.
  - destruct (top_name p) as [a|] eqn:Hp; simpl; [|done].
    destruct (String.eqb_spec a attr) as [->|]; simpl; [|done].
    destruct (eqb t KeyType_S); simpl; [|done].
    destruct o as [q|w]; simpl; [done|]. destruct w; try done. intros [= <-].
    by rewrite (both_path_value _ _ _ _ _ Hp).
  - destruct v as [p|w]; simpl; [|done].
    destruct (top_name p) as [a|] eqn:Hp; simpl; [|done].
    destruct (String.eqb_spec a attr) as [->|]; simpl; [|done].
    destruct lo as [|vlo]; simpl; [done|]. destruct hi as [|vhi]; simpl; [done|].
    destruct (av_to_keyvalue vlo t) as [klo| |] eqn:Hlo; simpl; [|done|done].
    destruct (av_to_keyvalue vhi t) as [khi| |] eqn:Hhi; simpl; [|done|done].
    intros [= <-]. apply av_to_keyvalue_Ok in Hlo as [-> _], Hhi as [-> _].
    rewrite !(both_path_value _ _ _ _ _ Hp). simpl. naive_solver.
Qed.

Lemma extract_key_condition_sat cond s b it :
  path_first cond -> extract_key_condition cond s = Ok b ->
  sat (Some it) cond <-> bounds_match b s it.
Proof.
  intros Hf. unfold extract_key_condition, bounds_match.
  assert (forall c, match_pk_equality c s = Ok (kb_pk b) ->
                    sat (Some it) c <-> BTreeMap.get (pk_attr s) it = Some (kv_to_av (kb_pk b)))
    as Hpk by (intros c Hc; by apply match_pk_sat).
  destruct cond as [ | | | | | | | |c1 c2| |];
    try (match goal with |- context [match_pk_equality ?c s] =>
           specialize (Hpk c); destruct (match_pk_equality c s) as [pk| |]; [|done|done]
         end; intros [= <-]; simpl in *; rewrite Hpk by done; naive_solver).
  destruct (match_pk_equality c1 s) as [pk| |] eqn:E; [|done|done].
  destruct (match_sk_predicate c2 s) as [c| |] eqn:Es; [|done|done].
  intros [= <-]. simpl in *. rewrite (Hpk c1 E), (match_sk_sat c2 s c it); [done| |done].
  by destruct c2.
Qed.

Lemma extract_key_condition_pk_type cond s b :
  extract_key_condition cond s = Ok b -> key_type (kb_pk b) = pk_type s.
Proof.
  unfold extract_key_condition. intros H.
  assert (forall c pk, match_pk_equality c s = Ok pk -> key_type pk = pk_type s) as Hpk.
  { intros c pk Hc. by apply (match_pk_sat c s pk [] Hc). }
  destruct (match cond with Condition_And a b => (a, Some b) | single => (single, None) end)
    as [t1 t2].
  destruct (match_pk_equality t1 s) as [pk| |] eqn:E; [|done|done]. apply Hpk in E.
  destruct t2 as [t|]; [destruct (match_sk_predicate t s); [|done|done]|]; by injection H as <-.
Qed.

(** ** Theorems *)


Definition orders_schema : TableSchema :=
  mkTableSchema "Orders" "orders" "user" KeyType_S (Some "ts") (Some KeyType_N) "data" [] [].

Definition since_ten : Condition :=
  Condition_And
    (Condition_Compare Eq_ (Operand_Path (name_path "user")) (Operand_Value (S_ "ann")))
    (Condition_Compare Gt_ (Operand_Path (name_path "ts")) (Operand_Value (N_ "10"))).


(** [user = :u AND :v < ts]. *)
Definition reversed_since : Condition :=
  Condition_And
    (Condition_Compare Eq_ (Operand_Path (name_path "user")) (Operand_Value (S_ "ann")))
    (Condition_Compare Lt_ (Operand_Value (N_ "10")) (Operand_Path (name_path "ts"))).

(** With the value on the left of an ordering operator the operator is
    not turned round: [:v < ts] is lowered to the bound of [ts < :v], and
    the bounds reject a row of which the condition holds. *)
Lemma reversed_operands_not_flipped :
  extract_key_condition reversed_since orders_schema
  = Ok (mkQueryKeyBounds (KeyValue_S "ann") (Some (SkCondition_Lt (KeyValue_N "10"))))
  /\ evaluate_condition (row_value (Some [("ts", N_ "12"); ("user", S_ "ann")])) reversed_since
     = true
  /\ ~ bounds_match (mkQueryKeyBounds (KeyValue_S "ann") (Some (SkCondition_Lt (KeyValue_N "10"))))
         orders_schema [("ts", N_ "12"); ("user", S_ "ann")].
Proof.
  split_and!; [reflexivity | reflexivity |].
  intros [_ (attr & v & [= <-] & Hv & Hm)]. simpl in Hv. injection Hv as <-.
  vm_compute in Hm. discriminate Hm.
Qed.

(** A nested path is taken for its first name. *)
Lemma nested_key_path_accepted :
  extract_key_condition
    (Condition_Compare Eq_
       (Operand_Path (mkPath [PathSegment_Name "user"; PathSegment_Name "name"]))
       (Operand_Value (S_ "ann"))) orders_schema
  = Ok (mkQueryKeyBounds (KeyValue_S "ann") None).
Proof. reflexivity. Qed.
