(* ===== verification/Paging.v ===== *)
(** * Pagination cursors (rekt-translator, [paging.rs])

    A [LastEvaluatedKey] is an item of the key attributes; clients send it
    back as [ExclusiveStartKey]. *)

From S2P Require Import Prelude RustStr BTree Attr Storage Errors Schema Keys.

Definition invalid_esk {A} (reason : string) : Result TranslateError A :=
  Err (TranslateError_InvalidExclusiveStartKey reason).

(** The typed keys of a cursor, with [extract_key]'s errors replaced. *)
Definition esk_pk (esk : Item) (schema : TableSchema) : Result TranslateError KeyValue :=
  map_err (fun _ => TranslateError_InvalidExclusiveStartKey
                      ("missing or wrong-typed partition key `" +:+ pk_attr schema +:+ "`"))
    (extract_key esk (pk_attr schema) (pk_type schema) KeyRole_Pk).

Definition esk_sk (esk : Item) (schema : TableSchema)
  : Result TranslateError (option KeyValue) :=
  match sk_attr schema, sk_type schema with
  | Some attr, Some ty =>
      let? k := map_err (fun _ => TranslateError_InvalidExclusiveStartKey
                           ("missing or wrong-typed sort key `" +:+ attr +:+ "`"))
                  (extract_key esk attr ty KeyRole_Sk) in
      Ok (Some k)
  | _, _ => Ok None
  end.

(** The extra-attribute loop: [allowed] is the schema's key attributes. *)
Definition reject_extra_esk (esk : Item) (schema : TableSchema) : Result TranslateError unit :=
  for_each (fun attr =>
    if contains (key_attrs schema) attr then Ok tt
    else invalid_esk ("unexpected attribute `" +:+ attr +:+ "` in ExclusiveStartKey"))
    (BTreeMap.keys esk).

Definition decode_esk (esk : Item) (schema : TableSchema) (query_pk : KeyValue)
  : Result TranslateError (option KeyValue) :=
  let? pk := esk_pk esk schema in
  if negb (eqb pk query_pk)
  then Err (TranslateError_ExclusiveStartKeyPkMismatch (pk_attr schema))
  else
    let? sk := esk_sk esk schema in
    let? _ := reject_extra_esk esk schema in
    Ok sk.

Definition decode_scan_esk (esk : Item) (schema : TableSchema)
  : Result TranslateError (KeyValue * option KeyValue) :=
  let? pk := esk_pk esk schema in
  let? sk := esk_sk esk schema in
  let? _ := reject_extra_esk esk schema in
  Ok (pk, sk).

Definition encode_lek (pk : KeyValue) (sk : option KeyValue) (schema : TableSchema) : Item :=
  let m := BTreeMap.insert (pk_attr schema) (kv_to_av pk) [] in
  match sk_attr schema, sk with
  | Some attr, Some v => BTreeMap.insert attr (kv_to_av v) m
  | _, _ => m
  end.

Definition validate_limit (limit : N) : Result TranslateError N :=
  if negb ((1 <=? limit) && (limit <=? 1000))%N then Err (TranslateError_InvalidLimit limit)
  else Ok limit.

(** ** Facts *)

(** A cursor of the table: typed like its keys. *)
Definition cursor_of (s : TableSchema) (pk : KeyValue) (sk : option KeyValue) : Prop :=
  key_type pk = pk_type s /\ key_type <$> sk = sk_type s.

Lemma encode_lek_keys s pk sk a : a ∈ BTreeMap.keys (encode_lek pk sk s) -> a ∈ key_attrs s.
Proof.
  unfold encode_lek, key_attrs. destruct (sk_attr s) as [b|], sk as [v|]; simpl opt_list;
    rewrite ?BTreeMap.keys_insert; simpl; set_solver.
Qed.

Lemma encode_lek_pair s pk sk :
  wf_schema s -> cursor_of s pk sk -> is_key_pair (encode_lek pk sk s) s (pk, sk).
Proof.
  intros [Hw Hne] [Hpk Hsk]. unfold is_key_pair, encode_lek. cbn [fst snd].
  destruct (sk_attr s) as [b|] eqn:Hb.
  - destruct (sk_type s) as [t|] eqn:Ht; [|by destruct Hw as [[? ?] _]].
    destruct sk as [v|]; [|done]. injection Hsk as Hv.
    rewrite BTreeMap.get_insert_ne, !BTreeMap.get_insert_eq by congruence. done.
  - destruct (sk_type s) as [t|] eqn:Ht; [by destruct Hw as [_ [? ?]]|].
    destruct sk; [done|]. by rewrite BTreeMap.get_insert_eq.
Qed.

Lemma esk_keys_of_pair esk s k :
  is_key_pair esk s k -> esk_pk esk s = Ok k.1 /\ esk_sk esk s = Ok k.2.
Proof.
  intros (H1 & H2 & H3). unfold esk_pk, esk_sk. destruct k as [pk sk]; simpl in *.
  rewrite (proj2 (extract_key_Ok _ _ _ _ pk)) by done. split; [done|].
  destruct (sk_attr s) as [a|], (sk_type s) as [t|], sk as [v|]; try done.
  by rewrite (proj2 (extract_key_Ok _ _ _ _ v)).
Qed.

Lemma reject_extra_esk_Ok esk s :
  reject_extra_esk esk s = Ok tt <-> forall a, a ∈ BTreeMap.keys esk -> a ∈ key_attrs s.
Proof.
  unfold reject_extra_esk. rewrite for_each_Ok_iff, Forall_forall.
  split; intros Hall a Ha; specialize (Hall a Ha); rewrite <- (contains_true (key_attrs s)) in *;
    destruct (contains (key_attrs s) a); simpl in *; unfold invalid_esk in *; congruence.
Qed.

Lemma decode_scan_esk_Ok esk s k :
  decode_scan_esk esk s = Ok k <->
  is_key_pair esk s k /\ (forall a, a ∈ BTreeMap.keys esk -> a ∈ key_attrs s).
Proof.
  unfold decode_scan_esk. rewrite <- reject_extra_esk_Ok, <- extract_key_pair_Ok.
  unfold extract_key_pair, esk_pk, esk_sk.
  destruct (extract_key esk (pk_attr s) (pk_type s) KeyRole_Pk) as [pk| |]; simpl;
    [|naive_solver|naive_solver].
  destruct (sk_attr s) as [a|]; [destruct (sk_type s) as [t|];
    [destruct (extract_key esk a t KeyRole_Sk) as [sk| |]; simpl; [|naive_solver|naive_solver]|]|];
    destruct (reject_extra_esk esk s) as [[]| |]; naive_solver.
Qed.

(** ** Theorems *)

(** round trip of the cursor. The [LastEvaluatedKey] made from a
    typed key of a table decodes, as the next [ExclusiveStartKey], to
    that key, for Scan and (in its own partition) for Query. *)
Theorem cursor_round_trip s pk sk :
  wf_schema s -> cursor_of s pk sk ->
  decode_scan_esk (encode_lek pk sk s) s = Ok (pk, sk)
  /\ decode_esk (encode_lek pk sk s) s pk = Ok sk.
Proof.
  intros Hs Hc. pose proof (encode_lek_pair s pk sk Hs Hc) as Hp.
  pose proof (proj2 (reject_extra_esk_Ok (encode_lek pk sk s) s) (encode_lek_keys s pk sk)) as Hx.
  destruct (esk_keys_of_pair _ _ _ Hp) as [H1 H2]. simpl in H1, H2.
  unfold decode_scan_esk, decode_esk. rewrite H1, H2, Hx.
  by rewrite (proj2 (eqb_true pk pk) eq_refl).
Qed.

(** A cursor is accepted exactly when its attributes are the key
    attributes of the table, each at its declared type, and for Query
    when it belongs to the queried partition. *)
Theorem cursor_validation esk s pk k :
  (decode_scan_esk esk s = Ok k <->
   is_key_pair esk s k /\ (forall a, a ∈ BTreeMap.keys esk -> a ∈ key_attrs s))
  /\ (decode_esk esk s pk = Ok k.2 /\ esk_pk esk s = Ok k.1 /\ k.1 = pk <->
      decode_scan_esk esk s = Ok k /\ k.1 = pk).
Proof.
  split; [apply decode_scan_esk_Ok|]. unfold decode_scan_esk, decode_esk.
  destruct k as [k1 k2]; simpl.
  destruct (esk_pk esk s) as [p| |]; [|naive_solver|naive_solver].
  destruct (eqb p pk) eqn:E; simpl.
  - apply eqb_true in E as ->.
    destruct (esk_sk esk s) as [q| |]; [|naive_solver|naive_solver].
    destruct (reject_extra_esk esk s) as [[]| |]; naive_solver.
  - apply eqb_false in E. split; [naive_solver|]. intros [Hk ->].
    destruct (esk_sk esk s) as [q| |]; [|done|done].
    destruct (reject_extra_esk esk s) as [[]| |]; [|done|done]. naive_solver.
Qed.

Lemma cursor_round_trip_witness :
  decode_scan_esk
    (encode_lek (KeyValue_S "ann") (Some (KeyValue_N "7")) users_schema) users_schema
  = Ok (KeyValue_S "ann", Some (KeyValue_N "7")).
Proof.
  apply (cursor_round_trip users_schema).
  - split; [split; by eexists | done].
  - done.
Defined.
