(* ===== verification/Projection.v ===== *)
(** * Projections (rekt-translator, [projection.rs]) *)

From S2P Require Import Prelude RustStr BTree Reserved Substitute Errors.

(** One comma-separated piece of a ProjectionExpression. *)
Definition resolve_projection_path (names : btree string) (raw_path : string)
  : Result TranslateError string :=
  let path := trim raw_path in
  if str_is_empty path
  then Err (TranslateError_InvalidProjectionExpression "empty path between commas")
  else if str_mem "." path || str_mem "[" path
  then Err (TranslateError_ProjectionNestedPathUnsupported path)
  else
    match strip_prefix "#" path with
    | Some alias =>
        ok_or (get_placeholder "#" alias names) (TranslateError_UnknownPlaceholder ("#" +:+ alias))
    | None =>
        if is_reserved path then Err (TranslateError_ReservedWordInProjectionExpression path)
        else Ok path
    end.

Definition parse_projection (raw : option string) (names : btree string)
  : Result TranslateError (option bset) :=
  match raw with
  | None => Ok None
  | Some input =>
      if is_blank input then Ok None
      else
        let? out := fold_result (fun out raw_path =>
                      let? resolved := resolve_projection_path names raw_path in
                      Ok (BTreeSet.insert resolved out))
                    BTreeSet.empty (split_on "," input) in
        Ok (Some out)
  end.

Definition resolve_select_and_projection (select projection_expr : option string)
  (names : btree string) (has_index : bool) : Result TranslateError (bool * option bset) :=
  let sel s := eqb select (Some s) in
  let? count_only :=
    if eqb select None || sel "ALL_ATTRIBUTES" then Ok false
    else if sel "COUNT" then Ok true
    else if sel "SPECIFIC_ATTRIBUTES" then
      match projection_expr with
      | None => Err (TranslateError_InvalidSelectMode
                       "Select=SPECIFIC_ATTRIBUTES requires ProjectionExpression")
      | Some s => if is_blank s
                  then Err (TranslateError_InvalidSelectMode
                              "Select=SPECIFIC_ATTRIBUTES requires ProjectionExpression")
                  else Ok false
      end
    else if sel "ALL_PROJECTED_ATTRIBUTES" then
      if negb has_index
      then Err (TranslateError_InvalidSelectMode
                  "Select=ALL_PROJECTED_ATTRIBUTES requires IndexName")
      else Ok false
    else Err (TranslateError_UnsupportedSelect (default EmptyString select)) in
  let? projection := parse_projection projection_expr names in
  if count_only && bool_decide (is_Some projection)
  then Err (TranslateError_InvalidSelectMode "Select=COUNT is not valid with ProjectionExpression")
  else Ok (count_only, projection).

(** ** Facts *)

Lemma projection_fold names pieces s out :
  fold_result (fun out raw_path =>
    let? resolved := resolve_projection_path names raw_path in
    Ok (BTreeSet.insert resolved out)) s pieces = Ok out <->
  exists rs, collect (resolve_projection_path names) pieces = Ok rs
             /\ out = fold_left (fun s k => BTreeSet.insert k s) rs s.
Proof.
  revert s; induction pieces as [|p pieces IH]; intros s; simpl.
  { split; [intros [= <-]; by exists [] | by intros (rs & [= <-] & ->)]. }
  destruct (resolve_projection_path names p) as [r| |]; [|naive_solver|naive_solver].
  rewrite IH. destruct (collect _ pieces) as [rs| |]; [|naive_solver|naive_solver].
  split; [intros (rs' & [= <-] & ->); by exists (r :: rs) | intros (rs' & [= <-] & ->); eauto].
Qed.

Lemma insert_list_contains rs s k :
  BTreeSet.contains k (fold_left (fun s k => BTreeSet.insert k s) rs s) = true
  <-> k ∈ rs \/ BTreeSet.contains k s = true.
Proof.
  revert s; induction rs as [|r rs IH]; intros s; simpl; [rewrite elem_of_nil; tauto|].
  rewrite IH, BTreeSet.contains_insert, elem_of_cons. intuition congruence.
Qed.

(** ** Theorems *)

(** A non-blank ProjectionExpression is accepted exactly when every
    comma-separated piece resolves, and then retains exactly the resolved
    attribute names; a blank one retains everything. *)
Theorem parse_projection_spec input names :
  (is_blank input = true -> parse_projection (Some input) names = Ok None)
  /\ (is_blank input = false -> forall out,
      parse_projection (Some input) names = Ok (Some out) ->
      exists rs, Forall2 (fun piece r => resolve_projection_path names piece = Ok r)
                   (split_on "," input) rs
                 /\ forall k, BTreeSet.contains k out = true <-> k ∈ rs)
  /\ (is_blank input = false ->
      Forall (fun piece => is_ok (resolve_projection_path names piece) = true) (split_on "," input) ->
      exists out, parse_projection (Some input) names = Ok (Some out)).
Proof.
  unfold parse_projection. split_and!; intros Hb; rewrite Hb; [done| |].
  - intros out. destruct (fold_result _ _ _) as [o| |] eqn:E; [|done|done]. intros [= ->].
    apply projection_fold in E as (rs & Hc & ->). exists rs. split; [by apply collect_Ok_iff|].
    intros k. rewrite insert_list_contains. unfold BTreeSet.contains. simpl. naive_solver.
  - rewrite <- collect_is_ok. intros Hok.
    destruct (collect (resolve_projection_path names) (split_on "," input)) as [rs| |] eqn:E;
      try done.
    rewrite (proj2 (projection_fold names _ _ _) (ex_intro _ rs (conj E eq_refl))). eauto.
Qed.

Lemma parse_projection_witness :
  exists rs, Forall2 (fun piece r => resolve_projection_path [("#s", "status")] piece = Ok r)
               (split_on "," " id , #s") rs
             /\ forall k, BTreeSet.contains k [("id", tt); ("status", tt)] = true <-> k ∈ rs.
Proof.
  apply (parse_projection_spec " id , #s" [("#s", "status")]); vm_compute; reflexivity.
Defined.
