(* ===== verification/Materialize.v ===== *)
(** * Materialisers (rekt-translator, [materialize.rs])

    A plan in the simple subset (top-level [SET attr = literal], [REMOVE
    attr]) is flattened for a single-statement update, and what it is
    flattened to agrees with the read-modify-write evaluator.  [System]
    compares the statements themselves. *)

From S2P Require Import Prelude BTree Json Attr Base64Std Ast F64 EvalUpdate Storage Errors Plan.

Section materialize.
Context `{Base64}.

(** [clause.path.top_name().expect(..)] with the literal right-hand side;
    anything else is [unreachable!]. *)
Definition simple_set (clause : SetClause) : Result TranslateError (string * Value) :=
  let? attr := expect (top_name (set_path clause)) in
  match set_value clause with
  | SetRhs_Operand (Operand_Value v) => Ok (attr, to_value v)
  | _ => Panic
  end.

Definition simple_remove (p : Path) : Result TranslateError string := expect (top_name p).

Definition insert_sets (key : Item) (sets : list (string * Value)) : Value :=
  VObject (BTreeMap.insert_all sets (map entry_to_value key)).

Definition materialize_simple_update (plan : UpdateItemPlan) (key : Item)
  : Result TranslateError SimpleUpdatePrimitives :=
  if negb (is_simple (up_expression plan))
  then Err (TranslateError_UnsupportedSetRhs "non-simple expression reached materializer")
  else
    match up_condition plan with
    | Some _ => Err TranslateError_UnsupportedConditionInFastPath
    | None =>
        let? sets := collect simple_set (ue_set (up_expression plan)) in
        let? removes := collect simple_remove (ue_remove (up_expression plan)) in
        Ok (mkSimpleUpdatePrimitives (insert_sets key sets) sets removes)
    end.

Definition build_sets_removes (plan : UpdateItemPlan)
  : Result TranslateError (list (string * Value) * list string) :=
  let? sets := collect simple_set (ue_set (up_expression plan)) in
  let? removes := collect simple_remove (ue_remove (up_expression plan)) in
  Ok (sets, removes).

Definition build_insert_item (plan : UpdateItemPlan) (key : Item) : Result TranslateError Value :=
  let? sets := collect simple_set (ue_set (up_expression plan)) in
  Ok (insert_sets key sets).

Definition materialize_insert_only_update (plan : UpdateItemPlan) (key : Item)
  : Result TranslateError Value :=
  if negb (is_simple (up_expression plan))
  then Err (TranslateError_UnsupportedSetRhs
              "non-simple expression reached insert-only materializer")
  else
    let? cp := ok_or (up_condition plan) (TranslateError_UnsupportedSetRhs
                 "insert-only materializer called without a condition") in
    if negb (eqb (cp_routing cp) ConditionRouting_InsertOnlyOnPk)
    then Err (TranslateError_UnsupportedSetRhs
                "insert-only materializer called with non-InsertOnlyOnPk routing")
    else build_insert_item plan key.

Definition materialize_simple_sql_update (plan : UpdateItemPlan)
  : Result TranslateError SimpleSqlUpdatePrimitives :=
  if negb (is_simple (up_expression plan))
  then Err (TranslateError_UnsupportedSetRhs
              "non-simple expression reached SimpleSql materializer")
  else
    let? cp := ok_or (up_condition plan) (TranslateError_UnsupportedSetRhs
                 "SimpleSql materializer called without a condition") in
    if negb (eqb (cp_routing cp) ConditionRouting_SimpleSql)
    then Err (TranslateError_UnsupportedSetRhs
                "SimpleSql materializer called with non-SimpleSql routing")
    else
      let? (sets, removes) := build_sets_removes plan in
      Ok (mkSimpleSqlUpdatePrimitives sets removes).

(** ** Simple expressions *)

Lemma is_simple_inv e :
  is_simple e = true ->
  ue_add e = [] /\ ue_delete e = [] /\
  Forall (fun c => exists n v, c = mkSetClause (name_path n) (SetRhs_Operand (Operand_Value v)))
    (ue_set e) /\
  Forall (fun p => exists n, p = name_path n) (ue_remove e).
Proof.
  unfold is_simple. rewrite !andb_true_iff. intros [[[Ha Hd] Hs] Hr]. split_and!.
  - by destruct (ue_add e).
  - by destruct (ue_delete e).
  - apply Forall_forall. intros c Hc. rewrite forallb_forall in Hs.
    specialize (Hs c (proj1 (list_elem_of_In _ _) Hc)). apply andb_true_iff in Hs as [Ht Hv].
    destruct c as [p r]; simpl in *. apply is_top_level_iff in Ht as [n ->].
    destruct r as [[?|v]| | | |]; try done. eauto.
  - apply Forall_forall. intros p Hp. rewrite forallb_forall in Hr.
    by apply is_top_level_iff, Hr, list_elem_of_In.
Qed.

(** The literals an accepted clause list writes. *)
Definition literal_set (c : SetClause) : string * AttributeValue :=
  match top_name (set_path c), set_value c with
  | Some n, SetRhs_Operand (Operand_Value v) => (n, v)
  | _, _ => (EmptyString, Null_)
  end.
Definition removed_name (p : Path) : string := default EmptyString (top_name p).

(** No REMOVEd attribute is SET or part of the request key. *)
Definition disjoint_removes (e : UpdateExpression) (key : Item) : Prop :=
  forall n, n ∈ map removed_name (ue_remove e) ->
  (n ∉ BTreeMap.keys (map literal_set (ue_set e))) /\ (n ∉ BTreeMap.keys key).

Lemma simple_sets_Ok cs :
  Forall (fun c => exists n v, c = mkSetClause (name_path n) (SetRhs_Operand (Operand_Value v))) cs ->
  collect simple_set cs = Ok (map entry_to_value (map literal_set cs))
  /\ forall existing, collect (stage_item existing) cs = Ok (map literal_set cs).
Proof.
  induction 1 as [|c cs (n & v & ->) Hcs [IH1 IH2]]; [done|]. simpl. rewrite IH1.
  split; [done|]. intros existing. by rewrite IH2.
Qed.

Lemma simple_removes_Ok ps :
  Forall (fun p => exists n, p = name_path n) ps ->
  collect simple_remove ps = Ok (map removed_name ps)
  /\ forall it, fold_result remove_item it ps
                = Ok (fold_left (fun it n => BTreeMap.remove n it) (map removed_name ps) it).
Proof.
  induction 1 as [|p ps [n ->] Hps [IH1 IH2]]; [done|]. simpl. rewrite IH1.
  split; [done|]. intros it. by rewrite IH2.
Qed.

(** The slow path on a simple expression. *)
Lemma update_item_simple `{SerdeJson} e existing key :
  is_simple e = true ->
  update_item existing e key
  = Ok (fold_left (fun it n => BTreeMap.remove n it) (map removed_name (ue_remove e))
          (BTreeMap.insert_all (map literal_set (ue_set e)) (default key existing))).
Proof.
  intros (Ha & Hd & Hs & Hr)%is_simple_inv. unfold update_item. rewrite Ha, Hd.
  destruct (simple_sets_Ok _ Hs) as [_ ->]. destruct (simple_removes_Ok _ Hr) as [_ ->]. done.
Qed.

Lemma removes_item_to_value ns (it : Item) :
  fold_left (fun m n => BTreeMap.remove n m) ns (map entry_to_value it)
  = map entry_to_value (fold_left (fun it n => BTreeMap.remove n it) ns it).
Proof.
  revert it; induction ns as [|n ns IH]; intros it; simpl; [done|].
  by rewrite remove_item_to_value, IH.
Qed.

Lemma removes_absent ns (it : Item) :
  (forall n, n ∈ ns -> n ∉ BTreeMap.keys it) ->
  fold_left (fun it n => BTreeMap.remove n it) ns it = it.
Proof.
  induction ns as [|n ns IH]; intros Hn; simpl; [done|].
  rewrite BTreeMap.remove_id; [apply IH; set_solver|]. apply BTreeMap.get_None, Hn. left.
Qed.

Lemma keys_insert_all {V} (l : list (string * V)) m x :
  x ∈ BTreeMap.keys (BTreeMap.insert_all l m) -> x ∈ BTreeMap.keys l \/ x ∈ BTreeMap.keys m.
Proof.
  revert m; induction l as [|[k v] l IH]; intros m; simpl; [by right|].
  intros Hx. apply IH in Hx as [?|Hx%BTreeMap.keys_insert]; set_solver.
Qed.

Lemma materialize_simple_Ok plan key :
  is_simple (up_expression plan) = true -> up_condition plan = None ->
  materialize_simple_update plan key
  = Ok (mkSimpleUpdatePrimitives
          (item_to_value (BTreeMap.insert_all (map literal_set (ue_set (up_expression plan))) key))
          (map entry_to_value (map literal_set (ue_set (up_expression plan))))
          (map removed_name (ue_remove (up_expression plan)))).
Proof.
  intros Hsimple Hc. unfold materialize_simple_update. rewrite Hsimple, Hc. simpl.
  apply is_simple_inv in Hsimple as (_ & _ & Hs & Hr).
  destruct (simple_sets_Ok _ Hs) as [-> _]. destruct (simple_removes_Ok _ Hr) as [-> _].
  simpl. unfold insert_sets, item_to_value. by rewrite insert_all_refines.
Qed.
End materialize.

(** ** Theorems *)

(** The item the insert-only path stores for
    [attribute_not_exists(pk)] is the item the evaluator computes on a
    missing row, when nothing is both SET (or a key) and REMOVEd. *)
Theorem insert_only_equals_slow_path `{Base64} `{SerdeJson} plan key cp :
  is_simple (up_expression plan) = true -> up_condition plan = Some cp ->
  cp_routing cp = ConditionRouting_InsertOnlyOnPk ->
  disjoint_removes (up_expression plan) key ->
  exists v, materialize_insert_only_update plan key = Ok v /\
    apply_update_expression None (up_expression plan) key = Ok v.
Proof.
  intros Hs Hc Hr Hd. unfold materialize_insert_only_update, build_insert_item.
  rewrite Hs, Hc. simpl. rewrite Hr. simpl.
  pose proof (is_simple_inv _ Hs) as (_ & _ & Hss & _).
  destruct (simple_sets_Ok _ Hss) as [-> _]. eexists. split; [done|].
  change (@None Value) with (row_value None).
  rewrite apply_update_refines, (update_item_simple _ _ _ Hs). simpl. do 2 f_equal.
  unfold insert_sets, item_to_value. rewrite insert_all_refines. do 2 f_equal.
  apply removes_absent.
  intros n Hn [Hx|Hx]%keys_insert_all; by destruct (Hd n Hn).
Qed.

(** ** Witnesses *)

#[local] Instance display_none : SerdeJson := {| value_to_string _ := EmptyString |}.

Definition rename_plan (removes : list Path) (cond : option ConditionPlan) : UpdateItemPlan :=
  mkUpdateItemPlan (KeyValue_S "k") None
    (mkUpdateExpression
       [mkSetClause (name_path "name") (SetRhs_Operand (Operand_Value (S_ "x")))] removes [] [])
    cond ReturnValuesMode_None.

Definition insert_only_cond : ConditionPlan :=
  mkConditionPlan ConditionRouting_InsertOnlyOnPk (Condition_AttributeNotExists (name_path "pk")).

Lemma insert_only_witness :
  exists v, materialize_insert_only_update (rename_plan [] (Some insert_only_cond)) [("pk", S_ "k")]
            = Ok v /\
    apply_update_expression None
      (up_expression (rename_plan [] (Some insert_only_cond))) [("pk", S_ "k")] = Ok v.
Proof.
  apply (insert_only_equals_slow_path (rename_plan [] (Some insert_only_cond)) [("pk", S_ "k")]
           insert_only_cond); [reflexivity | reflexivity | reflexivity |].
  intros n Hn. by apply elem_of_nil in Hn.
Defined.

(** On a missing row, an attribute both SET and REMOVEd is kept by the
    insert branch and dropped by the evaluator. *)
Lemma set_and_remove_diverge :
  exists p, materialize_simple_update (rename_plan [name_path "name"] None) [("pk", S_ "k")] = Ok p
  /\ value_get (sup_insert_item p) "name" = Some (to_value (S_ "x"))
  /\ apply_update_expression None (up_expression (rename_plan [name_path "name"] None))
       [("pk", S_ "k")] = Ok (item_to_value [("pk", S_ "k")]).
Proof. eexists. split; [reflexivity|]. split; reflexivity. Qed.
