(* ===== verification/Translate.v ===== *)
(** * The translator (rekt-translator, [translate.rs])

    The entry points that turn requests into plans: key extraction,
    expression parsing and substitution, per-clause validation, condition
    routing, index resolution, batches and transactions. *)

From S2P Require Import Prelude RustStr BTree Json Attr Base64Std Ast Winnow Parser Reserved.
From S2P Require Import Substitute F64 EvalCondition EvalUpdate Storage Operations Schema Errors Plan Keys.
From S2P Require Import Checks KeyCondition Paging Projection Materialize.

(** [HashMap<String, TableSchema>], looked up by table name. *)
Definition Schemas : Type := gmap string TableSchema.

Definition parse_return_old_on_failure (raw : option string) : Result TranslateError bool :=
  if eqb raw None || eqb raw (Some "NONE") then Ok false
  else if eqb raw (Some "ALL_OLD") then Ok true
  else Err (TranslateError_UnsupportedReturnValuesForOp "TransactWriteItems"
              (default EmptyString raw)).

Definition resolve_put_delete_return_values (raw : option string) (op : string)
  : Result TranslateError ReturnValuesMode :=
  if eqb raw None || eqb raw (Some "NONE") then Ok ReturnValuesMode_None
  else if eqb raw (Some "ALL_OLD") then Ok ReturnValuesMode_AllOld
  else Err (TranslateError_UnsupportedReturnValuesForOp op (default EmptyString raw)).

(** The five modes of UpdateItem. *)
Definition resolve_update_return_values (raw : option string)
  : Result TranslateError ReturnValuesMode :=
  if eqb raw None || eqb raw (Some "NONE") then Ok ReturnValuesMode_None
  else if eqb raw (Some "ALL_NEW") then Ok ReturnValuesMode_AllNew
  else if eqb raw (Some "ALL_OLD") then Ok ReturnValuesMode_AllOld
  else if eqb raw (Some "UPDATED_NEW") then Ok ReturnValuesMode_UpdatedNew
  else if eqb raw (Some "UPDATED_OLD") then Ok ReturnValuesMode_UpdatedOld
  else Err (TranslateError_UnsupportedReturnValues (default EmptyString raw)).

(** [limit.map(validate_limit).transpose()?]. *)
Definition validate_opt_limit (limit : option N) : Result TranslateError (option N) :=
  match limit with
  | None => Ok None
  | Some l => let? l := validate_limit l in Ok (Some l)
  end.

Definition total_as_u32 (total : nat) : N := (N.of_nat total mod 4294967296)%N.

Section translate.
Context `{Winnow} `{Base64}.

Definition translate_condition (raw : option string) (names : Names) (values : Values)
  (schema : TableSchema) : Result TranslateError (option ConditionPlan) :=
  match raw with
  | None => Ok None
  | Some c =>
      if is_blank c then Ok None
      else
        let? raw_ast := map_err from_parse_error (parse_condition_expression c) in
        let? cond := map_err map_substitute_for_condition
                       (substitute_condition names values raw_ast) in
        let? _ := check_condition_paths_top_level cond in
        Ok (Some (mkConditionPlan (classify_condition cond schema) cond))
  end.

(** ** Single-row operations *)

Definition translate_put_item (req : PutItemRequest) (schema : TableSchema)
  : Result TranslateError PutItemPlan :=
  let? (pk, sk) := extract_key_pair (put_item req) schema in
  let? return_values := resolve_put_delete_return_values (put_return_values req) "PutItem" in
  let names := default [] (put_expression_attribute_names req) in
  let values := default [] (put_expression_attribute_values req) in
  let? condition := translate_condition (put_condition_expression req) names values schema in
  Ok (mkPutItemPlan pk sk (item_to_value (put_item req)) condition return_values).

Definition translate_get_item (req : GetItemRequest) (schema : TableSchema)
  : Result TranslateError GetItemPlan :=
  let? (pk, sk) := extract_key_pair (get_key req) schema in
  let? _ := reject_extra_key_attrs (get_key req) schema in
  Ok (mkGetItemPlan pk sk).

Definition translate_delete_item (req : DeleteItemRequest) (schema : TableSchema)
  : Result TranslateError DeleteItemPlan :=
  let? (pk, sk) := extract_key_pair (delete_key req) schema in
  let? _ := reject_extra_key_attrs (delete_key req) schema in
  let? return_values := resolve_put_delete_return_values (delete_return_values req) "DeleteItem" in
  let names := default [] (delete_expression_attribute_names req) in
  let values := default [] (delete_expression_attribute_values req) in
  let? condition := translate_condition (delete_condition_expression req) names values schema in
  Ok (mkDeleteItemPlan pk sk condition return_values).

(** No clause at all. *)
Definition is_empty_update (e : UpdateExpression) : bool :=
  match ue_set e, ue_remove e, ue_add e, ue_delete e with
  | [], [], [], [] => true
  | _, _, _, _ => false
  end.

Definition translate_update_item (req : UpdateItemRequest) (schema : TableSchema)
  : Result TranslateError UpdateItemPlan :=
  let? return_values := resolve_update_return_values (update_return_values req) in
  let? (pk, sk) := extract_key_pair (update_key req) schema in
  let? _ := reject_extra_key_attrs (update_key req) schema in
  let? raw := map_err from_parse_error
                (parse_update_expression (update_update_expression req)) in
  let names := default [] (update_expression_attribute_names req) in
  let values := default [] (update_expression_attribute_values req) in
  let? expression := map_err from_substitute_error (substitute_update names values raw) in
  if is_empty_update expression then Err TranslateError_EmptyUpdateExpression
  else
    let? _ := check_update_expression expression schema in
    let? condition :=
      translate_condition (update_condition_expression req) names values schema in
    Ok (mkUpdateItemPlan pk sk expression condition return_values).

(** ** Query and Scan *)

Definition not_serveable {A} (index : string) (reason : option string)
  : Result TranslateError A :=
  Err (TranslateError_IndexNotServeable index (default "not currently queryable" reason)).

Definition resolve_index_for_query (schema : TableSchema) (index_name : option string)
  : Result TranslateError (TableSchema * option IndexSort) :=
  match index_name with
  | None => Ok (schema, None)
  | Some n =>
      match BTreeMap.get n (lsis schema) with
      | Some lsi =>
          if negb (lsi_serveable lsi) then not_serveable n (lsi_unserveable_reason lsi)
          else
            let synthetic :=
              mkTableSchema (name schema) (pg_table schema) (pk_attr schema) (pk_type schema)
                (Some (lsi_sort_attr lsi)) (Some (lsi_sort_type lsi)) (jsonb_col schema)
                (lsis schema) (gsis schema) in
            Ok (synthetic,
                Some (mkIndexSort n None
                        (Some (mkIndexColumn (lsi_sort_pg_col lsi) (lsi_sort_type lsi)))))
      | None =>
          match BTreeMap.get n (gsis schema) with
          | Some gsi =>
              if negb (gsi_serveable gsi) then not_serveable n (gsi_unserveable_reason gsi)
              else
                let synthetic :=
                  mkTableSchema (name schema) (pg_table schema) (gsi_partition_attr gsi)
                    (gsi_partition_type gsi) (gsi_sort_attr gsi) (gsi_sort_type gsi)
                    (jsonb_col schema) (lsis schema) (gsis schema) in
                Ok (synthetic,
                    Some (mkIndexSort n
                      (Some (mkIndexColumn (gsi_partition_pg_col gsi) (gsi_partition_type gsi)))
                      match gsi_sort_pg_col gsi, gsi_sort_type gsi with
                      | Some c, Some t => Some (mkIndexColumn c t)
                      | _, _ => None
                      end))
          | None => Err (TranslateError_IndexNotFound n)
          end
      end
  end.

Definition translate_query (req : QueryRequest) (schema : TableSchema)
  : Result TranslateError QueryPlan :=
  if is_blank (query_key_condition_expression req)
  then Err (TranslateError_KeyConditionMissingPkEquality (pk_attr schema))
  else
    let? (effective, index_sort) := resolve_index_for_query schema (query_index_name req) in
    let? raw := map_err from_parse_error
                  (parse_condition_expression (query_key_condition_expression req)) in
    let names := default [] (query_expression_attribute_names req) in
    let values := default [] (query_expression_attribute_values req) in
    let? cond := map_err map_substitute_for_condition (substitute_condition names values raw) in
    let? bounds := extract_key_condition cond effective in
    let? limit := validate_opt_limit (query_limit req) in
    let? esk_sk :=
      match query_exclusive_start_key req with
      | None => Ok None
      | Some esk => decode_esk esk effective (kb_pk bounds)
      end in
    let? filter := translate_condition (query_filter_expression req) names values schema in
    let forward := default true (query_scan_index_forward req) in
    let? (select_count_only, projection) :=
      resolve_select_and_projection (query_select req) (query_projection_expression req) names
        (bool_decide (is_Some index_sort)) in
    Ok (mkQueryPlan (kb_pk bounds) (kb_sk_condition bounds) limit esk_sk filter forward
          select_count_only projection index_sort).

Definition translate_scan (req : ScanRequest) (schema : TableSchema)
  : Result TranslateError ScanPlan :=
  if bool_decide (is_Some (scan_segment req)) || bool_decide (is_Some (scan_total_segments req))
  then Err (TranslateError_ScanFeatureNotSupported "Segment / TotalSegments (parallel scan)")
  else
    let? (effective, index_sort) := resolve_index_for_query schema (scan_index_name req) in
    let? limit := validate_opt_limit (scan_limit req) in
    let? (esk_pk, esk_sk) :=
      match scan_exclusive_start_key req with
      | None => Ok (None, None)
      | Some esk =>
          let? (pk, sk) := decode_scan_esk esk effective in
          Ok (Some pk, sk)
      end in
    let names := default [] (scan_expression_attribute_names req) in
    let values := default [] (scan_expression_attribute_values req) in
    let? filter := translate_condition (scan_filter_expression req) names values schema in
    let? (select_count_only, projection) :=
      resolve_select_and_projection (scan_select req) (scan_projection_expression req) names
        (bool_decide (is_Some index_sort)) in
    Ok (mkScanPlan limit esk_pk esk_sk filter select_count_only projection index_sort).

(** ** Batches *)

Definition KeyTuple : Type := KeyValue * option KeyValue.

(** One key of a BatchGetItem table, with the keys seen so far. *)
Definition batch_get_key (schema : TableSchema) (keys : list KeyTuple) (key_item : Item)
  : Result TranslateError (list KeyTuple) :=
  let? tuple := extract_key_pair key_item schema in
  let? _ := reject_extra_key_attrs key_item schema in
  if contains keys tuple then Err TranslateError_DuplicateKeyInBatch
  else Ok (keys ++ [tuple]).

Definition batch_get_table (schemas : Schemas) (entry : string * KeysAndAttributes)
  : Result TranslateError BatchGetPerTable :=
  let '(table_name, ka) := entry in
  let? schema := ok_or (schemas !! table_name)
                   (TranslateError_ResourceNotFoundForBatch table_name) in
  if bool_decide (is_Some (ka_attributes_to_get ka))
  then Err TranslateError_AttributesToGetNotSupported
  else if Nat.eqb (length (ka_keys ka)) 0
  then Err (TranslateError_EmptyKeysInBatchGet table_name)
  else
    let names := default [] (ka_expression_attribute_names ka) in
    let? projection := parse_projection (ka_projection_expression ka) names in
    let consistent_read := default false (ka_consistent_read ka) in
    let? keys := fold_result (batch_get_key schema) [] (ka_keys ka) in
    Ok (mkBatchGetPerTable table_name keys projection consistent_read).

Definition sum_lengths (l : list nat) : nat := foldr Nat.add 0 l.

Definition translate_batch_get_item (req : BatchGetItemRequest) (schemas : Schemas)
  (max_keys : N) : Result TranslateError BatchGetItemPlan :=
  match bg_request_items req with
  | [] => Err TranslateError_EmptyBatchGetRequest
  | items =>
      let total := sum_lengths (map (fun kv => length (ka_keys kv.2)) items) in
      if (max_keys <? N.of_nat total)%N
      then Err (TranslateError_TooManyKeysInBatchGet (total_as_u32 total) max_keys)
      else
        let? per_table := collect (batch_get_table schemas) items in
        Ok (mkBatchGetItemPlan per_table)
  end.

(** One write of a BatchWriteItem table. The key of a pushed operation is
    in [seen]. *)
Definition batch_write_op (schema : TableSchema) (st : list KeyTuple * list WriteOp)
  (w : WriteRequest) : Result TranslateError (list KeyTuple * list WriteOp) :=
  let '(seen, ops) := st in
  match wr_put_request w, wr_delete_request w with
  | Some p, None =>
      let? (pk, sk) := extract_key_pair (pr_item p) schema in
      if contains seen (pk, sk) then Err TranslateError_DuplicateKeyInBatch
      else Ok ((pk, sk) :: seen, ops ++ [WriteOp_Put pk sk (item_to_value (pr_item p))])
  | None, Some d =>
      let? (pk, sk) := extract_key_pair (dr_key d) schema in
      let? _ := reject_extra_key_attrs (dr_key d) schema in
      if contains seen (pk, sk) then Err TranslateError_DuplicateKeyInBatch
      else Ok ((pk, sk) :: seen, ops ++ [WriteOp_Delete pk sk])
  | _, _ => Err TranslateError_MalformedWriteRequest
  end.

Definition batch_write_table (schemas : Schemas) (entry : string * list WriteRequest)
  : Result TranslateError BatchWritePerTable :=
  let '(table_name, writes) := entry in
  let? schema := ok_or (schemas !! table_name)
                   (TranslateError_ResourceNotFoundForBatch table_name) in
  if Nat.eqb (length writes) 0 then Err (TranslateError_EmptyWritesInBatch table_name)
  else
    let? (_, ops) := fold_result (batch_write_op schema) ([], []) writes in
    Ok (mkBatchWritePerTable table_name ops).

Definition translate_batch_write_item (req : BatchWriteItemRequest) (schemas : Schemas)
  (max_writes : N) : Result TranslateError BatchWriteItemPlan :=
  match bw_request_items req with
  | [] => Err TranslateError_EmptyBatchWriteRequest
  | items =>
      let total := sum_lengths (map (fun kv => length kv.2) items) in
      if (max_writes <? N.of_nat total)%N
      then Err (TranslateError_TooManyWritesInBatch (total_as_u32 total) max_writes)
      else
        let? per_table := collect (batch_write_table schemas) items in
        Ok (mkBatchWriteItemPlan per_table)
  end.

(** ** Transactions *)

Definition Target : Type := string * KeyValue * option KeyValue.

Definition transact_get_item (schemas : Schemas) (st : list Target * list TransactGetPlanItem)
  (ti : TransactGetItem) : Result TranslateError (list Target * list TransactGetPlanItem) :=
  let '(seen, items) := st in
  let? get := ok_or (tgi_get ti) (TranslateError_MalformedTransactItem "Get") in
  let? schema := ok_or (schemas !! tg_table_name get)
                   (TranslateError_ResourceNotFoundForTransact (tg_table_name get)) in
  let? (pk, sk) := extract_key_pair (tg_key get) schema in
  let? _ := reject_extra_key_attrs (tg_key get) schema in
  let target := (tg_table_name get, pk, sk) in
  if contains seen target then Err TranslateError_DuplicateTransactTarget
  else
    let names := default [] (tg_expression_attribute_names get) in
    let? projection := parse_projection (tg_projection_expression get) names in
    Ok (target :: seen, items ++ [mkTransactGetPlanItem (tg_table_name get) pk sk projection]).

Definition translate_transact_get_items (req : TransactGetItemsRequest) (schemas : Schemas)
  (max_items : N) : Result TranslateError TransactGetItemsPlan :=
  match tg_transact_items req with
  | [] => Err TranslateError_EmptyTransactRequest
  | tis =>
      let total := length tis in
      if (max_items <? N.of_nat total)%N
      then Err (TranslateError_TooManyTransactItems (total_as_u32 total) max_items)
      else
        let? (_, items) := fold_result (transact_get_item schemas) ([], []) tis in
        Ok (mkTransactGetItemsPlan items)
  end.

(** [if !seen.insert(target) { return Err(..) }]. *)
Definition claim_target (seen : list Target) (target : Target)
  : Result TranslateError (list Target) :=
  if contains seen target then Err TranslateError_DuplicateTransactTarget
  else Ok (target :: seen).

Definition find_schema (schemas : Schemas) (table : string) : Result TranslateError TableSchema :=
  ok_or (schemas !! table) (TranslateError_ResourceNotFoundForTransact table).

Definition transact_put (schemas : Schemas) (seen : list Target) (put : TransactPut)
  : Result TranslateError (list Target * TransactWritePlanItem) :=
  let? schema := find_schema schemas (tp_table_name put) in
  let? (pk, sk) := extract_key_pair (tp_item put) schema in
  let? seen := claim_target seen (tp_table_name put, pk, sk) in
  let names := default [] (tp_expression_attribute_names put) in
  let values := default [] (tp_expression_attribute_values put) in
  let? condition := translate_condition (tp_condition_expression put) names values schema in
  let? return_old_on_failure :=
    parse_return_old_on_failure (tp_return_values_on_condition_check_failure put) in
  Ok (seen, mkTransactWritePlanItem (tp_table_name put) pk sk
              (TransactWriteKind_Put (item_to_value (tp_item put))) condition
              return_old_on_failure).

Definition transact_delete (schemas : Schemas) (seen : list Target) (del : TransactDelete)
  : Result TranslateError (list Target * TransactWritePlanItem) :=
  let? schema := find_schema schemas (td_table_name del) in
  let? (pk, sk) := extract_key_pair (td_key del) schema in
  let? _ := reject_extra_key_attrs (td_key del) schema in
  let? seen := claim_target seen (td_table_name del, pk, sk) in
  let names := default [] (td_expression_attribute_names del) in
  let values := default [] (td_expression_attribute_values del) in
  let? condition := translate_condition (td_condition_expression del) names values schema in
  let? return_old_on_failure :=
    parse_return_old_on_failure (td_return_values_on_condition_check_failure del) in
  Ok (seen, mkTransactWritePlanItem (td_table_name del) pk sk TransactWriteKind_Delete condition
              return_old_on_failure).

Definition transact_condition_check (schemas : Schemas) (seen : list Target)
  (cc : TransactConditionCheck) : Result TranslateError (list Target * TransactWritePlanItem) :=
  let? schema := find_schema schemas (tc_table_name cc) in
  let? (pk, sk) := extract_key_pair (tc_key cc) schema in
  let? _ := reject_extra_key_attrs (tc_key cc) schema in
  let? seen := claim_target seen (tc_table_name cc, pk, sk) in
  let names := default [] (tc_expression_attribute_names cc) in
  let values := default [] (tc_expression_attribute_values cc) in
  let? condition := translate_condition (Some (tc_condition_expression cc)) names values schema in
  let? condition := ok_or condition (TranslateError_MalformedTransactItem
                      "ConditionCheck requires non-empty ConditionExpression") in
  let? return_old_on_failure :=
    parse_return_old_on_failure (tc_return_values_on_condition_check_failure cc) in
  Ok (seen, mkTransactWritePlanItem (tc_table_name cc) pk sk TransactWriteKind_ConditionCheck
              (Some condition) return_old_on_failure).

Definition transact_update (schemas : Schemas) (seen : list Target) (upd : TransactUpdate)
  : Result TranslateError (list Target * TransactWritePlanItem) :=
  let? schema := find_schema schemas (tu_table_name upd) in
  let? (pk, sk) := extract_key_pair (tu_key upd) schema in
  let? _ := reject_extra_key_attrs (tu_key upd) schema in
  let? seen := claim_target seen (tu_table_name upd, pk, sk) in
  let? raw_expr := map_err from_parse_error (parse_update_expression (tu_update_expression upd)) in
  let names := default [] (tu_expression_attribute_names upd) in
  let values := default [] (tu_expression_attribute_values upd) in
  let? expression := map_err from_substitute_error (substitute_update names values raw_expr) in
  if is_empty_update expression then Err TranslateError_EmptyUpdateExpression
  else
    let? _ := check_update_expression expression schema in
    let? condition := translate_condition (tu_condition_expression upd) names values schema in
    let? return_old_on_failure :=
      parse_return_old_on_failure (tu_return_values_on_condition_check_failure upd) in
    Ok (seen, mkTransactWritePlanItem (tu_table_name upd) pk sk
                (TransactWriteKind_Update expression (tu_key upd)) condition
                return_old_on_failure).

Definition is_some {A} (o : option A) : bool := match o with Some _ => true | None => false end.

(** Precisely one of the four variants; then its branch. *)
Definition transact_write_item (schemas : Schemas) (st : list Target * list TransactWritePlanItem)
  (ti : TransactWriteItem) : Result TranslateError (list Target * list TransactWritePlanItem) :=
  let '(seen, items) := st in
  let set_count :=
    length (List.filter id [is_some (twi_put ti); is_some (twi_delete ti);
                            is_some (twi_update ti); is_some (twi_condition_check ti)]) in
  let malformed :=
    TranslateError_MalformedTransactItem "Put | Delete | Update | ConditionCheck" in
  if negb (Nat.eqb set_count 1) then Err malformed
  else
    let? (seen, item) :=
      match twi_put ti, twi_delete ti, twi_condition_check ti, twi_update ti with
      | Some put, _, _, _ => transact_put schemas seen put
      | None, Some del, _, _ => transact_delete schemas seen del
      | None, None, Some cc, _ => transact_condition_check schemas seen cc
      | None, None, None, Some upd => transact_update schemas seen upd
      | None, None, None, None => Err malformed
      end in
    Ok (seen, items ++ [item]).

Definition translate_transact_write_items (req : TransactWriteItemsRequest) (schemas : Schemas)
  (max_items : N) : Result TranslateError TransactWriteItemsPlan :=
  match tw_transact_items req with
  | [] => Err TranslateError_EmptyTransactRequest
  | tis =>
      let total := length tis in
      if (max_items <? N.of_nat total)%N
      then Err (TranslateError_TooManyTransactItems (total_as_u32 total) max_items)
      else if match tw_client_request_token req with
              | Some t => Nat.ltb 36 (String.length t)
              | None => false
              end
      then Err (TranslateError_InvalidConditionExpression "ClientRequestToken must be <= 36 chars")
      else
        let? (_, items) := fold_result (transact_write_item schemas) ([], []) tis in
        Ok (mkTransactWriteItemsPlan items)
  end.

(** ** What a plan guarantees *)

Lemma translate_update_facts req s plan :
  translate_update_item req s = Ok plan ->
  is_key_pair (update_key req) s (up_pk plan, up_sk plan)
  /\ (forall a, a ∈ BTreeMap.keys (update_key req) -> a ∈ key_attrs s)
  /\ accepted_update (up_expression plan) s
  /\ is_empty_update (up_expression plan) = false.
Proof.
  unfold translate_update_item. intros Hp.
  destruct (resolve_update_return_values _); [|done|done].
  destruct (extract_key_pair _ _) as [[pk sk]| |] eqn:Hk; [|done|done].
  destruct (reject_extra_key_attrs _ _) as [[]| |] eqn:Hx; [|done|done].
  destruct (map_err from_parse_error _); [|done|done].
  destruct (map_err from_substitute_error _) as [e| |]; [|done|done].
  destruct (is_empty_update e) eqn:He; [done|].
  destruct (check_update_expression e s) as [[]| |] eqn:Hc; [|done|done].
  destruct (translate_condition _ _ _ _); [|done|done]. injection Hp as <-. simpl.
  split_and!; [by apply extract_key_pair_Ok | by apply reject_extra_Ok
              | by apply check_update_Ok | done].
Qed.

(** The keys of a BatchGetItem table. *)
Lemma batch_get_keys_facts s items keys0 keys :
  fold_result (batch_get_key s) keys0 items = Ok keys ->
  NoDup keys0 ->
  NoDup keys /\ exists ks, keys = keys0 ++ ks /\
    Forall2 (fun it k => is_key_pair it s k /\
               forall a, a ∈ BTreeMap.keys it -> a ∈ key_attrs s) items ks.
Proof.
  revert keys0; induction items as [|it items IH]; intros keys0; simpl.
  { intros [= <-] Hnd. split; [done|]. exists []. by rewrite app_nil_r. }
  unfold batch_get_key at 1.
  destruct (extract_key_pair it s) as [t| |] eqn:Hk; [|done|done].
  destruct (reject_extra_key_attrs it s) as [[]| |] eqn:Hx; [|done|done].
  destruct (contains keys0 t) eqn:Hc; [done|]. apply contains_false in Hc.
  intros Hf Hnd. destruct (IH _ Hf) as (Hn & ks & -> & Hall).
  { apply NoDup_app. split_and!; [done| |apply NoDup_singleton].
    intros x Hx' ->%list_elem_of_singleton. done. }
  split; [done|]. exists (t :: ks). rewrite <- app_assoc. split; [done|].
  constructor; [|done]. split; [by apply extract_key_pair_Ok | by apply reject_extra_Ok].
Qed.

(** The operation a write request asks for. *)
Definition op_key (op : WriteOp) : KeyTuple :=
  match op with WriteOp_Put pk sk _ => (pk, sk) | WriteOp_Delete pk sk => (pk, sk) end.

Definition implements_write (s : TableSchema) (w : WriteRequest) (op : WriteOp) : Prop :=
  match op with
  | WriteOp_Put pk sk item =>
      exists p, wr_put_request w = Some p /\ wr_delete_request w = None
                /\ item = item_to_value (pr_item p) /\ is_key_pair (pr_item p) s (pk, sk)
  | WriteOp_Delete pk sk =>
      exists d, wr_delete_request w = Some d /\ wr_put_request w = None
                /\ is_key_pair (dr_key d) s (pk, sk)
                /\ forall a, a ∈ BTreeMap.keys (dr_key d) -> a ∈ key_attrs s
  end.

Lemma batch_write_op_facts s seen ops w st' :
  batch_write_op s (seen, ops) w = Ok st' ->
  exists op, st' = (op_key op :: seen, ops ++ [op]) /\ (op_key op ∉ seen)
             /\ implements_write s w op.
Proof.
  unfold batch_write_op.
  destruct (wr_put_request w) as [p|] eqn:Hp, (wr_delete_request w) as [d|] eqn:Hd; try done.
  - destruct (extract_key_pair _ _) as [[pk sk]| |] eqn:Hk; [|done|done].
    destruct (contains seen (pk, sk)) eqn:Hc; [done|]. apply contains_false in Hc.
    intros [= <-]. exists (WriteOp_Put pk sk (item_to_value (pr_item p))).
    split_and!; [done|done|]. exists p. by rewrite <- extract_key_pair_Ok.
  - destruct (extract_key_pair _ _) as [[pk sk]| |] eqn:Hk; [|done|done].
    destruct (reject_extra_key_attrs _ _) as [[]| |] eqn:Hx; [|done|done].
    destruct (contains seen (pk, sk)) eqn:Hc; [done|]. apply contains_false in Hc.
    intros [= <-]. exists (WriteOp_Delete pk sk).
    split_and!; [done|done|]. exists d. rewrite <- extract_key_pair_Ok, <- reject_extra_Ok. done.
Qed.

Lemma batch_write_ops_facts s writes seen ops st' :
  fold_result (batch_write_op s) (seen, ops) writes = Ok st' ->
  NoDup (map op_key ops) -> (forall k, k ∈ map op_key ops -> k ∈ seen) ->
  NoDup (map op_key st'.2) /\
  exists new, st'.2 = ops ++ new /\ Forall2 (implements_write s) writes new.
Proof.
  revert seen ops; induction writes as [|w writes IH]; intros seen ops; cbn [fold_result].
  { intros [= <-] Hnd _. split; [done|]. exists []. by rewrite app_nil_r. }
  destruct (batch_write_op s (seen, ops) w) as [st1| |] eqn:Hop; [|done|done].
  apply batch_write_op_facts in Hop as (op & -> & Hnew & Himpl).
  intros Hf Hnd Hseen. destruct (IH _ _ Hf) as (Hn & new & Hnew' & Hall).
  - rewrite map_app. apply NoDup_app. split_and!; [done| |apply NoDup_singleton].
    intros x Hx ->%list_elem_of_singleton. auto.
  - intros k. rewrite map_app, elem_of_app, elem_of_cons. simpl.
    rewrite list_elem_of_singleton. naive_solver.
  - rewrite Hnew' in *. split; [done|]. exists (op :: new). rewrite <- app_assoc.
    split; [done|]. by constructor.
Qed.

(** Transactions: each plan item claims a fresh target. *)
Definition plan_target (it : TransactWritePlanItem) : Target :=
  (twp_table_name it, twp_pk it, twp_sk it).

(** The request item a plan item stands for. *)
Definition implements_transact (schemas : Schemas) (ti : TransactWriteItem)
  (it : TransactWritePlanItem) : Prop :=
  exists s, schemas !! twp_table_name it = Some s /\
  match twp_kind it with
  | TransactWriteKind_Put v =>
      exists p, twi_put ti = Some p /\ tp_table_name p = twp_table_name it
        /\ v = item_to_value (tp_item p) /\ is_key_pair (tp_item p) s (twp_pk it, twp_sk it)
  | TransactWriteKind_Delete =>
      exists d, twi_delete ti = Some d /\ td_table_name d = twp_table_name it
        /\ is_key_pair (td_key d) s (twp_pk it, twp_sk it)
  | TransactWriteKind_ConditionCheck =>
      is_Some (twp_condition it) /\
      exists c, twi_condition_check ti = Some c /\ tc_table_name c = twp_table_name it
        /\ is_key_pair (tc_key c) s (twp_pk it, twp_sk it)
  | TransactWriteKind_Update e key =>
      exists u, twi_update ti = Some u /\ tu_table_name u = twp_table_name it /\ key = tu_key u
        /\ is_key_pair key s (twp_pk it, twp_sk it) /\ accepted_update e s
  end.

Lemma find_schema_Ok schemas t s : find_schema schemas t = Ok s -> schemas !! t = Some s.
Proof. unfold find_schema. by destruct (schemas !! t); simpl; intros [= ->]. Qed.

Lemma claim_target_Ok seen t seen' :
  claim_target seen t = Ok seen' -> seen' = t :: seen /\ t ∉ seen.
Proof.
  unfold claim_target. destruct (contains seen t) eqn:E; [done|]. intros [= <-].
  by apply contains_false in E.
Qed.

(** The common prefix of the four branches: schema, key, target. *)
Ltac transact_prefix :=
  match goal with
  | |- context [find_schema ?ss ?t] =>
      let E := fresh "Hschema" in
      destruct (find_schema ss t) as [s| |] eqn:E; [apply find_schema_Ok in E|done|done]
  end;
  match goal with
  | |- context [extract_key_pair ?it ?s] =>
      let E := fresh "Hkey" in
      destruct (extract_key_pair it s) as [[pk sk]| |] eqn:E;
      [apply extract_key_pair_Ok in E|done|done]
  end;
  try (match goal with
  | |- context [reject_extra_key_attrs ?it ?s] =>
      destruct (reject_extra_key_attrs it s) as [[]| |]; [|done|done]
  end);
  match goal with
  | |- context [claim_target ?ss ?t] =>
      let E := fresh "Hclaim" in
      destruct (claim_target ss t) as [seen1| |] eqn:E;
      [apply claim_target_Ok in E as [-> Hclaim]|done|done]
  end.

Lemma transact_branch_facts schemas seen ti r :
  match twi_put ti, twi_delete ti, twi_condition_check ti, twi_update ti with
  | Some put, _, _, _ => transact_put schemas seen put
  | None, Some del, _, _ => transact_delete schemas seen del
  | None, None, Some cc, _ => transact_condition_check schemas seen cc
  | None, None, None, Some upd => transact_update schemas seen upd
  | None, None, None, None =>
      Err (TranslateError_MalformedTransactItem "Put | Delete | Update | ConditionCheck")
  end = Ok r ->
  r.1 = plan_target r.2 :: seen /\ (plan_target r.2 ∉ seen) /\ implements_transact schemas ti r.2.
Proof.
  unfold implements_transact.
  destruct (twi_put ti) as [p|] eqn:Hp.
  { unfold transact_put. transact_prefix.
    destruct (translate_condition _ _ _ _); [|done|done].
    destruct (parse_return_old_on_failure _); [|done|done]. intros [= <-]. simpl.
    split_and!; [done|done|]. exists s. eauto 10. }
  destruct (twi_delete ti) as [d|] eqn:Hd.
  { unfold transact_delete. transact_prefix.
    destruct (translate_condition _ _ _ _); [|done|done].
    destruct (parse_return_old_on_failure _); [|done|done]. intros [= <-]. simpl.
    split_and!; [done|done|]. exists s. eauto 10. }
  destruct (twi_condition_check ti) as [c|] eqn:Hcc.
  { unfold transact_condition_check. transact_prefix.
    destruct (translate_condition _ _ _ _) as [[cond|]| |]; simpl; [|done|done|done].
    destruct (parse_return_old_on_failure _); [|done|done]. intros [= <-]. simpl.
    split_and!; [done|done|]. exists s. split; [done|]. split; [by eexists|]. eauto 10. }
  destruct (twi_update ti) as [u|] eqn:Hu; [|done].
  unfold transact_update. transact_prefix.
  destruct (map_err from_parse_error _); [|done|done].
  destruct (map_err from_substitute_error _) as [e| |]; [|done|done].
  destruct (is_empty_update e); [done|].
  destruct (check_update_expression e s) as [[]| |] eqn:Hc; [|done|done].
  destruct (translate_condition _ _ _ _); [|done|done].
  destruct (parse_return_old_on_failure _); [|done|done]. intros [= <-]. simpl.
  apply check_update_Ok in Hc. split_and!; [done|done|]. exists s. eauto 10.
Qed.

Lemma transact_write_item_facts schemas seen items ti st' :
  transact_write_item schemas (seen, items) ti = Ok st' ->
  exists it, st' = (plan_target it :: seen, items ++ [it]) /\ (plan_target it ∉ seen)
             /\ implements_transact schemas ti it.
Proof.
  unfold transact_write_item. destruct (negb _); [done|].
  match goal with |- (let? _ := ?m in _) = _ -> _ => destruct m as [r| |] eqn:E; [|done|done] end.
  apply transact_branch_facts in E as (H1 & H2 & H3). destruct r as [seen1 it]. simpl in *. subst.
  intros [= <-]. by exists it.
Qed.

Lemma transact_write_items_facts schemas tis seen items st' :
  fold_result (transact_write_item schemas) (seen, items) tis = Ok st' ->
  NoDup (map plan_target items) -> (forall t, t ∈ map plan_target items -> t ∈ seen) ->
  NoDup (map plan_target st'.2) /\
  exists new, st'.2 = items ++ new /\ Forall2 (implements_transact schemas) tis new.
Proof.
  revert seen items; induction tis as [|ti tis IH]; intros seen items; cbn [fold_result].
  { intros [= <-] Hnd _. split; [done|]. exists []. by rewrite app_nil_r. }
  destruct (transact_write_item schemas (seen, items) ti) as [st1| |] eqn:Hop; [|done|done].
  apply transact_write_item_facts in Hop as (it & -> & Hnew & Himpl).
  intros Hf Hnd Hseen. destruct (IH _ _ Hf) as (Hn & new & Hnew' & Hall).
  - rewrite map_app. apply NoDup_app. split_and!; [done| |apply NoDup_singleton].
    intros x Hx ->%list_elem_of_singleton. auto.
  - intros k. rewrite map_app, elem_of_app, elem_of_cons. simpl.
    rewrite list_elem_of_singleton. naive_solver.
  - rewrite Hnew' in *. split; [done|]. exists (it :: new). rewrite <- app_assoc.
    split; [done|]. by constructor.
Qed.

(** ** Theorems *)

(** C23: an accepted UpdateItem cannot move a row. Whatever update
    expression the translator accepts, evaluating it never panics, and
    the new row has the key attributes of the row it replaces (of the
    request key, when there was none). *)
Theorem accepted_update_preserves_key `{SerdeJson} req s plan existing :
  translate_update_item req s = Ok plan ->
  match apply_update_expression (row_value existing) (up_expression plan) (update_key req) with
  | Ok v => forall a, a ∈ key_attrs s ->
      value_get v a = value_get (item_to_value (default (update_key req) existing)) a
  | Err _ => True
  | Panic => False
  end.
Proof.
  intros (_ & _ & Hacc & _)%translate_update_facts. rewrite apply_update_refines.
  pose proof (update_item_no_panic existing _ (update_key req) (accepted_update_named _ _ Hacc)).
  destruct (update_item existing (up_expression plan) (update_key req)) as [it| |] eqn:Hit;
    [|done|done].
  intros a Ha. simpl. rewrite !get_item_to_value. f_equal.
  apply (update_item_frame _ _ _ _ _ Hit). intros Ht.
  by apply (accepted_update_targets _ _ _ Hacc Ht).
Qed.

(** an UpdateItem plan carries the request's key, exactly the key
    attributes of the table at their declared types, and an expression
    that is not empty, writes only top-level non-key attributes, and
    whose ADD and DELETE operands have the right types. *)
Theorem update_plan_valid req s plan :
  translate_update_item req s = Ok plan ->
  is_key_pair (update_key req) s (up_pk plan, up_sk plan)
  /\ (forall a, a ∈ BTreeMap.keys (update_key req) -> a ∈ key_attrs s)
  /\ accepted_update (up_expression plan) s
  /\ is_empty_update (up_expression plan) = false.
Proof. apply translate_update_facts. Qed.

(** A BatchGetItem plan asks for exactly the requested keys. Within
    the configured total, each table of the request has one entry, whose
    keys are those of the request in order, valid for the table's schema
    and pairwise distinct. *)
Theorem batch_get_plan_valid req schemas max plan :
  translate_batch_get_item req schemas max = Ok plan ->
  (N.of_nat (sum_lengths (map (fun kv => length (ka_keys kv.2)) (bg_request_items req))) <= max)%N
  /\ Forall2 (fun kv pt => bgt_table_name pt = kv.1 /\ NoDup (bgt_keys pt) /\
       exists s, schemas !! kv.1 = Some s /\
         Forall2 (fun it k => is_key_pair it s k /\
                    forall a, a ∈ BTreeMap.keys it -> a ∈ key_attrs s)
           (ka_keys kv.2) (bgt_keys pt))
     (bg_request_items req) (bgp_per_table plan).
Proof.
  unfold translate_batch_get_item. destruct (bg_request_items req) as [|p l]; [done|].
  destruct (N.ltb_spec max (N.of_nat (sum_lengths
    (map (fun kv => length (ka_keys kv.2)) (p :: l))))) as [|Hle]; [done|].
  destruct (collect (batch_get_table schemas) (p :: l)) as [pts| |] eqn:E; [|done|done].
  intros [= <-]. split; [done|]. apply collect_Ok_iff in E. eapply Forall2_impl; [exact E|].
  intros [t ka] pt. unfold batch_get_table.
  destruct (schemas !! t) as [s|] eqn:Hs; simpl; [|done].
  do 2 (case_match; [done|]). destruct (parse_projection _ _); [|done|done].
  destruct (fold_result _ _ _) as [keys| |] eqn:Hk; [|done|done]. intros [= <-]. simpl.
  apply batch_get_keys_facts in Hk as (Hnd & ks & -> & Hall); [|constructor].
  split_and!; [done|done|]. by exists s.
Qed.

(** A BatchWriteItem plan performs exactly the requested writes.
    Within the configured total, each table of the request has one entry,
    whose operations are those of the request in order, with the item and
    the key extracted for the table's schema, and no key is written
    twice. *)
Theorem batch_write_plan_valid req schemas max plan :
  translate_batch_write_item req schemas max = Ok plan ->
  (N.of_nat (sum_lengths (map (fun kv => length kv.2) (bw_request_items req))) <= max)%N
  /\ Forall2 (fun kv pt => bwt_table_name pt = kv.1 /\ NoDup (map op_key (bwt_ops pt)) /\
       exists s, schemas !! kv.1 = Some s /\ Forall2 (implements_write s) kv.2 (bwt_ops pt))
     (bw_request_items req) (bwp_per_table plan).
Proof.
  unfold translate_batch_write_item. destruct (bw_request_items req) as [|p l]; [done|].
  destruct (N.ltb_spec max (N.of_nat (sum_lengths
    (map (fun kv => length kv.2) (p :: l))))) as [|Hle]; [done|].
  destruct (collect (batch_write_table schemas) (p :: l)) as [pts| |] eqn:E; [|done|done].
  intros [= <-]. split; [done|]. apply collect_Ok_iff in E. eapply Forall2_impl; [exact E|].
  intros [t ws] pt. unfold batch_write_table.
  destruct (schemas !! t) as [s|] eqn:Hs; simpl; [|done]. case_match; [done|].
  destruct (fold_result _ _ _) as [[seen ops]| |] eqn:Hk; [|done|done]. intros [= <-]. simpl.
  apply batch_write_ops_facts in Hk as (Hnd & new & Hnew & Hall);
    [|constructor|by intros k Hx%elem_of_nil].
  simpl in *. subst. split_and!; [done|done|]. by exists s.
Qed.

(** A TransactWriteItems plan is position-preserving. Item [i] of the
    plan is item [i] of the request (same operation, same table, key
    valid for that table's schema, an Update with an accepted expression,
    a ConditionCheck with a condition), and no two items address the same
    table and key. *)
Theorem transact_write_plan_valid req schemas max plan :
  translate_transact_write_items req schemas max = Ok plan ->
  (N.of_nat (length (tw_transact_items req)) <= max)%N
  /\ NoDup (map plan_target (twp_items plan))
  /\ Forall2 (implements_transact schemas) (tw_transact_items req) (twp_items plan).
Proof.
  unfold translate_transact_write_items.
  destruct (tw_transact_items req) as [|p l]; [done|].
  destruct (N.ltb_spec max (N.of_nat (length (p :: l)))) as [|Hle]; [done|].
  case_match; [done|].
  destruct (fold_result _ _ _) as [[seen items]| |] eqn:Hk; [|done|done]. intros [= <-]. simpl.
  apply transact_write_items_facts in Hk as (Hnd & new & Hnew & Hall);
    [|constructor|by intros k Hx%elem_of_nil].
  simpl in *. subst. done.
Qed.

(** Routing to the insert-only path is right. A condition classified
    [InsertOnlyOnPk] holds of exactly the missing row: on a stored row
    (which has its partition key) it fails, on no row it succeeds. *)
Theorem insert_only_routing_correct cond s existing :
  classify_condition cond s = ConditionRouting_InsertOnlyOnPk ->
  (forall it, existing = Some it -> is_Some (BTreeMap.get (pk_attr s) it)) ->
  evaluate_condition (row_value existing) cond = true <-> existing = None.
Proof.
  intros Hc Hpk. rewrite evaluate_condition_refines.
  destruct cond as [| |p| | | | | | | |]; simpl in Hc; try done;
    try (by case_match).
  destruct (eqb (top_name p) (Some (pk_attr s))) eqn:E; [|done].
  rewrite eqb_true in E.
  unfold sat, attr_of. rewrite E. destruct existing as [it|]; simpl.
  - destruct (Hpk it eq_refl) as [v Hv]. rewrite Hv. naive_solver.
  - split; [done|]. intros _. split; [by eexists | done].
Qed.

(** A PutItem plan stores the request's item: the row to write
    deserialises back to it, and the plan's key is the item's key at the
    declared types. *)
Theorem put_plan_valid req s plan :
  wf_item (put_item req) -> translate_put_item req s = Ok plan ->
  is_key_pair (put_item req) s (pp_pk plan, pp_sk plan)
  /\ item_from_value (pp_item_json plan) = Ok (put_item req).
Proof.
  intros Hwf. unfold translate_put_item.
  destruct (extract_key_pair _ _) as [[pk sk]| |] eqn:Hk; [|done|done].
  destruct (resolve_put_delete_return_values _ _); [|done|done].
  destruct (translate_condition _ _ _ _); [|done|done]. intros [= <-]. simpl.
  split; [by apply extract_key_pair_Ok | by apply item_from_to_value].
Qed.

(** a Query plan is bounded. The limit is absent or between 1 and
    1000, the partition key has the type of the effective schema, and a
    start key belongs to the queried partition and has the type of the
    effective sort key; the effective schema is the table's own, the
    local index's (same partition key) or the global index's. *)
Theorem query_plan_valid req s plan :
  translate_query req s = Ok plan ->
  exists eff, resolve_index_for_query s (query_index_name req) = Ok (eff, qp_index_sort plan)
  /\ key_type (qp_pk plan) = pk_type eff
  /\ (forall l, qp_limit plan = Some l -> query_limit req = Some l /\ (1 <= l <= 1000)%N)
  /\ (forall esk, query_exclusive_start_key req = Some esk ->
        is_key_pair esk eff (qp_pk plan, qp_esk_sk plan)
        /\ forall a, a ∈ BTreeMap.keys esk -> a ∈ key_attrs eff).
Proof.
  unfold translate_query. case_match; [done|].
  destruct (resolve_index_for_query s _) as [[eff idx]| |]; [|done|done].
  destruct (map_err from_parse_error _); [|done|done].
  destruct (map_err map_substitute_for_condition _) as [cond| |]; [|done|done].
  destruct (extract_key_condition cond eff) as [b| |] eqn:Hb; [|done|done].
  destruct (validate_opt_limit _) as [limit| |] eqn:Hl; [|done|done].
  destruct (match query_exclusive_start_key req with
            | Some _ => _ | None => _ end) as [esk_sk| |] eqn:Hesk; [|done|done].
  destruct (translate_condition _ _ _ _); [|done|done].
  destruct (resolve_select_and_projection _ _ _ _) as [[cnt proj]| |]; [|done|done].
  intros [= <-]. exists eff. simpl. split_and!; [done | | |].
  - by apply extract_key_condition_pk_type in Hb.
  - intros l ->. unfold validate_opt_limit, validate_limit in Hl.
    destruct (query_limit req) as [l'|]; [|done].
    destruct (N.leb_spec 1 l'), (N.leb_spec l' 1000); simpl in Hl; try done.
    injection Hl as <-. done.
  - intros esk Heq. rewrite Heq in Hesk. apply decode_scan_esk_Ok.
    unfold decode_esk in Hesk. unfold decode_scan_esk.
    destruct (esk_pk esk eff) as [p| |]; [|done|done].
    destruct (eqb p (kb_pk b)) eqn:E; simpl in Hesk; [|done]. apply eqb_true in E as ->.
    destruct (Paging.esk_sk esk eff) as [q| |]; [|done|done].
    destruct (reject_extra_esk esk eff) as [[]| |]; [|done|done]. by injection Hesk as <-.
Qed.
End translate.

(** ** Witnesses *)

#[local] Instance display_empty : SerdeJson := {| value_to_string _ := EmptyString |}.

Definition table_schema : TableSchema :=
  mkTableSchema "T" "t" "id" KeyType_S None None "data" [] [].
Definition one_table : Schemas := {[ "T" := table_schema ]}.
Definition item_a : Item := [("id", S_ "a")].
Definition item_b : Item := [("id", S_ "b"); ("n", N_ "1")].

Definition counter_request : UpdateItemRequest :=
  mkUpdateItemRequest "T" item_a "SET note = :note ADD n :one REMOVE stale"
    None (Some [(":note", S_ "x"); (":one", N_ "1")]) (Some "attribute_exists(id)")
    (Some "ALL_NEW").

Definition counter_plan : UpdateItemPlan :=
  mkUpdateItemPlan (KeyValue_S "a") None
    (mkUpdateExpression
       [mkSetClause (name_path "note") (SetRhs_Operand (Operand_Value (S_ "x")))]
       [name_path "stale"] [mkAddAction (name_path "n") (N_ "1")] [])
    (Some (mkConditionPlan ConditionRouting_SimpleSql
             (Condition_AttributeExists (name_path "id"))))
    ReturnValuesMode_AllNew.

Lemma counter_translates : translate_update_item counter_request table_schema = Ok counter_plan.
Proof. vm_compute. reflexivity. Qed.

Lemma accepted_update_preserves_key_witness :
  match apply_update_expression (row_value (Some item_a)) (up_expression counter_plan) item_a with
  | Ok v => forall a, a ∈ key_attrs table_schema ->
      value_get v a = value_get (item_to_value item_a) a
  | Err _ => True
  | Panic => False
  end.
Proof.
  exact (accepted_update_preserves_key counter_request table_schema counter_plan (Some item_a)
           counter_translates).
Defined.

Lemma update_plan_valid_witness :
  accepted_update (up_expression counter_plan) table_schema.
Proof. apply (update_plan_valid counter_request table_schema counter_plan counter_translates). Defined.

Definition batch_get_request : BatchGetItemRequest :=
  mkBatchGetItemRequest [("T", mkKeysAndAttributes [item_a; [("id", S_ "b")]] None None None None)]
    None.
Definition batch_get_plan : BatchGetItemPlan :=
  mkBatchGetItemPlan
    [mkBatchGetPerTable "T" [(KeyValue_S "a", None); (KeyValue_S "b", None)] None false].

Lemma batch_get_plan_witness : NoDup [(KeyValue_S "a", @None KeyValue); (KeyValue_S "b", None)].
Proof.
  assert (translate_batch_get_item batch_get_request one_table 100 = Ok batch_get_plan) as Ht
    by (vm_compute; reflexivity).
  apply (batch_get_plan_valid batch_get_request one_table 100 batch_get_plan) in Ht as [_ Ht].
  inversion Ht as [|? ? ? ? H1 H2]. apply H1.
Defined.

Definition batch_write_request : BatchWriteItemRequest :=
  mkBatchWriteItemRequest
    [("T", [mkWriteRequest (Some (mkPutRequest item_b)) None;
            mkWriteRequest None (Some (mkDeleteRequest item_a))])] None None.
Definition batch_write_plan : BatchWriteItemPlan :=
  mkBatchWriteItemPlan
    [mkBatchWritePerTable "T"
       [WriteOp_Put (KeyValue_S "b") None (item_to_value item_b);
        WriteOp_Delete (KeyValue_S "a") None]].

Lemma batch_write_plan_witness :
  exists s, one_table !! "T" = Some s /\
    Forall2 (implements_write s)
      [mkWriteRequest (Some (mkPutRequest item_b)) None;
       mkWriteRequest None (Some (mkDeleteRequest item_a))]
      [WriteOp_Put (KeyValue_S "b") None (item_to_value item_b);
       WriteOp_Delete (KeyValue_S "a") None].
Proof.
  assert (translate_batch_write_item batch_write_request one_table 25 = Ok batch_write_plan) as Ht
    by (vm_compute; reflexivity).
  apply (batch_write_plan_valid batch_write_request one_table 25 batch_write_plan) in Ht as [_ Ht].
  inversion Ht as [|? ? ? ? H1 H2]. apply H1.
Defined.

Definition transact_request : TransactWriteItemsRequest :=
  mkTransactWriteItemsRequest
    [mkTransactWriteItem (Some (mkTransactPut "T" item_b None None None None)) None None None;
     mkTransactWriteItem None None None
       (Some (mkTransactConditionCheck "T" item_a "attribute_exists(id)" None None
                (Some "ALL_OLD")))] None None None.
Definition transact_plan : TransactWriteItemsPlan :=
  mkTransactWriteItemsPlan
    [mkTransactWritePlanItem "T" (KeyValue_S "b") None
       (TransactWriteKind_Put (item_to_value item_b)) None false;
     mkTransactWritePlanItem "T" (KeyValue_S "a") None TransactWriteKind_ConditionCheck
       (Some (mkConditionPlan ConditionRouting_SimpleSql
                (Condition_AttributeExists (name_path "id")))) true].

Lemma transact_write_plan_witness : NoDup (map plan_target (twp_items transact_plan)).
Proof.
  apply (transact_write_plan_valid transact_request one_table 100 transact_plan).
  vm_compute. reflexivity.
Defined.

Lemma insert_only_routing_witness :
  evaluate_condition (row_value None) (Condition_AttributeNotExists (name_path "id")) = true.
Proof.
  apply (insert_only_routing_correct (Condition_AttributeNotExists (name_path "id"))
           table_schema None); [reflexivity | done | reflexivity].
Defined.

Lemma put_plan_valid_witness :
  item_from_value (item_to_value item_b) = Ok item_b.
Proof.
  apply (put_plan_valid (mkPutItemRequest "T" item_b None None None None) table_schema
           (mkPutItemPlan (KeyValue_S "b") None (item_to_value item_b) None
              ReturnValuesMode_None)).
  - split; by repeat constructor.
  - vm_compute. reflexivity.
Defined.

Definition query_request : QueryRequest :=
  mkQueryRequest "T" "id = :v" None (Some [(":v", S_ "a")]) None None (Some 10%N)
    (Some item_a) None None None None.
Definition query_plan : QueryPlan :=
  mkQueryPlan (KeyValue_S "a") None (Some 10%N) None None true false None None.

Lemma query_plan_valid_witness : key_type (KeyValue_S "a") = KeyType_S.
Proof.
  assert (translate_query query_request table_schema = Ok query_plan) as Ht
    by (vm_compute; reflexivity).
  apply (query_plan_valid query_request table_schema query_plan) in Ht as (eff & He & Hk & _).
  vm_compute in He. injection He as <-. exact Hk.
Defined.
