(* ===== verification/Retry.v ===== *)
(** * Retries (rekt-storage-libpq, [retry.rs])

    The classifier of transient errors, the jittered exponential backoff
    on [u64] milliseconds, and the retry loop around a backend operation,
    which is a state transformer: each call may change the state it runs
    in and fail. *)

From S2P Require Import Prelude RustStr Storage.

#[local] Open Scope N_scope.

(** [Duration], in nanoseconds. *)
Definition Duration : Type := N.
Definition u64_max : N := 18446744073709551615.
Definition from_millis (ms : N) : Duration := ms * 1000000.
(** [d.as_millis() as u64]. *)
Definition as_millis_u64 (d : Duration) : N := (d / 1000000) mod (u64_max + 1).

(** [u64::saturating_mul], [saturating_add], [saturating_sub], and the
    checked [+] and [*], which panic on overflow. *)
Definition saturating_mul (a b : N) : N := N.min (a * b) u64_max.
Definition saturating_add (a b : N) : N := N.min (a + b) u64_max.
Definition saturating_sub (a b : N) : N := a - b.
Definition u64_ok {E} (n : N) : Result E N := if n <=? u64_max then Ok n else Panic.

Record RetryPolicy : Type := mkRetryPolicy {
  max_attempts : N;
  initial_backoff : Duration;
  max_backoff : Duration;
  jitter_pct : N
}.

(** [RetryPolicy::default] and [RetryPolicy::disabled]. *)
Definition default_policy : RetryPolicy := mkRetryPolicy 3 (from_millis 50) (from_millis 1000) 25.
Definition disabled : RetryPolicy := mkRetryPolicy 1 0 0 0.

Definition is_transient_sqlstate (sqlstate : string) : bool :=
  if Nat.ltb (String.length sqlstate) 5 then false
  else if starts_with sqlstate "08" then true
  else if starts_with sqlstate "53" then true
  else if String.eqb sqlstate "40001" || String.eqb sqlstate "40P01" then true
  else existsb (String.eqb sqlstate) ["57P01"; "57P02"; "57P03"; "57P04"; "57P05"].

Definition is_retryable (err : BackendError) : bool :=
  match err with
  | BackendError_PoolExhausted _ => true
  | BackendError_ConnectFailed _ => true
  | BackendError_PgError sqlstate _ => is_transient_sqlstate sqlstate
  | BackendError_ConditionalCheckFailed | BackendError_TableNotFound _
  | BackendError_KeyTypeMismatch _ _ _ | BackendError_MissingSortKey _
  | BackendError_UnexpectedSortKey _ | BackendError_TransactionCancelled _
  | BackendError_Other _ => false
  end.

(** [exp_ms.min(max_ms)]: the delay before jitter. *)
Definition capped_ms (policy : RetryPolicy) (attempt : N) : N :=
  let base_ms := as_millis_u64 (initial_backoff policy) in
  let max_ms := as_millis_u64 (max_backoff policy) in
  let exp_ms := saturating_mul base_ms (2 ^ N.min attempt 20) in
  N.min exp_ms max_ms.

Definition backoff_for_attempt (policy : RetryPolicy) (attempt nanos_seed : N)
  : Result BackendError Duration :=
  let capped := capped_ms policy attempt in
  if (jitter_pct policy =? 0) || (capped =? 0) then Ok (from_millis capped)
  else
    let p := jitter_pct policy in
    let span := saturating_mul capped (2 * p) / 100 in
    let lo := saturating_sub capped (saturating_mul capped p / 100) in
    let offset := nanos_seed mod (N.max span 1) in
    let? cp := u64_ok (capped * p) in
    let? hi := u64_ok (capped + cp / 100) in
    Ok (from_millis (N.min (saturating_add lo offset) hi)).

Section with_retry.
Context {St A : Type}.
(** The operation, and the clock the jitter is seeded from. *)
Variable f : St -> Result BackendError A * St.
Variable clock : nat -> N.

(** What a run leaves: the result, the state, the sleeps in order. *)
Record retry_run : Type := mkRetryRun {
  run_result : Result BackendError A;
  run_state : St;
  run_sleeps : list Duration
}.

Fixpoint retry_loop (policy : RetryPolicy) (fuel : nat) (attempt : N) (st : St)
  : option retry_run :=
  match fuel with
  | 0%nat => None
  | S fuel =>
      let '(r, st) := f st in
      match r with
      | Ok v => Some (mkRetryRun (Ok v) st [])
      | Panic => Some (mkRetryRun Panic st [])
      | Err e =>
          let last := max_attempts policy <=? attempt + 1 in
          if negb (is_retryable e) then Some (mkRetryRun (Err e) st [])
          else if last then Some (mkRetryRun (Err e) st [])
          else
            match backoff_for_attempt policy attempt (clock (N.to_nat attempt)) with
            | Ok sleep_for =>
                match retry_loop policy fuel (attempt + 1) st with
                | Some run => Some (mkRetryRun (run_result run) (run_state run)
                                      (sleep_for :: run_sleeps run))
                | None => None
                end
            | Err e => Some (mkRetryRun (Err e) st [])
            | Panic => Some (mkRetryRun Panic st [])
            end
      end
  end.

Definition with_retry (policy : RetryPolicy) (st : St) : option retry_run :=
  retry_loop policy (S (N.to_nat (max_attempts policy))) 0 st.

(** ** The calls the loop makes *)

(** The state before call [k], and the result of call [k]. *)
Fixpoint state_at (st : St) (k : nat) : St :=
  match k with
  | 0%nat => st
  | S k => state_at (f st).2 k
  end.
Definition call_at (st : St) (k : nat) : Result BackendError A := (f (state_at st k)).1.

(** The error of call [k] is one to retry. *)
Definition retried (st : St) (k : nat) : Prop :=
  exists e, call_at st k = Err e /\ is_retryable e = true.

(** Within these limits the jitter arithmetic does not overflow. *)
Definition sane_policy (policy : RetryPolicy) : Prop :=
  jitter_pct policy <= 100 /\ as_millis_u64 (max_backoff policy) < 2 ^ 56.

Lemma capped_le policy attempt :
  capped_ms policy attempt <= as_millis_u64 (max_backoff policy).
Proof. unfold capped_ms. apply N.le_min_r. Qed.

(** A delay within the jitter band of the [a]-th backoff. *)
Definition within_jitter (policy : RetryPolicy) (a : N) (d : Duration) : Prop :=
  exists ms, d = from_millis ms
  /\ capped_ms policy a - capped_ms policy a * jitter_pct policy / 100 <= ms
  /\ ms <= capped_ms policy a + capped_ms policy a * jitter_pct policy / 100.

Lemma backoff_bounds policy attempt seed :
  sane_policy policy ->
  exists d, backoff_for_attempt policy attempt seed = Ok d /\ within_jitter policy attempt d.
Proof.
  intros [Hp Hm]. unfold backoff_for_attempt. pose proof (capped_le policy attempt) as Hc.
  set (c := capped_ms policy attempt) in *. set (p := jitter_pct policy) in *.
  change (2 ^ 56) with 72057594037927936 in Hm.
  destruct ((p =? 0) || (c =? 0)) eqn:E.
  { exists (from_millis c). split; [done|]. exists c. split; [done|]. fold c p.
    generalize (c * p / 100). intros. split; lia. }
  assert (Hcp : c * p <= u64_max) by (unfold u64_max; nia).
  assert (Hd : c * p / 100 <= c) by (apply N.Div0.div_le_upper_bound; nia).
  unfold u64_ok. rewrite (proj2 (N.leb_le _ _) Hcp).
  assert (Hhi : c + c * p / 100 <= u64_max) by (unfold u64_max; lia).
  rewrite (proj2 (N.leb_le _ _) Hhi).
  eexists. split; [reflexivity|]. eexists. split; [reflexivity|]. fold c p.
  unfold saturating_sub, saturating_mul, saturating_add.
  rewrite (N.min_l (c * p)) by done.
  generalize (seed mod N.max (N.min (c * (2 * p)) u64_max / 100) 1). intros off.
  revert Hd Hhi. generalize (c * p / 100). clearbody c p. unfold u64_max. intros. split; lia.
Qed.

(** ** The loop *)

(** Run [run], from state [st] and attempt number [attempt], made [k + 1]
    calls: it returns the result and the state of the last one, every
    earlier call failed with an error to retry, the last one did not or
    was the last the policy allows, and the sleeps between them are
    within the jitter bands of their attempts. *)
Record run_spec (policy : RetryPolicy) (attempt : N) (st : St) (k : nat) (run : retry_run) : Prop := {
  spec_result : run_result run = call_at st k;
  spec_state : run_state run = state_at st (S k);
  spec_retried : forall i, (i < k)%nat -> retried st i;
  spec_budget : attempt + N.of_nat k < N.max (max_attempts policy) (attempt + 1);
  spec_stop : ~ retried st k \/ max_attempts policy <= attempt + N.of_nat k + 1;
  spec_sleeps : length (run_sleeps run) = k;
  spec_jitter : forall i d, run_sleeps run !! i = Some d ->
                within_jitter policy (attempt + N.of_nat i) d
}.

Lemma stop_spec policy attempt st r st' :
  f st = (r, st') -> ~ retried st 0 \/ max_attempts policy <= attempt + 1 ->
  run_spec policy attempt st 0 (mkRetryRun r st' []).
Proof.
  intros Ef Hr. split; unfold call_at; simpl; rewrite ?Ef; try done; try lia.
  destruct Hr; [by left|right; lia].
Qed.

Lemma retry_spec policy attempt st e st' sleep_for k run :
  f st = (Err e, st') -> is_retryable e = true -> attempt + 1 < max_attempts policy ->
  within_jitter policy attempt sleep_for ->
  run_spec policy (attempt + 1) st' k run ->
  run_spec policy attempt st (S k)
    (mkRetryRun (run_result run) (run_state run) (sleep_for :: run_sleeps run)).
Proof.
  intros Ef Er Hlt Hj [Hres Hst Hbefore Hbud Hstop Hlen Hsl].
  assert (Hshift : forall i, call_at st (S i) = call_at st' i)
    by (intros i; unfold call_at; simpl; by rewrite Ef).
  assert (Hret : forall i, retried st (S i) <-> retried st' i)
    by (intros i; unfold retried; by rewrite Hshift).
  split; cbn [run_result run_state run_sleeps length].
  - by rewrite Hshift.
  - rewrite Hst. simpl. by rewrite Ef.
  - intros [|i] Hi; [exists e; unfold call_at; simpl; by rewrite Ef|]. apply Hret, Hbefore. lia.
  - lia.
  - rewrite Hret. destruct Hstop; [by left|right; lia].
  - by rewrite Hlen.
  - intros [|i] d; [intros [= <-]; by rewrite N.add_0_r|]. intros Hd.
    replace (attempt + N.of_nat (S i)) with (attempt + 1 + N.of_nat i) by lia.
    by apply Hsl.
Qed.

Lemma retry_loop_spec policy : sane_policy policy ->
  forall fuel attempt st, (N.to_nat (max_attempts policy) < fuel + N.to_nat attempt)%nat ->
  (0 < fuel)%nat ->
  exists k run, retry_loop policy fuel attempt st = Some run /\ run_spec policy attempt st k run.
Proof.
  intros Hsane fuel. induction fuel as [|fuel IH]; intros attempt st Hf Hpos; [lia|].
  cbn [retry_loop]. destruct (f st) as [r st'] eqn:Ef.
  assert (Hcall : call_at st 0 = r) by (unfold call_at; simpl; by rewrite Ef).
  assert (Hno : (forall e, r = Err e -> is_retryable e = false) -> ~ retried st 0).
  { intros Hr (e & He & Ht). rewrite (Hr e) in Ht; congruence. }
  destruct r as [v|e|];
    [ eexists _, _; split; [done|]; apply stop_spec; [done|left; by apply Hno]
    | | eexists _, _; split; [done|]; apply stop_spec; [done|left; by apply Hno] ].
  destruct (is_retryable e) eqn:Er; simpl.
  2:{ eexists _, _. split; [done|]. apply stop_spec; [done|]. left. apply Hno. naive_solver. }
  destruct (N.leb_spec (max_attempts policy) (attempt + 1)).
  { eexists _, _. split; [done|]. apply stop_spec; [done|by right]. }
  destruct (backoff_bounds policy attempt (clock (N.to_nat attempt)) Hsane) as (d & -> & Hd).
  destruct (IH (attempt + 1) st') as (k & run & -> & Hrun); [lia | lia |].
  eexists _, _. split; [done|]. by eapply retry_spec.
Qed.

(** C36: The retry loop terminates within its budget. It makes between one
    and [max_attempts] calls (one if the budget is zero), never retries a
    success or an error that is not transient, stops early only on such
    a call, returns exactly the outcome and the state of the last call,
    and sleeps once between calls, within the jitter band of the capped
    exponential backoff. *)
Theorem retry_loop_correct (policy : RetryPolicy) (st : St) :
  sane_policy policy ->
  exists k run, with_retry policy st = Some run /\ run_spec policy 0 st k run.
Proof. intros Hs. apply (retry_loop_spec policy Hs); lia. Qed.
End with_retry.

(** The backoff delay is a capped exponential: without jitter it
    doubles with each attempt until the cap and never decreases. With
    jitter it stays within the band of the policy, and its [u64]
    arithmetic does not overflow while the cap is below 2^56 ms and the
    percentage at most 100. *)
Theorem backoff_capped_exponential (policy : RetryPolicy) (attempt seed : N) :
  sane_policy policy ->
  (exists d, backoff_for_attempt policy attempt seed = Ok d /\ within_jitter policy attempt d)
  /\ capped_ms policy attempt <= capped_ms policy (attempt + 1)
  /\ (attempt < 20 -> as_millis_u64 (initial_backoff policy) * 2 ^ (attempt + 1)
                        <= as_millis_u64 (max_backoff policy) ->
      capped_ms policy (attempt + 1) = 2 * capped_ms policy attempt).
Proof.
  intros Hs. split; [by apply backoff_bounds|]. destruct Hs as [_ Hm].
  unfold capped_ms. set (b := as_millis_u64 (initial_backoff policy)).
  set (m := as_millis_u64 (max_backoff policy)) in *. clearbody b m. split.
  - apply N.min_le_compat_r, N.min_le_compat_r, N.mul_le_mono_l, N.pow_le_mono_r; lia.
  - intros Ha Hb. rewrite !(N.min_l _ 20) by lia. unfold saturating_mul.
    rewrite N.pow_add_r in *. change (2 ^ 1) with 2 in *.
    change (2 ^ 56) with 72057594037927936 in Hm. unfold u64_max. lia.
Qed.

(** ** Witnesses *)

(** An operation that fails twice with a lost connection, then succeeds. *)
Definition flaky (calls : nat) : Result BackendError nat * nat :=
  (if Nat.ltb calls 2 then Err (BackendError_PgError "08006" "connection lost") else Ok calls,
   S calls).

Lemma default_policy_sane : sane_policy default_policy.
Proof. by split. Qed.

Lemma retry_loop_witness :
  exists k run, with_retry flaky (fun _ => 7) default_policy 0%nat = Some run
                /\ run_spec flaky default_policy 0 0%nat k run.
Proof. apply (retry_loop_correct flaky (fun _ => 7) default_policy 0%nat). by split. Defined.

Lemma backoff_witness :
  (exists d, backoff_for_attempt default_policy 1 999 = Ok d /\ within_jitter default_policy 1 d)
  /\ capped_ms default_policy 1 <= capped_ms default_policy 2
  /\ (1 < 20 -> as_millis_u64 (initial_backoff default_policy) * 2 ^ 2
                 <= as_millis_u64 (max_backoff default_policy) ->
      capped_ms default_policy 2 = 2 * capped_ms default_policy 1).
Proof. apply (backoff_capped_exponential default_policy 1 999). by split. Defined.
