(* ===== verification/PgTypes.v ===== *)
(** * Helpers of the PostgreSQL backend (rekt-storage-libpq, [types.rs])

    Identifier quoting, parameter types and casts, the sort-key preflight
    and the error mappers ([classify_pool_error] of [lib.rs] included). *)

From S2P Require Import Prelude RustStr Json Storage.

Definition dquote : ascii := Ascii.ascii_of_nat 34.

(** The loop body of [quote_ident]: push the character, an embedded
    double quote twice. *)
Fixpoint quote_body (s : string) : string :=
  match s with
  | EmptyString => EmptyString
  | String c r =>
      if Ascii.eqb c dquote then String dquote (String c (quote_body r))
      else String c (quote_body r)
  end.

Definition quote_ident (ident : string) : string :=
  String dquote (quote_body ident) +:+ String dquote EmptyString.

(** The parameter types the backend prepares statements with. *)
Inductive PgType : Type :=
| PgType_TEXT | PgType_BYTEA | PgType_JSONB | PgType_INT8 | PgType_TEXT_ARRAY | PgType_BYTEA_ARRAY.

(** A bound parameter: a key through [Bound], a text, an [i64], a JSON
    document, raw bytes, an array of texts or of bytes. *)
Inductive Param : Type :=
| Param_Bound (kv : KeyValue)
| Param_Text (s : string)
| Param_Int8 (n : N)
| Param_Json (v : Value)
| Param_Bytes (b : bytes)
| Param_TextArray (l : list string)
| Param_ByteaArray (l : list bytes).

Definition cast_for_keytype (t : KeyType) : string :=
  match t with
  | KeyType_S | KeyType_B => ""
  | KeyType_N => "::numeric"
  end.

Definition pg_type_for_keytype (t : KeyType) : PgType :=
  match t with
  | KeyType_S | KeyType_N => PgType_TEXT
  | KeyType_B => PgType_BYTEA
  end.

Definition check_sk_shape (shape : TableShape) (sk : option KeyValue)
  : Result BackendError unit :=
  match shape_sk_col shape, sk with
  | Some _, Some _ | None, None => Ok tt
  | Some _, None => Err (BackendError_MissingSortKey (shape_table shape))
  | None, Some _ => Err (BackendError_UnexpectedSortKey (shape_table shape))
  end.

(** What [map_pg_err] reads of a [tokio_postgres::Error]: the server's
    error, if there is one, as SQLSTATE and message, and the rendering of
    the whole error. [code()] is the SQLSTATE of the server's error. *)
Record PgFailure : Type := mkPgFailure {
  db_error : option (string * string);
  failure_text : string
}.

Definition UNDEFINED_TABLE : string := "42P01".

Definition map_pg_err (table : string) (e : PgFailure) : BackendError :=
  if eqb (fst <$> db_error e) (Some UNDEFINED_TABLE) then BackendError_TableNotFound table
  else
    match db_error e with
    | Some (sqlstate, message) => BackendError_PgError sqlstate message
    | None => BackendError_PgError "08000" (failure_text e)
    end.

(** [deadpool_postgres::PoolError], with the rendering of what it wraps. *)
Inductive PoolError : Type :=
| PoolError_Timeout
| PoolError_Backend (text : string)
| PoolError_Closed
| PoolError_Other (text : string).

Definition classify_pool_error (e : PoolError) (waited_ms : N) : BackendError :=
  match e with
  | PoolError_Timeout => BackendError_PoolExhausted waited_ms
  | PoolError_Backend be => BackendError_ConnectFailed be
  | PoolError_Closed => BackendError_ConnectFailed "pool closed"
  | PoolError_Other other => BackendError_Other ("pool get failed: " +:+ other)
  end.

(** ** Quoted identifiers

    How PostgreSQL's lexer reads the inside of a quoted identifier: two
    double quotes stand for one, a single one ends it. [read_ident]
    returns the identifier and the text after it. *)
Fixpoint read_quoted (s : string) : option (string * string) :=
  match s with
  | EmptyString => None
  | String c r =>
      if Ascii.eqb c dquote then
        match r with
        | String d r' =>
            if Ascii.eqb d dquote
            then (fun p => (String dquote p.1, p.2)) <$> read_quoted r'
            else Some (EmptyString, r)
        | EmptyString => Some (EmptyString, r)
        end
      else (fun p => (String c p.1, p.2)) <$> read_quoted r
  end.

Definition read_ident (s : string) : option (string * string) :=
  match s with
  | String c r => if Ascii.eqb c dquote then read_quoted r else None
  | EmptyString => None
  end.

Definition no_dquote_next (rest : string) : Prop :=
  match rest with String c _ => c <> dquote | EmptyString => True end.

Lemma read_quoted_end rest :
  no_dquote_next rest -> read_quoted (String dquote rest) = Some (EmptyString, rest).
Proof.
  destruct rest as [|c r]; [done|]. simpl. intros Hc. by rewrite (proj2 (Ascii.eqb_neq c dquote)).
Qed.

Lemma read_quoted_body s rest :
  no_dquote_next rest ->
  read_quoted (quote_body s +:+ String dquote rest) = Some (s, rest).
Proof.
  intros Hr. induction s as [|c s IH]; [by apply read_quoted_end|].
  cbn [quote_body]. destruct (Ascii.eqb_spec c dquote) as [->|Hc].
  - change (((fun p => (String dquote p.1, p.2)) <$>
             read_quoted (quote_body s +:+ String dquote rest)) = Some (String dquote s, rest)).
    by rewrite IH.
  - cbn -[dquote]. rewrite (proj2 (Ascii.eqb_neq c dquote)) by done. by rewrite IH.
Qed.

(** Quoting blocks injection. Whatever characters a table, column or
    attribute name has, PostgreSQL's lexer reads the quoted name back as
    exactly that one identifier and continues with the text after it;
    quoting is injective. *)
Theorem quote_ident_reads_back :
  (forall s rest, no_dquote_next rest -> read_ident (quote_ident s +:+ rest) = Some (s, rest))
  /\ (forall s t, quote_ident s = quote_ident t -> s = t).
Proof.
  assert (Hread : forall s rest, no_dquote_next rest ->
            read_ident (quote_ident s +:+ rest) = Some (s, rest)).
  { intros s rest Hr. unfold quote_ident. cbn -[dquote].
    rewrite <- app_assoc_str. by apply read_quoted_body. }
  split; [exact Hread|]. intros s t Heq.
  pose proof (Hread s EmptyString I) as Hs. rewrite Heq, (Hread t EmptyString I) in Hs. congruence.
Qed.
