(* ===== verification/PgSelect.v ===== *)
(** * The SELECT statements of the backend

    The fragment of SQL that [query.rs] and [scan.rs] emit: its abstract
    syntax, its text, and what PostgreSQL documents about its result. The
    server itself is the class [Postgres]; [PgSelectInstance] has an
    instance. *)

From S2P Require Import Prelude RustStr Json Storage PgTypes.

(** ** Syntax *)

Inductive cmp_op : Type := op_eq | op_lt | op_le | op_gt | op_ge.

(** A condition on one or two columns; its parameters are bound in the
    order of the text. The key type gives the cast. *)
Inductive sql_cond : Type :=
| SqlCmp (col : string) (op : cmp_op) (ty : KeyType)
| SqlBetween (col : string) (ty : KeyType)
| SqlLike (col : string)
| SqlRowGt (col1 : string) (ty1 : KeyType) (col2 : string) (ty2 : KeyType).

(** [None]: no direction keyword, which is ascending. *)
Inductive direction : Type := Asc | Desc.

Record select : Type := mkSelect {
  sel_data : string;
  sel_table : string;
  sel_where : list sql_cond;
  sel_order : list (string * option direction)
}.

#[export] Instance cmp_op_eq_dec : EqDecision cmp_op.
Proof. solve_decision. Defined.
#[export] Instance sql_cond_eq_dec : EqDecision sql_cond.
Proof. solve_decision. Defined.
#[export] Instance direction_eq_dec : EqDecision direction.
Proof. solve_decision. Defined.
#[export] Instance select_eq_dec : EqDecision select.
Proof. solve_decision. Defined.

Definition op_text (op : cmp_op) : string :=
  match op with
  | op_eq => "=" | op_lt => "<" | op_le => "<=" | op_gt => ">" | op_ge => ">="
  end.

(** [$n] with its cast. *)
Definition placeholder (n : N) (ty : KeyType) : string :=
  "$" +:+ usize_to_string n +:+ cast_for_keytype ty.

Definition arity (c : sql_cond) : nat :=
  match c with SqlCmp _ _ _ | SqlLike _ => 1 | SqlBetween _ _ | SqlRowGt _ _ _ _ => 2 end.

Definition cond_text (n : N) (c : sql_cond) : string :=
  match c with
  | SqlCmp col op ty => quote_ident col +:+ " " +:+ op_text op +:+ " " +:+ placeholder n ty
  | SqlBetween col ty =>
      quote_ident col +:+ " BETWEEN " +:+ placeholder n ty +:+ " AND " +:+ placeholder (n + 1) ty
  | SqlLike col => quote_ident col +:+ " LIKE $" +:+ usize_to_string n +:+ " ESCAPE '\'"
  | SqlRowGt c1 t1 c2 t2 =>
      "(" +:+ quote_ident c1 +:+ ", " +:+ quote_ident c2 +:+ ") > (" +:+ placeholder n t1
      +:+ ", " +:+ placeholder (n + 1) t2 +:+ ")"
  end.

(** The conditions after the first, each introduced by [AND]. *)
Fixpoint and_text (n : N) (cs : list sql_cond) : string :=
  match cs with
  | [] => ""
  | c :: cs => " AND " +:+ cond_text n c +:+ and_text (n + N.of_nat (arity c)) cs
  end.

Definition where_text (cs : list sql_cond) : string :=
  match cs with
  | [] => ""
  | c :: cs => " WHERE " +:+ cond_text 1 c +:+ and_text (1 + N.of_nat (arity c)) cs
  end.

Definition order_item_text (o : string * option direction) : string :=
  quote_ident o.1 +:+ match o.2 with None => "" | Some Asc => " ASC" | Some Desc => " DESC" end.

Definition order_text (os : list (string * option direction)) : string :=
  match os with
  | [] => ""
  | o :: os => " ORDER BY " +:+ order_item_text o
               +:+ foldr (fun o s => ", " +:+ order_item_text o +:+ s) "" os
  end.

Definition total_arity (cs : list sql_cond) : nat := sum_list_with arity cs.

Definition render (s : select) : string :=
  "SELECT " +:+ quote_ident (sel_data s) +:+ " FROM " +:+ quote_ident (sel_table s)
  +:+ where_text (sel_where s) +:+ order_text (sel_order s)
  +:+ " LIMIT $" +:+ usize_to_string (1 + N.of_nat (total_arity (sel_where s))).

(** The prepared types: those of the conditions, then the limit's. *)
Definition cond_types (c : sql_cond) : list PgType :=
  match c with
  | SqlCmp _ _ ty => [pg_type_for_keytype ty]
  | SqlBetween _ ty => [pg_type_for_keytype ty; pg_type_for_keytype ty]
  | SqlLike _ => [PgType_TEXT]
  | SqlRowGt _ t1 _ t2 => [pg_type_for_keytype t1; pg_type_for_keytype t2]
  end.

Definition select_types (s : select) : list PgType :=
  (sel_where s ≫= cond_types) ++ [PgType_INT8].

(** ** Rows and their order *)

(** A row: its JSONB document and its key columns (absent: NULL). *)
Record row : Type := mkRow {
  row_data : Value;
  row_cols : gmap string KeyValue
}.

(** The orders of the column types: the collation's, the numeric one and
    the bytewise one. A total preorder; numerals of the same number are
    equivalent. *)
Class KeyOrder : Type := {
  key_leb : KeyValue -> KeyValue -> bool;
  key_leb_total : forall a b, key_leb a b = true \/ key_leb b a = true;
  key_leb_trans : forall a b c, key_leb a b = true -> key_leb b c = true -> key_leb a c = true
}.

(** [LIKE] with the escape character backslash. *)
Class Like : Type := {
  like : string -> string -> bool;
  like_any : forall s, like s "%" = true;
  like_literal : forall c d p s, c <> "%"%char -> c <> "_"%char -> c <> "\"%char ->
    like (String d s) (String c p) = Ascii.eqb d c && like s p;
  like_literal_end : forall c p, c <> "%"%char -> c <> "\"%char ->
    like EmptyString (String c p) = false;
  like_escape : forall c d p s,
    like (String d s) (String "\"%char (String c p)) = Ascii.eqb d c && like s p;
  like_escape_end : forall c p, like EmptyString (String "\"%char (String c p)) = false
}.

Section semantics.
Context `{KeyOrder} `{Like}.

Definition key_lt (a b : KeyValue) : bool := negb (key_leb b a).
Definition key_eq (a b : KeyValue) : bool := key_leb a b && key_leb b a.

Definition op_holds (op : cmp_op) (a b : KeyValue) : bool :=
  match op with
  | op_eq => key_eq a b
  | op_lt => key_lt a b
  | op_le => key_leb a b
  | op_gt => key_lt b a
  | op_ge => key_leb b a
  end.

(** [(a1, a2) > (b1, b2)]: decided by the first pair that differs. *)
Definition row_gt (a1 a2 b1 b2 : KeyValue) : bool :=
  key_lt b1 a1 || (key_eq a1 b1 && key_lt b2 a2).

(** A condition of a row, for its parameters. A comparison with NULL is
    not true. *)
Definition cond_holds (r : row) (c : sql_cond) (args : list Param) : bool :=
  match c, args with
  | SqlCmp col op _, [Param_Bound v] =>
      match row_cols r !! col with Some a => op_holds op a v | None => false end
  | SqlBetween col _, [Param_Bound lo; Param_Bound hi] =>
      match row_cols r !! col with Some a => key_leb lo a && key_leb a hi | None => false end
  | SqlLike col, [Param_Text p] =>
      match row_cols r !! col with Some (KeyValue_S s) => like s p | _ => false end
  | SqlRowGt c1 _ c2 _, [Param_Bound v1; Param_Bound v2] =>
      match row_cols r !! c1, row_cols r !! c2 with
      | Some a1, Some a2 => row_gt a1 a2 v1 v2
      | _, _ => false
      end
  | _, _ => false
  end.

Fixpoint where_holds (r : row) (cs : list sql_cond) (args : list Param) : bool :=
  match cs with
  | [] => true
  | c :: cs => cond_holds r c (take (arity c) args) && where_holds r cs (drop (arity c) args)
  end.

(** NULLs sort last in ascending order. *)
Definition col_leb (a b : option KeyValue) : bool :=
  match a, b with
  | _, None => true
  | None, Some _ => false
  | Some a, Some b => key_leb a b
  end.

Definition item_leb (o : string * option direction) (r1 r2 : row) : bool :=
  match o.2 with
  | Some Desc => col_leb (row_cols r2 !! o.1) (row_cols r1 !! o.1)
  | _ => col_leb (row_cols r1 !! o.1) (row_cols r2 !! o.1)
  end.

(** The lexicographic order of an ORDER BY list. *)
Fixpoint order_leb (os : list (string * option direction)) (r1 r2 : row) : bool :=
  match os with
  | [] => true
  | o :: os => item_leb o r1 r2 && (negb (item_leb o r2 r1) || order_leb os r1 r2)
  end.

(** The rows a SELECT without its LIMIT returns: those of the WHERE
    clause, in an order the ORDER BY clause allows. *)
Definition selected (rows : list row) (s : select) (args : list Param) (out : list row) : Prop :=
  out ≡ₚ bfilter (fun r => where_holds r (sel_where s) args) rows
  /\ StronglySorted (fun r1 r2 => order_leb (sel_order s) r1 r2 = true) out.
End semantics.

(** ** The statements of [query.rs] and [scan.rs] for a table shape *)

Inductive sk_kind : Type := SkNone | SkCmp (op : cmp_op) | SkBetween | SkLike.

Inductive stmt : Type :=
| QueryStmt (k : sk_kind) (esk forward : bool)
| ScanStmt (esk : bool).

(** The sort column of a shape that has one. *)
Definition sort_col (shape : TableShape) : option (string * KeyType) :=
  match shape_sk_col shape, shape_sk_type shape with
  | Some c, Some t => Some (c, t)
  | _, _ => None
  end.

Definition kind_conds (col : string) (ty : KeyType) (k : sk_kind) : list sql_cond :=
  match k with
  | SkNone => []
  | SkCmp op => [SqlCmp col op ty]
  | SkBetween => [SqlBetween col ty]
  | SkLike => [SqlLike col]
  end.

Definition select_of (shape : TableShape) (st : stmt) : select :=
  let pkc := SqlCmp (shape_pk_col shape) in
  mkSelect (shape_jsonb_col shape) (shape_table shape)
    match st, sort_col shape with
    | QueryStmt k esk forward, Some (col, ty) =>
        pkc op_eq (shape_pk_type shape) :: kind_conds col ty k
          ++ (if esk then [SqlCmp col (if forward then op_gt else op_lt) ty] else [])
    | QueryStmt _ _ _, None => [pkc op_eq (shape_pk_type shape)]
    | ScanStmt true, Some (col, ty) => [SqlRowGt (shape_pk_col shape) (shape_pk_type shape) col ty]
    | ScanStmt true, None => [pkc op_gt (shape_pk_type shape)]
    | ScanStmt false, _ => []
    end
    match st, sort_col shape with
    | QueryStmt _ _ forward, Some (col, _) => [(col, Some (if forward then Asc else Desc))]
    | QueryStmt _ _ _, None => []
    | ScanStmt _, Some (col, _) => [(shape_pk_col shape, None); (col, None)]
    | ScanStmt _, None => [(shape_pk_col shape, None)]
    end.

(** ** The server

    [rows_of] is the content of the table of [shape], [numeric_text] the
    texts the cast to [numeric] accepts, [pg_pool] the pool's refusal to
    hand out a connection, if any. The law is the documented meaning of a
    SELECT whose parameters have the types of their conditions and can be
    cast, when the server answers at all. *)
Definition key_castable (numeric_text : string -> bool) (v : KeyValue) : Prop :=
  match v with KeyValue_N s => numeric_text s = true | _ => True end.

Definition key_arg_ok (numeric_text : string -> bool) (ty : KeyType) (v : KeyValue) : Prop :=
  key_type v = ty /\ key_castable numeric_text v.

Definition cond_args_ok (numeric_text : string -> bool) (c : sql_cond) (args : list Param) : Prop :=
  match c, args with
  | SqlCmp _ _ ty, [Param_Bound v] => key_arg_ok numeric_text ty v
  | SqlBetween _ ty, [Param_Bound lo; Param_Bound hi] =>
      key_arg_ok numeric_text ty lo /\ key_arg_ok numeric_text ty hi
  | SqlLike _, [Param_Text _] => True
  | SqlRowGt _ t1 _ t2, [Param_Bound v1; Param_Bound v2] =>
      key_arg_ok numeric_text t1 v1 /\ key_arg_ok numeric_text t2 v2
  | _, _ => False
  end.

Fixpoint where_args_ok (numeric_text : string -> bool) (cs : list sql_cond) (args : list Param)
  : Prop :=
  match cs with
  | [] => args = []
  | c :: cs => cond_args_ok numeric_text c (take (arity c) args)
               /\ where_args_ok numeric_text cs (drop (arity c) args)
  end.

Class Postgres (shape : TableShape) `{KeyOrder} `{Like} : Type := {
  Db : Type;
  rows_of : Db -> list row;
  numeric_text : string -> bool;
  pg_pool : Db -> option (PoolError * N);
  pg_query : Db -> string -> list PgType -> list Param -> Result PgFailure (list Value);
  pg_query_selects : forall db st args n js,
    where_args_ok numeric_text (sel_where (select_of shape st)) args ->
    pg_query db (render (select_of shape st)) (select_types (select_of shape st))
      (args ++ [Param_Int8 n]) = Ok js ->
    exists out, selected (rows_of db) (select_of shape st) args out
                /\ js = row_data <$> take (N.to_nat n) out
}.

(** ** Facts about the order *)

Section order_facts.
Context `{KeyOrder}.

Lemma key_leb_refl a : key_leb a a = true.
Proof. by destruct (key_leb_total a a). Qed.

Lemma key_lt_irrefl a : key_lt a a = false.
Proof. unfold key_lt. by rewrite key_leb_refl. Qed.

Lemma key_lt_leb a b : key_lt a b = true -> key_leb a b = true.
Proof. unfold key_lt. destruct (key_leb_total a b), (key_leb b a); naive_solver. Qed.

Lemma key_lt_leb_trans a b c : key_lt a b = true -> key_leb b c = true -> key_lt a c = true.
Proof.
  unfold key_lt. intros Hab Hbc. destruct (key_leb c a) eqn:E; [|done].
  by rewrite (key_leb_trans b c a) in Hab.
Qed.

Lemma key_leb_lt_trans a b c : key_leb a b = true -> key_lt b c = true -> key_lt a c = true.
Proof.
  unfold key_lt. intros Hab Hbc. destruct (key_leb c a) eqn:E; [|done].
  by rewrite (key_leb_trans c a b) in Hbc.
Qed.

Lemma key_lt_trans a b c : key_lt a b = true -> key_lt b c = true -> key_lt a c = true.
Proof. intros. eapply key_lt_leb_trans; [done|by apply key_lt_leb]. Qed.
End order_facts.
