(* ===== verification/Keyset.v ===== *)
(** * Keyset pagination

    A client follows [LastEvaluatedKey] from page to page. This file has
    the loop and its correctness for any fetcher that returns the first
    [L] rows after a cursor in a strict order and hands out the last row's
    key when the page is full; [Query] instantiates it twice. *)

From S2P Require Import Prelude.

(** ** The loop *)

Section follow.
Context {E K I : Type}.
(** One request: the items of a page and the next cursor. *)
Variable step : option K -> Result E (list I * option K).

(** All pages from a cursor on, until one without a next cursor. *)
Fixpoint follow (fuel : nat) (esk : option K) : option (Result E (list I)) :=
  match fuel with
  | 0 => None
  | S fuel =>
      match step esk with
      | Ok (items, None) => Some (Ok items)
      | Ok (items, Some k) =>
          match follow fuel (Some k) with
          | Some (Ok more) => Some (Ok (items ++ more))
          | r => r
          end
      | Err e => Some (Err e)
      | Panic => Some Panic
      end
  end.

(** ** Correctness *)

Context {R : Type} (rows : list R) (p : R -> bool) (lt : R -> R -> bool).
Context (key_of : R -> K) (items_of : list R -> list I) (L : nat).

Definition after (esk : option R) (r : R) : bool :=
  match esk with None => true | Some r0 => lt r0 r end.

(** The rows left after a cursor. *)
Definition remaining (esk : option R) : list R := bfilter (fun r => p r && after esk r) rows.

(** The first [L] of them in an order that agrees with [lt]. *)
Definition page_rows (esk : option R) (rs : list R) : Prop :=
  exists all, all ≡ₚ remaining esk
  /\ StronglySorted (fun a b => lt b a = false) all /\ rs = take L all.

Definition next_cursor (rs : list R) : option K :=
  if decide (length rs = L) then key_of <$> last rs else None.

(** A cursor that a page can hand out. *)
Definition cursor_row (esk : option R) : Prop :=
  match esk with None => True | Some r => r ∈ bfilter p rows end.

Hypothesis rows_nodup : NoDup rows.
Hypothesis lt_irrefl : forall r, lt r r = false.
Hypothesis lt_trans : forall a b c, lt a b = true -> lt b c = true -> lt a c = true.
Hypothesis lt_total : forall a b, a ∈ bfilter p rows -> b ∈ bfilter p rows -> a <> b ->
  lt a b = true \/ lt b a = true.
Hypothesis L_pos : 0 < L.
Hypothesis items_of_app : forall a b, items_of (a ++ b) = items_of a ++ items_of b.
Hypothesis step_spec : forall esk items k, cursor_row esk ->
  step (key_of <$> esk) = Ok (items, k) ->
  exists rs, page_rows esk rs /\ items = items_of rs /\ k = next_cursor rs.

Lemma remaining_in esk r : r ∈ remaining esk -> r ∈ bfilter p rows.
Proof. unfold remaining. rewrite !elem_of_bfilter, andb_true_iff. naive_solver. Qed.

(** In a sorted page the rows before the last row of a full prefix are
    before it and the rows after are strictly after. *)
Lemma split_at all esk rs r :
  all ≡ₚ remaining esk -> StronglySorted (fun a b => lt b a = false) all ->
  rs ++ [r] = take L all ->
  drop L all ≡ₚ remaining (Some r)
  /\ Forall (fun x => lt x r = true) rs /\ Forall (fun x => lt r x = true) (drop L all).
Proof.
  intros Hp Hs Ht. rewrite <- (take_drop L all) in Hp, Hs. rewrite <- Ht in Hp, Hs.
  assert (Hnd : NoDup ((rs ++ [r]) ++ drop L all)).
  { rewrite Hp. apply bfilter_NoDup, rows_nodup. }
  assert (Hin : forall x, x ∈ (rs ++ [r]) ++ drop L all -> x ∈ bfilter p rows).
  { intros x Hx. rewrite Hp in Hx. by eapply remaining_in. }
  apply NoDup_app in Hnd as (Hnd1 & Hdis & _). apply NoDup_app in Hnd1 as (_ & Hdis1 & _).
  apply StronglySorted_app_inv in Hs as (Hs1 & _ & Hs2).
  apply StronglySorted_app_inv in Hs1 as (_ & _ & Hs1).
  assert (Hbefore : Forall (fun x => lt x r = true) rs).
  { apply Forall_forall. intros x Hx.
    destruct (lt_total x r) as [?|Hc]; [apply Hin; set_solver..|set_solver|done|].
    rewrite (Hs1 x r) in Hc; set_solver. }
  assert (Hafter : Forall (fun x => lt r x = true) (drop L all)).
  { apply Forall_forall. intros x Hx.
    destruct (lt_total r x) as [?|Hc]; [apply Hin; set_solver..|set_solver|done|].
    rewrite (Hs2 r x) in Hc; set_solver. }
  split_and!; [|done|done].
  transitivity (bfilter (lt r) ((rs ++ [r]) ++ drop L all)).
  - rewrite !bfilter_app, (bfilter_none (lt r) rs), (bfilter_all (lt r) (drop L all)) by
      (done || (eapply Forall_impl; [done|]; intros x Hx; simpl in *;
        destruct (lt r x) eqn:Erx; [|done]; by rewrite <- (lt_irrefl r), (lt_trans r x r))).
    by rewrite bfilter_none by (repeat constructor; apply lt_irrefl).
  - rewrite Hp. unfold remaining. rewrite bfilter_filter. apply reflexive_eq, bfilter_ext.
    apply Forall_forall. intros x Hx. simpl. destruct (p x); [|done]. simpl.
    destruct (lt r x) eqn:Erx; [|by rewrite andb_false_r]. rewrite andb_true_r.
    destruct esk as [r0|]; [|done]. simpl.
    assert (Hr : r ∈ remaining (Some r0)) by (rewrite <- Hp; set_solver).
    unfold remaining in Hr. rewrite elem_of_bfilter, andb_true_iff in Hr. simpl in Hr.
    exact (lt_trans r0 r x (proj2 (proj1 Hr)) Erx).
Qed.

(** Rows in order are in strict order: no two have the same key. *)
Lemma strictly_sorted esk l :
  l ≡ₚ remaining esk -> StronglySorted (fun a b => lt b a = false) l ->
  StronglySorted (fun a b => lt a b = true) l.
Proof.
  intros Hl Hs.
  assert (Hnd : NoDup l) by (rewrite Hl; apply bfilter_NoDup, rows_nodup).
  assert (Hin : forall x, x ∈ l -> x ∈ bfilter p rows)
    by (intros x Hx; rewrite Hl in Hx; by eapply remaining_in).
  clear Hl. induction Hs as [|a l Hs IHl Ha]; [constructor|].
  apply NoDup_cons in Hnd as [Hna Hnd]. constructor; [apply IHl; set_solver|].
  rewrite Forall_forall in *. intros x Hx.
  destruct (lt_total a x) as [?|Hx']; [apply Hin; set_solver..|set_solver|done|].
  by rewrite (Ha x Hx) in Hx'.
Qed.

(** A failure is the failure of one of the requests. *)
Lemma follow_Err fuel : forall esk e, follow fuel esk = Some (Err e) -> exists k, step k = Err e.
Proof.
  induction fuel as [|fuel IH]; [done|]. intros esk e. cbn [follow].
  destruct (step esk) as [[items [k|]]|e'|] eqn:Es; [|done|intros [= <-]; by exists esk|done].
  destruct (follow fuel (Some k)) as [[more|e'|]|] eqn:Ef; [done| |done|done].
  intros [= <-]. by eapply IH.
Qed.

(** Following the cursors from [esk] on terminates, and what it returns
    is every remaining row, once, in order. *)
Lemma follow_correct fuel : forall esk, cursor_row esk -> length (remaining esk) < fuel ->
  exists res, follow fuel (key_of <$> esk) = Some res
  /\ forall items, res = Ok items ->
     exists all, all ≡ₚ remaining esk /\ StronglySorted (fun a b => lt a b = true) all
                 /\ items = items_of all.
Proof.
  induction fuel as [|fuel IH]; intros esk Hc Hf; [lia|]. cbn [follow].
  destruct (step (key_of <$> esk)) as [[items k]|e|] eqn:Es; [|by eexists..].
  destruct (step_spec _ _ _ Hc Es) as (rs & (all & Hp & Hs & ->) & -> & ->).
  unfold next_cursor. destruct (decide (length (take L all) = L)) as [HL|HL].
  2:{ eexists. split; [done|]. intros ? [= <-]. exists all.
      rewrite take_ge by (rewrite length_take in HL; lia). split_and!; [done| |done].
      by eapply strictly_sorted. }
  destruct (last (take L all)) as [r|] eqn:El; simpl.
  2:{ apply last_None in El. rewrite El in HL. simpl in HL. lia. }
  apply last_Some in El as (rs & Ers).
  destruct (split_at all esk rs r Hp Hs (eq_sym Ers)) as (Hrem & Hbefore & Hafter).
  assert (Hr : r ∈ all).
  { apply (subseteq_take L). rewrite Ers. set_solver. }
  destruct (IH (Some r)) as (res & Hres & Hok).
  - simpl. rewrite Hp in Hr. by eapply remaining_in.
  - rewrite <- Hrem, length_drop. rewrite <- Hp in Hf.
    destruct all; [set_solver|]. simpl in *. lia.
  - simpl in Hres. rewrite Hres. destruct res as [more|e|]; [|by eexists..].
    eexists. split; [done|]. intros ? [= <-]. destruct (Hok more eq_refl) as (rest & Hpr & Hsr & ->).
    exists (take L all ++ rest). split_and!; [|apply StronglySorted_app_intro|by rewrite items_of_app].
    + by rewrite Hpr, <- Hrem, take_drop.
    + apply (StronglySorted_app_inv _ _ (drop L all)). rewrite take_drop. by eapply strictly_sorted.
    + done.
    + intros x y Hx Hy. rewrite Hpr, <- Hrem in Hy. rewrite Forall_forall in Hbefore, Hafter.
      rewrite Ers in Hx. apply elem_of_app in Hx as [Hx|Hx%list_elem_of_singleton].
      * apply (lt_trans x r y); auto.
      * subst x. by apply Hafter.
Qed.
End follow.
