(* ===== verification/Query.v ===== *)
(** * Query and Scan (rekt-storage-libpq, [query.rs] and [scan.rs])

    The SQL text, the prepared types and the parameters are assembled as
    the code does; the server is the class [Postgres] of [PgSelect]. *)

From S2P Require Import Prelude RustStr Json Attr Storage PgTypes PgSelect Keyset.

#[local] Open Scope N_scope.

Definition DEFAULT_LIMIT : N := 1000.

(** [len() as u32]. *)
Definition as_u32 (n : nat) : N := N.of_nat n mod 4294967296.

(** [escape_like] pushes a backslash before the wildcards. *)
Fixpoint escape_like (s : string) : string :=
  match s with
  | EmptyString => EmptyString
  | String c r =>
      if Ascii.eqb c "\" || Ascii.eqb c "%" || Ascii.eqb c "_"
      then String "\" (String c (escape_like r))
      else String c (escape_like r)
  end.

(** ** Keys of a stored row *)
Section keys.
Context `{Base64}.

Definition extract_key_from_jsonb (row : Value) (attr : string) (ty : KeyType) : option KeyValue :=
  tagged ← value_get row attr;
  match ty with
  | KeyType_S => KeyValue_S <$> (value_get tagged "S" ≫= as_str)
  | KeyType_N => KeyValue_N <$> (value_get tagged "N" ≫= as_str)
  | KeyType_B => s ← value_get tagged "B" ≫= as_str; KeyValue_B <$> b64_decode s
  end.

Definition lek_from_row (row : Value) (shape : TableShape) : option (KeyValue * option KeyValue) :=
  pk ← extract_key_from_jsonb row (shape_pk_col shape) (shape_pk_type shape);
  match shape_sk_col shape, shape_sk_type shape with
  | Some col, Some ty => sk ← extract_key_from_jsonb row col ty; Some (pk, Some sk)
  | _, _ => Some (pk, None)
  end.
End keys.

(** ** The WHERE clause of a Query

    The accumulator of the assembly: text, types, parameters and the next
    placeholder's number. *)
Record sql_acc : Type := mkAcc {
  acc_sql : string;
  acc_types : list PgType;
  acc_params : list Param;
  acc_next : N
}.

Definition push (a : sql_acc) (sql : string) (types : list PgType) (params : list Param) : sql_acc :=
  mkAcc (acc_sql a +:+ sql) (acc_types a ++ types) (acc_params a ++ params)
    (acc_next a + N.of_nat (length params)).

Definition sk_cast_of (shape : TableShape) : string :=
  match shape_sk_type shape with Some t => cast_for_keytype t | None => "" end.

Definition sk_compare (a : sql_acc) (shape : TableShape) (op : string) (v : KeyValue)
  : Result BackendError sql_acc :=
  let? col := expect (quote_ident <$> shape_sk_col shape) in
  let? ty := expect (pg_type_for_keytype <$> shape_sk_type shape) in
  Ok (push a (" AND " +:+ col +:+ " " +:+ op +:+ " $" +:+ usize_to_string (acc_next a)
              +:+ sk_cast_of shape) [ty] [Param_Bound v]).

Definition push_sk_condition (a : sql_acc) (shape : TableShape) (cond : option SkCondition)
  : Result BackendError sql_acc :=
  match cond with
  | None => Ok a
  | Some (SkCondition_Eq v) => sk_compare a shape "=" v
  | Some (SkCondition_Lt v) => sk_compare a shape "<" v
  | Some (SkCondition_Le v) => sk_compare a shape "<=" v
  | Some (SkCondition_Gt v) => sk_compare a shape ">" v
  | Some (SkCondition_Ge v) => sk_compare a shape ">=" v
  | Some (SkCondition_Between lo hi) =>
      let? col := expect (quote_ident <$> shape_sk_col shape) in
      let? ty := expect (pg_type_for_keytype <$> shape_sk_type shape) in
      Ok (push a (" AND " +:+ col +:+ " BETWEEN $" +:+ usize_to_string (acc_next a)
                  +:+ sk_cast_of shape +:+ " AND $" +:+ usize_to_string (acc_next a + 1)
                  +:+ sk_cast_of shape)
            [ty; ty] [Param_Bound lo; Param_Bound hi])
  | Some (SkCondition_BeginsWithS prefix) =>
      let? col := expect (quote_ident <$> shape_sk_col shape) in
      let? _ := expect (pg_type_for_keytype <$> shape_sk_type shape) in
      Ok (push a (" AND " +:+ col +:+ " LIKE $" +:+ usize_to_string (acc_next a) +:+ " ESCAPE '\'")
            [PgType_TEXT] [Param_Text (escape_like prefix +:+ "%")])
  end.

Definition push_esk (a : sql_acc) (shape : TableShape)
    (esk : option (KeyValue * option KeyValue)) (forward : bool) : Result BackendError sql_acc :=
  match esk with
  | Some (_, Some esk_sk) => sk_compare a shape (if forward then ">" else "<") esk_sk
  | Some (_, None) | None => Ok a
  end.

(** The statement: text, types, parameters. *)
Definition statement : Type := string * list PgType * list Param.

Definition query_statement (shape : TableShape) (pk : KeyValue) (cond : option SkCondition)
    (lim : N) (esk : option (KeyValue * option KeyValue)) (forward : bool)
  : Result BackendError statement :=
  let start := mkAcc (quote_ident (shape_pk_col shape) +:+ " = $1"
                      +:+ cast_for_keytype (shape_pk_type shape))
                 [pg_type_for_keytype (shape_pk_type shape)] [Param_Bound pk] 2 in
  let? a := push_sk_condition start shape cond in
  let? a := push_esk a shape esk forward in
  let order_dir := if forward then "ASC" else "DESC" in
  let order_by :=
    match shape_sk_col shape with
    | Some sk_col => " ORDER BY " +:+ quote_ident sk_col +:+ " " +:+ order_dir
    | None => ""
    end in
  Ok ("SELECT " +:+ quote_ident (shape_jsonb_col shape) +:+ " FROM "
        +:+ quote_ident (shape_table shape) +:+ " WHERE " +:+ acc_sql a +:+ order_by
        +:+ " LIMIT $" +:+ usize_to_string (acc_next a),
      (acc_types a ++ [PgType_INT8])%list, (acc_params a ++ [Param_Int8 lim])%list).

(** [scan_raw]'s WHERE clause: empty, or after the cursor. A cursor that
    does not fit the shape is ignored. *)
Definition scan_where (shape : TableShape) (esk : option (KeyValue * option KeyValue)) : sql_acc :=
  let pk_col_q := quote_ident (shape_pk_col shape) in
  let pk_cast := cast_for_keytype (shape_pk_type shape) in
  let pk_pg := pg_type_for_keytype (shape_pk_type shape) in
  let empty := mkAcc "" [] [] 1 in
  match esk with
  | None => empty
  | Some (esk_pk, esk_sk) =>
      match quote_ident <$> shape_sk_col shape, pg_type_for_keytype <$> shape_sk_type shape, esk_sk with
      | Some sk_col, Some sk_type, Some sk_val =>
          push empty (" WHERE (" +:+ pk_col_q +:+ ", " +:+ sk_col +:+ ") > ($" +:+ usize_to_string 1
                      +:+ pk_cast +:+ ", $" +:+ usize_to_string (1 + 1) +:+ sk_cast_of shape +:+ ")")
            [pk_pg; sk_type] [Param_Bound esk_pk; Param_Bound sk_val]
      | None, _, None =>
          push empty (" WHERE " +:+ pk_col_q +:+ " > $" +:+ usize_to_string 1 +:+ pk_cast)
            [pk_pg] [Param_Bound esk_pk]
      | _, _, _ => empty
      end
  end.

Definition scan_statement (shape : TableShape) (lim : N)
    (esk : option (KeyValue * option KeyValue)) : statement :=
  let a := scan_where shape esk in
  let order_by :=
    match shape_sk_col shape with
    | Some sk => quote_ident (shape_pk_col shape) +:+ ", " +:+ quote_ident sk
    | None => quote_ident (shape_pk_col shape)
    end in
  ("SELECT " +:+ quote_ident (shape_jsonb_col shape) +:+ " FROM "
     +:+ quote_ident (shape_table shape) +:+ acc_sql a +:+ " ORDER BY " +:+ order_by
     +:+ " LIMIT $" +:+ usize_to_string (acc_next a),
   (acc_types a ++ [PgType_INT8])%list, (acc_params a ++ [Param_Int8 lim])%list).

(** ** Execution *)
Section raw.
Context `{Base64} (shape : TableShape) `{Postgres shape}.

(** Acquire a client, prepare and run. *)
Definition run_select (db : Db) (st : statement) : Result BackendError (list Value) :=
  match pg_pool db with
  | Some (e, waited_ms) => Err (classify_pool_error e waited_ms)
  | None => let '(sql, types, params) := st in
            map_err (map_pg_err (shape_table shape)) (pg_query db sql types params)
  end.

(** Decode the page, take its cursor before the filter, then filter. *)
Definition page_outcome (scanned_rows : list Value) (lim_input : N) (filter : option (Value -> bool))
  : QueryOutcome :=
  let filled_to_limit := as_u32 (length scanned_rows) =? lim_input in
  let last_evaluated_key :=
    if filled_to_limit then last scanned_rows ≫= (fun row => lek_from_row row shape) else None in
  let items := match filter with None => scanned_rows | Some f => bfilter f scanned_rows end in
  mkQueryOutcome items (as_u32 (length items)) (as_u32 (length scanned_rows)) last_evaluated_key.

Definition query_raw (db : Db) (pk : KeyValue) (sk_condition : option SkCondition)
    (limit : option N) (exclusive_start_key : option (KeyValue * option KeyValue))
    (filter : option (Value -> bool)) (forward : bool) : Result BackendError QueryOutcome :=
  if bool_decide (is_Some sk_condition) && bool_decide (shape_sk_col shape = None)
  then Err (BackendError_UnexpectedSortKey (shape_table shape))
  else if bool_decide (shape_sk_col shape = None) && bool_decide (is_Some exclusive_start_key)
  then Ok (mkQueryOutcome [] 0 0 None)
  else
    let lim_input := default DEFAULT_LIMIT limit in
    let? st := query_statement shape pk sk_condition lim_input exclusive_start_key forward in
    let? rows := run_select db st in
    Ok (page_outcome rows lim_input filter).

Definition scan_raw (db : Db) (filter : option (Value -> bool)) (limit : option N)
    (exclusive_start_key : option (KeyValue * option KeyValue)) : Result BackendError QueryOutcome :=
  let lim_input := default DEFAULT_LIMIT limit in
  let? rows := run_select db (scan_statement shape lim_input exclusive_start_key) in
  Ok (page_outcome rows lim_input filter).
End raw.

(** ** The statements are the documented ones *)

(** A shape with both or neither of a sort column and its type. *)
Definition shape_ok (shape : TableShape) : Prop :=
  is_Some (shape_sk_col shape) <-> is_Some (shape_sk_type shape).

Definition kind_of (cond : option SkCondition) : sk_kind :=
  match cond with
  | None => SkNone
  | Some (SkCondition_Eq _) => SkCmp op_eq
  | Some (SkCondition_Lt _) => SkCmp op_lt
  | Some (SkCondition_Le _) => SkCmp op_le
  | Some (SkCondition_Gt _) => SkCmp op_gt
  | Some (SkCondition_Ge _) => SkCmp op_ge
  | Some (SkCondition_Between _ _) => SkBetween
  | Some (SkCondition_BeginsWithS _) => SkLike
  end.

Definition cond_params (cond : option SkCondition) : list Param :=
  match cond with
  | None => []
  | Some (SkCondition_Eq v | SkCondition_Lt v | SkCondition_Le v | SkCondition_Gt v
         | SkCondition_Ge v) => [Param_Bound v]
  | Some (SkCondition_Between lo hi) => [Param_Bound lo; Param_Bound hi]
  | Some (SkCondition_BeginsWithS prefix) => [Param_Text (escape_like prefix +:+ "%")]
  end.

Definition cursor_sk (esk : option (KeyValue * option KeyValue)) : option KeyValue := esk ≫= snd.

Definition query_args (pk : KeyValue) (cond : option SkCondition)
    (esk : option (KeyValue * option KeyValue)) : list Param :=
  Param_Bound pk :: cond_params cond
    ++ match cursor_sk esk with Some v => [Param_Bound v] | None => [] end.

Lemma bool_decide_is_Some {A} (o : option A) :
  bool_decide (is_Some o) = match o with Some _ => true | None => false end.
Proof. by destruct o. Qed.

(** Two texts built from the same pieces. *)
#[local] Arguments quote_ident : simpl never.
Ltac same_text :=
  vm_compute usize_to_string; rewrite <- ?app_assoc_str; simpl; rewrite <- ?app_assoc_str; simpl;
  reflexivity.

Lemma query_statement_select shape pk cond lim esk forward :
  shape_ok shape -> (shape_sk_col shape = None -> cond = None /\ cursor_sk esk = None) ->
  let sel := select_of shape (QueryStmt (kind_of cond) (bool_decide (is_Some (cursor_sk esk))) forward) in
  query_statement shape pk cond lim esk forward
  = Ok (render sel, select_types sel, query_args pk cond esk ++ [Param_Int8 lim])%list.
Proof.
  intros Hok Hnone. unfold query_statement, select_of, sort_col, render, select_types, query_args.
  destruct (shape_sk_col shape) as [col|] eqn:Hc.
  - destruct (shape_sk_type shape) as [ty|] eqn:Ht;
      [|destruct Hok as [Hok _]; rewrite Hc, Ht in Hok; by destruct Hok].
    rewrite bool_decide_is_Some.
    destruct cond as [[v|v|v|v|v|lo hi|prefix]|];
      destruct esk as [[epk [esk|]]|]; destruct forward;
      cbn -[quote_ident usize_to_string String.append]; unfold sk_compare, push, sk_cast_of, placeholder;
      rewrite ?Hc, ?Ht; cbn -[quote_ident usize_to_string String.append];
      do 3 f_equal; same_text.
  - destruct Hnone as [-> Hesk]; [done|]. unfold cursor_sk in Hesk.
    assert (push_esk (mkAcc (quote_ident (shape_pk_col shape) +:+ " = $1"
                      +:+ cast_for_keytype (shape_pk_type shape))
                 [pg_type_for_keytype (shape_pk_type shape)] [Param_Bound pk] 2) shape esk forward
            = Ok (mkAcc (quote_ident (shape_pk_col shape) +:+ " = $1"
                      +:+ cast_for_keytype (shape_pk_type shape))
                 [pg_type_for_keytype (shape_pk_type shape)] [Param_Bound pk] 2)) as Hpush
      by (by destruct esk as [[? [|]]|]).
    cbn -[quote_ident usize_to_string String.append push_esk]. rewrite Hpush.
    unfold cursor_sk. rewrite Hesk. cbn -[quote_ident usize_to_string String.append].
    do 3 f_equal; same_text.
Qed.

Definition scan_args (shape : TableShape) (esk : option (KeyValue * option KeyValue)) : list Param :=
  match esk with
  | Some (pk, sk) => Param_Bound pk :: match sk with Some v => [Param_Bound v] | None => [] end
  | None => []
  end.

(** A cursor of the shape. *)
Definition esk_fits (shape : TableShape) (esk : option (KeyValue * option KeyValue)) : Prop :=
  match esk with None => True | Some (_, sk) => is_Some sk <-> is_Some (shape_sk_col shape) end.

Lemma scan_statement_select shape lim esk :
  shape_ok shape -> esk_fits shape esk ->
  let sel := select_of shape (ScanStmt (bool_decide (is_Some esk))) in
  scan_statement shape lim esk
  = (render sel, select_types sel, scan_args shape esk ++ [Param_Int8 lim])%list.
Proof.
  intros Hok Hfit. unfold scan_statement, scan_where, select_of, sort_col, render, select_types.
  rewrite bool_decide_is_Some. unfold push, sk_cast_of, placeholder.
  destruct (shape_sk_col shape) as [col|] eqn:Hc, (shape_sk_type shape) as [ty|] eqn:Ht;
    try (destruct Hok as [Ho1 Ho2]; rewrite Hc, Ht in Ho1, Ho2;
         first [by destruct Ho1 | by destruct Ho2]);
    destruct esk as [[epk [esk|]]|]; unfold esk_fits in Hfit; rewrite ?Hc in Hfit;
    first
      [ cbn -[usize_to_string String.append]; unfold placeholder; do 2 f_equal; same_text
      | exfalso; destruct Hfit as [Hf1 Hf2]; first [by destruct Hf1 | by destruct Hf2] ].
Qed.

(** ** What a page is *)

Lemma starts_with_cons d s c p :
  starts_with (String d s) (String c p) = Ascii.eqb d c && starts_with s p.
Proof. unfold starts_with. cbn [strip_prefix]. rewrite (Ascii.eqb_sym c d). by destruct (Ascii.eqb d c). Qed.

Section like_prefix.
Context `{Like}.

(** The escaped prefix followed by [%] matches exactly the texts with
    that prefix. *)
Lemma like_escape_prefix p : forall s, like s (escape_like p +:+ "%") = starts_with s p.
Proof.
  induction p as [|c p IH]; intros s; [by rewrite like_any|]. cbn [escape_like].
  destruct (Ascii.eqb_spec c "\") as [->|Hb]; [|destruct (Ascii.eqb_spec c "%") as [->|Hpc];
    [|destruct (Ascii.eqb_spec c "_") as [->|Hu]]]; cbn [orb String.append];
    (destruct s as [|d s];
     [by rewrite ?like_escape_end, ?like_literal_end by done
     | rewrite ?like_escape, ?like_literal by done; by rewrite IH, starts_with_cons ]).
Qed.
End like_prefix.
