(* ===== verification/QueryPaging.v ===== *)
(** * Query and Scan visit every row exactly once

    The table as rows with unique keys whose key columns agree with their
    documents, and the theorems about following [LastEvaluatedKey]. *)

From S2P Require Import Prelude RustStr Json Attr Storage Keys PgTypes PgSelect Keyset Query.

Section table.
Context `{Base64} (shape : TableShape) `{Postgres shape}.
#[local] Abbreviation key := (KeyValue * option KeyValue)%type.

(** ** The table's invariant *)

(** The column holds the value of the attribute of that name in the
    document, as a generated column does. *)
Definition holds_key (r : row) (col : string) (ty : KeyType) (v : KeyValue) : Prop :=
  row_cols r !! col = Some v /\ key_arg_ok numeric_text ty v
  /\ value_get (row_data r) col = Some (to_value (kv_to_av v)).

Definition row_ok (r : row) (k : key) : Prop :=
  holds_key r (shape_pk_col shape) (shape_pk_type shape) k.1
  /\ match sort_col shape, k.2 with
     | Some (col, ty), Some sk => holds_key r col ty sk
     | None, None => True
     | _, _ => False
     end.

(** The primary key: equal keys, up to the order's equivalence. *)
Definition same_key (k1 k2 : key) : Prop :=
  key_eq k1.1 k2.1 = true
  /\ match k1.2, k2.2 with Some a, Some b => key_eq a b = true | _, _ => True end.

Record table_ok (db : Db) : Prop := {
  table_rows : forall r, r ∈ rows_of db -> exists k, row_ok r k;
  table_nodup : NoDup (rows_of db);
  table_unique : forall r1 r2 k1 k2, r1 ∈ rows_of db -> r2 ∈ rows_of db ->
    row_ok r1 k1 -> row_ok r2 k2 -> same_key k1 k2 -> r1 = r2
}.

(** A row's key, read from its columns. *)
Definition row_key (r : row) : key :=
  (default (KeyValue_S "") (row_cols r !! shape_pk_col shape),
   '(col, _) ← sort_col shape; row_cols r !! col).

Lemma row_ok_key r k : row_ok r k -> row_key r = k.
Proof.
  intros [(Hpk & _) Hsk]. unfold row_key. rewrite Hpk. destruct k as [pk sk]; simpl in *.
  destruct (sort_col shape) as [[col ty]|], sk as [sk|]; try done. simpl.
  by destruct Hsk as (-> & _).
Qed.

Lemma extract_stored_key r col ty v :
  holds_key r col ty v -> extract_key_from_jsonb (row_data r) col ty = Some v.
Proof.
  intros (_ & [<- _] & Hget). unfold extract_key_from_jsonb. rewrite Hget.
  destruct v as [s|n|b]; simpl; [done|done|]. by rewrite b64_decode_encode.
Qed.

Lemma lek_of_row r k : shape_ok shape -> row_ok r k -> lek_from_row (row_data r) shape = Some k.
Proof.
  intros Hok [Hpk Hsk]. unfold lek_from_row. rewrite (extract_stored_key _ _ _ _ Hpk). simpl.
  unfold sort_col in Hsk. destruct k as [pk sk]; simpl in *.
  destruct (shape_sk_col shape) as [col|]; [destruct (shape_sk_type shape) as [ty|]|];
    destruct sk as [sk|]; try done.
  by rewrite (extract_stored_key _ _ _ _ Hsk).
Qed.

(** ** The order of a Query and of a Scan *)

Definition sk_lt (forward : bool) (r1 r2 : row) : bool :=
  match (row_key r1).2, (row_key r2).2 with
  | Some a, Some b => if forward then key_lt a b else key_lt b a
  | _, _ => false
  end.

Definition pk_sk_lt (r1 r2 : row) : bool :=
  match (row_key r1).2, (row_key r2).2 with
  | Some a, Some b => row_gt (row_key r2).1 b (row_key r1).1 a
  | _, _ => key_lt (row_key r1).1 (row_key r2).1
  end.

Lemma sk_lt_irrefl forward r : sk_lt forward r r = false.
Proof. unfold sk_lt. case_match; [|done]. by case_match; apply key_lt_irrefl. Qed.

Lemma sk_lt_trans forward a b c :
  sk_lt forward a b = true -> sk_lt forward b c = true -> sk_lt forward a c = true.
Proof.
  unfold sk_lt. destruct (row_key a).2, (row_key b).2, (row_key c).2, forward; try done;
    intros; by eapply key_lt_trans.
Qed.

(** ** The rows a Query asks for *)

(** What a sort-key condition means. *)
Definition sk_holds (cond : option SkCondition) (v : KeyValue) : bool :=
  match cond with
  | None => true
  | Some (SkCondition_Eq x) => key_eq v x
  | Some (SkCondition_Lt x) => key_lt v x
  | Some (SkCondition_Le x) => key_leb v x
  | Some (SkCondition_Gt x) => key_lt x v
  | Some (SkCondition_Ge x) => key_leb x v
  | Some (SkCondition_Between lo hi) => key_leb lo v && key_leb v hi
  | Some (SkCondition_BeginsWithS prefix) =>
      match v with KeyValue_S s => starts_with s prefix | _ => false end
  end.

Definition matches (pk : KeyValue) (cond : option SkCondition) (r : row) : bool :=
  key_eq (row_key r).1 pk
  && match (row_key r).2 with Some sk => sk_holds cond sk | None => true end.

(** Bounds of the sort key's type, and none on a table without one. *)
Definition sk_condition_ok (cond : option SkCondition) : Prop :=
  match cond, sort_col shape with
  | None, _ => True
  | Some _, None => False
  | Some (SkCondition_Eq v | SkCondition_Lt v | SkCondition_Le v | SkCondition_Gt v
         | SkCondition_Ge v), Some (_, ty) => key_arg_ok numeric_text ty v
  | Some (SkCondition_Between lo hi), Some (_, ty) =>
      key_arg_ok numeric_text ty lo /\ key_arg_ok numeric_text ty hi
  | Some (SkCondition_BeginsWithS _), Some (_, ty) => ty = KeyType_S
  end.

(** Following [LastEvaluatedKey]: the items of all pages. *)
Definition page_of (out : Result BackendError QueryOutcome)
  : Result BackendError (list Value * option key) :=
  res_map (fun o => (qo_items o, qo_last_evaluated_key o)) out.

Definition query_all (db : Db) (pk : KeyValue) (cond : option SkCondition) (limit : option N)
    (filter : option (Value -> bool)) (forward : bool) (fuel : nat)
  : option (Result BackendError (list Value)) :=
  follow (fun esk => page_of (query_raw shape db pk cond limit esk filter forward)) fuel None.

Definition scan_all (db : Db) (filter : option (Value -> bool)) (limit : option N) (fuel : nat)
  : option (Result BackendError (list Value)) :=
  follow (fun esk => page_of (scan_raw shape db filter limit esk)) fuel None.

Definition filtered (filter : option (Value -> bool)) (rs : list row) : list Value :=
  let docs := row_data <$> rs in match filter with None => docs | Some f => bfilter f docs end.

Lemma filtered_app filter a b : filtered filter (a ++ b) = filtered filter a ++ filtered filter b.
Proof.
  unfold filtered. rewrite fmap_app. destruct filter; [apply bfilter_app|done].
Qed.

(** ** One page *)

Lemma run_select_page db st args lim docs :
  where_args_ok numeric_text (sel_where (select_of shape st)) args ->
  run_select shape db (render (select_of shape st), select_types (select_of shape st),
                       args ++ [Param_Int8 lim]) = Ok docs ->
  exists out, selected (rows_of db) (select_of shape st) args out
              /\ docs = row_data <$> take (N.to_nat lim) out.
Proof.
  intros Hargs. unfold run_select. destruct (pg_pool db) as [[]|]; [done|].
  destruct (pg_query db _ _ _) as [js|e|] eqn:Eq; [|done|done]. intros [= <-].
  by eapply pg_query_selects.
Qed.

Lemma page_outcome_rows lim filter rs :
  (1 <= lim < 4294967296)%N -> length rs <= N.to_nat lim -> shape_ok shape ->
  (forall r, r ∈ rs -> exists k, row_ok r k) ->
  page_of (Ok (page_outcome shape (row_data <$> rs) lim filter))
  = Ok (filtered filter rs, next_cursor row_key (N.to_nat lim) rs).
Proof.
  intros Hlim Hlen Hshape Hrows. unfold page_of, page_outcome, next_cursor. simpl. do 2 f_equal.
  rewrite length_fmap. unfold as_u32. rewrite N.mod_small by lia.
  case_decide as Hd; [rewrite (proj2 (N.eqb_eq _ _)) by lia | by rewrite (proj2 (N.eqb_neq _ _)) by lia].
  rewrite fmap_last. destruct (last rs) as [r|] eqn:El; [|done]. simpl.
  apply last_Some in El as [rs' ->]. destruct (Hrows r) as [k Hk]; [set_solver|].
  rewrite (lek_of_row r k) by done. by rewrite (row_ok_key r k).
Qed.

(** A sorted selection is sorted for any order the ORDER BY implies. *)
Lemma sorted_impl {A} (R S : A -> A -> Prop) l :
  (forall a b, a ∈ l -> b ∈ l -> R a b -> S a b) -> StronglySorted R l -> StronglySorted S l.
Proof.
  intros HRS Hs. induction Hs as [|a l Hs IH Ha]; [constructor|]. constructor.
  - apply IH. intros x y Hx Hy. apply HRS; set_solver.
  - rewrite Forall_forall in *. intros x Hx. apply HRS; set_solver.
Qed.

Lemma in_take {A} n (l : list A) x : x ∈ take n l -> x ∈ l.
Proof. intros Hx. rewrite <- (take_drop n l). set_solver. Qed.

Section one_page.
Context (db : Db) (Htable : table_ok db) (Hshape : shape_ok shape).
Context (lim : N) (Hlim : (1 <= lim < 4294967296)%N) (filter : option (Value -> bool)).
Context (p : row -> bool) (lt : row -> row -> bool).

(** A statement whose WHERE and ORDER BY are [p] after a cursor in the
    order [lt] yields a page of the loop. *)
Lemma statement_page st args esk docs :
  where_args_ok numeric_text (sel_where (select_of shape st)) args ->
  (forall r, r ∈ rows_of db ->
     where_holds r (sel_where (select_of shape st)) args = p r && after lt esk r) ->
  (forall r1 r2, r1 ∈ rows_of db -> r2 ∈ rows_of db ->
     order_leb (sel_order (select_of shape st)) r1 r2 = true -> lt r2 r1 = false) ->
  run_select shape db (render (select_of shape st), select_types (select_of shape st),
                       args ++ [Param_Int8 lim]) = Ok docs ->
  exists rs, page_rows (rows_of db) p lt (N.to_nat lim) esk rs
  /\ page_of (Ok (page_outcome shape docs lim filter))
     = Ok (filtered filter rs, next_cursor row_key (N.to_nat lim) rs).
Proof.
  intros Hargs Hwhere Horder Hrun.
  destruct (run_select_page _ _ _ _ _ Hargs Hrun) as (out & [Hp Hs] & ->).
  assert (Hin : forall r, r ∈ out -> r ∈ rows_of db).
  { intros r Hr. rewrite Hp in Hr. by apply elem_of_bfilter in Hr as [_ ?]. }
  exists (take (N.to_nat lim) out). split.
  - exists out. split_and!; [|eapply sorted_impl, Hs; eauto|done].
    rewrite Hp. unfold remaining. apply reflexive_eq, bfilter_ext, Forall_forall. auto.
  - apply page_outcome_rows; [done|rewrite length_take; lia|done|].
    intros r Hr. apply (table_rows db Htable). by apply Hin, (in_take (N.to_nat lim)).
Qed.
End one_page.

(** ** Query *)

(** Whether a row is after a cursor's sort key. *)
Definition after_sk (forward : bool) (sk : option KeyValue) (r : row) : bool :=
  match sk, (row_key r).2 with
  | Some v, Some a => if forward then key_lt v a else key_lt a v
  | Some _, None => false
  | None, _ => true
  end.

Lemma query_where_holds r k pk cond esk forward :
  row_ok r k -> sk_condition_ok cond ->
  (sort_col shape = None -> cursor_sk esk = None) ->
  where_holds r (sel_where (select_of shape
    (QueryStmt (kind_of cond) (bool_decide (is_Some (cursor_sk esk))) forward))) (query_args pk cond esk)
  = matches pk cond r && after_sk forward (cursor_sk esk) r.
Proof.
  intros Hr Hcond Hnone. unfold matches, after_sk. rewrite (row_ok_key r k Hr).
  destruct Hr as [(Hpk & _) Hsk], k as [kpk ksk]. cbn [fst snd] in *.
  unfold query_args, select_of, sk_condition_ok in *. rewrite bool_decide_is_Some.
  destruct (sort_col shape) as [[col ty]|], ksk as [sk|]; try done.
  - destruct Hsk as (Hsk & [Hty _] & _).
    destruct cond as [[v|v|v|v|v|lo hi|prefix]|], (cursor_sk esk), forward; simpl;
      rewrite ?Hpk, ?Hsk; simpl; rewrite ?like_escape_prefix, ?andb_true_r, ?andb_assoc; try done;
      clear Hty; destruct sk; by rewrite ?like_escape_prefix.
  - rewrite Hnone by done. destruct cond as [[]|]; try done. simpl. by rewrite Hpk, !andb_true_r.
Qed.

Lemma query_args_ok pk cond esk forward :
  key_arg_ok numeric_text (shape_pk_type shape) pk -> sk_condition_ok cond ->
  (forall v, cursor_sk esk = Some v ->
     match sort_col shape with Some (_, ty) => key_arg_ok numeric_text ty v | None => False end) ->
  where_args_ok numeric_text (sel_where (select_of shape
    (QueryStmt (kind_of cond) (bool_decide (is_Some (cursor_sk esk))) forward))) (query_args pk cond esk).
Proof.
  intros Hpk Hcond Hesk. unfold query_args, select_of, sk_condition_ok in *.
  rewrite bool_decide_is_Some. destruct (sort_col shape) as [[col ty]|].
  - destruct cond as [[v|v|v|v|v|lo hi|prefix]|], (cursor_sk esk) as [v'|]; simpl;
      try specialize (Hesk v' eq_refl); naive_solver.
  - destruct cond as [[]|]; try done. destruct (cursor_sk esk) as [v'|]; [by destruct (Hesk v')|].
    by split_and!.
Qed.

Lemma query_order r1 r2 k1 k2 k e forward :
  row_ok r1 k1 -> row_ok r2 k2 ->
  order_leb (sel_order (select_of shape (QueryStmt k e forward))) r1 r2 = true ->
  sk_lt forward r2 r1 = false.
Proof.
  intros Ha Hb. unfold sk_lt. rewrite (row_ok_key _ _ Ha), (row_ok_key _ _ Hb).
  destruct Ha as [_ Ha], Hb as [_ Hb]. unfold select_of. simpl sel_order.
  destruct (sort_col shape) as [[col ty]|], k1 as [? [a|]], k2 as [? [b|]]; try done.
  destruct Ha as (Ha & _), Hb as (Hb & _). unfold key_lt.
  destruct forward; simpl; unfold item_leb; simpl; rewrite Ha, Hb; simpl;
    destruct (key_leb a b), (key_leb b a); naive_solver.
Qed.

Lemma cursor_ok db (Htable : table_ok db) p r :
  r ∈ bfilter p (rows_of db) -> r ∈ rows_of db /\ exists k, row_ok r k.
Proof. rewrite elem_of_bfilter. intros [_ Hr]. split; [done|]. by apply (table_rows db). Qed.

Lemma sort_col_None : shape_ok shape -> sort_col shape = None <-> shape_sk_col shape = None.
Proof.
  unfold shape_ok, sort_col. intros Hok.
  destruct (shape_sk_col shape) as [c|]; [|done]. destruct (shape_sk_type shape); [done|].
  by destruct (proj1 Hok) as [? ?].
Qed.

Lemma row_key_sk r k : row_ok r k -> is_Some (row_key r).2 <-> is_Some (sort_col shape).
Proof.
  intros Hr. rewrite (row_ok_key r k Hr). destruct Hr as [_ Hr], k as [pk sk]. simpl in *.
  destruct (sort_col shape) as [[]|], sk; naive_solver.
Qed.

Lemma sk_condition_hash cond : sk_condition_ok cond -> sort_col shape = None -> cond = None.
Proof. unfold sk_condition_ok. intros Hc Hs. rewrite Hs in Hc. by destruct cond as [[]|]. Qed.

(** One request of the loop. *)
Section query_step.
Context (db : Db) (Htable : table_ok db) (Hshape : shape_ok shape).
Context (pk : KeyValue) (Hpk : key_arg_ok numeric_text (shape_pk_type shape) pk).
Context (cond : option SkCondition) (Hcond : sk_condition_ok cond).
Context (forward : bool) (lim : N) (Hlim : (1 <= lim < 4294967296)%N).
Context (filter : option (Value -> bool)).

Lemma query_run_page esk docs :
  cursor_row (rows_of db) (matches pk cond) esk ->
  (sort_col shape = None -> esk = None) ->
  (let? st := query_statement shape pk cond lim (row_key <$> esk) forward in
   run_select shape db st) = Ok docs ->
  exists rs, page_rows (rows_of db) (matches pk cond) (sk_lt forward) (N.to_nat lim) esk rs
  /\ page_of (Ok (page_outcome shape docs lim filter))
     = Ok (filtered filter rs, next_cursor row_key (N.to_nat lim) rs).
Proof.
  intros Hcur Hnone Hrun.
  assert (Hesk : match esk with
                 | Some r => exists k, row_ok r k | None => True end).
  { destruct esk as [r|]; [|done]. by destruct (cursor_ok db Htable _ r Hcur). }
  assert (Hsk : cursor_sk (row_key <$> esk) = (r ← esk; (row_key r).2)) by (by destruct esk).
  assert (Hhash : shape_sk_col shape = None -> cond = None /\ cursor_sk (row_key <$> esk) = None).
  { intros Hc%(proj2 (sort_col_None Hshape)). split; [by apply sk_condition_hash|].
    by rewrite Hnone. }
  rewrite query_statement_select in Hrun by done.
  eapply statement_page; [done|done|done| | | |exact Hrun].
  - apply query_args_ok; [done..|]. rewrite Hsk. destruct esk as [r|]; [|done].
    intros v Hv. change ((row_key r).2 = Some v) in Hv. destruct Hesk as [k Hk]. rewrite (row_ok_key r k Hk) in Hv.
    destruct Hk as [_ Hk]. rewrite Hv in Hk. destruct (sort_col shape) as [[col ty]|]; [|done].
    by destruct Hk as (_ & ? & _).
  - intros r Hr. destruct (table_rows db Htable r Hr) as [k' Hk'].
    rewrite (query_where_holds r k') by (done || (intros Hc; apply Hhash; by apply sort_col_None)).
    f_equal. rewrite Hsk. destruct esk as [r0|]; [|done].
    change (after_sk forward (row_key r0).2 r = sk_lt forward r0 r). unfold after_sk, sk_lt.
    destruct Hesk as [k0 Hk0]. destruct (row_key r0).2 eqn:E0; [done|].
    apply row_key_sk in Hk0. rewrite E0 in Hk0.
    destruct (sort_col shape) eqn:Es; [by destruct (proj2 Hk0)|by specialize (Hnone eq_refl)].
  - intros r1 r2 Hr1 Hr2.
    destruct (table_rows db Htable r1 Hr1) as [k1 Hk1], (table_rows db Htable r2 Hr2) as [k2 Hk2].
    by eapply query_order.
Qed.

(** Past its two guards a Query runs its statement. *)
Lemma query_raw_runs limit esk :
  default DEFAULT_LIMIT limit = lim -> (sort_col shape = None -> esk = None) ->
  query_raw shape db pk cond limit esk filter forward
  = (let? docs := (let? st := query_statement shape pk cond lim esk forward in
                   run_select shape db st) in
     Ok (page_outcome shape docs lim filter)).
Proof.
  intros Hl Hnone. unfold query_raw. rewrite Hl, !bool_decide_is_Some.
  assert (Hg : shape_sk_col shape = None -> cond = None /\ esk = None).
  { intros Hc%(sort_col_None Hshape). auto using sk_condition_hash. }
  case_bool_decide as Hc; [destruct (Hg Hc) as [-> ->] | rewrite andb_false_r]; cbn [andb];
    by destruct (query_statement _ _ _ _ _ _).
Qed.

(** A cursor on a table without a sort key ends the loop. *)
Lemma query_raw_hash_cursor limit k :
  sort_col shape = None ->
  query_raw shape db pk cond limit (Some k) filter forward = Ok (mkQueryOutcome [] 0 0 None).
Proof.
  intros Hs. unfold query_raw. rewrite (sk_condition_hash cond) by done.
  by rewrite (bool_decide_eq_true_2 (shape_sk_col shape = None)) by by apply sort_col_None.
Qed.

Lemma query_step limit esk items k :
  default DEFAULT_LIMIT limit = lim -> cursor_row (rows_of db) (matches pk cond) esk ->
  page_of (query_raw shape db pk cond limit (row_key <$> esk) filter forward) = Ok (items, k) ->
  exists rs, page_rows (rows_of db) (matches pk cond) (sk_lt forward) (N.to_nat lim) esk rs
  /\ items = filtered filter rs /\ k = next_cursor row_key (N.to_nat lim) rs.
Proof.
  intros Hl Hcur.
  destruct (decide (sort_col shape = None /\ is_Some esk)) as [[Hs [r ->]]|Hgo].
  - cbn [fmap option_fmap option_map]. rewrite query_raw_hash_cursor by done.
    intros [= <- <-]. exists []. split_and!; [|by destruct filter|].
    + exists []. split_and!; [|constructor|by rewrite take_nil]. apply reflexive_eq.
      symmetry. apply bfilter_none, Forall_forall. intros x _. simpl. unfold sk_lt, row_key. simpl.
      rewrite Hs. apply andb_false_r.
    + unfold next_cursor. case_decide as Hd; [simpl in Hd; lia|done].
  - assert (Hnone : sort_col shape = None -> esk = None).
    { intros Hs. destruct esk; [|done]. by destruct Hgo. }
    rewrite query_raw_runs by (done || (intros Hs; by rewrite Hnone)).
    destruct (let? st := query_statement _ _ _ _ _ _ in run_select _ _ st) as [docs| |] eqn:Erun;
      [|done|done]. intros Hpage.
    destruct (query_run_page esk docs Hcur Hnone Erun) as (rs & Hrs & Hout).
    exists rs. rewrite Hout in Hpage. by simplify_eq.
Qed.
End query_step.

Lemma same_partition db (Htable : table_ok db) pk cond forward a b :
  a ∈ bfilter (matches pk cond) (rows_of db) -> b ∈ bfilter (matches pk cond) (rows_of db) ->
  a <> b -> sk_lt forward a b = true \/ sk_lt forward b a = true.
Proof.
  intros Ha Hb Hne. apply elem_of_bfilter in Ha as [Ma Ha], Hb as [Mb Hb].
  destruct (table_rows db Htable a Ha) as [ka Hka], (table_rows db Htable b Hb) as [kb Hkb].
  unfold matches, sk_lt in *. rewrite (row_ok_key a ka Hka) in *. rewrite (row_ok_key b kb Hkb) in *.
  apply andb_true_iff in Ma as [Ma _], Mb as [Mb _].
  assert (Hpk : key_eq ka.1 kb.1 = true).
  { unfold key_eq in *. apply andb_true_iff in Ma as [? ?], Mb as [? ?].
    apply andb_true_iff. split; by eapply (key_leb_trans _ pk). }
  destruct ka as [pa [sa|]], kb as [pb [sb|]];
    try (destruct Hne; by eapply (table_unique db Htable a b)).
  simpl in *. destruct (key_eq sa sb) eqn:E;
    [destruct Hne; by eapply (table_unique db Htable a b)|].
  unfold key_eq, key_lt in *. destruct (key_leb_total sa sb) as [E1|E1]; rewrite E1 in *;
    destruct forward, (key_leb sb sa), (key_leb sa sb); naive_solver.
Qed.

(** C29: Paging a Query of a base table is complete. On a table with unique
    keys (those of an index are not unique, and its pages can skip rows),
    for any partition, sort-key condition, direction, filter and page size,
    following [LastEvaluatedKey] from page to page ends after at most one
    request more than there are rows, and if no request fails the pages
    together hold every row of the partition that the condition selects,
    exactly once, in sort-key order, less those the filter drops. A
    failure is the failure of one of the requests. *)
Theorem query_pages_complete db pk cond limit filter forward fuel :
  table_ok db -> shape_ok shape -> (1 <= default DEFAULT_LIMIT limit < 4294967296)%N ->
  key_arg_ok numeric_text (shape_pk_type shape) pk -> sk_condition_ok cond ->
  length (rows_of db) < fuel ->
  exists res, query_all db pk cond limit filter forward fuel = Some res
  /\ (forall items, res = Ok items ->
        exists all, all ≡ₚ bfilter (matches pk cond) (rows_of db)
        /\ StronglySorted (fun a b => sk_lt forward a b = true) all
        /\ items = filtered filter all)
  /\ (forall e, res = Err e -> exists esk, query_raw shape db pk cond limit esk filter forward = Err e).
Proof.
  intros Htable Hshape Hlim Hpk Hcond Hfuel. unfold query_all.
  set (step := fun esk => page_of (query_raw shape db pk cond limit esk filter forward)).
  destruct (follow_correct step (rows_of db) (matches pk cond) (sk_lt forward) row_key
              (filtered filter) (N.to_nat (default DEFAULT_LIMIT limit))
              (table_nodup db Htable) (sk_lt_irrefl forward) (sk_lt_trans forward)
              (same_partition db Htable pk cond forward) ltac:(lia) (filtered_app filter))
    with (fuel := fuel) (esk := @None row) as (res & Hres & Hok).
  - intros esk items k Hcur. by apply query_step.
  - done.
  - eapply Nat.le_lt_trans, Hfuel. apply length_filter.
  - exists res. split_and!; [done| |].
    + intros items ->. destruct (Hok items eq_refl) as (all & Hp & Hs & ->).
      exists all. split_and!; [|done|done]. rewrite Hp. apply reflexive_eq, bfilter_ext, Forall_forall.
      intros r _. apply andb_true_r.
    + intros e ->. apply follow_Err in Hres as [esk He]. exists esk. unfold step, page_of in He.
      by destruct (query_raw _ _ _ _ _ _ _ _); simplify_eq/=.
Qed.

(** ** Scan *)

Lemma row_gt_pk a1 a2 b1 b2 : row_gt a1 a2 b1 b2 = true -> key_leb b1 a1 = true.
Proof.
  unfold row_gt, key_eq. rewrite orb_true_iff, !andb_true_iff. intros [Hl|[[_ ?] _]]; [|done].
  by apply key_lt_leb.
Qed.

Lemma row_gt_trans a1 a2 b1 b2 c1 c2 :
  row_gt a1 a2 b1 b2 = true -> row_gt b1 b2 c1 c2 = true -> row_gt a1 a2 c1 c2 = true.
Proof.
  unfold row_gt, key_eq. rewrite !orb_true_iff, !andb_true_iff.
  intros [Hab|[[? ?] Hab]] [Hbc|[[? ?] Hbc]].
  - left. by eapply key_lt_trans.
  - left. by eapply key_leb_lt_trans.
  - left. by eapply key_lt_leb_trans.
  - right. split; [split; by eapply key_leb_trans|]. by eapply key_lt_trans.
Qed.

Lemma pk_sk_lt_pk a b : pk_sk_lt a b = true -> key_leb (row_key a).1 (row_key b).1 = true.
Proof.
  unfold pk_sk_lt. destruct (row_key a).2, (row_key b).2; try apply key_lt_leb. apply row_gt_pk.
Qed.

Lemma pk_lt_pk_sk_lt a b : key_lt (row_key a).1 (row_key b).1 = true -> pk_sk_lt a b = true.
Proof.
  unfold pk_sk_lt, row_gt. intros Hl. by destruct (row_key a).2, (row_key b).2; rewrite Hl.
Qed.

Lemma pk_sk_lt_irrefl r : pk_sk_lt r r = false.
Proof.
  unfold pk_sk_lt, row_gt. destruct (row_key r).2; rewrite !key_lt_irrefl, ?andb_false_r; done.
Qed.

Lemma pk_sk_lt_trans a b c : pk_sk_lt a b = true -> pk_sk_lt b c = true -> pk_sk_lt a c = true.
Proof.
  intros Hab Hbc. pose proof (pk_sk_lt_pk a b Hab) as Lab. pose proof (pk_sk_lt_pk b c Hbc) as Lbc.
  unfold pk_sk_lt in Hab, Hbc.
  destruct (row_key a).2 eqn:Ea, (row_key b).2 eqn:Eb, (row_key c).2 eqn:Ec;
    try (apply pk_lt_pk_sk_lt; first [by eapply key_lt_leb_trans | by eapply key_leb_lt_trans]; fail);
  unfold pk_sk_lt; rewrite Ea, Ec; by eapply row_gt_trans.
Qed.

Lemma distinct_keys_ordered db (Htable : table_ok db) a b :
  a ∈ bfilter (fun _ => true) (rows_of db) -> b ∈ bfilter (fun _ => true) (rows_of db) ->
  a <> b -> pk_sk_lt a b = true \/ pk_sk_lt b a = true.
Proof.
  intros Ha Hb Hne. apply elem_of_bfilter in Ha as [_ Ha], Hb as [_ Hb].
  destruct (table_rows db Htable a Ha) as [ka Hka], (table_rows db Htable b Hb) as [kb Hkb].
  assert (Hk : ~ same_key ka kb) by (intros Hk; destruct Hne; by eapply (table_unique db Htable)).
  destruct (key_lt (row_key a).1 (row_key b).1) eqn:Lab; [left; by apply pk_lt_pk_sk_lt|].
  destruct (key_lt (row_key b).1 (row_key a).1) eqn:Lba; [right; by apply pk_lt_pk_sk_lt|].
  unfold same_key, pk_sk_lt, row_gt, key_eq, key_lt in *.
  rewrite (row_ok_key a ka Hka), (row_ok_key b kb Hkb) in *. apply negb_false_iff in Lab, Lba.
  rewrite Lab, Lba in *. destruct ka as [pa [sa|]], kb as [pb [sb|]]; simpl in *;
    try (by destruct Hk).
  destruct (key_leb_total sa sb) as [E|E]; rewrite E in *;
    destruct (key_leb sa sb), (key_leb sb sa); simpl in *; auto; by destruct Hk.
Qed.

Lemma scan_where_holds r k esk r0 :
  row_ok r k -> match esk with Some e => row_ok r0 e | None => True end ->
  where_holds r (sel_where (select_of shape (ScanStmt (bool_decide (is_Some esk))))) (scan_args shape esk)
  = match esk with Some _ => pk_sk_lt r0 r | None => true end.
Proof.
  intros Hr He. rewrite bool_decide_is_Some. unfold pk_sk_lt. rewrite (row_ok_key r k Hr).
  destruct esk as [[epk esk]|]; [|by destruct (sort_col shape) as [[]|] eqn:E; unfold select_of; rewrite E].
  rewrite (row_ok_key r0 _ He). destruct Hr as [(Hpk & _) Hr], He as [_ He], k as [kpk ksk].
  unfold select_of. cbn [sel_where fst snd] in *.
  destruct (sort_col shape) as [[col ty]|], ksk as [sk|], esk as [esk|]; try done; simpl.
  - destruct Hr as (Hsk & _). rewrite Hpk, Hsk. apply andb_true_r.
  - rewrite Hpk. apply andb_true_r.
Qed.

Lemma scan_order r1 r2 k1 k2 e :
  row_ok r1 k1 -> row_ok r2 k2 ->
  order_leb (sel_order (select_of shape (ScanStmt e))) r1 r2 = true -> pk_sk_lt r2 r1 = false.
Proof.
  intros Ha Hb. unfold pk_sk_lt. rewrite (row_ok_key _ _ Ha), (row_ok_key _ _ Hb).
  destruct Ha as [(Ha1 & _) Ha], Hb as [(Hb1 & _) Hb]. unfold select_of. cbn [sel_order].
  destruct (sort_col shape) as [[col ty]|], k1 as [p1 [a|]], k2 as [p2 [b|]]; try done;
    cbn [fst snd] in *; simpl order_leb; unfold item_leb; cbn [fst snd]; rewrite Ha1, Hb1; simpl.
  - destruct Ha as (Ha & _), Hb as (Hb & _). rewrite Ha, Hb. simpl. unfold row_gt, key_eq, key_lt.
    destruct (key_leb p1 p2), (key_leb p2 p1), (key_leb a b), (key_leb b a); naive_solver.
  - unfold key_lt. destruct (key_leb p1 p2), (key_leb p2 p1); naive_solver.
Qed.

Lemma scan_args_ok esk r0 :
  match esk with Some e => row_ok r0 e | None => True end ->
  where_args_ok numeric_text
    (sel_where (select_of shape (ScanStmt (bool_decide (is_Some esk))))) (scan_args shape esk).
Proof.
  rewrite bool_decide_is_Some. unfold select_of.
  destruct esk as [[epk esk]|]; [|by destruct (sort_col shape) as [[]|]].
  intros [(_ & Hpk & _) He]. cbn [sel_where fst snd] in *.
  destruct (sort_col shape) as [[col ty]|], esk as [esk|]; try done; simpl;
    first [by split_and! | destruct He as (_ & ? & _); by split_and!].
Qed.

Lemma scan_step db limit filter esk items k :
  table_ok db -> shape_ok shape -> (1 <= default DEFAULT_LIMIT limit < 4294967296)%N ->
  cursor_row (rows_of db) (fun _ => true) esk ->
  page_of (scan_raw shape db filter limit (row_key <$> esk)) = Ok (items, k) ->
  exists rs, page_rows (rows_of db) (fun _ => true) pk_sk_lt
               (N.to_nat (default DEFAULT_LIMIT limit)) esk rs
  /\ items = filtered filter rs
  /\ k = next_cursor row_key (N.to_nat (default DEFAULT_LIMIT limit)) rs.
Proof.
  intros Htable Hshape Hlim Hcur. unfold scan_raw. set (lim := default DEFAULT_LIMIT limit) in *.
  assert (Hesk : exists r0, match row_key <$> esk with Some e => row_ok r0 e | None => True end
                            /\ (forall r, esk = Some r -> r = r0)).
  { destruct esk as [r|]; [|by exists (mkRow VNull ∅)]. exists r.
    destruct (cursor_ok db Htable _ r Hcur) as [_ [k0 Hk0]]. simpl.
    rewrite (row_ok_key r k0 Hk0). naive_solver. }
  destruct Hesk as (r0 & Hr0 & Hsame).
  rewrite scan_statement_select; [|done|].
  2:{ destruct esk as [r|]; [|done]. unfold esk_fits. cbn [fmap option_fmap option_map] in *.
      pose proof (row_key_sk r0 _ Hr0) as Hk. rewrite <- (Hsame r eq_refl) in Hk.
      destruct (row_key r) as [? ?]. simpl in Hk. rewrite Hk.
      pose proof (sort_col_None Hshape). rewrite <- !not_eq_None_Some. naive_solver. }
  destruct (run_select shape db _) as [docs| |] eqn:Erun; [|done|done]. intros Hpage.
  eapply (statement_page db Htable Hshape lim Hlim filter (fun _ => true) pk_sk_lt) with (esk := esk)
    in Erun as (rs & Hrs & Hout).
  - rewrite Hout in Hpage. exists rs. by simplify_eq.
  - by eapply scan_args_ok.
  - intros r Hr. destruct (table_rows db Htable r Hr) as [k' Hk'].
    rewrite (scan_where_holds r k' _ r0) by done. destruct esk as [r1|]; [|done].
    simpl. by rewrite (Hsame r1 eq_refl).
  - intros r1 r2 Hr1 Hr2.
    destruct (table_rows db Htable r1 Hr1) as [k1 Hk1], (table_rows db Htable r2 Hr2) as [k2 Hk2].
    by eapply scan_order.
Qed.

(** Paging a Scan is complete. On a table with unique keys, for any
    filter and page size, following [LastEvaluatedKey] ends after at most
    one request more than there are rows, and if no request fails the
    pages together hold every row of the table exactly once, in the order
    of its keys, less those the filter drops. *)
Theorem scan_pages_complete db limit filter fuel :
  table_ok db -> shape_ok shape -> (1 <= default DEFAULT_LIMIT limit < 4294967296)%N ->
  length (rows_of db) < fuel ->
  exists res, scan_all db filter limit fuel = Some res
  /\ (forall items, res = Ok items ->
        exists all, all ≡ₚ rows_of db /\ StronglySorted (fun a b => pk_sk_lt a b = true) all
        /\ items = filtered filter all)
  /\ (forall e, res = Err e -> exists esk, scan_raw shape db filter limit esk = Err e).
Proof.
  intros Htable Hshape Hlim Hfuel. unfold scan_all.
  set (step := fun esk => page_of (scan_raw shape db filter limit esk)).
  destruct (follow_correct step (rows_of db) (fun _ => true) pk_sk_lt row_key
              (filtered filter) (N.to_nat (default DEFAULT_LIMIT limit))
              (table_nodup db Htable) pk_sk_lt_irrefl pk_sk_lt_trans
              (distinct_keys_ordered db Htable) ltac:(lia) (filtered_app filter))
    with (fuel := fuel) (esk := @None row) as (res & Hres & Hok).
  - intros esk items k Hcur. by apply scan_step.
  - done.
  - eapply Nat.le_lt_trans, Hfuel. apply length_filter.
  - exists res. split_and!; [done| |].
    + intros items ->. destruct (Hok items eq_refl) as (all & Hp & Hs & ->).
      exists all. split_and!; [|done|done]. rewrite Hp. apply reflexive_eq, bfilter_all, Forall_forall.
      done.
    + intros e ->. apply follow_Err in Hres as [esk He]. exists esk. unfold step, page_of in He.
      by destruct (scan_raw _ _ _ _ _); simplify_eq/=.
Qed.
End table.
