(* ===== verification/PgReference.v ===== *)
(** * A reference server

    An instance of [Postgres] for one table, with executable orders,
    [LIKE] and SELECT: the laws of the class can be met. The theorems of
    [QueryPaging] are applied to it. *)

From Stdlib Require Import Ascii.
From stdpp Require Import sorting.
From S2P Require Import Prelude RustStr Json Attr Base64Std Storage Keys PgTypes PgSelect Keyset.
From S2P Require Import Query QueryPaging.

(** ** The key order: texts bytewise, numerals by value, bytes bytewise *)

Definition str_leb (s t : string) : bool :=
  match String.compare s t with Gt => false | _ => true end.

Lemma str_leb_total s t : str_leb s t = true \/ str_leb t s = true.
Proof.
  unfold str_leb. destruct (String.compare s t) eqn:E; [by left..|right].
  apply str_compare_gt in E. by rewrite E.
Qed.

Lemma str_leb_cases s t : str_leb s t = true <-> s = t \/ str_lt s t.
Proof.
  unfold str_leb, str_lt. destruct (String.compare s t) eqn:E.
  - apply str_compare_eq in E. naive_solver.
  - naive_solver.
  - split; [done|]. intros [->|?]; [by rewrite str_compare_refl in E|done].
Qed.

Lemma str_leb_trans s t u : str_leb s t = true -> str_leb t u = true -> str_leb s u = true.
Proof. rewrite !str_leb_cases. intros [->|?] [->|?]; eauto using str_lt_trans. Qed.

Definition key_rank (k : KeyValue) : N * string :=
  match k with
  | KeyValue_S s => (0%N, s)
  | KeyValue_B b => (1%N, string_of_list_byte b)
  | KeyValue_N n => ((2 + default 0 (parse_usize n))%N, EmptyString)
  end.

Definition rank_leb (a b : N * string) : bool :=
  (a.1 <? b.1)%N || ((a.1 =? b.1)%N && str_leb a.2 b.2).

#[export] Instance reference_order : KeyOrder.
Proof.
  refine {| key_leb a b := rank_leb (key_rank a) (key_rank b) |}.
  - intros a b. generalize (key_rank a), (key_rank b). intros [m s] [n t]. unfold rank_leb. simpl.
    destruct (N.lt_trichotomy m n) as [Hlt|[<-|Hlt]].
    + left. by rewrite (proj2 (N.ltb_lt m n)).
    + rewrite N.eqb_refl, !N.ltb_irrefl. apply str_leb_total.
    + right. by rewrite (proj2 (N.ltb_lt n m)).
  - intros a b c. generalize (key_rank a), (key_rank b), (key_rank c). intros [m s] [n t] [o u].
    unfold rank_leb. simpl. rewrite !orb_true_iff, !andb_true_iff, !N.ltb_lt, !N.eqb_eq.
    intros [?|[-> ?]] [?|[<- ?]]; eauto using N.lt_trans, str_leb_trans.
Defined.

(** ** LIKE *)

Fixpoint like_match (p s : string) : bool :=
  match p with
  | EmptyString => str_is_empty s
  | String c p =>
      if Ascii.eqb c "%" then
        (fix any (s : string) : bool :=
           like_match p s || match s with EmptyString => false | String _ s => any s end) s
      else if Ascii.eqb c "\" then
        match p, s with
        | String e p, String d s => Ascii.eqb d e && like_match p s
        | _, _ => false
        end
      else
        match s with
        | String d s => (Ascii.eqb c "_" || Ascii.eqb d c) && like_match p s
        | EmptyString => false
        end
  end.

#[export] Instance reference_like : Like.
Proof.
  refine {| like s p := like_match p s |}.
  - intros s. simpl. induction s as [|c s IH]; [done|]. by rewrite IH.
  - intros c d p s Hp Hu Hb. cbn [like_match].
    by rewrite (proj2 (Ascii.eqb_neq c "%")), (proj2 (Ascii.eqb_neq c "\")),
      (proj2 (Ascii.eqb_neq c "_")).
  - intros c p Hp Hb. cbn [like_match].
    by rewrite (proj2 (Ascii.eqb_neq c "%")), (proj2 (Ascii.eqb_neq c "\")).
  - done.
  - done.
Defined.

(** ** Sorting by an ORDER BY list *)

Section order.
Context `{KeyOrder}.

Lemma col_leb_total a b : col_leb a b = true \/ col_leb b a = true.
Proof. destruct a, b; simpl; auto using key_leb_total. Qed.

Lemma col_leb_trans a b c : col_leb a b = true -> col_leb b c = true -> col_leb a c = true.
Proof. destruct a, b, c; simpl; try done. apply key_leb_trans. Qed.

Lemma item_leb_total o a b : item_leb o a b = true \/ item_leb o b a = true.
Proof. unfold item_leb. destruct o.2 as [[]|]; apply col_leb_total. Qed.

Lemma item_leb_trans o a b c :
  item_leb o a b = true -> item_leb o b c = true -> item_leb o a c = true.
Proof. unfold item_leb. destruct o.2 as [[]|]; eauto using col_leb_trans. Qed.

Lemma order_leb_total os a b : order_leb os a b = true \/ order_leb os b a = true.
Proof.
  induction os as [|o os IH]; [by left|]. simpl.
  destruct (item_leb_total o a b) as [E|E]; rewrite E;
    destruct (item_leb o a b), (item_leb o b a); simpl; naive_solver.
Qed.

Lemma order_leb_trans os a b c :
  order_leb os a b = true -> order_leb os b c = true -> order_leb os a c = true.
Proof.
  induction os as [|o os IH]; [done|]. simpl. rewrite !andb_true_iff, !orb_true_iff, !negb_true_iff.
  intros [Hab Ha] [Hbc Hb]. split; [by eapply item_leb_trans|].
  destruct (item_leb o c a) eqn:Eca; [right|by left].
  destruct Ha as [Ha|Ha]; [by rewrite (item_leb_trans o b c a) in Ha|].
  destruct Hb as [Hb|Hb]; [by rewrite (item_leb_trans o c a b) in Hb|]. auto.
Qed.

Definition order_le (os : list (string * option direction)) (a b : row) : Prop :=
  order_leb os a b = true.
#[export] Instance order_le_dec os : RelDecision (order_le os).
Proof. intros a b. unfold order_le. apply _. Defined.
#[export] Instance order_le_total os : Total (order_le os).
Proof. intros a b. apply order_leb_total. Qed.
#[export] Instance order_le_trans os : Transitive (order_le os).
Proof. intros a b c. apply order_leb_trans. Qed.
End order.

(** ** The server of one table *)

Definition orders_shape : TableShape :=
  mkTableShape "orders" "customer" KeyType_S (Some "order") (Some KeyType_N) "data" [].

Definition all_kinds : list sk_kind :=
  [SkNone; SkCmp op_eq; SkCmp op_lt; SkCmp op_le; SkCmp op_gt; SkCmp op_ge; SkBetween; SkLike].

Definition all_stmts : list stmt :=
  (k ← all_kinds; e ← [true; false]; d ← [true; false]; [QueryStmt k e d])
    ++ [ScanStmt true; ScanStmt false].

Lemma all_stmts_complete st : In st all_stmts.
Proof.
  destruct st as [[|[]| |] [] []|[]]; vm_compute; tauto.
Qed.

Definition find_stmt (sql : string) : option stmt :=
  List.find (fun st => String.eqb (render (select_of orders_shape st)) sql) all_stmts.

(** The text determines the statement. *)
Lemma find_stmt_render st :
  select_of orders_shape <$> find_stmt (render (select_of orders_shape st))
  = Some (select_of orders_shape st).
Proof. destruct st as [[|[]| |] [] []|[]]; vm_compute; reflexivity. Qed.

Definition select_rows (rows : list row) (sel : select) (args : list Param) : list row :=
  merge_sort (order_le (sel_order sel)) (bfilter (fun r => where_holds r (sel_where sel) args) rows).

Definition run_text (rows : list row) (sql : string) (params : list Param)
  : Result PgFailure (list Value) :=
  match find_stmt sql, last params with
  | Some st, Some (Param_Int8 n) =>
      Ok (row_data <$> take (N.to_nat n)
            (select_rows rows (select_of orders_shape st) (removelast params)))
  | _, _ => Err (mkPgFailure (Some ("42601", "syntax error")) "db error")
  end.

#[export] Instance reference_server : Postgres orders_shape.
Proof.
  refine {| Db := list row; rows_of db := db;
            numeric_text s := bool_decide (is_Some (parse_usize s));
            pg_pool _ := None; pg_query db sql _ params := run_text db sql params |}.
  intros db st args n js _. unfold run_text. pose proof (find_stmt_render st) as Hf.
  destruct (find_stmt _) as [st'|]; [|done]. apply (inj Some) in Hf.
  rewrite last_snoc, removelast_last, Hf. intros [= <-].
  exists (select_rows db (select_of orders_shape st) args). split; [|done]. split.
  - apply merge_sort_Permutation.
  - apply (StronglySorted_merge_sort (order_le _)).
Defined.

(** ** A table and its pages *)

Definition order_row (customer : string) (order : string) : row :=
  mkRow (VObject [("customer", tagged "S" (VString customer)); ("order", tagged "N" (VString order))])
    (<["customer" := KeyValue_S customer]> (<["order" := KeyValue_N order]> ∅)).

Definition orders : list row :=
  [order_row "ann" "10"; order_row "bob" "1"; order_row "ann" "9"; order_row "ann" "2"].

Lemma order_row_ok customer order :
  is_Some (parse_usize order) ->
  row_ok orders_shape (order_row customer order) (KeyValue_S customer, Some (KeyValue_N order)).
Proof.
  intros Hn. split; split_and!; try done; split_and?; try done.
  split; [done|]. simpl. by apply bool_decide_eq_true.
Qed.

Lemma orders_rows r : r ∈ orders ->
  exists c n, r = order_row c n /\ is_Some (parse_usize n).
Proof.
  unfold orders. rewrite !elem_of_cons, elem_of_nil.
  intros [->|[->|[->|[->|[]]]]]; eexists _, _; (split; [done|]); vm_compute; by eexists.
Qed.

Definition orders_db : @Db orders_shape _ _ reference_server := orders.

Lemma orders_table_ok : table_ok orders_shape orders_db.
Proof.
  split.
  - intros r Hr. destruct (orders_rows r Hr) as (c & n & -> & Hn). eexists. by apply order_row_ok.
  - repeat constructor; unfold orders, order_row; set_solver.
  - intros r1 r2 k1 k2 Hr1 Hr2 Hk1%row_ok_key Hk2%row_ok_key. subst k1 k2.
    change (r1 ∈ orders) in Hr1. change (r2 ∈ orders) in Hr2.
    unfold orders in *. rewrite !elem_of_cons, elem_of_nil in Hr1, Hr2.
    destruct Hr1 as [->|[->|[->|[->|[]]]]], Hr2 as [->|[->|[->|[->|[]]]]]; try done;
      vm_compute; intros [? ?]; discriminate.
Qed.

(** Orders of one customer below 10, one per page. *)
Lemma query_pages_witness :
  (table_ok orders_shape orders_db /\ shape_ok orders_shape)
  /\ (exists res, query_all orders_shape orders_db (KeyValue_S "ann")
        (Some (SkCondition_Lt (KeyValue_N "10"))) (Some 1%N) None false 5 = Some res
     /\ (forall items, res = Ok items ->
          exists all, all ≡ₚ bfilter (matches orders_shape (KeyValue_S "ann")
                                (Some (SkCondition_Lt (KeyValue_N "10")))) (rows_of orders_db)
          /\ StronglySorted (fun a b => sk_lt orders_shape false a b = true) all
          /\ items = filtered None all)
     /\ (forall e, res = Err e -> exists esk, query_raw orders_shape orders_db (KeyValue_S "ann")
            (Some (SkCondition_Lt (KeyValue_N "10"))) (Some 1%N) esk None false = Err e)).
Proof.
  split; [split; [apply orders_table_ok|by split]|].
  apply (query_pages_complete orders_shape orders_db (KeyValue_S "ann")
           (Some (SkCondition_Lt (KeyValue_N "10"))) (Some 1%N) None false 5).
  - apply orders_table_ok.
  - by split.
  - simpl. lia.
  - by split.
  - by split; vm_compute.
  - simpl. lia.
Defined.

Example query_pages_run :
  query_all orders_shape orders_db (KeyValue_S "ann") (Some (SkCondition_Lt (KeyValue_N "10")))
    (Some 1%N) None false 5
  = Some (Ok [row_data (order_row "ann" "9"); row_data (order_row "ann" "2")]).
Proof. vm_compute. reflexivity. Qed.

Lemma scan_pages_witness :
  (table_ok orders_shape orders_db /\ shape_ok orders_shape)
  /\ (exists res, scan_all orders_shape orders_db None (Some 3%N) 5 = Some res
     /\ (forall items, res = Ok items ->
          exists all, all ≡ₚ rows_of orders_db
          /\ StronglySorted (fun a b => pk_sk_lt orders_shape a b = true) all
          /\ items = filtered None all)
     /\ (forall e, res = Err e -> exists esk, scan_raw orders_shape orders_db None (Some 3%N) esk = Err e)).
Proof.
  split; [split; [apply orders_table_ok|by split]|].
  apply (scan_pages_complete orders_shape orders_db (Some 3%N) None 5).
  - apply orders_table_ok.
  - by split.
  - simpl. lia.
  - simpl. lia.
Defined.

Example scan_pages_run :
  scan_all orders_shape orders_db None (Some 3%N) 5
  = Some (Ok (row_data <$> [order_row "ann" "2"; order_row "ann" "9"; order_row "ann" "10";
                            order_row "bob" "1"])).
Proof. vm_compute. reflexivity. Qed.

(** ** Index queries

    Rows of another table seen through an index with the shape above:
    two items with the same index key, and one without a value for the
    index sort key. *)
Definition index_row (id : string) (customer : string) (order : option string) : row :=
  let sort := match order with Some n => [("order", tagged "N" (VString n))] | None => [] end in
  mkRow (VObject ([("customer", tagged "S" (VString customer)); ("id", tagged "S" (VString id))] ++ sort))
    (<["customer" := KeyValue_S customer]>
       match order with Some n => {["order" := KeyValue_N n]} | None => ∅ end).

Definition indexed : @Db orders_shape _ _ reference_server :=
  [index_row "a" "ann" (Some "1"); index_row "b" "ann" (Some "1"); index_row "c" "ann" None].

(** The uniqueness that makes paging complete is needed, and an index
    does not have it. On an index with two items of the same key, a
    query in one page returns both; in pages of one row the cursor skips
    the second, and an item without the index sort key, which a sparse
    index does not hold, is returned by a query without a sort
    condition. *)
Theorem index_pages_skip_equal_keys :
  query_all orders_shape indexed (KeyValue_S "ann") None None None true 4
    = Some (Ok [row_data (index_row "a" "ann" (Some "1")); row_data (index_row "b" "ann" (Some "1"));
                row_data (index_row "c" "ann" None)])
  /\ query_all orders_shape indexed (KeyValue_S "ann") None (Some 1%N) None true 4
    = Some (Ok [row_data (index_row "a" "ann" (Some "1"))]).
Proof. split; vm_compute; reflexivity. Qed.
