(* ===== verification/ConditionSql.v ===== *)
(** * Conditions as SQL (rekt-storage-libpq, [condition_sql.rs])

    A condition the classifier routes to the one-statement update is
    compiled to a WHERE fragment. The file has the compiler, the SQL
    expressions it emits with their text and their three-valued meaning,
    and the comparison with the in-memory evaluator. *)

From S2P Require Import Prelude RustStr BTree Json Attr Base64Std Ast F64 EvalCondition Storage Checks.
From S2P Require Import Errors Schema Plan PgTypes PgSelect.

(** ** The compiler *)

Record ParamBuilder : Type := mkParamBuilder {
  pb_params : list Param;
  pb_types : list PgType
}.

Definition pb_new : ParamBuilder := mkParamBuilder [] [].

Definition next_idx (b : ParamBuilder) : N := N.of_nat (length (pb_params b)) + 1.

Definition bind (b : ParamBuilder) (p : Param) (t : PgType) : N * ParamBuilder :=
  (next_idx b, mkParamBuilder (pb_params b ++ [p]) (pb_types b ++ [t])).

Definition bind_text (b : ParamBuilder) (s : string) : N * ParamBuilder :=
  bind b (Param_Text s) PgType_TEXT.
Definition bind_jsonb (b : ParamBuilder) (v : Value) : N * ParamBuilder :=
  bind b (Param_Json v) PgType_JSONB.
Definition bind_key (b : ParamBuilder) (kv : KeyValue) : N * ParamBuilder :=
  match kv with
  | KeyValue_S s | KeyValue_N s => bind b (Param_Text s) PgType_TEXT
  | KeyValue_B x => bind b (Param_Bytes x) PgType_BYTEA
  end.

Definition divergence {A} (what : string) : Result BackendError A :=
  Err (BackendError_Other ("classifier divergence: " +:+ what)).

Definition top_attr (p : Path) : Result BackendError string :=
  ok_or (top_name p)
    (BackendError_Other "classifier divergence: non-top-level path reached SQL compiler").

Definition sql_op (op : ComparisonOp) (swap : bool) : Result BackendError string :=
  match op, swap with
  | Lt_, false | Gt_, true => Ok "<"
  | Le_, false | Ge_, true => Ok "<="
  | Gt_, false | Lt_, true => Ok ">"
  | Ge_, false | Le_, true => Ok ">="
  | (Eq_ | Ne_), _ => Panic
  end.

Section compiler.
Context `{Base64}.

Definition operand_as_jsonb (b : ParamBuilder) (data_ref : string) (op : Operand)
  : Result BackendError (string * ParamBuilder) :=
  match op with
  | Operand_Path p =>
      let? name := top_attr p in
      let (idx, b) := bind_text b name in
      Ok (data_ref +:+ "->$" +:+ usize_to_string idx +:+ "::text", b)
  | Operand_Value v =>
      let (idx, b) := bind_jsonb b (to_value v) in
      Ok ("$" +:+ usize_to_string idx +:+ "::jsonb", b)
  end.

Definition compile_typed_ordering (b : ParamBuilder) (data_ref : string) (op : ComparisonOp)
    (lhs rhs : Operand) : Result BackendError (string * ParamBuilder) :=
  let? (path, value, sql_op_str) :=
    match lhs, rhs with
    | Operand_Path p, Operand_Value v => let? o := sql_op op false in Ok (p, v, o)
    | Operand_Value v, Operand_Path p => let? o := sql_op op true in Ok (p, v, o)
    | _, _ => divergence "ordering must be Path/Value"
    end in
  let? name := top_attr path in
  let (attr_idx, b) := bind_text b name in
  match value with
  | N_ n =>
      let (val_idx, b) := bind_text b n in
      Ok ("((" +:+ data_ref +:+ "#>>ARRAY[$" +:+ usize_to_string attr_idx
          +:+ "::text, 'N']::text[])::numeric " +:+ sql_op_str +:+ " $" +:+ usize_to_string val_idx
          +:+ "::numeric)", b)
  | S_ s =>
      let (val_idx, b) := bind_text b s in
      Ok ("(" +:+ data_ref +:+ "#>>ARRAY[$" +:+ usize_to_string attr_idx
          +:+ "::text, 'S']::text[] " +:+ sql_op_str +:+ " $" +:+ usize_to_string val_idx
          +:+ "::text)", b)
  | _ => divergence "ordering RHS must be N or S"
  end.

Fixpoint compile_condition (b : ParamBuilder) (data_ref : string) (cond : Condition)
  : Result BackendError (string * ParamBuilder) :=
  match cond with
  | Condition_AttributeExists p =>
      let? name := top_attr p in
      let (idx, b) := bind_text b name in
      Ok ("(" +:+ data_ref +:+ " ? $" +:+ usize_to_string idx +:+ "::text)", b)
  | Condition_AttributeNotExists p =>
      let? name := top_attr p in
      let (idx, b) := bind_text b name in
      Ok ("(NOT (" +:+ data_ref +:+ " ? $" +:+ usize_to_string idx +:+ "::text))", b)
  | Condition_Compare op lhs rhs =>
      match op with
      | Eq_ | Ne_ =>
          let? (l_sql, b) := operand_as_jsonb b data_ref lhs in
          let? (r_sql, b) := operand_as_jsonb b data_ref rhs in
          let op_str := if eqb op Eq_ then "=" else "<>" in
          Ok ("(" +:+ l_sql +:+ " " +:+ op_str +:+ " " +:+ r_sql +:+ ")", b)
      | Lt_ | Le_ | Gt_ | Ge_ => compile_typed_ordering b data_ref op lhs rhs
      end
  | Condition_And a c =>
      let? (l, b) := compile_condition b data_ref a in
      let? (r, b) := compile_condition b data_ref c in
      Ok ("(" +:+ l +:+ " AND " +:+ r +:+ ")", b)
  | Condition_Or a c =>
      let? (l, b) := compile_condition b data_ref a in
      let? (r, b) := compile_condition b data_ref c in
      Ok ("(" +:+ l +:+ " OR " +:+ r +:+ ")", b)
  | Condition_Not inner =>
      let? (s, b) := compile_condition b data_ref inner in
      Ok ("(NOT " +:+ s +:+ ")", b)
  | Condition_BeginsWith _ _ | Condition_Contains _ _ | Condition_Between _ _ _
  | Condition_In _ _ | Condition_AttributeType _ _ =>
      divergence "Phase 4e shape reached SQL compiler"
  end.
End compiler.

(** ** SQL expressions

    Placeholders by their number. [SqlOrd] extracts the text under the
    attribute's type tag and compares it as [numeric] or as [text]. *)
Inductive jsonb_expr : Type := JAttr (name_idx : N) | JParam (idx : N).

Inductive ord_type : Type := OrdNumeric | OrdText.

Inductive sql_bool : Type :=
| SqlHas (name_idx : N)
| SqlEq (negated : bool) (l r : jsonb_expr)
| SqlOrd (t : ord_type) (op : cmp_op) (name_idx val_idx : N)
| SqlAnd (a b : sql_bool)
| SqlOr (a b : sql_bool)
| SqlNot (a : sql_bool).

Definition jsonb_text (data_ref : string) (e : jsonb_expr) : string :=
  match e with
  | JAttr n => data_ref +:+ "->$" +:+ usize_to_string n +:+ "::text"
  | JParam n => "$" +:+ usize_to_string n +:+ "::jsonb"
  end.

(** [SqlHas] carries its own parentheses, so a negation of it has both
    its own and the operand's. *)
Fixpoint bool_text (data_ref : string) (e : sql_bool) : string :=
  match e with
  | SqlHas n => "(" +:+ data_ref +:+ " ? $" +:+ usize_to_string n +:+ "::text)"
  | SqlEq negated l r =>
      "(" +:+ jsonb_text data_ref l +:+ (if negated then " <> " else " = ")
      +:+ jsonb_text data_ref r +:+ ")"
  | SqlOrd OrdNumeric op n v =>
      "((" +:+ data_ref +:+ "#>>ARRAY[$" +:+ usize_to_string n +:+ "::text, 'N']::text[])::numeric "
      +:+ op_text op +:+ " $" +:+ usize_to_string v +:+ "::numeric)"
  | SqlOrd OrdText op n v =>
      "(" +:+ data_ref +:+ "#>>ARRAY[$" +:+ usize_to_string n +:+ "::text, 'S']::text[] "
      +:+ op_text op +:+ " $" +:+ usize_to_string v +:+ "::text)"
  | SqlAnd a b => "(" +:+ bool_text data_ref a +:+ " AND " +:+ bool_text data_ref b +:+ ")"
  | SqlOr a b => "(" +:+ bool_text data_ref a +:+ " OR " +:+ bool_text data_ref b +:+ ")"
  | SqlNot a => "(NOT " +:+ bool_text data_ref a +:+ ")"
  end.

(** The comparison of two texts as [numeric] and in the column's
    collation. *)
Class SqlCompare : Type := {
  numeric_compare : string -> string -> comparison;
  numeric_compare_antisym : forall a b, numeric_compare b a = CompOpp (numeric_compare a b);
  text_compare : string -> string -> comparison;
  text_compare_antisym : forall a b, text_compare b a = CompOpp (text_compare a b)
}.

(** Kleene's connectives: [None] is unknown (NULL). *)
Definition and3 (a b : option bool) : option bool :=
  match a, b with
  | Some false, _ | _, Some false => Some false
  | Some true, Some true => Some true
  | _, _ => None
  end.
Definition or3 (a b : option bool) : option bool :=
  match a, b with
  | Some true, _ | _, Some true => Some true
  | Some false, Some false => Some false
  | _, _ => None
  end.
Definition not3 (a : option bool) : option bool := negb <$> a.

Definition op_cmp (op : cmp_op) (c : comparison) : bool :=
  match op, c with
  | op_eq, Eq | op_lt, Lt | op_le, (Lt | Eq) | op_gt, Gt | op_ge, (Gt | Eq) => true
  | _, _ => false
  end.

Section meaning.
Context `{SqlCompare} (data : Value) (params : list Param).

Definition param_at (n : N) : option Param := params !! pred (N.to_nat n).
Definition text_at (n : N) : option string :=
  match param_at n with Some (Param_Text s) => Some s | _ => None end.

(** [data -> name] is NULL when the attribute is missing; JSONB equality
    of DDB-JSON documents is equality. *)
Definition jsonb_value (e : jsonb_expr) : option Value :=
  match e with
  | JAttr n => text_at n ≫= value_get data
  | JParam n => match param_at n with Some (Param_Json v) => Some v | _ => None end
  end.

(** [data #>> ARRAY[name, tag]]. *)
Definition extract (name tag : string) : option string :=
  v ← value_get data name; w ← value_get v tag; as_str w.

Fixpoint bool_value (e : sql_bool) : option bool :=
  match e with
  | SqlHas n => (fun a => bool_decide (is_Some (value_get data a))) <$> text_at n
  | SqlEq negated l r =>
      v ← jsonb_value l; w ← jsonb_value r;
      Some (if negated then negb (eqb v w) else eqb v w)
  | SqlOrd t op n v =>
      name ← text_at n; y ← text_at v;
      x ← extract name (match t with OrdNumeric => "N" | OrdText => "S" end);
      Some (op_cmp op (match t with OrdNumeric => numeric_compare | OrdText => text_compare end x y))
  | SqlAnd a b => and3 (bool_value a) (bool_value b)
  | SqlOr a b => or3 (bool_value a) (bool_value b)
  | SqlNot a => not3 (bool_value a)
  end.
End meaning.

(** ** The meaning of a condition as SQL *)

Definition ord_op (op : ComparisonOp) : cmp_op :=
  match op with Eq_ | Ne_ => op_eq | Lt_ => op_lt | Le_ => op_le | Gt_ => op_gt | Ge_ => op_ge end.
Definition swap_op (op : ComparisonOp) : ComparisonOp :=
  match op with Lt_ => Gt_ | Le_ => Ge_ | Gt_ => Lt_ | Ge_ => Le_ | o => o end.

Section spec.
Context `{Base64} `{SqlCompare} (data : Value).

(** An ordering with the path on the left. *)
Definition ordering_value3 (op : ComparisonOp) (p : Path) (v : AttributeValue) : option bool :=
  name ← top_name p;
  match v with
  | N_ y => x ← extract data name "N"; Some (op_cmp (ord_op op) (numeric_compare x y))
  | S_ y => x ← extract data name "S"; Some (op_cmp (ord_op op) (text_compare x y))
  | _ => None
  end.

Definition has_attr (p : Path) : bool :=
  bool_decide (is_Some (n ← top_name p; value_get data n)).

Fixpoint cond_value3 (cond : Condition) : option bool :=
  match cond with
  | Condition_AttributeExists p => Some (has_attr p)
  | Condition_AttributeNotExists p => Some (negb (has_attr p))
  | Condition_Compare op l r =>
      match op with
      | Eq_ | Ne_ =>
          v ← condition_operand_value l (Some data); w ← condition_operand_value r (Some data);
          Some (if eqb op Eq_ then eqb v w else negb (eqb v w))
      | _ =>
          match l, r with
          | Operand_Path p, Operand_Value v => ordering_value3 op p v
          | Operand_Value v, Operand_Path p => ordering_value3 (swap_op op) p v
          | _, _ => None
          end
      end
  | Condition_And a b => and3 (cond_value3 a) (cond_value3 b)
  | Condition_Or a b => or3 (cond_value3 a) (cond_value3 b)
  | Condition_Not a => not3 (cond_value3 a)
  | _ => None
  end.

(** Every path starts with a name, as the translator checks. *)
Definition operand_named (o : Operand) : Prop :=
  match o with Operand_Path p => is_Some (top_name p) | Operand_Value _ => True end.

Fixpoint paths_named (cond : Condition) : Prop :=
  match cond with
  | Condition_AttributeExists p | Condition_AttributeNotExists p => is_Some (top_name p)
  | Condition_Compare _ l r => operand_named l /\ operand_named r
  | Condition_And a b | Condition_Or a b => paths_named a /\ paths_named b
  | Condition_Not a => paths_named a
  | _ => True
  end.
End spec.

(** ** Correctness of the compiler *)

Definition extend (b : ParamBuilder) (ps : list Param) (ts : list PgType) : ParamBuilder :=
  mkParamBuilder (pb_params b ++ ps) (pb_types b ++ ts).

Lemma param_at_next b p rest : param_at (pb_params b ++ p :: rest) (next_idx b) = Some p.
Proof.
  unfold param_at, next_idx.
  replace (pred (N.to_nat (N.of_nat (length (pb_params b)) + 1))) with (length (pb_params b)) by lia.
  by rewrite list_lookup_middle.
Qed.

Lemma extend_extend b ps1 ts1 ps2 ts2 :
  extend (extend b ps1 ts1) ps2 ts2 = extend b (ps1 ++ ps2) (ts1 ++ ts2).
Proof. unfold extend. simpl. by rewrite <- !app_assoc. Qed.

Section correct.
Context `{Base64} `{SqlCompare} (data_ref : string) (data : Value).

(** A compiled piece: its text is that of an expression, its parameters
    are appended, and the expression means [m] whatever is appended
    later. *)
Definition compiled {X M} (text : X -> string) (value : list Param -> X -> M) (b : ParamBuilder)
    (r : Result BackendError (string * ParamBuilder)) (m : M) : Prop :=
  exists e ps ts, r = Ok (text e, extend b ps ts) /\ length ps = length ts
  /\ forall rest, value (pb_params b ++ ps ++ rest) e = m.

Lemma operand_compiled b o :
  operand_named o ->
  compiled (jsonb_text data_ref) (jsonb_value data) b (operand_as_jsonb b data_ref o)
    (condition_operand_value o (Some data)).
Proof.
  destruct o as [p|v]; simpl.
  - intros [n Hn]. unfold top_attr. rewrite Hn. simpl.
    exists (JAttr (next_idx b)), [Param_Text n], [PgType_TEXT]. split_and!; [done|done|].
    intros rest. simpl. unfold text_at. by rewrite param_at_next.
  - intros _. exists (JParam (next_idx b)), [Param_Json (to_value v)], [PgType_JSONB].
    split_and!; [done|done|]. intros rest. simpl. by rewrite param_at_next.
Qed.

Lemma sql_op_ord op swap :
  op <> Eq_ -> op <> Ne_ ->
  sql_op op swap = Ok (op_text (ord_op (if swap then swap_op op else op))).
Proof. by destruct op, swap. Qed.

Lemma ordering_text t op n v :
  bool_text data_ref (SqlOrd t op n v)
  = match t with
    | OrdNumeric => "((" +:+ data_ref +:+ "#>>ARRAY[$" +:+ usize_to_string n
        +:+ "::text, 'N']::text[])::numeric " +:+ op_text op +:+ " $" +:+ usize_to_string v +:+ "::numeric)"
    | OrdText => "(" +:+ data_ref +:+ "#>>ARRAY[$" +:+ usize_to_string n
        +:+ "::text, 'S']::text[] " +:+ op_text op +:+ " $" +:+ usize_to_string v +:+ "::text)"
    end.
Proof. by destruct t. Qed.

Lemma ordering_compiled b op l r :
  op <> Eq_ -> op <> Ne_ -> ordering_has_typed_extraction l r = true ->
  operand_named l -> operand_named r ->
  compiled (bool_text data_ref) (bool_value data) b (compile_typed_ordering b data_ref op l r)
    (cond_value3 data (Condition_Compare op l r)).
Proof.
  intros He Hn Ht Hl Hr. unfold compile_typed_ordering.
  assert (exists p v swap,
    is_Some (top_name p) /\ (exists s, v = N_ s \/ v = S_ s) /\
    match l, r with
    | Operand_Path p, Operand_Value v => let? o := sql_op op false in Ok (p, v, o)
    | Operand_Value v, Operand_Path p => let? o := sql_op op true in Ok (p, v, o)
    | _, _ => divergence "ordering must be Path/Value"
    end = Ok (p, v, op_text (ord_op (if swap : bool then swap_op op else op))) /\
    cond_value3 data (Condition_Compare op l r)
    = ordering_value3 data (if swap then swap_op op else op) p v) as (p & v & swap & Hp & Hv & -> & ->).
  { destruct l as [p|v], r as [p'|v']; try done; simpl in Ht.
    - exists p, v', false. rewrite sql_op_ord by done. split_and!; [done| |done|by destruct op].
      destruct v'; try done; eauto.
    - exists p', v, true. rewrite sql_op_ord by done. split_and!; [done| |done|by destruct op].
      destruct v; try done; eauto. }
  generalize (if swap then swap_op op else op). intros op'.
  destruct Hp as [n Hp]. unfold top_attr. rewrite Hp. simpl. unfold ordering_value3. rewrite Hp. simpl.
  destruct Hv as [s [->| ->]];
    [exists (SqlOrd OrdNumeric (ord_op op') (next_idx b) (next_idx (extend b [Param_Text n] [PgType_TEXT])))
    |exists (SqlOrd OrdText (ord_op op') (next_idx b) (next_idx (extend b [Param_Text n] [PgType_TEXT])))];
    exists [Param_Text n; Param_Text s], [PgType_TEXT; PgType_TEXT];
    (split_and!;
     [ rewrite ordering_text; unfold extend; simpl; by rewrite <- !app_assoc
     | done
     | intros rest; simpl; unfold text_at; rewrite param_at_next;
       rewrite (app_assoc _ [_] (_ :: _) : pb_params b ++ Param_Text n :: Param_Text s :: rest
                  = pb_params (extend b [Param_Text n] [PgType_TEXT]) ++ Param_Text s :: rest);
       by rewrite param_at_next ]).
Qed.

(** Two pieces in sequence. *)
Lemma compiled_pair {X M Y} (text : X -> string) (value : list Param -> X -> M)
    (text' : Y -> string) (value' : list Param -> Y -> option bool)
    (f : ParamBuilder -> Result BackendError (string * ParamBuilder)) (g : ParamBuilder -> _)
    (mk : X -> X -> Y) (join : string -> string -> string) (op : M -> M -> option bool) b m1 m2 :
  (forall b, compiled text value b (f b) m1) -> (forall b, compiled text value b (g b) m2) ->
  (forall x y, text' (mk x y) = join (text x) (text y)) ->
  (forall ps x y, value' ps (mk x y) = op (value ps x) (value ps y)) ->
  compiled text' value' b
    (let? (l, b) := f b in let? (r, b) := g b in Ok (join l r, b)) (op m1 m2).
Proof.
  intros Hf Hg Htext Hval. destruct (Hf b) as (x & ps & ts & -> & Hl & Hx).
  destruct (Hg (extend b ps ts)) as (y & ps' & ts' & -> & Hl' & Hy).
  exists (mk x y), (ps ++ ps'), (ts ++ ts'). split_and!.
  - by rewrite Htext, extend_extend.
  - rewrite !length_app. lia.
  - intros rest. rewrite Hval, <- app_assoc, Hx. f_equal. rewrite app_assoc. apply Hy.
Qed.

Lemma has_compiled b p :
  is_Some (top_name p) ->
  compiled (bool_text data_ref) (bool_value data) b
    (let? name := top_attr p in let (idx, b) := bind_text b name in
     Ok ("(" +:+ data_ref +:+ " ? $" +:+ usize_to_string idx +:+ "::text)", b))
    (Some (has_attr data p)).
Proof.
  intros [n Hn]. unfold top_attr, has_attr. rewrite Hn. simpl.
  exists (SqlHas (next_idx b)), [Param_Text n], [PgType_TEXT]. split_and!; [done|done|].
  intros rest. simpl. unfold text_at. by rewrite param_at_next.
Qed.

Lemma not_compiled b r m :
  compiled (bool_text data_ref) (bool_value data) b r m ->
  compiled (bool_text data_ref) (bool_value data) b
    (let? (s, b) := r in Ok ("(NOT " +:+ s +:+ ")", b)) (not3 m).
Proof.
  intros (e & ps & ts & -> & Hl & Hv). exists (SqlNot e), ps, ts. split_and!; [done|done|].
  intros rest. simpl. by rewrite Hv.
Qed.

(** The compiler accepts every condition the classifier routes to it. *)
Lemma condition_compiled cond :
  condition_fits_sql cond = true -> paths_named cond ->
  forall b, compiled (bool_text data_ref) (bool_value data) b (compile_condition b data_ref cond)
              (cond_value3 data cond).
Proof.
  induction cond as [op l r|p|p| | | | | |a IHa c IHc|a IHa c IHc|a IHa]; try done;
    cbn [condition_fits_sql paths_named]; intros Hf Hp b.
  - destruct Hp as [Hl Hr].
    destruct op; try (cbn [compile_condition]; by apply ordering_compiled); cbn [compile_condition cond_value3].
    + apply (compiled_pair (jsonb_text data_ref) (jsonb_value data) _ _
               (fun b => operand_as_jsonb b data_ref l) (fun b => operand_as_jsonb b data_ref r) (SqlEq false)
               (fun x y => "(" +:+ x +:+ " " +:+ "=" +:+ " " +:+ y +:+ ")")
               (fun v w => v ← v; w ← w; Some (eqb v w)));
        auto using operand_compiled.
    + apply (compiled_pair (jsonb_text data_ref) (jsonb_value data) _ _
               (fun b => operand_as_jsonb b data_ref l) (fun b => operand_as_jsonb b data_ref r) (SqlEq true)
               (fun x y => "(" +:+ x +:+ " " +:+ "<>" +:+ " " +:+ y +:+ ")")
               (fun v w => v ← v; w ← w; Some (negb (eqb v w))));
        auto using operand_compiled.
  - by apply has_compiled.
  - destruct Hp as [n Hn]. cbn [compile_condition cond_value3]. unfold top_attr, has_attr.
    rewrite Hn. simpl. exists (SqlNot (SqlHas (next_idx b))), [Param_Text n], [PgType_TEXT].
    split_and!; [|done|].
    + do 2 f_equal. simpl. by rewrite <- ?app_assoc_str; simpl; rewrite <- ?app_assoc_str.
    + intros rest. simpl. unfold text_at. by rewrite param_at_next.
  - apply andb_true_iff in Hf as [Hfa Hfc]. destruct Hp as [Hpa Hpc]. cbn [compile_condition cond_value3].
    apply (compiled_pair (bool_text data_ref) (bool_value data) _ _
             (fun b => compile_condition b data_ref a) (fun b => compile_condition b data_ref c) SqlAnd
             (fun x y => "(" +:+ x +:+ " AND " +:+ y +:+ ")") and3); auto.
  - apply andb_true_iff in Hf as [Hfa Hfc]. destruct Hp as [Hpa Hpc]. cbn [compile_condition cond_value3].
    apply (compiled_pair (bool_text data_ref) (bool_value data) _ _
             (fun b => compile_condition b data_ref a) (fun b => compile_condition b data_ref c) SqlOr
             (fun x y => "(" +:+ x +:+ " OR " +:+ y +:+ ")") or3); auto.
  - cbn [compile_condition cond_value3]. apply not_compiled. auto.
Qed.
End correct.

(** ** Agreement with the evaluator *)

Section agreement.
Context `{Base64} `{SqlCompare} (it : Item).

(** On the values at hand the [numeric] order is that of the evaluator's
    floats (as it is for integers below 2^53), and the collation is the
    order of bytes. *)
Definition numbers_agree (x y : string) : Prop :=
  exists a b, parse_f64 x = Some a /\ parse_f64 y = Some b
  /\ partial_cmp a b = Some (numeric_compare x y) /\ partial_cmp b a = Some (numeric_compare y x).

Definition values_agree (p : Path) (v : AttributeValue) : Prop :=
  match attr_of (Some it) p, v with
  | Some (N_ x), N_ y => numbers_agree x y
  | Some (S_ x), S_ y => text_compare x y = String.compare x y
  | _, _ => True
  end.

Fixpoint orders_agree (cond : Condition) : Prop :=
  match cond with
  | Condition_Compare (Lt_ | Le_ | Gt_ | Ge_) (Operand_Path p) (Operand_Value v)
  | Condition_Compare (Lt_ | Le_ | Gt_ | Ge_) (Operand_Value v) (Operand_Path p) => values_agree p v
  | Condition_And a b | Condition_Or a b => orders_agree a /\ orders_agree b
  | Condition_Not a => orders_agree a
  | _ => True
  end.

Definition same_type (v w : AttributeValue) : bool :=
  match v, w with N_ _, N_ _ | S_ _, S_ _ => true | _, _ => false end.

(** Both operands are there, and of one ordered type if they are to be
    ordered: the SQL value of the comparison is not NULL. *)
Definition comparable (op : ComparisonOp) (l r : Operand) : Prop :=
  match operand_av (Some it) l, operand_av (Some it) r with
  | Some v, Some w =>
      match op with Eq_ | Ne_ => True | _ => same_type v w = true end
  | _, _ => False
  end.

Fixpoint known (cond : Condition) : Prop :=
  match cond with
  | Condition_Compare op l r => comparable op l r
  | Condition_And a b | Condition_Or a b => known a /\ known b
  | Condition_Not a => known a
  | _ => True
  end.

(** What is negated is known. *)
Fixpoint nots_known (cond : Condition) : Prop :=
  match cond with
  | Condition_And a b | Condition_Or a b => nots_known a /\ nots_known b
  | Condition_Not a => known a
  | _ => True
  end.

Let data := item_to_value it.

(** The SQL value is the evaluator's, or it is NULL where the evaluator
    says false. *)
Definition or_null (v : option bool) (b : bool) : Prop := v = Some b \/ (v = None /\ b = false).

Lemma get_data n : value_get data n = to_value <$> BTreeMap.get n it.
Proof. apply get_item_to_value. Qed.

Lemma operand_value_av o :
  condition_operand_value o (Some data) = to_value <$> operand_av (Some it) o.
Proof.
  destruct o as [p|v]; [|done]. simpl. destruct (top_name p) as [n|]; [|done]. apply get_data.
Qed.

Lemma extract_tag n t :
  t = "N" \/ t = "S" ->
  extract data n t
  = match BTreeMap.get n it with
    | Some (N_ s) => if decide (t = "N") then Some s else None
    | Some (S_ s) => if decide (t = "S") then Some s else None
    | _ => None
    end.
Proof.
  intros Ht. unfold extract. rewrite get_data.
  destruct Ht as [->| ->], (BTreeMap.get n it) as [[]|]; vm_compute; reflexivity.
Qed.

(** How an ordering operator reads a comparison, and its mirror image. *)
Lemma op_cmp_apply op c :
  op <> Eq_ -> op <> Ne_ -> op_cmp (ord_op op) c = apply_ord op (Some c).
Proof. by destruct op, c. Qed.

Lemma op_cmp_swap op c :
  op <> Eq_ -> op <> Ne_ -> op_cmp (ord_op (swap_op op)) c = apply_ord op (Some (CompOpp c)).
Proof. by destruct op, c. Qed.

Lemma compare_values_ord op v w :
  op <> Eq_ -> op <> Ne_ -> compare_values op (to_value v) (to_value w) = apply_ord op (av_compare v w).
Proof.
  intros He Hn. unfold compare_values.
  destruct op; try done; destruct v, w; try done; simpl;
    destruct (parse_f64 _); try done; by destruct (parse_f64 _).
Qed.

Definition ordered (op : ComparisonOp) : Prop := op <> Eq_ /\ op <> Ne_.

(** The comparison of a present pair of one type. *)
Lemma ordering_present op p v x (swap : bool) :
  ordered op -> attr_of (Some it) p = Some x -> values_agree p v ->
  same_type x v = true ->
  ordering_value3 data (if swap then swap_op op else op) p v
  = Some (apply_ord op (if swap then av_compare v x else av_compare x v)).
Proof.
  intros [He Hn] Hx Hag Hty. unfold values_agree in Hag. rewrite Hx in Hag.
  unfold ordering_value3. unfold attr_of in Hx. simpl in Hx.
  destruct (top_name p) as [n|]; [|done]. simpl in Hx |- *.
  destruct x as [x|x| | | | | | | |], v as [y|y| | | | | | | |]; try done;
    rewrite extract_tag by auto; rewrite Hx; simpl.
  - destruct swap; [rewrite op_cmp_swap | rewrite op_cmp_apply]; try done; rewrite Hag; try done.
    by rewrite <- String.compare_antisym.
  - destruct Hag as (a & b & Ha & Hb & Hab & Hba). rewrite Ha, Hb. simpl.
    destruct swap; [rewrite op_cmp_swap, <- numeric_compare_antisym, Hba by done
                   |rewrite op_cmp_apply, Hab by done]; done.
Qed.

Lemma ordering_absent op p v :
  (forall x, attr_of (Some it) p = Some x -> same_type x v = false) ->
  ordering_value3 data op p v = None.
Proof.
  intros Hty. unfold ordering_value3. unfold attr_of in Hty. simpl in Hty.
  destruct (top_name p) as [n|]; [|done]. simpl in Hty |- *.
  destruct (BTreeMap.get n it) as [x|] eqn:Hx.
  - specialize (Hty x eq_refl). destruct v; try done; rewrite extract_tag, Hx by auto; by destruct x.
  - destruct v; try done; by rewrite extract_tag, Hx by auto.
Qed.

Lemma comparison_or_null op l r :
  condition_fits_sql (Condition_Compare op l r) = true -> orders_agree (Condition_Compare op l r) ->
  or_null (cond_value3 data (Condition_Compare op l r))
          (evaluate_condition (Some data) (Condition_Compare op l r))
  /\ (comparable op l r ->
      cond_value3 data (Condition_Compare op l r)
      = Some (evaluate_condition (Some data) (Condition_Compare op l r))).
Proof.
  intros Hf Hag. cbn [evaluate_condition]. rewrite !operand_value_av.
  assert (Hord : ordered op ->
    match l, r with
    | Operand_Path p, Operand_Value v => values_agree p v
    | Operand_Value v, Operand_Path p => values_agree p v
    | _, _ => False
    end /\ ordering_has_typed_extraction l r = true).
  { intros [? ?]. split; [|by destruct op]. by destruct op, l, r. }
  destruct (decide (op = Eq_ \/ op = Ne_)) as [Heq|Hne].
  { assert (Hv : cond_value3 data (Condition_Compare op l r)
                 = (v ← condition_operand_value l (Some data);
                    w ← condition_operand_value r (Some data);
                    Some (compare_values op v w))).
    { destruct Heq as [->| ->]; cbn [cond_value3 compare_values]; done. }
    rewrite Hv, !operand_value_av. unfold comparable, or_null.
    destruct (operand_av (Some it) l), (operand_av (Some it) r); simpl; naive_solver. }
  assert (Ho : ordered op) by (split; naive_solver). destruct (Hord Ho) as [Hv Ht]. clear Hag Hord.
  assert (Hcv : cond_value3 data (Condition_Compare op l r)
    = match l, r with
      | Operand_Path p, Operand_Value v => ordering_value3 data op p v
      | Operand_Value v, Operand_Path p => ordering_value3 data (swap_op op) p v
      | _, _ => None
      end) by (destruct Ho; by destruct op).
  rewrite Hcv. unfold or_null, comparable. clear Hcv Hne. pose proof Ho as [He Hn].
  destruct l as [p|v], r as [p'|v']; try done; cbn [operand_av] in *.
  - destruct (attr_of (Some it) p) as [x|] eqn:Hx; cbn [fmap option_fmap option_map].
    2:{ rewrite ordering_absent by (by rewrite Hx). by split; [right|]. }
    rewrite compare_values_ord by done.
    destruct (same_type x v') eqn:Hty.
    + rewrite (ordering_present op p v' x false) by done. auto.
    + rewrite ordering_absent by (rewrite Hx; naive_solver).
      assert (av_compare x v' = None) as -> by (by destruct x, v').
      split; [right; split; [done|by destruct op]|]. destruct op; try done; by rewrite Hty.
  - destruct (attr_of (Some it) p') as [x|] eqn:Hx; cbn [fmap option_fmap option_map].
    2:{ rewrite ordering_absent by (by rewrite Hx). by split; [right|]. }
    rewrite compare_values_ord by done.
    destruct (same_type x v) eqn:Hty.
    + rewrite (ordering_present op p' v x true) by done. auto.
    + rewrite ordering_absent by (rewrite Hx; naive_solver).
      assert (av_compare v x = None) as -> by (by destruct x, v).
      split; [right; split; [done|by destruct op]|].
      assert (same_type v x = false) as Hs by (by destruct x, v). destruct op; try done; by rewrite Hs.
Qed.

Lemma has_attr_evaluate p :
  evaluate_condition (Some data) (Condition_AttributeExists p) = has_attr data p.
Proof. unfold has_attr. simpl. by destruct (top_name p). Qed.

Lemma has_attr_not_evaluate p :
  is_Some (top_name p) ->
  evaluate_condition (Some data) (Condition_AttributeNotExists p) = negb (has_attr data p).
Proof.
  intros [n Hn]. unfold has_attr. cbn [evaluate_condition]. rewrite Hn.
  cbn [mbind option_bind]. by destruct (value_get data n).
Qed.

Lemma and3_known a b : and3 (Some a) (Some b) = Some (a && b).
Proof. by destruct a, b. Qed.
Lemma or3_known a b : or3 (Some a) (Some b) = Some (a || b).
Proof. by destruct a, b. Qed.
Lemma and3_or_null v a w b : or_null v a -> or_null w b -> or_null (and3 v w) (a && b).
Proof. unfold or_null. destruct v as [[]|], w as [[]|], a, b; naive_solver. Qed.
Lemma or3_or_null v a w b : or_null v a -> or_null w b -> or_null (or3 v w) (a || b).
Proof. unfold or_null. destruct v as [[]|], w as [[]|], a, b; naive_solver. Qed.

(** A condition all of whose comparisons are known has the evaluator's
    value as its SQL value. *)
Lemma known_exact cond :
  condition_fits_sql cond = true -> paths_named cond -> orders_agree cond -> known cond ->
  cond_value3 data cond = Some (evaluate_condition (Some data) cond).
Proof.
  induction cond as [op l r|p|p| | | | | |a IHa c IHc|a IHa c IHc|a IHa]; try done;
    intros Hf Hp Hag Hk.
  - by apply comparison_or_null.
  - by rewrite has_attr_evaluate.
  - by rewrite has_attr_not_evaluate.
  - apply andb_true_iff in Hf. destruct Hf, Hp, Hag, Hk. cbn [cond_value3 evaluate_condition].
    by rewrite IHa, IHc, and3_known.
  - apply andb_true_iff in Hf. destruct Hf, Hp, Hag, Hk. cbn [cond_value3 evaluate_condition].
    by rewrite IHa, IHc, or3_known.
  - cbn [cond_value3 evaluate_condition]. by rewrite IHa.
Qed.

Lemma positive_or_null cond :
  condition_fits_sql cond = true -> paths_named cond -> orders_agree cond -> nots_known cond ->
  or_null (cond_value3 data cond) (evaluate_condition (Some data) cond).
Proof.
  induction cond as [op l r|p|p| | | | | |a IHa c IHc|a IHa c IHc|a IHa]; try done;
    intros Hf Hp Hag Hk.
  - by apply comparison_or_null.
  - left. by rewrite has_attr_evaluate.
  - left. by rewrite has_attr_not_evaluate.
  - apply andb_true_iff in Hf. destruct Hf, Hp, Hag, Hk. apply and3_or_null; auto.
  - apply andb_true_iff in Hf. destruct Hf, Hp, Hag, Hk. apply or3_or_null; auto.
  - left. cbn [cond_value3 evaluate_condition]. by rewrite known_exact.
Qed.

(** C26: The SQL a condition is compiled to decides the condition. For
    every condition the classifier routes to the one-statement update,
    the compiler succeeds; the text is that of an SQL expression over
    exactly the parameters it binds; and on a stored row that expression
    is TRUE, in SQL's three-valued logic, exactly when the in-memory
    evaluator accepts the row, provided the attributes compared under a
    NOT are present with the compared type, and [numeric] and the
    collation order the values at hand as the evaluator does. *)
Theorem condition_sql_decides cond data_ref :
  condition_fits_sql cond = true -> paths_named cond -> orders_agree cond -> nots_known cond ->
  exists e ps ts,
    compile_condition pb_new data_ref cond = Ok (bool_text data_ref e, mkParamBuilder ps ts)
    /\ length ps = length ts
    /\ (bool_value (item_to_value it) ps e = Some true
        <-> evaluate_condition (row_value (Some it)) cond = true).
Proof.
  intros Hf Hp Hag Hk.
  destruct (condition_compiled data_ref data cond Hf Hp pb_new) as (e & ps & ts & Hc & Hl & Hv).
  exists e, ps, ts. split_and!; [done|done|]. specialize (Hv []). rewrite app_nil_r in Hv.
  change (bool_value data ps e = cond_value3 data cond) in Hv.
  change (bool_value data ps e = Some true <-> evaluate_condition (Some data) cond = true).
  rewrite Hv. destruct (positive_or_null cond Hf Hp Hag Hk) as [->|[-> ->]]; [|done].
  split; [by intros [= ->]|by intros ->].
Qed.
End agreement.

(** Under NOT the two paths differ. NOT (status = :v) holds of an item
    without a status for the evaluator, the classifier routes it to SQL,
    and its SQL value there is NULL, so the one-statement update reports
    a failed condition. *)
Theorem not_of_missing_attribute `{Base64} `{SqlCompare} (schema : TableSchema) (v : AttributeValue) :
  let cond := Condition_Not (Condition_Compare Eq_ (Operand_Path (name_path "status")) (Operand_Value v)) in
  classify_condition cond schema = ConditionRouting_SimpleSql
  /\ evaluate_condition (row_value (Some [])) cond = true
  /\ exists e ps ts,
       compile_condition pb_new "t" cond = Ok (bool_text "t" e, mkParamBuilder ps ts)
       /\ bool_value (item_to_value []) ps e = None.
Proof.
  simpl. split_and!; [done|done|].
  exists (SqlNot (SqlEq false (JAttr 1) (JParam 2))), [Param_Text "status"; Param_Json (to_value v)],
    [PgType_TEXT; PgType_JSONB]. by split.
Qed.

(** ** Witness *)

#[local] Instance digits_compare : SqlCompare.
Proof.
  refine {| numeric_compare a b := N.compare (default 0%N (parse_usize a)) (default 0%N (parse_usize b));
            text_compare := String.compare |}.
  - intros a b. apply N.compare_antisym.
  - intros a b. apply String.compare_antisym.
Defined.

(** [qty >= 3 AND (NOT (tag = 'x') OR attribute_not_exists(old))] on an
    item that has [qty] and [tag]. *)
Definition sample_condition : Condition :=
  Condition_And
    (Condition_Compare Ge_ (Operand_Path (name_path "qty")) (Operand_Value (N_ "3")))
    (Condition_Or (Condition_Not (Condition_Compare Eq_ (Operand_Path (name_path "tag"))
                                    (Operand_Value (S_ "x"))))
       (Condition_AttributeNotExists (name_path "old"))).
Definition sample_item : Item := [("qty", N_ "12"); ("tag", S_ "x")].

Lemma condition_sql_witness :
  evaluate_condition (row_value (Some sample_item)) sample_condition = true
  /\ (exists e ps ts,
    compile_condition pb_new "t" sample_condition = Ok (bool_text "t" e, mkParamBuilder ps ts)
    /\ length ps = length ts
    /\ (bool_value (item_to_value sample_item) ps e = Some true
        <-> evaluate_condition (row_value (Some sample_item)) sample_condition = true)).
Proof.
  split; [vm_compute; reflexivity|].
  apply (condition_sql_decides sample_item sample_condition "t").
  - reflexivity.
  - vm_compute. split_and!; eauto.
  - split; [|done]. unfold values_agree. simpl. eexists _, _.
    split_and!; vm_compute; reflexivity.
  - done.
Defined.
