(* ===== verification/Catalog.v ===== *)
(** * The catalog (rekt-catalog, [lib.rs] and [metadata.rs])

    Table status, the cached entries, the JSON form of the index specs in
    [_rektifier_tables], and the projection of a metadata row into an
    entry. A [HashMap] that is only looked up is a [gmap]; one that is
    iterated is a list of entries with distinct keys, in iteration
    order. *)

From S2P Require Import Prelude RustStr BTree Json Storage Schema.

(** ** Status *)

Inductive TableStatus : Type :=
| TableStatus_Creating
| TableStatus_FailedCreating
| TableStatus_Active
| TableStatus_Degraded
| TableStatus_Updating
| TableStatus_FailedUpdating
| TableStatus_Deleting
| TableStatus_FailedDeleting.

#[export] Instance TableStatus_eq_dec : EqDecision TableStatus.
Proof. solve_decision. Defined.

Definition as_internal_str (s : TableStatus) : string :=
  match s with
  | TableStatus_Creating => "CREATING"
  | TableStatus_FailedCreating => "FAILED_CREATING"
  | TableStatus_Active => "ACTIVE"
  | TableStatus_Degraded => "DEGRADED"
  | TableStatus_Updating => "UPDATING"
  | TableStatus_FailedUpdating => "FAILED_UPDATING"
  | TableStatus_Deleting => "DELETING"
  | TableStatus_FailedDeleting => "FAILED_DELETING"
  end.

Definition to_wire_str (s : TableStatus) : string :=
  match s with
  | TableStatus_Creating | TableStatus_FailedCreating => "CREATING"
  | TableStatus_Active | TableStatus_Degraded => "ACTIVE"
  | TableStatus_Updating | TableStatus_FailedUpdating => "UPDATING"
  | TableStatus_Deleting | TableStatus_FailedDeleting => "DELETING"
  end.

(** [TableStatus::parse]. *)
Definition parse_status (s : string) : option TableStatus :=
  if String.eqb s "CREATING" then Some TableStatus_Creating
  else if String.eqb s "FAILED_CREATING" then Some TableStatus_FailedCreating
  else if String.eqb s "ACTIVE" then Some TableStatus_Active
  else if String.eqb s "DEGRADED" then Some TableStatus_Degraded
  else if String.eqb s "UPDATING" then Some TableStatus_Updating
  else if String.eqb s "FAILED_UPDATING" then Some TableStatus_FailedUpdating
  else if String.eqb s "DELETING" then Some TableStatus_Deleting
  else if String.eqb s "FAILED_DELETING" then Some TableStatus_FailedDeleting
  else None.

Inductive GsiMode : Type := GsiMode_Generated | GsiMode_DualWrite.

#[export] Instance GsiMode_eq_dec : EqDecision GsiMode.
Proof. solve_decision. Defined.

Definition mode_as_str (m : GsiMode) : string :=
  match m with GsiMode_Generated => "generated" | GsiMode_DualWrite => "dual_write" end.

Definition parse_mode (s : string) : option GsiMode :=
  if String.eqb s "generated" then Some GsiMode_Generated
  else if String.eqb s "dual_write" then Some GsiMode_DualWrite
  else None.

(** ** Entries *)

Record LsiSpec : Type := mkLsiSpec {
  ls_name : string;
  ls_sort_attr : string;
  ls_sort_type : KeyType;
  ls_sort_pg_col : string;
  ls_index_name : string;
  ls_projection_type : option string;
  ls_projection_non_key_attrs : option (list string);
  ls_serveable : bool;
  ls_unserveable_reason : option string
}.

Record GsiSpec : Type := mkGsiSpec {
  gs_name : string;
  gs_partition_attr : string;
  gs_partition_type : KeyType;
  gs_partition_pg_col : string;
  gs_sort_attr : option string;
  gs_sort_type : option KeyType;
  gs_sort_pg_col : option string;
  gs_index_name : string;
  gs_projection_type : option string;
  gs_projection_non_key_attrs : option (list string);
  gs_mode : GsiMode;
  gs_serveable : bool;
  gs_unserveable_reason : option string
}.

#[export] Instance LsiSpec_eq_dec : EqDecision LsiSpec.
Proof. solve_decision. Defined.
#[export] Instance GsiSpec_eq_dec : EqDecision GsiSpec.
Proof. solve_decision. Defined.

Record TableEntry : Type := mkTableEntry {
  te_schema : TableSchema;
  te_status : TableStatus;
  te_serveable : bool;
  te_unserveable_reason : option string;
  te_creation_date_ms : Z;
  te_last_modified_at_ms : Z;
  te_last_modified_by : string;
  te_billing_mode : option string;
  te_provisioned_rcu : option Z;
  te_provisioned_wcu : option Z;
  te_tags : Value;
  te_gsis : list (string * GsiSpec);
  te_lsis : list LsiSpec
}.

Record CatalogSnapshot : Type := mkCatalogSnapshot {
  cs_entries : gmap string TableEntry;
  cs_schemas : gmap string TableSchema
}.

Definition from_entries (entries : gmap string TableEntry) : CatalogSnapshot :=
  mkCatalogSnapshot entries (te_schema <$> entries).

(** [TableCatalog::get] and [sorted_table_names] of the current snapshot. *)
Definition catalog_get (c : CatalogSnapshot) (name : string) : option TableEntry := cs_entries c !! name.

Fixpoint insert_name (s : string) (l : list string) : list string :=
  match l with
  | [] => [s]
  | t :: l' => match String.compare s t with Gt => t :: insert_name s l' | _ => s :: l end
  end.
Definition sorted_table_names (c : CatalogSnapshot) : list string :=
  foldr insert_name [] (map_to_list (cs_entries c)).*1.

(** ** Metadata rows *)

Record MetadataRow : Type := mkMetadataRow {
  mr_table_name : string;
  mr_pg_table : string;
  mr_jsonb_col : string;
  mr_pk_attr : string;
  mr_pk_type : string;
  mr_sk_attr : option string;
  mr_sk_type : option string;
  mr_status : string;
  mr_serveable : bool;
  mr_unserveable_reason : option string;
  mr_last_modified_at_ms : Z;
  mr_last_modified_by : string;
  mr_creation_date_ms : Z;
  mr_tags : Value;
  mr_billing_mode : option string;
  mr_provisioned_rcu : option Z;
  mr_provisioned_wcu : option Z;
  mr_lsi_specs : Value;
  mr_gsi_specs : Value
}.

(** [Pool] and [Db] carry what the driver reported. *)
Inductive CatalogError : Type :=
| CatalogError_Pool (message : string)
| CatalogError_Db (message : string)
| CatalogError_MalformedRow (table_name reason : string).

Definition parse_key_type (table_name s : string) : Result CatalogError KeyType :=
  if String.eqb s "S" then Ok KeyType_S
  else if String.eqb s "N" then Ok KeyType_N
  else if String.eqb s "B" then Ok KeyType_B
  else Err (CatalogError_MalformedRow table_name
              ("unknown key type `" +:+ s +:+ "` (expected S | N | B)")).

Definition key_type_str (t : KeyType) : string :=
  match t with KeyType_S => "S" | KeyType_N => "N" | KeyType_B => "B" end.

(** ** Index specs as JSON *)

Definition json_opt {A} (f : A -> Value) (o : option A) : Value :=
  match o with Some a => f a | None => VNull end.
Definition json_strings (l : list string) : Value := VArray (VString <$> l).

Definition lsi_spec_to_json (s : LsiSpec) : Value :=
  VObject (BTreeMap.of_list [
    ("name", VString (ls_name s));
    ("sort_attr", VString (ls_sort_attr s));
    ("sort_type", VString (key_type_str (ls_sort_type s)));
    ("sort_pg_col", VString (ls_sort_pg_col s));
    ("index_name", VString (ls_index_name s));
    ("projection_type", json_opt VString (ls_projection_type s));
    ("projection_non_key_attrs", json_opt json_strings (ls_projection_non_key_attrs s));
    ("serveable", VBool (ls_serveable s));
    ("unserveable_reason", json_opt VString (ls_unserveable_reason s))]).

Definition lsi_specs_to_json (specs : list LsiSpec) : Value := VArray (lsi_spec_to_json <$> specs).

Definition gsi_spec_to_json (s : GsiSpec) : Value :=
  VObject (BTreeMap.of_list [
    ("name", VString (gs_name s));
    ("partition_attr", VString (gs_partition_attr s));
    ("partition_type", VString (key_type_str (gs_partition_type s)));
    ("partition_pg_col", VString (gs_partition_pg_col s));
    ("sort_attr", json_opt VString (gs_sort_attr s));
    ("sort_type", json_opt (fun t => VString (key_type_str t)) (gs_sort_type s));
    ("sort_pg_col", json_opt VString (gs_sort_pg_col s));
    ("index_name", VString (gs_index_name s));
    ("projection_type", json_opt VString (gs_projection_type s));
    ("projection_non_key_attrs", json_opt json_strings (gs_projection_non_key_attrs s));
    ("mode", VString (mode_as_str (gs_mode s)));
    ("serveable", VBool (gs_serveable s));
    ("unserveable_reason", json_opt VString (gs_unserveable_reason s))]).

Definition gsi_specs_to_json (specs : list GsiSpec) : Value := VArray (gsi_spec_to_json <$> specs).

(** [obj.get(k).and_then(|v| if v.is_null() { None } else { v.as_str() })]. *)
Definition opt_str (obj : list (string * Value)) (k : string) : option string :=
  BTreeMap.get k obj ≫= as_str.
Definition opt_strings (obj : list (string * Value)) (k : string) : option (list string) :=
  match BTreeMap.get k obj ≫= as_array with
  | Some l => Some (omap (M := list) as_str l)
  | None => None
  end.
Definition as_bool (v : Value) : option bool := match v with VBool b => Some b | _ => None end.
Definition bool_or_false (obj : list (string * Value)) (k : string) : bool :=
  default false (BTreeMap.get k obj ≫= as_bool).

Section from_json.
Variable table_name : string.

Definition malformed {A} (reason : string) : Result CatalogError A :=
  Err (CatalogError_MalformedRow table_name reason).

(** [read_str] and [read_str_g], which differ in the prefix. *)
Definition read_str (what : string) (obj : list (string * Value)) (key : string) (idx : nat)
  : Result CatalogError string :=
  ok_or (opt_str obj key)
    (CatalogError_MalformedRow table_name
       (what +:+ "[" +:+ usize_to_string (N.of_nat idx) +:+ "]: missing or non-string `" +:+ key +:+ "`")).

Definition lsi_spec_from_json (idx : nat) (v : Value) : Result CatalogError LsiSpec :=
  let? obj := ok_or (as_object v) (CatalogError_MalformedRow table_name
                ("lsi_specs[" +:+ usize_to_string (N.of_nat idx) +:+ "]: expected object")) in
  let? name := read_str "lsi_specs" obj "name" idx in
  let? sort_attr := read_str "lsi_specs" obj "sort_attr" idx in
  let? sort_type_s := read_str "lsi_specs" obj "sort_type" idx in
  let? sort_type := parse_key_type table_name sort_type_s in
  let? sort_pg_col := read_str "lsi_specs" obj "sort_pg_col" idx in
  let? index_name := read_str "lsi_specs" obj "index_name" idx in
  Ok (mkLsiSpec name sort_attr sort_type sort_pg_col index_name
        (opt_str obj "projection_type") (opt_strings obj "projection_non_key_attrs")
        (bool_or_false obj "serveable") (opt_str obj "unserveable_reason")).

Definition gsi_sort_type_from_json (obj : list (string * Value)) (idx : nat)
  : Result CatalogError (option KeyType) :=
  match BTreeMap.get "sort_type" obj with
  | None | Some VNull => Ok None
  | Some (VString s) => let? t := parse_key_type table_name s in Ok (Some t)
  | _ => malformed ("gsi_specs[" +:+ usize_to_string (N.of_nat idx)
                    +:+ "]: `sort_type` must be string or null")
  end.

Definition gsi_mode_from_json (obj : list (string * Value)) (idx : nat) : Result CatalogError GsiMode :=
  match BTreeMap.get "mode" obj with
  | None | Some VNull => Ok GsiMode_Generated
  | Some (VString s) =>
      ok_or (parse_mode s) (CatalogError_MalformedRow table_name
        ("gsi_specs[" +:+ usize_to_string (N.of_nat idx)
         +:+ "]: `mode` must be `generated` or `dual_write`, got `" +:+ s +:+ "`"))
  | _ => malformed ("gsi_specs[" +:+ usize_to_string (N.of_nat idx) +:+ "]: `mode` must be string")
  end.

Definition gsi_spec_from_json (idx : nat) (v : Value) : Result CatalogError GsiSpec :=
  let? obj := ok_or (as_object v) (CatalogError_MalformedRow table_name
                ("gsi_specs[" +:+ usize_to_string (N.of_nat idx) +:+ "]: expected object")) in
  let? name := read_str "gsi_specs" obj "name" idx in
  let? partition_attr := read_str "gsi_specs" obj "partition_attr" idx in
  let? partition_type_s := read_str "gsi_specs" obj "partition_type" idx in
  let? partition_type := parse_key_type table_name partition_type_s in
  let? partition_pg_col := read_str "gsi_specs" obj "partition_pg_col" idx in
  let? sort_type := gsi_sort_type_from_json obj idx in
  let? index_name := read_str "gsi_specs" obj "index_name" idx in
  let? mode := gsi_mode_from_json obj idx in
  Ok (mkGsiSpec name partition_attr partition_type partition_pg_col (opt_str obj "sort_attr")
        sort_type (opt_str obj "sort_pg_col") index_name (opt_str obj "projection_type")
        (opt_strings obj "projection_non_key_attrs") mode (bool_or_false obj "serveable")
        (opt_str obj "unserveable_reason")).

(** [for (idx, v) in arr.iter().enumerate()]. *)
Definition specs_from_json {A} (what : string) (f : nat -> Value -> Result CatalogError A) (json : Value)
  : Result CatalogError (list A) :=
  let? arr := ok_or (as_array json)
                (CatalogError_MalformedRow table_name (what +:+ " must be a JSON array")) in
  collect (fun iv => f iv.1 iv.2) (zip (seq 0 (length arr)) arr).

Definition lsi_specs_from_json : Value -> Result CatalogError (list LsiSpec) :=
  specs_from_json "lsi_specs" lsi_spec_from_json.
Definition gsi_specs_from_json : Value -> Result CatalogError (list GsiSpec) :=
  specs_from_json "gsi_specs" gsi_spec_from_json.
End from_json.

(** ** [row_to_entry] *)

(** [collect] into a [HashMap]: a later entry replaces an earlier one. *)
Fixpoint hm_insert {A} (k : string) (v : A) (l : list (string * A)) : list (string * A) :=
  match l with
  | [] => [(k, v)]
  | (k', v') :: l' => if decide (k = k') then (k, v) :: l' else (k', v') :: hm_insert k v l'
  end.
Definition hm_collect {A} (l : list (string * A)) : list (string * A) :=
  fold_left (fun m kv => hm_insert kv.1 kv.2 m) l [].

Definition lsi_schema_of (s : LsiSpec) : LsiSchema :=
  mkLsiSchema (ls_name s) (ls_sort_attr s) (ls_sort_type s) (ls_sort_pg_col s)
    (ls_serveable s) (ls_unserveable_reason s).

Definition gsi_schema_of (s : GsiSpec) : GsiSchema :=
  mkGsiSchema (gs_name s) (gs_partition_attr s) (gs_partition_type s) (gs_partition_pg_col s)
    (gs_sort_attr s) (gs_sort_type s) (gs_sort_pg_col s)
    (bool_decide (gs_mode s = GsiMode_DualWrite)) (gs_serveable s) (gs_unserveable_reason s).

Definition row_to_entry (row : MetadataRow) : Result CatalogError TableEntry :=
  let t := mr_table_name row in
  let? status := ok_or (parse_status (mr_status row))
                   (CatalogError_MalformedRow t ("unknown status `" +:+ mr_status row +:+ "`")) in
  let? pk_type := parse_key_type t (mr_pk_type row) in
  let? sk_type := match mr_sk_type row with
                  | Some s => let? k := parse_key_type t s in Ok (Some k)
                  | None => Ok None
                  end in
  if negb (eqb (bool_decide (is_Some (mr_sk_attr row))) (bool_decide (is_Some sk_type)))
  then malformed t "sk_attr and sk_type must be both-present or both-absent"
  else
    let? lsis := lsi_specs_from_json t (mr_lsi_specs row) in
    let? gsis_vec := gsi_specs_from_json t (mr_gsi_specs row) in
    let schema := mkTableSchema t (mr_pg_table row) (mr_pk_attr row) pk_type (mr_sk_attr row) sk_type
                    (mr_jsonb_col row)
                    (hm_collect (map (fun s => (ls_name s, lsi_schema_of s)) lsis))
                    (hm_collect (map (fun s => (gs_name s, gsi_schema_of s)) gsis_vec)) in
    Ok (mkTableEntry schema status (mr_serveable row) (mr_unserveable_reason row)
          (mr_creation_date_ms row) (mr_last_modified_at_ms row) (mr_last_modified_by row)
          (mr_billing_mode row) (mr_provisioned_rcu row) (mr_provisioned_wcu row) (mr_tags row)
          (hm_collect (map (fun g => (gs_name g, g)) gsis_vec)) lsis).

(** [load_snapshot], from the rows the SELECT returned. *)
Definition load_rows (rows : list MetadataRow) : Result CatalogError (gmap string TableEntry) :=
  fold_result (fun out row => let? entry := row_to_entry row in
                              Ok (<[name (te_schema entry) := entry]> out)) ∅ rows.

(** ** Facts *)

Lemma parse_status_internal s : parse_status (as_internal_str s) = Some s.
Proof. by destruct s. Qed.
Lemma parse_status_inv str s : parse_status str = Some s -> as_internal_str s = str.
Proof.
  unfold parse_status. intros H.
  repeat match type of H with (if String.eqb str ?k then _ else _) = _ =>
    destruct (String.eqb_spec str k) as [->|]; [by simplify_eq|] end. done.
Qed.
Lemma parse_mode_str m : parse_mode (mode_as_str m) = Some m.
Proof. by destruct m. Qed.
Lemma parse_key_type_str t k : parse_key_type t (key_type_str k) = Ok k.
Proof. by destruct k. Qed.

Lemma omap_as_str (l : list string) : omap as_str (VString <$> l) = l.
Proof. induction l as [|s l IH]; [done|]. cbn. by f_equal. Qed.

Lemma lsi_spec_round_trip t idx s : lsi_spec_from_json t idx (lsi_spec_to_json s) = Ok s.
Proof.
  destruct s as [n a ty col ix pt pa sv ur]. unfold lsi_spec_to_json, lsi_spec_from_json.
  set (o := BTreeMap.of_list _). lazy -[key_type_str json_opt json_strings] in o. subst o.
  unfold read_str, opt_str, opt_strings, bool_or_false. cbn [as_object ok_or].
  repeat match goal with |- context [BTreeMap.get ?k ?l] =>
    let g := eval lazy -[key_type_str json_opt json_strings] in (BTreeMap.get k l) in
    change (BTreeMap.get k l) with g end.
  cbn -[usize_to_string parse_key_type key_type_str]. rewrite parse_key_type_str.
  destruct pt, pa, ur; cbn -[usize_to_string]; by rewrite ?omap_as_str.
Qed.

Lemma gsi_spec_round_trip t idx s : gsi_spec_from_json t idx (gsi_spec_to_json s) = Ok s.
Proof.
  destruct s as [n a ty col sa st sc ix pt pa md sv ur]. unfold gsi_spec_to_json, gsi_spec_from_json.
  set (o := BTreeMap.of_list _). lazy -[key_type_str json_opt json_strings mode_as_str] in o. subst o.
  unfold read_str, opt_str, opt_strings, bool_or_false, gsi_sort_type_from_json, gsi_mode_from_json.
  cbn [as_object ok_or].
  repeat match goal with |- context [BTreeMap.get ?k ?l] =>
    let g := eval lazy -[key_type_str json_opt json_strings mode_as_str] in (BTreeMap.get k l) in
    change (BTreeMap.get k l) with g end.
  cbn -[usize_to_string parse_key_type key_type_str parse_mode mode_as_str json_opt].
  rewrite parse_key_type_str, parse_mode_str.
  destruct st; cbn -[usize_to_string parse_key_type key_type_str]; rewrite ?parse_key_type_str;
    destruct sa, sc, pt, pa, ur; cbn -[usize_to_string]; by rewrite ?omap_as_str.
Qed.

Lemma specs_round_trip {A} t what (f : nat -> Value -> Result CatalogError A) (g : A -> Value) l :
  (forall idx a, f idx (g a) = Ok a) -> specs_from_json t what f (VArray (g <$> l)) = Ok l.
Proof.
  intros Hfg. unfold specs_from_json. simpl. generalize 0%nat. induction l as [|a l IH]; intros n; [done|].
  simpl. by rewrite Hfg, IH.
Qed.

Lemma hm_insert_keys {A} k (v : A) l : forall x, x ∈ (hm_insert k v l).*1 <-> x = k \/ x ∈ l.*1.
Proof.
  induction l as [|[k' v'] l IH]; intros x; simpl; [set_solver|].
  case_decide; simpl; [subst; set_solver|]. rewrite !elem_of_cons, IH. set_solver.
Qed.

Lemma hm_insert_nodup {A} k (v : A) l : NoDup l.*1 -> NoDup (hm_insert k v l).*1.
Proof.
  induction l as [|[k' v'] l IH]; simpl; [by constructor; [set_solver|]|].
  intros [Hn Hl]%NoDup_cons. case_decide as Hk; simpl; apply NoDup_cons.
  - by subst.
  - split; [|by apply IH]. rewrite hm_insert_keys. naive_solver.
Qed.

Lemma hm_collect_nodup {A} (l : list (string * A)) : NoDup (hm_collect l).*1.
Proof.
  unfold hm_collect. assert (Hg : forall m, NoDup m.*1 ->
    NoDup (fold_left (fun (m : list (string * A)) kv => hm_insert kv.1 kv.2 m) l m).*1).
  { induction l as [|kv l IH]; intros m Hm; [done|]. by apply IH, hm_insert_nodup. }
  apply Hg. constructor.
Qed.

Lemma hm_insert_get {A} k (v : A) l : NoDup l.*1 ->
  forall x w, (x, w) ∈ hm_insert k v l <-> (x = k /\ w = v) \/ (x <> k /\ (x, w) ∈ l).
Proof.
  induction l as [|[k' v'] l IH]; intros Hnd x w; simpl.
  - rewrite list_elem_of_singleton. set_solver.
  - simpl in Hnd. apply NoDup_cons in Hnd as [Hn Hnd]. case_decide as Hk.
    + subst k'. rewrite !elem_of_cons. split.
      * intros [[= -> ->]|Hx]; [by left|right]. split; [|by right]. intros ->. apply Hn.
        apply list_elem_of_fmap. by exists (k, w).
      * intros [[-> ->]|[Hne [[= -> ->]|Hx]]]; [by left|done|by right].
    + rewrite !elem_of_cons, IH by done. naive_solver.
Qed.

(** Looking up in the collected map gives the last binding. *)
Lemma hm_insert_lookup {A} k (v : A) l x :
  (list_to_map (hm_insert k v l) : gmap string A) !! x
  = if decide (x = k) then Some v else (list_to_map l : gmap string A) !! x.
Proof.
  induction l as [|[k' v'] l IH]; simpl.
  - case_decide; simplify_map_eq; done.
  - destruct (decide (k = k')) as [<-|Hk]; simpl.
    + case_decide; by simplify_map_eq.
    + destruct (decide (x = k')) as [->|Hx].
      * rewrite !lookup_insert_eq. destruct (decide (k' = k)); [congruence|done].
      * by rewrite !lookup_insert_ne, IH by congruence.
Qed.

Lemma hm_insert_map {A B} (f : A -> B) k v l :
  hm_insert k (f v) (prod_map id f <$> l) = prod_map id f <$> hm_insert k v l.
Proof.
  induction l as [|[k' v'] l IH]; [done|]. simpl. case_decide; [done|]. csimpl. by rewrite <- IH.
Qed.

Lemma hm_collect_map {A B} (f : A -> B) (l : list (string * A)) :
  hm_collect (prod_map id f <$> l) = prod_map id f <$> hm_collect l.
Proof.
  unfold hm_collect. change (@nil (string * B)) with (prod_map id f <$> (@nil (string * A))) at 1.
  generalize (@nil (string * A)). induction l as [|[k v] l IH]; intros m; [done|].
  simpl. rewrite hm_insert_map. apply IH.
Qed.

Lemma hm_insert_fresh {A} k (v : A) l : k ∉ l.*1 -> hm_insert k v l = l ++ [(k, v)].
Proof.
  induction l as [|[k' v'] l IH]; [done|]. simpl. intros Hn. rewrite decide_False by set_solver.
  rewrite IH; [done|set_solver].
Qed.

Lemma hm_collect_id {A} (l : list (string * A)) : NoDup l.*1 -> hm_collect l = l.
Proof.
  intros Hnd. unfold hm_collect. change l with ([] ++ l) at 2. revert Hnd.
  change l with ([] ++ l) at 1. generalize (@nil (string * A)).
  induction l as [|[k v] l IH]; intros m Hnd; simpl; [by rewrite app_nil_r|].
  rewrite hm_insert_fresh.
  - rewrite IH; rewrite <- app_assoc; done.
  - rewrite fmap_app, NoDup_app in Hnd. simpl in Hnd. destruct Hnd as (_ & Hd & _).
    intros Hin. apply (Hd _ Hin). set_solver.
Qed.

(** A map collected by name holds each value under its name. *)
Lemma hm_insert_Forall {A} (P : string * A -> Prop) k v l :
  P (k, v) -> Forall P l -> Forall P (hm_insert k v l).
Proof.
  intros Hp. induction l as [|[k' v'] l IH]; simpl; [by repeat constructor|].
  intros [H1 H2]%Forall_cons. case_decide; constructor; auto.
Qed.

Lemma hm_collect_Forall {A} (P : string * A -> Prop) l : Forall P l -> Forall P (hm_collect l).
Proof.
  unfold hm_collect. assert (Hn : Forall P []) by constructor. revert Hn. generalize (@nil (string * A)).
  induction l as [|[k v] l IH]; intros m Hm Hl; [done|]. apply Forall_cons in Hl as [H1 H2].
  apply IH; [|done]. by apply hm_insert_Forall.
Qed.

Lemma collect_names {A} (nm : A -> string) l :
  let m := hm_collect (map (fun g => (nm g, g)) l) in m = map (fun g => (nm g, g)) m.*2 /\ NoDup (map nm m.*2).
Proof.
  intros m. assert (Hm : Forall (fun kv => kv.1 = nm kv.2) m).
  { apply hm_collect_Forall, Forall_fmap, Forall_forall. done. }
  pose proof (hm_collect_nodup (map (fun g => (nm g, g)) l)) as Hnd. fold m in Hnd. clearbody m.
  split.
  - clear Hnd. induction m as [|[k v] m IH]; [done|]. apply Forall_cons in Hm as [H1 H2]. simpl in *.
    f_equal; [by subst|by apply IH].
  - assert (map nm m.*2 = m.*1) as ->; [|done].
    clear Hnd. induction m as [|[k v] m IH]; [done|]. apply Forall_cons in Hm as [H1 H2]. simpl in *.
    f_equal; [by subst|by apply IH].
Qed.

Lemma collect_mirror {A B} (nm : A -> string) (f : A -> B) l :
  hm_collect (map (fun s => (nm s, f s)) l)
  = prod_map id f <$> hm_collect (map (fun s => (nm s, s)) l).
Proof. rewrite <- hm_collect_map. f_equal. rewrite <- list_fmap_compose. by apply list_fmap_ext. Qed.

(** What [row_to_entry] keeps of a row. *)
Lemma row_to_entry_inv row e :
  row_to_entry row = Ok e ->
  exists ls gv,
    lsi_specs_from_json (mr_table_name row) (mr_lsi_specs row) = Ok ls
    /\ gsi_specs_from_json (mr_table_name row) (mr_gsi_specs row) = Ok gv
    /\ parse_status (mr_status row) = Some (te_status e)
    /\ name (te_schema e) = mr_table_name row
    /\ (is_Some (sk_attr (te_schema e)) <-> is_Some (sk_type (te_schema e)))
    /\ te_lsis e = ls
    /\ te_gsis e = hm_collect (map (fun g => (gs_name g, g)) gv)
    /\ lsis (te_schema e) = hm_collect (map (fun s => (ls_name s, lsi_schema_of s)) ls)
    /\ gsis (te_schema e) = hm_collect (map (fun s => (gs_name s, gsi_schema_of s)) gv).
Proof.
  unfold row_to_entry. intros H. destruct (parse_status _) eqn:Es; simpl in H; [|done].
  destruct (parse_key_type _ (mr_pk_type row)); simpl in H; [|done..].
  destruct (match mr_sk_type row with Some _ => _ | None => _ end) as [skt| |]; simpl in H; [|done..].
  destruct (negb _) eqn:En; [done|]. apply negb_false_iff, eqb_true in En.
  destruct (lsi_specs_from_json _ _) as [ls| |] eqn:El; simpl in H; [|done..].
  destruct (gsi_specs_from_json _ _) as [gv| |] eqn:Eg; simpl in H; [|done..].
  simplify_eq. simpl. exists ls, gv. split_and!; try done.
  destruct (mr_sk_attr row), skt; split; intros []; try done; by eexists.
Qed.

(** an entry loaded from a metadata row is consistent: it has the row's
    name and status, a sort-key type exactly when it has a sort key, its
    GSI map holds each spec once and under its own name, and the index
    maps of the schema, by which requests resolve an index name, are the
    mirror images of the typed specs. *)
Theorem row_entry_consistent row e :
  row_to_entry row = Ok e ->
  name (te_schema e) = mr_table_name row
  /\ as_internal_str (te_status e) = mr_status row
  /\ (is_Some (sk_attr (te_schema e)) <-> is_Some (sk_type (te_schema e)))
  /\ NoDup (te_gsis e).*1
  /\ (forall k g, (k, g) ∈ te_gsis e -> k = gs_name g)
  /\ gsis (te_schema e) = map (fun kv => (kv.1, gsi_schema_of kv.2)) (te_gsis e)
  /\ (forall k l, (k, l) ∈ lsis (te_schema e) -> exists s, s ∈ te_lsis e /\ ls_name s = k /\ l = lsi_schema_of s).
Proof.
  intros (ls & gv & _ & _ & Hs & Hn & Hk & Hl & Hg & Hls & Hgs)%row_to_entry_inv.
  split_and!; [done| |done| | | |].
  - by apply parse_status_inv.
  - rewrite Hg. apply hm_collect_nodup.
  - intros k g Hin. rewrite Hg in Hin. destruct (collect_names gs_name gv) as [Hm _]. rewrite Hm in Hin.
    apply list_elem_of_fmap in Hin as (? & ? & _). by simplify_eq.
  - rewrite Hgs, collect_mirror, <- Hg. by apply list_fmap_ext.
  - intros k l Hin. rewrite Hls, Hl in *.
    assert (Hall : Forall (fun kv => exists s, s ∈ ls /\ ls_name s = kv.1 /\ kv.2 = lsi_schema_of s)
      (hm_collect (map (fun s => (ls_name s, lsi_schema_of s)) ls))).
    { apply hm_collect_Forall, Forall_fmap, Forall_forall. intros s Hin'. by exists s. }
    rewrite Forall_forall in Hall. exact (Hall _ Hin).
Qed.

(** ** Loading *)

Lemma load_rows_spec rows m :
  load_rows rows = Ok m -> NoDup (map mr_table_name rows) ->
  forall n e, m !! n = Some e <-> exists r, r ∈ rows /\ mr_table_name r = n /\ row_to_entry r = Ok e.
Proof.
  unfold load_rows. intros H Hnd.
  assert (Hg : forall (m0 : gmap string TableEntry),
    (forall r, r ∈ rows -> m0 !! mr_table_name r = None) ->
    fold_result (fun out row => let? entry := row_to_entry row in
                                Ok (<[name (te_schema entry) := entry]> out)) m0 rows = Ok m ->
    forall n e, m !! n = Some e <-> m0 !! n = Some e \/ exists r, r ∈ rows /\ mr_table_name r = n /\ row_to_entry r = Ok e).
  { clear H. induction rows as [|r rows IH]; simpl; intros m0 Hm0 H n e.
    - simplify_eq. split; [by left|]. intros [?|(r & Hr & _)]; [done|]. by apply elem_of_nil in Hr.
    - apply NoDup_cons in Hnd as [Hr Hnd]. destruct (row_to_entry r) as [e0| |] eqn:Er; simpl in H; [|done..].
      assert (Hname : name (te_schema e0) = mr_table_name r).
      { apply row_to_entry_inv in Er. naive_solver. }
      rewrite Hname in H. rewrite (IH Hnd (<[mr_table_name r:=e0]> m0)); [| |exact H].
      + rewrite lookup_insert_Some. setoid_rewrite elem_of_cons.
        specialize (Hm0 r ltac:(left)). split.
        * intros [[[<- <-]|[? ?]]|?]; [right; exists r; by auto|by left|right; naive_solver].
        * intros [Hl|(r' & [->|Hin] & <- & Hr')]; [left; right; split; [congruence|done]| |right; naive_solver].
          left. left. split; [done|congruence].
      + intros r' Hr'. rewrite lookup_insert_ne; [apply Hm0; by right|].
        intros Heq. apply Hr. rewrite Heq. by apply (list_elem_of_fmap_2 mr_table_name). }
  intros n e. rewrite (Hg ∅ ltac:(done) H). rewrite lookup_empty. naive_solver.
Qed.

Lemma load_rows_Ok rows :
  Forall (fun r => is_ok (row_to_entry r) = true) rows -> exists m, load_rows rows = Ok m.
Proof.
  unfold load_rows. generalize (∅ : gmap string TableEntry). induction rows as [|r rows IH]; intros m H; [by eexists|].
  apply Forall_cons in H as [H1 H2]. simpl. destruct (row_to_entry r); [|done..]. simpl. by apply IH.
Qed.

Definition orders_row : MetadataRow :=
  mkMetadataRow "orders" "rekt_t_orders" "data" "id" "S" (Some "ts") (Some "N") "FAILED_UPDATING" true None
    1 "ddl" 1 (VObject []) None None None
    (lsi_specs_to_json [mkLsiSpec "by_qty" "qty" KeyType_N "qty" "orders_by_qty" None None true None])
    (gsi_specs_to_json [mkGsiSpec "by_owner" "owner" KeyType_S "owner" None None None "orders_by_owner" (Some "ALL")
                          (Some ["a"; "b"]) GsiMode_DualWrite false (Some "backfill")]).

Lemma row_entry_witness :
  is_ok (row_to_entry orders_row) = true
  /\ forall e, row_to_entry orders_row = Ok e ->
       name (te_schema e) = "orders" /\ as_internal_str (te_status e) = "FAILED_UPDATING"
       /\ gsis (te_schema e) = map (fun kv => (kv.1, gsi_schema_of kv.2)) (te_gsis e).
Proof.
  split; [vm_compute; reflexivity|]. intros e He.
  destruct (row_entry_consistent orders_row e He) as (H1 & H2 & _ & _ & _ & H3 & _).
  exact (conj H1 (conj H2 H3)).
Defined.
