(* ===== verification/Reconciler.v ===== *)
(** * The reconciler (rekt-catalog, [reconciler.rs])

    The comparison of a metadata row with the live PostgreSQL table, and
    one pass of the worker as a transformer of the stored rows and the
    cached catalog.  What PostgreSQL answers in a pass is a record of
    outcomes; the UPDATE of a verdict is applied to the stored rows. *)

From S2P Require Import Prelude RustStr BTree Json Storage Schema Catalog.

(** ** Live shape *)

Record ColumnInfo : Type := mkColumnInfo {
  ci_name : string;
  ci_data_type : string;
  ci_is_generated : string
}.

Record ReconcileVerdict : Type := mkReconcileVerdict {
  rv_status : TableStatus;
  rv_serveable : bool;
  rv_reason : option string;
  rv_lsis : list LsiSpec;
  rv_gsis : list GsiSpec
}.

#[export] Instance ReconcileVerdict_eq_dec : EqDecision ReconcileVerdict.
Proof. solve_decision. Defined.

Definition is_reconciler_owned (s : TableStatus) : bool :=
  match s with
  | TableStatus_Creating | TableStatus_Updating | TableStatus_Deleting => false
  | _ => true
  end.

(** [columns.iter().find(|c| c.name == col)]. *)
Definition find_column (columns : list ColumnInfo) (col : string) : option ColumnInfo :=
  List.find (fun c => String.eqb (ci_name c) col) columns.

Definition check_jsonb_column (columns : list ColumnInfo) (jsonb_col : string) : option string :=
  match find_column columns jsonb_col with
  | None => None
  | Some col =>
      if negb (String.eqb (ci_data_type col) "jsonb")
      then Some ("column `" +:+ jsonb_col +:+ "`: expected jsonb, got `" +:+ ci_data_type col +:+ "`")
      else if String.eqb (ci_is_generated col) "ALWAYS"
      then Some ("column `" +:+ jsonb_col +:+ "`: jsonb column must not be GENERATED ALWAYS")
      else None
  end.

Definition expected_type (t : KeyType) : string :=
  match t with KeyType_S => "text" | KeyType_N => "numeric" | KeyType_B => "bytea" end.

Definition check_column_with_mode (columns : list ColumnInfo) (col_name : string) (key_type : KeyType)
    (must_be_generated : bool) : option string :=
  match find_column columns col_name with
  | None => Some ("column `" +:+ col_name +:+ "`: missing")
  | Some col =>
      if negb (String.eqb (ci_data_type col) (expected_type key_type))
      then Some ("column `" +:+ col_name +:+ "`: expected `" +:+ expected_type key_type
                 +:+ "`, got `" +:+ ci_data_type col +:+ "`")
      else if must_be_generated && negb (String.eqb (ci_is_generated col) "ALWAYS")
      then Some ("column `" +:+ col_name +:+ "`: must be GENERATED ALWAYS AS (...) STORED (is_generated = "
                 +:+ ci_is_generated col +:+ ")")
      else if negb must_be_generated && String.eqb (ci_is_generated col) "ALWAYS"
      then Some ("column `" +:+ col_name +:+ "`: must be a regular (non-GENERATED) column for DualWrite-mode GSI (is_generated = ALWAYS)")
      else None
  end.

Definition check_key_column (columns : list ColumnInfo) (col_name : string) (key_type : KeyType)
  : option string := check_column_with_mode columns col_name key_type true.

Definition check_gsi_column (columns : list ColumnInfo) (col_name : string) (key_type : KeyType)
    (mode : GsiMode) : option string :=
  check_column_with_mode columns col_name key_type
    match mode with GsiMode_Generated => true | GsiMode_DualWrite => false end.

(** ** Index verdicts *)

(** [LsiSpec { serveable, unserveable_reason, ..lsi.clone() }]. *)
Definition lsi_with (serveable : bool) (reason : option string) (l : LsiSpec) : LsiSpec :=
  mkLsiSpec (ls_name l) (ls_sort_attr l) (ls_sort_type l) (ls_sort_pg_col l) (ls_index_name l)
    (ls_projection_type l) (ls_projection_non_key_attrs l) serveable reason.
Definition gsi_with (serveable : bool) (reason : option string) (g : GsiSpec) : GsiSpec :=
  mkGsiSpec (gs_name g) (gs_partition_attr g) (gs_partition_type g) (gs_partition_pg_col g)
    (gs_sort_attr g) (gs_sort_type g) (gs_sort_pg_col g) (gs_index_name g) (gs_projection_type g)
    (gs_projection_non_key_attrs g) (gs_mode g) serveable reason.

Definition check_lsi (lsi : LsiSpec) (columns : list ColumnInfo) (index_defs : gmap string string)
    (base_pk_col : string) : LsiSpec :=
  match check_key_column columns (ls_sort_pg_col lsi) (ls_sort_type lsi) with
  | Some reason => lsi_with false (Some ("LSI `" +:+ ls_name lsi +:+ "` column: " +:+ reason)) lsi
  | None =>
      match index_defs !! ls_index_name lsi with
      | None => lsi_with false (Some ("LSI `" +:+ ls_name lsi +:+ "` index `" +:+ ls_index_name lsi
                                      +:+ "` missing from pg_indexes")) lsi
      | Some def =>
          let expected_columns := "(" +:+ base_pk_col +:+ ", " +:+ ls_sort_pg_col lsi +:+ ")" in
          if negb (str_contains def expected_columns)
          then lsi_with false (Some ("LSI `" +:+ ls_name lsi +:+ "` index columns mismatch: expected `"
                                     +:+ expected_columns +:+ "` in indexdef, got: " +:+ def)) lsi
          else lsi_with true None lsi
      end
  end.

(** The column list [check_gsi] expects in the index definition. *)
Definition gsi_expected (gsi : GsiSpec) : string :=
  match gs_sort_pg_col gsi, gs_sort_type gsi with
  | Some sa, Some _ => "(" +:+ gs_partition_pg_col gsi +:+ ", " +:+ sa +:+ ")"
  | _, _ => "(" +:+ gs_partition_pg_col gsi +:+ ")"
  end.

Definition check_gsi (gsi : GsiSpec) (columns : list ColumnInfo) (index_defs : gmap string string)
  : GsiSpec :=
  match check_gsi_column columns (gs_partition_pg_col gsi) (gs_partition_type gsi) (gs_mode gsi) with
  | Some reason =>
      gsi_with false (Some ("GSI `" +:+ gs_name gsi +:+ "` partition column: " +:+ reason)) gsi
  | None =>
      match match gs_sort_pg_col gsi, gs_sort_type gsi with
            | Some sa, Some st => check_gsi_column columns sa st (gs_mode gsi)
            | _, _ => None
            end with
      | Some reason =>
          gsi_with false (Some ("GSI `" +:+ gs_name gsi +:+ "` sort column: " +:+ reason)) gsi
      | None =>
          match index_defs !! gs_index_name gsi with
          | None => gsi_with false (Some ("GSI `" +:+ gs_name gsi +:+ "` index `" +:+ gs_index_name gsi
                                          +:+ "` missing from pg_indexes")) gsi
          | Some def =>
              if negb (str_contains def (gsi_expected gsi))
              then gsi_with false (Some ("GSI `" +:+ gs_name gsi +:+ "` index columns mismatch: expected `"
                                         +:+ gsi_expected gsi +:+ "` in indexdef, got: " +:+ def)) gsi
              else gsi_with true None gsi
          end
      end
  end.

Definition degrade_all_lsis (l : list LsiSpec) (reason : string) : list LsiSpec :=
  map (lsi_with false (Some reason)) l.
Definition degrade_all_gsis (l : list GsiSpec) (reason : string) : list GsiSpec :=
  map (gsi_with false (Some reason)) l.

(** [entry.gsis.values()]. *)
Definition gsi_values (entry : TableEntry) : list GsiSpec := (te_gsis entry).*2.

Definition degraded_with_indexes (reason : string) (entry : TableEntry) : ReconcileVerdict :=
  mkReconcileVerdict TableStatus_Degraded false (Some reason)
    (degrade_all_lsis (te_lsis entry) reason) (degrade_all_gsis (gsi_values entry) reason).

(** ** [Debug] of a [Vec<String>]

    Bytes above 127 are kept: the printable characters, which
    [escape_debug] leaves alone. *)
Definition hex_digit (n : nat) : string :=
  String (ascii_of_nat (if Nat.ltb n 10 then 48 + n else 87 + n)) EmptyString.
Definition escape_debug (c : ascii) : string :=
  let n := code c in
  if Nat.eqb n 0 then "\0" else if Nat.eqb n 9 then "\t" else if Nat.eqb n 10 then "\n"
  else if Nat.eqb n 13 then "\r" else if Nat.eqb n 34 then byte_str [92; 34]
  else if Nat.eqb n 92 then "\\"
  else if Nat.ltb n 32 || Nat.eqb n 127
  then "\u{" +:+ (if Nat.ltb n 16 then EmptyString else hex_digit (n / 16)) +:+ hex_digit (n mod 16) +:+ "}"
  else String c EmptyString.
Fixpoint debug_body (s : string) : string :=
  match s with
  | EmptyString => EmptyString
  | String c s' => escape_debug c +:+ debug_body s'
  end.
Definition debug_str (s : string) : string := byte_str [34] +:+ debug_body s +:+ byte_str [34].
Definition debug_vec (l : list string) : string := "[" +:+ String.concat ", " (map debug_str l) +:+ "]".

(** ** One pass *)

(** What PostgreSQL answers during a pass: the two pool checkouts, the
    SELECT of the metadata rows, the three introspection queries by table,
    and the UPDATE by table; [Some] or [inl] is an error message. *)
Record PgAnswers : Type := mkPgAnswers {
  pool_get : option string;
  pool_get_load : option string;
  select_all : option string;
  columns_of : string -> string + list ColumnInfo;
  primary_key_of : string -> string + list string;
  indexes_of : string -> string + gmap string string;
  update_verdict : string -> option string
}.

(** [client.query(..).await?]. *)
Definition db {A} (r : string + A) : Result CatalogError A :=
  match r with inl e => Err (CatalogError_Db e) | inr a => Ok a end.

Section reconciler.
Variable pg : PgAnswers.

Definition fetch_columns (t : string) : Result CatalogError (list ColumnInfo) :=
  db (columns_of pg t).
Definition fetch_primary_key (t : string) : Result CatalogError (list string) :=
  db (primary_key_of pg t).
Definition fetch_indexes (t : string) : Result CatalogError (gmap string string) :=
  db (indexes_of pg t).

Definition expected_pk (s : TableSchema) : list string :=
  match sk_attr s with Some sk => [pk_attr s; sk] | None => [pk_attr s] end.

(** The sort-key check of [introspect]. *)
Definition check_sk_column (columns : list ColumnInfo) (s : TableSchema) : option string :=
  match sk_attr s, sk_type s with
  | Some a, Some t => check_key_column columns a t
  | _, _ => None
  end.

Definition introspect (entry : TableEntry) : Result CatalogError ReconcileVerdict :=
  let s := te_schema entry in
  let? columns := fetch_columns (pg_table s) in
  if bool_decide (columns = [])
  then Ok (mkReconcileVerdict TableStatus_Degraded false
             (Some ("PG table `" +:+ pg_table s +:+ "` does not exist"))
             (degrade_all_lsis (te_lsis entry) "parent PG table does not exist")
             (degrade_all_gsis (gsi_values entry) "parent PG table does not exist"))
  else
  match check_jsonb_column columns (jsonb_col s) with
  | Some reason => Ok (degraded_with_indexes reason entry)
  | None =>
  match check_key_column columns (pk_attr s) (pk_type s) with
  | Some reason => Ok (degraded_with_indexes reason entry)
  | None =>
  match check_sk_column columns s with
  | Some reason => Ok (degraded_with_indexes reason entry)
  | None =>
  let? pk_cols := fetch_primary_key (pg_table s) in
  if negb (bool_decide (pk_cols = expected_pk s))
  then Ok (degraded_with_indexes
             ("primary key shape mismatch: expected " +:+ debug_vec (expected_pk s)
              +:+ ", got " +:+ debug_vec pk_cols) entry)
  else
  let? index_defs := if bool_decide (te_lsis entry = []) && bool_decide (te_gsis entry = [])
                     then Ok ∅ else fetch_indexes (pg_table s) in
  Ok (mkReconcileVerdict TableStatus_Active true None
        (map (fun l => check_lsi l columns index_defs (pk_attr s)) (te_lsis entry))
        (map (fun g => check_gsi g columns index_defs) (gsi_values entry)))
  end end end.

Definition stored_verdict (entry : TableEntry) : ReconcileVerdict :=
  mkReconcileVerdict (te_status entry) (te_serveable entry) (te_unserveable_reason entry)
    (te_lsis entry) (gsi_values entry).

(** [UPDATE_VERDICT_SQL]: every row whose [table_name] is [$1]. *)
Definition apply_verdict (table : string) (v : ReconcileVerdict) (now : Z) (r : MetadataRow)
  : MetadataRow :=
  if String.eqb (mr_table_name r) table
  then mkMetadataRow (mr_table_name r) (mr_pg_table r) (mr_jsonb_col r) (mr_pk_attr r) (mr_pk_type r)
         (mr_sk_attr r) (mr_sk_type r) (as_internal_str (rv_status v)) (rv_serveable v) (rv_reason v)
         now "reconciler" (mr_creation_date_ms r) (mr_tags r) (mr_billing_mode r)
         (mr_provisioned_rcu r) (mr_provisioned_wcu r)
         (lsi_specs_to_json (rv_lsis v)) (gsi_specs_to_json (rv_gsis v))
  else r.

(** The entry the snapshot gets for a reconciled row. *)
Definition new_entry (entry : TableEntry) (v : ReconcileVerdict) (now : Z) : TableEntry :=
  let gsis' := hm_collect (map (fun g => (gs_name g, g)) (rv_gsis v)) in
  let changed := negb (bool_decide (rv_status v = te_status entry))
                 || negb (bool_decide (rv_serveable v = te_serveable entry))
                 || negb (bool_decide (rv_reason v = te_unserveable_reason entry))
                 || negb (bool_decide (rv_lsis v = te_lsis entry))
                 || negb (bool_decide (list_to_map (M := gmap string GsiSpec) gsis'
                                       = list_to_map (te_gsis entry))) in
  mkTableEntry (te_schema entry) (rv_status v) (rv_serveable v) (rv_reason v)
    (te_creation_date_ms entry)
    (if changed then now else te_last_modified_at_ms entry)
    (if changed then "reconciler" else te_last_modified_by entry)
    (te_billing_mode entry) (te_provisioned_rcu entry) (te_provisioned_wcu entry) (te_tags entry)
    gsis' (rv_lsis v).

(** The state a pass reads and writes: the rows of [_rektifier_tables] and
    the cached catalog. *)
Record World : Type := mkWorld { w_rows : list MetadataRow; w_catalog : CatalogSnapshot }.

(** The loop state: the rows, the next snapshot and the count. *)
Record Pass : Type := mkPass {
  ps_rows : list MetadataRow;
  ps_next : gmap string TableEntry;
  ps_updates : nat
}.

(** One iteration of the loop. The rows already updated stay updated when
    it fails. *)
Definition reconcile_row (now : Z) (p : Pass) (ne : string * TableEntry)
  : Pass * Result CatalogError unit :=
  let '(name, entry) := ne in
  let keep := mkPass (ps_rows p) (<[name := entry]> (ps_next p)) (ps_updates p) in
  if negb (is_reconciler_owned (te_status entry)) then (keep, Ok tt)
  else match introspect entry with
       | Err (CatalogError_Db _) => (keep, Ok tt)
       | Err e => (p, Err e)
       | Panic => (p, Panic)
       | Ok verdict =>
           let put rows n := mkPass rows (<[name := new_entry entry verdict now]> (ps_next p)) n in
           if bool_decide (verdict = stored_verdict entry) then (put (ps_rows p) (ps_updates p), Ok tt)
           else match update_verdict pg (Schema.name (te_schema entry)) with
                | Some e => (p, Err (CatalogError_Db e))
                | None => (put (map (apply_verdict (Schema.name (te_schema entry)) verdict now) (ps_rows p))
                             (S (ps_updates p)), Ok tt)
                end
       end.

Fixpoint reconcile_rows (now : Z) (p : Pass) (l : list (string * TableEntry))
  : Pass * Result CatalogError unit :=
  match l with
  | [] => (p, Ok tt)
  | ne :: l' => match reconcile_row now p ne with
                | (p', Ok _) => reconcile_rows now p' l'
                | (p', r) => (p', r)
                end
  end.

(** [load_snapshot]: its own pool checkout, the SELECT and the rows. *)
Definition load_snapshot (rows : list MetadataRow) : Result CatalogError (gmap string TableEntry) :=
  match pool_get_load pg, select_all pg with
  | Some e, _ => Err (CatalogError_Pool ("pool get failed: " +:+ e))
  | None, Some e => Err (CatalogError_Db e)
  | None, None => load_rows rows
  end.

(** [iter] is the iteration order of the [HashMap] of entries. *)
Definition reconcile_now (iter : gmap string TableEntry -> list (string * TableEntry)) (now : Z) (w : World)
  : World * Result CatalogError nat :=
  match pool_get pg with
  | Some e => (w, Err (CatalogError_Pool ("pool get failed: " +:+ e)))
  | None =>
  match load_snapshot (w_rows w) with
  | Err e => (w, Err e)
  | Panic => (w, Panic)
  | Ok stored =>
  match reconcile_rows now (mkPass (w_rows w) ∅ 0) (iter stored) with
  | (p, Err e) => (mkWorld (ps_rows p) (w_catalog w), Err e)
  | (p, Panic) => (mkWorld (ps_rows p) (w_catalog w), Panic)
  | (p, Ok _) => (mkWorld (ps_rows p) (from_entries (ps_next p)), Ok (ps_updates p))
  end end end.

End reconciler.

(** ** What a verdict means *)

(** The first column of that name has the key's type and is generated or
    not, as required. *)
Definition column_ok (columns : list ColumnInfo) (col : string) (t : KeyType) (generated : bool) : Prop :=
  exists c, find_column columns col = Some c /\ ci_data_type c = expected_type t
            /\ (generated = true <-> ci_is_generated c = "ALWAYS").

(** A payload column that exists is a plain [jsonb] column. *)
Definition payload_ok (columns : list ColumnInfo) (col : string) : Prop :=
  forall c, find_column columns col = Some c -> ci_data_type c = "jsonb" /\ ci_is_generated c <> "ALWAYS".

Definition table_matches (columns : list ColumnInfo) (pk : list string) (s : TableSchema) : Prop :=
  columns <> [] /\ payload_ok columns (jsonb_col s)
  /\ column_ok columns (pk_attr s) (pk_type s) true
  /\ (forall a t, sk_attr s = Some a -> sk_type s = Some t -> column_ok columns a t true)
  /\ pk = expected_pk s.

Definition lsi_matches (columns : list ColumnInfo) (idx : gmap string string) (pk : string) (l : LsiSpec)
  : Prop :=
  column_ok columns (ls_sort_pg_col l) (ls_sort_type l) true
  /\ exists def, idx !! ls_index_name l = Some def
                 /\ str_contains def ("(" +:+ pk +:+ ", " +:+ ls_sort_pg_col l +:+ ")") = true.

Definition gsi_matches (columns : list ColumnInfo) (idx : gmap string string) (g : GsiSpec) : Prop :=
  let generated := match gs_mode g with GsiMode_Generated => true | GsiMode_DualWrite => false end in
  column_ok columns (gs_partition_pg_col g) (gs_partition_type g) generated
  /\ (forall c t, gs_sort_pg_col g = Some c -> gs_sort_type g = Some t -> column_ok columns c t generated)
  /\ exists def, idx !! gs_index_name g = Some def /\ str_contains def (gsi_expected g) = true.

Lemma check_column_spec columns col t g :
  check_column_with_mode columns col t g = None <-> column_ok columns col t g.
Proof.
  unfold check_column_with_mode, column_ok. destruct (find_column columns col) as [c|]; [|naive_solver].
  destruct (String.eqb_spec (ci_data_type c) (expected_type t)); simpl; [|naive_solver].
  destruct (String.eqb_spec (ci_is_generated c) "ALWAYS"), g; naive_solver.
Qed.

Lemma check_jsonb_spec columns col : check_jsonb_column columns col = None <-> payload_ok columns col.
Proof.
  unfold check_jsonb_column, payload_ok. destruct (find_column columns col) as [c|]; [|naive_solver].
  destruct (String.eqb_spec (ci_data_type c) "jsonb"), (String.eqb_spec (ci_is_generated c) "ALWAYS"); naive_solver.
Qed.

(** A spec and its verdict differ in the two verdict fields only, and a
    reason is given exactly when it is not serveable. *)
Definition lsi_verdict (l l' : LsiSpec) : Prop :=
  l' = lsi_with (ls_serveable l') (ls_unserveable_reason l') l
  /\ (ls_serveable l' = true <-> ls_unserveable_reason l' = None).
Definition gsi_verdict (g g' : GsiSpec) : Prop :=
  g' = gsi_with (gs_serveable g') (gs_unserveable_reason g') g
  /\ (gs_serveable g' = true <-> gs_unserveable_reason g' = None).

Lemma check_lsi_spec l columns idx pk :
  let l' := check_lsi l columns idx pk in
  lsi_verdict l l' /\ (ls_serveable l' = true <-> lsi_matches columns idx pk l).
Proof.
  unfold check_lsi, lsi_matches, lsi_verdict, check_key_column. rewrite <- check_column_spec.
  destruct (check_column_with_mode _ _ _ _); [split; [split|]; naive_solver|].
  destruct (idx !! ls_index_name l) as [d|]; [|split; [split|]; naive_solver].
  destruct (str_contains d _) eqn:?; split; [split| |split|]; naive_solver.
Qed.

Lemma check_gsi_spec g columns idx :
  let g' := check_gsi g columns idx in
  gsi_verdict g g' /\ (gs_serveable g' = true <-> gsi_matches columns idx g).
Proof.
  unfold check_gsi, gsi_matches, gsi_verdict, check_gsi_column. cbv zeta.
  rewrite <- check_column_spec. setoid_rewrite <- check_column_spec.
  destruct (check_column_with_mode _ _ _ _); [split; [split|]; naive_solver|].
  destruct (gs_sort_pg_col g) as [c|] eqn:Ec, (gs_sort_type g) as [t|] eqn:Et.
  1: destruct (check_column_with_mode columns c t _) eqn:?; [split; [split|]; naive_solver|].
  all: destruct (idx !! gs_index_name g) as [d|]; [|split; [split|]; naive_solver].
  all: destruct (str_contains d _) eqn:?; split; [split| |split|]; naive_solver.
Qed.

Lemma check_lsi_idem l columns idx pk :
  check_lsi (check_lsi l columns idx pk) columns idx pk = check_lsi l columns idx pk.
Proof.
  destruct (check_lsi_spec l columns idx pk) as [[Hw _] _]. rewrite Hw at 1.
  set (a := ls_serveable _). set (b := ls_unserveable_reason _). clearbody a b. clear.
  unfold check_lsi. simpl. destruct (check_key_column _ _ _); [done|].
  destruct (idx !! _); [|done]. by destruct (str_contains _ _).
Qed.

Lemma check_gsi_idem g columns idx : check_gsi (check_gsi g columns idx) columns idx = check_gsi g columns idx.
Proof.
  destruct (check_gsi_spec g columns idx) as [[Hw _] _]. rewrite Hw at 1.
  set (a := gs_serveable _). set (b := gs_unserveable_reason _). clearbody a b. clear.
  unfold check_gsi, gsi_expected. simpl.
  destruct (check_gsi_column _ _ _ _); [done|].
  destruct (gs_sort_pg_col g), (gs_sort_type g); try destruct (check_gsi_column _ _ _ _); try done;
  (destruct (idx !! _); [|done]); by destruct (str_contains _ _).
Qed.

Section verdicts.
Variable pg : PgAnswers.
Variables (columns : list ColumnInfo) (pk : list string) (idx : gmap string string).

(** What [v] must say of [entry] when PostgreSQL has these columns, this
    primary key and these indexes. *)
Definition faithful_verdict (entry : TableEntry) (v : ReconcileVerdict) : Prop :=
  let matches := table_matches columns pk (te_schema entry) in
  (rv_serveable v = true <-> matches)
  /\ (rv_status v = if rv_serveable v then TableStatus_Active else TableStatus_Degraded)
  /\ (rv_serveable v = true <-> rv_reason v = None)
  /\ Forall2 (fun l l' => lsi_verdict l l'
        /\ (ls_serveable l' = true <-> matches /\ lsi_matches columns idx (pk_attr (te_schema entry)) l))
       (te_lsis entry) (rv_lsis v)
  /\ Forall2 (fun g g' => gsi_verdict g g' /\ (gs_serveable g' = true <-> matches /\ gsi_matches columns idx g))
       (gsi_values entry) (rv_gsis v).

Lemma Forall2_map_r {A B} (P : A -> B -> Prop) (f : A -> B) l : (forall x, P x (f x)) -> Forall2 P l (map f l).
Proof. intros H. induction l; by constructor. Qed.

Lemma faithful_degraded entry reason index_reason :
  ~ table_matches columns pk (te_schema entry) ->
  faithful_verdict entry
    (mkReconcileVerdict TableStatus_Degraded false (Some reason)
       (degrade_all_lsis (te_lsis entry) index_reason) (degrade_all_gsis (gsi_values entry) index_reason)).
Proof.
  intros Hn. split_and!; simpl; [naive_solver..| |];
    apply Forall2_map_r; intros x; split; [split| |split|]; naive_solver.
Qed.

Lemma introspect_faithful entry :
  columns_of pg (pg_table (te_schema entry)) = inr columns ->
  primary_key_of pg (pg_table (te_schema entry)) = inr pk ->
  indexes_of pg (pg_table (te_schema entry)) = inr idx ->
  exists v, introspect pg entry = Ok v /\ faithful_verdict entry v.
Proof.
  intros Hc Hp Hi. set (s := te_schema entry) in *. unfold introspect. fold s.
  unfold fetch_columns. rewrite Hc. simpl.
  case_bool_decide as E0; [eexists; split; [done|]; apply faithful_degraded; by intros []|].
  destruct (check_jsonb_column _ _) as [r|] eqn:E1.
  { eexists; split; [done|]. apply faithful_degraded. intros (_ & H & _). fold s in H. apply check_jsonb_spec in H. by rewrite E1 in H. }
  apply check_jsonb_spec in E1.
  destruct (check_key_column _ _ _) as [r|] eqn:E2.
  { eexists; split; [done|]. apply faithful_degraded. intros (_ & _ & H & _). fold s in H. apply check_column_spec in H.
    unfold check_key_column in E2. by rewrite E2 in H. }
  apply check_column_spec in E2.
  destruct (check_sk_column _ _) as [r|] eqn:E3.
  { eexists; split; [done|]. apply faithful_degraded. intros (_ & _ & _ & H & _). fold s in H.
    unfold check_sk_column in E3. destruct (sk_attr s) as [a|], (sk_type s) as [t|]; try done.
    pose proof (proj2 (check_column_spec _ _ _ _) (H _ _ eq_refl eq_refl)) as H'.
    unfold check_key_column in E3. by rewrite E3 in H'. }
  unfold fetch_primary_key. rewrite Hp. simpl.
  case_bool_decide as E4; simpl.
  2: { eexists; split; [done|]. apply faithful_degraded. intros (_ & _ & _ & _ & H). done. }
  assert (Hm : table_matches columns pk s).
  { split_and!; try done. intros a t Ha Ht. unfold check_sk_column in E3. rewrite Ha, Ht in E3.
    by apply check_column_spec. }
  assert (Hix : exists i, (if bool_decide (te_lsis entry = []) && bool_decide (te_gsis entry = [])
      then Ok ∅ else fetch_indexes pg (pg_table s)) = Ok i /\ (te_lsis entry = [] /\ te_gsis entry = [] \/ i = idx)).
  { unfold fetch_indexes. rewrite Hi. repeat case_bool_decide; simpl; eauto. }
  destruct Hix as (i & -> & Hor). eexists; split; [done|].
  split_and!; [simpl; naive_solver..| |]; fold s; cbn [rv_lsis rv_gsis]; destruct Hor as [[H1 H2]| ->].
  - rewrite H1. constructor.
  - apply Forall2_map_r. intros l. destruct (check_lsi_spec l columns idx (pk_attr s)); naive_solver.
  - unfold gsi_values. rewrite H2. constructor.
  - apply Forall2_map_r. intros g. destruct (check_gsi_spec g columns idx); naive_solver.
Qed.
End verdicts.

(** ** One pass, row by row *)

Section pass.
Variables (pg : PgAnswers) (now : Z).

(** The verdict a pass writes for an entry, if any. *)
Definition verdict_write (e : TableEntry) : option ReconcileVerdict :=
  if is_reconciler_owned (te_status e)
  then match introspect pg e with
       | Ok v => if bool_decide (v = stored_verdict e) then None else Some v
       | _ => None
       end
  else None.

(** The entry a pass caches. *)
Definition reconciled_entry (e : TableEntry) : TableEntry :=
  if is_reconciler_owned (te_status e)
  then match introspect pg e with Ok v => new_entry e v now | _ => e end
  else e.

Definition write_row (o : option ReconcileVerdict) (r : MetadataRow) : MetadataRow :=
  match o with Some v => apply_verdict (mr_table_name r) v now r | None => r end.

Definition reconciled_row (r : MetadataRow) : MetadataRow :=
  match row_to_entry r with Ok e => write_row (verdict_write e) r | _ => r end.

Definition row_changes (r : MetadataRow) : bool :=
  match row_to_entry r with Ok e => bool_decide (is_Some (verdict_write e)) | _ => false end.

Lemma introspect_outcome e :
  (exists v, introspect pg e = Ok v) \/ (exists m, introspect pg e = Err (CatalogError_Db m)).
Proof.
  unfold introspect, fetch_columns, fetch_primary_key, fetch_indexes.
  destruct (columns_of _ _) as [m|cols]; simpl; [eauto|]. case_bool_decide; [eauto|].
  destruct (check_jsonb_column _ _); [eauto|]. destruct (check_key_column _ _ _); [eauto|].
  destruct (check_sk_column _ _); [eauto|].
  destruct (primary_key_of _ _) as [m|pk]; simpl; [eauto|]. destruct (negb _); [eauto|].
  destruct (_ && _); simpl; [eauto|]. destruct (indexes_of _ _); simpl; eauto.
Qed.

Lemma reconcile_row_ok p n e :
  (forall t, update_verdict pg t = None) ->
  reconcile_row pg now p (n, e)
  = (mkPass (map (fun r => match verdict_write e with
                           | Some v => apply_verdict (name (te_schema e)) v now r
                           | None => r end) (ps_rows p))
            (<[n := reconciled_entry e]> (ps_next p))
            (ps_updates p + if verdict_write e is Some _ then 1 else 0), Ok tt).
Proof.
  intros Hu. unfold reconcile_row, verdict_write, reconciled_entry.
  destruct (is_reconciler_owned _); simpl; [|by rewrite map_id, Nat.add_0_r].
  destruct (introspect_outcome e) as [[v ->]|[m ->]]; [|by rewrite map_id, Nat.add_0_r].
  case_bool_decide; [by rewrite map_id, Nat.add_0_r|]. rewrite Hu. by rewrite Nat.add_1_r.
Qed.

Definition row_of (m : gmap string TableEntry) (r : MetadataRow) : MetadataRow :=
  write_row (m !! mr_table_name r ≫= verdict_write) r.

Lemma write_row_name o r : mr_table_name (write_row o r) = mr_table_name r.
Proof. destruct o; [|done]. simpl. unfold apply_verdict. by destruct (String.eqb _ _). Qed.

Lemma apply_verdict_other t v r : mr_table_name r <> t -> apply_verdict t v now r = r.
Proof. intros H. unfold apply_verdict. by rewrite (proj2 (String.eqb_neq _ _)). Qed.

Lemma row_of_cons n e l r :
  n ∉ l.*1 ->
  row_of (list_to_map l) (match verdict_write e with Some v => apply_verdict n v now r | None => r end)
  = row_of (list_to_map ((n, e) :: l)) r.
Proof.
  intros Hn. unfold row_of. rewrite list_to_map_cons. destruct (decide (mr_table_name r = n)) as [Hr|Hr].
  - rewrite Hr, lookup_insert_eq. simpl.
    transitivity (write_row ((list_to_map l : gmap string TableEntry) !! n ≫= verdict_write) (write_row (verdict_write e) r)).
    + subst n. destruct (verdict_write e) as [v|]; [|done]. simpl.
      by rewrite (write_row_name (Some v) r : mr_table_name (apply_verdict (mr_table_name r) v now r) = _).
    + by rewrite (not_elem_of_list_to_map_1 l n).
  - rewrite lookup_insert_ne by congruence.
    destruct (verdict_write e); [by rewrite apply_verdict_other|done].
Qed.

Lemma reconcile_rows_ok l : forall p,
  (forall t, update_verdict pg t = None) -> NoDup l.*1 ->
  (forall n e, (n, e) ∈ l -> name (te_schema e) = n) ->
  exists next,
    reconcile_rows pg now p l
    = (mkPass (map (row_of (list_to_map l)) (ps_rows p)) next
         (ps_updates p + length (List.filter (fun ne => bool_decide (is_Some (verdict_write ne.2))) l)), Ok tt)
    /\ forall n, next !! n = match (list_to_map l : gmap string TableEntry) !! n with
                             | Some e => Some (reconciled_entry e)
                             | None => ps_next p !! n end.
Proof.
  induction l as [|[n e] l IH]; intros p Hu Hnd Hname.
  - exists (ps_next p). simpl. rewrite Nat.add_0_r. split; [|done].
    destruct p; simpl. do 2 f_equal. symmetry. rewrite <- (map_id ps_rows0) at 2. by apply map_ext.
  - apply NoDup_cons in Hnd as [Hn Hnd]. cbn [reconcile_rows]. rewrite (reconcile_row_ok _ _ _ Hu).
    edestruct IH as (next & -> & Hnext); [done|done|by intros; apply Hname; right|].
    exists next. cbn [ps_rows ps_updates ps_next] in *. split.
    + do 2 f_equal.
      * rewrite map_map. apply map_ext. intros r. rewrite (Hname n e) by left. by apply row_of_cons.
      * cbn [List.filter snd]. destruct (verdict_write e); simpl; lia.
    + intros n'. rewrite Hnext, list_to_map_cons. destruct (decide (n' = n)) as [->|].
      * rewrite (not_elem_of_list_to_map_1 l n) by done. by rewrite !lookup_insert_eq.
      * by rewrite !lookup_insert_ne by congruence.
Qed.

(** The assumptions under which a pass runs to its end: the pool and the
    SELECT answer, the UPDATEs succeed, the rows are well formed, and
    [table_name] is the primary key of [_rektifier_tables]. *)
Definition pg_up : Prop :=
  pool_get pg = None /\ pool_get_load pg = None /\ select_all pg = None
  /\ forall t, update_verdict pg t = None.
Definition rows_ok (rows : list MetadataRow) : Prop :=
  NoDup (map mr_table_name rows) /\ Forall (fun r => is_ok (row_to_entry r) = true) rows.

Lemma rows_ok_entry rows r : rows_ok rows -> r ∈ rows -> exists e, row_to_entry r = Ok e.
Proof.
  intros [_ H] Hr. rewrite Forall_forall in H. specialize (H r Hr). destruct (row_to_entry r); by eauto.
Qed.

Lemma load_rows_row rows m r :
  rows_ok rows -> load_rows rows = Ok m -> r ∈ rows -> exists e, row_to_entry r = Ok e /\ m !! mr_table_name r = Some e.
Proof.
  intros Hok Hm Hr. destruct (rows_ok_entry _ _ Hok Hr) as [e He]. exists e. split; [done|].
  apply (load_rows_spec rows m Hm (proj1 Hok)). by exists r.
Qed.

Definition named_entry (r : MetadataRow) : list (string * TableEntry) :=
  match row_to_entry r with Ok e => [(mr_table_name r, e)] | _ => [] end.

Lemma in_named_entries rows n e :
  (n, e) ∈ concat (map named_entry rows)
  <-> exists r, r ∈ rows /\ mr_table_name r = n /\ row_to_entry r = Ok e.
Proof.
  induction rows as [|r rows IH]; simpl; [split; [by intros ?%elem_of_nil|by intros (? & ?%elem_of_nil & _)]|].
  rewrite elem_of_app, IH. setoid_rewrite elem_of_cons. unfold named_entry. split.
  - intros [H|(r' & ? & ?)]; [|naive_solver]. exists r.
    destruct (row_to_entry r) as [e'| |]; [|by apply elem_of_nil in H..].
    apply list_elem_of_singleton in H. by simplify_eq; auto.
  - intros (r' & [->|Hin] & <- & He); [left; rewrite He; by left|right; eauto].
Qed.

Lemma NoDup_named_entries rows : NoDup (map mr_table_name rows) -> NoDup (concat (map named_entry rows)).*1.
Proof.
  induction rows as [|r rows IH]; simpl; [intros; constructor|]. intros [Hr Hnd]%NoDup_cons.
  specialize (IH Hnd). unfold named_entry at 1. destruct (row_to_entry r); [|done..]. simpl.
  apply NoDup_cons. split; [|done]. intros ((n & e) & Heq & Hin)%list_elem_of_fmap. simpl in Heq. subst n.
  apply in_named_entries in Hin as (r' & Hin & Heq & _). apply Hr. rewrite <- Heq.
  by apply (list_elem_of_fmap_2 mr_table_name).
Qed.

Lemma stored_entries rows m :
  NoDup (map mr_table_name rows) -> load_rows rows = Ok m -> map_to_list m ≡ₚ concat (map named_entry rows).
Proof.
  intros Hnd Hm. apply NoDup_Permutation.
  - apply NoDup_map_to_list.
  - eapply NoDup_fmap_1, NoDup_named_entries, Hnd.
  - intros [n e]. rewrite elem_of_map_to_list, in_named_entries. by apply load_rows_spec.
Qed.

#[local] Instance filter_perm {A} (p : A -> bool) : Proper (Permutation ==> Permutation) (List.filter p).
Proof.
  induction 1; simpl; [done| | |by etransitivity].
  - by destruct (p x); [apply perm_skip|].
  - destruct (p x), (p y); try done. apply perm_swap.
Qed.

Lemma count_changes rows :
  length (List.filter (fun ne => bool_decide (is_Some (verdict_write ne.2))) (concat (map named_entry rows)))
  = length (List.filter row_changes rows).
Proof.
  induction rows as [|r rows IH]; [done|]. simpl. rewrite List.filter_app, length_app, IH.
  unfold named_entry, row_changes. destruct (row_to_entry r); simpl; [|done..].
  destruct (bool_decide _); simpl; lia.
Qed.

(** A pass that runs to its end rewrites each row by itself, caches each
    entry with its verdict and counts the rows it rewrote. *)
Lemma reconcile_pass iter w :
  pg_up -> rows_ok (w_rows w) -> (forall m, iter m ≡ₚ map_to_list m) ->
  exists next,
    reconcile_now pg iter now w
    = (mkWorld (map reconciled_row (w_rows w)) (from_entries next),
       Ok (length (List.filter row_changes (w_rows w))))
    /\ forall n e', next !! n = Some e'
         <-> exists r e, r ∈ w_rows w /\ mr_table_name r = n /\ row_to_entry r = Ok e /\ e' = reconciled_entry e.
Proof.
  intros (H1 & H2 & H3 & H4) Hok Hiter. unfold reconcile_now, load_snapshot. rewrite H1, H2, H3.
  destruct (load_rows_Ok (w_rows w)) as [m Hm]; [apply Hok|]. rewrite Hm.
  pose proof (load_rows_spec _ _ Hm (proj1 Hok)) as Hspec.
  assert (Hl : list_to_map (iter m) = m).
  { rewrite <- (list_to_map_to_list m) at 2. apply list_to_map_proper; [|apply Hiter].
    rewrite Hiter. apply NoDup_fst_map_to_list. }
  destruct (reconcile_rows_ok (iter m) (mkPass (w_rows w) ∅ 0)) as (next & -> & Hnext).
  - done.
  - rewrite Hiter. apply NoDup_fst_map_to_list.
  - intros n e. rewrite Hiter, elem_of_map_to_list, Hspec. intros (r & _ & <- & He).
    by apply row_to_entry_inv in He as (? & ? & ? & ? & ? & ? & _).
  - exists next. cbn [ps_rows ps_updates ps_next]. rewrite Hl in *. split.
    + f_equal.
      * f_equal. apply map_ext_in. intros r Hr%list_elem_of_In.
        destruct (load_rows_row _ _ _ Hok Hm Hr) as (e & He & Hmr).
        unfold row_of, reconciled_row. by rewrite Hmr, He.
      * f_equal. rewrite <- count_changes. simpl. apply Permutation_length.
        rewrite Hiter, (stored_entries _ _ (proj1 Hok) Hm). done.
    + intros n e'. rewrite Hnext. destruct (m !! n) as [e|] eqn:E.
      * apply Hspec in E as (r & Hr & Hn & He). split; [intros; simplify_eq; eauto 10|].
        intros (r' & e'' & Hr' & Hn' & He' & ->). f_equal.
        assert (m !! n = Some e /\ m !! n = Some e'') as [? ?]; [|congruence].
        split; apply Hspec; eauto.
      * cbn [ps_next]. rewrite lookup_empty. split; [done|]. intros (r & e & Hr & Hn & He & _).
        assert (m !! n = Some e); [apply Hspec; eauto|congruence].
Qed.
End pass.

(** ** Reloading a written verdict *)

Definition same_core (s s' : TableSchema) : Prop :=
  name s = name s' /\ pg_table s = pg_table s' /\ pk_attr s = pk_attr s' /\ pk_type s = pk_type s'
  /\ sk_attr s = sk_attr s' /\ sk_type s = sk_type s' /\ jsonb_col s = jsonb_col s'.

Lemma row_to_entry_apply r e v now :
  row_to_entry r = Ok e -> NoDup (map gs_name (rv_gsis v)) ->
  exists e', row_to_entry (apply_verdict (mr_table_name r) v now r) = Ok e'
    /\ same_core (te_schema e) (te_schema e') /\ stored_verdict e' = v.
Proof.
  intros He Hnd. unfold row_to_entry in *. unfold apply_verdict. rewrite String.eqb_refl. simpl.
  rewrite parse_status_internal. simpl. destruct (parse_status (mr_status r)); simpl in He; [|done].
  destruct (parse_key_type _ (mr_pk_type r)); simpl in *; [|done..].
  destruct (match mr_sk_type r with Some _ => _ | None => _ end); simpl in *; [|done..].
  destruct (negb _); [done|]. unfold lsi_specs_from_json, gsi_specs_from_json in *.
  destruct (specs_from_json _ _ _ (mr_lsi_specs r)); simpl in He; [|done..].
  destruct (specs_from_json _ _ _ (mr_gsi_specs r)); simpl in He; [|done..]. simplify_eq.
  unfold lsi_specs_to_json, gsi_specs_to_json.
  rewrite (specs_round_trip _ _ _ _ _ (lsi_spec_round_trip _)), (specs_round_trip _ _ _ _ _ (gsi_spec_round_trip _)).
  simpl. eexists. split; [done|]. split; [done|].
  destruct v; unfold stored_verdict, gsi_values; simpl in *. f_equal.
  rewrite hm_collect_id by (rewrite <- list_fmap_compose; exact Hnd).
  rewrite <- list_fmap_compose. apply list_fmap_id.
Qed.

Lemma gsi_values_nil e : bool_decide (te_gsis e = []) = bool_decide (gsi_values e = []).
Proof. unfold gsi_values. by destruct (te_gsis e). Qed.

Lemma bool_decide_map_nil {A B} `{EqDecision A} `{EqDecision B} (f : A -> B) l :
  bool_decide (map f l = []) = bool_decide (l = []).
Proof. by destruct l. Qed.

Lemma degrade_lsis_idem l r : degrade_all_lsis (degrade_all_lsis l r) r = degrade_all_lsis l r.
Proof. unfold degrade_all_lsis. rewrite map_map. by apply map_ext. Qed.
Lemma degrade_gsis_idem l r : degrade_all_gsis (degrade_all_gsis l r) r = degrade_all_gsis l r.
Proof. unfold degrade_all_gsis. rewrite map_map. by apply map_ext. Qed.

(** The verdict does not depend on the previous verdict. *)
Lemma introspect_idem pg e e' v :
  introspect pg e = Ok v -> same_core (te_schema e) (te_schema e') -> stored_verdict e' = v ->
  introspect pg e' = Ok v.
Proof.
  intros He (H1 & H2 & H3 & H4 & H5 & H6 & H7) <-. unfold introspect, check_sk_column, expected_pk, stored_verdict in *.
  rewrite H2, H3, H4, H5, H6, H7, !gsi_values_nil in *.
  set (v := mkReconcileVerdict (te_status e') _ _ _ _) in *.
  assert (Hdeg : forall r1 r2, Ok (E := CatalogError) (mkReconcileVerdict TableStatus_Degraded false (Some r1)
      (degrade_all_lsis (te_lsis e) r2) (degrade_all_gsis (gsi_values e) r2)) = Ok v ->
     Ok (E := CatalogError) (mkReconcileVerdict TableStatus_Degraded false (Some r1)
      (degrade_all_lsis (te_lsis e') r2) (degrade_all_gsis (gsi_values e') r2)) = Ok v).
  { unfold v. intros r1 r2 [=Ha Hb Hc Hd Hg].
    by rewrite <- Hd, <- Hg, degrade_lsis_idem, degrade_gsis_idem, Ha, Hb, Hc. }
  destruct (fetch_columns pg _) as [cols| |]; simpl in *; [|done..]. case_bool_decide; [by apply Hdeg|].
  unfold degraded_with_indexes in *.
  destruct (check_jsonb_column _ _); [by apply Hdeg|]. destruct (check_key_column _ (pk_attr _) _); [by apply Hdeg|].
  destruct (match sk_attr (te_schema e') with Some _ => _ | None => _ end); [by apply Hdeg|].
  destruct (fetch_primary_key pg _) as [pk| |]; simpl in *; [|done..].
  destruct (negb _); [by apply Hdeg|].
  destruct (if bool_decide (te_lsis e = []) && _ then _ else _) as [idx| |] eqn:Ei; simpl in He; [|done..].
  injection He as Ha Hb Hc Hd Hg.
  assert (Hi : (if bool_decide (te_lsis e' = []) && bool_decide (gsi_values e' = []) then Ok ∅
                else fetch_indexes pg (pg_table (te_schema e'))) = Ok idx).
  { rewrite <- Hd, <- Hg, !bool_decide_map_nil. exact Ei. }
  rewrite Hi. simpl. unfold v. rewrite <- Hd, <- Hg, Ha, Hb, Hc, !map_map. do 2 f_equal.
  - apply map_ext. intros. apply check_lsi_idem.
  - apply map_ext. intros. apply check_gsi_idem.
Qed.

Lemma introspect_names pg e v : introspect pg e = Ok v -> map gs_name (rv_gsis v) = map gs_name (gsi_values e).
Proof.
  unfold introspect, degraded_with_indexes, degrade_all_gsis. intros H.
  assert (Hd : forall r, map gs_name (map (gsi_with false r) (gsi_values e)) = map gs_name (gsi_values e)).
  { intros. rewrite map_map. by apply map_ext. }
  destruct (fetch_columns pg _) as [cols| |]; simpl in H; [|done..].
  case_bool_decide; [simplify_eq; apply Hd|].
  destruct (check_jsonb_column _ _); [simplify_eq; apply Hd|].
  destruct (check_key_column _ _ _); [simplify_eq; apply Hd|].
  destruct (check_sk_column _ _); [simplify_eq; apply Hd|].
  destruct (fetch_primary_key pg _) as [pk| |]; simpl in H; [|done..].
  destruct (negb _); [simplify_eq; apply Hd|].
  destruct (if _ && _ then _ else _) as [idx| |]; simpl in H; [|done..]. simplify_eq. simpl.
  rewrite map_map. apply map_ext. intros g. destruct (check_gsi_spec g cols idx) as [[-> _] _]. done.
Qed.

Lemma row_gsis r e : row_to_entry r = Ok e ->
  te_gsis e = map (fun g => (gs_name g, g)) (gsi_values e) /\ NoDup (map gs_name (gsi_values e)).
Proof.
  intros (ls & gv & _ & _ & _ & _ & _ & _ & Hg & _)%row_to_entry_inv.
  unfold gsi_values. rewrite Hg. apply collect_names.
Qed.

Lemma new_entry_id r e now : row_to_entry r = Ok e -> new_entry e (stored_verdict e) now = e.
Proof.
  intros Hr. destruct (row_gsis r e Hr) as [Hg Hnd]. unfold new_entry, stored_verdict. cbn [rv_status rv_serveable rv_reason rv_lsis rv_gsis].
  rewrite hm_collect_id by (rewrite <- list_fmap_compose; exact Hnd). rewrite <- Hg.
  repeat rewrite bool_decide_eq_true_2 by done. by destruct e.
Qed.

Lemma stored_verdict_new pg r e v now :
  row_to_entry r = Ok e -> introspect pg e = Ok v -> stored_verdict (new_entry e v now) = v.
Proof.
  intros He Hv. destruct (row_gsis r e He) as [_ Hnd]. rewrite <- (introspect_names pg e v Hv) in Hnd.
  destruct v. unfold stored_verdict, new_entry, gsi_values. simpl in *. f_equal.
  rewrite hm_collect_id by (rewrite <- list_fmap_compose; exact Hnd).
  rewrite <- list_fmap_compose. apply list_fmap_id.
Qed.

(** A row a pass has visited: the next pass leaves it and its entry. *)
Lemma reconciled_row_settled pg now r e :
  row_to_entry r = Ok e ->
  exists e', row_to_entry (reconciled_row pg now r) = Ok e' /\ verdict_write pg e' = None
    /\ (forall now', reconciled_entry pg now' e' = e')
    /\ (is_reconciler_owned (te_status e) = true -> forall v, introspect pg e = Ok v -> stored_verdict e' = v)
    /\ (is_reconciler_owned (te_status e) = false -> reconciled_row pg now r = r)
    /\ (forall m, introspect pg e = Err (CatalogError_Db m) -> reconciled_row pg now r = r).
Proof.
  intros He. unfold reconciled_row. rewrite He. unfold verdict_write.
  destruct (is_reconciler_owned (te_status e)) eqn:Eo.
  2: { exists e. unfold reconciled_entry. rewrite Eo. done. }
  destruct (introspect_outcome pg e) as [[v Hv]|[m Hm]].
  2: { rewrite Hm. exists e. unfold reconciled_entry. rewrite Eo, Hm. done. }
  rewrite Hv. case_bool_decide as Hs.
  - exists e. unfold reconciled_entry. rewrite Eo, Hv, bool_decide_eq_true_2 by done.
    split_and!; try done; [|naive_solver]. intros now'. subst v. by eapply new_entry_id.
  - destruct (row_gsis r e He) as [_ Hnd]. rewrite <- (introspect_names pg e v Hv) in Hnd.
    destruct (row_to_entry_apply r e v now He Hnd) as (e' & He' & Hc & Hst).
    pose proof (introspect_idem pg e e' v Hv Hc Hst) as Hi.
    exists e'. unfold reconciled_entry. rewrite Hi, (bool_decide_eq_true_2 (v = stored_verdict e')) by done.
    split; [done|]. split; [by destruct (is_reconciler_owned (te_status e'))|]. split; [|naive_solver].
    intros now'. destruct (is_reconciler_owned (te_status e')); [|done]. rewrite <- Hst. by eapply new_entry_id.
Qed.

Lemma reconciled_row_name pg now r : mr_table_name (reconciled_row pg now r) = mr_table_name r.
Proof. unfold reconciled_row. destruct (row_to_entry r); [|done..]. apply write_row_name. Qed.

Lemma reconciled_rows_ok pg now rows : rows_ok rows -> rows_ok (map (reconciled_row pg now) rows).
Proof.
  intros [H1 H2]. split.
  - rewrite map_map. erewrite map_ext; [exact H1|]. intros. apply reconciled_row_name.
  - apply Forall_fmap. eapply Forall_impl; [exact H2|]. intros r Hr. simpl in *.
    destruct (row_to_entry r) as [e| |] eqn:He; simpl in Hr; [|discriminate Hr..].
    destruct (reconciled_row_settled pg now r e He) as (e' & -> & _). done.
Qed.

(** C30: the reconciler converges. Against a PostgreSQL whose answers do not
    change, one pass that runs to its end brings every row to rest: the
    second pass writes nothing, whatever the iteration order and the clock,
    and leaves in the cache exactly the entries of the stored rows. In the
    cache of the first pass a table the reconciler owns has the verdict of
    its live shape (ACTIVE and serveable exactly when the shape matches,
    also if it was DEGRADED or FAILED before; each index likewise), and a row in transition or
    whose introspection failed is not touched. *)
Theorem reconciler_converges pg iter1 iter2 now1 now2 w :
  pg_up pg -> rows_ok (w_rows w) ->
  (forall m, iter1 m ≡ₚ map_to_list m) -> (forall m, iter2 m ≡ₚ map_to_list m) ->
  exists w1 n w2 m,
    reconcile_now pg iter1 now1 w = (w1, Ok n)
    /\ reconcile_now pg iter2 now2 w1 = (w2, Ok 0)
    /\ w_rows w2 = w_rows w1 /\ load_rows (w_rows w2) = Ok m /\ w_catalog w2 = from_entries m
    /\ forall r e, r ∈ w_rows w -> row_to_entry r = Ok e ->
       exists e1, catalog_get (w_catalog w1) (mr_table_name r) = Some e1
         /\ (is_reconciler_owned (te_status e) = false -> e1 = e /\ r ∈ w_rows w1)
         /\ (forall d, introspect pg e = Err (CatalogError_Db d) -> e1 = e /\ r ∈ w_rows w1)
         /\ (forall columns pk idx, is_reconciler_owned (te_status e) = true ->
               columns_of pg (pg_table (te_schema e)) = inr columns ->
               primary_key_of pg (pg_table (te_schema e)) = inr pk ->
               indexes_of pg (pg_table (te_schema e)) = inr idx ->
               faithful_verdict columns pk idx e (stored_verdict e1)).
Proof.
  intros Hpg Hok Hi1 Hi2. destruct (reconcile_pass pg now1 iter1 w Hpg Hok Hi1) as (next1 & E1 & Hn1).
  set (w1 := mkWorld _ _) in E1. assert (Hok1 : rows_ok (w_rows w1)) by by apply reconciled_rows_ok.
  destruct (reconcile_pass pg now2 iter2 w1 Hpg Hok1 Hi2) as (next2 & E2 & Hn2).
  destruct (load_rows_Ok (w_rows w1) (proj2 Hok1)) as [m Hm].
  assert (Hset : forall r1, r1 ∈ w_rows w1 -> exists e', row_to_entry r1 = Ok e'
            /\ verdict_write pg e' = None /\ forall now', reconciled_entry pg now' e' = e').
  { intros r1 (r & -> & Hr)%list_elem_of_fmap. destruct (rows_ok_entry _ _ Hok Hr) as [e He].
    destruct (reconciled_row_settled pg now1 r e He) as (e' & ? & ? & ? & _). eauto. }
  assert (Hrest : map (reconciled_row pg now2) (w_rows w1) = w_rows w1).
  { rewrite <- (map_id (w_rows w1)) at 2. apply map_ext_in. intros r1 Hr1%list_elem_of_In.
    destruct (Hset r1 Hr1) as (e' & He' & Hv & _). unfold reconciled_row. by rewrite He', Hv. }
  assert (Hcount : List.filter (row_changes pg) (w_rows w1) = []).
  { rewrite <- (List.filter_false (w_rows w1)). apply List.filter_ext_in. intros r1 Hr1%list_elem_of_In. destruct (Hset r1 Hr1) as (e' & He' & Hv & _).
    unfold row_changes. by rewrite He', Hv. }
  rewrite Hrest, Hcount in E2. eexists w1, _, _, m. split; [exact E1|]. split; [exact E2|].
  split; [done|]. split; [done|]. split.
  - simpl. f_equal. apply map_eq. intros n. apply option_eq. intros e'.
    rewrite Hn2, (load_rows_spec _ _ Hm (proj1 Hok1)). split.
    + intros (r1 & e0 & Hr1 & Hn & He0 & ->). exists r1. split_and!; [done..|].
      destruct (Hset r1 Hr1) as (e1 & He1 & _ & Hid). rewrite He0 in He1. injection He1 as <-. by rewrite Hid.
    + intros (r1 & Hr1 & Hn & He1). exists r1, e'. split_and!; [done..|].
      destruct (Hset r1 Hr1) as (e0 & He0 & _ & Hid). rewrite He1 in He0. injection He0 as <-. by rewrite Hid.
  - intros r e Hr He. exists (reconciled_entry pg now1 e). split.
    { unfold catalog_get. simpl. rewrite Hn1. eauto 10. }
    assert (Hkeep : reconciled_row pg now1 r = r -> r ∈ w_rows w1).
    { intros Heq. simpl. rewrite <- Heq. by apply (list_elem_of_fmap_2 (reconciled_row pg now1)). }
    destruct (reconciled_row_settled pg now1 r e He) as (_ & _ & _ & _ & _ & Hun & Herr).
    unfold reconciled_entry. split_and!.
    + intros Ho. rewrite Ho. auto.
    + intros d Hd. rewrite Hd. destruct (is_reconciler_owned _); eauto.
    + intros columns pk idx Ho H1 H2 H3. rewrite Ho.
      destruct (introspect_faithful pg columns pk idx e H1 H2 H3) as (v & Hv & Hf). rewrite Hv.
      by rewrite (stored_verdict_new pg r).
Qed.

(** ** A pass that fails *)

(** A row is left alone, or it is one the reconciler owns and gets the
    verdict of its live shape. *)
Definition row_frame (pg : PgAnswers) (now : Z) (r r' : MetadataRow) : Prop :=
  r' = r
  \/ exists e v, row_to_entry r = Ok e /\ is_reconciler_owned (te_status e) = true
       /\ introspect pg e = Ok v /\ r' = apply_verdict (mr_table_name r) v now r.

Lemma row_frame_name pg now r r' : row_frame pg now r r' -> mr_table_name r' = mr_table_name r.
Proof. intros [->|(e & v & _ & _ & _ & ->)]; [done|]. exact (write_row_name now (Some v) r). Qed.

Lemma NoDup_map_inj {A B} (f : A -> B) l x y : NoDup (map f l) -> x ∈ l -> y ∈ l -> f x = f y -> x = y.
Proof.
  induction l as [|a l IH]; simpl; [by intros _ ?%elem_of_nil|]. intros [Ha Hnd]%NoDup_cons.
  rewrite !elem_of_cons. intros [->|Hx] [->|Hy] Heq; auto.
  - destruct Ha. rewrite Heq. by apply (list_elem_of_fmap_2 f).
  - destruct Ha. rewrite <- Heq. by apply (list_elem_of_fmap_2 f).
Qed.

Section frame.
Variables (pg : PgAnswers) (now : Z) (rows : list MetadataRow).

(** During the loop: rows whose entry is still to come are unchanged. *)
Definition framed (l : list (string * TableEntry)) (rows' : list MetadataRow) : Prop :=
  Forall2 (fun r r' => r ∈ rows /\ row_frame pg now r r' /\ (mr_table_name r ∈ l.*1 -> r' = r)) rows rows'.

Lemma reconcile_row_framed p n e l :
  (forall r, r ∈ rows -> mr_table_name r = n -> row_to_entry r = Ok e) ->
  name (te_schema e) = n -> n ∉ l.*1 ->
  framed ((n, e) :: l) (ps_rows p) -> framed l (ps_rows (reconcile_row pg now p (n, e)).1).
Proof.
  intros Hrow Hname Hn Hf.
  assert (Hkeep : framed l (ps_rows p)).
  { eapply Forall2_impl; [exact Hf|]. simpl. intros r r' (? & ? & Hr). split_and!; [done..|]. intros; apply Hr. by right. }
  unfold reconcile_row. destruct (is_reconciler_owned _) eqn:Eo; simpl; [|done].
  destruct (introspect pg e) as [v|[]|] eqn:Ev; simpl; try done.
  case_bool_decide; [done|]. destruct (update_verdict pg _); [done|]. simpl.
  apply Forall2_fmap_r. rewrite Hname. eapply Forall2_impl; [exact Hf|]. simpl. intros r r' (Hin & Hfr & Hr).
  pose proof (row_frame_name _ _ _ _ Hfr) as Hnr. split; [done|].
  destruct (decide (mr_table_name r = n)) as [Heq|Hne].
  - rewrite Hr by (rewrite Heq; left). split; [right; exists e, v; rewrite Heq; auto|]. intros Hl. by rewrite Heq in Hl.
  - rewrite apply_verdict_other by congruence. split; [done|]. intros. apply Hr. by right.
Qed.

Lemma reconcile_rows_framed l : forall p,
  NoDup l.*1 ->
  (forall n e, (n, e) ∈ l -> name (te_schema e) = n
     /\ forall r, r ∈ rows -> mr_table_name r = n -> row_to_entry r = Ok e) ->
  framed l (ps_rows p) -> Forall2 (row_frame pg now) rows (ps_rows (reconcile_rows pg now p l).1).
Proof.
  induction l as [|[n e] l IH]; intros p Hnd Hl Hf; cbn [reconcile_rows].
  - eapply Forall2_impl; [exact Hf|]. naive_solver.
  - apply NoDup_cons in Hnd as [Hn Hnd]. destruct (Hl n e) as [Hname Hrow]; [left|].
    pose proof (reconcile_row_framed p n e l Hrow Hname Hn Hf) as Hf'.
    destruct (reconcile_row pg now p (n, e)) as [p' [| |]]; cbn [fst] in *.
    1: apply IH; [done| |done]; intros; apply Hl; by right.
    all: eapply Forall2_impl; [exact Hf'|]; naive_solver.
Qed.
End frame.

(** whatever PostgreSQL answers, and however a pass ends, each row is
    left as it is or, when the reconciler owns it, gets the verdict of its
    live shape; its other columns never change. A pass that does not
    return Ok leaves the cached catalog as it was. *)
Theorem reconcile_frame pg iter now w :
  NoDup (map mr_table_name (w_rows w)) -> (forall m, iter m ≡ₚ map_to_list m) ->
  let '(w', result) := reconcile_now pg iter now w in
  Forall2 (row_frame pg now) (w_rows w) (w_rows w')
  /\ (is_ok result = false -> w_catalog w' = w_catalog w).
Proof.
  intros Hnd Hiter.
  assert (Hid : Forall2 (row_frame pg now) (w_rows w) (w_rows w)).
  { apply Forall2_same_length_lookup_2; [done|]. intros. simplify_eq. by left. }
  unfold reconcile_now. destruct (pool_get pg); [done|].
  destruct (load_snapshot pg (w_rows w)) as [m| |] eqn:Hm; [|done..].
  assert (Hload : load_rows (w_rows w) = Ok m).
  { unfold load_snapshot in Hm. by destruct (pool_get_load pg), (select_all pg). }
  pose proof (load_rows_spec _ _ Hload Hnd) as Hspec.
  pose proof (reconcile_rows_framed pg now (w_rows w) (iter m) (mkPass (w_rows w) ∅ 0)) as Hf.
  destruct (reconcile_rows pg now _ (iter m)) as [p r]. simpl in Hf.
  assert (Forall2 (row_frame pg now) (w_rows w) (ps_rows p)) as Hp; [apply Hf|by destruct r].
  - rewrite Hiter. apply NoDup_fst_map_to_list.
  - intros n e. rewrite Hiter, elem_of_map_to_list. intros Hne.
    destruct (proj1 (Hspec n e) Hne) as (r0 & Hr0 & Hn0 & He0). split.
    + by apply row_to_entry_inv in He0 as (? & ? & ? & ? & ? & -> & _).
    + intros r1 Hr1 Hn1. rewrite <- He0. f_equal.
      apply (NoDup_map_inj mr_table_name (w_rows w)); congruence.
  - apply Forall2_same_length_lookup_2; [done|]. intros i x y Hx Hy. simplify_eq.
    split_and!; [by eapply list_elem_of_lookup_2|by left|done].
Qed.

(** ** Samples *)

Definition sample_lsi : LsiSpec :=
  mkLsiSpec "by_ts" "ts" KeyType_N "ts" "users_by_ts" (Some "ALL") None true None.
Definition sample_row : MetadataRow :=
  mkMetadataRow "users" "rekt_t_users" "data" "id" "S" None None "DEGRADED" false (Some "was missing")
    1 "seeder" 1 (VObject []) None None None (lsi_specs_to_json [sample_lsi]) (gsi_specs_to_json []).
Definition sample_columns : list ColumnInfo :=
  [mkColumnInfo "data" "jsonb" "NEVER"; mkColumnInfo "id" "text" "ALWAYS"; mkColumnInfo "ts" "numeric" "ALWAYS"].
Definition sample_pg (columns : list ColumnInfo) (indexes : gmap string string) : PgAnswers :=
  mkPgAnswers None None None (fun _ => inr columns) (fun _ => inr ["id"]) (fun _ => inr indexes) (fun _ => None).
Definition sample_indexes : gmap string string :=
  {["users_by_ts" := "CREATE INDEX users_by_ts ON public.rekt_t_users USING btree (id, ts)"]}.
Definition sample_world : World := mkWorld [sample_row] (from_entries ∅).

Lemma reconciler_converges_witness :
  pg_up (sample_pg sample_columns sample_indexes) /\ rows_ok [sample_row]
  /\ (exists e, row_to_entry sample_row = Ok e /\ te_status e = TableStatus_Degraded)
  /\ exists w1 n w2 e1,
      reconcile_now (sample_pg sample_columns sample_indexes) map_to_list 7 sample_world = (w1, Ok n)
      /\ reconcile_now (sample_pg sample_columns sample_indexes) map_to_list 8 w1 = (w2, Ok 0)
      /\ catalog_get (w_catalog w1) "users" = Some e1
      /\ te_status e1 = TableStatus_Active /\ te_serveable e1 = true.
Proof.
  assert (Hpg : pg_up (sample_pg sample_columns sample_indexes)) by done.
  assert (Hok : rows_ok [sample_row]).
  { split; [apply NoDup_singleton|]. repeat constructor. }
  split; [exact Hpg|]. split; [exact Hok|]. split; [eexists; split; [vm_compute; reflexivity|reflexivity]|].
  destruct (reconciler_converges (sample_pg sample_columns sample_indexes) map_to_list map_to_list 7 8
    sample_world Hpg Hok (fun _ => Permutation_refl _) (fun _ => Permutation_refl _))
    as (w1 & n & w2 & m & H1 & H2 & _ & _ & _ & Hrow).
  destruct (row_to_entry sample_row) as [e| |] eqn:He; [|discriminate He..].
  destruct (Hrow sample_row e (list_elem_of_here _ _) He) as (e1 & Hget & _ & _ & Hv).
  vm_compute in He. injection He as <-.
  destruct (Hv sample_columns ["id"] sample_indexes eq_refl eq_refl eq_refl eq_refl) as (Hs & Hst & _).
  simpl in Hs, Hst.
  assert (Hm : te_serveable e1 = true).
  { apply Hs. split; [done|]. split; [apply check_jsonb_spec; vm_compute; reflexivity|].
    split; [apply check_column_spec; vm_compute; reflexivity|]. split; [discriminate|reflexivity]. }
  rewrite Hm in Hst. exists w1, n, w2, e1. exact (conj H1 (conj H2 (conj Hget (conj Hst Hm)))).
Defined.

Lemma reconcile_frame_witness :
  NoDup (map mr_table_name (w_rows sample_world))
  /\ Forall2 (row_frame (sample_pg [] ∅) 7) [sample_row]
       (w_rows (reconcile_now (sample_pg [] ∅) map_to_list 7 sample_world).1).
Proof.
  assert (Hnd : NoDup (map mr_table_name (w_rows sample_world))) by apply NoDup_singleton.
  split; [exact Hnd|].
  pose proof (reconcile_frame (sample_pg [] ∅) map_to_list 7 sample_world Hnd (fun _ => Permutation_refl _)) as H.
  destruct (reconcile_now _ _ _ _). exact (proj1 H).
Defined.

(** An index definition as PostgreSQL prints it for the columns [Id] and
    [Ts], which it quotes. *)
Definition quoted_indexdef : string :=
  "CREATE INDEX i ON public.t USING btree (" +:+ byte_str [34] +:+ "Id" +:+ byte_str [34] +:+ ", "
  +:+ byte_str [34] +:+ "Ts" +:+ byte_str [34] +:+ ")".

(** What the schema of a cached table says of an index. *)
Definition schema_lsi_serveable (c : CatalogSnapshot) (t i : string) : option bool :=
  e ← catalog_get c t; l ← (list_to_map (lsis (te_schema e)) : gmap string LsiSchema) !! i;
  Some (lsi_serveable l).

(** three drifts the reconciler misses or misjudges. A table whose jsonb
    payload column is gone is declared serveable. When an index has
    disappeared, the pass that finds out marks its spec but leaves the
    schema of the cached entry, by which requests resolve the index,
    saying serveable; only the next pass corrects it. An index on columns
    whose names PostgreSQL quotes is declared to have the wrong columns. *)
Theorem reconciler_blind_spots :
  (exists v, introspect (sample_pg [mkColumnInfo "id" "text" "ALWAYS"] ∅)
       (mkTableEntry (mkTableSchema "t" "t" "id" KeyType_S None None "data" [] [])
          TableStatus_Active true None 0 0 EmptyString None None None VNull [] []) = Ok v
     /\ rv_serveable v = true /\ rv_status v = TableStatus_Active)
  /\ (let pg := sample_pg sample_columns ∅ in
      let w1 := (reconcile_now pg map_to_list 7 sample_world).1 in
      let w2 := (reconcile_now pg map_to_list 8 w1).1 in
      (map ls_serveable ∘ te_lsis <$> catalog_get (w_catalog w1) "users") = Some [false]
      /\ schema_lsi_serveable (w_catalog w1) "users" "by_ts" = Some true
      /\ schema_lsi_serveable (w_catalog w2) "users" "by_ts" = Some false)
  /\ ls_serveable (check_lsi (mkLsiSpec "l" "Ts" KeyType_N "Ts" "i" None None true None)
       [mkColumnInfo "Ts" "numeric" "ALWAYS"] {["i" := quoted_indexdef]} "Id") = false.
Proof.
  split; [eexists; split; [reflexivity|done]|]. split; [|vm_compute; reflexivity].
  vm_compute. done.
Qed.
