(* ===== verification/ApiError.v ===== *)
(** * API errors (rekt-server, [lib.rs]; the [Display] of the errors below it)

    The error a handler returns, the conversions from the errors of the
    translator, the backend, the control plane and authentication, and
    the response it becomes. *)

From S2P Require Import Prelude RustStr BTree Json Ast EvalUpdate Storage Errors Catalog.

(** [Debug] of a unit variant of [KeyType]. *)
Definition key_type_debug (t : KeyType) : string :=
  match t with KeyType_S => "S" | KeyType_N => "N" | KeyType_B => "B" end.

(** [impl Display for TranslateError] (thiserror). *)
Definition translate_error_to_string (e : TranslateError) : string :=
  match e with
  | TranslateError_MissingPartitionKey attr =>
      "missing partition key attribute `" +:+ attr +:+ "` in item"
  | TranslateError_MissingSortKey attr =>
      "missing sort key attribute `" +:+ attr +:+ "` in item"
  | TranslateError_PartitionKeyTypeMismatch attr expected got =>
      "partition key `" +:+ attr +:+ "` has wrong type: schema says " +:+ key_type_debug expected +:+ ", got " +:+ got
  | TranslateError_SortKeyTypeMismatch attr expected got =>
      "sort key `" +:+ attr +:+ "` has wrong type: schema says " +:+ key_type_debug expected +:+ ", got " +:+ got
  | TranslateError_ExtraKeyAttribute attr =>
      "Key contains unexpected attribute `" +:+ attr +:+ "` (not a key attribute)"
  | TranslateError_EmptyUpdateExpression =>
      "UpdateExpression is empty (must contain at least one clause)"
  | TranslateError_InvalidUpdateExpression message =>
      "invalid UpdateExpression: " +:+ message
  | TranslateError_UnknownPlaceholder message =>
      "UpdateExpression references unknown placeholder: " +:+ message
  | TranslateError_UpdateTouchesKey attr =>
      "UpdateExpression touches key attribute `" +:+ attr +:+ "` — key attributes are determined by the `Key` field, not by `UpdateExpression`"
  | TranslateError_UnsupportedNestedPath path =>
      "nested paths are not yet supported (got `" +:+ path +:+ "`) — Phase 8 will lift this restriction"
  | TranslateError_UnsupportedSetRhs shape =>
      "only literal SET right-hand sides are supported in this phase (got `" +:+ shape +:+ "`)"
  | TranslateError_InvalidAddValueType got =>
      "An operand in the update expression has an incorrect data type: ADD requires N or SS/NS/BS (got `" +:+ got +:+ "`)"
  | TranslateError_InvalidDeleteValueType got =>
      "An operand in the update expression has an incorrect data type: DELETE requires SS/NS/BS (got `" +:+ got +:+ "`)"
  | TranslateError_InvalidConditionExpression message =>
      "invalid ConditionExpression: " +:+ message
  | TranslateError_ReservedWordInUpdateExpression word =>
      "Invalid UpdateExpression: Attribute name is a reserved keyword; reserved keyword: " +:+ word
  | TranslateError_ReservedWordInConditionExpression word =>
      "Invalid ConditionExpression: Attribute name is a reserved keyword; reserved keyword: " +:+ word
  | TranslateError_UnsupportedConditionInFastPath =>
      "ConditionExpression is parsed and validated but storage execution is not yet implemented — Phase 4c will land `attribute_not_exists(pk)`; Phase 4d adds SQL-WHERE; Phase 4e adds the slow-path evaluator"
  | TranslateError_UnsupportedConditionNestedPath path =>
      "nested paths in ConditionExpression are not yet supported (got `" +:+ path +:+ "`) — Phase 8 will lift this restriction"
  | TranslateError_UnsupportedReturnValues got =>
      "unknown `ReturnValues` value: `" +:+ got +:+ "`"
  | TranslateError_UnsupportedReturnValuesForOp op got =>
      "`ReturnValues=" +:+ got +:+ "` is not valid for " +:+ op +:+ ": expected `NONE` or `ALL_OLD`"
  | TranslateError_KeyConditionMissingPkEquality attr =>
      "Query condition missed key schema element: `" +:+ attr +:+ "` (KeyConditionExpression must include `" +:+ attr +:+ " = :v`)"
  | TranslateError_KeyConditionNonKeyAttr attr =>
      "Query condition referenced attribute `" +:+ attr +:+ "` which is not a key attribute (use FilterExpression for non-key predicates)"
  | TranslateError_KeyConditionUnsupportedShape reason =>
      "Query condition has unsupported shape (" +:+ reason +:+ ") — KeyConditionExpression accepts `pk = :v [AND <sk-predicate>]` only"
  | TranslateError_KeyConditionPkMustBeEquality attr op =>
      "Query condition on partition key `" +:+ attr +:+ "` must be equality (got `" +:+ op +:+ "`)"
  | TranslateError_KeyConditionRhsMustBeValue =>
      "Query condition right-hand side must be a value (path references are not allowed)"
  | TranslateError_KeyConditionBeginsWithRequiresStringSk attr got =>
      "begins_with on sort key `" +:+ attr +:+ "` requires an S-typed sort key (got `" +:+ key_type_debug got +:+ "`) — B-typed prefix matching is a deferred feature"
  | TranslateError_KeyConditionSkTypeMismatch attr expected got =>
      "Query condition on sort key `" +:+ attr +:+ "` has wrong type: schema says " +:+ key_type_debug expected +:+ ", got " +:+ got
  | TranslateError_KeyConditionPkTypeMismatch attr expected got =>
      "Query condition on partition key `" +:+ attr +:+ "` has wrong type: schema says " +:+ key_type_debug expected +:+ ", got " +:+ got
  | TranslateError_InvalidLimit got =>
      "Invalid Limit: " +:+ usize_to_string got +:+ " (must be 1..=1000)"
  | TranslateError_InvalidExclusiveStartKey reason =>
      "Invalid ExclusiveStartKey: " +:+ reason
  | TranslateError_ExclusiveStartKeyPkMismatch attr =>
      "ExclusiveStartKey partition key `" +:+ attr +:+ "` does not match the Query's KeyConditionExpression PK"
  | TranslateError_ScanFeatureNotSupported what =>
      "Scan feature not supported: " +:+ what
  | TranslateError_IndexNotFound index =>
      "Index not found: " +:+ index
  | TranslateError_IndexNotServeable index reason =>
      "Index not currently queryable: " +:+ index +:+ " (" +:+ reason +:+ ")"
  | TranslateError_UnsupportedSelect got =>
      "Unsupported Select value: `" +:+ got +:+ "` (expected ALL_ATTRIBUTES | COUNT | SPECIFIC_ATTRIBUTES)"
  | TranslateError_InvalidSelectMode reason =>
      "Invalid Select mode: " +:+ reason
  | TranslateError_InvalidProjectionExpression reason =>
      "Invalid ProjectionExpression: " +:+ reason
  | TranslateError_ProjectionNestedPathUnsupported path =>
      "nested paths in ProjectionExpression are not yet supported (got `" +:+ path +:+ "`) — Phase 8 will lift this restriction"
  | TranslateError_ReservedWordInProjectionExpression word =>
      "Invalid ProjectionExpression: Attribute name is a reserved keyword; reserved keyword: " +:+ word
  | TranslateError_EmptyBatchGetRequest =>
      "BatchGetItem cannot have an empty value for the RequestItems parameter"
  | TranslateError_EmptyKeysInBatchGet table =>
      "BatchGetItem RequestItems[" +:+ table +:+ "].Keys must not be empty"
  | TranslateError_TooManyKeysInBatchGet got max =>
      "Too many items requested for the BatchGetItem call: " +:+ usize_to_string got +:+ " (max " +:+ usize_to_string max +:+ ")"
  | TranslateError_DuplicateKeyInBatch =>
      "Provided list of item keys contains duplicates"
  | TranslateError_AttributesToGetNotSupported =>
      "AttributesToGet not supported; use ProjectionExpression"
  | TranslateError_ResourceNotFoundForBatch table =>
      "Table not found: " +:+ table
  | TranslateError_EmptyBatchWriteRequest =>
      "BatchWriteItem cannot have an empty value for the RequestItems parameter"
  | TranslateError_EmptyWritesInBatch table =>
      "BatchWriteItem RequestItems[" +:+ table +:+ "] must not be empty"
  | TranslateError_TooManyWritesInBatch got max =>
      "Too many items requested for the BatchWriteItem call: " +:+ usize_to_string got +:+ " (max " +:+ usize_to_string max +:+ ")"
  | TranslateError_MalformedWriteRequest =>
      "A WriteRequest must contain exactly one of PutRequest or DeleteRequest"
  | TranslateError_EmptyTransactRequest =>
      "TransactItems cannot be empty"
  | TranslateError_TooManyTransactItems got max =>
      "Member must have length less than or equal to " +:+ usize_to_string max +:+ ": " +:+ usize_to_string got
  | TranslateError_MalformedTransactItem expected =>
      "TransactItem must contain exactly one of " +:+ expected
  | TranslateError_DuplicateTransactTarget =>
      "Transaction request cannot include multiple operations on one item"
  | TranslateError_ResourceNotFoundForTransact table =>
      "Table not found: " +:+ table
  end.

(** [impl Display for EvalError]. *)
Definition eval_error_to_string (e : EvalError) : string :=
  match e with
  | EvalError_PathDoesNotExist path =>
      "The provided expression refers to an attribute that does not exist in the item: " +:+ path
  | EvalError_ArithmeticOperandNotNumber got =>
      "An operand in the update expression has an incorrect data type: arithmetic requires Number (got " +:+ got +:+ ")"
  | EvalError_ArithmeticParseFailed value => "arithmetic value `" +:+ value +:+ "` is not a valid number"
  | EvalError_ListAppendOperandNotList got =>
      "An operand in the update expression has an incorrect data type: list_append requires List (got " +:+ got +:+ ")"
  | EvalError_ItemNotObject => "stored item is not a JSON object"
  end.

(** [impl Display for CatalogError]; a driver error is its message. *)
Definition catalog_error_to_string (e : CatalogError) : string :=
  match e with
  | CatalogError_Pool m => "pool error: " +:+ m
  | CatalogError_Db m => "database error: " +:+ m
  | CatalogError_MalformedRow t r => "malformed metadata row for `" +:+ t +:+ "`: " +:+ r
  end.

Inductive DdlError : Type :=
| DdlError_Validation (message : string)
| DdlError_ResourceInUse (message : string)
| DdlError_ResourceNotFound (message : string)
| DdlError_Catalog (error : CatalogError)
| DdlError_Internal (message : string).

Inductive AuthError : Type :=
| AuthError_MissingAuthorization
| AuthError_MalformedAuthorization
| AuthError_UnsupportedScheme (scheme : string)
| AuthError_SignatureFailed (reason : string)
| AuthError_TokenFailed (reason : string)
| AuthError_IdentityNotFound
| AuthError_IdentityDisabled
| AuthError_Internal (message : string).

Definition auth_error_to_string (e : AuthError) : string :=
  match e with
  | AuthError_MissingAuthorization => "missing Authorization header (anonymous access disabled)"
  | AuthError_MalformedAuthorization => "malformed Authorization header"
  | AuthError_UnsupportedScheme s => "auth scheme not configured: " +:+ s
  | AuthError_SignatureFailed m => "signature verification failed: " +:+ m
  | AuthError_TokenFailed m => "token verification failed: " +:+ m
  | AuthError_IdentityNotFound => "identity not found"
  | AuthError_IdentityDisabled => "identity disabled"
  | AuthError_Internal m => "internal auth error: " +:+ m
  end.

(** ** [ApiError] *)

Inductive ApiError : Type :=
| ApiError_UnknownOperation (message : string)
| ApiError_Serialization (message : string)
| ApiError_Validation (message : string)
| ApiError_ResourceNotFound (message : string)
| ApiError_ResourceInUse (message : string)
| ApiError_AccessDenied (message : string)
| ApiError_ConditionalCheckFailed (message : string)
| ApiError_TransactionCancelled (reasons : list TransactCancelReason)
| ApiError_Internal (message : string).

Definition ddb_error_name (e : ApiError) : string :=
  match e with
  | ApiError_UnknownOperation _ => "UnknownOperationException"
  | ApiError_Serialization _ => "SerializationException"
  | ApiError_Validation _ => "ValidationException"
  | ApiError_ResourceNotFound _ => "ResourceNotFoundException"
  | ApiError_ResourceInUse _ => "ResourceInUseException"
  | ApiError_AccessDenied _ => "AccessDeniedException"
  | ApiError_ConditionalCheckFailed _ => "ConditionalCheckFailedException"
  | ApiError_TransactionCancelled _ => "TransactionCanceledException"
  | ApiError_Internal _ => "InternalServerError"
  end.

Definition http_status (e : ApiError) : N :=
  match e with ApiError_Internal _ => 500 | _ => 400 end%N.

Definition error_message (e : ApiError) : string :=
  match e with
  | ApiError_UnknownOperation m | ApiError_Serialization m | ApiError_Validation m
  | ApiError_ResourceNotFound m | ApiError_ResourceInUse m | ApiError_AccessDenied m
  | ApiError_ConditionalCheckFailed m | ApiError_Internal m => m
  | ApiError_TransactionCancelled reasons =>
      "Transaction cancelled, please refer cancellation reasons for specific reasons ["
      +:+ String.concat ", " (map reason_code reasons) +:+ "]"
  end.

(** A response: status, content type and JSON body. *)
Record Response : Type := mkResponse {
  resp_status : N;
  resp_content_type : string;
  resp_body : Value
}.

Definition CONTENT_TYPE : string := "application/x-amz-json-1.0".

Definition json_ok (body : Value) : Response := mkResponse 200 CONTENT_TYPE body.

(** One slot of the [CancellationReasons] array. *)
Definition cancel_reason_json (r : TransactCancelReason) : Value :=
  let obj := [("Code", VString (reason_code r))] in
  let obj := match reason_message r with
             | Some m => BTreeMap.insert "Message" (VString m) obj | None => obj end in
  let obj := match reason_item r with
             | Some i => BTreeMap.insert "Item" i obj | None => obj end in
  VObject obj.

Definition error_type (e : ApiError) : string := "com.amazonaws.dynamodb.v20120810#" +:+ ddb_error_name e.

Definition into_response (e : ApiError) : Response :=
  let body := match e with
    | ApiError_TransactionCancelled reasons =>
        VObject (BTreeMap.of_list [("__type", VString (error_type e)); ("Message", VString (error_message e));
                                   ("CancellationReasons", VArray (map cancel_reason_json reasons))])
    | _ => VObject (BTreeMap.of_list [("__type", VString (error_type e)); ("message", VString (error_message e))])
    end in
  mkResponse (http_status e) CONTENT_TYPE body.

(** ** Conversions *)

Definition api_of_translate (e : TranslateError) : ApiError :=
  match e with
  | TranslateError_ResourceNotFoundForBatch table => ApiError_ResourceNotFound ("Table not found: " +:+ table)
  | TranslateError_ResourceNotFoundForTransact table => ApiError_ResourceNotFound ("Table not found: " +:+ table)
  | TranslateError_IndexNotFound index => ApiError_ResourceNotFound ("Index not found: " +:+ index)
  | TranslateError_IndexNotServeable index reason =>
      ApiError_ResourceNotFound ("Index not currently queryable: " +:+ index +:+ " (" +:+ reason +:+ ")")
  | other => ApiError_Validation (translate_error_to_string other)
  end.

Definition api_of_backend (e : BackendError) : ApiError :=
  match e with
  | BackendError_TableNotFound name => ApiError_ResourceNotFound ("Table not found: " +:+ name)
  | BackendError_MissingSortKey name => ApiError_Validation ("Sort key required for `" +:+ name +:+ "`")
  | BackendError_UnexpectedSortKey name =>
      ApiError_Validation ("Sort key not allowed for `" +:+ name +:+ "` (hash-only table)")
  | BackendError_KeyTypeMismatch col expected actual =>
      ApiError_Validation ("Key column `" +:+ col +:+ "`: expected " +:+ key_type_debug expected
                           +:+ ", got " +:+ key_type_debug actual)
  | BackendError_ConditionalCheckFailed => ApiError_ConditionalCheckFailed "The conditional request failed"
  | BackendError_PoolExhausted waited_ms =>
      ApiError_Internal ("PG connection pool exhausted after " +:+ usize_to_string waited_ms +:+ " ms")
  | BackendError_ConnectFailed reason => ApiError_Internal ("PG connection failed: " +:+ reason)
  | BackendError_PgError sqlstate message =>
      ApiError_Internal ("PG error (" +:+ sqlstate +:+ "): " +:+ message)
  | BackendError_Other m => ApiError_Internal m
  | BackendError_TransactionCancelled reasons => ApiError_TransactionCancelled reasons
  end.

Definition api_of_ddl (e : DdlError) : ApiError :=
  match e with
  | DdlError_Validation m => ApiError_Validation m
  | DdlError_ResourceInUse m => ApiError_ResourceInUse m
  | DdlError_ResourceNotFound m => ApiError_ResourceNotFound m
  | DdlError_Catalog c => ApiError_Internal ("catalog error: " +:+ catalog_error_to_string c)
  | DdlError_Internal m => ApiError_Internal m
  end.

Definition api_of_auth (e : AuthError) : ApiError :=
  match e with
  | AuthError_Internal m => ApiError_Internal m
  | e => ApiError_AccessDenied (auth_error_to_string e)
  end.

(** [panic_to_500], from the payload's text. *)
Definition panic_to_500 (detail : string) : Response := into_response (ApiError_Internal ("panic: " +:+ detail)).

(** ** Facts *)

Lemma translate_error_is_client_error e : http_status (api_of_translate e) = 400%N.
Proof. by destruct e. Qed.

(** The backend errors that are the server's fault. *)
Definition internal (e : BackendError) : bool :=
  match e with
  | BackendError_PoolExhausted _ | BackendError_ConnectFailed _ | BackendError_PgError _ _
  | BackendError_Other _ => true
  | _ => false
  end.

Lemma backend_error_status e : http_status (api_of_backend e) = (if internal e then 500 else 400)%N.
Proof. by destruct e. Qed.
