(* ===== verification/Backend.v ===== *)
(** * The backend interface (rekt-storage, [trait Backend])

    The methods as state-passing operations, what the trait documents
    about them as transformers of a map of rows, and the contract that
    ties the two together. A backend may fail for reasons of its own (the
    pool, the connection, PostgreSQL); the contract speaks of the calls
    that do not. *)

From S2P Require Import Prelude BTree Json Attr Ast Storage Schema Plan Checks PgTypes PgSelect Query.
From S2P Require Import ConditionSql.

(** ** Operations *)

Definition ConditionEvalFn : Type := option Value -> bool.
Definition FilterEvalFn : Type := Value -> bool.
Definition GeneralUpdateFn : Type := option Value -> Result BackendError UpdateDecision.

Definition Key : Type := KeyValue * option KeyValue.

Inductive TransactWriteOp : Type :=
| TransactWriteOp_Put (shape : TableShape) (pk : KeyValue) (sk : option KeyValue) (item : Value)
    (condition : option ConditionEvalFn) (return_old_on_failure : bool)
| TransactWriteOp_Delete (shape : TableShape) (pk : KeyValue) (sk : option KeyValue)
    (condition : option ConditionEvalFn) (return_old_on_failure : bool)
| TransactWriteOp_ConditionCheck (shape : TableShape) (pk : KeyValue) (sk : option KeyValue)
    (condition : ConditionEvalFn) (return_old_on_failure : bool)
| TransactWriteOp_Update (shape : TableShape) (pk : KeyValue) (sk : option KeyValue)
    (apply : GeneralUpdateFn) (return_old_on_failure : bool).

Record TransactGetOp : Type := mkTransactGetOp {
  tgo_shape : TableShape;
  tgo_pk : KeyValue;
  tgo_sk : option KeyValue
}.

(** A call: the result and the state it leaves. *)
Definition Call (St A : Type) : Type := St -> Result BackendError A * St.

Class Backend (St : Type) : Type := {
  put_item_raw : TableShape -> KeyValue -> option KeyValue -> Value -> Call St (option Value);
  put_with_condition_raw : TableShape -> KeyValue -> option KeyValue -> Value -> ConditionEvalFn ->
    Call St (option Value);
  get_item_raw : TableShape -> KeyValue -> option KeyValue -> Call St (option Value);
  delete_item_raw : TableShape -> KeyValue -> option KeyValue -> Call St (option Value);
  delete_with_condition_raw : TableShape -> KeyValue -> option KeyValue -> ConditionEvalFn ->
    Call St (option Value);
  update_simple_raw : TableShape -> KeyValue -> option KeyValue -> Value -> list (string * Value) ->
    list string -> Call St UpdateOutcome;
  update_insert_only_raw : TableShape -> Value -> Call St UpdateOutcome;
  update_with_simple_condition_raw : TableShape -> KeyValue -> option KeyValue ->
    list (string * Value) -> list string -> Condition -> Call St UpdateOutcome;
  update_general_rmw_raw : TableShape -> KeyValue -> option KeyValue -> GeneralUpdateFn ->
    Call St UpdateOutcome;
  query_raw : TableShape -> KeyValue -> option SkCondition -> option N -> option Key ->
    option FilterEvalFn -> bool -> Call St QueryOutcome;
  scan_raw : TableShape -> option FilterEvalFn -> option N -> option Key -> Call St QueryOutcome;
  batch_write_raw : TableShape -> list WriteOp -> Call St unit;
  batch_get_raw : TableShape -> list Key -> Call St (list Value);
  transact_get_raw : list TransactGetOp -> Call St (list (option Value));
  transact_write_raw : list TransactWriteOp -> Call St unit
}.

(** ** Rows *)

(** Equality of key columns: numerals of the same number are the same
    key. *)
Class RowKeys : Type := {
  same_key : Key -> Key -> bool;
  same_key_equiv :: Equivalence (fun a b => same_key a b = true)
}.

(** The rows of each PostgreSQL table by key. *)
Definition Rows : Type := string -> Key -> option Value.

Definition rows_eq (m m' : Rows) : Prop := forall t k, m t k = m' t k.
#[export] Instance rows_eq_equiv : Equivalence rows_eq.
Proof. split; [done|by intros ?? H t k|intros ??? H1 H2 t k; by rewrite H1]. Qed.

Section rows.
Context `{RowKeys}.

Definition set_row (t : string) (k : Key) (v : option Value) (m : Rows) : Rows :=
  fun t' k' => if String.eqb t t' && same_key k k' then v else m t' k'.

#[export] Instance set_row_proper t k v : Proper (rows_eq ==> rows_eq) (set_row t k v).
Proof. intros m m' Hm t' k'. unfold set_row. by rewrite Hm. Qed.

Lemma set_row_eq t k v m k' : same_key k k' = true -> set_row t k v m t k' = v.
Proof. intros Hk. unfold set_row. by rewrite String.eqb_refl, Hk. Qed.

Lemma set_row_self t k v m : set_row t k v m t k = v.
Proof. apply set_row_eq. exact (reflexivity (R := fun a b => same_key a b = true) k). Qed.

Lemma set_row_ne t k v m t' k' : t <> t' \/ same_key k k' = false -> set_row t k v m t' k' = m t' k'.
Proof.
  unfold set_row. intros [Ht|Hk]; [by rewrite (proj2 (String.eqb_neq _ _) Ht)|].
  by rewrite Hk, andb_false_r.
Qed.

Lemma same_key_sym a b : same_key a b = true -> same_key b a = true.
Proof. exact (symmetry (R := fun a b => same_key a b = true) (x := a) (y := b)). Qed.

Lemma same_key_comm a b : same_key a b = same_key b a.
Proof.
  destruct (same_key a b) eqn:E1, (same_key b a) eqn:E2; try done.
  - apply same_key_sym in E1. congruence.
  - apply same_key_sym in E2. congruence.
Qed.

Lemma same_key_trans a b c : same_key a b = true -> same_key b c = true -> same_key a c = true.
Proof. exact (transitivity (R := fun a b => same_key a b = true) (x := a) (y := b) (z := c)). Qed.

(** Rows with different keys are updated independently. *)
Lemma set_row_commute t k v t' k' v' m :
  t <> t' \/ same_key k k' = false ->
  rows_eq (set_row t k v (set_row t' k' v' m)) (set_row t' k' v' (set_row t k v m)).
Proof.
  intros Hne t0 k0. unfold set_row.
  destruct (String.eqb_spec t t0) as [->|]; [|done]. destruct (String.eqb_spec t' t0) as [->|]; [|done].
  destruct Hne as [?|Hk]; [done|]. simpl.
  destruct (same_key k k0) eqn:E1, (same_key k' k0) eqn:E2; try done.
  exfalso. rewrite (same_key_trans k k0 k') in Hk; [done|done|]. by apply same_key_sym.
Qed.

(** ** What the trait documents *)

Section specs.
Context `{Base64} `{SqlCompare}.
Variables (shape : TableShape) (k : Key).

Definition row_at (m : Rows) : option Value := m (shape_table shape) k.
Definition write (v : option Value) (m : Rows) : Rows := set_row (shape_table shape) k v m.

(** An unconditional upsert; the previous row is returned. *)
Definition put_spec (item : Value) (m : Rows) : Result BackendError (option Value) * Rows :=
  (Ok (row_at m), write (Some item) m).

(** A condition sees the current row, or nothing. *)
Definition guarded {A} (condition : ConditionEvalFn) (f : Rows -> Result BackendError A * Rows) (m : Rows)
  : Result BackendError A * Rows :=
  if condition (row_at m) then f m else (Err BackendError_ConditionalCheckFailed, m).

Definition get_spec (m : Rows) : Result BackendError (option Value) * Rows := (Ok (row_at m), m).

Definition delete_spec (m : Rows) : Result BackendError (option Value) * Rows :=
  (Ok (row_at m), write None m).

(** [jsonb_set] per SET, then [- name] per REMOVE. *)
Definition merged (sets : list (string * Value)) (removes : list string) (d : Value) : Value :=
  match d with
  | VObject o => VObject (fold_left (fun o n => BTreeMap.remove n o) removes (BTreeMap.insert_all sets o))
  | _ => d
  end.

(** The INSERT branch on a missing row, the DO UPDATE branch otherwise. *)
Definition update_simple_spec (insert_item : Value) (sets : list (string * Value)) (removes : list string)
    (m : Rows) : Result BackendError UpdateOutcome * Rows :=
  let new_item := match row_at m with Some d => merged sets removes d | None => insert_item end in
  (Ok (mkUpdateOutcome new_item (row_at m)), write (Some new_item) m).

Definition insert_only_spec (insert_item : Value) (m : Rows) : Result BackendError UpdateOutcome * Rows :=
  match row_at m with
  | Some _ => (Err BackendError_ConditionalCheckFailed, m)
  | None => (Ok (mkUpdateOutcome insert_item None), write (Some insert_item) m)
  end.

(** No INSERT branch: the row must exist and the condition, as SQL, be
    true of it. *)
Definition simple_condition_spec (sets : list (string * Value)) (removes : list string) (cond : Condition)
    (m : Rows) : Result BackendError UpdateOutcome * Rows :=
  match row_at m with
  | Some d =>
      if bool_decide (cond_value3 d cond = Some true)
      then (Ok (mkUpdateOutcome (merged sets removes d) (Some d)), write (Some (merged sets removes d)) m)
      else (Err BackendError_ConditionalCheckFailed, m)
  | None => (Err BackendError_ConditionalCheckFailed, m)
  end.

Definition rmw_spec (apply : GeneralUpdateFn) (m : Rows) : Result BackendError UpdateOutcome * Rows :=
  match apply (row_at m) with
  | Ok (UpdateDecision_Apply new_item) => (Ok (mkUpdateOutcome new_item (row_at m)), write (Some new_item) m)
  | Ok UpdateDecision_Fail => (Err BackendError_ConditionalCheckFailed, m)
  | Err e => (Err e, m)
  | Panic => (Panic, m)
  end.
End specs.

(** Puts before deletes. *)
Definition apply_put (shape : TableShape) (m : Rows) (op : WriteOp) : Rows :=
  match op with WriteOp_Put pk sk item => write shape (pk, sk) (Some item) m | _ => m end.
Definition apply_delete (shape : TableShape) (m : Rows) (op : WriteOp) : Rows :=
  match op with WriteOp_Delete pk sk => write shape (pk, sk) None m | _ => m end.
Definition batch_write_spec (shape : TableShape) (ops : list WriteOp) (m : Rows)
  : Result BackendError unit * Rows :=
  (Ok tt, fold_left (apply_delete shape) ops (fold_left (apply_put shape) ops m)).

(** One write of a transaction: its effect, or the error that cancels. *)
Definition tx_step (m : Rows) (op : TransactWriteOp) : Result BackendError unit * Rows :=
  let unit_of {A} (r : Result BackendError A * Rows) : Result BackendError unit * Rows :=
    (res_map (fun _ => tt) r.1, r.2) in
  let opt_guarded {A} shape k (c : option ConditionEvalFn) (f : Rows -> Result BackendError A * Rows) :=
    match c with Some c => guarded shape k c f m | None => f m end in
  match op with
  | TransactWriteOp_Put shape pk sk item c _ => unit_of (opt_guarded shape (pk, sk) c (put_spec shape (pk, sk) item))
  | TransactWriteOp_Delete shape pk sk c _ => unit_of (opt_guarded shape (pk, sk) c (delete_spec shape (pk, sk)))
  | TransactWriteOp_ConditionCheck shape pk sk c _ => unit_of (guarded shape (pk, sk) c (get_spec shape (pk, sk)) m)
  | TransactWriteOp_Update shape pk sk apply _ => unit_of (rmw_spec shape (pk, sk) apply m)
  end.

(** The writes in request order; the position of the first that fails. *)
Fixpoint tx_run (i : nat) (m : Rows) (ops : list TransactWriteOp) : Rows + nat :=
  match ops with
  | [] => inl m
  | op :: ops' => match tx_step m op with (Ok _, m') => tx_run (S i) m' ops' | _ => inr i end
  end.

(** The steps see the rows only pointwise. *)
Lemma tx_step_proper m m' op :
  rows_eq m m' -> (tx_step m op).1 = (tx_step m' op).1 /\ rows_eq (tx_step m op).2 (tx_step m' op).2.
Proof.
  intros Hm. destruct op as [sh pk sk item [c|] b|sh pk sk [c|] b|sh pk sk c b|sh pk sk apply b]; simpl;
    unfold guarded, put_spec, delete_spec, get_spec, rmw_spec, row_at, write; rewrite <- ?(Hm (shape_table sh) (pk, sk));
    repeat case_match; simpl; (split; [done|]); try done; by rewrite Hm.
Qed.

Lemma tx_run_proper ops : forall i m m',
  rows_eq m m' ->
  match tx_run i m ops, tx_run i m' ops with
  | inl a, inl b => rows_eq a b
  | inr a, inr b => a = b
  | _, _ => False
  end.
Proof.
  induction ops as [|op ops IH]; intros i m m' Hm; [done|]. cbn [tx_run].
  destruct (tx_step_proper m m' op Hm) as [Hr Hs].
  destruct (tx_step m op) as [[u|e|] m1], (tx_step m' op) as [[u'|e'|] m1']; simpl in *; try done. by apply IH.
Qed.

(** One reason per write: [None] but for the one that failed. *)
Definition cancelled_at (n i : nat) (code : string) (reasons : list TransactCancelReason) : Prop :=
  map reason_code reasons = <[i := code]> (replicate n "None").
End rows.

(** ** The contract *)

(** The failures that are not about the request. *)
Definition unavailable {A} (r : Result BackendError A) : Prop :=
  match r with
  | Ok _ => False
  | Err (BackendError_ConditionalCheckFailed | BackendError_TransactionCancelled _) => False
  | Err _ => True
  | Panic => False
  end.

(** What the contract reads of a backend's state: the rows of the tables,
    the states a backend can be in, and the keys that can be read and
    written under a shape (those the live table has the columns for). *)
Class Storage (St : Type) : Type := {
  rows : St -> Rows;
  healthy : St -> Prop;
  readable : TableShape -> Key -> Prop;
  writable : TableShape -> Key -> Prop
}.

(** The call does what [spec] says; or it fails for a reason of its own,
    and then the write has happened whole or not at all. *)
Definition performs {St A} `{Storage St} (spec : Rows -> Result BackendError A * Rows) (call : Call St A)
    (st : St) : Prop :=
  let '(r, st') := call st in
  healthy st'
  /\ ((unavailable r /\ (rows_eq (rows st') (rows st) \/ rows_eq (rows st') (spec (rows st)).2))
      \/ (r = (spec (rows st)).1 /\ rows_eq (rows st') (spec (rows st)).2)).

Section keyed.
Context `{Base64} `{RowKeys}.

(** The document [d] belongs at the key [k]: the key columns, which
    PostgreSQL derives from it, are those of [k]. *)
Definition keyed (shape : TableShape) (k : Key) (d : Value) : Prop :=
  exists k', lek_from_row d shape = Some k' /\ same_key k k' = true.

(** What a write of a transaction stores belongs at its key, and an
    update does not panic. *)
Definition tx_op_ok (m : Rows) (op : TransactWriteOp) : Prop :=
  match op with
  | TransactWriteOp_Put shape pk sk item _ _ => keyed shape (pk, sk) item
  | TransactWriteOp_Update shape pk sk apply _ =>
      apply (row_at shape (pk, sk) m) <> Panic
      /\ forall d, apply (row_at shape (pk, sk) m) = Ok (UpdateDecision_Apply d) -> keyed shape (pk, sk) d
  | _ => True
  end.

Fixpoint tx_ok (m : Rows) (ops : list TransactWriteOp) : Prop :=
  match ops with
  | [] => True
  | op :: ops' => tx_op_ok m op /\ tx_ok (tx_step m op).2 ops'
  end.

Lemma tx_op_ok_proper m m' op : rows_eq m m' -> tx_op_ok m op -> tx_op_ok m' op.
Proof. intros Hm. destruct op; simpl; try done. unfold row_at. by rewrite (Hm _ _). Qed.

Lemma tx_ok_proper ops : forall m m', rows_eq m m' -> tx_ok m ops -> tx_ok m' ops.
Proof.
  induction ops as [|op ops IH]; intros m m' Hm; [done|]. intros [Hop Hops]. split; [by eapply tx_op_ok_proper|].
  eapply IH; [|exact Hops]. by apply tx_step_proper.
Qed.

Definition write_op_key (op : WriteOp) : Key :=
  match op with WriteOp_Put pk sk _ | WriteOp_Delete pk sk => (pk, sk) end.
Definition write_op_ok (shape : TableShape) (op : WriteOp) : Prop :=
  match op with WriteOp_Put pk sk item => keyed shape (pk, sk) item | _ => True end.

(** No two of the keys are keys of one row. *)
Definition distinct_keys (keys : list Key) : Prop :=
  forall i j k k', keys !! i = Some k -> keys !! j = Some k' -> same_key k k' = true -> i = j.

Definition tx_op_target (op : TransactWriteOp) : TableShape * Key :=
  match op with
  | TransactWriteOp_Put shape pk sk _ _ _ | TransactWriteOp_Delete shape pk sk _ _
  | TransactWriteOp_ConditionCheck shape pk sk _ _ | TransactWriteOp_Update shape pk sk _ _ => (shape, (pk, sk))
  end.
End keyed.

Class BackendContract (St : Type) `{Backend St} `{Storage St} `{RowKeys} `{Base64} `{SqlCompare} : Prop := {
  rows_by_key : forall st t k k', healthy st -> same_key k k' = true -> rows st t k = rows st t k';
  put_law : forall shape pk sk item st, healthy st -> writable shape (pk, sk) -> keyed shape (pk, sk) item ->
    performs (put_spec shape (pk, sk) item) (put_item_raw shape pk sk item) st;
  put_condition_law : forall shape pk sk item c st, healthy st -> writable shape (pk, sk) ->
    keyed shape (pk, sk) item ->
    performs (guarded shape (pk, sk) c (put_spec shape (pk, sk) item)) (put_with_condition_raw shape pk sk item c) st;
  get_law : forall shape pk sk st, healthy st -> readable shape (pk, sk) ->
    performs (get_spec shape (pk, sk)) (get_item_raw shape pk sk) st;
  delete_law : forall shape pk sk st, healthy st -> writable shape (pk, sk) ->
    performs (delete_spec shape (pk, sk)) (delete_item_raw shape pk sk) st;
  delete_condition_law : forall shape pk sk c st, healthy st -> writable shape (pk, sk) ->
    performs (guarded shape (pk, sk) c (delete_spec shape (pk, sk))) (delete_with_condition_raw shape pk sk c) st;
  update_simple_law : forall shape pk sk insert_item sets removes st, healthy st -> writable shape (pk, sk) ->
    keyed shape (pk, sk) insert_item ->
    (forall d, row_at shape (pk, sk) (rows st) = Some d -> keyed shape (pk, sk) (merged sets removes d)) ->
    performs (update_simple_spec shape (pk, sk) insert_item sets removes)
      (update_simple_raw shape pk sk insert_item sets removes) st;
  insert_only_law : forall shape k insert_item st, healthy st -> writable shape k -> keyed shape k insert_item ->
    performs (insert_only_spec shape k insert_item) (update_insert_only_raw shape insert_item) st;
  simple_condition_law : forall shape pk sk sets removes cond st, healthy st -> writable shape (pk, sk) ->
    condition_fits_sql cond = true -> paths_named cond ->
    (forall d, row_at shape (pk, sk) (rows st) = Some d -> keyed shape (pk, sk) (merged sets removes d)) ->
    performs (simple_condition_spec shape (pk, sk) sets removes cond)
      (update_with_simple_condition_raw shape pk sk sets removes cond) st;
  rmw_law : forall shape pk sk apply st, healthy st -> writable shape (pk, sk) ->
    (forall d, apply (row_at shape (pk, sk) (rows st)) = Ok (UpdateDecision_Apply d) -> keyed shape (pk, sk) d) ->
    performs (rmw_spec shape (pk, sk) apply) (update_general_rmw_raw shape pk sk apply) st;
  query_law : forall shape pk c limit esk filter forward st, healthy st ->
    let st' := (query_raw shape pk c limit esk filter forward st).2 in healthy st' /\ rows_eq (rows st') (rows st);
  scan_law : forall shape filter limit esk st, healthy st ->
    let st' := (scan_raw shape filter limit esk st).2 in healthy st' /\ rows_eq (rows st') (rows st);
  batch_write_law : forall shape ops st, healthy st -> Forall (fun op => writable shape (write_op_key op)) ops ->
    Forall (write_op_ok shape) ops ->
    performs (batch_write_spec shape ops) (batch_write_raw shape ops) st;
  batch_get_law : forall shape keys st, healthy st -> Forall (readable shape) keys ->
    let '(r, st') := batch_get_raw shape keys st in
    healthy st' /\ rows_eq (rows st') (rows st)
    /\ (unavailable r
        \/ exists items, r = Ok items
           /\ (distinct_keys keys -> items ≡ₚ omap (rows st (shape_table shape)) keys));
  transact_get_law : forall ops st, healthy st ->
    Forall (fun o => readable (tgo_shape o) (tgo_pk o, tgo_sk o)) ops ->
    performs (fun m => (Ok (map (fun o => m (shape_table (tgo_shape o)) (tgo_pk o, tgo_sk o)) ops), m))
      (transact_get_raw ops) st;
  transact_write_law : forall ops st, healthy st ->
    Forall (fun op => writable (tx_op_target op).1 (tx_op_target op).2) ops -> tx_ok (rows st) ops ->
    let '(r, st') := transact_write_raw ops st in
    healthy st' /\
    match tx_run 0 (rows st) ops with
    | inl m' =>
        (r = Ok tt /\ rows_eq (rows st') m')
        \/ (unavailable r /\ (rows_eq (rows st') (rows st) \/ rows_eq (rows st') m'))
        \/ (exists reasons i code, r = Err (BackendError_TransactionCancelled reasons)
              /\ i < length ops /\ code <> "ConditionalCheckFailed"
              /\ cancelled_at (length ops) i code reasons /\ rows_eq (rows st') (rows st))
    | inr i =>
        rows_eq (rows st') (rows st)
        /\ (unavailable r
            \/ exists reasons i' code, r = Err (BackendError_TransactionCancelled reasons)
                /\ i' <= i /\ (i' < i -> code <> "ConditionalCheckFailed")
                /\ cancelled_at (length ops) i' code reasons)
    end
}.
