(* ===== verification/Server.v ===== *)
(** * The request handlers (rekt-server, [lib.rs])

    Each handler from the parsed body to the response, over an abstract
    backend: the catalog gate, the translator, the backend call chosen by
    the plan and the response. Logging is omitted. The control-plane
    handlers and the messages of serde are parameters; so is the
    authentication chain, which [Auth] supplies. *)

From S2P Require Import Prelude RustStr BTree Json Attr Base64Std Ast Winnow Parser Reserved.
From S2P Require Import Substitute F64 EvalCondition EvalUpdate Storage Operations Schema Errors Plan Keys.
From S2P Require Import Checks KeyCondition Paging Projection Materialize Translate.
From S2P Require Import PgTypes PgSelect Query ConditionSql Catalog ApiError Backend.

(** ** Parameters *)

(** [serde_json::from_slice] for each request type (the error is its
    message), and the texts of serde's errors. *)
Class Wire : Type := {
  de_put_item : bytes -> string + PutItemRequest;
  de_get_item : bytes -> string + GetItemRequest;
  de_delete_item : bytes -> string + DeleteItemRequest;
  de_update_item : bytes -> string + UpdateItemRequest;
  de_query : bytes -> string + QueryRequest;
  de_scan : bytes -> string + ScanRequest;
  de_batch_get_item : bytes -> string + BatchGetItemRequest;
  de_batch_write_item : bytes -> string + BatchWriteItemRequest;
  de_transact_get_items : bytes -> string + TransactGetItemsRequest;
  de_transact_write_items : bytes -> string + TransactWriteItemsRequest;
  de_error_to_string : DeError -> string;
  value_debug : Value -> string
}.

Record BatchLimits : Type := mkBatchLimits {
  batch_get_max_keys : N;
  batch_write_max_requests : N;
  transact_get_max_items : N;
  transact_write_max_items : N
}.

Definition default_batch_limits : BatchLimits := mkBatchLimits 100 25 100 100.

(** The part of [AppState] the data-plane handlers read. *)
Record AppState : Type := mkAppState {
  app_catalog : CatalogSnapshot;
  app_batch_limits : BatchLimits
}.

(** ** Handlers as state-passing computations *)

Definition Run (St A : Type) : Type := St -> Result ApiError A * St.

Definition ret_result {St A} (r : Result ApiError A) : Run St A := fun st => (r, st).
Definition backend_call {St A} (c : Call St A) : Run St A :=
  fun st => let '(r, st') := c st in (map_err api_of_backend r, st').
Definition run_bind {St A B} (m : Run St A) (f : A -> Run St B) : Run St B :=
  fun st => match m st with
            | (Ok a, st') => f a st'
            | (Err e, st') => (Err e, st')
            | (Panic, st') => (Panic, st')
            end.

Declare Scope run_scope.
Delimit Scope run_scope with run.
Notation "'let!' x := c 'in' k" := (run_bind c (fun x => k))
  (at level 10, x pattern, c at level 100, k at level 200) : run_scope.
Open Scope run_scope.

Definition translated {St A} (r : Result TranslateError A) : Run St A := ret_result (map_err api_of_translate r).

Definition parse_request {St T} (parsed : string + T) (op : string) : Run St T :=
  ret_result match parsed with
             | inl e => Err (ApiError_Serialization ("invalid " +:+ op +:+ " body: " +:+ e))
             | inr req => Ok req
             end.

(** ** The catalog gate *)

Definition gate_serveable (entry : TableEntry) (table_name : string) : Result ApiError unit :=
  if te_serveable entry then Ok tt
  else Err (ApiError_ResourceNotFound ("Table not currently serveable: " +:+ table_name +:+ " ("
              +:+ default "unknown reason" (te_unserveable_reason entry) +:+ ")")).

(** [require_serveable] and [require_serveable_in_snapshot]. *)
Definition require_serveable (catalog : CatalogSnapshot) (table_name : string) : Result ApiError TableEntry :=
  let? entry := ok_or (catalog_get catalog table_name)
                  (ApiError_ResourceNotFound ("Table not found: " +:+ table_name)) in
  let? _ := gate_serveable entry table_name in
  Ok entry.

Definition gate_referenced_tables (catalog : CatalogSnapshot) (names : list string) : Result ApiError unit :=
  for_each (fun name => let? _ := require_serveable catalog name in Ok tt) names.

(** [snapshot.schemas.get(..).ok_or_else(..)]. *)
Definition schema_of (catalog : CatalogSnapshot) (table_name : string) : Result ApiError TableSchema :=
  ok_or (cs_schemas catalog !! table_name) (ApiError_ResourceNotFound ("Table not found: " +:+ table_name)).

Definition build_index_shape (schema : TableSchema) (index_sort : option IndexSort) : TableShape :=
  match index_sort with
  | None => shape schema
  | Some idx =>
      let '(pk_col, pk_ty) := match is_partition_override idx with
                              | Some p => (ic_pg_col p, ic_key_type p)
                              | None => (pk_attr schema, pk_type schema)
                              end in
      let '(sk_col, sk_ty) := match is_sort idx with
                              | Some s => (Some (ic_pg_col s), Some (ic_key_type s))
                              | None => (None, None)
                              end in
      mkTableShape (pg_table schema) pk_col pk_ty sk_col sk_ty (jsonb_col schema) []
  end.

Definition write_shape (schema : TableSchema) : TableShape := shape_with_dual_write schema (dual_write_cols schema).

(** ** Responses *)

(** A field that is omitted when it is [None]. *)
Definition opt_field (name : string) (o : option Value) : list (string * Value) :=
  match o with Some v => [(name, v)] | None => [] end.

Definition mode_debug (m : ReturnValuesMode) : string :=
  match m with
  | ReturnValuesMode_None => "None"
  | ReturnValuesMode_AllNew => "AllNew"
  | ReturnValuesMode_AllOld => "AllOld"
  | ReturnValuesMode_UpdatedNew => "UpdatedNew"
  | ReturnValuesMode_UpdatedOld => "UpdatedOld"
  end.

Definition prune_to_projection (v : Value) (keep : bset) : Value :=
  match v with
  | VObject m => VObject (List.filter (fun kv => BTreeSet.contains kv.1 keep) m)
  | other => other
  end.

Section server.
Context `{Winnow} `{Base64} `{SerdeJson} `{Wire}.

(** [serde_json::from_value::<Item>] with the error prefixed. *)
Definition decode_item (prefix : string) (v : Value) : Result ApiError Item :=
  map_err (fun e => ApiError_Internal (prefix +:+ de_error_to_string e)) (item_from_value v).

Definition invalid_item : string := "stored item is not valid DynamoDB-JSON: ".

Definition put_delete_attributes (mode : ReturnValuesMode) (old_item : option Value)
  : Result ApiError (option Item) :=
  match mode with
  | ReturnValuesMode_None => Ok None
  | ReturnValuesMode_AllOld =>
      match old_item with
      | None => Ok None
      | Some v => let? i := decode_item invalid_item v in Ok (Some i)
      end
  | _ => Err (ApiError_Internal ("unreachable ReturnValues variant for Put/Delete: " +:+ mode_debug mode))
  end.

Definition items_to_response (rows : list Value) (count_only : bool) (projection : option bset)
  : Result ApiError (list Item) :=
  if count_only then Ok []
  else collect (fun v => decode_item invalid_item
                  match projection with None => v | Some keep => prune_to_projection v keep end) rows.

(** Also [PutItemResponse] and [DeleteItemResponse], of the same shape. *)
Definition attributes_response (attributes : option Item) : Response :=
  json_ok (VObject (opt_field "Attributes" (item_to_value <$> attributes))).

Definition project_attributes (label : string) (source : option Value) (touched : bset)
  : Result ApiError (option Item) :=
  match source with
  | None => Ok None
  | Some (VObject obj) =>
      let projected := fold_left (fun p name => match BTreeMap.get name obj with
                                                | Some v => BTreeMap.insert name v p
                                                | None => p
                                                end) (BTreeSet.elements touched) [] in
      if bool_decide (projected = []) then Ok None
      else let? item := decode_item (label +:+ ": projection decode failed: ") (VObject projected) in
           Ok (Some item)
  | Some other => Err (ApiError_Internal (label +:+ ": stored value is not a JSON object (got "
                                          +:+ value_debug other +:+ ")"))
  end.

Definition build_update_response (mode : ReturnValuesMode) (outcome : UpdateOutcome) (touched : bset)
  : Result ApiError (option Item) :=
  let to_item label v := decode_item (label +:+ ": " +:+ invalid_item) v in
  match mode with
  | ReturnValuesMode_None => Ok None
  | ReturnValuesMode_AllNew => let? i := to_item "ReturnValues=ALL_NEW" (uo_new_item outcome) in Ok (Some i)
  | ReturnValuesMode_AllOld =>
      match uo_old_item outcome with
      | Some v => let? i := to_item "ReturnValues=ALL_OLD" v in Ok (Some i)
      | None => Ok None
      end
  | ReturnValuesMode_UpdatedNew =>
      project_attributes "ReturnValues=UPDATED_NEW" (Some (uo_new_item outcome)) touched
  | ReturnValuesMode_UpdatedOld => project_attributes "ReturnValues=UPDATED_OLD" (uo_old_item outcome) touched
  end.

(** ** Single-item handlers *)

Section handlers.
Context {St : Type} `{Backend St} (state : AppState).

Definition handle_put_item (body : bytes) : Run St Response :=
  let! req := parse_request (de_put_item body) "PutItem" in
  let! entry := ret_result (require_serveable (app_catalog state) (put_table_name req)) in
  let schema := te_schema entry in
  let! plan := translated (translate_put_item req schema) in
  let shape := write_shape schema in
  let! old_item := backend_call
    match pp_condition plan with
    | None => put_item_raw shape (pp_pk plan) (pp_sk plan) (pp_item_json plan)
    | Some cp => put_with_condition_raw shape (pp_pk plan) (pp_sk plan) (pp_item_json plan)
                   (fun existing => evaluate_condition existing (cp_condition cp))
    end in
  let! attributes := ret_result (put_delete_attributes (pp_return_values plan) old_item) in
  ret_result (Ok (attributes_response attributes)).

Definition handle_get_item (body : bytes) : Run St Response :=
  let! req := parse_request (de_get_item body) "GetItem" in
  let! entry := ret_result (require_serveable (app_catalog state) (get_table_name req)) in
  let schema := te_schema entry in
  let! plan := translated (translate_get_item req schema) in
  let! stored := backend_call (get_item_raw (shape schema) (gp_pk plan) (gp_sk plan)) in
  let! item := ret_result match stored with
                          | Some v => let? i := decode_item invalid_item v in Ok (Some i)
                          | None => Ok None
                          end in
  ret_result (Ok (json_ok (VObject (opt_field "Item" (item_to_value <$> item))))).

Definition handle_delete_item (body : bytes) : Run St Response :=
  let! req := parse_request (de_delete_item body) "DeleteItem" in
  let! entry := ret_result (require_serveable (app_catalog state) (delete_table_name req)) in
  let schema := te_schema entry in
  let! plan := translated (translate_delete_item req schema) in
  let shape := write_shape schema in
  let! old_item := backend_call
    match dp_condition plan with
    | None => delete_item_raw shape (dp_pk plan) (dp_sk plan)
    | Some cp => delete_with_condition_raw shape (dp_pk plan) (dp_sk plan)
                   (fun existing => evaluate_condition existing (cp_condition cp))
    end in
  let! attributes := ret_result (put_delete_attributes (dp_return_values plan) old_item) in
  ret_result (Ok (attributes_response attributes)).

(** The closure of the slow path. *)
Definition slow_apply (condition : option Condition) (expr : UpdateExpression) (key : Item)
    (wrap : EvalError -> BackendError) : GeneralUpdateFn :=
  fun existing =>
    if match condition with Some c => negb (evaluate_condition existing c) | None => false end
    then Ok UpdateDecision_Fail
    else match apply_update_expression existing expr key with
         | Ok new_item => Ok (UpdateDecision_Apply new_item)
         | Err e => Err (wrap e)
         | Panic => Panic
         end.

Definition update_response (plan : UpdateItemPlan) (outcome : UpdateOutcome) : Run St Response :=
  let! attributes := ret_result
    (build_update_response (up_return_values plan) outcome (touched_paths (up_expression plan))) in
  ret_result (Ok (attributes_response attributes)).

Definition dispatch_slow_path (schema : TableSchema) (plan : UpdateItemPlan) (key : Item) : Run St Response :=
  let! outcome := backend_call
    (update_general_rmw_raw (write_shape schema) (up_pk plan) (up_sk plan)
       (slow_apply (cp_condition <$> up_condition plan) (up_expression plan) key
          (fun e => BackendError_Other (eval_error_to_string e)))) in
  update_response plan outcome.

Definition needs_slow_path (plan : UpdateItemPlan) : bool :=
  negb (is_simple (up_expression plan))
  || match up_condition plan with
     | Some c => eqb (cp_routing c) ConditionRouting_NeedsTx
     | None => false
     end.

Definition handle_update_item (body : bytes) : Run St Response :=
  let! req := parse_request (de_update_item body) "UpdateItem" in
  let! entry := ret_result (require_serveable (app_catalog state) (update_table_name req)) in
  let schema := te_schema entry in
  let! plan := translated (translate_update_item req schema) in
  let shape := write_shape schema in
  if needs_slow_path plan then dispatch_slow_path schema plan (update_key req)
  else
    let! outcome :=
      match up_condition plan with
      | None =>
          let! prims := translated (materialize_simple_update plan (update_key req)) in
          backend_call (update_simple_raw shape (up_pk plan) (up_sk plan) (sup_insert_item prims)
                          (sup_sets prims) (sup_removes prims))
      | Some cp =>
          match cp_routing cp with
          | ConditionRouting_InsertOnlyOnPk =>
              let! insert_item := translated (materialize_insert_only_update plan (update_key req)) in
              backend_call (update_insert_only_raw shape insert_item)
          | ConditionRouting_SimpleSql =>
              let! prims := translated (materialize_simple_sql_update plan) in
              backend_call (update_with_simple_condition_raw shape (up_pk plan) (up_sk plan)
                              (ssup_sets prims) (ssup_removes prims) (cp_condition cp))
          | ConditionRouting_NeedsTx => ret_result Panic
          end
      end in
    update_response plan outcome.

(** ** Query and Scan *)

Definition filter_fn (filter : option ConditionPlan) : option FilterEvalFn :=
  (fun cp row => evaluate_condition (Some row) (cp_condition cp)) <$> filter.

Definition number (n : N) : Value := VNumber (usize_to_string n).

Definition page_response (schema : TableSchema) (count_only : bool) (projection : option bset)
    (outcome : QueryOutcome) : Run St Response :=
  let! items := ret_result (items_to_response (qo_items outcome) count_only projection) in
  let lek := (fun k => encode_lek k.1 k.2 schema) <$> qo_last_evaluated_key outcome in
  ret_result (Ok (json_ok (VObject (BTreeMap.of_list
    ([("Items", VArray (item_to_value <$> items)); ("Count", number (qo_count outcome));
      ("ScannedCount", number (qo_scanned_count outcome))]
     ++ opt_field "LastEvaluatedKey" (item_to_value <$> lek)))))).

Definition handle_query (body : bytes) : Run St Response :=
  let! req := parse_request (de_query body) "Query" in
  let! entry := ret_result (require_serveable (app_catalog state) (query_table_name req)) in
  let schema := te_schema entry in
  let! plan := translated (translate_query req schema) in
  let esk_pair := match qp_esk_sk plan with
                  | Some sk => Some (qp_pk plan, Some sk)
                  | None => (fun _ => (qp_pk plan, None)) <$> query_exclusive_start_key req
                  end in
  let shape := build_index_shape schema (qp_index_sort plan) in
  let! outcome := backend_call
    (query_raw shape (qp_pk plan) (qp_sk_condition plan) (qp_limit plan) esk_pair
       (filter_fn (qp_filter plan)) (qp_forward plan)) in
  page_response schema (qp_select_count_only plan) (qp_projection plan) outcome.

Definition handle_scan (body : bytes) : Run St Response :=
  let! req := parse_request (de_scan body) "Scan" in
  let! entry := ret_result (require_serveable (app_catalog state) (scan_table_name req)) in
  let schema := te_schema entry in
  let! plan := translated (translate_scan req schema) in
  let esk_pair := (fun pk => (pk, sp_esk_sk plan)) <$> sp_esk_pk plan in
  let shape := build_index_shape schema (sp_index_sort plan) in
  let! outcome := backend_call (scan_raw shape (filter_fn (sp_filter plan)) (sp_limit plan) esk_pair) in
  page_response schema (sp_select_count_only plan) (sp_projection plan) outcome.

(** ** Batches *)

Definition batch_get_table_items (table_plan : BatchGetPerTable) : Run St (list Item) :=
  let! schema := ret_result (schema_of (app_catalog state) (bgt_table_name table_plan)) in
  let! items := backend_call (batch_get_raw (shape schema) (bgt_keys table_plan)) in
  ret_result (items_to_response items false (bgt_projection table_plan)).

Fixpoint batch_get_tables (responses : list (string * Value)) (plans : list BatchGetPerTable)
  : Run St (list (string * Value)) :=
  match plans with
  | [] => ret_result (Ok responses)
  | p :: plans' =>
      let! items := batch_get_table_items p in
      batch_get_tables (BTreeMap.insert (bgt_table_name p) (VArray (item_to_value <$> items)) responses) plans'
  end.

Definition handle_batch_get_item (body : bytes) : Run St Response :=
  let! req := parse_request (de_batch_get_item body) "BatchGetItem" in
  let! _ := ret_result (gate_referenced_tables (app_catalog state) (bg_request_items req).*1) in
  let! plan := translated (translate_batch_get_item req (cs_schemas (app_catalog state))
                             (batch_get_max_keys (app_batch_limits state))) in
  let! responses := batch_get_tables [] (bgp_per_table plan) in
  ret_result (Ok (json_ok (VObject [("Responses", VObject responses); ("UnprocessedKeys", VObject [])]))).

Fixpoint batch_write_tables (plans : list BatchWritePerTable) : Run St unit :=
  match plans with
  | [] => ret_result (Ok tt)
  | p :: plans' =>
      let! schema := ret_result (schema_of (app_catalog state) (bwt_table_name p)) in
      let! _ := backend_call (batch_write_raw (write_shape schema) (bwt_ops p)) in
      batch_write_tables plans'
  end.

Definition handle_batch_write_item (body : bytes) : Run St Response :=
  let! req := parse_request (de_batch_write_item body) "BatchWriteItem" in
  let! _ := ret_result (gate_referenced_tables (app_catalog state) (bw_request_items req).*1) in
  let! plan := translated (translate_batch_write_item req (cs_schemas (app_catalog state))
                             (batch_write_max_requests (app_batch_limits state))) in
  let! _ := batch_write_tables (bwp_per_table plan) in
  ret_result (Ok (json_ok (VObject [("UnprocessedItems", VObject [])]))).

(** ** Transactions *)

Definition transact_get_op (p : TransactGetPlanItem) : Result ApiError TransactGetOp :=
  let? schema := schema_of (app_catalog state) (tgp_table_name p) in
  Ok (mkTransactGetOp (shape schema) (tgp_pk p) (tgp_sk p)).

Definition transact_get_slot (sp : option Value * TransactGetPlanItem) : Result ApiError Value :=
  let '(slot, p) := sp in
  let? item := match slot with
               | None => Ok None
               | Some v =>
                   let? i := decode_item ("TransactGetItems: " +:+ invalid_item)
                               match tgp_projection p with
                               | None => v
                               | Some keep => prune_to_projection v keep
                               end in
                   Ok (Some i)
               end in
  Ok (VObject (opt_field "Item" (item_to_value <$> item))).

Definition handle_transact_get_items (body : bytes) : Run St Response :=
  let! req := parse_request (de_transact_get_items body) "TransactGetItems" in
  let! _ := ret_result (gate_referenced_tables (app_catalog state)
                          (omap (fun it => tg_table_name <$> tgi_get it) (tg_transact_items req))) in
  let! plan := translated (translate_transact_get_items req (cs_schemas (app_catalog state))
                             (transact_get_max_items (app_batch_limits state))) in
  let! ops := ret_result (collect transact_get_op (tgp_items plan)) in
  let! slots := backend_call (transact_get_raw ops) in
  let! responses := ret_result (collect transact_get_slot (zip slots (tgp_items plan))) in
  ret_result (Ok (json_ok (VObject [("Responses", VArray responses)]))).

(** The table of a write, by which field is set. *)
Definition transact_write_table (it : TransactWriteItem) : option string :=
  match twi_put it, twi_delete it, twi_update it with
  | Some p, _, _ => Some (tp_table_name p)
  | None, Some d, _ => Some (td_table_name d)
  | None, None, Some u => Some (tu_table_name u)
  | None, None, None => tc_table_name <$> twi_condition_check it
  end.

Definition transact_write_op (p : TransactWritePlanItem) : Result ApiError TransactWriteOp :=
  let? schema := schema_of (app_catalog state) (twp_table_name p) in
  let sh := write_shape schema in
  let condition_fn : option ConditionEvalFn :=
    (fun cp existing => evaluate_condition existing (cp_condition cp)) <$> twp_condition p in
  match twp_kind p with
  | TransactWriteKind_Put item_json =>
      Ok (TransactWriteOp_Put sh (twp_pk p) (twp_sk p) item_json condition_fn (twp_return_old_on_failure p))
  | TransactWriteKind_Delete =>
      Ok (TransactWriteOp_Delete sh (twp_pk p) (twp_sk p) condition_fn (twp_return_old_on_failure p))
  | TransactWriteKind_ConditionCheck =>
      let? cond := expect condition_fn in
      Ok (TransactWriteOp_ConditionCheck sh (twp_pk p) (twp_sk p) cond (twp_return_old_on_failure p))
  | TransactWriteKind_Update expression key =>
      Ok (TransactWriteOp_Update sh (twp_pk p) (twp_sk p)
            (slow_apply (cp_condition <$> twp_condition p) expression key
               (fun e => BackendError_Other ("UpdateExpression eval failed: " +:+ eval_error_to_string e)))
            (twp_return_old_on_failure p))
  end.

Definition handle_transact_write_items (body : bytes) : Run St Response :=
  let! req := parse_request (de_transact_write_items body) "TransactWriteItems" in
  let! _ := ret_result (gate_referenced_tables (app_catalog state)
                          (omap transact_write_table (tw_transact_items req))) in
  let! plan := translated (translate_transact_write_items req (cs_schemas (app_catalog state))
                             (transact_write_max_items (app_batch_limits state))) in
  let! ops := ret_result (collect transact_write_op (twp_items plan)) in
  let! _ := backend_call (transact_write_raw ops) in
  ret_result (Ok (json_ok (VObject []))).

(** ** Dispatch *)

Definition TARGET_PREFIX : string := "DynamoDB_20120810.".

(** The control-plane handlers, by operation name. *)
Variable ddl_handler : string -> option (bytes -> Run St Response).

Definition data_handler (op : string) : option (bytes -> Run St Response) :=
  if String.eqb op "PutItem" then Some handle_put_item
  else if String.eqb op "GetItem" then Some handle_get_item
  else if String.eqb op "DeleteItem" then Some handle_delete_item
  else if String.eqb op "UpdateItem" then Some handle_update_item
  else if String.eqb op "Query" then Some handle_query
  else if String.eqb op "Scan" then Some handle_scan
  else if String.eqb op "BatchGetItem" then Some handle_batch_get_item
  else if String.eqb op "BatchWriteItem" then Some handle_batch_write_item
  else if String.eqb op "TransactGetItems" then Some handle_transact_get_items
  else if String.eqb op "TransactWriteItems" then Some handle_transact_write_items
  else None.

Definition ddl_ops : list string := ["CreateTable"; "DeleteTable"; "DescribeTable"; "ListTables"; "UpdateTable"].

(** The body as read (or why it could not be), what the authentication
    chain answered, and the [X-Amz-Target] header when it is text. *)
Definition dispatch {Identity : Type} (body : string + bytes) (auth : bytes -> Result AuthError Identity)
    (target : option string) : Run St Response :=
  let! body := ret_result match body with
                          | inl e => Err (ApiError_Serialization ("body read failed: " +:+ e))
                          | inr b => Ok b
                          end in
  let! _ := ret_result (map_err api_of_auth (auth body)) in
  let! target := ret_result (ok_or target (ApiError_Serialization "missing X-Amz-Target header")) in
  let! op := ret_result (ok_or (strip_prefix TARGET_PREFIX target)
                           (ApiError_UnknownOperation ("unsupported target: " +:+ target))) in
  match data_handler op with
  | Some h => h body
  | None =>
      match (if contains ddl_ops op then ddl_handler op else None) with
      | Some h => h body
      | None => ret_result (Err (ApiError_UnknownOperation ("operation `" +:+ op +:+ "` not implemented")))
      end
  end.

(** The response the client gets; a panic is caught by the outermost
    layer, [panic] being its payload. *)
Definition respond (panic : string) (h : Run St Response) (st : St) : Response * St :=
  match h st with
  | (Ok r, st') => (r, st')
  | (Err e, st') => (into_response e, st')
  | (Panic, st') => (panic_to_500 panic, st')
  end.
End handlers.
End server.
