(* ===== verification/ServerCorrect.v ===== *)
(** * Correctness of the handlers

    The handlers against the backend contract: what each leaves in the
    tables and what it answers. *)

From S2P Require Import Prelude RustStr BTree Json Attr Base64Std Ast Winnow Parser Reserved.
From S2P Require Import Substitute F64 EvalCondition EvalUpdate Storage Operations Schema Errors Plan Keys.
From S2P Require Import Checks KeyCondition Paging Projection Materialize Translate.
From S2P Require Import PgTypes PgSelect Query ConditionSql Catalog ApiError Backend Server.

(** ** Keys of documents *)

Section keys.
Context `{Base64}.

Lemma extract_key_of m attr t kv :
  BTreeMap.get attr m = Some (kv_to_av kv) -> key_type kv = t ->
  extract_key_from_jsonb (item_to_value m) attr t = Some kv.
Proof.
  intros Hg <-. unfold extract_key_from_jsonb. simpl. rewrite get_item_to_value, Hg. simpl.
  destruct kv; simpl; [done|done|]. by rewrite b64_decode_encode.
Qed.

Lemma item_to_value_inj m m' : item_to_value m = item_to_value m' -> m = m'.
Proof.
  intros Heq. assert (M_ m = M_ m') as [=]; [|done]. apply to_value_inj. by rewrite !to_value_M, Heq.
Qed.

(** The key the translator extracts is the key PostgreSQL derives. *)
Lemma item_key s item pk sk dw :
  is_key_pair item s (pk, sk) ->
  lek_from_row (item_to_value item) (shape_with_dual_write s dw) = Some (pk, sk).
Proof.
  intros (H1 & H2 & H3). unfold lek_from_row. simpl in *. rewrite (extract_key_of _ _ _ _ H1 H2). simpl.
  destruct (sk_attr s) as [a|], (sk_type s) as [t|], sk as [v|]; try done.
  destruct H3 as [H3 H4]. by rewrite (extract_key_of _ _ _ _ H3 H4).
Qed.

(** The key depends on the key attributes only. *)
Lemma lek_frame s dw v d :
  (forall a, a ∈ key_attrs s -> value_get v a = value_get d a) ->
  lek_from_row v (shape_with_dual_write s dw) = lek_from_row d (shape_with_dual_write s dw).
Proof.
  intros Hf. unfold lek_from_row, extract_key_from_jsonb. simpl.
  rewrite (Hf (pk_attr s)) by left. destruct (sk_attr s) as [a|] eqn:Ea, (sk_type s); try done.
  rewrite (Hf a); [done|]. unfold key_attrs. rewrite Ea. right. left.
Qed.
End keys.

(** ** Plans *)

Section plans.
Context `{Winnow} `{Base64}.

Lemma check_operand_named o : check_condition_operand o = Ok tt -> operand_named o.
Proof.
  destruct o as [p|v]; [|done]. simpl. unfold check_condition_path.
  destruct (is_top_level p) eqn:E; [|done]. intros _. apply is_top_level_iff in E as [n ->]. by eexists.
Qed.

Lemma check_path_named p : check_condition_path p = Ok tt -> is_Some (top_name p).
Proof. exact (check_operand_named (Operand_Path p)). Qed.

Lemma check_condition_named cond : check_condition_paths_top_level cond = Ok tt -> paths_named cond.
Proof.
  induction cond as [op l r|p|p| | | | | |a IHa c IHc|a IHa c IHc|a IHa]; simpl; try done;
    rewrite ?seq_Ok; intros; destruct_and?; auto using check_operand_named, check_path_named.
Qed.

(** The condition of a plan: routed by its shape, its paths named. *)
Lemma translate_condition_facts raw names values s cp :
  translate_condition raw names values s = Ok (Some cp) ->
  cp_routing cp = classify_condition (cp_condition cp) s /\ paths_named (cp_condition cp).
Proof.
  unfold translate_condition. intros Hc. destruct raw as [c|]; [|done]. destruct (is_blank c); [done|].
  destruct (map_err from_parse_error _); simpl in Hc; [|done..].
  destruct (map_err map_substitute_for_condition _) as [cond| |]; simpl in Hc; [|done..].
  destruct (check_condition_paths_top_level cond) as [[]| |] eqn:Hk; simpl in Hc; [|done..].
  injection Hc as <-. split; [done|]. by apply check_condition_named.
Qed.

Lemma translate_update_condition req s plan cp :
  translate_update_item req s = Ok plan -> up_condition plan = Some cp ->
  cp_routing cp = classify_condition (cp_condition cp) s /\ paths_named (cp_condition cp).
Proof.
  unfold translate_update_item. intros Hp Hc.
  destruct (resolve_update_return_values _); [|done|done].
  destruct (extract_key_pair _ _) as [[pk sk]| |]; [|done|done].
  destruct (reject_extra_key_attrs _ _) as [[]| |]; [|done|done].
  destruct (map_err from_parse_error _); [|done|done].
  destruct (map_err from_substitute_error _) as [e| |]; [|done|done].
  destruct (is_empty_update e); [done|].
  destruct (check_update_expression e s) as [[]| |]; [|done|done].
  destruct (translate_condition _ _ _ _) as [c| |] eqn:Ht; [|done|done].
  injection Hp as <-. simpl in Hc. subst c. by eapply translate_condition_facts.
Qed.

Lemma classify_simple cond s :
  classify_condition cond s = ConditionRouting_SimpleSql -> condition_fits_sql cond = true.
Proof. unfold classify_condition. destruct cond; repeat case_match; done. Qed.
End plans.

(** ** The stored rows *)

Section stored.
Context `{Base64} `{RowKeys}.

(** A document that is an item's and belongs at the key. *)
Definition typed (s : TableSchema) (k : Key) (d : Value) : Prop :=
  (exists it, d = item_to_value it) /\ keyed (shape s) k d.

Definition stored (s : TableSchema) (k : Key) (row : option Value) : Prop :=
  forall d, row = Some d -> typed s k d.

Definition table_ok (m : Rows) (s : TableSchema) : Prop := forall k, stored s k (m (pg_table s) k).

Lemma keyed_shape s dw k d : keyed (shape_with_dual_write s dw) k d <-> keyed (shape s) k d.
Proof. done. Qed.

Lemma keyed_item s item pk sk : is_key_pair item s (pk, sk) -> keyed (shape s) (pk, sk) (item_to_value item).
Proof.
  intros Hk. exists (pk, sk). split; [exact (item_key s item pk sk [] Hk)|].
  exact (reflexivity (R := fun a b => same_key a b = true) (pk, sk)).
Qed.

Lemma keyed_frame s k v d :
  (forall a, a ∈ key_attrs s -> value_get v a = value_get d a) -> keyed (shape s) k d -> keyed (shape s) k v.
Proof. intros Hf (k' & Hd & Hs). exists k'. split; [|done]. rewrite <- Hd. exact (lek_frame s [] v d Hf). Qed.
End stored.

(** ** UpdateItem *)

Section update.
Context `{Winnow} `{Base64} `{SerdeJson} `{SqlCompare} `{RowKeys}.

Definition simple_sets (e : UpdateExpression) : list (string * Value) :=
  map entry_to_value (map literal_set (ue_set e)).
Definition simple_removes (e : UpdateExpression) : list string := map removed_name (ue_remove e).

Lemma get_insert_all_absent {V} (l : list (string * V)) mp a :
  a ∉ BTreeMap.keys l -> BTreeMap.get a (BTreeMap.insert_all l mp) = BTreeMap.get a mp.
Proof.
  revert mp. induction l as [|[n v] l IH]; intros mp Ha; [done|]. simpl in *. rewrite IH by set_solver.
  rewrite BTreeMap.get_insert. case_decide; set_solver.
Qed.

Lemma literal_keys e a :
  is_simple e = true -> a ∈ BTreeMap.keys (map literal_set (ue_set e)) -> a ∈ set_targets e.
Proof.
  intros (_ & _ & Hs & _)%is_simple_inv. unfold set_targets.
  induction Hs as [|c cs (n & v & ->) Hcs IH]; [done|]. simpl. rewrite !elem_of_cons. naive_solver.
Qed.

(** A simple expression on a stored item is the SQL merge. *)
Lemma simple_update_existing e it key :
  is_simple e = true ->
  apply_update_expression (row_value (Some it)) e key
  = Ok (merged (simple_sets e) (simple_removes e) (item_to_value it)).
Proof.
  intros Hs. rewrite apply_update_refines, (update_item_simple _ _ _ Hs). simpl.
  unfold item_to_value, simple_sets. by rewrite insert_all_refines, removes_item_to_value.
Qed.

Lemma simple_update_missing e key :
  is_simple e = true -> disjoint_removes e key ->
  apply_update_expression None e key = Ok (insert_sets key (simple_sets e)).
Proof.
  intros Hs Hd. change (@None Value) with (row_value None).
  rewrite apply_update_refines, (update_item_simple _ _ _ Hs). simpl. do 2 f_equal.
  unfold insert_sets, item_to_value, simple_sets. rewrite insert_all_refines. do 2 f_equal.
  apply removes_absent. intros n Hn [Hx|Hx]%keys_insert_all; by destruct (Hd n Hn).
Qed.

(** When the one-statement routes agree with the evaluator. On a missing
    row the INSERT branch ignores REMOVE, and the conditional UPDATE has
    no INSERT branch; on a stored row the SQL condition must be known
    under NOT and order the values as the evaluator does. *)
Definition routes_agree (plan : UpdateItemPlan) (key : Item) (row : option Item) : Prop :=
  is_simple (up_expression plan) = true ->
  match up_condition plan with
  | None => row = None -> disjoint_removes (up_expression plan) key
  | Some cp =>
      match cp_routing cp with
      | ConditionRouting_InsertOnlyOnPk => row = None -> disjoint_removes (up_expression plan) key
      | ConditionRouting_SimpleSql =>
          match row with
          | None => evaluate_condition None (cp_condition cp) = false
          | Some it => orders_agree it (cp_condition cp) /\ nots_known it (cp_condition cp)
          end
      | ConditionRouting_NeedsTx => True
      end
  end.

(** UpdateItem on one row: the condition, then the update expression. *)
Definition update_semantics (plan : UpdateItemPlan) (key : Item) : GeneralUpdateFn :=
  slow_apply (cp_condition <$> up_condition plan) (up_expression plan) key
    (fun e => BackendError_Other (eval_error_to_string e)).

Lemma stored_item s k row : stored s k row ->
  exists it, row = row_value it /\ forall i, it = Some i -> keyed (shape s) k (item_to_value i).
Proof.
  intros Hs. destruct row as [d|]; [|exists None; naive_solver].
  destruct (Hs d eq_refl) as [[it ->] Hk]. exists (Some it). naive_solver.
Qed.

(** Whatever an accepted update computes is an item and stays at its
    key. *)
Lemma update_typed s k e key it_row v :
  is_key_pair key s k -> accepted_update e s ->
  (forall it, it_row = Some it -> keyed (shape s) k (item_to_value it)) ->
  apply_update_expression (row_value it_row) e key = Ok v -> typed s k v.
Proof.
  intros Hk Hacc Hrow Hv. rewrite apply_update_refines in Hv.
  destruct (update_item it_row e key) as [it| |] eqn:Hit; [|done..].
  injection Hv as <-. split; [by exists it|].
  eapply (keyed_frame _ _ _ (item_to_value (default key it_row))).
  - intros a Ha. simpl. rewrite !get_item_to_value. f_equal. apply (update_item_frame _ _ _ _ _ Hit).
    intros Ht. by apply (accepted_update_targets _ _ _ Hacc Ht).
  - destruct it_row; [by apply Hrow|]. destruct k. by apply keyed_item.
Qed.

Lemma slow_apply_typed s k cond e key wrap row d :
  is_key_pair key s k -> accepted_update e s -> stored s k row ->
  slow_apply cond e key wrap row = Ok (UpdateDecision_Apply d) -> typed s k d.
Proof.
  intros Hk Hacc (it & -> & Hit)%stored_item. unfold slow_apply.
  destruct (match cond with Some _ => _ | None => _ end); [done|].
  destruct (apply_update_expression _ _ _) as [v| |] eqn:Hv; [|done..]. intros [= <-].
  by eapply update_typed.
Qed.

Lemma slow_apply_no_panic s k cond e key wrap row :
  accepted_update e s -> stored s k row -> slow_apply cond e key wrap row <> Panic.
Proof.
  intros Hacc (it & -> & _)%stored_item. unfold slow_apply.
  destruct (match cond with Some _ => _ | None => _ end); [done|]. rewrite apply_update_refines.
  pose proof (update_item_no_panic it e key (accepted_update_named _ _ Hacc)). by destruct (update_item it e key).
Qed.

Context (s : TableSchema) (req : UpdateItemRequest) (plan : UpdateItemPlan).
Hypothesis Hplan : translate_update_item req s = Ok plan.

Let k : Key := (up_pk plan, up_sk plan).
Let sh := write_shape s.

Lemma semantics_typed row d :
  stored s k row -> update_semantics plan (update_key req) row = Ok (UpdateDecision_Apply d) ->
  typed s k d.
Proof.
  destruct (translate_update_facts _ _ _ Hplan) as (Hk & _ & Hacc & _).
  by apply slow_apply_typed.
Qed.

(** Each one-statement route computes the evaluator's result. *)
Section routes.
Variables (m : Rows) (it : option Item).
Hypothesis Hrow : row_at sh k m = row_value it.
Hypothesis Hit : forall i, it = Some i -> keyed (shape s) k (item_to_value i).
Hypothesis Hagree : routes_agree plan (update_key req) it.
Hypothesis Hsimple : is_simple (up_expression plan) = true.

Let e := up_expression plan.
Let key := update_key req.

Lemma simple_route :
  up_condition plan = None ->
  update_simple_spec sh k (insert_sets key (simple_sets e)) (simple_sets e) (simple_removes e) m
  = rmw_spec sh k (update_semantics plan key) m.
Proof.
  intros Hc. unfold key, e, update_simple_spec, rmw_spec, update_semantics, slow_apply. rewrite Hrow, Hc.
  specialize (Hagree Hsimple). rewrite Hc in Hagree. destruct it as [i|]; cbn [fmap option_fmap option_map].
  - by rewrite (simple_update_existing _ _ _ Hsimple).
  - change (row_value None) with (@None Value). by rewrite (simple_update_missing _ _ Hsimple (Hagree eq_refl)).
Qed.

Lemma insert_only_route cp :
  up_condition plan = Some cp -> cp_routing cp = ConditionRouting_InsertOnlyOnPk ->
  insert_only_spec sh k (insert_sets key (simple_sets e)) m = rmw_spec sh k (update_semantics plan key) m.
Proof.
  intros Hc Hr. destruct (translate_update_condition _ _ _ _ Hplan Hc) as [Hcl _]. rewrite Hr in Hcl.
  unfold key, e, insert_only_spec, rmw_spec, update_semantics, slow_apply. rewrite Hrow, Hc.
  cbn [fmap option_fmap option_map]. specialize (Hagree Hsimple). rewrite Hc, Hr in Hagree.
  pose proof (insert_only_routing_correct (cp_condition cp) s it (eq_sym Hcl)) as Hroute.
  assert (Hpk : forall i, it = Some i -> is_Some (BTreeMap.get (pk_attr s) i)).
  { intros i Hi. destruct (Hit i Hi) as (k' & Hl & _). unfold lek_from_row, extract_key_from_jsonb in Hl.
    simpl in Hl. rewrite get_item_to_value in Hl. by destruct (BTreeMap.get (pk_attr s) i). }
  specialize (Hroute Hpk). destruct it as [i|].
  - change (row_value (Some i)) with (Some (item_to_value i)) in *.
    destruct (evaluate_condition (Some (item_to_value i)) (cp_condition cp)) ; [|done].
    discriminate (proj1 Hroute eq_refl).
  - change (row_value None) with (@None Value) in *.
    assert (evaluate_condition None (cp_condition cp) = true) as -> by by apply Hroute. cbn [negb].
    by rewrite (simple_update_missing _ _ Hsimple (Hagree eq_refl)).
Qed.

Lemma sql_route cp :
  up_condition plan = Some cp -> cp_routing cp = ConditionRouting_SimpleSql ->
  simple_condition_spec sh k (simple_sets e) (simple_removes e) (cp_condition cp) m
  = rmw_spec sh k (update_semantics plan key) m.
Proof.
  intros Hc Hr. destruct (translate_update_condition _ _ _ _ Hplan Hc) as [Hcl Hnamed].
  rewrite Hr in Hcl. symmetry in Hcl. apply classify_simple in Hcl.
  unfold key, e, simple_condition_spec, rmw_spec, update_semantics, slow_apply. rewrite Hrow, Hc.
  cbn [fmap option_fmap option_map]. specialize (Hagree Hsimple). rewrite Hc, Hr in Hagree. destruct it as [i|].
  - destruct Hagree as [Ho Hn].
    change (row_value (Some i)) with (Some (item_to_value i)).
    pose proof (positive_or_null i _ Hcl Hnamed Ho Hn) as Hv.
    pose proof (simple_update_existing _ i (update_key req) Hsimple) as Hnew.
    change (row_value (Some i)) with (Some (item_to_value i)) in Hnew.
    cbv beta iota. case_bool_decide as Hb; destruct Hv as [Hv|[Hv ->]]; rewrite Hv in Hb; try done.
    + injection Hb as ->. cbn [negb]. by rewrite Hnew.
    + by destruct (evaluate_condition _ _).
  - change (row_value None) with (@None Value). by rewrite Hagree.
Qed.

(** What the routes write is an item at the key. *)
Lemma merged_typed d :
  row_at sh k m = Some d -> typed s k (merged (simple_sets e) (simple_removes e) d).
Proof.
  clear Hagree. rewrite Hrow. intros Hd. destruct it as [i|]; [|done]. injection Hd as <-.
  destruct (translate_update_facts _ _ _ Hplan) as (Hk & _ & Hacc & _).
  apply (update_typed s k e key (Some i)); [done|done|naive_solver|].
  exact (simple_update_existing _ i (update_key req) Hsimple).
Qed.

Lemma insert_typed : typed s k (insert_sets key (simple_sets e)).
Proof.
  destruct (translate_update_facts _ _ _ Hplan) as (Hk & _ & Hacc & _).
  assert (Hi : insert_sets key (simple_sets e)
               = item_to_value (BTreeMap.insert_all (map literal_set (ue_set e)) key)).
  { unfold insert_sets, simple_sets, item_to_value. by rewrite insert_all_refines. }
  rewrite Hi. split; [by eexists|]. eapply (keyed_frame _ _ _ (item_to_value key)); [|by apply keyed_item].
  intros a Ha. simpl. rewrite !get_item_to_value. f_equal.
  rewrite get_insert_all_absent; [done|]. intros Hin.
  apply (accepted_update_targets _ _ a Hacc); [|done]. apply elem_of_app. left.
  by apply literal_keys.
Qed.
End routes.
End update.

Section materialized.
Context `{Base64}.

Lemma materialize_simple_eq plan key :
  is_simple (up_expression plan) = true -> up_condition plan = None ->
  materialize_simple_update plan key
  = Ok (mkSimpleUpdatePrimitives (insert_sets key (simple_sets (up_expression plan)))
          (simple_sets (up_expression plan)) (simple_removes (up_expression plan))).
Proof.
  intros Hs Hc. rewrite (materialize_simple_Ok plan key Hs Hc). do 2 f_equal.
  unfold insert_sets, item_to_value, simple_sets. by rewrite insert_all_refines.
Qed.

Lemma materialize_insert_only_eq plan key cp :
  is_simple (up_expression plan) = true -> up_condition plan = Some cp ->
  cp_routing cp = ConditionRouting_InsertOnlyOnPk ->
  materialize_insert_only_update plan key = Ok (insert_sets key (simple_sets (up_expression plan))).
Proof.
  intros Hs Hc Hr. unfold materialize_insert_only_update, build_insert_item. rewrite Hs, Hc. simpl. rewrite Hr. simpl.
  apply is_simple_inv in Hs as (_ & _ & Hss & _). by destruct (simple_sets_Ok _ Hss) as [-> _].
Qed.

Lemma materialize_sql_eq plan cp :
  is_simple (up_expression plan) = true -> up_condition plan = Some cp ->
  cp_routing cp = ConditionRouting_SimpleSql ->
  materialize_simple_sql_update plan
  = Ok (mkSimpleSqlUpdatePrimitives (simple_sets (up_expression plan)) (simple_removes (up_expression plan))).
Proof.
  intros Hs Hc Hr. unfold materialize_simple_sql_update, build_sets_removes. rewrite Hs, Hc. simpl. rewrite Hr. simpl.
  apply is_simple_inv in Hs as (_ & _ & Hss & Hrr). destruct (simple_sets_Ok _ Hss) as [-> _].
  by destruct (simple_removes_Ok _ Hrr) as [-> _].
Qed.
End materialized.

(** ** Handlers and the contract *)

(** The handler reports a failure of the backend. *)
Definition backend_failed {A} (r : Result ApiError A) : Prop :=
  exists e, unavailable (A := unit) (Err e) /\ r = Err (api_of_backend e).

(** A handler does to the rows what [spec] says and answers accordingly;
    or it reports a backend failure, the write done whole or not at all. *)
Definition handled {St X} `{Storage St} (spec : Rows -> Result BackendError X * Rows)
    (answer : Result BackendError X -> Result ApiError Response) (h : Run St Response) (st : St) : Prop :=
  let '(r, st') := h st in
  healthy st'
  /\ ((backend_failed r /\ (rows_eq (rows st') (rows st) \/ rows_eq (rows st') (spec (rows st)).2))
      \/ (r = answer (spec (rows st)).1 /\ rows_eq (rows st') (spec (rows st)).2)).

Definition answering {X} (g : X -> Result ApiError Response) (r : Result BackendError X) : Result ApiError Response :=
  let? a := map_err api_of_backend r in g a.

Lemma handled_call {St X} `{Storage St} spec (call : Call St X) f (g : X -> Result ApiError Response) st :
  performs spec call st -> (forall a st', f a st' = (g a, st')) ->
  handled spec (answering g) (run_bind (backend_call call) f) st.
Proof.
  unfold performs, handled, run_bind, backend_call, answering. intros Hp Hf.
  destruct (call st) as [r st']. destruct Hp as [Hh [[Hu Hr]|[-> Hr]]].
  - destruct r as [a|e|]; [done| |done]. simpl. split; [done|]. left. split; [|done]. by exists e.
  - destruct (spec (rows st)).1 as [a|e|]; simpl; [rewrite Hf|..]; (split; [done|]); by right.
Qed.

Lemma handled_spec {St X} `{Storage St} spec spec' answer (h : Run St Response) st :
  spec' (rows st) = spec (rows st) -> handled (X := X) spec' answer h st -> handled spec answer h st.
Proof. unfold handled. intros ->. done. Qed.

(** Steps that do not call the backend. *)
Lemma bind_ok {St A B} (a : A) (f : A -> Run St B) : run_bind (ret_result (Ok a)) f = f a.
Proof. done. Qed.
Lemma run_bind_ext {St A B} (m : Run St A) (f : A -> Run St B) st :
  run_bind m f st = match m st with (Ok a, st') => f a st' | (Err e, st') => (Err e, st')
                               | (Panic, st') => (Panic, st') end.
Proof. done. Qed.

Section correct.
Context `{Winnow} `{Base64} `{SerdeJson} `{Wire} `{SqlCompare} `{RowKeys}.
Context {St : Type} `{Backend St} `{!Storage St} `{!BackendContract St} (state : AppState).

Definition respond_attributes (r : Result ApiError (option Item)) : Result ApiError Response :=
  res_map attributes_response r.

Lemma respond_run (r : Result ApiError (option Item)) (st : St) :
  run_bind (ret_result r) (fun a => ret_result (Ok (attributes_response a))) st = (respond_attributes r, st).
Proof. by destruct r. Qed.

(** C8: UpdateItem does what its expression says, wherever the routes
    agree. For an accepted request on a serveable table, the row afterwards and the
    answer are those of the evaluator on the current row (a failed
    condition is a ConditionalCheckFailedException and changes nothing;
    otherwise the new row is the one the expression computes and the
    answer has the attributes [ReturnValues] asks for), whether the
    request went through the one-statement upsert, the insert-only
    statement, the conditional UPDATE or the read-modify-write
    transaction; [routes_agree] leaves out the cases in which a
    one-statement route is known to differ: an attribute both set and
    removed on a missing row, a SQL condition that holds of a missing row,
    and on a stored row a NOT over a missing attribute or an ordering of
    values the SQL comparison and the evaluator order differently. The only
    other answer is a failure of the backend, and then the
    write has happened whole or not at all. *)
Theorem update_item_refines body req entry plan row st :
  de_update_item body = inr req ->
  require_serveable (app_catalog state) (update_table_name req) = Ok entry ->
  translate_update_item req (te_schema entry) = Ok plan ->
  healthy st -> writable (write_shape (te_schema entry)) (up_pk plan, up_sk plan) ->
  table_ok (rows st) (te_schema entry) ->
  rows st (pg_table (te_schema entry)) (up_pk plan, up_sk plan) = row_value row ->
  routes_agree plan (update_key req) row ->
  handled (rmw_spec (write_shape (te_schema entry)) (up_pk plan, up_sk plan)
                  (update_semantics plan (update_key req)))
    (answering (fun o => respond_attributes
       (build_update_response (up_return_values plan) o (touched_paths (up_expression plan)))))
    (handle_update_item state body) st.
Proof.
  intros Hde Hent Hplan Hh Hw Htab Hrow Hagree. unfold handle_update_item.
  rewrite Hde. unfold parse_request. rewrite bind_ok, Hent, bind_ok.
  unfold translated at 1. rewrite Hplan. cbn [map_err]. rewrite bind_ok.
  set (s := te_schema entry) in *. cbv zeta.
  assert (Hrow' : row_at (write_shape s) (up_pk plan, up_sk plan) (rows st) = row_value row) by exact Hrow.
  pose proof (Htab (up_pk plan, up_sk plan)) as Hst. rewrite Hrow in Hst.
  assert (Hit : forall i, row = Some i -> keyed (shape s) (up_pk plan, up_sk plan) (item_to_value i)).
  { intros i ->. by destruct (Hst _ eq_refl) as [_ Hk]. }
  destruct (needs_slow_path plan) eqn:Hslow.
  { unfold dispatch_slow_path. apply handled_call.
    - apply rmw_law; [done..|]. intros d Hd. rewrite Hrow' in Hd. eapply semantics_typed; [exact Hplan|exact Hst|exact Hd].
    - intros o st'. apply respond_run. }
  apply orb_false_iff in Hslow as [Hsimple Hcond]. apply negb_false_iff in Hsimple.
  destruct (up_condition plan) as [cp|] eqn:Hc; [destruct (cp_routing cp) eqn:Hr|].
  - unfold translated. rewrite (materialize_insert_only_eq _ _ _ Hsimple Hc Hr). cbn [map_err]. rewrite bind_ok.
    eapply handled_spec; [eapply insert_only_route; eassumption|].
    apply handled_call; [|intros o st'; apply respond_run].
    apply insert_only_law; [done..|]. eapply insert_typed; eassumption.
  - unfold translated. rewrite (materialize_sql_eq _ _ Hsimple Hc Hr). cbn [map_err]. rewrite bind_ok.
    eapply handled_spec; [eapply sql_route; eassumption|].
    apply handled_call; [|intros o st'; apply respond_run].
    destruct (translate_update_condition _ _ _ _ Hplan Hc) as [Hcl Hnamed]. rewrite Hr in Hcl.
    apply simple_condition_law; [done|done|by apply (classify_simple _ s)|done|].
    intros d Hd; eapply merged_typed; eassumption.
  - done.
  - unfold translated. rewrite (materialize_simple_eq _ _ Hsimple Hc). cbn [map_err]. rewrite bind_ok.
    eapply handled_spec; [eapply simple_route; eassumption|].
    apply handled_call; [|intros o st'; apply respond_run].
    apply update_simple_law; [done|done|eapply insert_typed; eassumption|].
    intros d Hd; eapply merged_typed; eassumption.
Qed.
(** an update expression that does not fit the row (a number operand
    that is missing or not a number, an ADD to a string, ...) is answered
    with an InternalServerError of status 500 carrying the evaluator's
    message, and changes nothing; the same mistake found by the translator
    is a ValidationException of status 400, as in DynamoDB. *)
Theorem evaluation_errors_answer_500 body req entry plan row st e :
  de_update_item body = inr req ->
  require_serveable (app_catalog state) (update_table_name req) = Ok entry ->
  translate_update_item req (te_schema entry) = Ok plan -> needs_slow_path plan = true ->
  healthy st -> writable (write_shape (te_schema entry)) (up_pk plan, up_sk plan) ->
  rows st (pg_table (te_schema entry)) (up_pk plan, up_sk plan) = row ->
  (forall cp, up_condition plan = Some cp -> evaluate_condition row (cp_condition cp) = true) ->
  apply_update_expression row (up_expression plan) (update_key req) = Err e ->
  let '(r, st') := handle_update_item state body st in
  rows_eq (rows st') (rows st)
  /\ (backend_failed r \/ r = Err (ApiError_Internal (eval_error_to_string e)))
  /\ http_status (ApiError_Internal (eval_error_to_string e)) = 500%N
  /\ (forall t, http_status (api_of_translate t) = 400%N).
Proof.
  intros Hde Hent Hplan Hslow Hh Hw Hrow Hcond Herr. unfold handle_update_item, parse_request, translated.
  rewrite Hde, bind_ok, Hent, bind_ok, Hplan. cbn [map_err]. rewrite bind_ok, Hslow. cbv zeta.
  set (sem := update_semantics plan (update_key req)).
  assert (Hsem : sem row = Err (BackendError_Other (eval_error_to_string e))).
  { unfold sem, update_semantics, slow_apply. destruct (up_condition plan) as [cp|]; simpl.
    - by rewrite (Hcond cp eq_refl), Herr.
    - by rewrite Herr. }
  assert (Hspec : rmw_spec (write_shape (te_schema entry)) (up_pk plan, up_sk plan) sem (rows st)
                  = (Err (BackendError_Other (eval_error_to_string e)), rows st)).
  { unfold rmw_spec, row_at. cbn [shape_table write_shape shape_with_dual_write]. by rewrite Hrow, Hsem. }
  assert (Hlaw : performs (rmw_spec (write_shape (te_schema entry)) (up_pk plan, up_sk plan) sem)
                   (update_general_rmw_raw (write_shape (te_schema entry)) (up_pk plan) (up_sk plan) sem) st).
  { apply rmw_law; [done..|]. unfold row_at. cbn [shape_table write_shape shape_with_dual_write]. rewrite Hrow, Hsem. done. }
  unfold performs in Hlaw. rewrite Hspec in Hlaw. unfold dispatch_slow_path. fold (update_semantics plan (update_key req)).
  fold sem. unfold run_bind at 1, backend_call. destruct (update_general_rmw_raw _ _ _ sem st) as [r st'].
  assert (Ht : forall t, http_status (api_of_translate t) = 400%N) by (intros t; by destruct t).
  destruct Hlaw as [_ [[Hu [Hr|Hr]]|[-> Hr]]]; [destruct r; [done| |done]..|]; simpl in *; split_and!; auto.
  - left. by eexists.
  - left. by eexists.
Qed.
End correct.

(** ** The store invariant *)

Section store.
Context `{Base64} `{RowKeys}.

(** One row of a table is removed or replaced by an item that belongs
    there. *)
Definition write_step (s : TableSchema) (m m' : Rows) : Prop :=
  exists k o, rows_eq m' (set_row (pg_table s) k o m) /\ forall d, o = Some d -> typed s k d.

Variable schemas : gmap string TableSchema.

(** A sequence of such writes to tables of the catalog. *)
Inductive writes : Rows -> Rows -> Prop :=
| writes_done m m' : rows_eq m' m -> writes m m'
| writes_step m m1 m2 t s : schemas !! t = Some s -> write_step s m m1 -> writes m1 m2 -> writes m m2.

Definition store_ok (m : Rows) : Prop := forall t s, schemas !! t = Some s -> table_ok m s.

(** No two tables of the catalog share a PostgreSQL table. *)
Definition tables_distinct : Prop :=
  forall t1 t2 s1 s2, schemas !! t1 = Some s1 -> schemas !! t2 = Some s2 -> pg_table s1 = pg_table s2 -> s1 = s2.

Lemma typed_same_key s k k' d : same_key k k' = true -> typed s k d -> typed s k' d.
Proof.
  intros Hk [Hi (k0 & Hl & Hs)]. split; [done|]. exists k0. split; [done|].
  eapply same_key_trans; [by apply same_key_sym|done].
Qed.

Lemma store_ok_proper m m' : rows_eq m m' -> store_ok m -> store_ok m'.
Proof. intros Hm Hok t s Hs k d. rewrite <- Hm. by apply (Hok t s Hs k). Qed.

Lemma write_step_ok t s m m' :
  tables_distinct -> schemas !! t = Some s -> write_step s m m' -> store_ok m -> store_ok m'.
Proof.
  intros Hdist Hs (k & o & Hm & Ho) Hok t' s' Hs' k' d. rewrite Hm. unfold set_row.
  destruct (String.eqb_spec (pg_table s) (pg_table s')) as [Heq|_]; [|by apply (Hok t' s' Hs' k')].
  destruct (same_key k k') eqn:Hk; [|by apply (Hok t' s' Hs' k')]. simpl. intros Hd.
  rewrite <- (Hdist t t' s s' Hs Hs' Heq). eapply typed_same_key; [exact Hk|]. by apply Ho.
Qed.

Lemma writes_ok m m' : tables_distinct -> writes m m' -> store_ok m -> store_ok m'.
Proof.
  intros Hdist. induction 1 as [m m' Hm|m m1 m2 t s Hs Hw Hws IH]; intros Hok.
  - by eapply store_ok_proper.
  - apply IH. by eapply write_step_ok.
Qed.

Lemma writes_refl m : writes m m.
Proof. by constructor. Qed.

Lemma writes_proper m1 m1' m2 m2' : rows_eq m1' m1 -> rows_eq m2' m2 -> writes m1 m2 -> writes m1' m2'.
Proof.
  intros H1 H2 Hw. revert m1' m2' H1 H2. induction Hw as [m m' Hm|m ma mb t s Hs (k & o & Hw & Ho) Hws IH]; intros.
  - constructor. by rewrite H2, Hm, H1.
  - apply (writes_step _ ma _ t s); [done| |by apply IH]. exists k, o. split; [|done]. by rewrite Hw, H1.
Qed.

Lemma writes_trans m1 m2 m3 : writes m1 m2 -> writes m2 m3 -> writes m1 m3.
Proof.
  induction 1 as [m m' Hm|m ma mb t s Hs Hw Hws IH]; intros H3.
  - by eapply writes_proper; [|reflexivity|exact H3].
  - apply (writes_step _ ma _ t s); auto.
Qed.

Lemma writes_one t s k o m :
  schemas !! t = Some s -> (forall d, o = Some d -> typed s k d) -> writes m (set_row (pg_table s) k o m).
Proof.
  intros Hs Ho. eapply writes_step; [exact Hs| |apply writes_refl]. by exists k, o.
Qed.
End store.

Section preserve.
Context `{Winnow} `{Base64} `{SerdeJson} `{Wire} `{SqlCompare} `{RowKeys}.
Context {St : Type} `{Backend St} `{!Storage St} `{!BackendContract St} (state : AppState).

(** The catalog's two maps agree, as [from_entries] builds them. *)
Let schemas := cs_schemas (app_catalog state).
Hypothesis Hcat : schemas = te_schema <$> cs_entries (app_catalog state).
Hypothesis Hdist : tables_distinct schemas.

(** A key of the table: that of some item. *)
Definition fits (s : TableSchema) (k : Key) : Prop := exists item, is_key_pair item s k.

Lemma fits_of item s k : is_key_pair item s k -> fits s k.
Proof. by exists item. Qed.

(** The tables of the catalog exist as it describes them. *)
Definition catalog_live : Prop := forall t s k, schemas !! t = Some s -> fits s k ->
  writable (write_shape s) k /\ readable (shape s) k.
Hypothesis Hlive : catalog_live.

Lemma live_write t s k : schemas !! t = Some s -> fits s k -> writable (write_shape s) k.
Proof. intros Hs Hk. by apply (Hlive t s k). Qed.
Lemma live_read t s k : schemas !! t = Some s -> fits s k -> readable (shape s) k.
Proof. intros Hs Hk. by apply (Hlive t s k). Qed.

(** A call from [st] leaves a healthy state and only performs writes of
    the store. *)
Definition safe (st st' : St) : Prop := healthy st' /\ writes schemas (rows st) (rows st').
Definition well_behaved {A} (h : Run St A) (st : St) : Prop := healthy st -> safe st (h st).2.

Lemma safe_refl st : healthy st -> safe st st.
Proof. intros Hh. split; [done|apply writes_refl]. Qed.

Lemma well_behaved_ret {A} (r : Result ApiError A) st : well_behaved (ret_result r) st.
Proof. exact (safe_refl st). Qed.

Lemma well_behaved_bind {A B} (m : Run St A) (f : A -> Run St B) st :
  well_behaved m st -> (forall a st', m st = (Ok a, st') -> well_behaved (f a) st') -> well_behaved (run_bind m f) st.
Proof.
  unfold well_behaved, run_bind. intros Hm Hf Hh. specialize (Hm Hh).
  destruct (m st) as [[a|e|] st'] eqn:E; [|done..]. destruct Hm as [Hh' Hw].
  destruct (Hf a st' eq_refl Hh') as [Hh2 Hw2]. split; [done|]. by eapply writes_trans.
Qed.

Lemma well_behaved_pure {A B} (r : Result ApiError A) (f : A -> Run St B) st :
  (forall a, r = Ok a -> well_behaved (f a) st) -> well_behaved (run_bind (ret_result r) f) st.
Proof.
  intros Hf. apply well_behaved_bind; [apply well_behaved_ret|]. intros a st' [= -> <-]. by apply Hf.
Qed.

Lemma performs_safe {X} spec (call : Call St X) st :
  performs spec call st -> writes schemas (rows st) (spec (rows st)).2 -> safe st (call st).2.
Proof.
  unfold performs. destruct (call st) as [r st']. simpl. intros [Hh [[_ [Hr|Hr]]|[_ Hr]]] Hw; split; try done.
  - by constructor.
  - by eapply writes_proper; [reflexivity|exact Hr|].
  - by eapply writes_proper; [reflexivity|exact Hr|].
Qed.

Lemma backend_call_safe {A} (c : Call St A) st :
  (healthy st -> safe st (c st).2) -> well_behaved (backend_call c) st.
Proof. unfold well_behaved, backend_call. by destruct (c st). Qed.

Lemma well_behaved_call {A B} (c : Call St A) (f : A -> Run St B) st :
  (healthy st -> safe st (c st).2) -> (forall a st', well_behaved (f a) st') ->
  well_behaved (run_bind (backend_call c) f) st.
Proof. intros Hc Hf. apply well_behaved_bind; [by apply backend_call_safe|intros; apply Hf]. Qed.

Lemma well_behaved_pure_end {A B} (r : Result ApiError A) (f : A -> Result ApiError B) st :
  well_behaved (run_bind (ret_result r) (fun a => ret_result (f a))) st.
Proof. apply well_behaved_pure. intros. apply well_behaved_ret. Qed.

Lemma serveable_schema n entry :
  require_serveable (app_catalog state) n = Ok entry -> schemas !! n = Some (te_schema entry).
Proof.
  unfold require_serveable, catalog_get. rewrite Hcat, lookup_fmap.
  destruct (cs_entries (app_catalog state) !! n); simpl; [|done].
  destruct (gate_serveable _ _); [|done..]. by intros [= ->].
Qed.

(** The specs of the single-row calls. *)
Section one_row.
Variables (t : string) (s : TableSchema) (k : Key).
Hypothesis Hs : schemas !! t = Some s.

Lemma write_writes v m : (forall d, v = Some d -> typed s k d) -> writes schemas m (write (write_shape s) k v m).
Proof. apply (writes_one _ t s k v m Hs). Qed.

Lemma put_writes item m : typed s k item -> writes schemas m (put_spec (write_shape s) k item m).2.
Proof. intros Ht. apply write_writes. by intros d [= <-]. Qed.

Lemma delete_writes m : writes schemas m (delete_spec (write_shape s) k m).2.
Proof. by apply write_writes. Qed.

Lemma guarded_writes {A} c (f : Rows -> Result BackendError A * Rows) m :
  writes schemas m (f m).2 -> writes schemas m (guarded (write_shape s) k c f m).2.
Proof. unfold guarded. destruct (c _); [done|]. intros. apply writes_refl. Qed.

Lemma rmw_writes apply m :
  (forall d, apply (row_at (write_shape s) k m) = Ok (UpdateDecision_Apply d) -> typed s k d) ->
  writes schemas m (rmw_spec (write_shape s) k apply m).2.
Proof.
  unfold rmw_spec. intros Ha. destruct (apply _) as [[d|]| |] eqn:E; simpl; try apply writes_refl.
  apply write_writes. intros d' [= <-]. by apply Ha.
Qed.
End one_row.

(** ** Every handler *)

Lemma translate_put_facts req s plan :
  translate_put_item req s = Ok plan ->
  pp_item_json plan = item_to_value (put_item req) /\ is_key_pair (put_item req) s (pp_pk plan, pp_sk plan).
Proof.
  unfold translate_put_item. intros Hp.
  destruct (extract_key_pair _ _) as [[pk sk]| |] eqn:Hk; [|done..]. apply extract_key_pair_Ok in Hk.
  destruct (resolve_put_delete_return_values _ _); [|done..].
  destruct (translate_condition _ _ _ _); [|done..]. by injection Hp as <-.
Qed.

Lemma typed_item s item k : is_key_pair item s k -> typed s k (item_to_value item).
Proof. intros Hk. split; [by eexists|]. destruct k. by apply keyed_item. Qed.

Lemma put_well_behaved body st : well_behaved (handle_put_item state body) st.
Proof.
  unfold handle_put_item, parse_request, translated. apply well_behaved_pure. intros req _.
  apply well_behaved_pure. intros entry Hent%serveable_schema.
  apply well_behaved_pure. intros plan Hplan.
  destruct (translate_put_item req _) as [p| |] eqn:Hp; [|done..]. injection Hplan as ->.
  apply translate_put_facts in Hp as [Hj Hk]. rewrite Hj.
  assert (Hw := live_write _ _ (pp_pk plan, pp_sk plan) Hent (fits_of _ _ _ Hk)). apply typed_item in Hk.
  apply well_behaved_call; [intros Hh|intros; apply well_behaved_pure_end].
  destruct (pp_condition plan).
  - eapply performs_safe; [apply put_condition_law; [done..|apply Hk]|].
    eapply guarded_writes, put_writes; [exact Hent|exact Hk].
  - eapply performs_safe; [apply put_law; [done..|apply Hk]|]. eapply put_writes; [exact Hent|exact Hk].
Qed.

Lemma translate_delete_fits req s plan :
  translate_delete_item req s = Ok plan -> fits s (dp_pk plan, dp_sk plan).
Proof.
  unfold translate_delete_item. intros Hp.
  destruct (extract_key_pair _ _) as [[pk sk]| |] eqn:Hk; [|done..]. apply extract_key_pair_Ok in Hk.
  exists (delete_key req). repeat (case_match; simpl in Hp; try done); by injection Hp as <-.
Qed.

Lemma translate_get_fits req s plan :
  translate_get_item req s = Ok plan -> fits s (gp_pk plan, gp_sk plan).
Proof.
  unfold translate_get_item. intros Hp.
  destruct (extract_key_pair _ _) as [[pk sk]| |] eqn:Hk; [|done..]. apply extract_key_pair_Ok in Hk.
  exists (get_key req). repeat (case_match; simpl in Hp; try done); by injection Hp as <-.
Qed.

Lemma delete_well_behaved body st : well_behaved (handle_delete_item state body) st.
Proof.
  unfold handle_delete_item, parse_request, translated. apply well_behaved_pure. intros req _.
  apply well_behaved_pure. intros entry Hent%serveable_schema.
  apply well_behaved_pure. intros plan Hplan.
  destruct (translate_delete_item req _) as [p| |] eqn:Hp; [|done..]. injection Hplan as ->.
  assert (Hw := live_write _ _ _ Hent (translate_delete_fits _ _ _ Hp)).
  apply well_behaved_call; [intros Hh|intros; apply well_behaved_pure_end].
  destruct (dp_condition plan).
  - eapply performs_safe; [by apply delete_condition_law|]. eapply guarded_writes, delete_writes, Hent.
  - eapply performs_safe; [by apply delete_law|]. eapply delete_writes, Hent.
Qed.

Lemma read_safe {X} (g : Rows -> Result BackendError X) (call : Call St X) st :
  performs (fun m => (g m, m)) call st -> safe st (call st).2.
Proof. intros Hp. eapply performs_safe; [exact Hp|]. apply writes_refl. Qed.

Lemma get_well_behaved body st : well_behaved (handle_get_item state body) st.
Proof.
  unfold handle_get_item, parse_request, translated. apply well_behaved_pure. intros req _.
  apply well_behaved_pure. intros entry Hent%serveable_schema. apply well_behaved_pure. intros plan Hplan.
  destruct (translate_get_item req _) as [p| |] eqn:Hp; [|done..]. injection Hplan as ->.
  apply well_behaved_call; [intros Hh|intros; apply well_behaved_pure_end].
  eapply read_safe, get_law; [done|]. eapply live_read; [exact Hent|]. by eapply translate_get_fits.
Qed.

Lemma update_well_behaved body st : store_ok schemas (rows st) -> well_behaved (handle_update_item state body) st.
Proof.
  intros Hok. unfold handle_update_item, parse_request, translated. apply well_behaved_pure. intros req _.
  apply well_behaved_pure. intros entry Hent%serveable_schema.
  apply well_behaved_pure. intros plan Htr.
  destruct (translate_update_item req _) as [p| |] eqn:Hplan; [|done..]. injection Htr as ->.
  pose proof (Hok _ _ Hent (up_pk plan, up_sk plan)) as Hst.
  destruct (stored_item _ _ _ Hst) as (row & Hrow & Hit).
  destruct (translate_update_facts _ _ _ Hplan) as (Hk & _ & _ & _).
  assert (Hw := live_write _ _ (up_pk plan, up_sk plan) Hent (fits_of _ _ _ Hk)).
  destruct (needs_slow_path plan) eqn:Hslow.
  { apply well_behaved_call; [intros Hh|intros; apply well_behaved_pure_end].
    eapply performs_safe; [apply rmw_law; [done|done|]|eapply rmw_writes; [exact Hent|]];
      intros d Hd; eapply semantics_typed; eassumption. }
  apply orb_false_iff in Hslow as [Hsimple Hcond]. apply negb_false_iff in Hsimple.
  assert (Hm := merged_typed _ _ _ Hplan (rows st) row Hrow Hit Hsimple).
  assert (Hi := insert_typed _ _ _ Hplan Hsimple).
  apply well_behaved_bind; [|intros; apply well_behaved_pure_end].
  destruct (up_condition plan) as [cp|] eqn:Hc; [destruct (cp_routing cp) eqn:Hr|].
  - rewrite (materialize_insert_only_eq _ _ _ Hsimple Hc Hr). apply backend_call_safe. intros Hh.
    eapply performs_safe; [apply (insert_only_law _ (up_pk plan, up_sk plan)); [done|done|exact (proj2 Hi)]|].
    unfold insert_only_spec. destruct (row_at _ _ _); [apply writes_refl|].
    eapply write_writes; [exact Hent|]. by intros d [= <-].
  - rewrite (materialize_sql_eq _ _ Hsimple Hc Hr). apply backend_call_safe. intros Hh.
    destruct (translate_update_condition _ _ _ _ Hplan Hc) as [Hcl Hnamed]. rewrite Hr in Hcl.
    eapply performs_safe; [apply simple_condition_law;
      [done|done|by apply (classify_simple _ (te_schema entry))|done|intros; by apply Hm]|].
    unfold simple_condition_spec. destruct (row_at _ _ _) as [d|] eqn:Hd; [|apply writes_refl].
    case_bool_decide; [|apply writes_refl]. eapply write_writes; [exact Hent|]. intros d' [= <-]. by apply Hm.
  - done.
  - rewrite (materialize_simple_eq _ _ Hsimple Hc). apply backend_call_safe. intros Hh.
    eapply performs_safe; [apply update_simple_law; [done|done|exact (proj2 Hi)|intros; by apply Hm]|].
    eapply write_writes; [exact Hent|]. intros d [= <-].
    destruct (row_at _ _ _) as [d|] eqn:Hd; [by apply Hm|exact Hi].
Qed.

Lemma query_well_behaved body st : well_behaved (handle_query state body) st.
Proof.
  unfold handle_query, parse_request, translated. apply well_behaved_pure. intros req _.
  apply well_behaved_pure. intros entry _. apply well_behaved_pure. intros plan _.
  apply well_behaved_call; [intros Hh|intros; apply well_behaved_pure_end].
  split; [|constructor]; by apply query_law.
Qed.

Lemma scan_well_behaved body st : well_behaved (handle_scan state body) st.
Proof.
  unfold handle_scan, parse_request, translated. apply well_behaved_pure. intros req _.
  apply well_behaved_pure. intros entry _. apply well_behaved_pure. intros plan _.
  apply well_behaved_call; [intros Hh|intros; apply well_behaved_pure_end].
  split; [|constructor]; by apply scan_law.
Qed.

Lemma batch_get_tables_well_behaved plans : forall responses st,
  Forall (fun p => exists s, schemas !! bgt_table_name p = Some s /\ Forall (fits s) (bgt_keys p)) plans ->
  well_behaved (batch_get_tables state responses plans) st.
Proof.
  induction plans as [|p plans IH]; intros responses st Hall; [apply well_behaved_ret|].
  apply Forall_cons in Hall as [(s & Hs & Hkeys) Hall].
  apply well_behaved_bind; [|intros; by apply IH].
  apply well_behaved_pure. intros s' Hs'. unfold schema_of in Hs'. fold schemas in Hs'. rewrite Hs in Hs'.
  injection Hs' as <-. apply well_behaved_call; [intros Hh|intros; apply well_behaved_ret].
  pose proof (batch_get_law (shape s) (bgt_keys p) st Hh) as Hl.
  destruct (batch_get_raw _ _ st). destruct Hl as (Hh' & Hr & _).
  - eapply Forall_impl; [exact Hkeys|]. intros k. by apply live_read with (t := bgt_table_name p).
  - split; [done|]. by constructor.
Qed.

Lemma batch_get_well_behaved body st : well_behaved (handle_batch_get_item state body) st.
Proof.
  unfold handle_batch_get_item, parse_request, translated. apply well_behaved_pure. intros req _.
  apply well_behaved_pure. intros _ _. apply well_behaved_pure. intros plan Hplan.
  destruct (translate_batch_get_item req _ _) as [p| |] eqn:Htr; [|done..]. injection Hplan as ->.
  apply batch_get_plan_valid in Htr as [_ Hall].
  apply well_behaved_bind; [apply batch_get_tables_well_behaved|intros; apply well_behaved_ret].
  eapply Forall2_Forall_r; [exact Hall|]. apply Forall_forall. intros kv _ pt (Ht & _ & s & Hs & Hkeys).
  exists s. rewrite Ht. split; [done|]. eapply Forall2_Forall_r; [exact Hkeys|].
  apply Forall_forall. intros it _ k [Hk _]. by exists it.
Qed.

Lemma transact_get_fits req max plan :
  translate_transact_get_items req schemas max = Ok plan ->
  Forall (fun p => exists s, schemas !! tgp_table_name p = Some s /\ fits s (tgp_pk p, tgp_sk p)) (tgp_items plan).
Proof.
  unfold translate_transact_get_items. destruct (tg_transact_items req) as [|ti tis]; [done|].
  case_match; [done|]. destruct (fold_result _ _ _) as [[seen items]| |] eqn:Hf; [|done..]. intros [= <-]. simpl.
  refine (fold_result_inv _ (fun st => Forall _ st.2) _ _ _ _ _ Hf); [|done].
  intros [seen0 items0] x st' _ Hall. unfold transact_get_item.
  destruct (tgi_get x) as [get|]; [|done]. cbn [ok_or]. destruct (ok_or _ _) as [s| |] eqn:Hs; [|done..].
  unfold ok_or in Hs. case_match; [|done]. simplify_eq.
  destruct (extract_key_pair _ _) as [[pk sk]| |] eqn:Hk; [|done..]. apply extract_key_pair_Ok in Hk.
  destruct (reject_extra_key_attrs _ _); [|done..]. case_match; [done|].
  destruct (parse_projection _ _); [|done..]. intros [= <-]. simpl. apply Forall_app. split; [done|].
  constructor; [|done]. exists s. split; [done|]. by exists (tg_key get).
Qed.

Lemma transact_get_ops_readable items ops :
  Forall (fun p => exists s, schemas !! tgp_table_name p = Some s /\ fits s (tgp_pk p, tgp_sk p)) items ->
  collect (transact_get_op state) items = Ok ops ->
  Forall (fun o => readable (tgo_shape o) (tgo_pk o, tgo_sk o)) ops.
Proof.
  intros Hall Hops%collect_Ok_iff. revert ops Hops.
  induction Hall as [|p items (s & Hs & Hk) _ IH]; intros ops; inversion 1 as [|? o ? os Ho Hos]; subst;
    constructor; [|by apply IH].
  unfold transact_get_op, schema_of in Ho.
  change (cs_schemas (app_catalog state) !! tgp_table_name p = Some s) in Hs. rewrite Hs in Ho.
  injection Ho as <-. simpl. by apply live_read with (t := tgp_table_name p).
Qed.

Lemma transact_get_well_behaved body st : well_behaved (handle_transact_get_items state body) st.
Proof.
  unfold handle_transact_get_items, parse_request, translated. apply well_behaved_pure. intros req _.
  apply well_behaved_pure. intros _ _. apply well_behaved_pure. intros plan Hplan.
  destruct (translate_transact_get_items req _ _) as [p| |] eqn:Htr; [|done..]. injection Hplan as ->.
  apply transact_get_fits in Htr. apply well_behaved_pure. intros ops Hops.
  apply well_behaved_call; [intros Hh|intros; apply well_behaved_pure_end].
  eapply read_safe, transact_get_law; [done|]. by eapply transact_get_ops_readable.
Qed.

(** The operations of one table of a batch. *)
Lemma batch_ops_writes t s ops m :
  schemas !! t = Some s ->
  Forall (fun op => match op with WriteOp_Put pk sk item => typed s (pk, sk) item | _ => True end) ops ->
  writes schemas m (batch_write_spec (write_shape s) ops m).2.
Proof.
  intros Hs Hops. unfold batch_write_spec. simpl.
  apply (writes_trans _ _ (fold_left (apply_put (write_shape s)) ops m)).
  - revert m. induction Hops as [|op ops Hop _ IH]; intros m; [apply writes_refl|]. simpl.
    eapply writes_trans; [|apply IH]. destruct op as [pk sk item|]; [|apply writes_refl].
    eapply write_writes; [exact Hs|]. by intros d [= <-].
  - generalize (fold_left (apply_put (write_shape s)) ops m). clear Hops.
    induction ops as [|op ops IH]; intros m'; [apply writes_refl|]. simpl.
    eapply writes_trans; [|apply IH]. destruct op as [|pk sk]; [apply writes_refl|].
    by eapply write_writes; [exact Hs|].
Qed.

Lemma batch_write_tables_well_behaved plans : forall st,
  Forall (fun p => exists s ws, schemas !! bwt_table_name p = Some s
            /\ Forall2 (implements_write s) ws (bwt_ops p)) plans ->
  well_behaved (batch_write_tables state plans) st.
Proof.
  induction plans as [|p plans IH]; intros st Hall; [apply well_behaved_ret|].
  apply Forall_cons in Hall as [(s & ws & Hs & Hops) Hall].
  apply well_behaved_pure. intros s' Hs'. unfold schema_of in Hs'. fold schemas in Hs'. rewrite Hs in Hs'.
  injection Hs' as <-. apply well_behaved_call; [intros Hh|intros; by apply IH].
  assert (Htyped : Forall (fun op => match op with WriteOp_Put pk sk item => typed s (pk, sk) item | _ => True end)
                     (bwt_ops p)).
  { eapply Forall2_Forall_r; [exact Hops|]. apply Forall_forall. intros w _ [pk sk item|]; [|done].
    intros (q & _ & _ & -> & Hk). by apply typed_item. }
  eapply performs_safe; [apply batch_write_law; [done|..]|by eapply batch_ops_writes].
  - eapply Forall2_Forall_r; [exact Hops|]. apply Forall_forall. intros w _ op Himpl.
    eapply live_write; [exact Hs|]. destruct op as [pk sk item|pk sk]; simpl in *.
    + destruct Himpl as (q & _ & _ & _ & Hk). by exists (pr_item q).
    + destruct Himpl as (q & _ & _ & Hk & _). by exists (dr_key q).
  - eapply Forall_impl; [exact Htyped|]. intros [pk sk item|]; [|done]. by intros [_ Hk].
Qed.

Lemma batch_write_well_behaved body st : well_behaved (handle_batch_write_item state body) st.
Proof.
  unfold handle_batch_write_item, parse_request, translated. apply well_behaved_pure. intros req _.
  apply well_behaved_pure. intros _ _. apply well_behaved_pure. intros plan Hplan.
  destruct (translate_batch_write_item req _ _) as [p| |] eqn:Htr; [|done..]. injection Hplan as ->.
  apply batch_write_plan_valid in Htr as [_ Hall].
  apply well_behaved_bind; [|intros; apply well_behaved_ret]. apply batch_write_tables_well_behaved.
  eapply Forall2_Forall_r; [exact Hall|]. apply Forall_forall. intros kv _ pt (Ht & _ & s & Hs & Hops).
  exists s, kv.2. by rewrite Ht.
Qed.

(** A write of a transaction on a table of the catalog; what it stores is
    an item at its key whenever the row it reads is. *)
Definition tx_op_of (op : TransactWriteOp) : Prop :=
  exists t s, schemas !! t = Some s /\ (tx_op_target op).1 = write_shape s /\ fits s (tx_op_target op).2 /\
  match op with
  | TransactWriteOp_Put _ pk sk item _ _ => typed s (pk, sk) item
  | TransactWriteOp_Delete _ _ _ _ _ | TransactWriteOp_ConditionCheck _ _ _ _ _ => True
  | TransactWriteOp_Update _ pk sk apply _ =>
      forall row, stored s (pk, sk) row ->
      apply row <> Panic /\ forall d, apply row = Ok (UpdateDecision_Apply d) -> typed s (pk, sk) d
  end.

Lemma opt_guarded_writes {A} t s k (c : option ConditionEvalFn) (f : Rows -> Result BackendError A * Rows) m :
  schemas !! t = Some s -> writes schemas m (f m).2 ->
  writes schemas m (match c with Some c => guarded (write_shape s) k c f m | None => f m end).2.
Proof. intros Hs Hf. destruct c; [|done]. by eapply guarded_writes. Qed.

Lemma tx_step_writes m op : store_ok schemas m -> tx_op_of op -> writes schemas m (tx_step m op).2.
Proof.
  intros Hok (t & s & Hs & Hsh & _ & Hop).
  destruct op as [sh pk sk item c b|sh pk sk c b|sh pk sk c b|sh pk sk apply b]; simpl in *; subst sh.
  - eapply opt_guarded_writes; [exact Hs|]. by eapply put_writes.
  - eapply opt_guarded_writes; [exact Hs|]. by eapply delete_writes.
  - eapply guarded_writes. apply writes_refl.
  - eapply rmw_writes; [exact Hs|]. apply Hop, (Hok t s Hs).
Qed.

Lemma tx_op_keyed m op : store_ok schemas m -> tx_op_of op -> tx_op_ok m op.
Proof.
  intros Hok (t & s & Hs & Hsh & _ & Hop).
  destruct op as [sh pk sk item c b|sh pk sk c b|sh pk sk c b|sh pk sk apply b]; simpl in *; subst sh; [|done..|].
  - exact (proj2 Hop).
  - destruct (Hop _ (Hok t s Hs (pk, sk))) as [Hn Hd]. split; [exact Hn|]. intros d Hr. exact (proj2 (Hd d Hr)).
Qed.

Lemma tx_step_ok m op : store_ok schemas m -> tx_op_of op -> store_ok schemas (tx_step m op).2.
Proof. intros Hok Hop. eapply writes_ok; [done|by apply tx_step_writes|done]. Qed.

Lemma tx_ops_ok ops m : store_ok schemas m -> Forall tx_op_of ops -> tx_ok m ops.
Proof.
  intros Hok Hall. revert m Hok. induction Hall as [|op ops Hop _ IH]; intros m Hok; [done|].
  split; [by apply tx_op_keyed|]. by apply IH, tx_step_ok.
Qed.

Lemma tx_run_writes ops i m m' :
  store_ok schemas m -> Forall tx_op_of ops -> tx_run i m ops = inl m' -> writes schemas m m'.
Proof.
  intros Hok Hall. revert i m Hok. induction Hall as [|op ops Hop _ IH]; intros i m Hok; simpl.
  { intros [= <-]. apply writes_refl. }
  pose proof (tx_step_writes m op Hok Hop) as Hw. pose proof (tx_step_ok m op Hok Hop) as Hok'.
  destruct (tx_step m op) as [[u|e|] m1]; [|done..]. simpl in *. intros Hrun.
  eapply writes_trans; [exact Hw|]. by eapply IH.
Qed.

Lemma transact_op_of ti it op :
  implements_transact schemas ti it -> transact_write_op state it = Ok op -> tx_op_of op.
Proof.
  intros (s & Hs & Hk). unfold transact_write_op, schema_of.
  change (cs_schemas (app_catalog state) !! twp_table_name it = Some s) in Hs. rewrite Hs. simpl.
  intros Hop. exists (twp_table_name it), s. split; [done|]. unfold fits.
  destruct (twp_kind it) as [v| | |e key]; [| |destruct (expect _); [|done..]|]; injection Hop as <-; simpl.
  - destruct Hk as (p & _ & _ & -> & Hk). split_and!; [done|by eexists|by apply typed_item].
  - destruct Hk as (p & _ & _ & Hk). split_and!; [done|by eexists|done].
  - destruct Hk as (_ & p & _ & _ & Hk). split_and!; [done|by eexists|done].
  - destruct Hk as (u & _ & _ & _ & Hk & Hacc). split_and!; [done|by eexists|].
    intros row Hrow. split; [by eapply slow_apply_no_panic|]. intros d. by apply slow_apply_typed.
Qed.

Lemma transact_ops_of tis its ops :
  Forall2 (implements_transact schemas) tis its -> collect (transact_write_op state) its = Ok ops ->
  Forall tx_op_of ops.
Proof.
  intros Hall Hops%collect_Ok_iff. revert ops Hops.
  induction Hall as [|ti it tis its Hti _ IH]; intros ops; inversion 1; subst; constructor; [|by apply IH].
  by eapply transact_op_of.
Qed.

Lemma tx_ops_writable ops :
  Forall tx_op_of ops -> Forall (fun op => writable (tx_op_target op).1 (tx_op_target op).2) ops.
Proof.
  intros Hops. eapply Forall_impl; [exact Hops|]. intros op (t & s & Hs & -> & Hk & _). by eapply live_write.
Qed.

Lemma transact_call_safe ops st :
  healthy st -> store_ok schemas (rows st) -> Forall tx_op_of ops -> safe st (transact_write_raw ops st).2.
Proof.
  intros Hh Hok Hops.
  pose proof (transact_write_law ops st Hh (tx_ops_writable _ Hops) (tx_ops_ok _ _ Hok Hops)) as Hl.
  pose proof (fun m' => tx_run_writes ops 0 (rows st) m' Hok Hops) as Hw.
  destruct (transact_write_raw ops st) as [r st']. destruct Hl as [Hh' Hl]. split; [done|]. simpl.
  destruct (tx_run 0 (rows st) ops) as [m'|i].
  - specialize (Hw m' eq_refl).
    assert (rows_eq (rows st') (rows st) \/ rows_eq (rows st') m') as [Hr|Hr] by naive_solver.
    + by constructor.
    + by eapply writes_proper; [reflexivity|exact Hr|].
  - constructor. apply Hl.
Qed.

Lemma transact_write_well_behaved body st :
  store_ok schemas (rows st) -> well_behaved (handle_transact_write_items state body) st.
Proof.
  intros Hok. unfold handle_transact_write_items, parse_request, translated. apply well_behaved_pure. intros req _.
  apply well_behaved_pure. intros _ _. apply well_behaved_pure. intros plan Hplan.
  destruct (translate_transact_write_items req _ _) as [p| |] eqn:Htr; [|done..]. injection Hplan as ->.
  apply transact_write_plan_valid in Htr as (_ & _ & Hall).
  apply well_behaved_pure. intros ops Hops. apply well_behaved_call; [intros Hh|intros; apply well_behaved_ret].
  apply transact_call_safe; [done|done|]. by eapply transact_ops_of.
Qed.

(** Every write of a valid plan has an operation. *)
Lemma transact_ops_total tis its :
  Forall2 (implements_transact schemas) tis its -> exists ops, collect (transact_write_op state) its = Ok ops.
Proof.
  induction 1 as [|ti it tis its (s & Hs & Hk) _ [ops IH]]; [by exists []|].
  assert (exists op, transact_write_op state it = Ok op) as [op Hop].
  { unfold transact_write_op, schema_of.
    change (cs_schemas (app_catalog state) !! twp_table_name it = Some s) in Hs. rewrite Hs. simpl.
    destruct (twp_kind it); try by eexists. destruct Hk as [[cp ->] _]. by eexists. }
  exists (op :: ops). simpl. by rewrite Hop, IH.
Qed.

(** C10: TransactWriteItems is all or nothing. An accepted request becomes
    one operation per item, in order. When every operation succeeds in
    turn (each condition seeing the writes before it), the handler
    answers with success and the rows are those all of them leave. When
    one fails, no row changes: the answer is the cancellation, with a
    reason per operation, all [None] except the one that failed, which is
    not after the first failing one. Otherwise the answer is a failure or
    conflict the backend reports, and the transaction has happened whole
    or not at all; the handler never panics. *)
Theorem transact_write_atomic body req plan st :
  de_transact_write_items body = inr req ->
  gate_referenced_tables (app_catalog state) (omap transact_write_table (tw_transact_items req)) = Ok tt ->
  translate_transact_write_items req schemas (transact_write_max_items (app_batch_limits state)) = Ok plan ->
  healthy st -> store_ok schemas (rows st) ->
  exists ops, collect (transact_write_op state) (twp_items plan) = Ok ops
  /\ length ops = length (tw_transact_items req)
  /\ let '(r, st') := handle_transact_write_items state body st in
     match tx_run 0 (rows st) ops with
     | inl m' =>
         (r = Ok (json_ok (VObject [])) /\ rows_eq (rows st') m')
         \/ (backend_failed r /\ (rows_eq (rows st') (rows st) \/ rows_eq (rows st') m'))
         \/ (exists reasons i code, r = Err (api_of_backend (BackendError_TransactionCancelled reasons))
              /\ i < length ops /\ code <> "ConditionalCheckFailed"
              /\ cancelled_at (length ops) i code reasons /\ rows_eq (rows st') (rows st))
     | inr i =>
         rows_eq (rows st') (rows st)
         /\ (backend_failed r
             \/ exists reasons i' code, r = Err (api_of_backend (BackendError_TransactionCancelled reasons))
                /\ i' <= i /\ (i' < i -> code <> "ConditionalCheckFailed")
                /\ cancelled_at (length ops) i' code reasons)
     end.
Proof.
  intros Hde Hgate Htr Hh Hok. destruct (transact_write_plan_valid _ _ _ _ Htr) as (_ & _ & Hall).
  destruct (transact_ops_total _ _ Hall) as [ops Hops]. exists ops.
  assert (length ops = length (tw_transact_items req)) as Hlen.
  { apply collect_Ok_iff, Forall2_length in Hops. apply Forall2_length in Hall. congruence. }
  split_and!; [done|done|]. unfold handle_transact_write_items, parse_request, translated.
  rewrite Hde, bind_ok, Hgate, bind_ok. fold schemas. rewrite Htr. cbn [map_err]. rewrite bind_ok, Hops, bind_ok.
  pose proof (transact_ops_of _ _ _ Hall Hops) as Hof.
  pose proof (transact_write_law ops st Hh (tx_ops_writable _ Hof) (tx_ops_ok _ _ Hok Hof)) as Hl.
  unfold run_bind, backend_call. destruct (transact_write_raw ops st) as [r st']. destruct Hl as [_ Hl].
  assert (Hfail : unavailable r ->
    exists e, backend_failed (A := Response) (Err (api_of_backend e)) /\ r = Err e).
  { intros Hu. destruct r as [|e|]; [done| |done]. exists e. split; [|done]. by exists e. }
  destruct (tx_run 0 (rows st) ops) as [m'|i].
  - destruct Hl as [[-> Hr]|[[(e & He & ->)%Hfail Hr]|(reasons & i & code & -> & Hl)]]; [by left|..];
      right; [by left|right]. by exists reasons, i, code.
  - destruct Hl as [Hr [(e & He & ->)%Hfail|(reasons & i' & code & -> & Hl)]]; (split; [done|]); [by left|right].
    by exists reasons, i', code.
Qed.

Lemma handler_safe op handler body st :
  data_handler state op = Some handler -> healthy st -> store_ok schemas (rows st) ->
  let st' := (handler body st).2 in healthy st' /\ store_ok schemas (rows st').
Proof.
  intros Hop Hh Hok. cbv zeta.
  enough (well_behaved (handler body) st) as Hw.
  { destruct (Hw Hh) as [Hh' Hws]. split; [done|]. by eapply writes_ok. }
  unfold data_handler in Hop.
  repeat (destruct (String.eqb _ _);
    [injection Hop as <-; auto using put_well_behaved, get_well_behaved, delete_well_behaved, update_well_behaved,
       query_well_behaved, scan_well_behaved, batch_get_well_behaved, batch_write_well_behaved,
       transact_get_well_behaved, transact_write_well_behaved|]).
  done.
Qed.

(** C9: the tables only ever hold items at their own keys. Whatever
    data-plane operation is called with whatever body, and whatever the
    backend answers (its failures included), if every row of every table
    of the catalog is a DynamoDB item whose key attributes, at the
    declared types, are the key it is stored under, then so it is
    afterwards: no handler can move an item away from its key, strip its
    key attributes or store something that is not an item. *)
Theorem store_invariant op handler body st :
  data_handler state op = Some handler -> healthy st -> store_ok schemas (rows st) ->
  let st' := (handler body st).2 in healthy st' /\ store_ok schemas (rows st').
Proof. apply handler_safe. Qed.
End preserve.

(** ** Reading what was written *)

Section reading.
Context `{Winnow} `{Base64} `{SerdeJson} `{Wire} `{SqlCompare} `{RowKeys}.
Context {St : Type} `{Backend St} `{!Storage St} `{!BackendContract St} (state : AppState).

(** A successful call did what its spec says. *)
Lemma performs_ok {X} spec (call : Call St X) st a st' :
  performs spec call st -> call st = (Ok a, st') ->
  healthy st' /\ (spec (rows st)).1 = Ok a /\ rows_eq (rows st') (spec (rows st)).2.
Proof. unfold performs. intros Hp Hc. rewrite Hc in Hp. destruct Hp as [Hh [[[] _]|[<- Hr]]]. done. Qed.

Lemma call_succeeded {X} (c : Call St X) (f : X -> Result ApiError (option Item)) st r st' :
  (let! a := backend_call c in let! o := ret_result (f a) in ret_result (Ok (attributes_response o))) st = (Ok r, st') ->
  exists a, c st = (Ok a, st').
Proof.
  unfold run_bind, backend_call, ret_result. destruct (c st) as [[a|e|] s1]; simpl; [|done..].
  destruct (f a); [|done..]. intros [= _ ->]. by exists a.
Qed.

Variables (get_body : bytes) (greq : GetItemRequest) (entry : TableEntry) (gplan : GetItemPlan).
Hypothesis Hde : de_get_item get_body = inr greq.
Hypothesis Hent : require_serveable (app_catalog state) (get_table_name greq) = Ok entry.
Hypothesis Hplan : translate_get_item greq (te_schema entry) = Ok gplan.

Let s := te_schema entry.
Let gkey : Key := (gp_pk gplan, gp_sk gplan).
Hypothesis Hread : readable (shape s) gkey.

(** GetItem answers with [item], or reports a backend failure. *)
Definition get_answers (item : option Item) (st : St) : Prop :=
  let '(r, _) := handle_get_item state get_body st in
  backend_failed r \/ r = Ok (json_ok (VObject (opt_field "Item" (item_to_value <$> item)))).

Lemma get_answers_row st item :
  healthy st -> (forall i, item = Some i -> wf_item i) -> rows st (pg_table s) gkey = row_value item ->
  get_answers item st.
Proof.
  intros Hh Hwf Hrow. unfold get_answers, handle_get_item, parse_request. rewrite Hde, bind_ok, Hent, bind_ok.
  unfold translated. rewrite Hplan. cbn [map_err]. rewrite bind_ok.
  pose proof (get_law (shape s) (gp_pk gplan) (gp_sk gplan) st Hh Hread) as Hg. unfold performs in Hg.
  unfold run_bind at 1, backend_call. fold s. destruct (get_item_raw _ _ _ st) as [r st'].
  destruct Hg as [_ [[Hu _]|[-> _]]].
  - destruct r as [a|e|]; [done| |done]. simpl. left. by exists e.
  - assert (row_at (shape s) gkey (rows st) = row_value item) as Hr by exact Hrow.
    unfold get_spec. cbn [fst map_err]. fold gkey. rewrite Hr. destruct item as [i|]; [|by right].
    cbn [row_value fmap option_fmap option_map]. unfold decode_item.
    rewrite item_from_to_value by by apply Hwf. by right.
Qed.

(** C11: reads see the last write. After a PutItem that was answered with
    success, GetItem of the same key (two numerals of one number are the
    same key) answers with exactly the item that was put, and after a
    successful DeleteItem with no item at all; the only other answer is a
    failure of the backend. *)
Theorem read_your_writes st :
  healthy st ->
  (forall body req plan resp st1,
     de_put_item body = inr req -> put_table_name req = get_table_name greq -> wf_item (put_item req) ->
     translate_put_item req s = Ok plan -> writable (write_shape s) (pp_pk plan, pp_sk plan) ->
     same_key (pp_pk plan, pp_sk plan) gkey = true ->
     handle_put_item state body st = (Ok resp, st1) -> get_answers (Some (put_item req)) st1)
  /\ (forall body req plan resp st1,
     de_delete_item body = inr req -> delete_table_name req = get_table_name greq ->
     translate_delete_item req s = Ok plan -> writable (write_shape s) (dp_pk plan, dp_sk plan) ->
     same_key (dp_pk plan, dp_sk plan) gkey = true ->
     handle_delete_item state body st = (Ok resp, st1) -> get_answers None st1).
Proof.
  intros Hh. split; intros body req plan resp st1 Hd Hn.
  - intros Hwf Hp Hw Hkey. unfold handle_put_item, parse_request. rewrite Hd, bind_ok, Hn, Hent, bind_ok.
    unfold translated. fold s. rewrite Hp. cbn [map_err]. rewrite bind_ok.
    destruct (translate_put_facts _ _ _ Hp) as [Hj Hk]. apply typed_item in Hk. rewrite Hj. cbv zeta.
    intros (a & Hc)%call_succeeded.
    assert (healthy st1 /\ rows_eq (rows st1)
      (write (write_shape s) (pp_pk plan, pp_sk plan) (Some (item_to_value (put_item req))) (rows st))) as [Hh1 Hr].
    { destruct (pp_condition plan) as [cp|].
      - destruct (performs_ok _ _ _ _ _ (put_condition_law (write_shape s) _ _ _ _ st Hh Hw (proj2 Hk)) Hc)
          as (Hh1 & Ha & Hr). unfold guarded in Ha, Hr. by destruct (evaluate_condition _ _).
      - destruct (performs_ok _ _ _ _ _ (put_law (write_shape s) _ _ _ st Hh Hw (proj2 Hk)) Hc) as (Hh1 & _ & Hr).
        done. }
    apply get_answers_row; [done|by intros i [= <-]|]. rewrite Hr. by apply set_row_eq.
  - intros Hp Hw Hkey. unfold handle_delete_item, parse_request. rewrite Hd, bind_ok, Hn, Hent, bind_ok.
    unfold translated. fold s. rewrite Hp. cbn [map_err]. rewrite bind_ok. cbv zeta.
    intros (a & Hc)%call_succeeded.
    assert (healthy st1 /\ rows_eq (rows st1)
      (write (write_shape s) (dp_pk plan, dp_sk plan) None (rows st))) as [Hh1 Hr].
    { destruct (dp_condition plan) as [cp|].
      - destruct (performs_ok _ _ _ _ _ (delete_condition_law (write_shape s) _ _ _ st Hh Hw) Hc) as (Hh1 & Ha & Hr).
        unfold guarded in Ha, Hr. by destruct (evaluate_condition _ _).
      - destruct (performs_ok _ _ _ _ _ (delete_law (write_shape s) _ _ st Hh Hw) Hc) as (Hh1 & _ & Hr). done. }
    apply get_answers_row; [done|done|]. rewrite Hr. by apply set_row_eq.
Qed.
End reading.
