(* ===== verification/MemoryBackend.v ===== *)
(** * A backend in memory

    An executable instance of [Backend] whose state is the rows
    themselves and whose keys are compared for equality: it meets the
    contract, so the contract can be met. The theorems about the handlers
    are applied to it, with a table [T] of string keys. *)

From S2P Require Import Prelude RustStr BTree Json Attr Base64Std Ast Winnow Parser Reserved.
From S2P Require Import Substitute F64 EvalCondition EvalUpdate Storage Operations Schema Errors Plan Keys.
From S2P Require Import Checks KeyCondition Paging Projection Materialize Translate.
From S2P Require Import PgTypes PgSelect Query ConditionSql Catalog ApiError Backend Server ServerCorrect.

#[export] Instance exact_keys : RowKeys.
Proof.
  refine {| same_key a b := bool_decide (a = b) |}. split.
  - intros a. by apply bool_decide_eq_true.
  - intros a b. rewrite !bool_decide_eq_true. congruence.
  - intros a b c. rewrite !bool_decide_eq_true. congruence.
Defined.

#[export] Instance digits_compare : SqlCompare.
Proof.
  refine {| numeric_compare a b := N.compare (default 0%N (parse_usize a)) (default 0%N (parse_usize b));
            text_compare := String.compare |}.
  - intros a b. apply N.compare_antisym.
  - intros a b. apply String.compare_antisym.
Defined.

Definition no_page : QueryOutcome := mkQueryOutcome [] 0 0 None.

(** The reasons of a transaction whose write [i] of [n] failed. *)
Definition reasons_at (n i : nat) : list TransactCancelReason :=
  map (fun code => mkTransactCancelReason code None None) (<[i := "ConditionalCheckFailed"]> (replicate n "None")).

#[export] Instance memory : Backend Rows := {|
  put_item_raw shape pk sk item := put_spec shape (pk, sk) item;
  put_with_condition_raw shape pk sk item c := guarded shape (pk, sk) c (put_spec shape (pk, sk) item);
  get_item_raw shape pk sk := get_spec shape (pk, sk);
  delete_item_raw shape pk sk := delete_spec shape (pk, sk);
  delete_with_condition_raw shape pk sk c := guarded shape (pk, sk) c (delete_spec shape (pk, sk));
  update_simple_raw shape pk sk insert_item sets removes :=
    update_simple_spec shape (pk, sk) insert_item sets removes;
  update_insert_only_raw shape insert_item m :=
    match lek_from_row insert_item shape with
    | Some k => insert_only_spec shape k insert_item m
    | None => (Err (BackendError_PgError "23502" "null key"), m)
    end;
  update_with_simple_condition_raw shape pk sk sets removes cond :=
    simple_condition_spec shape (pk, sk) sets removes cond;
  update_general_rmw_raw shape pk sk apply := rmw_spec shape (pk, sk) apply;
  query_raw _ _ _ _ _ _ _ m := (Ok no_page, m);
  scan_raw _ _ _ _ m := (Ok no_page, m);
  batch_write_raw shape ops := batch_write_spec shape ops;
  batch_get_raw shape keys m := (Ok (omap (m (shape_table shape)) keys), m);
  transact_get_raw ops m := (Ok (map (fun o => m (shape_table (tgo_shape o)) (tgo_pk o, tgo_sk o)) ops), m);
  transact_write_raw ops m :=
    match tx_run 0 m ops with
    | inl m' => (Ok tt, m')
    | inr i => (Err (BackendError_TransactionCancelled (reasons_at (length ops) i)), m)
    end
|}.

#[export] Instance memory_storage : Storage Rows := {|
  rows := id;
  healthy m := forall t k k', same_key k k' = true -> m t k = m t k';
  readable _ _ := True;
  writable _ _ := True
|}.

Lemma memory_healthy (m : Rows) : healthy m.
Proof. intros t k k' Hk. by apply bool_decide_eq_true in Hk as ->. Qed.

Lemma performs_spec {A} (spec : Rows -> Result BackendError A * Rows) m : performs spec spec m.
Proof.
  unfold performs. destruct (spec m) as [r m'] eqn:E. split; [apply memory_healthy|]. right.
  change (rows m) with m. by rewrite E.
Qed.

#[export] Instance memory_contract : BackendContract Rows.
Proof.
  split; intros; try apply performs_spec; try done; try (split; [apply memory_healthy|done]).
  - by apply bool_decide_eq_true in H0 as ->.
  - destruct H1 as (k' & Hl & Hs). apply bool_decide_eq_true in Hs as ->.
    unfold performs, update_insert_only_raw. simpl. rewrite Hl. apply performs_spec.
  - simpl. split_and!; [apply memory_healthy|done|]. right. by eexists.
  - simpl. unfold id. destruct (tx_run 0 st ops) as [m'|i]; (split; [apply memory_healthy|]); [by left|].
    split; [done|]. right.
    exists (reasons_at (length ops) i), i, "ConditionalCheckFailed". split_and!; [done|done|lia|].
    unfold cancelled_at, reasons_at. rewrite map_map. simpl. apply map_id.
Qed.

(** ** A server with one table *)

#[local] Instance empty_display : SerdeJson := {| value_to_string _ := EmptyString |}.

Definition note_request : UpdateItemRequest :=
  mkUpdateItemRequest "T" item_a "SET note = :note REMOVE stale" None (Some [(":note", S_ "x")])
    (Some "attribute_exists(id)") (Some "ALL_NEW").

Definition note_plan : UpdateItemPlan :=
  mkUpdateItemPlan (KeyValue_S "a") None
    (mkUpdateExpression [mkSetClause (name_path "note") (SetRhs_Operand (Operand_Value (S_ "x")))]
       [name_path "stale"] [] [])
    (Some (mkConditionPlan ConditionRouting_SimpleSql (Condition_AttributeExists (name_path "id"))))
    ReturnValuesMode_AllNew.

Definition sum_request : UpdateItemRequest :=
  mkUpdateItemRequest "T" item_a "SET qty = old_qty + :one" None (Some [(":one", N_ "1")]) None None.
Definition sum_plan : UpdateItemPlan :=
  mkUpdateItemPlan (KeyValue_S "a") None
    (mkUpdateExpression
       [mkSetClause (name_path "qty")
          (SetRhs_Plus (Operand_Path (name_path "old_qty")) (Operand_Value (N_ "1")))] [] [] [])
    None ReturnValuesMode_None.

(** A wire format in which each operation has one body, UpdateItem two. *)
#[local] Instance one_request : Wire := {|
  de_put_item _ := inr (mkPutItemRequest "T" item_b None None (Some "attribute_not_exists(id)") None);
  de_get_item _ := inr (mkGetItemRequest "T" [("id", S_ "b")]);
  de_delete_item _ := inr (mkDeleteItemRequest "T" [("id", S_ "b")] None None None None);
  de_update_item body := inr (match body with [] => note_request | _ => sum_request end);
  de_query _ := inr query_request;
  de_scan _ := inl "unused";
  de_batch_get_item _ := inr batch_get_request;
  de_batch_write_item _ := inr batch_write_request;
  de_transact_get_items _ := inl "unused";
  de_transact_write_items _ := inr transact_request;
  de_error_to_string _ := "invalid item";
  value_debug _ := EmptyString
|}.

Definition table_entry : TableEntry :=
  mkTableEntry table_schema TableStatus_Active true None 0 0 "test" None None None (VObject []) [] [].
Definition server : AppState := mkAppState (from_entries {[ "T" := table_entry ]}) default_batch_limits.

Definition one_row : Rows := set_row "t" (KeyValue_S "a", None) (Some (item_to_value item_a)) (fun _ _ => None).

Lemma one_row_ok : table_ok one_row table_schema.
Proof.
  intros k d. unfold one_row, set_row. simpl. case_bool_decide as Hk; [|done]. subst k. intros [= <-].
  split; [by exists item_a|]. by exists (KeyValue_S "a", None).
Qed.

Lemma server_schemas t s : cs_schemas (app_catalog server) !! t = Some s -> s = table_schema.
Proof.
  simpl. rewrite map_fmap_singleton. intros [_ <-]%lookup_singleton_Some. done.
Qed.

Lemma server_distinct : tables_distinct (cs_schemas (app_catalog server)).
Proof. intros t1 t2 s1 s2 ->%server_schemas ->%server_schemas. done. Qed.

Lemma server_live : catalog_live server.
Proof. done. Qed.

Lemma server_store_ok : store_ok (cs_schemas (app_catalog server)) one_row.
Proof. intros t s ->%server_schemas. apply one_row_ok. Qed.

(** The conditional UPDATE of the row [a], answered with the new item. *)
Lemma update_item_witness :
  needs_slow_path note_plan = false
  /\ handled (rmw_spec (write_shape table_schema) (KeyValue_S "a", None) (update_semantics note_plan item_a))
       (answering (fun o => respond_attributes
          (build_update_response ReturnValuesMode_AllNew o (touched_paths (up_expression note_plan)))))
       (handle_update_item server []) one_row
  /\ (handle_update_item server [] one_row).2 "t" (KeyValue_S "a", None)
     = Some (item_to_value [("id", S_ "a"); ("note", S_ "x")]).
Proof.
  assert (Hde : de_update_item [] = inr note_request) by reflexivity.
  assert (Hent : require_serveable (app_catalog server) "T" = Ok table_entry) by (vm_compute; reflexivity).
  assert (Hp : translate_update_item note_request table_schema = Ok note_plan) by (vm_compute; reflexivity).
  assert (Hrow : one_row "t" (KeyValue_S "a", None) = row_value (Some item_a)) by (vm_compute; reflexivity).
  assert (Hagree : routes_agree note_plan item_a (Some item_a)) by (intros _; split; done).
  split; [vm_compute; reflexivity|]. split; [|vm_compute; reflexivity].
  exact (update_item_refines server [] note_request table_entry note_plan (Some item_a) one_row
           Hde Hent Hp (memory_healthy _) I one_row_ok Hrow Hagree).
Defined.

(** [old_qty] is not an attribute of the row [a]. *)
Lemma evaluation_error_witness :
  exists e, let '(r, m) := handle_update_item server [Byte.x00] one_row in
  rows_eq (rows m) (rows one_row)
  /\ (backend_failed r \/ r = Err (ApiError_Internal (eval_error_to_string e)))
  /\ http_status (ApiError_Internal (eval_error_to_string e)) = 500%N
  /\ (forall t, http_status (api_of_translate t) = 400%N).
Proof.
  assert (Hde : de_update_item [Byte.x00] = inr sum_request) by reflexivity.
  assert (Hent : require_serveable (app_catalog server) "T" = Ok table_entry) by (vm_compute; reflexivity).
  assert (Hp : translate_update_item sum_request table_schema = Ok sum_plan) by (vm_compute; reflexivity).
  assert (Hslow : needs_slow_path sum_plan = true) by (vm_compute; reflexivity).
  destruct (apply_update_expression (one_row "t" (KeyValue_S "a", None)) (up_expression sum_plan) item_a)
    as [v|e|] eqn:He; [vm_compute in He; discriminate| |vm_compute in He; discriminate].
  assert (Hc : forall cp, up_condition sum_plan = Some cp ->
    evaluate_condition (one_row "t" (KeyValue_S "a", None)) (cp_condition cp) = true) by done.
  assert (Hrow : rows one_row (pg_table table_schema) (up_pk sum_plan, up_sk sum_plan)
                 = one_row "t" (KeyValue_S "a", None)) by reflexivity.
  assert (Hh : healthy one_row) by apply memory_healthy.
  assert (Hw : writable (write_shape table_schema) (up_pk sum_plan, up_sk sum_plan)) by exact I.
  exists e.
  pose proof (evaluation_errors_answer_500 server [Byte.x00] sum_request table_entry sum_plan
                (one_row "t" (KeyValue_S "a", None)) one_row e) as Hthm.
  specialize (Hthm Hde Hent Hp Hslow Hh Hw Hrow Hc He). exact Hthm.
Defined.

Lemma store_invariant_witness :
  exists handler, data_handler server "TransactWriteItems" = Some handler
  /\ store_ok (cs_schemas (app_catalog server)) (rows (handler [] one_row).2).
Proof.
  exists (handle_transact_write_items server). split; [reflexivity|].
  assert (Hop : data_handler server "TransactWriteItems" = Some (handle_transact_write_items server)) by reflexivity.
  assert (Hh : healthy one_row) by apply memory_healthy.
  pose proof (store_invariant server eq_refl server_distinct server_live "TransactWriteItems"
                (handle_transact_write_items server) [] one_row) as Hthm.
  specialize (Hthm Hop Hh server_store_ok). exact (proj2 Hthm).
Defined.

(** A put of [b] and a read of it; a delete of [b] and a read of it. *)
Lemma read_your_writes_witness :
  get_answers server [] (Some item_b) (handle_put_item server [] one_row).2
  /\ get_answers server [] None (handle_delete_item server [] one_row).2.
Proof.
  assert (Hent : require_serveable (app_catalog server) "T" = Ok table_entry) by (vm_compute; reflexivity).
  assert (Hg : translate_get_item (mkGetItemRequest "T" [("id", S_ "b")]) table_schema
               = Ok (mkGetItemPlan (KeyValue_S "b") None)) by (vm_compute; reflexivity).
  assert (Hde : de_get_item [] = inr (mkGetItemRequest "T" [("id", S_ "b")])) by reflexivity.
  assert (Hread : readable (shape table_schema) (KeyValue_S "b", None)) by exact I.
  assert (Hh : healthy one_row) by apply memory_healthy.
  destruct (read_your_writes server [] (mkGetItemRequest "T" [("id", S_ "b")]) table_entry
              (mkGetItemPlan (KeyValue_S "b") None) Hde Hent Hg Hread one_row Hh) as [Hput Hdel].
  split.
  - assert (Hr : (handle_put_item server [] one_row).1 = Ok (attributes_response None)) by (vm_compute; reflexivity).
    destruct (handle_put_item server [] one_row) as [r st1] eqn:E. cbn [fst snd] in *. subst r.
    eapply (Hput [] (mkPutItemRequest "T" item_b None None (Some "attribute_not_exists(id)") None));
      [reflexivity|reflexivity|split; by repeat constructor|vm_compute; reflexivity|done|vm_compute; reflexivity|exact E].
  - assert (Hr : (handle_delete_item server [] one_row).1 = Ok (attributes_response None)) by (vm_compute; reflexivity).
    destruct (handle_delete_item server [] one_row) as [r st1] eqn:E. cbn [fst snd] in *. subst r.
    eapply (Hdel [] (mkDeleteItemRequest "T" [("id", S_ "b")] None None None None));
      [reflexivity|reflexivity|vm_compute; reflexivity|done|vm_compute; reflexivity|exact E].
Defined.

(** The transaction puts [b] and checks that [a] exists. *)
Lemma transact_write_witness :
  exists ops, collect (transact_write_op server) (twp_items transact_plan) = Ok ops
  /\ length ops = 2
  /\ (handle_transact_write_items server [] one_row).1 = Ok (json_ok (VObject [])).
Proof.
  destruct (transact_write_atomic server server_distinct server_live [] transact_request transact_plan one_row)
    as (ops & Hops & Hlen & _);
    [vm_compute; reflexivity|vm_compute; reflexivity|vm_compute; reflexivity|apply memory_healthy
    |exact server_store_ok|].
  exists ops. split; [done|]. split; [done|]. vm_compute. reflexivity.
Defined.
