(* ===== verification/PgWrite.v ===== *)
(** * The row statements of the backend

    The fragment of SQL that [shape.rs], [update.rs], [put_delete.rs],
    [batch_get.rs] and [batch_write.rs] emit on the table of a shape: its
    abstract syntax, its text and what PostgreSQL documents about running
    it, on tables whose key columns are generated from the JSONB
    document. *)

From Stdlib Require Import Ascii.
From S2P Require Import Prelude RustStr BTree Json Attr Ast Storage PgTypes PgSelect Query ConditionSql.
From S2P Require Import Schema Plan Checks Backend.

#[local] Open Scope N_scope.

(** ** Syntax *)

(** The new document of a merging update: [jsonb_set] and [-] over the
    current one, the names and values by their placeholders. *)
Inductive doc_expr : Type :=
| DocRow
| DocSet (e : doc_expr) (name value : N)
| DocRemove (e : doc_expr) (name : N).

Inductive row_stmt : Type :=
| StGet (for_update : bool)
| StPut
| StInsert
| StUpdate
| StDelete (returning : bool)
| StMerge (e : doc_expr)
| StUpdateWhere (e : doc_expr) (c : sql_bool)
| StPutMany (n : nat)
| StGetMany (n : nat)
| StDeleteMany (n : nat).

Definition dollar (n : N) : string := "$" +:+ usize_to_string n.

Fixpoint doc_text (base : string) (e : doc_expr) : string :=
  match e with
  | DocRow => base
  | DocSet e n v => "jsonb_set(" +:+ doc_text base e +:+ ", ARRAY[" +:+ dollar n +:+ "::text], "
                    +:+ dollar v +:+ "::jsonb)"
  | DocRemove e n => "(" +:+ doc_text base e +:+ ") - " +:+ dollar n +:+ "::text"
  end.

(** The key column expression over a document, by the text of the
    extraction; [N] is cast, [B] decoded. *)
Definition typed_text (ty : KeyType) (extracted in_cast : string) : string :=
  match ty with
  | KeyType_S => extracted
  | KeyType_N => in_cast +:+ "::numeric"
  | KeyType_B => "decode(" +:+ extracted +:+ ", 'base64')"
  end.

Definition tag_name (ty : KeyType) : string :=
  match ty with KeyType_S => "S" | KeyType_N => "N" | KeyType_B => "B" end.

(** [#>> '{attr,T}']. *)
Definition path_text (c : DualWriteCol) : string :=
  " #>> '{" +:+ dw_attr c +:+ "," +:+ tag_name (dw_key_type c) +:+ "}'".

Inductive doc_source : Type := FromParam (n : N) | FromExcluded | FromExpr (text : string).

Definition column_text (jsonb_col : string) (src : doc_source) (c : DualWriteCol) : string :=
  match src with
  | FromParam n =>
      let x := "(" +:+ dollar n +:+ "::jsonb" +:+ path_text c +:+ ")" in typed_text (dw_key_type c) x x
  | FromExcluded =>
      let x := "EXCLUDED." +:+ jsonb_col +:+ path_text c in
      typed_text (dw_key_type c) x ("(" +:+ x +:+ ")")
  | FromExpr e =>
      let x := "(" +:+ e +:+ ")" +:+ path_text c in typed_text (dw_key_type c) x ("(" +:+ x +:+ ")")
  end.

Section text.
Variable shape : TableShape.

Let table := quote_ident (shape_table shape).
Let data := quote_ident (shape_jsonb_col shape).
Let pk := quote_ident (shape_pk_col shape).

(** The key columns with their types. *)
Definition key_cols : list (string * KeyType) :=
  (shape_pk_col shape, shape_pk_type shape)
  :: match shape_sk_col shape, shape_sk_type shape with Some c, Some t => [(c, t)] | _, _ => [] end.

(** [pk = $i [AND sk = $i+1]]. *)
Definition key_pred (i : N) : string :=
  match key_cols with
  | [(c, t); (c', t')] =>
      quote_ident c +:+ " = " +:+ placeholder i t +:+ " AND " +:+ quote_ident c' +:+ " = " +:+ placeholder (i + 1) t'
  | _ => pk +:+ " = " +:+ placeholder i (shape_pk_type shape)
  end.

Definition conflict_cols : string :=
  match shape_sk_col shape with
  | None => pk
  | Some sk => pk +:+ ", " +:+ quote_ident sk
  end.

(** A list of pieces, each after a comma. *)
Definition commas {A} (f : A -> string) (l : list A) : string := String.concat "" (map (fun x => ", " +:+ f x) l).

Definition dw_names : string := commas (fun c => quote_ident (dw_col c)) (shape_dual_write_cols shape).
Definition dw_values (src : doc_source) : string :=
  commas (column_text (shape_jsonb_col shape) src) (shape_dual_write_cols shape).
Definition dw_assign (src : doc_source) : string :=
  commas (fun c => quote_ident (dw_col c) +:+ " = " +:+ column_text (shape_jsonb_col shape) src c)
    (shape_dual_write_cols shape).

(** The number of key parameters. *)
Definition key_arity : N := match shape_sk_col shape with None => 1 | Some _ => 2 end.

Definition prev_text (i : N) : string :=
  "WITH prev AS (SELECT " +:+ data +:+ " AS old_data FROM " +:+ table +:+ " WHERE " +:+ key_pred i +:+ ") ".

(** [1 .. n] as placeholders, and the pairs of a list of keys. *)
Definition pairs_text (n : nat) : string :=
  String.concat ", " (map (fun i => let i := N.of_nat i in
    match key_cols with
    | [(_, t); (_, t')] => "(" +:+ placeholder (i * 2 + 1) t +:+ ", " +:+ placeholder (i * 2 + 2) t' +:+ ")"
    | _ => ""
    end) (seq 0 n)).

Definition keys_pred (n : nat) : string :=
  match shape_sk_col shape with
  | None => pk +:+ " = ANY($1" +:+ match shape_pk_type shape with KeyType_N => "::numeric[]" | _ => "" end +:+ ")"
  | Some sk => "(" +:+ pk +:+ ", " +:+ quote_ident sk +:+ ") IN (" +:+ pairs_text n +:+ ")"
  end.

Definition put_rows_text (n : nat) : string :=
  String.concat ", " (map (fun i => let p := N.of_nat i + 1 in
    "(" +:+ dollar p +:+ "::jsonb" +:+ dw_values (FromParam p) +:+ ")") (seq 0 n)).

Definition stmt_text (st : row_stmt) : string :=
  match st with
  | StGet for_update =>
      "SELECT " +:+ data +:+ " FROM " +:+ table +:+ " WHERE " +:+ key_pred 1
      +:+ if for_update then " FOR UPDATE" else ""
  | StPut =>
      prev_text 1 +:+ "INSERT INTO " +:+ table +:+ " (" +:+ data +:+ dw_names +:+ ") VALUES ("
      +:+ dollar (key_arity + 1) +:+ dw_values (FromParam (key_arity + 1)) +:+ ") ON CONFLICT ("
      +:+ conflict_cols +:+ ") DO UPDATE SET " +:+ data +:+ " = EXCLUDED." +:+ data +:+ dw_assign FromExcluded
      +:+ " RETURNING (SELECT old_data FROM prev) AS old_data"
  | StInsert =>
      "INSERT INTO " +:+ table +:+ " (" +:+ data +:+ dw_names +:+ ") VALUES ($1::jsonb"
      +:+ dw_values (FromParam 1) +:+ ") ON CONFLICT (" +:+ conflict_cols +:+ ") DO NOTHING RETURNING " +:+ data
  | StUpdate =>
      "UPDATE " +:+ table +:+ " SET " +:+ data +:+ " = $1" +:+ dw_assign (FromParam 1) +:+ " WHERE " +:+ key_pred 2
  | StDelete returning =>
      "DELETE FROM " +:+ table +:+ " WHERE " +:+ key_pred 1 +:+ if returning then " RETURNING " +:+ data else ""
  | StMerge e =>
      prev_text 1 +:+ "INSERT INTO " +:+ table +:+ " (" +:+ data +:+ dw_names +:+ ") VALUES ("
      +:+ dollar (key_arity + 1) +:+ "::jsonb" +:+ dw_values (FromParam (key_arity + 1)) +:+ ") ON CONFLICT ("
      +:+ conflict_cols +:+ ") DO UPDATE SET " +:+ data +:+ " = " +:+ doc_text (table +:+ "." +:+ data) e
      +:+ dw_assign (FromExpr (doc_text (table +:+ "." +:+ data) e)) +:+ " RETURNING " +:+ data
      +:+ " AS new_data, (SELECT old_data FROM prev) AS old_data"
  | StUpdateWhere e c =>
      prev_text 1 +:+ "UPDATE " +:+ table +:+ " SET " +:+ data +:+ " = " +:+ doc_text (table +:+ "." +:+ data) e
      +:+ dw_assign (FromExpr (doc_text (table +:+ "." +:+ data) e)) +:+ " WHERE " +:+ key_pred 1 +:+ " AND ("
      +:+ bool_text (table +:+ "." +:+ data) c +:+ ") RETURNING " +:+ data
      +:+ " AS new_data, (SELECT old_data FROM prev) AS old_data"
  | StPutMany n =>
      "INSERT INTO " +:+ table +:+ " (" +:+ data +:+ dw_names +:+ ") VALUES " +:+ put_rows_text n
      +:+ " ON CONFLICT (" +:+ conflict_cols +:+ ") DO UPDATE SET " +:+ data +:+ " = EXCLUDED." +:+ data
      +:+ dw_assign FromExcluded
  | StGetMany n => "SELECT " +:+ data +:+ " FROM " +:+ table +:+ " WHERE " +:+ keys_pred n
  | StDeleteMany n => "DELETE FROM " +:+ table +:+ " WHERE " +:+ keys_pred n
  end.
End text.

(** ** Tables *)

(** A stored row: its document and its dual-write columns (absent:
    NULL). The key columns are those of the key it is stored under. *)
Record trow : Type := mkTrow {
  trow_doc : Value;
  trow_cols : gmap string KeyValue
}.

Definition Tables : Type := string -> Key -> option trow.

Definition docs (m : Tables) : Rows := fun t k => trow_doc <$> m t k.

(** ** Meaning *)

Section meaning.
Context `{RowKeys} `{Base64} `{SqlCompare}.

Definition put_row (t : string) (k : Key) (r : option trow) (m : Tables) : Tables :=
  fun t' k' => if String.eqb t t' && same_key k k' then r else m t' k'.

Lemma docs_put_row t k r m : rows_eq (docs (put_row t k r m)) (set_row t k (trow_doc <$> r) (docs m)).
Proof. intros t' k'. unfold docs, put_row, set_row. by case_match. Qed.

Variable shape : TableShape.
Let table := shape_table shape.

(** A key parameter, read at the column's type. *)
Definition key_of_param (ty : KeyType) (p : Param) : option KeyValue :=
  match p with
  | Param_Bound v => Some v
  | Param_Text s => match ty with KeyType_S => Some (KeyValue_S s) | KeyType_N => Some (KeyValue_N s) | _ => None end
  | Param_Bytes b => match ty with KeyType_B => Some (KeyValue_B b) | _ => None end
  | _ => None
  end.

(** The key in front of a parameter list, and the rest. *)
Definition take_key (params : list Param) : option (Key * list Param) :=
  match shape_sk_col shape, shape_sk_type shape, params with
  | None, _, p :: rest => pk ← key_of_param (shape_pk_type shape) p; Some ((pk, None), rest)
  | Some _, Some t, p :: q :: rest =>
      pk ← key_of_param (shape_pk_type shape) p; sk ← key_of_param t q; Some ((pk, Some sk), rest)
  | _, _, _ => None
  end.

Fixpoint take_keys (n : nat) (params : list Param) : option (list Key) :=
  match n with
  | O => match params with [] => Some [] | _ => None end
  | S n => kr ← take_key params; ks ← take_keys n kr.2; Some (kr.1 :: ks)
  end.

(** The keys of a batch: one array for a hash-only table, pairs
    otherwise. *)
Definition batch_keys (n : nat) (params : list Param) : option (list Key) :=
  match shape_sk_col shape, params with
  | None, [Param_TextArray l] =>
      match shape_pk_type shape with
      | KeyType_S => Some (map (fun s => (KeyValue_S s, None)) l)
      | KeyType_N => Some (map (fun s => (KeyValue_N s, None)) l)
      | KeyType_B => None
      end
  | None, [Param_ByteaArray l] =>
      match shape_pk_type shape with KeyType_B => Some (map (fun b => (KeyValue_B b, None)) l) | _ => None end
  | None, _ => None
  | Some _, _ => take_keys n params
  end.

Definition param_n (params : list Param) (n : N) : option Param := params !! pred (N.to_nat n).

(** [jsonb_set] and [-] on objects. *)
Fixpoint doc_value (params : list Param) (d : Value) (e : doc_expr) : option Value :=
  match e with
  | DocRow => Some d
  | DocSet e n v =>
      d' ← doc_value params d e;
      match d', param_n params n, param_n params v with
      | VObject o, Some (Param_Text name), Some (Param_Json x) => Some (VObject (BTreeMap.insert name x o))
      | _, _, _ => None
      end
  | DocRemove e n =>
      d' ← doc_value params d e;
      match d', param_n params n with
      | VObject o, Some (Param_Text name) => Some (VObject (BTreeMap.remove name o))
      | _, _ => None
      end
  end.

(** The dual-write columns a statement computes from the new document. *)
Definition set_col (d : Value) (cols : gmap string KeyValue) (c : DualWriteCol) : gmap string KeyValue :=
  match extract_key_from_jsonb d (dw_attr c) (dw_key_type c) with
  | Some v => <[dw_col c := v]> cols
  | None => delete (dw_col c) cols
  end.
Definition set_cols (d : Value) (cols : gmap string KeyValue) : gmap string KeyValue :=
  fold_left (set_col d) (shape_dual_write_cols shape) cols.

(** The row under [k] gets the document [d]; its key columns are
    generated anew. [None]: a constraint is violated. *)
Definition store (k : Key) (d : Value) (m : Tables) : option Tables :=
  k' ← lek_from_row d shape;
  let r := mkTrow d (set_cols d (default ∅ (trow_cols <$> m table k))) in
  if same_key k k' then Some (put_row table k (Some r) m)
  else match m table k' with
       | Some _ => None
       | None => Some (put_row table k' (Some r) (put_row table k None m))
       end.

Definition insert (d : Value) (m : Tables) : option Tables :=
  k' ← lek_from_row d shape; Some (put_row table k' (Some (mkTrow d (set_cols d ∅))) m).

(** [INSERT .. ON CONFLICT DO UPDATE SET data = EXCLUDED.data]. *)
Definition upsert (d : Value) (m : Tables) : option Tables :=
  k' ← lek_from_row d shape;
  match m table k' with Some _ => store k' d m | None => insert d m end.

(** What a statement returns: the rows of its RETURNING or SELECT list,
    the number of rows it selected or changed, and the tables. *)
Definition Output : Type := list (list (option Value)) * N * Tables.

Definition json_params (params : list Param) : option (list Value) :=
  mapM (fun p => match p with Param_Json v => Some v | _ => None end) params.

(** No two of the keys are one row's: an upsert cannot touch a row
    twice. *)
Fixpoint no_same_key (ks : list Key) : bool :=
  match ks with
  | [] => true
  | k :: ks => negb (existsb (same_key k) ks) && no_same_key ks
  end.

(** Each row once. *)
Fixpoint dedup_keys (ks : list Key) : list Key :=
  match ks with
  | [] => []
  | k :: ks => k :: List.filter (fun k' => negb (same_key k k')) (dedup_keys ks)
  end.

Definition stmt_exec (st : row_stmt) (params : list Param) (m : Tables) : option Output :=
  match st with
  | StGet _ =>
      kr ← take_key params;
      match kr.2, m table kr.1 with
      | [], Some r => Some ([[Some (trow_doc r)]], 1, m)
      | [], None => Some ([], 0, m)
      | _, _ => None
      end
  | StPut =>
      kr ← take_key params;
      match kr.2 with
      | [Param_Json d] => m' ← upsert d m; Some ([[docs m table kr.1]], 1, m')
      | _ => None
      end
  | StInsert =>
      match params with
      | [Param_Json d] =>
          k' ← lek_from_row d shape;
          match m table k' with
          | Some _ => Some ([], 0, m)
          | None => m' ← insert d m; Some ([[Some d]], 1, m')
          end
      | _ => None
      end
  | StUpdate =>
      match params with
      | Param_Json d :: rest =>
          kr ← take_key rest;
          match kr.2, m table kr.1 with
          | [], Some _ => m' ← store kr.1 d m; Some ([], 1, m')
          | [], None => Some ([], 0, m)
          | _, _ => None
          end
      | _ => None
      end
  | StDelete returning =>
      kr ← take_key params;
      match kr.2, m table kr.1 with
      | [], Some r => Some (if returning : bool then [[Some (trow_doc r)]] else [], 1, put_row table kr.1 None m)
      | [], None => Some ([], 0, m)
      | _, _ => None
      end
  | StMerge e =>
      kr ← take_key params;
      match kr.2 with
      | Param_Json d :: _ =>
          k' ← lek_from_row d shape;
          match m table k' with
          | Some r =>
              d' ← doc_value params (trow_doc r) e;
              m' ← store k' d' m; Some ([[Some d'; docs m table kr.1]], 1, m')
          | None => m' ← insert d m; Some ([[Some d; docs m table kr.1]], 1, m')
          end
      | _ => None
      end
  | StUpdateWhere e c =>
      kr ← take_key params;
      match m table kr.1 with
      | Some r =>
          if bool_decide (bool_value (trow_doc r) params c = Some true)
          then d' ← doc_value params (trow_doc r) e;
               m' ← store kr.1 d' m; Some ([[Some d'; Some (trow_doc r)]], 1, m')
          else Some ([], 0, m)
      | None => Some ([], 0, m)
      end
  | StPutMany n =>
      ds ← json_params params;
      ks ← mapM (fun d => lek_from_row d shape) ds;
      if bool_decide (length ds = n) && no_same_key ks
      then m' ← fold_left (fun m d => m ≫= upsert d) ds (Some m); Some ([], N.of_nat n, m')
      else None
  | StGetMany n =>
      ks ← batch_keys n params;
      let out := omap (fun k => (fun d => [Some d]) <$> docs m table k) (dedup_keys ks) in
      Some (out, N.of_nat (length out), m)
  | StDeleteMany n =>
      ks ← batch_keys n params;
      Some ([], N.of_nat (length (omap (m table) (dedup_keys ks))),
            fold_left (fun m k => put_row table k None m) ks m)
  end.
End meaning.

(** ** The server

    A session of the pool: [committed] is what other sessions see,
    [in_tx] the tables as the open transaction sees them. *)
Inductive isolation : Type := ReadCommitted | RepeatableRead | RepeatableReadOnly.

Class PgServer (Srv : Type) : Type := {
  committed : Srv -> Tables;
  in_tx : Srv -> option Tables;
  (** The live definition of a table. *)
  table_def : string -> option TableShape;
  pg_client : Srv -> ((PoolError * N) + unit) * Srv;
  pg_prepare : string -> list PgType -> Srv -> (PgFailure + unit) * Srv;
  pg_run : string -> list Param -> Srv -> (PgFailure + list (list (option Value)) * N) * Srv;
  pg_begin : isolation -> Srv -> (PgFailure + unit) * Srv;
  pg_commit : Srv -> (PgFailure + unit) * Srv;
  pg_rollback : Srv -> (PgFailure + unit) * Srv;
  (** A [Transaction] dropped without a commit. *)
  pg_drop : Srv -> Srv
}.

Definition param_type (p : Param) : PgType :=
  match p with
  | Param_Bound (KeyValue_S _ | KeyValue_N _) | Param_Text _ => PgType_TEXT
  | Param_Bound (KeyValue_B _) | Param_Bytes _ => PgType_BYTEA
  | Param_Int8 _ => PgType_INT8
  | Param_Json _ => PgType_JSONB
  | Param_TextArray _ => PgType_TEXT_ARRAY
  | Param_ByteaArray _ => PgType_BYTEA_ARRAY
  end.

(** The tables the session sees. *)
Definition visible {Srv} `{PgServer Srv} (srv : Srv) : Tables := default (committed srv) (in_tx srv).

(** The shapes of a table that is live: all its columns, for writes; at
    least its key columns, for reads. *)
Definition live_shape {Srv} `{PgServer Srv} (shape : TableShape) : Prop :=
  table_def (shape_table shape) = Some shape.
Definition same_columns (shape full : TableShape) : Prop :=
  shape_table shape = shape_table full /\ shape_pk_col shape = shape_pk_col full
  /\ shape_pk_type shape = shape_pk_type full /\ shape_sk_col shape = shape_sk_col full
  /\ shape_sk_type shape = shape_sk_type full /\ shape_jsonb_col shape = shape_jsonb_col full.
Definition live_columns {Srv} `{PgServer Srv} (shape : TableShape) : Prop :=
  exists full, table_def (shape_table shape) = Some full /\ same_columns shape full.

(** The keys among the parameters of a statement, and their types. *)
Definition stmt_keys (shape : TableShape) (st : row_stmt) (params : list Param) : list Key :=
  match st with
  | StGet _ | StPut | StDelete _ | StMerge _ | StUpdateWhere _ _ => option_list (fst <$> take_key shape params)
  | StUpdate => option_list (fst <$> take_key shape (tail params))
  | StInsert | StPutMany _ => []
  | StGetMany n | StDeleteMany n => default [] (batch_keys shape n params)
  end.

Definition key_typed (shape : TableShape) (k : Key) : Prop :=
  key_type k.1 = shape_pk_type shape
  /\ match k.2, shape_sk_type shape with
     | Some v, Some t => key_type v = t
     | None, None => True
     | _, _ => False
     end.

(** Names that stand for themselves where they are not quoted: an
    attribute inside a text-path literal, the JSONB column after
    [EXCLUDED]. *)
Definition plain_char (c : ascii) : bool := is_ascii_lower c || is_ascii_digit c || Ascii.eqb c "_".
Definition path_char (c : ascii) : bool :=
  is_ascii_alphanumeric c || Ascii.eqb c "_" || Ascii.eqb c "-" || Ascii.eqb c "." || Ascii.eqb c ":".
Definition plain_names (shape : TableShape) : Prop :=
  shape_dual_write_cols shape <> [] ->
  str_forall plain_char (shape_jsonb_col shape) = true
  /\ Forall (fun c => str_forall path_char (dw_attr c) = true /\ dw_attr c <> EmptyString
                      /\ str_lower (dw_attr c) <> "null")
       (shape_dual_write_cols shape).

(** Statements that do not depend on the dual-write columns. *)
Definition reads_columns (st : row_stmt) : bool :=
  match st with StGet _ | StDelete _ | StGetMany _ | StDeleteMany _ => true | _ => false end.

(** A session in which nothing happened. *)
Definition unchanged {Srv} `{PgServer Srv} (srv srv' : Srv) : Prop :=
  committed srv' = committed srv /\ in_tx srv' = in_tx srv.

(** An output up to the order of a SELECT's rows. *)
Definition same_output (out : list (list (option Value)) * N) (o : Output) : Prop :=
  out.1 ≡ₚ o.1.1 /\ out.2 = o.1.2.

(** What PostgreSQL and its client library document: a statement that
    succeeds has had its effect, in the open transaction if there is one;
    one the server reports as failed has had none; outside a transaction
    one whose connection is lost (no server error) has had it or not; a
    commit publishes the transaction, and a failed commit has done so or
    not; everything else leaves the tables alone. *)
Class PgLaws (Srv : Type) `{PgServer Srv} `{RowKeys} `{Base64} `{SqlCompare} : Prop := {
  committed_by_key : forall srv t k k', same_key k k' = true -> committed srv t k = committed srv t k';
  client_law : forall srv, unchanged srv (pg_client srv).2;
  prepare_law : forall sql types srv, unchanged srv (pg_prepare sql types srv).2;
  run_law : forall shape st params srv,
    (live_shape shape /\ plain_names shape) \/ (live_columns shape /\ reads_columns st = true) ->
    Forall (key_typed shape) (stmt_keys shape st params) ->
    match pg_run (stmt_text shape st) params srv with
    | (inr out, srv') =>
        exists o, stmt_exec shape st params (visible srv) = Some o /\ same_output out o
        /\ match in_tx srv with
           | None => committed srv' = o.2 /\ in_tx srv' = None
           | Some _ => committed srv' = committed srv /\ in_tx srv' = Some o.2
           end
    | (inl e, srv') =>
        (in_tx srv = None -> in_tx srv' = None)
        /\ (committed srv' = committed srv
            \/ in_tx srv = None /\ db_error e = None
               /\ exists o, stmt_exec shape st params (visible srv) = Some o /\ committed srv' = o.2)
    end;
  select_law : forall sel params srv, let srv' := (pg_run (render sel) params srv).2 in
    committed srv' = committed srv /\ (in_tx srv = None -> in_tx srv' = None);
  begin_law : forall iso srv, in_tx srv = None ->
    let '(r, srv') := pg_begin iso srv in
    committed srv' = committed srv
    /\ in_tx srv' = match r with inr _ => Some (committed srv) | inl _ => None end;
  commit_law : forall srv m, in_tx srv = Some m ->
    let '(r, srv') := pg_commit srv in
    in_tx srv' = None
    /\ (committed srv' = m \/ (committed srv' = committed srv /\ exists e, r = inl e));
  rollback_law : forall srv, let srv' := (pg_rollback srv).2 in
    committed srv' = committed srv /\ in_tx srv' = None;
  drop_law : forall srv, committed (pg_drop srv) = committed srv /\ in_tx (pg_drop srv) = None
}.
