(* ===== verification/PgSql.v ===== *)
(** * SQL builders of the row operations (rekt-storage-libpq, [shape.rs]
    and [update.rs])

    The texts and parameter types as the code assembles them; each is the
    text of a statement of [PgWrite]. *)

From S2P Require Import Prelude RustStr BTree Json Attr Ast Storage Schema Plan Checks PgTypes PgSelect.
From S2P Require Import Query ConditionSql Catalog Backend PgWrite.

#[local] Open Scope N_scope.

(** ** shape.rs *)

Definition dual_write_extract_expr (item_param : N) (col : DualWriteCol) : string :=
  let attr := dw_attr col in
  match dw_key_type col with
  | KeyType_S => "($" +:+ usize_to_string item_param +:+ "::jsonb #>> '{" +:+ attr +:+ ",S}')"
  | KeyType_N => "($" +:+ usize_to_string item_param +:+ "::jsonb #>> '{" +:+ attr +:+ ",N}')::numeric"
  | KeyType_B => "decode(($" +:+ usize_to_string item_param +:+ "::jsonb #>> '{" +:+ attr +:+ ",B}'), 'base64')"
  end.

Definition dual_write_set_excluded (col : DualWriteCol) (jsonb_col : string) : string :=
  let pg_col := quote_ident (dw_col col) in
  let extract :=
    match dw_key_type col with
    | KeyType_S => "EXCLUDED." +:+ jsonb_col +:+ " #>> '{" +:+ dw_attr col +:+ ",S}'"
    | KeyType_N => "(EXCLUDED." +:+ jsonb_col +:+ " #>> '{" +:+ dw_attr col +:+ ",N}')::numeric"
    | KeyType_B => "decode(EXCLUDED." +:+ jsonb_col +:+ " #>> '{" +:+ dw_attr col +:+ ",B}', 'base64')"
    end in
  pg_col +:+ " = " +:+ extract.

Definition dual_write_set_from_param (param : N) (col : DualWriteCol) : string :=
  quote_ident (dw_col col) +:+ " = " +:+ dual_write_extract_expr param col.

Definition dual_write_set_from_expr (expr : string) (col : DualWriteCol) : string :=
  let attr := dw_attr col in
  let extract :=
    match dw_key_type col with
    | KeyType_S => "(" +:+ expr +:+ ") #>> '{" +:+ attr +:+ ",S}'"
    | KeyType_N => "((" +:+ expr +:+ ") #>> '{" +:+ attr +:+ ",N}')::numeric"
    | KeyType_B => "decode((" +:+ expr +:+ ") #>> '{" +:+ attr +:+ ",B}', 'base64')"
    end in
  quote_ident (dw_col col) +:+ " = " +:+ extract.

Record ShapeSql : Type := mkShapeSql {
  put_sql : string;
  get_sql : string;
  delete_sql : string;
  put_types : list PgType;
  key_types : list PgType
}.

(** [iter().map(|c| format!(", {}", f(c))).collect::<String>()]. *)
Definition comma_each {A} (f : A -> string) (l : list A) : string :=
  String.concat "" (map (fun c => ", " +:+ f c) l).

(** [ShapeSql::build]. *)
Definition build {E} (shape : TableShape) : Result E ShapeSql :=
  let table := quote_ident (shape_table shape) in
  let pk_col := quote_ident (shape_pk_col shape) in
  let jsonb_col := quote_ident (shape_jsonb_col shape) in
  let pk_cast := cast_for_keytype (shape_pk_type shape) in
  let pk_pg := pg_type_for_keytype (shape_pk_type shape) in
  let dwc := shape_dual_write_cols shape in
  let insert_cols := comma_each (fun c => quote_ident (dw_col c)) dwc in
  let set_cols := comma_each (fun c => dual_write_set_excluded c (shape_jsonb_col shape)) dwc in
  match shape_sk_col shape, shape_sk_type shape with
  | None, _ =>
      let values := comma_each (dual_write_extract_expr 2) dwc in
      Ok (mkShapeSql
        ("WITH prev AS (SELECT " +:+ jsonb_col +:+ " AS old_data FROM " +:+ table +:+ " WHERE " +:+ pk_col
         +:+ " = $1" +:+ pk_cast +:+ ") INSERT INTO " +:+ table +:+ " (" +:+ jsonb_col +:+ insert_cols
         +:+ ") VALUES ($2" +:+ values +:+ ") ON CONFLICT (" +:+ pk_col +:+ ") DO UPDATE SET " +:+ jsonb_col
         +:+ " = EXCLUDED." +:+ jsonb_col +:+ set_cols
         +:+ " RETURNING (SELECT old_data FROM prev) AS old_data")
        ("SELECT " +:+ jsonb_col +:+ " FROM " +:+ table +:+ " WHERE " +:+ pk_col +:+ " = $1" +:+ pk_cast)
        ("DELETE FROM " +:+ table +:+ " WHERE " +:+ pk_col +:+ " = $1" +:+ pk_cast +:+ " RETURNING " +:+ jsonb_col)
        [pk_pg; PgType_JSONB] [pk_pg])
  | Some sk_col_name, Some sk_type =>
      let sk_col := quote_ident sk_col_name in
      let sk_cast := cast_for_keytype sk_type in
      let sk_pg := pg_type_for_keytype sk_type in
      let values := comma_each (dual_write_extract_expr 3) dwc in
      Ok (mkShapeSql
        ("WITH prev AS (SELECT " +:+ jsonb_col +:+ " AS old_data FROM " +:+ table +:+ " WHERE " +:+ pk_col
         +:+ " = $1" +:+ pk_cast +:+ " AND " +:+ sk_col +:+ " = $2" +:+ sk_cast +:+ ") INSERT INTO " +:+ table
         +:+ " (" +:+ jsonb_col +:+ insert_cols +:+ ") VALUES ($3" +:+ values +:+ ") ON CONFLICT (" +:+ pk_col
         +:+ ", " +:+ sk_col +:+ ") DO UPDATE SET " +:+ jsonb_col +:+ " = EXCLUDED." +:+ jsonb_col +:+ set_cols
         +:+ " RETURNING (SELECT old_data FROM prev) AS old_data")
        ("SELECT " +:+ jsonb_col +:+ " FROM " +:+ table +:+ " WHERE " +:+ pk_col +:+ " = $1" +:+ pk_cast
         +:+ " AND " +:+ sk_col +:+ " = $2" +:+ sk_cast)
        ("DELETE FROM " +:+ table +:+ " WHERE " +:+ pk_col +:+ " = $1" +:+ pk_cast +:+ " AND " +:+ sk_col
         +:+ " = $2" +:+ sk_cast +:+ " RETURNING " +:+ jsonb_col)
        [pk_pg; sk_pg; PgType_JSONB] [pk_pg; sk_pg])
  | Some _, None => Panic
  end.

(** [parts.sort()]. *)
Definition sort_strings (l : list string) : list string := foldr insert_name [] l.

Definition shape_cache_key (shape : TableShape) : string :=
  match shape_dual_write_cols shape with
  | [] => shape_table shape
  | dwc =>
      let parts := map (fun c => dw_col c +:+ ":" +:+ dw_attr c +:+ ":"
                                 +:+ match dw_key_type c with KeyType_S => "S" | KeyType_N => "N" | KeyType_B => "B" end)
                     dwc in
      shape_table shape +:+ "|dw=" +:+ String.concat "," (sort_strings parts)
  end.

(** ** update.rs *)

Definition build_insert_only_sql (shape : TableShape) : string :=
  let table := quote_ident (shape_table shape) in
  let pk_col := quote_ident (shape_pk_col shape) in
  let jsonb_col := quote_ident (shape_jsonb_col shape) in
  let conflict_cols := match shape_sk_col shape with
                       | None => pk_col
                       | Some sk => pk_col +:+ ", " +:+ quote_ident sk
                       end in
  let dwc := shape_dual_write_cols shape in
  let insert_cols := comma_each (fun c => quote_ident (dw_col c)) dwc in
  let insert_values := comma_each (dual_write_extract_expr 1) dwc in
  "INSERT INTO " +:+ table +:+ " (" +:+ jsonb_col +:+ insert_cols +:+ ") VALUES ($1::jsonb" +:+ insert_values
  +:+ ") ON CONFLICT (" +:+ conflict_cols +:+ ") DO NOTHING RETURNING " +:+ jsonb_col.

Record RmwSqlPrep : Type := mkRmwSqlPrep {
  select_sql : string;
  update_sql : string;
  insert_sql : string;
  rmw_key_types : list PgType;
  update_types : list PgType
}.

(** [RmwSqlPrep::build]. *)
Definition rmw_build {E} (shape : TableShape) : Result E RmwSqlPrep :=
  let table := quote_ident (shape_table shape) in
  let pk_col := quote_ident (shape_pk_col shape) in
  let jsonb_col := quote_ident (shape_jsonb_col shape) in
  let pk_cast := cast_for_keytype (shape_pk_type shape) in
  let pk_pg := pg_type_for_keytype (shape_pk_type shape) in
  let set_from_param1 := comma_each (dual_write_set_from_param 1) (shape_dual_write_cols shape) in
  let? (select_sql, update_sql, key_types) :=
    match shape_sk_col shape, shape_sk_type shape with
    | None, _ =>
        Ok ("SELECT " +:+ jsonb_col +:+ " FROM " +:+ table +:+ " WHERE " +:+ pk_col +:+ " = $1" +:+ pk_cast
              +:+ " FOR UPDATE",
            "UPDATE " +:+ table +:+ " SET " +:+ jsonb_col +:+ " = $1" +:+ set_from_param1 +:+ " WHERE " +:+ pk_col
              +:+ " = $2" +:+ pk_cast,
            [pk_pg])
    | Some sk_col_name, Some sk_type =>
        let sk_col_q := quote_ident sk_col_name in
        let sk_cast := cast_for_keytype sk_type in
        let sk_pg := pg_type_for_keytype sk_type in
        Ok ("SELECT " +:+ jsonb_col +:+ " FROM " +:+ table +:+ " WHERE " +:+ pk_col +:+ " = $1" +:+ pk_cast
              +:+ " AND " +:+ sk_col_q +:+ " = $2" +:+ sk_cast +:+ " FOR UPDATE",
            "UPDATE " +:+ table +:+ " SET " +:+ jsonb_col +:+ " = $1" +:+ set_from_param1 +:+ " WHERE " +:+ pk_col
              +:+ " = $2" +:+ pk_cast +:+ " AND " +:+ sk_col_q +:+ " = $3" +:+ sk_cast,
            [pk_pg; sk_pg])
    | Some _, None => Panic
    end in
  Ok (mkRmwSqlPrep select_sql update_sql (build_insert_only_sql shape) key_types (PgType_JSONB :: key_types)).

(** The loops over the SET and REMOVE clauses: the expression and the
    next placeholder. *)
Fixpoint set_chain (n_sets : nat) (expr : string) (param_idx : N) : string * N :=
  match n_sets with
  | O => (expr, param_idx)
  | S n => set_chain n ("jsonb_set(" +:+ expr +:+ ", ARRAY[$" +:+ usize_to_string param_idx +:+ "::text], $"
                        +:+ usize_to_string (param_idx + 1) +:+ "::jsonb)") (param_idx + 2)
  end.
Fixpoint remove_chain (n_removes : nat) (expr : string) (param_idx : N) : string * N :=
  match n_removes with
  | O => (expr, param_idx)
  | S n => remove_chain n ("(" +:+ expr +:+ ") - $" +:+ usize_to_string param_idx +:+ "::text") (param_idx + 1)
  end.

Definition build_update_sql {E} (shape : TableShape) (n_sets n_removes : nat) : Result E string :=
  let table := quote_ident (shape_table shape) in
  let pk_col := quote_ident (shape_pk_col shape) in
  let jsonb_col := quote_ident (shape_jsonb_col shape) in
  let pk_cast := cast_for_keytype (shape_pk_type shape) in
  let conflict_cols := match shape_sk_col shape with
                       | None => pk_col
                       | Some sk => pk_col +:+ ", " +:+ quote_ident sk
                       end in
  let? (cte_where, insert_param_idx) :=
    match shape_sk_col shape, shape_sk_type shape with
    | None, _ => Ok (pk_col +:+ " = $1" +:+ pk_cast, 2)
    | Some sk_col, Some sk_type =>
        Ok (pk_col +:+ " = $1" +:+ pk_cast +:+ " AND " +:+ quote_ident sk_col +:+ " = $2"
              +:+ cast_for_keytype sk_type, 3)
    | Some _, None => Panic
    end in
  let (expr, param_idx) := set_chain n_sets (table +:+ "." +:+ jsonb_col) (insert_param_idx + 1) in
  let (expr, _) := remove_chain n_removes expr param_idx in
  let dwc := shape_dual_write_cols shape in
  let insert_cols := comma_each (fun c => quote_ident (dw_col c)) dwc in
  let insert_values := comma_each (dual_write_extract_expr insert_param_idx) dwc in
  let do_update_set := comma_each (dual_write_set_from_expr expr) dwc in
  Ok ("WITH prev AS (SELECT " +:+ jsonb_col +:+ " AS old_data FROM " +:+ table +:+ " WHERE " +:+ cte_where
      +:+ ") INSERT INTO " +:+ table +:+ " (" +:+ jsonb_col +:+ insert_cols +:+ ") VALUES ($"
      +:+ usize_to_string insert_param_idx +:+ "::jsonb" +:+ insert_values +:+ ") ON CONFLICT (" +:+ conflict_cols
      +:+ ") DO UPDATE SET " +:+ jsonb_col +:+ " = " +:+ expr +:+ do_update_set +:+ " RETURNING " +:+ jsonb_col
      +:+ " AS new_data, (SELECT old_data FROM prev) AS old_data").

(** [update_with_simple_condition_raw]'s statement: the builder is
    threaded through the key, the SET and REMOVE clauses and the
    condition. *)
Fixpoint bind_sets (b : ParamBuilder) (expr : string) (sets : list (string * Value)) : string * ParamBuilder :=
  match sets with
  | [] => (expr, b)
  | (name, value) :: sets =>
      let (name_idx, b) := bind_text b name in
      let (value_idx, b) := bind_jsonb b value in
      bind_sets b ("jsonb_set(" +:+ expr +:+ ", ARRAY[$" +:+ usize_to_string name_idx +:+ "::text], $"
                   +:+ usize_to_string value_idx +:+ "::jsonb)") sets
  end.
Fixpoint bind_removes (b : ParamBuilder) (expr : string) (removes : list string) : string * ParamBuilder :=
  match removes with
  | [] => (expr, b)
  | name :: removes =>
      let (name_idx, b) := bind_text b name in
      bind_removes b ("(" +:+ expr +:+ ") - $" +:+ usize_to_string name_idx +:+ "::text") removes
  end.

Section conditional.
Context `{Base64}.

Definition update_where_statement (shape : TableShape) (pk : KeyValue) (sk : option KeyValue)
    (sets : list (string * Value)) (removes : list string) (condition : Condition)
  : Result BackendError (string * ParamBuilder) :=
  let (pk_idx, b) := bind_key pb_new pk in
  let (sk_idx, b) := match sk with
                     | Some s => let (i, b) := bind_key b s in (Some i, b)
                     | None => (None, b)
                     end in
  let table_ident := quote_ident (shape_table shape) in
  let jsonb_ident := quote_ident (shape_jsonb_col shape) in
  let data_ref := table_ident +:+ "." +:+ jsonb_ident in
  let (expr, b) := bind_sets b data_ref sets in
  let (expr, b) := bind_removes b expr removes in
  let key_predicate :=
    quote_ident (shape_pk_col shape) +:+ " = $" +:+ usize_to_string pk_idx +:+ cast_for_keytype (shape_pk_type shape)
    +:+ match shape_sk_col shape, shape_sk_type shape, sk_idx with
        | Some sk_col, Some sk_type, Some idx =>
            " AND " +:+ quote_ident sk_col +:+ " = $" +:+ usize_to_string idx +:+ cast_for_keytype sk_type
        | _, _, _ => ""
        end in
  let? (cond_sql, b) := compile_condition b data_ref condition in
  let set_clauses := comma_each (dual_write_set_from_expr expr) (shape_dual_write_cols shape) in
  Ok ("WITH prev AS (SELECT " +:+ jsonb_ident +:+ " AS old_data FROM " +:+ table_ident +:+ " WHERE "
      +:+ key_predicate +:+ ") UPDATE " +:+ table_ident +:+ " SET " +:+ jsonb_ident +:+ " = " +:+ expr
      +:+ set_clauses +:+ " WHERE " +:+ key_predicate +:+ " AND (" +:+ cond_sql +:+ ") RETURNING " +:+ jsonb_ident
      +:+ " AS new_data, (SELECT old_data FROM prev) AS old_data", b).
End conditional.

(** ** The texts are statements *)

#[local] Arguments quote_ident : simpl never.
#[local] Arguments usize_to_string : simpl never.

(** Two texts built from the same pieces. *)
Ltac same_pieces := repeat progress (cbn [String.append tag_name]; rewrite <- ?app_assoc_str, ?app_nil_r_str); reflexivity.

Lemma extract_text n c jc : dual_write_extract_expr n c = column_text jc (FromParam n) c.
Proof. unfold dual_write_extract_expr, column_text, typed_text, path_text, dollar. destruct (dw_key_type c); same_pieces. Qed.

Lemma set_excluded_text c jc :
  dual_write_set_excluded c jc = quote_ident (dw_col c) +:+ " = " +:+ column_text jc FromExcluded c.
Proof. unfold dual_write_set_excluded, column_text, typed_text, path_text. destruct (dw_key_type c); same_pieces. Qed.

Lemma set_from_param_text n c jc :
  dual_write_set_from_param n c = quote_ident (dw_col c) +:+ " = " +:+ column_text jc (FromParam n) c.
Proof. unfold dual_write_set_from_param. by rewrite (extract_text n c jc). Qed.

Lemma set_from_expr_text e c jc :
  dual_write_set_from_expr e c = quote_ident (dw_col c) +:+ " = " +:+ column_text jc (FromExpr e) c.
Proof. unfold dual_write_set_from_expr, column_text, typed_text, path_text. destruct (dw_key_type c); same_pieces. Qed.

Lemma comma_each_ext {A} (f g : A -> string) l : (forall x, f x = g x) -> comma_each f l = commas g l.
Proof. intros Hfg. unfold comma_each, commas. f_equal. apply map_ext. intros x. by rewrite Hfg. Qed.

Lemma extracts_text shape n :
  comma_each (dual_write_extract_expr n) (shape_dual_write_cols shape) = dw_values shape (FromParam n).
Proof. apply comma_each_ext. intros c. apply extract_text. Qed.

(** The pieces of every text, in one rewriting step. *)
Lemma names_text shape : comma_each (fun c => quote_ident (dw_col c)) (shape_dual_write_cols shape) = dw_names shape.
Proof. by apply comma_each_ext. Qed.
Lemma excluded_text shape :
  comma_each (fun c => dual_write_set_excluded c (shape_jsonb_col shape)) (shape_dual_write_cols shape)
  = dw_assign shape FromExcluded.
Proof. apply comma_each_ext. intros c. apply set_excluded_text. Qed.
Lemma from_param_text shape n :
  comma_each (dual_write_set_from_param n) (shape_dual_write_cols shape) = dw_assign shape (FromParam n).
Proof. apply comma_each_ext. intros c. apply set_from_param_text. Qed.
Lemma from_expr_text shape e :
  comma_each (dual_write_set_from_expr e) (shape_dual_write_cols shape) = dw_assign shape (FromExpr e).
Proof. apply comma_each_ext. intros c. apply set_from_expr_text. Qed.

(** The types of the key parameters of a shape. *)
Definition key_pg_types (shape : TableShape) : list PgType := map (fun c => pg_type_for_keytype c.2) (key_cols shape).

#[local] Arguments dw_names : simpl never.
#[local] Arguments dw_values : simpl never.
#[local] Arguments dw_assign : simpl never.

Lemma shape_cases shape :
  shape_ok shape ->
  (shape_sk_col shape = None /\ shape_sk_type shape = None)
  \/ exists c t, shape_sk_col shape = Some c /\ shape_sk_type shape = Some t.
Proof.
  unfold shape_ok. destruct (shape_sk_col shape) as [c|], (shape_sk_type shape) as [t|]; intros [H1 H2]; eauto.
  - by destruct H1.
  - by destruct H2.
Qed.

Lemma build_texts {E} shape :
  shape_ok shape ->
  build (E := E) shape
  = Ok (mkShapeSql (stmt_text shape StPut) (stmt_text shape (StGet false)) (stmt_text shape (StDelete true))
          (key_pg_types shape ++ [PgType_JSONB]) (key_pg_types shape)).
Proof.
  intros Hok. unfold build, key_pg_types, key_cols, stmt_text, prev_text, key_pred, key_cols, conflict_cols, key_arity,
    placeholder, dollar. rewrite names_text, excluded_text, !extracts_text.
  destruct (shape_cases _ Hok) as [[Hc Ht]|(c & t & Hc & Ht)]; rewrite ?Hc, ?Ht;
    cbn [map app fst snd]; do 2 f_equal; vm_compute usize_to_string; same_pieces.
Qed.

Lemma insert_only_text shape : build_insert_only_sql shape = stmt_text shape StInsert.
Proof. unfold build_insert_only_sql, stmt_text, conflict_cols. by rewrite names_text, extracts_text. Qed.

Lemma rmw_texts {E} shape :
  shape_ok shape ->
  rmw_build (E := E) shape
  = Ok (mkRmwSqlPrep (stmt_text shape (StGet true)) (stmt_text shape StUpdate) (stmt_text shape StInsert)
          (key_pg_types shape) (PgType_JSONB :: key_pg_types shape)).
Proof.
  intros Hok. unfold rmw_build. rewrite insert_only_text, from_param_text.
  unfold key_pg_types, key_cols. cbn [stmt_text]. unfold key_pred, key_cols, placeholder.
  destruct (shape_cases _ Hok) as [[Hc Ht]|(c & t & Hc & Ht)]; rewrite ?Hc, ?Ht;
    cbn [map app fst snd]; do 2 f_equal; vm_compute usize_to_string; same_pieces.
Qed.

(** ** Merging updates *)

(** The documents of the SET and REMOVE loops. *)
Fixpoint set_doc (n_sets : nat) (e : doc_expr) (i : N) : doc_expr :=
  match n_sets with O => e | S n => set_doc n (DocSet e i (i + 1)) (i + 2) end.
Fixpoint remove_doc (n_removes : nat) (e : doc_expr) (i : N) : doc_expr :=
  match n_removes with O => e | S n => remove_doc n (DocRemove e i) (i + 1) end.

Definition merge_doc (n_sets n_removes : nat) (i : N) : doc_expr :=
  remove_doc n_removes (set_doc n_sets DocRow i) (i + 2 * N.of_nat n_sets).

Lemma set_chain_text n : forall base e i,
  set_chain n (doc_text base e) i = (doc_text base (set_doc n e i), i + 2 * N.of_nat n).
Proof.
  induction n as [|n IH]; intros base e i; cbn [set_chain set_doc]; [by rewrite N.add_0_r|].
  specialize (IH base (DocSet e i (i + 1)) (i + 2)). cbn [doc_text] in IH. unfold dollar in IH.
  cbn [String.append] in IH |- *. rewrite IH. f_equal. lia.
Qed.

Lemma remove_chain_text n : forall base e i,
  remove_chain n (doc_text base e) i = (doc_text base (remove_doc n e i), i + N.of_nat n).
Proof.
  induction n as [|n IH]; intros base e i; cbn [remove_chain remove_doc]; [by rewrite N.add_0_r|].
  specialize (IH base (DocRemove e i) (i + 1)). cbn [doc_text] in IH. unfold dollar in IH.
  cbn [String.append] in IH |- *. rewrite IH. f_equal. lia.
Qed.

Lemma update_text {E} shape ns nr :
  shape_ok shape ->
  build_update_sql (E := E) shape ns nr = Ok (stmt_text shape (StMerge (merge_doc ns nr (key_arity shape + 2)))).
Proof.
  intros Hok. unfold build_update_sql, merge_doc.
  change (quote_ident (shape_table shape) +:+ "." +:+ quote_ident (shape_jsonb_col shape))
    with (doc_text (quote_ident (shape_table shape) +:+ "." +:+ quote_ident (shape_jsonb_col shape)) DocRow) at 1.
  unfold key_arity. cbn [stmt_text]. unfold prev_text, key_pred, key_cols, conflict_cols, key_arity, placeholder, dollar.
  destruct (shape_cases _ Hok) as [[Hc Ht]|(c & t & Hc & Ht)]; rewrite ?Hc, ?Ht;
    rewrite set_chain_text, remove_chain_text, names_text, extracts_text, from_expr_text;
    f_equal; vm_compute (usize_to_string (_ + _)); vm_compute (usize_to_string 1); vm_compute (usize_to_string 2);
    vm_compute (usize_to_string 3); same_pieces.
Qed.

Definition set_params (sets : list (string * Value)) : list Param :=
  sets ≫= (fun s => [Param_Text s.1; Param_Json s.2]).
Definition remove_params (removes : list string) : list Param := map Param_Text removes.

Lemma bind_sets_text sets : forall base e b,
  bind_sets b (doc_text base e) sets
  = (doc_text base (set_doc (length sets) e (next_idx b)),
     extend b (set_params sets) (map param_type (set_params sets))).
Proof.
  induction sets as [|[n v] sets IH]; intros base e b; cbn [bind_sets].
  { unfold extend. cbn. rewrite !app_nil_r. by destruct b. }
  specialize (IH base (DocSet e (next_idx b) (next_idx b + 1))
                (extend b [Param_Text n; Param_Json v] [PgType_TEXT; PgType_JSONB])).
  unfold bind_text, bind_jsonb, bind.
  assert (Hi : next_idx (mkParamBuilder (pb_params b ++ [Param_Text n]) (pb_types b ++ [PgType_TEXT])) = next_idx b + 1).
  { unfold next_idx. simpl. rewrite length_app. simpl. lia. }
  rewrite Hi. cbn [pb_params pb_types].
  replace (mkParamBuilder ((pb_params b ++ [Param_Text n]) ++ [Param_Json v])%list
             ((pb_types b ++ [PgType_TEXT]) ++ [PgType_JSONB])%list)
    with (extend b [Param_Text n; Param_Json v] [PgType_TEXT; PgType_JSONB])
    by (unfold extend; by rewrite <- !app_assoc).
  cbn [doc_text] in IH. unfold dollar in IH. cbn [String.append] in IH |- *. rewrite IH. cbn [length set_doc]. f_equal.
  - do 2 f_equal. unfold next_idx, extend. simpl. rewrite length_app. simpl. lia.
  - by rewrite extend_extend.
Qed.

Lemma bind_removes_text removes : forall base e b,
  bind_removes b (doc_text base e) removes
  = (doc_text base (remove_doc (length removes) e (next_idx b)),
     extend b (remove_params removes) (map param_type (remove_params removes))).
Proof.
  induction removes as [|n removes IH]; intros base e b; cbn [bind_removes].
  { unfold extend. cbn. rewrite !app_nil_r. by destruct b. }
  specialize (IH base (DocRemove e (next_idx b)) (extend b [Param_Text n] [PgType_TEXT])).
  unfold bind_text, bind. fold (extend b [Param_Text n] [PgType_TEXT]).
  cbn [doc_text] in IH. unfold dollar in IH. cbn [String.append] in IH |- *. rewrite IH. cbn [length remove_doc]. f_equal.
  - do 2 f_equal. unfold next_idx, extend. simpl. rewrite length_app. simpl. lia.
  - by rewrite extend_extend.
Qed.

(** A key parameter as [bind_key] binds it. *)
Definition key_param (kv : KeyValue) : Param :=
  match kv with KeyValue_S s | KeyValue_N s => Param_Text s | KeyValue_B x => Param_Bytes x end.
Definition key_params (pk : KeyValue) (sk : option KeyValue) : list Param :=
  key_param pk :: match sk with Some s => [key_param s] | None => [] end.

Lemma bind_key_extend b kv : bind_key b kv = (next_idx b, extend b [key_param kv] [param_type (key_param kv)]).
Proof. by destruct kv. Qed.

Lemma next_idx_extend b ps ts : next_idx (extend b ps ts) = next_idx b + N.of_nat (length ps).
Proof. unfold next_idx, extend. simpl. rewrite length_app. lia. Qed.

Lemma length_set_params sets : length (set_params sets) = (2 * length sets)%nat.
Proof. induction sets as [|s sets IH]; [done|]. change (length (set_params (s :: sets))) with (S (S (length (set_params sets)))). simpl. lia. Qed.

Section conditional_text.
Context `{Base64} `{SqlCompare} (d : Value).

Lemma update_where_text shape pk sk sets removes cond :
  shape_ok shape -> (is_Some sk <-> is_Some (shape_sk_col shape)) ->
  condition_fits_sql cond = true -> paths_named cond ->
  exists c cps ts,
    let ps := (key_params pk sk ++ set_params sets ++ remove_params removes ++ cps)%list in
    update_where_statement shape pk sk sets removes cond
    = Ok (stmt_text shape (StUpdateWhere (merge_doc (length sets) (length removes) (key_arity shape + 1)) c),
          mkParamBuilder ps ts)
    /\ length ps = length ts
    /\ bool_value d ps c = cond_value3 d cond.
Proof.
  intros Hok Hsk Hf Hp.
  set (data_ref := quote_ident (shape_table shape) +:+ "." +:+ quote_ident (shape_jsonb_col shape)).
  set (kb := mkParamBuilder (key_params pk sk) (map param_type (key_params pk sk))).
  set (b1 := extend kb (set_params sets) (map param_type (set_params sets))).
  set (b2 := extend b1 (remove_params removes) (map param_type (remove_params removes))).
  destruct (condition_compiled data_ref d cond Hf Hp b2) as (c & cps & cts & Hc & Hl & Hv).
  exists c, cps, (pb_types b2 ++ cts)%list. cbv zeta.
  assert (Hps : (pb_params b2 ++ cps = key_params pk sk ++ set_params sets ++ remove_params removes ++ cps)%list)
    by (unfold b2, b1, extend; simpl; by rewrite <- !app_assoc).
  assert (Hlen : length (pb_params b2) = length (pb_types b2))
    by (unfold b2, b1, kb, extend; cbn [pb_params pb_types]; rewrite !length_app, !length_map; done).
  assert (Ha : next_idx kb = key_arity shape + 1).
  { unfold next_idx, kb, key_arity, key_params. cbn [pb_params].
    destruct sk as [s|], (shape_sk_col shape); try done; exfalso; destruct Hsk as [H1 H2]; naive_solver. }
  assert (Hi : next_idx b1 = key_arity shape + 1 + 2 * N.of_nat (length sets)).
  { unfold b1. rewrite next_idx_extend, length_set_params, Ha. lia. }
  split_and!; [|rewrite <- Hps, !length_app, Hlen; lia|rewrite <- Hps; specialize (Hv []); by rewrite app_nil_r in Hv].
  rewrite <- Hps. change (mkParamBuilder (pb_params b2 ++ cps) (pb_types b2 ++ cts)) with (extend b2 cps cts).
  unfold update_where_statement. fold data_ref. change data_ref with (doc_text data_ref DocRow) at 1.
  assert (Hsteps : forall b, b = kb ->
    (let (expr, b) := bind_sets b (doc_text data_ref DocRow) sets in bind_removes b expr removes)
    = (doc_text data_ref (merge_doc (length sets) (length removes) (key_arity shape + 1)), b2)).
  { intros b ->. rewrite bind_sets_text. fold b1. rewrite bind_removes_text. fold b2. unfold merge_doc. by rewrite Hi, Ha. }
  unfold merge_doc in *. cbn [stmt_text]. unfold prev_text, key_pred, key_cols, placeholder. fold data_ref.
  rewrite bind_key_extend. change (next_idx pb_new) with 1. unfold key_params in *.
  destruct (shape_cases _ Hok) as [[Hsc Hst]|(sc & t & Hsc & Hst)]; rewrite ?Hsc, ?Hst; rewrite Hsc in Hsk;
    (destruct sk as [s|]; [|]); try (exfalso; destruct Hsk as [H1 H2]; naive_solver);
    [|rewrite bind_key_extend];
    (match goal with |- context [bind_sets ?b _ _] => specialize (Hsteps b eq_refl) end);
    (destruct (bind_sets _ _ _) as [e1 b1']; rewrite Hsteps, Hc); cbn beta iota; rewrite from_expr_text;
    do 2 f_equal; same_pieces.
Qed.
End conditional_text.

(** ** The merged document *)

Lemma param_n_app pre rest i : i = N.of_nat (length pre) + 1 -> param_n (pre ++ rest) i = head rest.
Proof.
  intros ->. unfold param_n. replace (pred (N.to_nat (N.of_nat (length pre) + 1))) with (length pre) by lia.
  rewrite lookup_app_r, Nat.sub_diag by done. by destruct rest.
Qed.

Lemma set_doc_value sets : forall params pre rest d e o i,
  params = (pre ++ set_params sets ++ rest)%list -> i = N.of_nat (length pre) + 1 ->
  doc_value params d e = Some (VObject o) ->
  doc_value params d (set_doc (length sets) e i) = Some (VObject (BTreeMap.insert_all sets o)).
Proof.
  induction sets as [|[n v] sets IH]; intros params pre rest d e o i Hp Hi He; [done|].
  cbn [length set_doc].
  assert (Hp' : params = ((pre ++ [Param_Text n]) ++ Param_Json v :: set_params sets ++ rest)%list)
    by (rewrite Hp, <- app_assoc; done).
  assert (H1 : param_n params i = Some (Param_Text n)) by (rewrite Hp; by apply param_n_app).
  assert (H2 : param_n params (i + 1) = Some (Param_Json v))
    by (rewrite Hp'; apply param_n_app; rewrite length_app, Hi; simpl; lia).
  eapply (IH params (pre ++ [Param_Text n; Param_Json v])%list rest).
  - by rewrite Hp, <- !app_assoc.
  - rewrite length_app. simpl. lia.
  - cbn [doc_value]. by rewrite He, H1, H2.
Qed.

Lemma remove_doc_value removes : forall params pre rest d e o i,
  params = (pre ++ remove_params removes ++ rest)%list -> i = N.of_nat (length pre) + 1 ->
  doc_value params d e = Some (VObject o) ->
  doc_value params d (remove_doc (length removes) e i)
  = Some (VObject (fold_left (fun o n => BTreeMap.remove n o) removes o)).
Proof.
  induction removes as [|n removes IH]; intros params pre rest d e o i Hp Hi He; [done|].
  cbn [length remove_doc fold_left].
  assert (H1 : param_n params i = Some (Param_Text n)) by (rewrite Hp; by apply param_n_app).
  eapply (IH params (pre ++ [Param_Text n])%list rest).
  - by rewrite Hp, <- !app_assoc.
  - rewrite length_app. simpl. lia.
  - cbn [doc_value]. by rewrite He, H1.
Qed.

Lemma merge_doc_value sets removes pre rest o i :
  i = N.of_nat (length pre) + 1 ->
  doc_value (pre ++ set_params sets ++ remove_params removes ++ rest) (VObject o)
    (merge_doc (length sets) (length removes) i) = Some (merged sets removes (VObject o)).
Proof.
  intros Hi. unfold merge_doc. cbn [merged].
  eapply (remove_doc_value removes _ (pre ++ set_params sets)%list rest).
  - by rewrite <- app_assoc.
  - rewrite length_app, length_set_params. lia.
  - eapply (set_doc_value sets _ pre); [done|done|done].
Qed.
