(* ===== verification/PgBackend.v ===== *)
(** * The PostgreSQL backend (rekt-storage-libpq)

    The bodies of the [Backend] methods ([put_delete.rs], [update.rs],
    [batch_get.rs], [batch_write.rs], [transact_get.rs],
    [transact_write.rs]) over the server of [PgWrite], the SQL cache of
    [shape.rs], and the trampolines of [lib.rs] with their retries.
    Tracing is omitted. *)

From S2P Require Import Prelude RustStr BTree Json Attr Ast Storage Schema Plan Checks PgTypes PgSelect.
From S2P Require Import Query ConditionSql Retry ApiError Backend PgWrite PgSql.

#[local] Open Scope N_scope.

(** ** Calls *)

Definition call_ret {St A} (r : Result BackendError A) : Call St A := fun st => (r, st).
Definition call_bind {St A B} (c : Call St A) (f : A -> Call St B) : Call St B :=
  fun st => match c st with
            | (Ok a, st') => f a st'
            | (Err e, st') => (Err e, st')
            | (Panic, st') => (Panic, st')
            end.

Declare Scope call_scope.
Delimit Scope call_scope with call.
Notation "'let%' x := c 'in' k" := (call_bind c (fun x => k))
  (at level 10, x pattern, c at level 100, k at level 200) : call_scope.
Open Scope call_scope.

Definition call_map {St A B} (f : A -> B) (c : Call St A) : Call St B := let% a := c in call_ret (Ok (f a)).

(** The server and the cache of statement texts. *)
Record PgState (Srv : Type) : Type := mkPgState {
  pg_srv : Srv;
  sql_cache : gmap string ShapeSql
}.
Arguments mkPgState {Srv} _ _.
Arguments pg_srv {Srv} _.
Arguments sql_cache {Srv} _.

(** ** Cancellation reasons (transact_write.rs) *)

Definition backend_error_to_string (e : BackendError) : string :=
  match e with
  | BackendError_TableNotFound name => "table not found: " +:+ name
  | BackendError_KeyTypeMismatch col expected actual =>
      "key type mismatch on `" +:+ col +:+ "`: shape declares " +:+ key_type_debug expected +:+ ", got "
      +:+ key_type_debug actual
  | BackendError_MissingSortKey name =>
      "sort key required for composite table `" +:+ name +:+ "` but caller passed None"
  | BackendError_UnexpectedSortKey name => "sort key passed for hash-only table `" +:+ name +:+ "`"
  | BackendError_ConditionalCheckFailed => "the conditional request failed"
  | BackendError_PoolExhausted ms => "PG connection pool exhausted (waited " +:+ usize_to_string ms +:+ " ms)"
  | BackendError_ConnectFailed reason => "PG connection failed: " +:+ reason
  | BackendError_PgError sqlstate message => "PG error (" +:+ sqlstate +:+ "): " +:+ message
  | BackendError_TransactionCancelled _ => "transaction cancelled"
  | BackendError_Other m => "storage error: " +:+ m
  end.

Definition classify_for_cancel (err : BackendError) : string * string :=
  match err with
  | BackendError_ConditionalCheckFailed => ("ConditionalCheckFailed", "The conditional request failed")
  | BackendError_PgError sqlstate message =>
      (if String.eqb sqlstate "40001" || String.eqb sqlstate "40P01" then "TransactionConflict"
       else "InternalServerError",
       "PG error (" +:+ sqlstate +:+ "): " +:+ message)
  | BackendError_TableNotFound name => ("ResourceNotFound", "Table not found: " +:+ name)
  | other => ("InternalServerError", backend_error_to_string other)
  end.

Definition into_cancelled (err : BackendError) (failed_idx n : nat) : BackendError :=
  let (code, message) := classify_for_cancel err in
  BackendError_TransactionCancelled
    (<[failed_idx := mkTransactCancelReason code (Some message) None]>
       (replicate n (mkTransactCancelReason "None" None None))).

(** ** Statements *)

(** [Bound] parameters of a key. *)
Definition key_bounds (pk : KeyValue) (sk : option KeyValue) : list Param :=
  Param_Bound pk :: match sk with Some s => [Param_Bound s] | None => [] end.

Definition MAX_ITERS : nat := 3.

Section backend.
Context `{Base64} {Srv : Type} `{PgServer Srv}.
Variables (policy : RetryPolicy) (clock : nat -> N).

Let St := PgState Srv.

(** An operation of the server, its failure mapped for [table]. *)
Definition server {A} (table : string) (f : Srv -> (PgFailure + A) * Srv) : Call St A :=
  fun st => let '(r, srv) := f (pg_srv st) in
            (match r with inr a => Ok a | inl e => Err (map_pg_err table e) end, mkPgState srv (sql_cache st)).

(** [PgBackend::client]. *)
Definition client : Call St unit :=
  fun st => let '(r, srv) := pg_client (pg_srv st) in
            (match r with inr a => Ok a | inl (e, waited_ms) => Err (classify_pool_error e waited_ms) end,
             mkPgState srv (sql_cache st)).

Definition prepare (table sql : string) (types : list PgType) : Call St unit := server table (pg_prepare sql types).

(** [execute] returns the number of rows, [query_one] and [query_opt]
    insist on theirs. *)
Definition query (table sql : string) (params : list Param) : Call St (list (list (option Value))) :=
  call_map fst (server table (pg_run sql params)).
Definition execute (table sql : string) (params : list Param) : Call St N :=
  call_map snd (server table (pg_run sql params)).

Definition row_count_error : PgFailure := mkPgFailure None "query returned an unexpected number of rows".

Definition query_opt (table sql : string) (params : list Param) : Call St (option (list (option Value))) :=
  let% out := query table sql params in
  call_ret match out with
           | [] => Ok None
           | [r] => Ok (Some r)
           | _ => Err (map_pg_err table row_count_error)
           end.
Definition query_one (table sql : string) (params : list Param) : Call St (list (option Value)) :=
  let% r := query_opt table sql params in
  call_ret (ok_or r (map_pg_err table row_count_error)).

(** [row.get(i)] at a nullable column, and at one that is not: a NULL
    there, or a missing column, panics. *)
Definition get_opt (r : list (option Value)) (i : nat) : Result BackendError (option Value) := expect (r !! i).
Definition get_json (r : list (option Value)) (i : nat) : Result BackendError Value :=
  let? o := get_opt r i in expect o.

(** [row.map(|r| r.get(0))]. *)
Definition first_json (row : option (list (option Value))) : Result BackendError (option Value) :=
  match row with
  | None => Ok None
  | Some r => let? v := get_json r 0 in Ok (Some v)
  end.

(** [PgBackend::shape_sql]. *)
Definition shape_sql (shape : TableShape) : Call St ShapeSql :=
  fun st =>
    let key := shape_cache_key shape in
    match sql_cache st !! key with
    | Some s => (Ok s, st)
    | None => match build shape with
              | Ok s => (Ok s, mkPgState (pg_srv st) (<[key := s]> (sql_cache st)))
              | Err e => (Err e, st)
              | Panic => (Panic, st)
              end
    end.

(** A transaction: [body] commits or rolls back; one it leaves open is
    dropped. *)
Definition transaction {A} (table : string) (iso : isolation) (body : Call St A) : Call St A :=
  let% _ := server table (pg_begin iso) in
  fun st => let '(r, st') := body st in (r, mkPgState (pg_drop (pg_srv st')) (sql_cache st')).
Definition commit (table : string) : Call St unit := server table pg_commit.
Definition rollback (table : string) : Call St unit := server table pg_rollback.

(** ** put_delete.rs, within or without a transaction *)

(** [put_item_inside_tx], and [put_item_raw] after its client. *)
Definition put_item_inside_tx (shape : TableShape) (pk : KeyValue) (sk : option KeyValue) (item : Value)
  : Call St (option Value) :=
  let% _ := call_ret (check_sk_shape shape sk) in
  let% sql := shape_sql shape in
  let% _ := prepare (shape_table shape) (put_sql sql) (put_types sql) in
  let% row := query_one (shape_table shape) (put_sql sql) (key_bounds pk sk ++ [Param_Json item]) in
  call_ret (get_opt row 0).

Definition pg_put_item_raw (shape : TableShape) (pk : KeyValue) (sk : option KeyValue) (item : Value)
  : Call St (option Value) :=
  let% _ := call_ret (check_sk_shape shape sk) in
  let% sql := shape_sql shape in
  let% _ := client in
  let% _ := prepare (shape_table shape) (put_sql sql) (put_types sql) in
  let% row := query_one (shape_table shape) (put_sql sql) (key_bounds pk sk ++ [Param_Json item]) in
  call_ret (get_opt row 0).

Definition pg_get_item_raw (shape : TableShape) (pk : KeyValue) (sk : option KeyValue) : Call St (option Value) :=
  let% _ := call_ret (check_sk_shape shape sk) in
  let% sql := shape_sql shape in
  let% _ := client in
  let% _ := prepare (shape_table shape) (get_sql sql) (key_types sql) in
  let% row := query_opt (shape_table shape) (get_sql sql) (key_bounds pk sk) in
  call_ret (first_json row).

Definition pg_delete_item_raw (shape : TableShape) (pk : KeyValue) (sk : option KeyValue) : Call St (option Value) :=
  let% _ := call_ret (check_sk_shape shape sk) in
  let% sql := shape_sql shape in
  let% _ := client in
  let% _ := prepare (shape_table shape) (delete_sql sql) (key_types sql) in
  let% row := query_opt (shape_table shape) (delete_sql sql) (key_bounds pk sk) in
  call_ret (first_json row).

Definition delete_item_inside_tx (shape : TableShape) (pk : KeyValue) (sk : option KeyValue)
  : Call St (option Value) :=
  let% _ := call_ret (check_sk_shape shape sk) in
  let% sql := shape_sql shape in
  let% _ := prepare (shape_table shape) (delete_sql sql) (key_types sql) in
  let% row := query_opt (shape_table shape) (delete_sql sql) (key_bounds pk sk) in
  call_ret (first_json row).

(** [RmwSqlPrep::select_for_update] and [exec_update]. *)
Definition select_for_update (prep : RmwSqlPrep) (pk : KeyValue) (sk : option KeyValue) : Call St (option Value) :=
  let% row := query_opt "<unknown>" (select_sql prep) (key_bounds pk sk) in
  call_ret (first_json row).
Definition exec_update (prep : RmwSqlPrep) (new_json : Value) (pk : KeyValue) (sk : option KeyValue) : Call St N :=
  execute "<unknown>" (update_sql prep) (Param_Json new_json :: key_bounds pk sk).

(** The three statements of a read-modify-write are prepared first. *)
Definition prepare_rmw (shape : TableShape) (prep : RmwSqlPrep) : Call St unit :=
  let% _ := prepare (shape_table shape) (select_sql prep) (rmw_key_types prep) in
  let% _ := prepare (shape_table shape) (update_sql prep) (update_types prep) in
  prepare (shape_table shape) (insert_sql prep) [PgType_JSONB].

(** UPDATE a row that was read, INSERT one that was not. *)
Definition write_row (shape : TableShape) (prep : RmwSqlPrep) (existing : option Value) (new_item : Value)
    (pk : KeyValue) (sk : option KeyValue) : Call St N :=
  match existing with
  | Some _ => exec_update prep new_item pk sk
  | None => execute (shape_table shape) (insert_sql prep) [Param_Json new_item]
  end.

(** The loop of [update_general_rmw_raw] and, with [decide] the
    condition, of [put_with_condition_raw]. *)
Fixpoint rmw_loop (iters : nat) (exhausted : string) (shape : TableShape) (prep : RmwSqlPrep) (pk : KeyValue)
    (sk : option KeyValue) (decide : GeneralUpdateFn) : Call St UpdateOutcome :=
  match iters with
  | O =>
      let% _ := rollback (shape_table shape) in
      call_ret (Err (BackendError_Other exhausted))
  | S iters =>
      let% existing := select_for_update prep pk sk in
      let% decision := call_ret (decide existing) in
      match decision with
      | UpdateDecision_Fail =>
          let% _ := rollback (shape_table shape) in
          call_ret (Err BackendError_ConditionalCheckFailed)
      | UpdateDecision_Apply new_item =>
          let% rows := write_row shape prep existing new_item pk sk in
          if 0 <? rows then
            let% _ := commit (shape_table shape) in
            call_ret (Ok (mkUpdateOutcome new_item existing))
          else rmw_loop iters exhausted shape prep pk sk decide
      end
  end.

Definition rmw_raw (exhausted : string) (shape : TableShape) (pk : KeyValue) (sk : option KeyValue)
    (decide : GeneralUpdateFn) : Call St UpdateOutcome :=
  let% _ := call_ret (check_sk_shape shape sk) in
  let% prep := call_ret (rmw_build shape) in
  let% _ := client in
  transaction (shape_table shape) ReadCommitted
    (let% _ := prepare_rmw shape prep in rmw_loop MAX_ITERS exhausted shape prep pk sk decide).

Definition pg_update_general_rmw_raw : TableShape -> KeyValue -> option KeyValue -> GeneralUpdateFn ->
    Call St UpdateOutcome :=
  rmw_raw "update_general_rmw_raw exceeded retry budget (possible runaway race contention)".

(** A condition as a decision. *)
Definition deciding (condition : ConditionEvalFn) (item : Value) : GeneralUpdateFn :=
  fun existing => Ok (if condition existing then UpdateDecision_Apply item else UpdateDecision_Fail).

Definition pg_put_with_condition_raw (shape : TableShape) (pk : KeyValue) (sk : option KeyValue) (item : Value)
    (condition : ConditionEvalFn) : Call St (option Value) :=
  call_map uo_old_item
    (rmw_raw "put_with_condition_raw exceeded retry budget (possible runaway race contention)"
       shape pk sk (deciding condition item)).

(** The DELETE text the conditional deletes build for themselves. *)
Definition conditional_delete_sql (shape : TableShape) : Result BackendError string :=
  let table := quote_ident (shape_table shape) in
  let pk_col := quote_ident (shape_pk_col shape) in
  let pk_cast := cast_for_keytype (shape_pk_type shape) in
  match shape_sk_col shape, shape_sk_type shape with
  | None, _ => Ok ("DELETE FROM " +:+ table +:+ " WHERE " +:+ pk_col +:+ " = $1" +:+ pk_cast)
  | Some sk_col, Some sk_type =>
      Ok ("DELETE FROM " +:+ table +:+ " WHERE " +:+ pk_col +:+ " = $1" +:+ pk_cast +:+ " AND "
          +:+ quote_ident sk_col +:+ " = $2" +:+ cast_for_keytype sk_type)
  | Some _, None => Panic
  end.

(** Delete the row that was read. *)
Definition delete_read (shape : TableShape) (sql : string) (pk : KeyValue) (sk : option KeyValue)
    (existing : option Value) : Call St unit :=
  match existing with
  | Some _ => call_map (fun _ => tt) (execute (shape_table shape) sql (key_bounds pk sk))
  | None => call_ret (Ok tt)
  end.

Definition pg_delete_with_condition_raw (shape : TableShape) (pk : KeyValue) (sk : option KeyValue)
    (condition : ConditionEvalFn) : Call St (option Value) :=
  let% _ := call_ret (check_sk_shape shape sk) in
  let% prep := call_ret (rmw_build shape) in
  let% sql := call_ret (conditional_delete_sql shape) in
  let% _ := client in
  transaction (shape_table shape) ReadCommitted
    (let% _ := prepare (shape_table shape) (select_sql prep) (rmw_key_types prep) in
     let% _ := prepare (shape_table shape) sql (rmw_key_types prep) in
     let% existing := select_for_update prep pk sk in
     if negb (condition existing) then
       let% _ := rollback (shape_table shape) in
       call_ret (Err BackendError_ConditionalCheckFailed)
     else
       let% _ := delete_read shape sql pk sk existing in
       let% _ := commit (shape_table shape) in
       call_ret (Ok existing)).

Definition delete_with_condition_inside_tx (shape : TableShape) (pk : KeyValue) (sk : option KeyValue)
    (condition : ConditionEvalFn) : Call St (option Value) :=
  let% _ := call_ret (check_sk_shape shape sk) in
  let% prep := call_ret (rmw_build shape) in
  let% sql := call_ret (conditional_delete_sql shape) in
  let% _ := prepare (shape_table shape) (select_sql prep) (rmw_key_types prep) in
  let% _ := prepare (shape_table shape) sql (rmw_key_types prep) in
  let% existing := select_for_update prep pk sk in
  if negb (condition existing) then call_ret (Err BackendError_ConditionalCheckFailed)
  else
    let% _ := delete_read shape sql pk sk existing in
    call_ret (Ok existing).

Definition condition_check_inside_tx (shape : TableShape) (pk : KeyValue) (sk : option KeyValue)
    (condition : ConditionEvalFn) : Call St (option Value) :=
  let% _ := call_ret (check_sk_shape shape sk) in
  let% prep := call_ret (rmw_build shape) in
  let% _ := prepare (shape_table shape) (select_sql prep) (rmw_key_types prep) in
  let% existing := select_for_update prep pk sk in
  call_ret (if negb (condition existing) then Err BackendError_ConditionalCheckFailed else Ok existing).

Definition put_with_condition_inside_tx (shape : TableShape) (pk : KeyValue) (sk : option KeyValue) (item : Value)
    (condition : ConditionEvalFn) : Call St (option Value) :=
  let% _ := call_ret (check_sk_shape shape sk) in
  let% prep := call_ret (rmw_build shape) in
  let% _ := prepare_rmw shape prep in
  let% existing := select_for_update prep pk sk in
  if negb (condition existing) then call_ret (Err BackendError_ConditionalCheckFailed)
  else
    let% _ := write_row shape prep existing item pk sk in
    call_ret (Ok existing).

(** ** update.rs *)

Definition update_general_rmw_inside_tx (shape : TableShape) (pk : KeyValue) (sk : option KeyValue)
    (apply : GeneralUpdateFn) : Call St UpdateOutcome :=
  let% _ := call_ret (check_sk_shape shape sk) in
  let% prep := call_ret (rmw_build shape) in
  let% _ := prepare_rmw shape prep in
  let% existing := select_for_update prep pk sk in
  let% decision := call_ret (apply existing) in
  match decision with
  | UpdateDecision_Fail => call_ret (Err BackendError_ConditionalCheckFailed)
  | UpdateDecision_Apply new_item =>
      let% rows := write_row shape prep existing new_item pk sk in
      call_ret (if 0 <? rows then Ok (mkUpdateOutcome new_item existing)
                else Err BackendError_ConditionalCheckFailed)
  end.

Definition simple_types (shape : TableShape) (sk : option KeyValue) (sets : list (string * Value))
    (removes : list string) : list PgType :=
  pg_type_for_keytype (shape_pk_type shape)
  :: match sk with Some v => [pg_type_for_keytype (key_type v)] | None => [] end
  ++ [PgType_JSONB] ++ (sets ≫= (fun _ => [PgType_TEXT; PgType_JSONB])) ++ map (fun _ => PgType_TEXT) removes.

Definition pg_update_simple_raw (shape : TableShape) (pk : KeyValue) (sk : option KeyValue) (insert_item : Value)
    (sets : list (string * Value)) (removes : list string) : Call St UpdateOutcome :=
  let% _ := call_ret (check_sk_shape shape sk) in
  let% sql := call_ret (build_update_sql shape (length sets) (length removes)) in
  let% _ := client in
  let% _ := prepare (shape_table shape) sql (simple_types shape sk sets removes) in
  let% row := query_one (shape_table shape) sql
                (key_bounds pk sk ++ [Param_Json insert_item] ++ set_params sets ++ remove_params removes) in
  let% new_item := call_ret (get_json row 0) in
  let% old_item := call_ret (get_opt row 1) in
  call_ret (Ok (mkUpdateOutcome new_item old_item)).

Definition pg_update_with_simple_condition_raw (shape : TableShape) (pk : KeyValue) (sk : option KeyValue)
    (sets : list (string * Value)) (removes : list string) (condition : Condition) : Call St UpdateOutcome :=
  let% _ := call_ret (check_sk_shape shape sk) in
  let% (sql, builder) := call_ret (update_where_statement shape pk sk sets removes condition) in
  let% _ := client in
  let% _ := prepare (shape_table shape) sql (pb_types builder) in
  let% row := query_opt (shape_table shape) sql (pb_params builder) in
  match row with
  | None => call_ret (Err BackendError_ConditionalCheckFailed)
  | Some r =>
      let% new_item := call_ret (get_json r 0) in
      let% old_item := call_ret (get_opt r 1) in
      call_ret (Ok (mkUpdateOutcome new_item old_item))
  end.

Definition pg_update_insert_only_raw (shape : TableShape) (insert_item : Value) : Call St UpdateOutcome :=
  let sql := build_insert_only_sql shape in
  let% _ := client in
  let% _ := prepare (shape_table shape) sql [PgType_JSONB] in
  let% row := query_opt (shape_table shape) sql [Param_Json insert_item] in
  match row with
  | None => call_ret (Err BackendError_ConditionalCheckFailed)
  | Some r =>
      let% new_item := call_ret (get_json r 0) in
      call_ret (Ok (mkUpdateOutcome new_item None))
  end.

(** ** Batches *)

Definition check_keys (shape : TableShape) (keys : list Key) : Result BackendError unit :=
  for_each (fun k : Key => check_sk_shape shape k.2) keys.

(** The array of a hash-only batch: text for [S] and [N], bytes for [B];
    a key of another type is unreachable. *)
Definition key_text (ty : KeyType) (k : Key) : Result BackendError string :=
  match ty, k.1 with
  | KeyType_S, KeyValue_S s | KeyType_N, KeyValue_N s => Ok s
  | _, _ => Panic
  end.
Definition key_bytes (k : Key) : Result BackendError bytes :=
  match k.1 with KeyValue_B b => Ok b | _ => Panic end.

Definition array_param (ty : KeyType) (keys : list Key) : Result BackendError (Param * PgType) :=
  match ty with
  | KeyType_S | KeyType_N => let? l := collect (key_text ty) keys in Ok (Param_TextArray l, PgType_TEXT_ARRAY)
  | KeyType_B => let? l := collect key_bytes keys in Ok (Param_ByteaArray l, PgType_BYTEA_ARRAY)
  end.

(** [($1, $2), ($3, $4), ..] with their casts. *)
Definition values_clause (pk_cast sk_cast : string) (n : nat) : string :=
  String.concat ", " (map (fun i => let i := N.of_nat i in
    "($" +:+ usize_to_string (i * 2 + 1) +:+ pk_cast +:+ ", $" +:+ usize_to_string (i * 2 + 2) +:+ sk_cast +:+ ")")
    (seq 0 n)).

(** The statement over a batch of keys, after [head] ("SELECT .." or
    "DELETE .."): text, types and parameters. *)
Definition keys_statement (head : string) (shape : TableShape) (keys : list Key)
  : Result BackendError (string * list PgType * list Param) :=
  let pk_col_q := quote_ident (shape_pk_col shape) in
  match shape_sk_col shape, shape_sk_type shape with
  | None, _ =>
      let? (p, ty) := array_param (shape_pk_type shape) keys in
      Ok (head +:+ " WHERE " +:+ pk_col_q +:+ " = ANY($1"
            +:+ match shape_pk_type shape with KeyType_N => "::numeric[]" | _ => "" end +:+ ")", [ty], [p])
  | Some sk_col_name, Some sk_type =>
      let clause := values_clause (cast_for_keytype (shape_pk_type shape)) (cast_for_keytype sk_type) (length keys) in
      let? bounds := collect (fun k : Key => let? sk := expect k.2 in Ok [Param_Bound k.1; Param_Bound sk]) keys in
      Ok (head +:+ " WHERE (" +:+ pk_col_q +:+ ", " +:+ quote_ident sk_col_name +:+ ") IN (" +:+ clause +:+ ")",
          keys ≫= (fun _ => [pg_type_for_keytype (shape_pk_type shape); pg_type_for_keytype sk_type]),
          concat bounds)
  | Some _, None => Panic
  end.

(** [collect_items]. *)
Definition collect_items (rows : list (list (option Value))) : Result BackendError (list Value) :=
  collect (fun r => get_json r 0) rows.

Definition pg_batch_get_raw (shape : TableShape) (keys : list Key) : Call St (list Value) :=
  match keys with
  | [] => call_ret (Ok [])
  | _ =>
      let% _ := call_ret (check_keys shape keys) in
      let% _ := client in
      let% (sql, types, params) := call_ret (keys_statement
        ("SELECT " +:+ quote_ident (shape_jsonb_col shape) +:+ " FROM " +:+ quote_ident (shape_table shape)) shape keys) in
      let% _ := prepare (shape_table shape) sql types in
      let% rows := query (shape_table shape) sql params in
      call_ret (collect_items rows)
  end.

Definition puts_sql (shape : TableShape) (n : nat) : string :=
  let table := quote_ident (shape_table shape) in
  let pk_col := quote_ident (shape_pk_col shape) in
  let jsonb_col := quote_ident (shape_jsonb_col shape) in
  let conflict_target := match shape_sk_col shape with
                         | None => pk_col
                         | Some sk_col => pk_col +:+ ", " +:+ quote_ident sk_col
                         end in
  let dwc := shape_dual_write_cols shape in
  let insert_cols := comma_each (fun c => quote_ident (dw_col c)) dwc in
  let set_excluded := comma_each (fun c => dual_write_set_excluded c (shape_jsonb_col shape)) dwc in
  let values := String.concat ", " (map (fun i => let param := N.of_nat i + 1 in
    "($" +:+ usize_to_string param +:+ "::jsonb" +:+ comma_each (dual_write_extract_expr param) dwc +:+ ")") (seq 0 n)) in
  "INSERT INTO " +:+ table +:+ " (" +:+ jsonb_col +:+ insert_cols +:+ ") VALUES " +:+ values +:+ " ON CONFLICT ("
  +:+ conflict_target +:+ ") DO UPDATE SET " +:+ jsonb_col +:+ " = EXCLUDED." +:+ jsonb_col +:+ set_excluded.

Definition execute_puts (shape : TableShape) (puts : list Value) : Call St unit :=
  let sql := puts_sql shape (length puts) in
  let% _ := prepare (shape_table shape) sql (replicate (length puts) PgType_JSONB) in
  call_map (fun _ => tt) (execute (shape_table shape) sql (map Param_Json puts)).

Definition execute_deletes (shape : TableShape) (deletes : list Key) : Call St unit :=
  let% (sql, types, params) :=
    call_ret (keys_statement ("DELETE FROM " +:+ quote_ident (shape_table shape)) shape deletes) in
  let% _ := prepare (shape_table shape) sql types in
  call_map (fun _ => tt) (execute (shape_table shape) sql params).

Definition puts_of (ops : list WriteOp) : list Value :=
  omap (fun op => match op with WriteOp_Put _ _ item => Some item | _ => None end) ops.
Definition deletes_of (ops : list WriteOp) : list Key :=
  omap (fun op => match op with WriteOp_Delete pk sk => Some (pk, sk) | _ => None end) ops.

Definition pg_batch_write_raw (shape : TableShape) (ops : list WriteOp) : Call St unit :=
  match ops with
  | [] => call_ret (Ok tt)
  | _ =>
      let% _ := call_ret (check_keys shape (map write_op_key ops)) in
      let puts := puts_of ops in
      let deletes := deletes_of ops in
      let% _ := client in
      transaction (shape_table shape) ReadCommitted
        (let% _ := match puts with [] => call_ret (Ok tt) | _ => execute_puts shape puts end in
         let% _ := match deletes with [] => call_ret (Ok tt) | _ => execute_deletes shape deletes end in
         commit (shape_table shape))
  end.

(** ** Transactions *)

Definition get_one (op : TransactGetOp) : Call St (option Value) :=
  let shape := tgo_shape op in
  let% sql := shape_sql shape in
  let% _ := prepare (shape_table shape) (get_sql sql) (key_types sql) in
  let% row := query_opt (shape_table shape) (get_sql sql) (key_bounds (tgo_pk op) (tgo_sk op)) in
  call_ret (first_json row).

Fixpoint get_each (ops : list TransactGetOp) : Call St (list (option Value)) :=
  match ops with
  | [] => call_ret (Ok [])
  | op :: ops => let% v := get_one op in let% vs := get_each ops in call_ret (Ok (v :: vs))
  end.

Definition pg_transact_get_raw (ops : list TransactGetOp) : Call St (list (option Value)) :=
  let% _ := call_ret (for_each (fun op => check_sk_shape (tgo_shape op) (tgo_sk op)) ops) in
  let% _ := client in
  transaction "<transact>" RepeatableReadOnly
    (let% out := get_each ops in
     let% _ := commit "<transact>" in
     call_ret (Ok out)).

Definition transact_op (op : TransactWriteOp) : Call St unit :=
  match op with
  | TransactWriteOp_Put shape pk sk item None _ => call_map (fun _ => tt) (put_item_inside_tx shape pk sk item)
  | TransactWriteOp_Put shape pk sk item (Some cond) _ =>
      call_map (fun _ => tt) (put_with_condition_inside_tx shape pk sk item cond)
  | TransactWriteOp_Delete shape pk sk None _ => call_map (fun _ => tt) (delete_item_inside_tx shape pk sk)
  | TransactWriteOp_Delete shape pk sk (Some cond) _ =>
      call_map (fun _ => tt) (delete_with_condition_inside_tx shape pk sk cond)
  | TransactWriteOp_ConditionCheck shape pk sk cond _ =>
      call_map (fun _ => tt) (condition_check_inside_tx shape pk sk cond)
  | TransactWriteOp_Update shape pk sk apply _ =>
      call_map (fun _ => tt) (update_general_rmw_inside_tx shape pk sk apply)
  end.

(** The operations in request order; the first failure cancels. *)
Fixpoint transact_ops (i n : nat) (ops : list TransactWriteOp) : Call St unit :=
  match ops with
  | [] => call_ret (Ok tt)
  | op :: ops => fun st =>
      match transact_op op st with
      | (Ok _, st') => transact_ops (S i) n ops st'
      | (Err e, st') => (Err (into_cancelled e i n), st')
      | (Panic, st') => (Panic, st')
      end
  end.

Definition pg_transact_write_raw (ops : list TransactWriteOp) : Call St unit :=
  let% _ := client in
  transaction "<transact>" RepeatableRead
    (let% _ := transact_ops 0 (length ops) ops in commit "<transact>").

(** ** Query and Scan

    [query_raw] and [scan_raw] as in [Query], on this server. *)

Definition run_page (shape : TableShape) (st : statement) (lim_input : N) (filter : option FilterEvalFn)
  : Call St QueryOutcome :=
  let '(sql, types, params) := st in
  let% _ := client in
  let% _ := prepare (shape_table shape) sql types in
  let% rows := query (shape_table shape) sql params in
  let% values := call_ret (collect_items rows) in
  call_ret (Ok (page_outcome shape values lim_input filter)).

Definition pg_query_raw (shape : TableShape) (pk : KeyValue) (sk_condition : option SkCondition) (limit : option N)
    (exclusive_start_key : option Key) (filter : option FilterEvalFn) (forward : bool) : Call St QueryOutcome :=
  if bool_decide (is_Some sk_condition) && bool_decide (shape_sk_col shape = None)
  then call_ret (Err (BackendError_UnexpectedSortKey (shape_table shape)))
  else if bool_decide (shape_sk_col shape = None) && bool_decide (is_Some exclusive_start_key)
  then call_ret (Ok (mkQueryOutcome [] 0 0 None))
  else
    let lim_input := default DEFAULT_LIMIT limit in
    let% st := call_ret (query_statement shape pk sk_condition lim_input exclusive_start_key forward) in
    run_page shape st lim_input filter.

Definition pg_scan_raw (shape : TableShape) (filter : option FilterEvalFn) (limit : option N)
    (exclusive_start_key : option Key) : Call St QueryOutcome :=
  let lim_input := default DEFAULT_LIMIT limit in
  run_page shape (scan_statement shape lim_input exclusive_start_key) lim_input filter.

(** ** The trampolines of lib.rs *)

Definition retrying {A} (f : Call St A) : Call St A :=
  fun st => match with_retry f clock policy st with
            | Some run => (run_result run, run_state run)
            | None => (Panic, st)
            end.

#[export] Instance pg_backend : Backend St := {|
  put_item_raw shape pk sk item := retrying (pg_put_item_raw shape pk sk item);
  put_with_condition_raw := pg_put_with_condition_raw;
  get_item_raw shape pk sk := retrying (pg_get_item_raw shape pk sk);
  delete_item_raw shape pk sk := retrying (pg_delete_item_raw shape pk sk);
  delete_with_condition_raw := pg_delete_with_condition_raw;
  update_simple_raw shape pk sk insert_item sets removes :=
    retrying (pg_update_simple_raw shape pk sk insert_item sets removes);
  update_insert_only_raw shape insert_item := retrying (pg_update_insert_only_raw shape insert_item);
  update_with_simple_condition_raw shape pk sk sets removes condition :=
    retrying (pg_update_with_simple_condition_raw shape pk sk sets removes condition);
  update_general_rmw_raw := pg_update_general_rmw_raw;
  query_raw := pg_query_raw;
  scan_raw := pg_scan_raw;
  batch_write_raw shape ops := retrying (pg_batch_write_raw shape ops);
  batch_get_raw shape keys := retrying (pg_batch_get_raw shape keys);
  transact_get_raw ops := retrying (pg_transact_get_raw ops);
  transact_write_raw := pg_transact_write_raw
|}.
End backend.
