(* ===== verification/PgExec.v ===== *)
(** * What the row statements do to the rows

    The tables as the server keeps them refine the rows of the backend
    contract: the effect of each statement of [PgWrite] on the documents,
    and the two invariants every statement keeps, that a row does not
    depend on how its key is written and that the dual-write columns are
    those of the document. *)

From S2P Require Import Prelude RustStr BTree Json Attr Ast Storage Schema Plan Checks PgTypes PgSelect.
From S2P Require Import Query ConditionSql Catalog Retry ApiError Backend PgWrite PgSql PgBackend.

#[local] Open Scope N_scope.

Section exec.
Context `{RK : RowKeys} `{B64 : Base64} `{SC : SqlCompare}.
Variable defs : string -> option TableShape.

(** ** The invariants *)

Definition by_key (m : Tables) : Prop := forall t k k', same_key k k' = true -> m t k = m t k'.

(** The dual-write columns hold what the document says. *)
Definition synced_row (shape : TableShape) (r : trow) : Prop :=
  Forall (fun c => trow_cols r !! dw_col c = extract_key_from_jsonb (trow_doc r) (dw_attr c) (dw_key_type c))
    (shape_dual_write_cols shape).
Definition synced (m : Tables) : Prop :=
  forall t shape k r, defs t = Some shape -> m t k = Some r -> synced_row shape r.

Definition good (m : Tables) : Prop := by_key m /\ synced m.

Lemma set_cols_other shape d cols c :
  c ∉ map dw_col (shape_dual_write_cols shape) -> set_cols shape d cols !! c = cols !! c.
Proof.
  unfold set_cols. revert cols. induction (shape_dual_write_cols shape) as [|c' l IH]; intros cols Hc; [done|].
  apply not_elem_of_cons in Hc as [Hne Hc]. simpl. rewrite IH by done. unfold set_col.
  case_match; [by rewrite lookup_insert_ne|by rewrite lookup_delete_ne].
Qed.

Lemma set_cols_synced shape d cols :
  NoDup (map dw_col (shape_dual_write_cols shape)) -> synced_row shape (mkTrow d (set_cols shape d cols)).
Proof.
  intros Hnd. unfold synced_row. apply Forall_forall. intros c Hc. simpl. unfold set_cols. revert cols.
  induction (shape_dual_write_cols shape) as [|c' l IH]; intros cols; [by apply elem_of_nil in Hc|].
  simpl in Hnd |- *. apply NoDup_cons in Hnd as [Hnew Hnd]. apply elem_of_cons in Hc as [->|Hc]; [|by apply IH].
  assert (Hkeep : forall cols, fold_left (set_col d) l cols !! dw_col c' = cols !! dw_col c').
  { intros cols0. apply (set_cols_other (mkTableShape "" "" KeyType_S None None "" l) d cols0). exact Hnew. }
  rewrite Hkeep. unfold set_col. case_match; [apply lookup_insert_eq|apply lookup_delete_eq].
Qed.

Lemma fold_left_proper {A B} (R : relation A) (f : A -> B -> A) l :
  (forall a a' b, R a a' -> R (f a b) (f a' b)) -> forall a a', R a a' -> R (fold_left f l a) (fold_left f l a').
Proof. intros Hf. induction l as [|b l IH]; intros a a' Ha; [done|]. simpl. by apply IH, Hf. Qed.

Section table.
Variable shape : TableShape.
Hypothesis Hdef : defs (shape_table shape) = Some shape.
Hypothesis Hcols : NoDup (map dw_col (shape_dual_write_cols shape)).

Lemma put_row_good k r m :
  good m -> (forall r', r = Some r' -> synced_row shape r') -> good (put_row (shape_table shape) k r m).
Proof.
  intros [Hk Hs] Hr. split.
  - intros t k1 k2 H12. unfold put_row. rewrite (Hk t k1 k2 H12).
    assert (same_key k k1 = same_key k k2) as ->; [|done].
    destruct (same_key k k1) eqn:E1, (same_key k k2) eqn:E2; try done.
    + by rewrite (same_key_trans k k1 k2) in E2.
    + rewrite (same_key_trans k k2 k1) in E1; [done|done|by apply same_key_sym].
  - intros t s k' r' Ht. unfold put_row. destruct (String.eqb_spec (shape_table shape) t) as [<-|Hne]; simpl.
    + rewrite Hdef in Ht. injection Ht as <-. destruct (same_key k k'); [apply Hr|by apply Hs].
    + by apply Hs.
Qed.

(** The tables after the document at [k] became [v]. *)
Definition becomes (k : Key) (v : option Value) (m m' : Tables) : Prop :=
  good m' /\ rows_eq (docs m') (set_row (shape_table shape) k v (docs m)).

Lemma put_row_becomes k r m :
  good m -> (forall r', r = Some r' -> synced_row shape r') ->
  becomes k (trow_doc <$> r) m (put_row (shape_table shape) k r m).
Proof. intros Hm Hr. split; [by apply put_row_good|apply docs_put_row]. Qed.

Lemma put_doc_becomes k d cols m :
  good m -> becomes k (Some d) m (put_row (shape_table shape) k (Some (mkTrow d (set_cols shape d cols))) m).
Proof.
  intros Hm. apply (put_row_becomes k (Some (mkTrow d (set_cols shape d cols)))); [done|].
  intros r' [= <-]. by apply set_cols_synced.
Qed.

Lemma set_row_same t k k' v m : same_key k k' = true -> rows_eq (set_row t k' v m) (set_row t k v m).
Proof.
  intros Hk t' x. unfold set_row. assert (same_key k' x = same_key k x) as ->; [|done].
  destruct (same_key k' x) eqn:E1, (same_key k x) eqn:E2; try done.
  - by rewrite (same_key_trans k k' x) in E2.
  - rewrite (same_key_trans k' k x) in E1; [done|by apply same_key_sym|done].
Qed.

Lemma becomes_same k k' v m m' : same_key k k' = true -> becomes k' v m m' -> becomes k v m m'.
Proof. intros Hk [Hg Hr]. split; [done|]. rewrite Hr. by apply set_row_same. Qed.

Lemma store_keyed k d m :
  good m -> keyed shape k d -> exists m', store shape k d m = Some m' /\ becomes k (Some d) m m'.
Proof.
  intros Hm (k' & Hl & Hs). unfold store. rewrite Hl. simpl. rewrite Hs. eexists. split; [done|].
  by apply put_doc_becomes.
Qed.

Lemma insert_keyed k d m :
  good m -> keyed shape k d -> exists m', insert shape d m = Some m' /\ becomes k (Some d) m m'.
Proof.
  intros Hm (k' & Hl & Hs). unfold insert. rewrite Hl. simpl. eexists. split; [done|].
  eapply becomes_same; [exact Hs|]. by apply put_doc_becomes.
Qed.

Lemma keyed_same k k' d : same_key k k' = true -> keyed shape k d -> keyed shape k' d.
Proof.
  intros Hk (k2 & Hl & Hs). exists k2. split; [done|]. eapply same_key_trans; [by apply same_key_sym|done].
Qed.

Lemma upsert_keyed k d m :
  good m -> keyed shape k d -> exists m', upsert shape d m = Some m' /\ becomes k (Some d) m m'.
Proof.
  intros Hm Hkd. pose proof Hkd as (k' & Hl & Hs). unfold upsert. rewrite Hl. simpl.
  case_match; [|by apply insert_keyed]. destruct (store_keyed k' d m Hm (keyed_same _ _ _ Hs Hkd)) as (m' & E & Hb).
  exists m'. split; [done|]. by eapply becomes_same.
Qed.

Lemma delete_becomes k m : good m -> becomes k None m (put_row (shape_table shape) k None m).
Proof. intros Hm. by apply (put_row_becomes k None). Qed.

Lemma becomes_absent k m : good m -> docs m (shape_table shape) k = None -> becomes k None m m.
Proof.
  intros Hm Hk. split; [done|]. intros t' k'. unfold set_row.
  destruct (String.eqb_spec (shape_table shape) t') as [<-|]; [|done]. simpl. destruct (same_key k k') eqn:E; [|done].
  unfold docs in *. by rewrite <- (proj1 Hm _ _ _ E).
Qed.

(** ** Keys among the parameters *)

Hypothesis Hok : shape_ok shape.

Definition sk_fits (sk : option KeyValue) : Prop := is_Some sk <-> is_Some (shape_sk_col shape).

Lemma key_typed_fits k : key_typed shape k -> sk_fits k.2.
Proof.
  unfold key_typed, sk_fits. intros [_ Hs].
  destruct (shape_cases _ Hok) as [[-> Ht]|(c & t & -> & Ht)]; rewrite Ht in Hs; destruct k.2; naive_solver.
Qed.

Lemma check_sk_fits sk : sk_fits sk -> check_sk_shape shape sk = Ok tt.
Proof.
  unfold sk_fits, check_sk_shape. destruct (shape_sk_col shape), sk; intros [H1 H2]; try done.
  - by destruct H2.
  - by destruct H1.
Qed.

Lemma take_key_bounds pk sk rest :
  sk_fits sk -> take_key shape (key_bounds pk sk ++ rest) = Some ((pk, sk), rest).
Proof.
  unfold sk_fits, take_key, key_bounds.
  destruct (shape_cases _ Hok) as [[-> _]|(c & t & -> & ->)]; destruct sk as [s|]; intros [H1 H2]; try done.
  - by destruct H1.
  - by destruct H2.
Qed.

Lemma key_of_param_typed v : key_of_param (key_type v) (key_param v) = Some v.
Proof. by destruct v. Qed.

Lemma take_key_params pk sk rest :
  key_typed shape (pk, sk) -> take_key shape (key_params pk sk ++ rest) = Some ((pk, sk), rest).
Proof.
  unfold key_typed, take_key, key_params. simpl. intros [<- Hs].
  destruct (shape_cases _ Hok) as [[-> Ht]|(c & t & -> & Ht)]; rewrite Ht in Hs; rewrite ?Ht; destruct sk as [s|]; try done;
    simpl; rewrite key_of_param_typed; [done|]. subst t. simpl. by rewrite key_of_param_typed.
Qed.

Lemma lek_object d k : lek_from_row d shape = Some k -> exists o, d = VObject o.
Proof.
  unfold lek_from_row, extract_key_from_jsonb. destruct d; simpl; try done. intros _. by eexists.
Qed.

Lemma keyed_object k d : keyed shape k d -> exists o, d = VObject o.
Proof. intros (k' & Hl & _). by eapply lek_object. Qed.

Lemma merged_object k sets removes d : keyed shape k (merged sets removes d) -> exists o, d = VObject o.
Proof. intros Hk. destruct d; try by apply keyed_object in Hk. by eexists. Qed.
(** ** The statements *)

Let table := shape_table shape.

(** The rows of a one-column SELECT of at most one row. *)
Definition opt_rows (v : option Value) : list (list (option Value)) :=
  match v with Some d => [[Some d]] | None => [] end.

Lemma exec_get b pk sk m o :
  sk_fits sk -> stmt_exec shape (StGet b) (key_bounds pk sk) m = Some o ->
  o.1.1 = opt_rows (docs m table (pk, sk)) /\ o.2 = m.
Proof.
  intros Hsk. cbn [stmt_exec]. rewrite <- (app_nil_r (key_bounds pk sk)), take_key_bounds by done. simpl.
  unfold docs. fold table. destruct (m table (pk, sk)); by intros [= <-].
Qed.

Lemma exec_put pk sk item m o :
  good m -> sk_fits sk -> keyed shape (pk, sk) item ->
  stmt_exec shape StPut (key_bounds pk sk ++ [Param_Json item]) m = Some o ->
  o.1.1 = [[docs m table (pk, sk)]] /\ becomes (pk, sk) (Some item) m o.2.
Proof.
  intros Hm Hsk Hk. cbn [stmt_exec]. rewrite take_key_bounds by done. simpl.
  destruct (upsert_keyed _ _ _ Hm Hk) as (m' & -> & Hb). simpl. by intros [= <-].
Qed.

Lemma docs_same k k' m : good m -> same_key k k' = true -> docs m table k' = docs m table k.
Proof. intros [Hk _] Hs. unfold docs. by rewrite (Hk table k k' Hs). Qed.

Lemma exec_insert k d m o :
  good m -> keyed shape k d -> stmt_exec shape StInsert [Param_Json d] m = Some o ->
  match docs m table k with
  | Some _ => o.1 = ([], 0) /\ o.2 = m
  | None => o.1 = ([[Some d]], 1) /\ becomes k (Some d) m o.2
  end.
Proof.
  intros Hm Hk. pose proof Hk as (k' & Hl & Hs). cbn [stmt_exec]. rewrite Hl. cbn [mbind option_bind]. fold table.
  rewrite <- (docs_same k k' m Hm Hs). unfold docs. destruct (m table k'); simpl; [by intros [= <-]|].
  destruct (insert_keyed _ _ _ Hm Hk) as (m' & -> & Hb). simpl. by intros [= <-].
Qed.

Lemma exec_update_row pk sk d old m o :
  good m -> sk_fits sk -> keyed shape (pk, sk) d -> docs m table (pk, sk) = Some old ->
  stmt_exec shape StUpdate (Param_Json d :: key_bounds pk sk) m = Some o ->
  o.1.2 = 1 /\ becomes (pk, sk) (Some d) m o.2.
Proof.
  intros Hm Hsk Hk Hold. cbn [stmt_exec]. rewrite <- (app_nil_r (key_bounds pk sk)), take_key_bounds by done. simpl.
  unfold docs in Hold. fold table. destruct (m table (pk, sk)); [|done].
  destruct (store_keyed _ _ _ Hm Hk) as (m' & -> & Hb). simpl. by intros [= <-].
Qed.

Lemma exec_delete returning pk sk m o :
  good m -> sk_fits sk -> stmt_exec shape (StDelete returning) (key_bounds pk sk) m = Some o ->
  (returning = true -> o.1.1 = opt_rows (docs m table (pk, sk))) /\ becomes (pk, sk) None m o.2.
Proof.
  intros Hm Hsk. cbn [stmt_exec]. rewrite <- (app_nil_r (key_bounds pk sk)), take_key_bounds by done. simpl.
  unfold docs. fold table. destruct (m table (pk, sk)) eqn:E; intros [= <-]; simpl.
  - split; [by intros ->|]. by apply delete_becomes.
  - split; [done|]. apply becomes_absent; [done|]. unfold docs. fold table. by rewrite E.
Qed.

(** The document of the merging update. *)
Definition new_doc (sets : list (string * Value)) (removes : list string) (insert_item : Value) (old : option Value)
  : Value :=
  match old with Some d => merged sets removes d | None => insert_item end.

Lemma key_bounds_length pk sk : sk_fits sk -> N.of_nat (length (key_bounds pk sk)) = key_arity shape.
Proof.
  unfold sk_fits, key_bounds, key_arity.
  destruct sk, (shape_sk_col shape); intros [Ha Hb]; try done; [by destruct Ha|by destruct Hb].
Qed.

Lemma exec_merge pk sk insert_item sets removes m o :
  good m -> sk_fits sk -> keyed shape (pk, sk) insert_item ->
  (forall d, docs m table (pk, sk) = Some d -> keyed shape (pk, sk) (merged sets removes d)) ->
  stmt_exec shape (StMerge (merge_doc (length sets) (length removes) (key_arity shape + 2)))
    (key_bounds pk sk ++ [Param_Json insert_item] ++ set_params sets ++ remove_params removes) m = Some o ->
  let new_item := new_doc sets removes insert_item (docs m table (pk, sk)) in
  o.1.1 = [[Some new_item; docs m table (pk, sk)]] /\ becomes (pk, sk) (Some new_item) m o.2.
Proof.
  intros Hm Hsk Hk Hmer. pose proof Hk as (k' & Hl & Hs). cbn [stmt_exec]. rewrite take_key_bounds by done.
  cbn [mbind option_bind snd app]. rewrite Hl. cbn [mbind option_bind]. fold table. cbn [fst].
  rewrite <- (docs_same _ _ _ Hm Hs) in *. unfold docs in *.
  destruct (m table k') as [r|] eqn:E; cbn [fmap option_fmap option_map] in *.
  - specialize (Hmer _ eq_refl). destruct (merged_object _ _ _ _ Hmer) as [ob Ho]. unfold new_doc.
    pose proof (merge_doc_value sets removes (key_bounds pk sk ++ [Param_Json insert_item])%list [] ob
      (key_arity shape + 2)) as Hd. rewrite app_nil_r, <- app_assoc in Hd. cbn [app] in Hd.
    rewrite Ho in *. rewrite Hd by (rewrite length_app, Nat2N.inj_add, key_bounds_length by done; simpl; lia).
    cbn [mbind option_bind].
    destruct (store_keyed k' _ _ Hm (keyed_same _ _ _ Hs Hmer)) as (m' & -> & Hb). cbn [mbind option_bind].
    intros [= <-]. split; [done|]. by eapply becomes_same.
  - destruct (insert_keyed _ _ _ Hm Hk) as (m' & -> & Hb). cbn [mbind option_bind]. by intros [= <-].
Qed.
Lemma key_params_length pk sk : sk_fits sk -> N.of_nat (length (key_params pk sk)) = key_arity shape.
Proof. intros Hsk. rewrite <- (key_bounds_length pk sk Hsk). by destruct sk. Qed.

Lemma exec_where pk sk sets removes cps c verdict m o :
  good m -> key_typed shape (pk, sk) ->
  (forall d, docs m table (pk, sk) = Some d -> keyed shape (pk, sk) (merged sets removes d)) ->
  let ps := (key_params pk sk ++ set_params sets ++ remove_params removes ++ cps)%list in
  (forall d, docs m table (pk, sk) = Some d -> bool_value d ps c = verdict d) ->
  stmt_exec shape (StUpdateWhere (merge_doc (length sets) (length removes) (key_arity shape + 1)) c) ps m = Some o ->
  match docs m table (pk, sk) with
  | Some d =>
      if bool_decide (verdict d = Some true)
      then o.1.1 = [[Some (merged sets removes d); Some d]] /\ becomes (pk, sk) (Some (merged sets removes d)) m o.2
      else o.1.1 = [] /\ o.2 = m
  | None => o.1.1 = [] /\ o.2 = m
  end.
Proof.
  intros Hm Hty Hmer. cbv zeta. intros Hv. cbn [stmt_exec]. rewrite take_key_params by done.
  cbn [mbind option_bind fst]. fold table. unfold docs in *.
  destruct (m table (pk, sk)) as [r|] eqn:E; cbn [fmap option_fmap option_map] in *; [|by intros [= <-]].
  rewrite (Hv _ eq_refl). case_bool_decide; [|by intros [= <-]].
  specialize (Hmer _ eq_refl). destruct (merged_object _ _ _ _ Hmer) as [ob Ho].
  pose proof (merge_doc_value sets removes (key_params pk sk) cps ob (key_arity shape + 1)) as Hd.
  rewrite Ho in *. rewrite Hd by (by rewrite key_params_length by exact (key_typed_fits _ Hty)).
  cbn [mbind option_bind]. destruct (store_keyed _ _ _ Hm Hmer) as (m' & -> & Hb). cbn [mbind option_bind].
  by intros [= <-].
Qed.

(** ** Batches *)

Lemma puts_fold ops : forall m,
  good m -> Forall (write_op_ok shape) ops ->
  exists m', fold_left (fun m d => m ≫= upsert shape d) (puts_of ops) (Some m) = Some m'
             /\ good m' /\ rows_eq (docs m') (fold_left (apply_put shape) ops (docs m)).
Proof.
  induction ops as [|[pk sk item|pk sk] ops IH]; intros m Hm Hops.
  - by exists m.
  - apply Forall_cons in Hops as [Hop Hops]. cbn [puts_of omap list_omap fold_left] in *.
    destruct (upsert_keyed _ _ _ Hm Hop) as (m1 & E & Hg & Hr). cbn [mbind option_bind] in *. rewrite E.
    destruct (IH m1 Hg Hops) as (m' & E' & Hg' & Hr'). exists m'. split_and!; [done|done|].
    rewrite Hr'. apply fold_left_proper; [|exact Hr].
    intros a b op Hab. destruct op; simpl; [by rewrite Hab|done].
  - apply Forall_cons in Hops as [_ Hops]. cbn [puts_of omap list_omap fold_left apply_put] in *. by apply IH.
Qed.

Lemma deletes_fold ops : forall m,
  good m ->
  let m' := fold_left (fun m k => put_row table k None m) (deletes_of ops) m in
  good m' /\ rows_eq (docs m') (fold_left (apply_delete shape) ops (docs m)).
Proof.
  induction ops as [|[pk sk item|pk sk] ops IH]; intros m Hm.
  - done.
  - cbn [deletes_of omap list_omap fold_left apply_delete] in *. by apply IH.
  - cbn [deletes_of omap list_omap fold_left apply_delete] in *.
    destruct (delete_becomes (pk, sk) m Hm) as [Hg Hr]. destruct (IH _ Hg) as [Hg' Hr']. split; [done|].
    etransitivity; [exact Hr'|]. apply fold_left_proper; [|exact Hr].
    intros a b op Hab. destruct op; simpl; [done|by rewrite Hab].
Qed.

Lemma json_params_map l : json_params (map Param_Json l) = Some l.
Proof. induction l as [|v l IH]; [done|]. unfold json_params in *. simpl. by rewrite IH. Qed.

Lemma exec_put_many ops m o :
  good m -> Forall (write_op_ok shape) ops ->
  stmt_exec shape (StPutMany (length (puts_of ops))) (map Param_Json (puts_of ops)) m = Some o ->
  good o.2 /\ rows_eq (docs o.2) (fold_left (apply_put shape) ops (docs m)).
Proof.
  intros Hm Hops. cbn [stmt_exec]. rewrite json_params_map. cbn [mbind option_bind].
  destruct (mapM _ _) as [ks|]; [|done]. cbn [mbind option_bind]. case_match; [|done].
  destruct (puts_fold ops m Hm Hops) as (m' & -> & Hg & Hr). cbn [mbind option_bind]. by intros [= <-].
Qed.

Lemma exec_delete_many ops n params m o :
  good m -> batch_keys shape n params = Some (deletes_of ops) ->
  stmt_exec shape (StDeleteMany n) params m = Some o ->
  good o.2 /\ rows_eq (docs o.2) (fold_left (apply_delete shape) ops (docs m)).
Proof.
  intros Hm Hk. cbn [stmt_exec]. rewrite Hk. cbn [mbind option_bind]. intros [= <-]. by apply deletes_fold.
Qed.

Lemma dedup_distinct keys : distinct_keys keys -> dedup_keys keys = keys.
Proof.
  induction keys as [|k keys IH]; intros Hd; [done|]. cbn [dedup_keys]. rewrite IH.
  - f_equal. apply List.forallb_filter_id, forallb_forall. intros k' Hk'. apply negb_true_iff.
    destruct (same_key k k') eqn:E; [|done]. apply list_elem_of_In, list_elem_of_lookup in Hk' as [j Hj].
    by specialize (Hd 0%nat (S j) k k' eq_refl Hj E).
  - intros i j a b Hi Hj E. by specialize (Hd (S i) (S j) a b Hi Hj E) as [= ->].
Qed.

Lemma exec_get_many keys n params m o :
  batch_keys shape n params = Some keys -> stmt_exec shape (StGetMany n) params m = Some o ->
  exists items, o.1.1 = map (fun d => [Some d]) items /\ o.2 = m
    /\ (distinct_keys keys -> items = omap (docs m table) keys).
Proof.
  intros Hk. cbn [stmt_exec]. rewrite Hk. cbn [mbind option_bind]. intros [= <-]. cbn [fst snd].
  exists (omap (docs m table) (dedup_keys keys)). split_and!; [|done|by intros ->%dedup_distinct].
  fold table. induction (dedup_keys keys) as [|k l IH]; [done|]. cbn [omap list_omap]. rewrite IH.
  by destruct (docs m table k).
Qed.
End table.
End exec.

(** ** The texts the methods build for themselves *)

Section texts.
Variable shape : TableShape.
Hypothesis Hok : shape_ok shape.

#[local] Arguments quote_ident : simpl never.
#[local] Arguments usize_to_string : simpl never.

Lemma conditional_delete_text : conditional_delete_sql shape = Ok (stmt_text shape (StDelete false)).
Proof.
  unfold conditional_delete_sql. cbn [stmt_text]. unfold key_pred, key_cols, placeholder.
  destruct (shape_cases _ Hok) as [[Hc Ht]|(c & t & Hc & Ht)]; rewrite ?Hc, ?Ht;
    f_equal; vm_compute usize_to_string; same_pieces.
Qed.

Lemma puts_text n : puts_sql shape n = stmt_text shape (StPutMany n).
Proof.
  assert (Hrows : forall i : nat, "($" +:+ usize_to_string (N.of_nat i + 1) +:+ "::jsonb"
      +:+ comma_each (dual_write_extract_expr (N.of_nat i + 1)) (shape_dual_write_cols shape) +:+ ")"
    = "(" +:+ dollar (N.of_nat i + 1) +:+ "::jsonb" +:+ dw_values shape (FromParam (N.of_nat i + 1)) +:+ ")")
    by (intros i; by rewrite extracts_text).
  unfold puts_sql. cbv zeta. rewrite (map_ext _ _ Hrows), names_text, excluded_text. done.
Qed.

Lemma collect_texts ty (keys : list Key) :
  ty <> KeyType_B -> Forall (fun k => key_type k.1 = ty) keys -> Forall (fun k => k.2 = None) keys ->
  exists l, collect (key_text ty) keys = Ok l
    /\ keys = map (fun s => (match ty with KeyType_S => KeyValue_S s | _ => KeyValue_N s end, None)) l.
Proof.
  intros Hty H1 H2. induction H1 as [|[v sk] keys Hv _ IH]; [by exists []|].
  apply Forall_cons in H2 as [Hs H2]. destruct (IH H2) as (l & E & Hl). simpl in Hv, Hs. subst ty sk.
  destruct v as [s|s|b]; [| |done]; exists (s :: l); (split; [|by rewrite Hl]); cbn [collect key_text key_type fst];
    cbn [key_type] in E; by rewrite E.
Qed.

Lemma collect_bytes (keys : list Key) :
  Forall (fun k => key_type k.1 = KeyType_B) keys -> Forall (fun k => k.2 = None) keys ->
  exists l, collect key_bytes keys = Ok l /\ keys = map (fun b => (KeyValue_B b, None)) l.
Proof.
  intros H1 H2. induction H1 as [|[v sk] keys Hv _ IH]; [by exists []|].
  apply Forall_cons in H2 as [Hs H2]. destruct (IH H2) as (l & E & ->). simpl in Hv, Hs. subst sk.
  destruct v as [s|s|b]; [done..|]. simpl. rewrite E. by exists (b :: l).
Qed.

(** A hash-only batch is one array. *)
Lemma array_keys keys :
  shape_sk_col shape = None -> Forall (key_typed shape) keys ->
  exists p ty, array_param (shape_pk_type shape) keys = Ok (p, ty) /\ batch_keys shape (length keys) [p] = Some keys.
Proof.
  intros Hc Hk. destruct (shape_cases _ Hok) as [[_ Ht]|(c & t & Hc' & _)]; [|congruence].
  assert (H1 : Forall (fun k => key_type k.1 = shape_pk_type shape) keys)
    by (eapply Forall_impl; [exact Hk|]; intros k [? _]; done).
  assert (H2 : Forall (fun k => k.2 = None) keys).
  { eapply Forall_impl; [exact Hk|]. intros k [_ H2]. rewrite Ht in H2. by destruct k.2. }
  unfold array_param, batch_keys. rewrite Hc. destruct (shape_pk_type shape) eqn:Hp.
  - destruct (collect_texts KeyType_S keys) as (l & -> & ->); [done..|]. simpl. by eexists _, _.
  - destruct (collect_texts KeyType_N keys) as (l & -> & ->); [done..|]. simpl. by eexists _, _.
  - destruct (collect_bytes keys) as (l & -> & ->); [done..|]. simpl. by eexists _, _.
Qed.

(** A composite batch is a list of pairs. *)
Lemma pair_keys keys :
  is_Some (shape_sk_col shape) -> Forall (key_typed shape) keys ->
  exists bounds,
    collect (fun k : Key => let? sk := expect k.2 in Ok [Param_Bound k.1; Param_Bound sk]) keys
    = Ok (E := BackendError) bounds
    /\ take_keys shape (length keys) (concat bounds) = Some keys.
Proof.
  intros [c Hc] Hk. induction Hk as [|[v sk] keys Hv _ IH]; [by exists []|].
  destruct IH as (bs & E & Ht). pose proof (key_typed_fits shape Hok _ Hv) as [_ Hf]. simpl in Hf. rewrite Hc in Hf.
  destruct (Hf (ex_intro _ _ eq_refl)) as [s ->]. exists ([Param_Bound v; Param_Bound s] :: bs).
  cbn [collect snd fst expect]. simpl. rewrite E. split; [done|].
  assert (Hk : take_key shape (Param_Bound v :: Param_Bound s :: concat bs) = Some ((v, Some s), concat bs))
    by (apply (take_key_bounds shape Hok v (Some s)); unfold sk_fits; by rewrite Hc).
  cbn [length take_keys]. rewrite Hk.
  cbn [mbind option_bind snd]. by rewrite Ht.
Qed.

Lemma values_text c t n :
  shape_sk_col shape = Some c -> shape_sk_type shape = Some t ->
  values_clause (cast_for_keytype (shape_pk_type shape)) (cast_for_keytype t) n = pairs_text shape n.
Proof.
  intros Hc Ht. unfold values_clause, pairs_text, key_cols, placeholder. rewrite Hc, Ht. f_equal. apply map_ext.
  intros i. cbv zeta. same_pieces.
Qed.

Lemma keys_statement_text head keys :
  Forall (key_typed shape) keys ->
  exists types params,
    keys_statement head shape keys = Ok (head +:+ " WHERE " +:+ keys_pred shape (length keys), types, params)
    /\ batch_keys shape (length keys) params = Some keys.
Proof.
  intros Hk. unfold keys_statement, keys_pred.
  destruct (shape_cases _ Hok) as [[Hc Ht]|(c & t & Hc & Ht)]; rewrite ?Hc, ?Ht.
  - destruct (array_keys keys Hc Hk) as (p & ty & -> & Hb). by exists [ty], [p].
  - destruct (pair_keys keys) as (bs & -> & Hb); [by rewrite Hc|done|].
    eexists _, (concat bs). split; [|unfold batch_keys; by rewrite Hc].
    by rewrite (values_text _ _ _ Hc Ht).
Qed.
End texts.

(** ** Query and Scan read *)

#[local] Arguments quote_ident : simpl never.
#[local] Arguments usize_to_string : simpl never.

Lemma query_statement_render shape pk cond lim esk forward st :
  query_statement shape pk cond lim esk forward = Ok st -> exists sel, st.1.1 = render sel.
Proof.
  destruct (shape_sk_col shape) as [c|] eqn:Hc; [destruct (shape_sk_type shape) as [t|] eqn:Ht|].
  - rewrite query_statement_select; [|unfold shape_ok; by rewrite Hc, Ht|by rewrite Hc].
    intros [= <-]. by eexists.
  - intros Hq. exists (mkSelect (shape_jsonb_col shape) (shape_table shape)
      [SqlCmp (shape_pk_col shape) op_eq (shape_pk_type shape)] [(c, Some (if forward then Asc else Desc))]).
    revert Hq. unfold query_statement, push_sk_condition, push_esk, sk_compare. rewrite Hc, Ht.
    destruct cond as [[v|v|v|v|v|lo hi|prefix]|]; cbn [fmap option_fmap option_map expect]; try done.
    destruct esk as [[epk [esk|]]|]; cbn [fmap option_fmap option_map expect]; try done;
      intros [= <-]; destruct forward; unfold render, placeholder; cbn -[String.append];
      unfold placeholder; same_text.
  - intros Hq. exists (mkSelect (shape_jsonb_col shape) (shape_table shape)
      [SqlCmp (shape_pk_col shape) op_eq (shape_pk_type shape)] []).
    revert Hq. unfold query_statement, push_sk_condition, push_esk, sk_compare. rewrite Hc.
    destruct cond as [[v|v|v|v|v|lo hi|prefix]|]; cbn [fmap option_fmap option_map expect]; try done.
    destruct esk as [[epk [esk|]]|]; cbn [fmap option_fmap option_map expect]; try done;
      intros [= <-]; destruct forward; unfold render, placeholder; cbn -[String.append];
      unfold placeholder; same_text.
Qed.

Lemma scan_statement_render shape lim esk : exists sel, (scan_statement shape lim esk).1.1 = render sel.
Proof.
  set (order := (shape_pk_col shape, @None direction)
    :: match shape_sk_col shape with Some c => [(c, None)] | None => [] end).
  unfold scan_statement, scan_where, sk_cast_of, push.
  destruct esk as [[epk [esk|]]|]; destruct (shape_sk_col shape) as [c|] eqn:Hc;
    destruct (shape_sk_type shape) as [t|] eqn:Ht; cbn [fmap option_fmap option_map];
    first [ exists (mkSelect (shape_jsonb_col shape) (shape_table shape) [] order);
            unfold render, order; cbn -[String.append]; same_text
          | exists (mkSelect (shape_jsonb_col shape) (shape_table shape)
              [SqlCmp (shape_pk_col shape) op_gt (shape_pk_type shape)] order);
            unfold render, order; cbn -[String.append]; unfold placeholder; same_text
          | eexists (mkSelect (shape_jsonb_col shape) (shape_table shape)
              [SqlRowGt (shape_pk_col shape) (shape_pk_type shape) _ _] order);
            unfold render, order; cbn -[String.append]; unfold placeholder; same_text ].
Qed.

