(* ===== verification/PgContract.v ===== *)
(** * The PostgreSQL backend meets the contract

    Each method of [PgBackend], on a server that keeps the laws of
    [PgWrite], does what the [Backend] trait documents of it: a small
    program logic for calls, the cache of statement texts, the retries,
    and one law per method. *)

From S2P Require Import Prelude RustStr BTree Json Attr Ast Storage Schema Plan Checks PgTypes PgSelect.
From S2P Require Import Query ConditionSql Catalog Retry ApiError Backend PgWrite PgSql PgBackend PgExec.

#[local] Open Scope N_scope.

Create HintDb quiet.

(** ** Tables *)

Definition no_bar (s : string) : Prop := str_forall (fun c => negb (Ascii.eqb c "|")) s = true.

(** A table as the control plane creates it. *)
Record table_valid (shape : TableShape) : Prop := {
  valid_shape : shape_ok shape;
  valid_names : plain_names shape;
  valid_cols : NoDup (map dw_col (shape_dual_write_cols shape));
  valid_table : no_bar (shape_table shape)
}.

(** ** The cache of statement texts *)

(** The texts of a shape. *)
Definition shape_texts (shape : TableShape) : ShapeSql :=
  mkShapeSql (stmt_text shape StPut) (stmt_text shape (StGet false)) (stmt_text shape (StDelete true))
    (key_pg_types shape ++ [PgType_JSONB]) (key_pg_types shape).

Lemma bar_split t : forall t' x x',
  no_bar t -> no_bar t' -> (x = EmptyString \/ exists y, x = String "|" y) ->
  (x' = EmptyString \/ exists y, x' = String "|" y) -> t +:+ x = t' +:+ x' -> t = t' /\ x = x'.
Proof.
  induction t as [|c t IH]; intros [|c' t'] x x' Ht Ht' Hx Hx' E; cbn [String.append] in E.
  - done.
  - subst x. destruct Hx as [?|[y [= -> _]]]; [done|]. by unfold no_bar in Ht'.
  - subst x'. destruct Hx' as [?|[y [= -> _]]]; [done|]. by unfold no_bar in Ht.
  - injection E as -> E. unfold no_bar in *. cbn [str_forall] in *.
    apply andb_true_iff in Ht as [_ Ht], Ht' as [_ Ht']. destruct (IH t' x x') as [-> ->]; done.
Qed.

Definition cache_suffix (shape : TableShape) : string :=
  match shape_dual_write_cols shape with
  | [] => EmptyString
  | dwc => "|dw=" +:+ String.concat ","
      (sort_strings (map (fun c => dw_col c +:+ ":" +:+ dw_attr c +:+ ":"
        +:+ match dw_key_type c with KeyType_S => "S" | KeyType_N => "N" | KeyType_B => "B" end) dwc))
  end.

Lemma cache_key_split shape : shape_cache_key shape = shape_table shape +:+ cache_suffix shape.
Proof. unfold shape_cache_key, cache_suffix. case_match; [by rewrite app_nil_r_str|done]. Qed.

Lemma cache_suffix_bar shape :
  (cache_suffix shape = EmptyString /\ shape_dual_write_cols shape = [])
  \/ ((exists y, cache_suffix shape = String "|" y) /\ shape_dual_write_cols shape <> []).
Proof. unfold cache_suffix. case_match; [by left|]. right. split; [|done]. eexists. reflexivity. Qed.

(** The cache of statement texts outlives the table. Its key is the
    table name with the dual-write columns and nothing is ever removed
    from it, so once a shape has been used, every shape with the same
    table name and dual-write columns gets that shape's texts, whatever
    its key columns: after a table is deleted and created again with
    another key, its requests run statements on columns it does not
    have. *)
Theorem stale_sql_cache {Srv} (shape shape' : TableShape) (st : PgState Srv) :
  shape_ok shape -> shape_table shape = shape_table shape' ->
  shape_dual_write_cols shape = shape_dual_write_cols shape' -> sql_cache st !! shape_cache_key shape = None ->
  let st' := (shape_sql shape st).2 in shape_sql shape' st' = (Ok (shape_texts shape), st').
Proof.
  intros Hok Ht Hd Hc. assert (Hk : shape_cache_key shape' = shape_cache_key shape)
    by (unfold shape_cache_key; by rewrite Ht, Hd).
  cbv zeta. unfold shape_sql. rewrite Hc, build_texts by done. cbn [snd sql_cache]. by rewrite Hk, lookup_insert_eq.
Qed.

Section contract.
Context `{RK : RowKeys} `{B64 : Base64} `{SC : SqlCompare} {Srv : Type} `{PG : PgServer Srv} `{L : !PgLaws Srv}.
Variables (policy : RetryPolicy) (clock : nat -> N).
Hypothesis Hsane : sane_policy policy.
Hypothesis Htables : forall t shape, table_def t = Some shape -> table_valid shape.

#[local] Notation St := (PgState Srv).

(** The shapes the backend is called with: a live table's, with all its
    dual-write columns (writes) or with none (reads). *)
Definition used (shape : TableShape) : Prop :=
  exists full, table_def (shape_table shape) = Some full /\ same_columns shape full
  /\ (shape_dual_write_cols shape = [] \/ shape_dual_write_cols shape = shape_dual_write_cols full).

Lemma used_valid shape : used shape -> shape_ok shape /\ no_bar (shape_table shape).
Proof.
  intros (full & Hd & (Ht & _ & _ & Hc & Hs & _) & _). apply Htables in Hd as [Hok _ _ Hb].
  unfold shape_ok in *. by rewrite Hc, Hs, Ht.
Qed.

(** Two such shapes with one cache key are one shape. *)
Lemma used_cache_key s s' : used s -> used s' -> shape_cache_key s = shape_cache_key s' -> s = s'.
Proof.
  intros Hu Hu' E. rewrite !cache_key_split in E.
  destruct (bar_split (shape_table s) (shape_table s') (cache_suffix s) (cache_suffix s')) as [Ht Hx];
    [by apply used_valid|by apply used_valid|..|exact E|].
  1,2: destruct (cache_suffix_bar s) as [[? _]|[? _]], (cache_suffix_bar s') as [[? _]|[? _]]; auto.
  assert (Hnil : shape_dual_write_cols s = [] <-> shape_dual_write_cols s' = []).
  { destruct (cache_suffix_bar s) as [[H1 ?]|[[y H1] ?]], (cache_suffix_bar s') as [[H2 ?]|[[y' H2] ?]]; try done;
      rewrite H1, H2 in Hx; done. }
  destruct Hu as (full & Hd & Hc & Hw), Hu' as (full' & Hd' & Hc' & Hw'). rewrite Ht, Hd' in Hd. injection Hd as ->.
  assert (Hdw : shape_dual_write_cols s = shape_dual_write_cols s')
    by (destruct Hw as [Hw|Hw], Hw' as [Hw'|Hw']; [congruence|rewrite (proj1 Hnil Hw); congruence
        |rewrite (proj2 Hnil Hw'); congruence|congruence]).
  destruct s, s'. unfold same_columns in *. simpl in *. destruct_and!. congruence.
Qed.

Definition cache_ok (cache : gmap string ShapeSql) : Prop :=
  forall shape s, used shape -> cache !! shape_cache_key shape = Some s -> s = shape_texts shape.

Lemma cache_ok_insert cache shape :
  used shape -> cache_ok cache -> cache_ok (<[shape_cache_key shape := shape_texts shape]> cache).
Proof.
  intros Hu Hc shape' s Hu'. destruct (decide (shape_cache_key shape = shape_cache_key shape')) as [E|Hne].
  - rewrite <- E, lookup_insert_eq. intros [= <-]. by rewrite (used_cache_key _ _ Hu Hu' E).
  - rewrite lookup_insert_ne by done. by apply Hc.
Qed.
(** ** Calls *)

(** [Q] holds of the result and the state a call leaves. *)
Definition wp {A} (c : Call St A) (Q : Result BackendError A -> St -> Prop) (st : St) : Prop :=
  let '(r, st') := c st in Q r st'.

Definition lift {A B} (f : A -> Call St B) (Q : Result BackendError B -> St -> Prop)
    (r : Result BackendError A) (st : St) : Prop :=
  match r with Ok a => wp (f a) Q st | Err e => Q (Err e) st | Panic => Q Panic st end.

Lemma wp_bind {A B} (c : Call St A) (f : A -> Call St B) P Q st :
  wp c P st -> (forall r st', P r st' -> lift f Q r st') -> wp (call_bind c f) Q st.
Proof. unfold wp, call_bind. destruct (c st) as [[a|e|] st']; intros HP Hf; exact (Hf _ _ HP). Qed.

Lemma wp_mono {A} (c : Call St A) (P Q : Result BackendError A -> St -> Prop) st :
  wp c P st -> (forall r st', P r st' -> Q r st') -> wp c Q st.
Proof. unfold wp. destruct (c st). auto. Qed.

Lemma wp_map {A B} (g : A -> B) (c : Call St A) Q st :
  wp c (fun r st' => Q (res_map g r) st') st -> wp (call_map g c) Q st.
Proof. intros Hc. eapply wp_bind; [exact Hc|]. by intros [a|e|] st'. Qed.

(** The tables, the open transaction, and a cache that is right. *)
Definition at_ (m : Tables) (t : option Tables) (st : St) : Prop :=
  committed (pg_srv st) = m /\ in_tx (pg_srv st) = t /\ cache_ok (sql_cache st).

(** After a failure in a transaction only its end is certain. *)
Definition failed (m : Tables) (t : option Tables) (st : St) : Prop :=
  committed (pg_srv st) = m /\ (t = None -> in_tx (pg_srv st) = None) /\ cache_ok (sql_cache st).

Lemma at_failed m t st : at_ m t st -> failed m t st.
Proof. intros (? & ? & ?). by split_and!; [|intros ->|]. Qed.

Lemma failed_at m st : failed m None st -> at_ m None st.
Proof. intros (? & Hn & ?). by split_and!; [|apply Hn|]. Qed.

(** The failures of the pool and of the server. *)
Definition outage (e : BackendError) : Prop := unavailable (A := unit) (Err e).

Lemma outage_unavailable {A} e : outage e -> unavailable (A := A) (Err e).
Proof. by destruct e. Qed.

Lemma outage_pg table e : outage (map_pg_err table e).
Proof. unfold map_pg_err. case_match; [done|]. by destruct (db_error e) as [[]|]. Qed.

Lemma outage_pool e ms : outage (classify_pool_error e ms).
Proof. by destruct e. Qed.

(** Calls that leave the tables alone. *)
Definition quiet {A} (c : Call St A) (P : A -> Prop) : Prop :=
  forall m t st, at_ m t st ->
  wp c (fun r st' => at_ m t st' /\ match r with Ok a => P a | Err e => outage e | Panic => False end) st.

Lemma wp_quiet {A B} (c : Call St A) P (f : A -> Call St B) Q m t st :
  quiet c P -> at_ m t st ->
  (forall e st', outage e -> at_ m t st' -> Q (Err e) st') ->
  (forall a st', P a -> at_ m t st' -> wp (f a) Q st') ->
  wp (call_bind c f) Q st.
Proof.
  intros Hc Hst He Hf. eapply wp_bind; [exact (Hc m t st Hst)|]. intros [a|e|] st' [Hst' Hr]; simpl; auto. done.
Qed.

Lemma quiet_client : quiet client (fun _ => True).
Proof.
  intros m t st (Hc & Ht & Hk). unfold wp, client. pose proof (client_law (pg_srv st)) as [H1 H2].
  destruct (pg_client (pg_srv st)) as [[[e ms]|u] srv]; simpl in *; (split; [split_and!; simpl; (congruence || done)|]).
  - apply outage_pool.
  - done.
Qed.

Lemma quiet_prepare table sql types : quiet (prepare table sql types) (fun _ => True).
Proof.
  intros m t st (Hc & Ht & Hk). unfold wp, prepare, server. pose proof (prepare_law sql types (pg_srv st)) as [H1 H2].
  destruct (pg_prepare sql types (pg_srv st)) as [[e|u] srv]; simpl in *; (split; [split_and!; simpl; (congruence || done)|]).
  - apply outage_pg.
  - done.
Qed.

Lemma quiet_shape_sql shape : used shape -> quiet (shape_sql shape) (fun s => s = shape_texts shape).
Proof.
  intros Hu m t st (Hc & Ht & Hk). unfold wp, shape_sql.
  destruct (sql_cache st !! shape_cache_key shape) as [s|] eqn:E; [by split; [|by apply Hk]|].
  rewrite build_texts by (by apply used_valid). split; [|done]. split_and!; [done..|]. by apply cache_ok_insert.
Qed.

(** ** Statements *)

(** No connection is lost between the effect of a statement and its
    reply. *)
Definition replies_reliable : Prop := forall shape s params srv e srv',
  pg_run (stmt_text shape s) params srv = (inl e, srv') -> committed srv' = committed srv.

Hypothesis Hreplies : max_attempts policy <= 1 \/ replies_reliable.

Definition runnable (shape : TableShape) (s : row_stmt) (params : list Param) : Prop :=
  ((live_shape shape /\ plain_names shape) \/ (live_columns shape /\ reads_columns s = true))
  /\ Forall (key_typed shape) (stmt_keys shape s params).

(** What a statement leaves: its effect, in the transaction if there is
    one. *)
Definition landed (m : Tables) (t : option Tables) (o : Output) (st : St) : Prop :=
  match t with None => at_ o.2 None st | Some _ => at_ m (Some o.2) st end.

(** The outcome of a statement, [P] of the value read from its output. *)
Definition ran {A} shape s params (m : Tables) (t : option Tables) (P : Output -> A -> Prop)
    (r : Result BackendError A) (st : St) : Prop :=
  match r with
  | Ok a => exists o, stmt_exec shape s params (default m t) = Some o /\ landed m t o st /\ P o a
  | Err e => outage e /\ (failed m t st
      \/ t = None /\ max_attempts policy <= 1
         /\ exists o, stmt_exec shape s params m = Some o /\ at_ o.2 None st)
  | Panic => False
  end.

Lemma wp_run table shape s params m t st :
  runnable shape s params -> at_ m t st ->
  wp (server table (pg_run (stmt_text shape s) params)) (ran shape s params m t (fun o out => same_output out o)) st.
Proof.
  intros [Hl Hk] (Hc & Ht & Hcache). unfold wp, server. pose proof (run_law shape s params (pg_srv st) Hl Hk) as Hrun.
  destruct (pg_run _ params (pg_srv st)) as [[e|out] srv] eqn:E; unfold visible in Hrun; rewrite Ht, Hc in Hrun; simpl.
  - destruct Hrun as [Hn Hr]. split; [apply outage_pg|].
    assert (committed srv = m \/ t = None /\ max_attempts policy <= 1
      /\ exists o, stmt_exec shape s params m = Some o /\ committed srv = o.2) as [Hm|(-> & Hmax & o & Ho & Hm)].
    { destruct Hreplies as [Hmax|Hrel]; [|left; by rewrite (Hrel _ _ _ _ _ _ E)].
      destruct Hr as [Hr|(-> & _ & o & Ho & Hr)]; [by left|]. right. by eauto. }
    + left. by split_and!.
    + right. split_and!; [done..|]. exists o. split; [done|]. split_and!; [done| |done]. by apply Hn.
  - destruct Hrun as (o & Ho & Hout & Hr). exists o. split_and!; [done| |done].
    destruct t; destruct Hr as [H1 H2]; by split_and!.
Qed.
Lemma ran_bind {A B} shape s params m t (P : Output -> A -> Prop) (P' : Output -> B -> Prop)
    (c : Call St A) (g : A -> Result BackendError B) st :
  wp c (ran shape s params m t P) st ->
  (forall o a, stmt_exec shape s params (default m t) = Some o -> P o a -> exists b, g a = Ok b /\ P' o b) ->
  wp (let% a := c in call_ret (g a)) (ran shape s params m t P') st.
Proof.
  intros Hc Hg. eapply wp_bind; [exact Hc|]. intros [a|e|] st'; [|done..]. intros (o & Ho & Hst & HP).
  destruct (Hg o a Ho HP) as (b & Hb & HP'). unfold lift, wp, call_ret. rewrite Hb. by exists o.
Qed.

Section statement.
Variables (table : string) (shape : TableShape) (s : row_stmt) (params : list Param).
Hypothesis Hrun : runnable shape s params.

Lemma wp_query m t st : at_ m t st ->
  wp (query table (stmt_text shape s) params) (ran shape s params m t (fun o out => out ≡ₚ o.1.1)) st.
Proof. intros Hst. eapply ran_bind; [by apply wp_run|]. intros o out _ [Hp _]. by eexists. Qed.

Lemma wp_execute m t st : at_ m t st ->
  wp (execute table (stmt_text shape s) params) (ran shape s params m t (fun o n => n = o.1.2)) st.
Proof. intros Hst. eapply ran_bind; [by apply wp_run|]. intros o out _ [_ Hn]. by eexists. Qed.

Lemma wp_query_opt m t st want :
  at_ m t st -> (forall o, stmt_exec shape s params (default m t) = Some o -> o.1.1 = option_list want) ->
  wp (query_opt table (stmt_text shape s) params) (ran shape s params m t (fun _ row => row = want)) st.
Proof.
  intros Hst Hw. eapply ran_bind; [by apply wp_query|]. intros o out Ho Hp. cbv beta in Hp. rewrite (Hw o Ho) in Hp.
  exists want. split; [|done]. destruct want as [r|]; simpl in Hp.
  - by apply Permutation_singleton_r in Hp as ->.
  - by apply Permutation_nil_r in Hp as ->.
Qed.

Lemma wp_query_one m t st r :
  at_ m t st -> (forall o, stmt_exec shape s params (default m t) = Some o -> o.1.1 = [r]) ->
  wp (query_one table (stmt_text shape s) params) (ran shape s params m t (fun _ row => row = r)) st.
Proof.
  intros Hst Hw. eapply ran_bind; [by apply (wp_query_opt m t st (Some r))|]. intros o row _ ->. by exists r.
Qed.
End statement.

(** A row of at most one document. *)
Lemma first_opt_rows v : exists want, opt_rows v = option_list want /\ first_json want = Ok v.
Proof. destruct v as [d|]; [by exists (Some [Some d])|by exists None]. Qed.

(** ** The state of the backend *)

Definition idle (st : St) : Prop :=
  in_tx (pg_srv st) = None /\ good table_def (committed (pg_srv st)) /\ cache_ok (sql_cache st).

Lemma idle_at st : idle st -> at_ (committed (pg_srv st)) None st /\ good table_def (committed (pg_srv st)).
Proof. intros (? & ? & ?). split; [by split_and!|done]. Qed.

Lemma at_idle m st : at_ m None st -> good table_def m -> idle st.
Proof. intros (<- & ? & ?) ?. by split_and!. Qed.

#[export] Instance pg_storage : Storage St := {|
  rows st := docs (committed (pg_srv st));
  healthy := idle;
  readable shape k := used shape /\ shape_dual_write_cols shape = [] /\ key_typed shape k;
  writable shape k := live_shape shape /\ key_typed shape k
|}.

(** One attempt at [spec] on the tables [m]: it fails and changes
    nothing; it fails after its effect, when there is no second attempt;
    or it does what [spec] says, with a result no retry follows. *)
Definition final {A} (r : Result BackendError A) : Prop := forall e, r = Err e -> is_retryable e = false.

Definition attempted {A} (spec : Rows -> Result BackendError A * Rows) (m : Tables)
    (r : Result BackendError A) (st : St) : Prop :=
  (unavailable r /\ at_ m None st)
  \/ (max_attempts policy <= 1 /\ unavailable r /\ idle st /\ rows_eq (rows st) (spec (docs m)).2)
  \/ (final r /\ idle st /\ r = (spec (docs m)).1 /\ rows_eq (rows st) (spec (docs m)).2).

Lemma attempted_outage {A} (spec : Rows -> Result BackendError A * Rows) m e st :
  outage e -> at_ m None st -> attempted spec m (Err e) st.
Proof. intros He Hst. left. split; [by apply outage_unavailable|done]. Qed.

(** A statement followed by a decoding of its output. *)
Lemma ran_attempted {A B} shape s params m (spec : Rows -> Result BackendError B * Rows) (P : Output -> A -> Prop)
    (c : Call St A) (f : A -> Call St B) st :
  wp c (ran shape s params m None P) st ->
  (forall o, stmt_exec shape s params m = Some o ->
     good table_def o.2 /\ rows_eq (docs o.2) (spec (docs m)).2) ->
  (forall o a st', stmt_exec shape s params m = Some o -> P o a -> at_ o.2 None st' ->
     f a st' = ((spec (docs m)).1, st') /\ final (spec (docs m)).1) ->
  wp (call_bind c f) (attempted spec m) st.
Proof.
  intros Hc Ho Hf. eapply wp_bind; [exact Hc|]. intros [a|e|] st'; [| |done].
  - intros (o & Ex & Hst & HP). destruct (Ho o Ex) as [Hg Hr]. destruct (Hf o a st' Ex HP Hst) as [Ef Hfin].
    unfold lift, wp. rewrite Ef. right. right. split_and!; [done|by eapply at_idle|done|].
    unfold rows. simpl. destruct Hst as (-> & _). done.
  - intros [He [Hst|(_ & Hmax & o & Ex & Hst)]]; [by apply attempted_outage, failed_at|]. right. left.
    destruct (Ho o Ex) as [Hg Hr]. split_and!; [done|by apply outage_unavailable|by eapply at_idle|].
    unfold rows. simpl. destruct Hst as (-> & _). done.
Qed.
Lemma wp_ok {A B} (a : A) (f : A -> Call St B) Q st : wp (f a) Q st -> wp (call_bind (call_ret (Ok a)) f) Q st.
Proof. done. Qed.

#[local] Hint Resolve quiet_client quiet_prepare quiet_shape_sql : quiet.

(** Step over a call that leaves the tables alone. *)
Ltac skip tac :=
  eapply wp_quiet; [solve [eauto with quiet]|eassumption|intros; solve [tac]|].

(** .. whose failure is the attempt's. *)
Ltac step H := skip ltac:(by apply attempted_outage); 
  let Hp := fresh "Hp" in intros ? ? Hp H; cbv beta in Hp; simplify_eq.

(** ** Single statements *)

Section live.
Variables (shape : TableShape).
Hypothesis Hlive : live_shape shape.

Lemma live_valid : table_valid shape.
Proof. by eapply Htables. Qed.

Lemma live_used : used shape.
Proof. exists shape. split; [done|]. split; [by split_and!|by right]. Qed.

#[local] Hint Resolve live_used : quiet.

Lemma live_runnable s params : Forall (key_typed shape) (stmt_keys shape s params) -> runnable shape s params.
Proof. split; [|done]. left. split; [done|apply live_valid]. Qed.

Let Hok := valid_shape _ live_valid.
Let Hcols := valid_cols _ live_valid.

Variables (pk : KeyValue) (sk : option KeyValue).
Hypothesis Hkey : key_typed shape (pk, sk).

Let Hsk : sk_fits shape sk := key_typed_fits shape Hok (pk, sk) Hkey.

(** The statements that start with the key. *)
Lemma keyed_runnable s rest :
  match s with StGet _ | StPut | StDelete _ | StMerge _ => True | _ => False end ->
  runnable shape s (key_bounds pk sk ++ rest).
Proof.
  intros Hs. apply live_runnable. destruct s; try done; cbn [stmt_keys];
    rewrite take_key_bounds by done; by apply Forall_singleton.
Qed.

Lemma attempt_put item m st :
  keyed shape (pk, sk) item -> good table_def m -> at_ m None st ->
  wp (pg_put_item_raw shape pk sk item) (attempted (put_spec shape (pk, sk) item) m) st.
Proof.
  intros Hk Hm Hst. unfold pg_put_item_raw. rewrite check_sk_fits by done. apply wp_ok.
  step H1. step H2. step H3.
  pose proof (fun o => exec_put table_def shape Hlive Hcols Hok pk sk item m o Hm Hsk Hk) as Hex.
  eapply ran_attempted.
  - apply (wp_query_one _ shape StPut _ (keyed_runnable StPut _ I) m None _ [docs m (shape_table shape) (pk, sk)] H3).
    apply Hex.
  - intros o Ho. by apply Hex.
  - intros o row ? Ho -> _. by split.
Qed.
Lemma attempt_delete m st :
  good table_def m -> at_ m None st ->
  wp (pg_delete_item_raw shape pk sk) (attempted (delete_spec shape (pk, sk)) m) st.
Proof.
  intros Hm Hst. unfold pg_delete_item_raw. rewrite check_sk_fits by done. apply wp_ok. step H1. step H2. step H3.
  pose proof (fun o => exec_delete table_def shape Hlive Hok true pk sk m o Hm Hsk) as Hex.
  destruct (first_opt_rows (docs m (shape_table shape) (pk, sk))) as (want & Hw & Hj).
  pose proof (keyed_runnable (StDelete true) [] I) as Hr. rewrite app_nil_r in Hr.
  eapply ran_attempted.
  - apply (wp_query_opt _ shape _ _ Hr m None _ want H3). intros o Ho. rewrite <- Hw. by apply (Hex o Ho).
  - intros o Ho. by apply Hex.
  - intros o row ? Ho -> _. unfold call_ret. by rewrite Hj.
Qed.

Lemma attempt_merge insert_item sets removes m st :
  keyed shape (pk, sk) insert_item ->
  (forall d, docs m (shape_table shape) (pk, sk) = Some d -> keyed shape (pk, sk) (merged sets removes d)) ->
  good table_def m -> at_ m None st ->
  wp (pg_update_simple_raw shape pk sk insert_item sets removes)
    (attempted (update_simple_spec shape (pk, sk) insert_item sets removes) m) st.
Proof.
  intros Hk Hmer Hm Hst. unfold pg_update_simple_raw. rewrite check_sk_fits by done. apply wp_ok.
  rewrite update_text by done. apply wp_ok. step H1. step H2.
  pose proof (fun o => exec_merge table_def shape Hlive Hcols Hok pk sk insert_item sets removes m o Hm Hsk Hk Hmer) as Hex.
  eapply ran_attempted.
  - eapply (wp_query_one _ shape _ _ (keyed_runnable (StMerge _) _ I) m None _ _ H2). apply Hex.
  - intros o Ho. by apply Hex.
  - intros o row ? Ho -> _. by split.
Qed.

Lemma attempt_where sets removes cond m st :
  condition_fits_sql cond = true -> paths_named cond ->
  (forall d, docs m (shape_table shape) (pk, sk) = Some d -> keyed shape (pk, sk) (merged sets removes d)) ->
  good table_def m -> at_ m None st ->
  wp (pg_update_with_simple_condition_raw shape pk sk sets removes cond)
    (attempted (simple_condition_spec shape (pk, sk) sets removes cond) m) st.
Proof.
  intros Hf Hp Hmer Hm Hst. unfold pg_update_with_simple_condition_raw. rewrite check_sk_fits by done. apply wp_ok.
  destruct (update_where_text (default VNull (docs m (shape_table shape) (pk, sk))) shape pk sk sets removes cond
    Hok Hsk Hf Hp) as (c & cps & ts & E & _ & Hv).
  rewrite E. apply wp_ok. cbv beta iota. cbn [pb_types pb_params]. step H1. step H2.
  set (ps := (key_params pk sk ++ set_params sets ++ remove_params removes ++ cps)%list) in *.
  assert (Hr : runnable shape (StUpdateWhere (merge_doc (length sets) (length removes) (key_arity shape + 1)) c) ps).
  { apply live_runnable. cbn [stmt_keys]. unfold ps. rewrite take_key_params by done. by apply Forall_singleton. }
  pose proof (fun o => exec_where table_def shape Hlive Hcols Hok pk sk sets removes cps c
    (fun d => cond_value3 d cond) m o Hm Hkey Hmer) as Hex. fold ps in Hex. unfold simple_condition_spec, row_at.
  eapply ran_attempted.
  - eapply (wp_query_opt _ shape _ _ Hr m None _
      match docs m (shape_table shape) (pk, sk) with
      | Some d => if bool_decide (cond_value3 d cond = Some true)
                  then Some [Some (merged sets removes d); Some d] else None
      | None => None
      end H2).
    intros o Ho. specialize (Hex o). destruct (docs m _ _) as [d|]; simpl in *.
    + assert (H : forall d0, Some d = Some d0 -> bool_value d0 ps c = cond_value3 d0 cond) by (by intros ? [= <-]).
      specialize (Hex H Ho). case_bool_decide; by destruct Hex.
    + by apply Hex.
  - intros o Ho. specialize (Hex o). destruct (docs m _ _) as [d|] eqn:Ed; simpl in *.
    + assert (H : forall d0, Some d = Some d0 -> bool_value d0 ps c = cond_value3 d0 cond) by (by intros ? [= <-]).
      specialize (Hex H Ho). case_bool_decide; destruct Hex as [_ Hex]; [exact Hex|]. by rewrite Hex.
    + destruct Hex as [_ Hex]; [done..|]. by rewrite Hex.
  - intros o row ? Ho -> _. destruct (docs m _ _) as [d|]; [case_bool_decide|]; (split; [done|]);
      by intros e [= <-].
Qed.

(** The key of the statement is that of the document. *)
Lemma attempt_insert insert_item m st :
  keyed shape (pk, sk) insert_item -> good table_def m -> at_ m None st ->
  wp (pg_update_insert_only_raw shape insert_item) (attempted (insert_only_spec shape (pk, sk) insert_item) m) st.
Proof.
  intros Hk Hm Hst. unfold pg_update_insert_only_raw. rewrite insert_only_text. cbv zeta. step H1. step H2.
  pose proof (fun o => exec_insert table_def shape Hlive Hcols (pk, sk) insert_item m o Hm Hk) as Hex.
  unfold insert_only_spec, row_at.
  eapply ran_attempted.
  - eapply (wp_query_opt _ shape StInsert _ (live_runnable StInsert _ (Forall_nil_2 _)) m None _
      match docs m (shape_table shape) (pk, sk) with Some _ => None | None => Some [Some insert_item] end H2).
    intros o Ho. specialize (Hex o Ho). destruct (docs m _ _); destruct Hex as [-> _]; done.
  - intros o Ho. specialize (Hex o Ho). destruct (docs m _ _); destruct Hex as [_ Hex]; [by rewrite Hex|exact Hex].
  - intros o row ? Ho -> _. destruct (docs m _ _); (split; [done|]); by intros e [= <-].
Qed.
End live.

(** ** Reads *)

Section read.
Variables (shape : TableShape).
Hypothesis Hused : used shape.

Let Hok := proj1 (used_valid shape Hused).

#[local] Hint Resolve Hused : quiet.

Lemma read_runnable s params :
  reads_columns s = true -> Forall (key_typed shape) (stmt_keys shape s params) -> runnable shape s params.
Proof. intros Hs Hk. split; [|done]. right. split; [|done]. pose proof Hused as (full & Hd & Hc & _). by exists full. Qed.

Lemma get_runnable b pk sk : key_typed shape (pk, sk) -> runnable shape (StGet b) (key_bounds pk sk).
Proof.
  intros Hk. apply read_runnable; [done|]. cbn [stmt_keys].
  rewrite <- (app_nil_r (key_bounds pk sk)), take_key_bounds; [by apply Forall_singleton|done|].
  by apply (key_typed_fits shape Hok (pk, sk)).
Qed.

(** The row of the key, in the open transaction if there is one. *)
Lemma wp_get table b pk sk m t st :
  key_typed shape (pk, sk) -> at_ m t st ->
  wp (let% row := query_opt table (stmt_text shape (StGet b)) (key_bounds pk sk) in call_ret (first_json row))
    (fun r st' => match r with
                  | Ok v => v = docs (default m t) (shape_table shape) (pk, sk) /\ at_ m t st'
                  | Err e => outage e /\ failed m t st'
                  | Panic => False
                  end) st.
Proof.
  intros Hk Hst. pose proof (key_typed_fits shape Hok _ Hk) as Hsk.
  pose proof (fun o => exec_get shape Hok b pk sk (default m t) o Hsk) as Hex.
  destruct (first_opt_rows (docs (default m t) (shape_table shape) (pk, sk))) as (want & Hw & Hj).
  eapply wp_bind.
  - apply (wp_query_opt table shape _ _ (get_runnable b pk sk Hk) m t st want Hst).
    intros o Ho. rewrite <- Hw. by apply (Hex o Ho).
  - intros [row|e|]; intros ?; [| |done].
    + intros (o & Ho & Hl & ->). unfold lift, wp, call_ret. rewrite Hj. split; [done|].
      destruct (Hex o Ho) as [_ Hm]. unfold landed in Hl. rewrite Hm in Hl. by destruct t.
    + intros [He [Hf|(-> & _ & o & Ho & Hf)]]; (split; [done|]); [done|].
      destruct (Hex o Ho) as [_ Hm]. rewrite Hm in Hf. by apply at_failed.
Qed.

Lemma attempt_get pk sk m st :
  key_typed shape (pk, sk) -> good table_def m -> at_ m None st ->
  wp (pg_get_item_raw shape pk sk) (attempted (get_spec shape (pk, sk)) m) st.
Proof.
  intros Hk Hm Hst. unfold pg_get_item_raw. rewrite check_sk_fits by (by apply (key_typed_fits shape Hok (pk, sk))).
  apply wp_ok. step H1. step H2. step H3. eapply wp_mono; [by apply (wp_get _ false pk sk m None)|].
  intros [v|e|] st4; [| |done].
  - intros [-> H4]. right. right. split_and!; [done|by eapply at_idle|done|]. by destruct H4 as (<- & _).
  - intros [He Hf]. by apply attempted_outage, failed_at.
Qed.
End read.

(** ** Retries *)

Lemma state_at_S {A} (f : Call St A) st k : state_at f st (S k) = (f (state_at f st k)).2.
Proof. revert st. induction k as [|k IH]; intros st; [done|]. exact (IH (f st).2). Qed.

Lemma retry_rule {A} (f : Call St A) (I : St -> Prop) (P Q : Result BackendError A -> St -> Prop) st :
  (forall st, I st -> wp f (fun r st' => (unavailable r /\ I st')
                                      \/ (max_attempts policy <= 1 /\ P r st') \/ (final r /\ Q r st')) st) ->
  I st -> wp (retrying policy clock f) (fun r st' => (unavailable r /\ I st') \/ P r st' \/ Q r st') st.
Proof.
  intros Hf HI. unfold wp, retrying.
  destruct (retry_loop_spec f clock policy Hsane (S (N.to_nat (max_attempts policy))) 0 st) as (k & run & E & Hrun);
    [lia..|]. unfold with_retry. rewrite E. destruct Hrun as [-> -> Hbefore Hbud _ _ _].
  assert (Hinv : forall i, (i <= k)%nat -> I (state_at f st i)).
  { induction i as [|i IH]; intros Hi; [done|]. rewrite state_at_S. destruct (Hbefore i ltac:(lia)) as (e & He & Hret).
    specialize (Hf _ (IH ltac:(lia))). unfold call_at in He. unfold wp in Hf.
    destruct (f (state_at f st i)) as [r st1]. simpl in *. subst r.
    destruct Hf as [[_ HI1]|[[Hmax _]|[Hfin _]]]; [done|lia|]. by rewrite (Hfin e eq_refl) in Hret. }
  specialize (Hf _ (Hinv k ltac:(lia))). rewrite state_at_S. unfold call_at, wp in *.
  destruct (f (state_at f st k)) as [r st1]. simpl. naive_solver.
Qed.
Lemma performs_wp {A} (spec : Rows -> Result BackendError A * Rows) (c : Call St A) st :
  wp c (fun r st' => idle st'
    /\ ((unavailable r /\ (rows_eq (rows st') (rows st) \/ rows_eq (rows st') (spec (rows st)).2))
        \/ (r = (spec (rows st)).1 /\ rows_eq (rows st') (spec (rows st)).2))) st ->
  performs spec c st.
Proof. done. Qed.

Lemma retrying_performs {A} (spec : Rows -> Result BackendError A * Rows) (f : Call St A) st :
  idle st ->
  (forall st', at_ (committed (pg_srv st)) None st' -> wp f (attempted spec (committed (pg_srv st))) st') ->
  performs spec (retrying policy clock f) st.
Proof.
  intros Hst Hf. destruct (idle_at st Hst) as [Hat Hg]. apply performs_wp.
  eapply wp_mono; [eapply (retry_rule f (at_ (committed (pg_srv st)) None)
    (fun r st' => unavailable r /\ idle st' /\ rows_eq (rows st') (spec (rows st)).2)
    (fun r st' => idle st' /\ r = (spec (rows st)).1 /\ rows_eq (rows st') (spec (rows st)).2))|].
  - intros st' Hst'. eapply wp_mono; [by apply Hf|]. done.
  - done.
  - intros r st' [[Hu Ha]|[(Hu & Hi & Hr)|(Hi & -> & Hr)]].
    + split; [by eapply at_idle|]. left. split; [done|]. left. destruct Ha as (Hc & _). simpl. by rewrite Hc.
    + auto.
    + auto.
Qed.

(** ** Batch reads *)

Lemma collect_jsons (items : list Value) : collect_items (map (fun d => [Some d]) items) = Ok items.
Proof. unfold collect_items. induction items as [|d items IH]; [done|]. simpl. by rewrite IH. Qed.

Lemma collect_permuted rows items :
  rows ≡ₚ map (fun d => [Some d]) items -> exists items', collect_items rows = Ok items' /\ items' ≡ₚ items.
Proof.
  intros Hp. apply Permutation_map_inv in Hp as (items' & -> & Hp). exists items'. split; [apply collect_jsons|done].
Qed.

Lemma check_keys_fit shape keys : shape_ok shape -> Forall (key_typed shape) keys -> check_keys shape keys = Ok tt.
Proof.
  intros Hok Hk. unfold check_keys. induction Hk as [|k keys Hk _ IH]; [done|]. simpl.
  by rewrite check_sk_fits by (by apply key_typed_fits).
Qed.

Lemma batch_get_wp shape keys m st :
  used shape -> Forall (key_typed shape) keys -> at_ m None st ->
  wp (pg_batch_get_raw shape keys)
    (fun r st' => (unavailable r /\ at_ m None st')
       \/ (max_attempts policy <= 1 /\ False)
       \/ (final r /\ at_ m None st' /\ exists items, r = Ok items
             /\ (distinct_keys keys -> items ≡ₚ omap (docs m (shape_table shape)) keys))) st.
Proof.
  intros Hu Hk Hst. pose proof (proj1 (used_valid _ Hu)) as Hok. unfold pg_batch_get_raw.
  destruct keys as [|k0 keys0] eqn:Ekeys.
  { right. right. split_and!; [done|done|]. by exists []. }
  rewrite <- Ekeys in *. rewrite check_keys_fit by done. apply wp_ok.
  skip ltac:(left; split; [by apply outage_unavailable|done]). intros _ st1 _ H1.
  destruct (keys_statement_text shape Hok
    ("SELECT " +:+ quote_ident (shape_jsonb_col shape) +:+ " FROM " +:+ quote_ident (shape_table shape)) keys Hk)
    as (types & params & -> & Hb).
  replace (("SELECT " +:+ quote_ident (shape_jsonb_col shape) +:+ " FROM " +:+ quote_ident (shape_table shape))
            +:+ " WHERE " +:+ keys_pred shape (length keys)) with (stmt_text shape (StGetMany (length keys)))
    by (cbn [stmt_text]; by rewrite <- !app_assoc_str).
  apply wp_ok. cbv beta iota. skip ltac:(left; split; [by apply outage_unavailable|done]). intros _ st2 _ H2.
  assert (Hr : runnable shape (StGetMany (length keys)) params).
  { apply read_runnable; [done|done|]. cbn [stmt_keys]. by rewrite Hb. }
  eapply wp_bind; [by apply (wp_query _ shape _ _ Hr m None)|]. intros [out|e|] st3; [| |done].
  - intros (o & Ho & Hl & Hp). destruct (exec_get_many shape keys _ _ _ _ Hb Ho) as (items & Hi & Hm & Hd).
    cbv beta in Hp. rewrite Hi in Hp. destruct (collect_permuted _ _ Hp) as (items' & Hc & Hperm).
    unfold lift, wp, call_ret. rewrite Hc. right. right. unfold landed in Hl. rewrite Hm in Hl.
    split_and!; [done|done|]. exists items'. split; [done|]. intros Hdk. by rewrite Hperm, (Hd Hdk).
  - intros [He Hf]. left. split; [by apply outage_unavailable|].
    destruct Hf as [Hf|(_ & _ & o & Ho & Hf)]; [by apply failed_at|].
    destruct (exec_get_many shape keys _ _ _ _ Hb Ho) as (items & Hi & Hm & Hd). by rewrite Hm in Hf.
Qed.
Lemma batch_get_performs shape keys st :
  idle st -> Forall (fun k => readable shape k) keys ->
  let '(r, st') := retrying policy clock (pg_batch_get_raw shape keys) st in
  idle st' /\ rows_eq (rows st') (rows st)
  /\ (unavailable r
      \/ exists items, r = Ok items
         /\ (distinct_keys keys -> items ≡ₚ omap (rows st (shape_table shape)) keys)).
Proof.
  intros Hi Hr. destruct (idle_at _ Hi) as [Hat Hg]. set (m := committed (pg_srv st)) in *.
  enough (wp (retrying policy clock (pg_batch_get_raw shape keys))
    (fun r st' => at_ m None st' /\ (unavailable r \/ exists items, r = Ok items
       /\ (distinct_keys keys -> items ≡ₚ omap (docs m (shape_table shape)) keys))) st) as Hwp.
  { unfold wp in Hwp. destruct (retrying _ _ _ _) as [r st']. destruct Hwp as [Hat' Hr'].
    split; [by eapply at_idle|]. split; [|done]. by destruct Hat' as (Hc & _); simpl; rewrite Hc. }
  eapply wp_mono; [eapply (retry_rule _ (at_ m None) (fun _ _ => False)
    (fun r st' => at_ m None st' /\ exists items, r = Ok items
       /\ (distinct_keys keys -> items ≡ₚ omap (docs m (shape_table shape)) keys)))|].
  - intros st1 H1. destruct keys as [|k keys].
    { right. right. split_and!; [done|done|]. by exists []. }
    assert (used shape) by (by apply Forall_cons in Hr as [(? & _) _]).
    apply batch_get_wp; [done| |done]. eapply Forall_impl; [exact Hr|]. by intros k' (_ & _ & ?).
  - done.
  - intros r st' [[Hu Hst']|[[]|[Hst' Hr']]]; auto.
Qed.

(** ** Transactions *)

(** What is known when the body of a transaction ends, and the
    transaction is dropped if it is still open. *)
Definition closing {A} (Q : Result BackendError A -> St -> Prop) (r : Result BackendError A) (st : St) : Prop :=
  cache_ok (sql_cache st) /\ forall st', at_ (committed (pg_srv st)) None st' -> Q r st'.

Lemma wp_transaction {A} table iso (body : Call St A) Q m st :
  at_ m None st -> (forall e st', outage e -> at_ m None st' -> Q (Err e) st') ->
  (forall st', at_ m (Some m) st' -> wp body (closing Q) st') ->
  wp (transaction table iso body) Q st.
Proof.
  intros (Hc & Ht & Hk) He Hb. unfold transaction. eapply (wp_bind _ _ (fun r st' =>
    match r with Ok _ => at_ m (Some m) st' | Err e => outage e /\ at_ m None st' | Panic => False end)).
  - unfold wp, server. pose proof (begin_law iso (pg_srv st) Ht) as Hl.
    destruct (pg_begin iso (pg_srv st)) as [[e|u] srv]; destruct Hl as [H1 H2].
    + split; [apply outage_pg|]. split_and!; simpl; congruence || done.
    + split_and!; simpl; congruence || done.
  - intros [u|e|] st'; [|by intros [? ?]; apply He|done]. intros Hst. specialize (Hb st' Hst). unfold lift, wp in *.
    destruct (body st') as [r st2]. destruct Hb as [Hk2 Hq]. apply Hq.
    destruct (drop_law (pg_srv st2)) as [H1 H2]. by split_and!.
Qed.

Lemma wp_commit table m m' st :
  at_ m (Some m') st ->
  wp (commit table) (fun r st' => match r with
                                  | Ok _ => at_ m' None st'
                                  | Err e => outage e /\ (at_ m None st' \/ at_ m' None st')
                                  | Panic => False
                                  end) st.
Proof.
  intros (Hc & Ht & Hk). unfold wp, commit, server. pose proof (commit_law (pg_srv st) m' Ht) as Hl.
  destruct (pg_commit (pg_srv st)) as [[e|u] srv]; destruct Hl as [H1 H2].
  - split; [apply outage_pg|]. destruct H2 as [H2|[H2 _]]; [right|left]; by split_and!; simpl; congruence || done.
  - destruct H2 as [H2|[_ [e He]]]; [|done]. by split_and!.
Qed.

Lemma wp_rollback table m t st :
  failed m t st ->
  wp (rollback table) (fun r st' => at_ m None st' /\ match r with Ok _ => True | Err e => outage e | Panic => False end) st.
Proof.
  intros (Hc & _ & Hk). unfold wp, rollback, server. destruct (rollback_law (pg_srv st)) as [H1 H2].
  destruct (pg_rollback (pg_srv st)) as [[e|u] srv]; simpl in *; (split; [split_and!; simpl; congruence || done|]).
  - apply outage_pg.
  - done.
Qed.

(** The call has done what [spec] says, or it has failed and did so
    whole or not at all. *)
Definition done_ {A} (spec : Rows -> Result BackendError A * Rows) (m : Tables)
    (r : Result BackendError A) (st : St) : Prop :=
  idle st
  /\ ((unavailable r /\ (rows_eq (rows st) (docs m) \/ rows_eq (rows st) (spec (docs m)).2))
      \/ (r = (spec (docs m)).1 /\ rows_eq (rows st) (spec (docs m)).2)).

Section done_facts.
Context {A : Type} (spec : Rows -> Result BackendError A * Rows) (m : Tables).
Hypothesis Hm : good table_def m.

Lemma at_rows m' st : at_ m' None st -> rows st = docs m'.
Proof. intros (<- & _). done. Qed.

Lemma done_outage e st : outage e -> at_ m None st -> done_ spec m (Err e) st.
Proof.
  intros He Hst. split; [by eapply at_idle|]. left. split; [by apply outage_unavailable|]. left. by rewrite (at_rows m).
Qed.

Lemma closing_outage e t st : outage e -> failed m t st -> closing (done_ spec m) (Err e) st.
Proof. intros He (Hc & _ & Hk). split; [done|]. rewrite Hc. intros st' Hst'. by apply done_outage. Qed.

(** No change, and the answer the specification gives. *)
Lemma closing_unchanged t r st :
  spec (docs m) = (r, docs m) -> failed m t st -> closing (done_ spec m) r st.
Proof.
  intros Hs (Hc & _ & Hk). split; [done|]. rewrite Hc. intros st' Hst'. split; [by eapply at_idle|]. right.
  rewrite Hs. split; [done|]. by rewrite (at_rows m).
Qed.

(** Commit what the specification asks for. *)
Lemma closing_commit table m' r st :
  good table_def m' -> (spec (docs m)).1 = r -> rows_eq (docs m') (spec (docs m)).2 -> at_ m (Some m') st ->
  wp (let% _ := commit table in call_ret r) (closing (done_ spec m)) st.
Proof.
  intros Hm' Hr Hrows Hst. eapply wp_bind; [by apply (wp_commit table m m')|]. intros [u|e|] st1; [| |done].
  - intros H1. unfold lift, wp, call_ret. split; [by destruct H1 as (_ & _ & ?)|]. destruct H1 as (-> & _ & _).
    intros st' Hst'. split; [by eapply at_idle|]. right. split; [done|]. by rewrite (at_rows m').
  - intros [He H1]. unfold lift. destruct H1 as [H1|H1]; [by eapply closing_outage, at_failed|].
    split; [by destruct H1 as (_ & _ & ?)|]. destruct H1 as (-> & _ & _). intros st' Hst'.
    split; [by eapply at_idle|]. left. split; [by apply outage_unavailable|]. right. by rewrite (at_rows m').
Qed.

Lemma closing_rollback table st e :
  spec (docs m) = (Err e, docs m) -> at_ m (Some m) st ->
  wp (let% _ := rollback table in call_ret (Err e)) (closing (done_ spec m)) st.
Proof.
  intros Hs Hst. eapply wp_bind; [by eapply wp_rollback, at_failed|]. intros [u|e'|] st1 [H1 He]; [| |done].
  - by eapply closing_unchanged, at_failed.
  - by eapply closing_outage, at_failed.
Qed.
End done_facts.
(** ** Read, decide, write *)

Section rmw.
Variables (shape : TableShape) (pk : KeyValue) (sk : option KeyValue).
Hypothesis Hlive : live_shape shape.
Hypothesis Hkey : key_typed shape (pk, sk).

Let Hok := valid_shape _ (live_valid shape Hlive).
Let Hcols := valid_cols _ (live_valid shape Hlive).
Let Hused := live_used shape Hlive.
Let Hsk : sk_fits shape sk := key_typed_fits shape Hok (pk, sk) Hkey.
Let table := shape_table shape.

Definition rmw_prep : RmwSqlPrep :=
  mkRmwSqlPrep (stmt_text shape (StGet true)) (stmt_text shape StUpdate) (stmt_text shape StInsert)
    (key_pg_types shape) (PgType_JSONB :: key_pg_types shape).

Lemma quiet_prepare_rmw : quiet (prepare_rmw shape rmw_prep) (fun _ => True).
Proof.
  intros m t st Hst. unfold prepare_rmw. skip ltac:(done). intros _ st1 _ H1. skip ltac:(done). intros _ st2 _ H2.
  by apply quiet_prepare.
Qed.

Lemma wp_select m t st : at_ m t st ->
  wp (select_for_update rmw_prep pk sk)
    (fun r st' => match r with
                  | Ok v => v = docs (default m t) table (pk, sk) /\ at_ m t st'
                  | Err e => outage e /\ failed m t st'
                  | Panic => False
                  end) st.
Proof. intros Hst. by apply (wp_get shape Hused). Qed.

(** One row is written at the key. *)
Definition wrote (v : option Value) (m m1 : Tables) (st : St) : Prop :=
  exists m2, at_ m (Some m2) st /\ becomes table_def shape (pk, sk) v m1 m2.

Lemma wp_write m m1 new_item st :
  good table_def m1 -> keyed shape (pk, sk) new_item -> at_ m (Some m1) st ->
  wp (write_row shape rmw_prep (docs m1 table (pk, sk)) new_item pk sk)
    (fun r st' => match r with
                  | Ok n => n = 1 /\ wrote (Some new_item) m m1 st'
                  | Err e => outage e /\ failed m (Some m1) st'
                  | Panic => False
                  end) st.
Proof.
  intros Hm Hk Hst. unfold write_row. destruct (docs m1 table (pk, sk)) as [old|] eqn:Hold.
  - unfold exec_update. assert (Hr : runnable shape StUpdate (Param_Json new_item :: key_bounds pk sk)).
    { apply live_runnable; [done|]. cbn [stmt_keys tail].
      rewrite <- (app_nil_r (key_bounds pk sk)), take_key_bounds by done. by apply Forall_singleton. }
    eapply wp_mono; [by apply (wp_execute _ shape _ _ Hr m (Some m1))|]. intros [n|e|] st'; [| |done].
    + intros (o & Ho & Hl & ->).
      destruct (exec_update_row table_def shape Hlive Hcols Hok pk sk new_item old m1 o Hm Hsk Hk Hold Ho) as [-> Hb].
      split; [done|]. by exists o.2.
    + intros [He [Hf|[? _]]]; done.
  - assert (Hr : runnable shape StInsert [Param_Json new_item]) by (by apply live_runnable; [|apply Forall_nil_2]).
    eapply wp_mono; [by apply (wp_execute _ shape _ _ Hr m (Some m1))|]. intros [n|e|] st'; [| |done].
    + intros (o & Ho & Hl & ->).
      pose proof (exec_insert table_def shape Hlive Hcols (pk, sk) new_item m1 o Hm Hk Ho) as Hex.
      fold table in Hex. rewrite Hold in Hex. destruct Hex as [-> Hb]. split; [done|]. by exists o.2.
    + intros [He [Hf|[? _]]]; done.
Qed.

Lemma wp_delete_read m m1 st :
  good table_def m1 -> at_ m (Some m1) st ->
  wp (delete_read shape (stmt_text shape (StDelete false)) pk sk (docs m1 table (pk, sk)))
    (fun r st' => match r with
                  | Ok _ => wrote None m m1 st'
                  | Err e => outage e /\ failed m (Some m1) st'
                  | Panic => False
                  end) st.
Proof.
  intros Hm Hst. unfold delete_read. destruct (docs m1 table (pk, sk)) as [old|] eqn:Hold.
  - pose proof (keyed_runnable shape Hlive pk sk Hkey (StDelete false) [] I) as Hr. rewrite app_nil_r in Hr.
    apply wp_map. eapply wp_mono; [by apply (wp_execute _ shape _ _ Hr m (Some m1))|]. intros [n|e|] st'; [| |done].
    + intros (o & Ho & Hl & ->). exists o.2. split; [done|].
      by apply (exec_delete table_def shape Hlive Hok false pk sk m1 o Hm Hsk).
    + intros [He [Hf|[? _]]]; done.
  - exists m1. split; [done|]. by apply becomes_absent.
Qed.

(** The loop needs one iteration when nobody else writes the row. *)
Lemma wp_rmw_loop iters exhausted decide m st :
  good table_def m -> at_ m (Some m) st ->
  (forall d, decide (docs m table (pk, sk)) = Ok (UpdateDecision_Apply d) -> keyed shape (pk, sk) d) ->
  wp (rmw_loop (S iters) exhausted shape rmw_prep pk sk decide) (closing (done_ (rmw_spec shape (pk, sk) decide) m)) st.
Proof.
  intros Hm Hst Hk. cbn [rmw_loop]. eapply wp_bind; [by apply wp_select|]. intros [v|e|] st1; [| |done].
  2:{ intros [He Hf]. by eapply closing_outage. }
  intros [Hv H1]. change (default m (Some m)) with m in Hv. subst v. unfold lift.
  assert (Hspec : rmw_spec shape (pk, sk) decide (docs m)
    = match decide (docs m table (pk, sk)) with
      | Ok (UpdateDecision_Apply d) => (Ok (mkUpdateOutcome d (docs m table (pk, sk))),
                                        write shape (pk, sk) (Some d) (docs m))
      | Ok UpdateDecision_Fail => (Err BackendError_ConditionalCheckFailed, docs m)
      | Err e => (Err e, docs m)
      | Panic => (Panic, docs m)
      end) by done.
  destruct (decide (docs m table (pk, sk))) as [[d|]|e|].
  - apply wp_ok. cbv beta iota. eapply wp_bind; [apply (wp_write m m d); [done|by apply Hk|done]|].
    intros [n|e|] st2; [| |done].
    + intros [-> (m2 & H2 & Hg & Hr)]. cbv [lift]. change (0 <? 1) with true. cbv iota.
      apply (closing_commit _ m Hm _ m2); [done|by rewrite Hspec|by rewrite Hspec|done].
    + intros [He Hf]. by eapply closing_outage.
  - apply wp_ok. by apply closing_rollback.
  - by eapply (closing_unchanged _ _ Hm (Some m)); [|apply at_failed].
  - by eapply (closing_unchanged _ _ Hm (Some m)); [|apply at_failed].
Qed.
Lemma rmw_done exhausted decide m st :
  good table_def m -> at_ m None st ->
  (forall d, decide (docs m table (pk, sk)) = Ok (UpdateDecision_Apply d) -> keyed shape (pk, sk) d) ->
  wp (rmw_raw exhausted shape pk sk decide) (done_ (rmw_spec shape (pk, sk) decide) m) st.
Proof.
  intros Hm Hst Hk. unfold rmw_raw. rewrite check_sk_fits by done. apply wp_ok. rewrite rmw_texts by done. apply wp_ok.
  fold rmw_prep. skip ltac:(by apply done_outage). intros _ st1 _ H1.
  apply (wp_transaction _ _ _ _ m); [done|intros; by apply done_outage|]. intros st2 H2.
  eapply (wp_quiet _ _ _ _ _ _ _ quiet_prepare_rmw H2).
  - intros e st3 He H3. by eapply closing_outage, at_failed.
  - intros _ st3 _ H3. by apply wp_rmw_loop.
Qed.

Lemma put_condition_done item c m st :
  good table_def m -> at_ m None st -> keyed shape (pk, sk) item ->
  wp (pg_put_with_condition_raw shape pk sk item c)
    (done_ (guarded shape (pk, sk) c (put_spec shape (pk, sk) item)) m) st.
Proof.
  intros Hm Hst Hk. apply wp_map. eapply wp_mono; [apply rmw_done; [done|done|]|].
  - unfold deciding. intros d. case_match; [|done]. by intros [= <-].
  - intros r st' [Hi Hr]. split; [done|]. unfold rmw_spec, deciding, guarded, put_spec in *.
    destruct (c (row_at shape (pk, sk) (docs m))); simpl in *.
    + destruct Hr as [[Hu Hr]|[-> Hr]]; [left|by right]. split; [by destruct r|done].
    + destruct Hr as [[Hu Hr]|[-> Hr]]; [left|by right]. split; [by destruct r|done].
Qed.

Lemma delete_condition_done c m st :
  good table_def m -> at_ m None st ->
  wp (pg_delete_with_condition_raw shape pk sk c)
    (done_ (guarded shape (pk, sk) c (delete_spec shape (pk, sk))) m) st.
Proof.
  intros Hm Hst. unfold pg_delete_with_condition_raw. rewrite check_sk_fits by done. apply wp_ok.
  rewrite rmw_texts by done. apply wp_ok. fold rmw_prep. rewrite conditional_delete_text by done. apply wp_ok.
  skip ltac:(by apply done_outage). intros _ st1 _ H1.
  apply (wp_transaction _ _ _ _ m); [done|intros; by apply done_outage|]. intros st2 H2.
  skip ltac:(by eapply closing_outage, at_failed). intros _ st3 _ H3.
  skip ltac:(by eapply closing_outage, at_failed). intros _ st4 _ H4.
  eapply wp_bind; [by apply wp_select|]. intros [v|e|] st5; [| |done].
  2:{ intros [He Hf]. by eapply closing_outage. }
  intros [Hv H5]. change (default m (Some m)) with m in Hv. subst v. unfold lift.
  assert (Hspec : guarded shape (pk, sk) c (delete_spec shape (pk, sk)) (docs m)
    = if c (docs m table (pk, sk))
      then (Ok (docs m table (pk, sk)), write shape (pk, sk) None (docs m))
      else (Err BackendError_ConditionalCheckFailed, docs m)) by done.
  destruct (c (docs m table (pk, sk))) eqn:Ec; cbn [negb].
  - eapply wp_bind; [by apply (wp_delete_read m m)|]. intros [u|e|] st6; [| |done].
    + intros (m2 & H6 & Hg & Hr). apply (closing_commit _ m Hm _ m2); [done|by rewrite Hspec|by rewrite Hspec|done].
    + intros [He Hf]. by eapply closing_outage.
  - by apply closing_rollback.
Qed.
(** ** The writes of a transaction *)

(** One operation inside the transaction: it has the effect of [spec] on
    the tables the transaction sees; the server fails; or it is refused
    as [spec] says. *)
Definition inside {A} (spec : Rows -> Result BackendError A * Rows) (m m1 : Tables)
    (r : Result BackendError A) (st : St) : Prop :=
  match r with
  | Ok a => exists m2, at_ m (Some m2) st /\ good table_def m2
      /\ (spec (docs m1)).1 = Ok a /\ rows_eq (docs m2) (spec (docs m1)).2
  | Err e => failed m (Some m1) st /\ (outage e \/ forall a, (spec (docs m1)).1 <> Ok a)
  | Panic => (spec (docs m1)).1 = Panic
  end.

Lemma inside_outage {A} (spec : Rows -> Result BackendError A * Rows) m m1 e st :
  outage e -> failed m (Some m1) st -> inside spec m m1 (Err e) st.
Proof. intros He Hf. split; [done|by left]. Qed.

Lemma inside_refused {A} (spec : Rows -> Result BackendError A * Rows) m m1 e st :
  spec (docs m1) = (Err e, docs m1) -> at_ m (Some m1) st -> inside spec m m1 (Err e) st.
Proof. intros Hs Hf. split; [by apply at_failed|right]. rewrite Hs. done. Qed.

(** A statement of the transaction, its output decoded. *)
Lemma ran_inside {A B} s params m m1 (spec : Rows -> Result BackendError B * Rows) (P : Output -> A -> Prop)
    (c : Call St A) (g : A -> Result BackendError B) st :
  wp c (ran shape s params m (Some m1) P) st ->
  (forall o a, stmt_exec shape s params m1 = Some o -> P o a ->
     good table_def o.2 /\ rows_eq (docs o.2) (spec (docs m1)).2
     /\ exists b, g a = Ok b /\ (spec (docs m1)).1 = Ok b) ->
  wp (let% a := c in call_ret (g a)) (inside spec m m1) st.
Proof.
  intros Hc Ho. eapply wp_bind; [exact Hc|]. intros [a|e|] st'; [| |done].
  - intros (o & Ex & Hl & HP). destruct (Ho o a Ex HP) as (Hg & Hr & b & Hb & Hs). unfold lift, wp, call_ret.
    rewrite Hb. by exists o.2.
  - intros [He [Hf|[? _]]]; [|done]. by apply inside_outage.
Qed.

Ltac inner H := skip ltac:(by apply inside_outage, at_failed);
  let Hp := fresh "Hp" in intros ? ? Hp H; cbv beta in Hp; simplify_eq.

Variables (m m1 : Tables).
Hypothesis Hm1 : good table_def m1.

Lemma put_inside item st :
  keyed shape (pk, sk) item -> at_ m (Some m1) st ->
  wp (put_item_inside_tx shape pk sk item) (inside (put_spec shape (pk, sk) item) m m1) st.
Proof.
  intros Hk Hst. unfold put_item_inside_tx. rewrite check_sk_fits by done. apply wp_ok. inner H1. inner H2.
  pose proof (fun o => exec_put table_def shape Hlive Hcols Hok pk sk item m1 o Hm1 Hsk Hk) as Hex.
  eapply ran_inside.
  - apply (wp_query_one _ shape StPut _ (keyed_runnable shape Hlive pk sk Hkey StPut _ I) m (Some m1) _
      [docs m1 (shape_table shape) (pk, sk)] H2). apply Hex.
  - intros o row Ho ->. destruct (Hex o Ho) as [_ [Hg Hr]]. split_and!; [done|done|]. by eexists.
Qed.

Lemma delete_inside st :
  at_ m (Some m1) st ->
  wp (delete_item_inside_tx shape pk sk) (inside (delete_spec shape (pk, sk)) m m1) st.
Proof.
  intros Hst. unfold delete_item_inside_tx. rewrite check_sk_fits by done. apply wp_ok. inner H1. inner H2.
  pose proof (fun o => exec_delete table_def shape Hlive Hok true pk sk m1 o Hm1 Hsk) as Hex.
  destruct (first_opt_rows (docs m1 (shape_table shape) (pk, sk))) as (want & Hw & Hj).
  pose proof (keyed_runnable shape Hlive pk sk Hkey (StDelete true) [] I) as Hr. rewrite app_nil_r in Hr.
  eapply ran_inside.
  - apply (wp_query_opt _ shape _ _ Hr m (Some m1) _ want H2). intros o Ho. rewrite <- Hw. by apply (Hex o Ho).
  - intros o row Ho ->. destruct (Hex o Ho) as [_ [Hg Hrow]]. split_and!; [done|done|]. by eexists.
Qed.

(** The row of the key is read under a lock, then [k] goes on. *)
Lemma select_inside {B} (spec : Rows -> Result BackendError B * Rows) (k : option Value -> Call St B) st :
  at_ m (Some m1) st ->
  (forall st', at_ m (Some m1) st' -> wp (k (docs m1 table (pk, sk))) (inside spec m m1) st') ->
  wp (call_bind (select_for_update rmw_prep pk sk) k) (inside spec m m1) st.
Proof.
  intros Hst Hk. eapply wp_bind; [by apply (wp_select m (Some m1))|]. intros [v|e|] st1; [| |done].
  - intros [-> H1]. by apply Hk.
  - intros [He Hf]. by apply inside_outage.
Qed.

Lemma check_inside c st :
  at_ m (Some m1) st ->
  wp (condition_check_inside_tx shape pk sk c)
    (inside (guarded shape (pk, sk) c (get_spec shape (pk, sk))) m m1) st.
Proof.
  intros Hst. unfold condition_check_inside_tx. rewrite check_sk_fits by done. apply wp_ok.
  rewrite rmw_texts by done. apply wp_ok. fold rmw_prep. inner H1.
  apply select_inside; [done|]. intros st2 H2. unfold wp, call_ret.
  assert (Hspec : guarded shape (pk, sk) c (get_spec shape (pk, sk)) (docs m1)
    = if c (docs m1 table (pk, sk)) then (Ok (docs m1 table (pk, sk)), docs m1)
      else (Err BackendError_ConditionalCheckFailed, docs m1)) by done.
  destruct (c _); cbn [negb].
  - exists m1. split_and!; [done|done|by rewrite Hspec|by rewrite Hspec].
  - by apply inside_refused.
Qed.

Lemma put_condition_inside item c st :
  keyed shape (pk, sk) item -> at_ m (Some m1) st ->
  wp (put_with_condition_inside_tx shape pk sk item c)
    (inside (guarded shape (pk, sk) c (put_spec shape (pk, sk) item)) m m1) st.
Proof.
  intros Hk Hst. unfold put_with_condition_inside_tx. rewrite check_sk_fits by done. apply wp_ok.
  rewrite rmw_texts by done. apply wp_ok. fold rmw_prep.
  eapply (wp_quiet _ _ _ _ _ _ _ quiet_prepare_rmw Hst); [intros; by apply inside_outage, at_failed|].
  intros _ st1 _ H1. apply select_inside; [done|]. intros st2 H2.
  assert (Hspec : guarded shape (pk, sk) c (put_spec shape (pk, sk) item) (docs m1)
    = if c (docs m1 table (pk, sk))
      then (Ok (docs m1 table (pk, sk)), write shape (pk, sk) (Some item) (docs m1))
      else (Err BackendError_ConditionalCheckFailed, docs m1)) by done.
  destruct (c _); cbn [negb]; [|by apply inside_refused].
  eapply wp_bind; [by apply (wp_write m m1 item)|]. intros [n|e|] st3; [| |done].
  - intros [_ (m2 & H3 & Hg & Hr)]. exists m2. split_and!; [done|done|by rewrite Hspec|by rewrite Hspec].
  - intros [He Hf]. by apply inside_outage.
Qed.

Lemma delete_condition_inside c st :
  at_ m (Some m1) st ->
  wp (delete_with_condition_inside_tx shape pk sk c)
    (inside (guarded shape (pk, sk) c (delete_spec shape (pk, sk))) m m1) st.
Proof.
  intros Hst. unfold delete_with_condition_inside_tx. rewrite check_sk_fits by done. apply wp_ok.
  rewrite rmw_texts by done. apply wp_ok. fold rmw_prep. rewrite conditional_delete_text by done. apply wp_ok.
  inner H1. inner H2. apply select_inside; [done|]. intros st3 H3.
  assert (Hspec : guarded shape (pk, sk) c (delete_spec shape (pk, sk)) (docs m1)
    = if c (docs m1 table (pk, sk))
      then (Ok (docs m1 table (pk, sk)), write shape (pk, sk) None (docs m1))
      else (Err BackendError_ConditionalCheckFailed, docs m1)) by done.
  destruct (c _); cbn [negb]; [|by apply inside_refused].
  eapply wp_bind; [by apply (wp_delete_read m m1)|]. intros [u|e|] st4; [| |done].
  - intros (m2 & H4 & Hg & Hr). exists m2. split_and!; [done|done|by rewrite Hspec|by rewrite Hspec].
  - intros [He Hf]. by apply inside_outage.
Qed.

Lemma rmw_inside apply st :
  (forall d, apply (docs m1 table (pk, sk)) = Ok (UpdateDecision_Apply d) -> keyed shape (pk, sk) d) ->
  at_ m (Some m1) st ->
  wp (update_general_rmw_inside_tx shape pk sk apply) (inside (rmw_spec shape (pk, sk) apply) m m1) st.
Proof.
  intros Hk Hst. unfold update_general_rmw_inside_tx. rewrite check_sk_fits by done. apply wp_ok.
  rewrite rmw_texts by done. apply wp_ok. fold rmw_prep.
  eapply (wp_quiet _ _ _ _ _ _ _ quiet_prepare_rmw Hst); [intros; by apply inside_outage, at_failed|].
  intros _ st1 _ H1. apply select_inside; [done|]. intros st2 H2.
  assert (Hspec : rmw_spec shape (pk, sk) apply (docs m1)
    = match apply (docs m1 table (pk, sk)) with
      | Ok (UpdateDecision_Apply d) => (Ok (mkUpdateOutcome d (docs m1 table (pk, sk))),
                                        write shape (pk, sk) (Some d) (docs m1))
      | Ok UpdateDecision_Fail => (Err BackendError_ConditionalCheckFailed, docs m1)
      | Err e => (Err e, docs m1)
      | Panic => (Panic, docs m1)
      end) by done.
  destruct (apply _) as [[d|]|e|].
  - apply wp_ok. cbv beta iota. eapply wp_bind; [apply (wp_write m m1 d); [done|by apply Hk|done]|].
    intros [n|e|] st3; [| |done].
    + intros [-> (m2 & H3 & Hg & Hr)]. exists m2. split_and!; [done|done|by rewrite Hspec|by rewrite Hspec].
    + intros [He Hf]. by apply inside_outage.
  - apply wp_ok. by apply inside_refused.
  - by apply inside_refused.
  - unfold wp, call_bind, call_ret, inside. by rewrite Hspec.
Qed.
End rmw.

(** ** TransactWriteItems *)

Lemma inside_unit {A} (spec : Rows -> Result BackendError A * Rows) (c : Call St A) m m1 st :
  wp c (inside spec m m1) st ->
  wp (call_map (fun _ => tt) c)
    (inside (fun R => (res_map (fun _ => tt) (spec R).1, (spec R).2)) m m1) st.
Proof.
  intros Hc. apply wp_map. eapply wp_mono; [exact Hc|]. intros [a|e|] st'; simpl.
  - intros (m2 & Hst & Hg & Hs & Hr). exists m2. split_and!; [done|done|by rewrite Hs|done].
  - intros [Hf [He|Hs]]; (split; [done|]); [by left|right]. intros u Hu. destruct (spec (docs m1)).1 eqn:E; [|done..].
    by eapply Hs.
  - by intros ->.
Qed.

Lemma transact_op_inside op m m1 st :
  writable (tx_op_target op).1 (tx_op_target op).2 -> tx_op_ok (docs m1) op -> good table_def m1 ->
  at_ m (Some m1) st ->
  wp (transact_op op) (inside (fun R => tx_step R op) m m1) st.
Proof.
  intros [Hl Hk] Hop Hm1 Hst. destruct op as [sh pk sk item [c|] b|sh pk sk [c|] b|sh pk sk c b|sh pk sk apply b];
    simpl in Hl, Hk, Hop; cbn [transact_op].
  - by apply (inside_unit (guarded sh (pk, sk) c (put_spec sh (pk, sk) item))), put_condition_inside.
  - by apply (inside_unit (put_spec sh (pk, sk) item)), put_inside.
  - by apply (inside_unit (guarded sh (pk, sk) c (delete_spec sh (pk, sk)))), delete_condition_inside.
  - by apply (inside_unit (delete_spec sh (pk, sk))), delete_inside.
  - by apply (inside_unit (guarded sh (pk, sk) c (get_spec sh (pk, sk)))), check_inside.
  - apply (inside_unit (rmw_spec sh (pk, sk) apply)), rmw_inside; try done. apply Hop.
Qed.

Lemma tx_op_no_panic R op : tx_op_ok R op -> (tx_step R op).1 <> Panic.
Proof.
  destruct op as [sh pk sk item [c|] b|sh pk sk [c|] b|sh pk sk c b|sh pk sk apply b]; simpl; unfold guarded;
    try (by repeat case_match). intros [Hn _]. unfold rmw_spec. destruct (apply _) as [[d|]|e|]; done.
Qed.

(** The operations in order: all of them, or a cancellation by one that
    is not after the first that must fail. *)
Definition sequenced (i n : nat) (ops : list TransactWriteOp) (m m1 : Tables) (r : Result BackendError unit) (st : St)
  : Prop :=
  match r with
  | Ok _ => exists m2 R, at_ m (Some m2) st /\ good table_def m2 /\ tx_run i (docs m1) ops = inl R /\ rows_eq (docs m2) R
  | Err e => exists t j e', failed m (Some t) st /\ e = into_cancelled e' j n
      /\ (i <= j < i + length ops)%nat
      /\ match tx_run i (docs m1) ops with inl _ => outage e' | inr i' => (j <= i')%nat /\ ((j < i')%nat -> outage e') end
  | Panic => False
  end.

Lemma tx_run_ge ops : forall i R i', tx_run i R ops = inr i' -> (i <= i')%nat.
Proof.
  induction ops as [|op ops IH]; intros i R i'; cbn [tx_run]; [done|].
  destruct (tx_step R op) as [[u|e|] R']; [intros Hr; apply IH in Hr; lia|intros [= <-]; lia..].
Qed.

Lemma transact_ops_sequenced n ops : forall i m m1 st,
  Forall (fun op => writable (tx_op_target op).1 (tx_op_target op).2) ops -> tx_ok (docs m1) ops ->
  good table_def m1 -> at_ m (Some m1) st ->
  wp (transact_ops i n ops) (sequenced i n ops m m1) st.
Proof.
  induction ops as [|op ops IH]; intros i m m1 st Hw Htx Hm1 Hst.
  { exists m1, (docs m1). by split_and!. }
  apply Forall_cons in Hw as [Hop Hw]. destruct Htx as [Hok Htx].
  pose proof (transact_op_inside op m m1 st Hop Hok Hm1 Hst) as Hstep. unfold wp in *. cbn [transact_ops].
  unfold sequenced. cbn [tx_run length].
  destruct (transact_op op st) as [[u|e|] st1]; simpl in Hstep.
  - destruct Hstep as (m2 & H1 & Hg & Hs & Hr). destruct (tx_step (docs m1) op) as [r1 R1]. simpl in *. subst r1.
    specialize (IH (S i) m m2 st1 Hw (tx_ok_proper _ _ _ (symmetry Hr) Htx) Hg H1). unfold wp, sequenced in IH.
    pose proof (tx_run_proper ops (S i) _ _ Hr) as Hrun.
    destruct (transact_ops (S i) n ops st1) as [[v|e'|] st2]; [| |done].
    + destruct IH as (m3 & R3 & H3 & Hg3 & E3 & Hr3). rewrite E3 in Hrun.
      destruct (tx_run (S i) R1 ops) as [R|]; [|done]. exists m3, R. split_and!; [done|done|done|by rewrite Hr3].
    + destruct IH as (t & j & e2 & Hf & -> & Hj & Hv). exists t, j, e2. split_and!; [done|done|lia|lia|].
      destruct (tx_run (S i) (docs m2) ops), (tx_run (S i) R1 ops); try done. by subst.
  - destruct Hstep as [Hf He]. exists m1, i, e. split_and!; [done|done|lia|lia|].
    destruct (tx_step (docs m1) op) as [[v|e'|] R1] eqn:Es; simpl in He.
    + destruct He as [He|He]; [|by destruct (He v)]. destruct (tx_run (S i) R1 ops) as [R|i'] eqn:Er; [done|].
      apply tx_run_ge in Er. split; [lia|done].
    + split; [lia|]. intros; lia.
    + split; [lia|]. intros; lia.
  - by destruct (tx_op_no_panic _ _ Hok).
Qed.

Lemma into_cancelled_at e j n : (j < n)%nat ->
  exists reasons, into_cancelled e j n = BackendError_TransactionCancelled reasons
    /\ cancelled_at n j (classify_for_cancel e).1 reasons.
Proof.
  intros Hj. unfold into_cancelled. destruct (classify_for_cancel e) as [code message]. eexists. split; [done|].
  unfold cancelled_at. etransitivity; [exact (list_fmap_insert reason_code _ j _)|]. f_equal.
  exact (fmap_replicate reason_code n _).
Qed.

Lemma outage_code e : outage e -> (classify_for_cancel e).1 <> "ConditionalCheckFailed".
Proof. destruct e; try done. simpl. by case_match. Qed.

(** The contract of [transact_write_raw] on the tables [m]. *)
Definition transacted (ops : list TransactWriteOp) (m : Tables) (r : Result BackendError unit) (st : St) : Prop :=
  idle st /\
  match tx_run 0 (docs m) ops with
  | inl R =>
      (r = Ok tt /\ rows_eq (rows st) R)
      \/ (unavailable r /\ (rows_eq (rows st) (docs m) \/ rows_eq (rows st) R))
      \/ (exists reasons i code, r = Err (BackendError_TransactionCancelled reasons)
            /\ (i < length ops)%nat /\ code <> "ConditionalCheckFailed"
            /\ cancelled_at (length ops) i code reasons /\ rows_eq (rows st) (docs m))
  | inr i =>
      rows_eq (rows st) (docs m)
      /\ (unavailable r
          \/ exists reasons i' code, r = Err (BackendError_TransactionCancelled reasons)
              /\ (i' <= i)%nat /\ ((i' < i)%nat -> code <> "ConditionalCheckFailed")
              /\ cancelled_at (length ops) i' code reasons)
  end.

Lemma transacted_outage ops m e st : good table_def m -> outage e -> at_ m None st -> transacted ops m (Err e) st.
Proof.
  intros Hm He Hst. split; [by eapply at_idle|]. rewrite (at_rows m) by done.
  pose proof (outage_unavailable (A := unit) e He). 
  destruct (tx_run 0 (docs m) ops); [right; left; split; [done|by left]|split; [done|by left]].
Qed.

Lemma transacted_cancelled ops m j e st :
  good table_def m -> (j < length ops)%nat ->
  match tx_run 0 (docs m) ops with inl _ => outage e | inr i => (j <= i)%nat /\ ((j < i)%nat -> outage e) end ->
  at_ m None st -> transacted ops m (Err (into_cancelled e j (length ops))) st.
Proof.
  intros Hm Hj Hv Hst. split; [by eapply at_idle|]. rewrite (at_rows m) by done.
  destruct (into_cancelled_at e j (length ops) Hj) as (reasons & -> & Hc).
  destruct (tx_run 0 (docs m) ops) as [R|i].
  - right. right. eexists _, _, _. split_and!; [done|done|by apply outage_code|done|done].
  - split; [done|]. right. eexists _, _, _. split_and!; [done|apply Hv| |done]. intros Hlt. by apply outage_code, Hv.
Qed.

Lemma transact_write_wp ops m st :
  Forall (fun op => writable (tx_op_target op).1 (tx_op_target op).2) ops -> tx_ok (docs m) ops ->
  good table_def m -> at_ m None st ->
  wp (pg_transact_write_raw ops) (transacted ops m) st.
Proof.
  intros Hw Htx Hm Hst. unfold pg_transact_write_raw. skip ltac:(by apply transacted_outage). intros _ st1 _ H1.
  apply (wp_transaction _ _ _ _ m); [done|intros; by apply transacted_outage|]. intros st2 H2.
  eapply wp_bind; [by apply (transact_ops_sequenced (length ops) ops 0 m m)|]. intros [u|e|] st3; [| |done].
  - intros (m2 & R & H3 & Hg & Hrun & Hr). eapply wp_mono; [by apply (wp_commit _ m m2)|].
    assert (Hdone : forall r st', r = Ok tt \/ unavailable r -> at_ m2 None st' -> transacted ops m r st').
    { intros r st' Hr' Hst'. split; [by eapply at_idle|]. rewrite (at_rows m2), Hrun by done.
      destruct Hr' as [->|Hu]; [by left|]. right. left. auto. }
    intros [[]|e|] st4; [| |done].
    + intros H4. split; [apply H4|]. destruct H4 as (-> & _). auto.
    + intros [He [H4|H4]]; (split; [apply H4|]); destruct H4 as (-> & _); intros st5 H5.
      * by apply transacted_outage.
      * apply Hdone; [right; by apply outage_unavailable|done].
  - intros (t & j & e' & (Hc & _ & Hk) & -> & Hj & Hv). split; [done|]. rewrite Hc. intros st4 H4.
    apply transacted_cancelled; [done|lia|done|done].
Qed.

(** ** TransactGetItems *)

Definition gets (ops : list TransactGetOp) (R : Rows) : list (option Value) :=
  map (fun o => R (shape_table (tgo_shape o)) (tgo_pk o, tgo_sk o)) ops.

Lemma wp_get_each ops m st :
  Forall (fun o => readable (tgo_shape o) (tgo_pk o, tgo_sk o)) ops -> at_ m (Some m) st ->
  wp (get_each ops) (fun r st' => match r with
                                  | Ok vs => vs = gets ops (docs m) /\ at_ m (Some m) st'
                                  | Err e => outage e /\ failed m (Some m) st'
                                  | Panic => False
                                  end) st.
Proof.
  intros Hall. revert st. induction Hall as [|op ops (Hu & _ & Hk) _ IH]; intros st Hst; [done|].
  cbn [get_each]. eapply (wp_bind _ _ (fun r st' => match r with
      | Ok v => v = docs m (shape_table (tgo_shape op)) (tgo_pk op, tgo_sk op) /\ at_ m (Some m) st'
      | Err e => outage e /\ failed m (Some m) st'
      | Panic => False
      end)).
  - unfold get_one. skip ltac:(split; [done|by apply at_failed]). intros sql st1 -> H1.
    skip ltac:(split; [done|by apply at_failed]). intros _ st2 _ H2. by apply (wp_get _ Hu _ false _ _ m (Some m)).
  - intros [v|e|] st1; [|done..]. intros [-> H1]. eapply wp_bind; [by apply IH|].
    intros [vs|e|] st2; [|done..]. by intros [-> H2].
Qed.

Lemma attempt_gets ops m st :
  Forall (fun o => readable (tgo_shape o) (tgo_pk o, tgo_sk o)) ops -> good table_def m -> at_ m None st ->
  wp (pg_transact_get_raw ops) (attempted (fun R => (Ok (gets ops R), R)) m) st.
Proof.
  intros Hall Hm Hst. unfold pg_transact_get_raw.
  assert (for_each (fun op => check_sk_shape (tgo_shape op) (tgo_sk op)) ops = Ok tt) as ->.
  { clear Hst. induction Hall as [|op ops (Hu & _ & Hk) _ IH]; [done|]. simpl.
    rewrite check_sk_fits; [done|]. apply (key_typed_fits _ (proj1 (used_valid _ Hu)) _ Hk). }
  apply wp_ok. skip ltac:(by apply attempted_outage). intros _ st1 _ H1.
  apply (wp_transaction _ _ _ _ m); [done|intros; by apply attempted_outage|]. intros st2 H2.
  eapply wp_bind; [by apply wp_get_each|]. intros [vs|e|] st3; [| |done].
  - intros [-> H3]. eapply wp_bind; [by apply (wp_commit _ m m)|]. intros [u|e|] st4; [| |done].
    + intros H4. split; [apply H4|]. destruct H4 as (-> & _). intros st5 H5. right. right.
      split_and!; [done|by eapply at_idle|done|]. by rewrite (at_rows m).
    + intros [He H4]. assert (at_ m None st4) as H5 by (by destruct H4). split; [apply H5|]. destruct H5 as (-> & _).
      intros st5 H6. by apply attempted_outage.
  - intros [He (Hc & _ & Hk)]. split; [done|]. rewrite Hc. intros st4 H4. by apply attempted_outage.
Qed.
(** ** Query and Scan *)

Lemma run_page_idle shape st lim filter s0 :
  (exists sel, st.1.1 = render sel) -> idle s0 ->
  wp (run_page shape st lim filter) (fun _ s1 => at_ (committed (pg_srv s0)) None s1) s0.
Proof.
  intros [sel Hsel] Hi. destruct (idle_at _ Hi) as [Hat _]. destruct st as [[sql types] params]. simpl in Hsel. subst sql.
  unfold run_page. skip ltac:(done). intros _ s1 _ H1. skip ltac:(done). intros _ s2 _ H2.
  eapply (wp_bind _ _ (fun _ s3 => at_ (committed (pg_srv s0)) None s3)).
  - unfold query. apply wp_map. unfold wp, server. pose proof (select_law sel params (pg_srv s2)) as [Hc Hn].
    destruct H2 as (Hc2 & Hn2 & Hk). destruct (pg_run (render sel) params (pg_srv s2)) as [r srv]. simpl in *.
    split_and!; simpl; [congruence|by apply Hn|done].
  - intros [out|e|] s3 H3; [|done..]. unfold lift, wp, call_bind, call_ret. by destruct (collect_items out).
Qed.

Lemma reads_only (c : Call St QueryOutcome) st :
  idle st -> wp c (fun _ s1 => at_ (committed (pg_srv st)) None s1) st ->
  let st' := (c st).2 in idle st' /\ rows_eq (rows st') (rows st).
Proof.
  intros Hi Hc. destruct (idle_at _ Hi) as [_ Hg]. unfold wp in Hc. destruct (c st) as [r st']. simpl.
  split; [by eapply at_idle|]. by destruct Hc as (-> & _).
Qed.

(** ** BatchWriteItem *)

(** A transformer that overwrites some rows, whatever they were. *)
Definition overlay (g : Rows -> Rows) : Prop :=
  exists f : string -> Key -> option (option Value), forall R t k, g R t k = default (R t k) (f t k).

Lemma overlay_id : overlay (fun R => R).
Proof. by exists (fun _ _ => None). Qed.

Lemma overlay_write shape k v : overlay (write shape k v).
Proof.
  exists (fun t' k' => if String.eqb (shape_table shape) t' && same_key k k' then Some v else None).
  intros R t' k'. unfold write, set_row. by case_match.
Qed.

Lemma overlay_compose g h : overlay g -> overlay h -> overlay (fun R => h (g R)).
Proof.
  intros [f Hf] [f' Hf']. exists (fun t k => match f' t k with Some v => Some v | None => f t k end).
  intros R t k. rewrite Hf', Hf. by destruct (f' t k).
Qed.

Lemma overlay_fold {A} (step : Rows -> A -> Rows) l :
  (forall a, overlay (fun R => step R a)) -> overlay (fun R => fold_left step l R).
Proof.
  intros Hs. induction l as [|a l IH]; [apply overlay_id|]. simpl.
  exact (overlay_compose (fun R => step R a) (fun R => fold_left step l R) (Hs a) IH).
Qed.

Lemma overlay_batch shape ops : overlay (fun R => (batch_write_spec shape ops R).2).
Proof.
  unfold batch_write_spec. simpl.
  apply (overlay_compose (fun R => fold_left (apply_put shape) ops R) (fun R => fold_left (apply_delete shape) ops R));
    apply overlay_fold; intros [pk sk item|pk sk]; simpl; apply overlay_id || apply overlay_write.
Qed.

(** A batch may be repeated. *)
Lemma batch_write_again shape ops R R' :
  rows_eq R' R \/ rows_eq R' (batch_write_spec shape ops R).2 ->
  rows_eq (batch_write_spec shape ops R').2 (batch_write_spec shape ops R).2.
Proof.
  destruct (overlay_batch shape ops) as [f Hf]. intros Hr t k. rewrite !Hf.
  destruct Hr as [Hr|Hr]; rewrite (Hr t k); [done|]. rewrite Hf. by destruct (f t k).
Qed.

Lemma deletes_typed shape ops :
  Forall (fun op => writable shape (write_op_key op)) ops -> Forall (key_typed shape) (deletes_of ops).
Proof.
  induction 1 as [|[pk sk item|pk sk] ops [_ Hk] _ IH]; [done|exact IH|]. by constructor.
Qed.

(** Part of a batch inside its transaction: the effect of [g], or the
    server fails. *)
Definition stage {A} (g : Rows -> Rows) (m m1 : Tables) (r : Result BackendError A) (st : St) : Prop :=
  match r with
  | Ok _ => exists m2, at_ m (Some m2) st /\ good table_def m2 /\ rows_eq (docs m2) (g (docs m1))
  | Err e => outage e /\ failed m (Some m1) st
  | Panic => False
  end.

Section batch.
Variables (shape : TableShape) (ops : list WriteOp).
Hypothesis Hlive : live_shape shape.
Hypothesis Hw : Forall (fun op => writable shape (write_op_key op)) ops.
Hypothesis Hops : Forall (write_op_ok shape) ops.

Let Hok := valid_shape _ (live_valid shape Hlive).
Let Hcols := valid_cols _ (live_valid shape Hlive).

Variables (m m1 : Tables).
Hypothesis Hm1 : good table_def m1.

Lemma puts_stage st :
  at_ m (Some m1) st ->
  wp (match puts_of ops with [] => call_ret (Ok tt) | _ => execute_puts shape (puts_of ops) end)
    (stage (fold_left (apply_put shape) ops) m m1) st.
Proof.
  intros Hst. destruct (puts_of ops) as [|p0 ps] eqn:Ep.
  { exists m1. split_and!; [done|done|].
    destruct (puts_fold table_def shape Hlive Hcols ops m1 Hm1 Hops) as (m' & E & _ & Hr).
    rewrite Ep in E. by injection E as <-. }
  rewrite <- Ep. unfold execute_puts. cbv zeta. rewrite puts_text.
  skip ltac:(split; [done|by apply at_failed]). intros _ st3 _ H3. apply wp_map.
  eapply wp_mono; [apply (wp_execute _ shape _ _
    (live_runnable shape Hlive (StPutMany _) _ (Forall_nil_2 _)) m (Some m1) _ H3)|]. intros [n|e|] st4; [| |done].
  - intros (o & Ho & Hl & _). exists o.2. split; [done|]. by eapply exec_put_many.
  - intros [He [Hf|[? _]]]; done.
Qed.

Lemma deletes_stage st :
  at_ m (Some m1) st ->
  wp (match deletes_of ops with [] => call_ret (Ok tt) | _ => execute_deletes shape (deletes_of ops) end)
    (stage (fold_left (apply_delete shape) ops) m m1) st.
Proof.
  intros Hst. destruct (deletes_of ops) as [|k0 ks] eqn:Ek.
  { exists m1. split_and!; [done|done|]. destruct (deletes_fold table_def shape Hlive ops m1 Hm1) as [_ Hr].
    by rewrite Ek in Hr. }
  rewrite <- Ek. pose proof (deletes_typed shape ops Hw) as Hty. unfold execute_deletes.
  destruct (keys_statement_text shape Hok ("DELETE FROM " +:+ quote_ident (shape_table shape)) _ Hty)
    as (types & params & -> & Hb).
  replace (("DELETE FROM " +:+ quote_ident (shape_table shape)) +:+ " WHERE "
            +:+ keys_pred shape (length (deletes_of ops)))
    with (stmt_text shape (StDeleteMany (length (deletes_of ops))))
    by (cbn [stmt_text]; by rewrite <- !app_assoc_str).
  apply wp_ok. cbv beta iota. skip ltac:(split; [done|by apply at_failed]). intros _ st4 _ H4. apply wp_map.
  assert (Hr : runnable shape (StDeleteMany (length (deletes_of ops))) params)
    by (apply live_runnable; [done|]; cbn [stmt_keys]; by rewrite Hb).
  eapply wp_mono; [apply (wp_execute _ shape _ _ Hr m (Some m1) _ H4)|]. intros [n|e|] st5; [| |done].
  - intros (o & Ho & Hl & _). exists o.2. split; [done|]. by eapply exec_delete_many.
  - intros [He [Hf|[? _]]]; done.
Qed.
End batch.

Lemma apply_deletes_proper shape ops : Proper (rows_eq ==> rows_eq) (fold_left (apply_delete shape) ops).
Proof.
  intros R R' Hr. apply fold_left_proper; [|done]. intros a b [] Hab; simpl; [done|]. unfold write. by rewrite Hab.
Qed.

Lemma closing_commit_unit (spec : Rows -> Result BackendError unit * Rows) m table m' st :
  good table_def m -> good table_def m' -> (spec (docs m)).1 = Ok tt -> rows_eq (docs m') (spec (docs m)).2 ->
  at_ m (Some m') st -> wp (commit table) (closing (done_ spec m)) st.
Proof.
  intros Hm Hm' Hs Hr Hst. pose proof (closing_commit spec m Hm table m' (Ok tt) st Hm' Hs Hr Hst) as Hc.
  unfold wp, call_bind, call_ret in *. by destruct (commit table st) as [[[]|e|] st5].
Qed.

Lemma batch_write_done shape ops m st :
  live_shape shape -> Forall (fun op => writable shape (write_op_key op)) ops -> Forall (write_op_ok shape) ops ->
  ops <> [] -> good table_def m -> at_ m None st ->
  wp (pg_batch_write_raw shape ops) (done_ (batch_write_spec shape ops) m) st.
Proof.
  intros Hlive Hw Hops Hne Hm Hst. unfold pg_batch_write_raw. destruct ops as [|op0 ops0] eqn:Eops; [done|].
  rewrite <- Eops in *. clear Eops.
  rewrite check_keys_fit; [|apply (live_valid shape Hlive)|
    apply Forall_map; eapply Forall_impl; [exact Hw|]; by intros op [_ ?]].
  apply wp_ok. cbv zeta. skip ltac:(by apply done_outage). intros _ st1 _ H1.
  apply (wp_transaction _ _ _ _ m); [done|intros; by apply done_outage|]. intros st2 H2.
  eapply wp_bind; [exact (puts_stage shape ops Hlive Hops m m Hm st2 H2)|]. intros [u|e|] st3; [| |done].
  2:{ intros [He Hf]. by eapply closing_outage. }
  intros (m2 & H3 & Hg2 & Hr2). eapply wp_bind; [exact (deletes_stage shape ops Hlive Hw m m2 Hg2 st3 H3)|].
  intros [v|e|] st4; [| |done].
  2:{ intros [He Hf]. by eapply closing_outage. }
  intros (m3 & H4 & Hg3 & Hr3). apply (closing_commit_unit _ _ _ m3); [done..| |done].
  etransitivity; [exact Hr3|]. by apply apply_deletes_proper.
Qed.

Lemma batch_write_performs shape ops st :
  idle st -> Forall (fun op => writable shape (write_op_key op)) ops -> Forall (write_op_ok shape) ops ->
  performs (batch_write_spec shape ops) (retrying policy clock (pg_batch_write_raw shape ops)) st.
Proof.
  intros Hi Hw Hops.
  set (I st' := idle st' /\ (rows_eq (rows st') (rows st) \/ rows_eq (rows st') (batch_write_spec shape ops (rows st)).2)).
  apply performs_wp. eapply wp_mono; [eapply (retry_rule _ I (fun _ _ => False)
    (fun r st' => r = Ok tt /\ idle st' /\ rows_eq (rows st') (batch_write_spec shape ops (rows st)).2))|].
  - intros st1 [Hi1 Hr1]. destruct (decide (ops = [])) as [->|Hne].
    { right. right. split; [done|]. split_and!; [done|done|]. destruct Hr1; done. }
    destruct (idle_at _ Hi1) as [Hat Hg].
    assert (Hl : live_shape shape) by (destruct ops as [|op ops0]; [done|]; by apply Forall_cons in Hw as [[? _] _]).
    eapply wp_mono; [by apply (batch_write_done shape ops _ st1 Hl Hw Hops Hne Hg)|].
    pose proof (batch_write_again shape ops (rows st) (rows st1) Hr1) as Hagain.
    intros r st2 [Hi2 [[Hu Hr2]|[-> Hr2]]].
    + left. split; [done|]. split; [done|]. destruct Hr2 as [Hr2|Hr2]; simpl in Hr2, Hr1.
      * destruct Hr1; [left|right]; by etransitivity.
      * right. by etransitivity.
    + right. right. split_and!; [done|done|done|]. by etransitivity.
  - split; [done|by left].
  - intros r st' [[Hu [Hi' Hr]]|[[]|(-> & Hi' & Hr)]]; auto.
Qed.

Lemma pg_contract :
  @BackendContract (PgState Srv) (pg_backend policy clock) pg_storage RK B64 SC.
Proof.
  split.
  - intros st t k k' (_ & [Hk _] & _) Hs. simpl. unfold docs. by rewrite (Hk t k k' Hs).
  - intros shape pk sk item st Hi [Hl Hk] Hkd. apply retrying_performs; [done|]. intros st' Hst'.
    apply attempt_put; try done. apply Hi.
  - intros shape pk sk item c st Hi [Hl Hk] Hkd. destruct (idle_at _ Hi) as [Hat Hg].
    exact (put_condition_done shape pk sk Hl Hk item c _ st Hg Hat Hkd).
  - intros shape pk sk st Hi (Hu & _ & Hk). apply retrying_performs; [done|]. intros st' Hst'.
    apply attempt_get; try done. apply Hi.
  - intros shape pk sk st Hi [Hl Hk]. apply retrying_performs; [done|]. intros st' Hst'.
    apply attempt_delete; try done. apply Hi.
  - intros shape pk sk c st Hi [Hl Hk]. destruct (idle_at _ Hi) as [Hat Hg].
    exact (delete_condition_done shape pk sk Hl Hk c _ st Hg Hat).
  - intros shape pk sk ins sets removes st Hi [Hl Hk] Hkd Hmer. apply retrying_performs; [done|]. intros st' Hst'.
    apply attempt_merge; try done. apply Hi.
  - intros shape [pk sk] ins st Hi [Hl Hk] Hkd. apply retrying_performs; [done|]. intros st' Hst'.
    apply attempt_insert; try done. apply Hi.
  - intros shape pk sk sets removes cond st Hi [Hl Hk] Hf Hp Hmer. apply retrying_performs; [done|]. intros st' Hst'.
    apply attempt_where; try done. apply Hi.
  - intros shape pk sk apply st Hi [Hl Hk] Hkd. destruct (idle_at _ Hi) as [Hat Hg].
    exact (rmw_done shape pk sk Hl Hk _ apply _ st Hg Hat Hkd).
  - intros shape pk c limit esk filter forward st Hi. apply reads_only; [done|]. cbn [query_raw pg_backend].
    unfold pg_query_raw. destruct (idle_at _ Hi) as [Hat _]. case_match; [done|]. case_match; [done|].
    destruct (query_statement _ _ _ _ _ _) as [s|e|] eqn:E; [|done..]. apply wp_ok, run_page_idle; [|done].
    by eapply query_statement_render.
  - intros shape filter limit esk st Hi. apply reads_only; [done|]. apply run_page_idle; [|done].
    apply scan_statement_render.
  - intros shape ops st Hi Hw Hops. by apply batch_write_performs.
  - intros shape keys st Hi Hr. by apply batch_get_performs.
  - intros ops st Hi Hr. apply retrying_performs; [done|]. intros st' Hst'. apply attempt_gets; try done. apply Hi.
  - intros ops st Hi Hw Htx. destruct (idle_at _ Hi) as [Hat Hg].
    exact (transact_write_wp ops _ st Hw Htx Hg Hat).
Qed.
End contract.
