(* ===== verification/System.v ===== *)
(** * The server over PostgreSQL

    The data-plane handlers of [Server] on the backend of [PgBackend]:
    what holds of the tables after any sequence of requests. *)

From S2P Require Import Prelude RustStr BTree Json Attr Ast Storage Schema Plan Checks PgTypes PgSelect.
From S2P Require Import Winnow Operations Keys Query ConditionSql Catalog Retry ApiError Backend Server.
From S2P Require Import EvalUpdate Materialize Translate.
From S2P Require Import ServerCorrect PgWrite PgSql PgBackend PgExec PgContract.

Section system.
Context `{W : Winnow} `{B64 : Base64} `{SJ : SerdeJson} `{Wi : Wire} `{SC : SqlCompare} `{RK : RowKeys}.
Context {Srv : Type} `{PG : PgServer Srv} `{L : !PgLaws Srv}.
Variables (policy : RetryPolicy) (clock : nat -> N) (state : AppState).
Hypothesis Hsane : sane_policy policy.
Hypothesis Htables : forall t shape, table_def t = Some shape -> table_valid shape.
Hypothesis Hreplies : (max_attempts policy <= 1)%N \/ replies_reliable (Srv := Srv).

Let schemas := cs_schemas (app_catalog state).
Hypothesis Hcat : schemas = te_schema <$> cs_entries (app_catalog state).
Hypothesis Hdist : tables_distinct schemas.
(** The live tables are those of the catalog. *)
Hypothesis Hlive : forall t s, schemas !! t = Some s -> table_def (pg_table s) = Some (write_shape s).

#[local] Instance system_backend : Backend (PgState Srv) := pg_backend policy clock.
#[local] Instance system_contract : BackendContract (PgState Srv) :=
  pg_contract policy clock Hsane Htables Hreplies.

Lemma fits_typed t s k : schemas !! t = Some s -> fits s k -> key_typed (write_shape s) k.
Proof.
  intros Hs (item & _ & Hp & Hk). split; [done|]. cbn [write_shape shape_with_dual_write shape_sk_type].
  apply Hlive, Htables, valid_shape in Hs. unfold shape_ok in Hs.
  cbn [write_shape shape_with_dual_write shape_sk_type shape_sk_col] in Hs.
  destruct (sk_attr s) as [a|], (sk_type s) as [ty|], k.2; try naive_solver.
Qed.

(** A catalog that mirrors the live tables is served by them. *)
Lemma system_live : catalog_live (St := PgState Srv) state.
Proof.
  intros t s k Hs Hk. pose proof (fits_typed t s k Hs Hk) as Hty. pose proof (Hlive t s Hs) as Hd. split; [by split|].
  split; [|by split]. exists (write_shape s). split; [exact Hd|]. split; [by split_and!|by left].
Qed.

(** A session: one request after another, each with some body. *)
Inductive served : PgState Srv -> PgState Srv -> Prop :=
| serve op handler body st : data_handler state op = Some handler -> served st (handler body st).2.

Lemma served_safe st st' :
  rtc served st st' -> idle st -> store_ok schemas (rows st) -> idle st' /\ store_ok schemas (rows st').
Proof.
  induction 1 as [st|st st1 st2 [op handler body st0 Hop] _ IH]; [done|]. intros Hi Hok.
  destruct (handler_safe state Hcat Hdist system_live op handler body st0 Hop Hi Hok) as [Hi1 Hok1]. by apply IH.
Qed.

(** C1: What PostgreSQL holds after any session. The live tables are those
    of the catalog, with plain attribute names ([table_valid]: an attribute
    whose name has a quote, a comma or a brace changes the text-path literal
    it is pasted into), and the retry policy makes one attempt, or no reply
    is lost after its statement took effect. Then, whatever requests the
    server has served, whatever their bodies and however PostgreSQL
    failed in between, no transaction is left open, and every stored row
    of a table of the catalog is a DynamoDB item at the key its own key
    attributes give, and the columns of the global secondary indexes are
    exactly the attributes of that item: an index never shows a stale or
    a missing entry. *)
Theorem session_invariant st st' :
  rtc served st st' -> idle st -> store_ok schemas (rows st) ->
  in_tx (pg_srv st') = None
  /\ forall t s k r, schemas !! t = Some s -> committed (pg_srv st') (pg_table s) k = Some r ->
     typed s k (trow_doc r)
     /\ Forall (fun c => trow_cols r !! dw_col c = extract_key_from_jsonb (trow_doc r) (dw_attr c) (dw_key_type c))
          (dual_write_cols s).
Proof.
  intros Hrun Hi Hok. destruct (served_safe st st' Hrun Hi Hok) as [(Ht & [_ Hsync] & _) Hok']. split; [done|].
  intros t s k r Hs Hr. split.
  - apply (Hok' t s Hs k). simpl. unfold docs. by rewrite Hr.
  - exact (Hsync (pg_table s) (write_shape s) k r (Hlive t s Hs) Hr).
Qed.

(** The two routes of an UpdateItem without a condition: the upsert in
    one statement, and the read-modify-write under a row lock. *)
Definition one_statement (s : TableSchema) (plan : UpdateItemPlan) (p : SimpleUpdatePrimitives)
    : Call (PgState Srv) UpdateOutcome :=
  update_simple_raw (write_shape s) (up_pk plan) (up_sk plan) (sup_insert_item p) (sup_sets p) (sup_removes p).
Definition locked_update (s : TableSchema) (plan : UpdateItemPlan) (key : Item) : Call (PgState Srv) UpdateOutcome :=
  update_general_rmw_raw (write_shape s) (up_pk plan) (up_sk plan) (update_semantics plan key).

(** A key attribute is neither set nor removed by an accepted update. *)
Lemma removes_disjoint s req plan :
  translate_update_item req s = Ok plan ->
  (forall n, n ∈ simple_removes (up_expression plan) -> n ∉ BTreeMap.keys (simple_sets (up_expression plan))) ->
  disjoint_removes (up_expression plan) (update_key req).
Proof.
  intros Hplan Hd n Hn. destruct (translate_update_facts _ _ _ Hplan) as (_ & Hx & (_ & Hr & _) & _). split.
  - specialize (Hd n Hn). unfold simple_sets in Hd. intros Hin. apply Hd. revert Hin. unfold BTreeMap.keys.
    by rewrite (map_map entry_to_value).
  - intros Hin%Hx. unfold simple_removes in Hn. apply list_elem_of_fmap in Hn as (p & -> & Hp).
    rewrite Forall_forall in Hr. by destruct (Hr _ Hp) as (a & -> & Ha).
Qed.

(** C28: The one-statement upsert and the locked read-modify-write are
    the same update.  For every accepted UpdateItem with only literal SETs
    and REMOVEs and no condition, the materialiser succeeds, and the
    statement it feeds does to PostgreSQL, and answers, what the
    read-modify-write with the evaluator is specified to do and does: on
    every stored row, and on a missing row when no attribute is both set
    and removed. *)
Theorem fast_path_equals_slow_path t s req plan row st :
  schemas !! t = Some s -> translate_update_item req s = Ok plan ->
  is_simple (up_expression plan) = true -> up_condition plan = None ->
  idle st -> table_ok (rows st) s -> rows st (pg_table s) (up_pk plan, up_sk plan) = row_value row ->
  (row = None ->
     forall n, n ∈ simple_removes (up_expression plan) -> n ∉ BTreeMap.keys (simple_sets (up_expression plan))) ->
  let spec := rmw_spec (write_shape s) (up_pk plan, up_sk plan) (update_semantics plan (update_key req)) in
  exists p, materialize_simple_update plan (update_key req) = Ok p /\
    performs spec (one_statement s plan p) st /\ performs spec (locked_update s plan (update_key req)) st.
Proof.
  intros Hs Hplan Hsimple Hc Hi Htab Hrow Hd spec. eexists.
  split; [exact (materialize_simple_eq _ _ Hsimple Hc)|].
  destruct (translate_update_facts _ _ _ Hplan) as (Hk & _).
  destruct (system_live t s _ Hs (fits_of _ _ _ Hk)) as [Hw _].
  pose proof (Htab (up_pk plan, up_sk plan)) as Hst. rewrite Hrow in Hst.
  assert (Hit : forall i, row = Some i -> keyed (shape s) (up_pk plan, up_sk plan) (item_to_value i)).
  { intros i ->. by destruct (Hst _ eq_refl) as [_ ?]. }
  assert (Hagree : routes_agree plan (update_key req) row).
  { intros _. rewrite Hc. intros Hn. by eapply removes_disjoint, Hd. }
  split.
  - unfold performs. assert (spec (rows st) = _) as -> by (symmetry; eapply simple_route; eassumption).
    apply (update_simple_law (St := PgState Srv)); [done|done|by eapply insert_typed|].
    intros d Hdoc. by eapply merged_typed.
  - apply (rmw_law (St := PgState Srv)); [done|done|]. intros d Hdec.
    change (row_at (write_shape s) (up_pk plan, up_sk plan) (rows st))
      with (rows st (pg_table s) (up_pk plan, up_sk plan)) in Hdec.
    rewrite Hrow in Hdec. eapply semantics_typed; [exact Hplan|exact Hst|exact Hdec].
Qed.
End system.
