(* ===== verification/PgInMemory.v ===== *)
(** * A PostgreSQL server in memory

    An executable server with one table, which answers the statements of
    PutItem, GetItem, DeleteItem, the insert-only and the
    read-modify-write updates and the upsert of one SET, and refuses every
    other one; with [lossy],
    it may lose the reply of a statement after its effect. It keeps the
    laws of [PgWrite], so they can be kept; the theorems about the
    backend are applied to it. *)

From S2P Require Import Prelude RustStr BTree Json Attr Base64Std Ast Storage Schema Plan Checks.
From S2P Require Import PgTypes PgSelect Winnow Operations Keys Query ConditionSql Catalog Retry.
From S2P Require Import ApiError Backend Server ServerCorrect PgWrite PgSql PgBackend PgExec PgContract.
From S2P Require Import Substitute EvalUpdate Materialize Translate MemoryBackend System.

#[local] Open Scope N_scope.

(** ** The table *)

(** Orders by [id], with an index by [owner] that is kept by dual
    writes. *)
Definition by_owner : GsiSchema :=
  mkGsiSchema "by_owner" "owner" KeyType_S "gsi_owner" None None None true true None.
Definition orders_schema : TableSchema :=
  mkTableSchema "Orders" "rekt_t_orders" "id" KeyType_S None None "data" [] [("by_owner", by_owner)].
Definition orders : TableShape := Eval vm_compute in write_shape orders_schema.

Lemma orders_valid : table_valid orders.
Proof.
  split.
  - unfold shape_ok. simpl. done.
  - intros _. split; [done|]. apply Forall_singleton. by split_and!.
  - apply NoDup_singleton.
  - done.
Qed.

(** ** The server *)

Record MemSrv : Type := mkMemSrv {
  ms_committed : Tables;
  ms_tx : option Tables;
  ms_lost : nat
}.

Definition known : list row_stmt :=
  [StGet false; StGet true; StPut; StInsert; StUpdate; StDelete true; StDelete false; StMerge (merge_doc 1 0 3)].

Definition decode (sql : string) : option row_stmt :=
  List.find (fun s => String.eqb (stmt_text orders s) sql) known.

Definition refused : PgFailure := mkPgFailure (Some ("0A000", "not supported")) "not supported".
Definition lost_reply : PgFailure := mkPgFailure None "connection closed".

Definition with_tables (srv : MemSrv) (m : Tables) (lost : nat) : MemSrv :=
  match ms_tx srv with
  | None => mkMemSrv m None lost
  | Some _ => mkMemSrv (ms_committed srv) (Some m) lost
  end.

Definition mem_run (lossy : bool) (sql : string) (params : list Param) (srv : MemSrv)
  : (PgFailure + list (list (option Value)) * N) * MemSrv :=
  match decode sql ≫= (fun s => stmt_exec orders s params (default (ms_committed srv) (ms_tx srv))) with
  | None => (inl refused, srv)
  | Some (out, m) =>
      match ms_tx srv, ms_lost srv with
      | None, S n => if lossy then (inl lost_reply, with_tables srv m n) else (inr out, with_tables srv m (S n))
      | _, n => (inr out, with_tables srv m n)
      end
  end.

Definition mem_pg (lossy : bool) : PgServer MemSrv := {|
  committed := ms_committed;
  in_tx := ms_tx;
  table_def t := if String.eqb t "rekt_t_orders" then Some orders else None;
  pg_client srv := (inr tt, srv);
  pg_prepare _ _ srv := (inr tt, srv);
  pg_run := mem_run lossy;
  pg_begin _ srv := (inr tt, mkMemSrv (ms_committed srv) (Some (ms_committed srv)) (ms_lost srv));
  pg_commit srv := (inr tt, mkMemSrv (default (ms_committed srv) (ms_tx srv)) None (ms_lost srv));
  pg_rollback srv := (inr tt, mkMemSrv (ms_committed srv) None (ms_lost srv));
  pg_drop srv := mkMemSrv (ms_committed srv) None (ms_lost srv)
|}.

(** ** The texts it knows *)

Lemma decode_known sql s : decode sql = Some s -> s ∈ known /\ stmt_text orders s = sql.
Proof.
  intros [Hin Heq]%List.find_some. split; [by apply list_elem_of_In|]. by apply String.eqb_eq.
Qed.

Lemma dollar_inj n n' a b : dollar n +:+ String ":" a = dollar n' +:+ String ":" b -> n = n' /\ a = b.
Proof.
  unfold dollar. intros [= E]. change (usize_to_string n +:+ String ":" a = usize_to_string n' +:+ String ":" b) in E.
  assert (Hd : forall k, str_mem ":"%char (usize_to_string k) = false)
    by (intros k; apply (str_mem_forall is_ascii_digit); [done|apply usize_to_string_digits]).
  apply split_first in E as [E ->]; [|apply Hd..]. split; [|done]. by apply usize_to_string_inj.
Qed.

(** The document of an upsert with one SET is known by its text. *)
Lemma one_set_text b e rest rest' :
  doc_text (String (ascii_of_nat 34) b) (DocSet DocRow 3 4) +:+ rest = doc_text (String (ascii_of_nat 34) b) e +:+ rest' ->
  e = DocSet DocRow 3 4.
Proof.
  set (base := String _ b). destruct e as [|e n v|e n]; cbn [doc_text]; [done| |done].
  rewrite <- !app_assoc_str. intros E%app_inv_head_str.
  destruct e as [|e' n' v'|e' n']; cbn [doc_text] in E; [|discriminate E..].
  do 2 apply app_inv_head_str in E.
  apply (dollar_inj 3 n) in E as [<- E]. injection E as E.
  apply (f_equal (String "$")), (dollar_inj 4 v) in E as [<- _]. done.
Qed.

Lemma merge_text e : stmt_text orders (StMerge (merge_doc 1 0 3)) = stmt_text orders (StMerge e) -> e = merge_doc 1 0 3.
Proof.
  cbn [stmt_text]. change (merge_doc 1 0 3) with (DocSet DocRow 3 4). intros E.
  do 15 apply app_inv_head_str in E. exact (one_set_text _ _ _ _ E).
Qed.

(** A known text is the text of one statement. *)
Lemma known_text st s : s ∈ known -> stmt_text orders s = stmt_text orders st -> st = s.
Proof.
  intros Hs. assert (Hn : forall n, st = StPutMany n -> stmt_text orders s <> stmt_text orders st).
  { intros n ->. destruct n as [|[|n]]; repeat (apply elem_of_cons in Hs as [->|Hs]; [by vm_compute|]);
      by apply elem_of_nil in Hs. }
  destruct st as [[]| | | |[]|e|e c|n|n|n]; try (by intros ?; destruct (Hn n));
    clear Hn; repeat (apply elem_of_cons in Hs as [->|Hs]; [
      lazymatch goal with
      | |- stmt_text _ (StMerge _) = stmt_text _ (StMerge _) -> _ => by intros ->%merge_text
      | _ => by vm_compute
      end|]);
    by apply elem_of_nil in Hs.
Qed.

Lemma orders_live lossy shape : live_shape (H := mem_pg lossy) shape -> shape = orders.
Proof. unfold live_shape. simpl. case_match; [by intros [= <-]|done]. Qed.

(** Reads depend on the key columns only. *)
Lemma orders_columns lossy shape :
  live_columns (H := mem_pg lossy) shape ->
  shape = mkTableShape "rekt_t_orders" "id" KeyType_S None None "data" (shape_dual_write_cols shape).
Proof.
  intros (full & Hd & Hc). simpl in Hd. case_match; [|done]. injection Hd as <-. destruct shape as [t pc pt sc st jc dw].
  unfold same_columns in Hc. simpl in *. destruct_and!. congruence.
Qed.

Lemma read_text dw st :
  reads_columns st = true ->
  stmt_text (mkTableShape "rekt_t_orders" "id" KeyType_S None None "data" dw) st = stmt_text orders st
  /\ forall params m, stmt_exec (mkTableShape "rekt_t_orders" "id" KeyType_S None None "data" dw) st params m
                      = stmt_exec orders st params m.
Proof. by destruct st. Qed.

(** A statement the server decodes has the meaning of its text. *)
Lemma decode_meaning lossy shape st s :
  (live_shape (H := mem_pg lossy) shape /\ plain_names shape)
  \/ (live_columns (H := mem_pg lossy) shape /\ reads_columns st = true) ->
  decode (stmt_text shape st) = Some s ->
  forall params m, stmt_exec shape st params m = stmt_exec orders s params m.
Proof.
  intros Hl [Hs Heq]%decode_known params m. destruct Hl as [[->%orders_live _]|[Hc Hr]].
  - by rewrite (known_text st s Hs Heq).
  - apply orders_columns in Hc. rewrite Hc in Heq |- *. destruct (read_text (shape_dual_write_cols shape) st Hr) as [Ht He].
    rewrite Ht in Heq. rewrite He. by rewrite (known_text st s Hs Heq).
Qed.

Lemma get_keeps b params m o : stmt_exec orders (StGet b) params m = Some o -> o.2 = m.
Proof. cbn [stmt_exec]. intros (kr & _ & Ho)%bind_Some. repeat case_match; simplify_eq; done. Qed.

(** The only SELECT it knows is that of a row. *)
Lemma decode_select sel s : decode (render sel) = Some s -> exists b, s = StGet b.
Proof.
  intros [Hs Heq]%decode_known. unfold render in Heq.
  repeat (apply elem_of_cons in Hs as [->|Hs]; [first [by exists false | by exists true | discriminate Heq]|]). by apply elem_of_nil in Hs.
Qed.

#[export] Instance mem_laws lossy : @PgLaws MemSrv (mem_pg lossy) exact_keys base64_std digits_compare.
Proof.
  split; try done.
  - intros srv t k k' Hk. by apply bool_decide_eq_true in Hk as ->.
  - intros shape st params srv Hl _. cbn [pg_run mem_pg]. unfold mem_run.
    destruct (decode (stmt_text shape st)) as [s|] eqn:Ed; cbn [mbind option_bind]; [|by split; [|left]].
    rewrite <- (decode_meaning lossy shape st s Hl Ed). unfold visible. simpl.
    destruct (stmt_exec shape st params (default (ms_committed srv) (ms_tx srv))) as [[out m]|] eqn:Eo; [|by split; [|left]].
    unfold with_tables. destruct srv as [c [t|] [|n]]; simpl in *; [by exists (out, m)..|].
    destruct lossy; [|by exists (out, m)]. split; [done|]. right. split_and!; [done|done|]. by exists (out, m).
  - intros sel params srv. cbn [pg_run mem_pg]. unfold mem_run. simpl.
    destruct (decode (render sel)) as [s|] eqn:Ed; cbn [mbind option_bind]; [|done].
    destruct (stmt_exec orders s params _) as [[out m]|] eqn:Eo; [|done].
    destruct (decode_select sel s Ed) as [b ->]. apply get_keeps in Eo. simpl in Eo. subst m.
    unfold with_tables. by destruct srv as [c [t|] [|n]], lossy.
  - intros srv m Ht. simpl in *. split; [done|]. left. by rewrite Ht.
Qed.

Lemma mem_reliable : replies_reliable (PG := mem_pg false).
Proof.
  intros shape s params srv e srv'. cbn [pg_run mem_pg committed]. unfold mem_run.
  destruct (decode _ ≫= _) as [[out m]|]; [|by intros [= _ <-]]. by destruct (ms_tx srv), (ms_lost srv).
Qed.

Lemma mem_tables lossy t shape : table_def (PgServer := mem_pg lossy) t = Some shape -> table_valid shape.
Proof. simpl. case_match; [|done]. intros [= <-]. apply orders_valid. Qed.

(** ** Applying the theorems *)

Definition no_clock (_ : nat) : N := 0.
Definition no_tables : Tables := fun _ _ => None.
Definition fresh (lost : nat) : PgState MemSrv := mkPgState (mkMemSrv no_tables None lost) ∅.

Definition order_item : Item := [("id", S_ "o1"); ("owner", S_ "ann")].
Definition order_doc : Value := item_to_value order_item.
Definition order_key : Key := (KeyValue_S "o1", None).

#[local] Instance mem_backend (lossy : bool) : Backend (PgState MemSrv) :=
  pg_backend (H0 := mem_pg lossy) default_policy no_clock.


(** ** A session *)

#[local] Instance empty_display : SerdeJson := {| value_to_string _ := EmptyString |}.

(** A wire format whose PutItem body is the order; nothing else parses. *)
#[local] Instance one_put : Wire := {|
  de_put_item _ := inr (mkPutItemRequest "Orders" order_item None None None None);
  de_get_item _ := inl "unused";
  de_delete_item _ := inl "unused";
  de_update_item _ := inl "unused";
  de_query _ := inl "unused";
  de_scan _ := inl "unused";
  de_batch_get_item _ := inl "unused";
  de_batch_write_item _ := inl "unused";
  de_transact_get_items _ := inl "unused";
  de_transact_write_items _ := inl "unused";
  de_error_to_string _ := "invalid item";
  value_debug _ := EmptyString
|}.

Definition orders_entry : TableEntry :=
  mkTableEntry orders_schema TableStatus_Active true None 0 0 "test" None None None (VObject []) [] [].
Definition orders_server : AppState := mkAppState (from_entries {[ "Orders" := orders_entry ]}) default_batch_limits.

Lemma orders_schemas t s : cs_schemas (app_catalog orders_server) !! t = Some s -> s = orders_schema.
Proof. simpl. rewrite map_fmap_singleton. intros [_ <-]%lookup_singleton_Some. done. Qed.

Lemma orders_distinct : tables_distinct (cs_schemas (app_catalog orders_server)).
Proof. intros t1 t2 s1 s2 ->%orders_schemas ->%orders_schemas. done. Qed.

Lemma fresh_idle lost : idle (PG := mem_pg false) (fresh lost).
Proof. split; [done|]. split; [split; done|]. intros shape s _. simpl. by rewrite lookup_empty. Qed.

#[local] Instance reliable_backend : Backend (PgState MemSrv) := mem_backend false.

Definition after_put : PgState MemSrv := (handle_put_item orders_server [] (fresh 0)).2.

(** The order is put; the row and its index column are those of the
    item. *)
Lemma session_witness :
  in_tx (PgServer := mem_pg false) (pg_srv after_put) = None
  /\ exists r, ms_committed (pg_srv after_put) "rekt_t_orders" order_key = Some r
     /\ typed orders_schema order_key (trow_doc r)
     /\ trow_cols r !! "gsi_owner" = Some (KeyValue_S "ann").
Proof.
  assert (Hop : data_handler orders_server "PutItem" = Some (handle_put_item orders_server)) by reflexivity.
  assert (Hlive : forall t s, cs_schemas (app_catalog orders_server) !! t = Some s ->
    table_def (PgServer := mem_pg false) (pg_table s) = Some (write_shape s))
    by (intros t s ->%orders_schemas; reflexivity).
  assert (Hok : store_ok (cs_schemas (app_catalog orders_server)) (rows (Storage := pg_storage (PG := mem_pg false)) (fresh 0)))
    by done.
  assert (Hrun : rtc (served (PG := mem_pg false) default_policy no_clock orders_server) (fresh 0) after_put)
    by (apply rtc_once; exact (serve default_policy no_clock orders_server "PutItem" _ [] (fresh 0) Hop)).
  assert (Hs : cs_schemas (app_catalog orders_server) !! "Orders" = Some orders_schema) by (vm_compute; reflexivity).
  pose proof (session_invariant (PG := mem_pg false) default_policy no_clock orders_server default_policy_sane
    (mem_tables false) (or_intror mem_reliable) eq_refl orders_distinct Hlive (fresh 0) after_put) as Hthm.
  specialize (Hthm Hrun (fresh_idle 0) Hok). destruct Hthm as [Htx Hrows]. split; [exact Htx|].
  assert (Hrow : ms_committed (pg_srv after_put) "rekt_t_orders" order_key
    = Some (mkTrow order_doc {[ "gsi_owner" := KeyValue_S "ann" ]})) by (vm_compute; reflexivity).
  destruct (Hrows "Orders" orders_schema order_key _ Hs Hrow) as [Hty _].
  eexists. split; [exact Hrow|]. split; [exact Hty|]. vm_compute. reflexivity.
Defined.

(** ** The two routes of an update *)

(** A stored order gets a note. *)
Definition note_request : UpdateItemRequest :=
  mkUpdateItemRequest "Orders" [("id", S_ "o1")] "SET note = :n" None (Some [(":n", S_ "paid")]) None None.
Definition note_plan : UpdateItemPlan :=
  mkUpdateItemPlan (KeyValue_S "o1") None
    (mkUpdateExpression [mkSetClause (name_path "note") (SetRhs_Operand (Operand_Value (S_ "paid")))] [] [] [])
    None ReturnValuesMode_None.
Definition noted : Value := item_to_value [("id", S_ "o1"); ("note", S_ "paid"); ("owner", S_ "ann")].

Lemma orders_live_tables t s : cs_schemas (app_catalog orders_server) !! t = Some s ->
  table_def (PgServer := mem_pg false) (pg_table s) = Some (write_shape s).
Proof. by intros ->%orders_schemas. Qed.

Lemma after_put_safe :
  idle (PG := mem_pg false) after_put
  /\ store_ok (cs_schemas (app_catalog orders_server)) (rows (Storage := pg_storage (PG := mem_pg false)) after_put).
Proof.
  assert (Hop : data_handler orders_server "PutItem" = Some (handle_put_item orders_server)) by reflexivity.
  apply (served_safe (PG := mem_pg false) default_policy no_clock orders_server default_policy_sane (mem_tables false)
    (or_intror mem_reliable) eq_refl orders_distinct orders_live_tables (fresh 0)).
  - apply rtc_once. exact (serve default_policy no_clock orders_server "PutItem" _ [] (fresh 0) Hop).
  - apply fresh_idle.
  - done.
Qed.

(** Both routes, and the answer of the statement. *)
Lemma fast_path_witness :
  exists p, materialize_simple_update note_plan (update_key note_request) = Ok p
  /\ performs (H := pg_storage (PG := mem_pg false))
       (rmw_spec (write_shape orders_schema) order_key (update_semantics note_plan (update_key note_request)))
       (one_statement (PG := mem_pg false) default_policy no_clock orders_schema note_plan p) after_put
  /\ (one_statement (PG := mem_pg false) default_policy no_clock orders_schema note_plan p after_put).1
     = Ok (mkUpdateOutcome noted (Some order_doc)).
Proof.
  destruct after_put_safe as [Hi Hok].
  assert (Hs : cs_schemas (app_catalog orders_server) !! "Orders" = Some orders_schema) by (vm_compute; reflexivity).
  destruct (fast_path_equals_slow_path (PG := mem_pg false) default_policy no_clock orders_server default_policy_sane
    (mem_tables false) (or_intror mem_reliable) orders_live_tables
    "Orders" orders_schema note_request note_plan (Some order_item) after_put Hs) as (p & Hp & Hfast & _).
  - vm_compute. reflexivity.
  - reflexivity.
  - reflexivity.
  - exact Hi.
  - exact (Hok _ _ Hs).
  - vm_compute. reflexivity.
  - done.
  - exists p. split; [exact Hp|]. split; [exact Hfast|].
    vm_compute in Hp. injection Hp as <-. vm_compute. reflexivity.
Defined.

(** ** Lost replies *)

Definition old_doc : Value := item_to_value [("id", S_ "o1"); ("owner", S_ "bob")].
Definition with_old (lost : nat) : PgState MemSrv :=
  mkPgState (mkMemSrv (put_row "rekt_t_orders" order_key
    (Some (mkTrow old_doc {[ "gsi_owner" := KeyValue_S "bob" ]})) no_tables) None lost) ∅.

Definition row_of (st : PgState MemSrv) : option Value := docs (ms_committed (pg_srv st)) "rekt_t_orders" order_key.

(** A retry after a lost reply answers for the first attempt's
    effect. When the connection is lost between the effect of a statement
    and its reply, the statement is run again: an insert-only update that
    has just created the item answers that the condition failed, a
    PutItem that replaced an item answers with the new item as the old
    one, and a DeleteItem that removed an item answers that there was
    none. The rows are right in each case, the answers are not. *)
Theorem lost_reply_misreported :
  (let '(r, st) := @update_insert_only_raw _ (mem_backend true) orders order_doc (fresh 1) in
   row_of (fresh 1) = None /\ r = Err BackendError_ConditionalCheckFailed /\ row_of st = Some order_doc)
  /\ (let '(r, st) := @put_item_raw _ (mem_backend true) orders (KeyValue_S "o1") None order_doc (with_old 1) in
      row_of (with_old 1) = Some old_doc /\ r = Ok (Some order_doc) /\ row_of st = Some order_doc)
  /\ (let '(r, st) := @delete_item_raw _ (mem_backend true) orders (KeyValue_S "o1") None (with_old 1) in
      row_of (with_old 1) = Some old_doc /\ r = Ok None /\ row_of st = None).
Proof. vm_compute. split_and!; reflexivity. Qed.

(** ** The cache *)

(** The table created again with the key [email]. *)
Definition orders_again : TableShape :=
  mkTableShape "rekt_t_orders" "email" KeyType_S None None "data" (shape_dual_write_cols orders).

Lemma stale_sql_cache_witness :
  shape_sql orders_again (shape_sql orders (fresh 0)).2 = (Ok (shape_texts orders), (shape_sql orders (fresh 0)).2)
  /\ get_sql (shape_texts orders) <> get_sql (shape_texts orders_again).
Proof.
  assert (Hok : shape_ok orders) by (unfold shape_ok; simpl; done).
  split; [|by vm_compute].
  exact (stale_sql_cache orders orders_again (fresh 0) Hok eq_refl eq_refl eq_refl).
Defined.
