(* ===== verification/DdlTypes.v ===== *)
(** * Control-plane request and response types (rekt-protocol, [ddl.rs])

    The structs of CreateTable, UpdateTable, DeleteTable, DescribeTable
    and ListTables. A [serde_json::Value] field that the server accepts
    and ignores is kept as a [Value]; a timestamp (an [f64] of seconds) is
    kept as the whole number of milliseconds it is computed from. *)

From S2P Require Import Prelude Json.

Record KeySchemaElement : Type := mkKeySchemaElement {
  ks_attribute_name : string;
  ks_key_type : string
}.

Record AttributeDefinition : Type := mkAttributeDefinition {
  ad_attribute_name : string;
  ad_attribute_type : string
}.

Record ProvisionedThroughput : Type := mkProvisionedThroughput {
  read_capacity_units : Z;
  write_capacity_units : Z
}.

(** The three operational counters are never set. *)
Record ProvisionedThroughputDescription : Type := mkProvisionedThroughputDescription {
  ptd_read_capacity_units : option Z;
  ptd_write_capacity_units : option Z;
  ptd_number_of_decreases_today : option Z;
  ptd_last_increase_ms : option Z;
  ptd_last_decrease_ms : option Z
}.

Record BillingModeSummary : Type := mkBillingModeSummary {
  bms_billing_mode : option string;
  bms_last_update_to_pay_per_request_ms : option Z
}.

Record Projection : Type := mkProjection {
  pj_projection_type : option string;
  pj_non_key_attributes : option (list string)
}.

Record GlobalSecondaryIndex : Type := mkGlobalSecondaryIndex {
  gsi_index_name : string;
  gsi_key_schema : list KeySchemaElement;
  gsi_projection : Projection;
  gsi_provisioned_throughput : option ProvisionedThroughput;
  gsi_on_demand_throughput : option Value
}.

Record GlobalSecondaryIndexDescription : Type := mkGlobalSecondaryIndexDescription {
  gd_index_name : option string;
  gd_key_schema : option (list KeySchemaElement);
  gd_projection : option Projection;
  gd_index_status : option string;
  gd_backfilling : option bool;
  gd_provisioned_throughput : option ProvisionedThroughputDescription;
  gd_index_size_bytes : option Z;
  gd_item_count : option Z;
  gd_index_arn : option string
}.

Record UpdateGlobalSecondaryIndexAction : Type := mkUpdateGlobalSecondaryIndexAction {
  ua_index_name : string;
  ua_provisioned_throughput : ProvisionedThroughput
}.

Record DeleteGlobalSecondaryIndexAction : Type := mkDeleteGlobalSecondaryIndexAction {
  da_index_name : string
}.

Record GlobalSecondaryIndexUpdate : Type := mkGlobalSecondaryIndexUpdate {
  gu_create : option GlobalSecondaryIndex;
  gu_update : option UpdateGlobalSecondaryIndexAction;
  gu_delete : option DeleteGlobalSecondaryIndexAction
}.

Record LocalSecondaryIndex : Type := mkLocalSecondaryIndex {
  lsi_index_name : string;
  lsi_key_schema : list KeySchemaElement;
  lsi_projection : Projection
}.

Record LocalSecondaryIndexDescription : Type := mkLocalSecondaryIndexDescription {
  ld_index_name : option string;
  ld_key_schema : option (list KeySchemaElement);
  ld_projection : option Projection;
  ld_index_size_bytes : option Z;
  ld_item_count : option Z;
  ld_index_arn : option string
}.

Record StreamSpecification : Type := mkStreamSpecification {
  stream_enabled : bool;
  stream_view_type : option string
}.

Record Tag : Type := mkTag { tag_key : string; tag_value : string }.

Record TableClassSummary : Type := mkTableClassSummary {
  tcs_table_class : option string;
  tcs_last_update_ms : option Z
}.

Record TableDescription : Type := mkTableDescription {
  td_table_name : option string;
  td_table_status : option string;
  td_table_arn : option string;
  td_table_id : option string;
  td_creation_date_ms : option Z;
  td_key_schema : option (list KeySchemaElement);
  td_attribute_definitions : option (list AttributeDefinition);
  td_provisioned_throughput : option ProvisionedThroughputDescription;
  td_billing_mode_summary : option BillingModeSummary;
  td_item_count : option Z;
  td_table_size_bytes : option Z;
  td_global_secondary_indexes : option (list GlobalSecondaryIndexDescription);
  td_local_secondary_indexes : option (list LocalSecondaryIndexDescription);
  td_stream_specification : option StreamSpecification;
  td_latest_stream_label : option string;
  td_latest_stream_arn : option string;
  td_table_class_summary : option TableClassSummary;
  td_deletion_protection_enabled : option bool
}.

Record CreateTableRequest : Type := mkCreateTableRequest {
  ct_table_name : string;
  ct_key_schema : list KeySchemaElement;
  ct_attribute_definitions : list AttributeDefinition;
  ct_billing_mode : option string;
  ct_provisioned_throughput : option ProvisionedThroughput;
  ct_global_secondary_indexes : option (list GlobalSecondaryIndex);
  ct_local_secondary_indexes : option (list LocalSecondaryIndex);
  ct_stream_specification : option StreamSpecification;
  ct_tags : option (list Tag);
  ct_table_class : option string;
  ct_deletion_protection_enabled : option bool;
  ct_sse_specification : option Value;
  ct_resource_policy : option Value;
  ct_on_demand_throughput : option Value
}.

Record DeleteTableRequest : Type := mkDeleteTableRequest { dt_table_name : string }.
Record DescribeTableRequest : Type := mkDescribeTableRequest { dsc_table_name : string }.

(** [limit] is a [u32]. *)
Record ListTablesRequest : Type := mkListTablesRequest {
  lt_exclusive_start_table_name : option string;
  lt_limit : option N
}.
Record ListTablesResponse : Type := mkListTablesResponse {
  lt_table_names : list string;
  lt_last_evaluated_table_name : option string
}.

Record UpdateTableRequest : Type := mkUpdateTableRequest {
  ut_table_name : string;
  ut_attribute_definitions : option (list AttributeDefinition);
  ut_billing_mode : option string;
  ut_provisioned_throughput : option ProvisionedThroughput;
  ut_global_secondary_index_updates : option (list GlobalSecondaryIndexUpdate);
  ut_stream_specification : option StreamSpecification;
  ut_sse_specification : option Value;
  ut_replica_updates : option (list Value);
  ut_table_class : option string;
  ut_deletion_protection_enabled : option bool;
  ut_on_demand_throughput : option Value
}.

#[export] Instance KeySchemaElement_eq_dec : EqDecision KeySchemaElement.
Proof. solve_decision. Defined.
#[export] Instance AttributeDefinition_eq_dec : EqDecision AttributeDefinition.
Proof. solve_decision. Defined.
#[export] Instance Projection_eq_dec : EqDecision Projection.
Proof. solve_decision. Defined.
