(* ===== verification/Naming.v ===== *)
(** * Physical names (rekt-ddl, [naming.rs])

    The PostgreSQL identifier derived from a table name and from an index
    name. Strings are UTF-8 byte strings: [chars()] yields one character
    per byte that does not continue a character. SHA-1 is a parameter. *)

From S2P Require Import Prelude RustStr.

(** The digest of the [sha1] crate, 20 bytes. *)
Class Sha1 : Type := {
  sha1 : string -> list Byte.byte;
  sha1_length : forall s, length (sha1 s) = 20%nat
}.

Definition PG_IDENT_MAX : nat := 63.
Definition PREFIX : string := "rekt_t_".

Definition is_continuation (c : ascii) : bool := in_range 128 191 c.

(** The closure of [chars().map(..)]. *)
Definition sanitize_char (c : ascii) : ascii :=
  if is_ascii_alphanumeric c then to_ascii_lowercase c else "_"%char.

(** [name.chars().map(..).collect()]. *)
Fixpoint sanitize_chars (s : string) : string :=
  match s with
  | EmptyString => EmptyString
  | String c s' =>
      if is_continuation c then sanitize_chars s' else String (sanitize_char c) (sanitize_chars s')
  end.

(** [trim_start_matches('_')]. *)
Fixpoint trim_underscores (s : string) : string :=
  match s with
  | String c s' => if Ascii.eqb c "_"%char then trim_underscores s' else s
  | EmptyString => EmptyString
  end.

(** [chars().take(n).collect()] of an ASCII string. *)
Fixpoint str_take (n : nat) (s : string) : string :=
  match n, s with
  | S n', String c s' => String c (str_take n' s')
  | _, _ => EmptyString
  end.

(** [format!("{b:02x}")]. *)
Definition hex_nibble (n : nat) : ascii := ascii_of_nat (if Nat.ltb n 10 then 48 + n else 87 + n).
Definition hex_byte (b : Byte.byte) : string :=
  let n := N.to_nat (Byte.to_N b) in
  String (hex_nibble (n / 16)) (String (hex_nibble (n mod 16)) EmptyString).
(** [digest.iter().take(4).map(..).collect()]. *)
Definition hex8 (digest : list Byte.byte) : string := String.concat "" (map hex_byte (take 4 digest)).

Section naming.
Context {SH : Sha1}.

Definition derive_index_name (pg_table index_name infix : string) : string :=
  let sanitized := trim_underscores (sanitize_chars index_name) in
  let candidate := pg_table +:+ infix +:+ sanitized +:+ "_idx" in
  if Nat.leb (String.length candidate) PG_IDENT_MAX then candidate
  else
    let h := hex8 (sha1 (pg_table +:+ "::" +:+ infix +:+ index_name)) in
    let fixed_len := (String.length pg_table + String.length infix + String.length "_"
                      + String.length h + String.length "_idx")%nat in
    let body_budget := (PG_IDENT_MAX - fixed_len)%nat in
    pg_table +:+ infix +:+ str_take body_budget sanitized +:+ "_" +:+ h +:+ "_idx".

Definition derive_gsi_index_name (pg_table gsi_name : string) : string :=
  derive_index_name pg_table gsi_name "_gsi_".
Definition derive_lsi_index_name (pg_table lsi_name : string) : string :=
  derive_index_name pg_table lsi_name "_lsi_".

Definition sanitize_pg_table_name (ddb_name : string) : string :=
  let stripped := trim_underscores (sanitize_chars ddb_name) in
  let candidate := PREFIX +:+ stripped in
  if Nat.leb (String.length candidate) PG_IDENT_MAX then candidate
  else
    let body_budget := (PG_IDENT_MAX - String.length PREFIX - 9)%nat in
    PREFIX +:+ str_take body_budget stripped +:+ "_" +:+ hex8 (sha1 ddb_name).
End naming.

(** ** Facts *)

(** The characters of a derived name. *)
Definition ident_char (c : ascii) : bool := is_ascii_lower c || is_ascii_digit c || Ascii.eqb c "_"%char.

Lemma all_ascii (P : ascii -> bool) : forallb P (map ascii_of_nat (seq 0 256)) = true -> forall c, P c = true.
Proof.
  intros H c. rewrite forallb_forall in H. apply H. rewrite <- (ascii_nat_embedding c).
  apply in_map. apply in_seq. pose proof (nat_ascii_bounded c). lia.
Qed.

Lemma sanitize_char_ident c : ident_char (sanitize_char c) = true.
Proof. revert c. apply all_ascii. vm_compute. reflexivity. Qed.

Lemma str_forall_sanitize s : str_forall ident_char (sanitize_chars s) = true.
Proof.
  induction s as [|c s IH]; [done|]. simpl. destruct (is_continuation c); [done|].
  cbn [str_forall]. by rewrite sanitize_char_ident.
Qed.

Lemma str_forall_trim f s : str_forall f s = true -> str_forall f (trim_underscores s) = true.
Proof.
  induction s as [|c s IH]; [done|]. simpl. intros [Hc Hs]%andb_prop.
  destruct (Ascii.eqb c "_"%char); [by apply IH|]. cbn [str_forall]. by rewrite Hc, Hs.
Qed.

Lemma str_forall_take f n s : str_forall f s = true -> str_forall f (str_take n s) = true.
Proof.
  revert s. induction n as [|n IH]; intros [|c s]; try done. simpl. intros [Hc Hs]%andb_prop.
  rewrite Hc. by apply IH.
Qed.

Lemma length_app_str s t : String.length (s +:+ t) = (String.length s + String.length t)%nat.
Proof. induction s as [|c s IH]; [done|]. cbn [String.append String.length]. lia. Qed.

Lemma length_str_take n s : String.length (str_take n s) = Nat.min n (String.length s).
Proof. revert s. induction n as [|n IH]; intros [|c s]; try done. simpl. by rewrite IH. Qed.

Lemma str_take_all n s : (String.length s <= n)%nat -> str_take n s = s.
Proof.
  revert s. induction n as [|n IH]; intros [|c s]; simpl; try done; intros H; [lia|].
  f_equal. apply IH. lia.
Qed.

Lemma str_take_app n s t :
  str_take n (s +:+ t) = str_take n s +:+ str_take (n - String.length s) t.
Proof.
  revert s. induction n as [|n IH]; intros [|c s]; [done..|].
  cbn [String.append str_take String.length]. by rewrite IH.
Qed.

Lemma hex8_shape (d : list Byte.byte) :
  length d = 20%nat -> String.length (hex8 d) = 8%nat /\ str_forall ident_char (hex8 d) = true.
Proof.
  intros Hd. destruct d as [|a [|b [|c [|e d]]]]; try discriminate Hd. unfold hex8. cbn [take map].
  assert (Hn : forall n, (n < 16)%nat -> ident_char (hex_nibble n) = true).
  { intros n Hn. do 16 (destruct n as [|n]; [reflexivity|]). lia. }
  assert (Hb : forall x, exists p q, hex_byte x = String p (String q EmptyString)
                         /\ ident_char p = true /\ ident_char q = true).
  { intros x. unfold hex_byte. do 2 eexists. split; [done|].
    assert (N.to_nat (Byte.to_N x) < 256)%nat by (pose proof (Byte.to_N_bounded x); lia).
    split; apply Hn; [apply Nat.Div0.div_lt_upper_bound; lia|]. apply Nat.mod_upper_bound; lia. }
  destruct (Hb a) as (p1 & q1 & -> & H1 & H2), (Hb b) as (p2 & q2 & -> & H3 & H4),
    (Hb c) as (p3 & q3 & -> & H5 & H6), (Hb e) as (p4 & q4 & -> & H7 & H8).
  simpl. by rewrite H1, H2, H3, H4, H5, H6, H7, H8.
Qed.

Section naming_facts.
Context {SH : Sha1}.

Lemma sha1_hex8 s : String.length (hex8 (sha1 s)) = 8%nat /\ str_forall ident_char (hex8 (sha1 s)) = true.
Proof. apply hex8_shape, sha1_length. Qed.

(** C32: whatever the name a client sends, the derived table name is at
    most 63 bytes, starts with [rekt_t_] and uses only lower-case letters,
    digits and underscores, so PostgreSQL neither folds, truncates nor
    needs to quote it. *)
Theorem table_name_is_identifier ddb_name :
  let n := sanitize_pg_table_name ddb_name in
  (String.length n <= PG_IDENT_MAX)%nat /\ str_forall ident_char n = true /\ starts_with n PREFIX = true.
Proof.
  cbv zeta. unfold sanitize_pg_table_name.
  set (body := trim_underscores (sanitize_chars ddb_name)).
  assert (Hbody : str_forall ident_char body = true) by apply str_forall_trim, str_forall_sanitize.
  destruct (Nat.leb _ _) eqn:Hle.
  - apply Nat.leb_le in Hle. split; [done|]. split; [|done]. by rewrite str_forall_app, Hbody.
  - destruct (sha1_hex8 ddb_name) as [Hl Hc]. split; [|split; [|done]].
    + rewrite !length_app_str, length_str_take, Hl. change (String.length PREFIX) with 7%nat.
      change (String.length "_") with 1%nat. unfold PG_IDENT_MAX. lia.
    + rewrite !str_forall_app, Hc, str_forall_take by done. done.
Qed.

Lemma index_name_length pg_table index_name infix :
  String.length infix = 5%nat ->
  (String.length (derive_index_name pg_table index_name infix) <= PG_IDENT_MAX)%nat
  <-> (String.length pg_table + 5
        + String.length (trim_underscores (sanitize_chars index_name)) + 4 <= PG_IDENT_MAX
      \/ String.length pg_table + 18 <= PG_IDENT_MAX)%nat.
Proof.
  intros Hi. unfold derive_index_name. cbv zeta.
  set (san := trim_underscores _). set (d := pg_table +:+ "::" +:+ infix +:+ index_name).
  destruct (sha1_hex8 d) as [Hl _].
  destruct (Nat.leb _ _) eqn:Hle.
  - apply Nat.leb_le in Hle. rewrite !length_app_str, Hi in Hle |- *. simpl in *. unfold PG_IDENT_MAX in *. lia.
  - apply Nat.leb_gt in Hle. rewrite !length_app_str, length_str_take, Hl, Hi in *. simpl in *.
    unfold PG_IDENT_MAX in *. lia.
Qed.
End naming_facts.

(** What the server makes of an identifier: it keeps the first 63 bytes. *)
Definition truncate_identifier (s : string) : string := str_take PG_IDENT_MAX s.

(** A table whose derived name has 45 bytes or fewer gets index names the
    server keeps whole. *)
Lemma index_name_fits {SH : Sha1} pg_table index_name infix :
  String.length infix = 5%nat -> (String.length pg_table <= 45)%nat ->
  truncate_identifier (derive_index_name pg_table index_name infix) = derive_index_name pg_table index_name infix.
Proof.
  intros Hi Hp. apply str_take_all. apply index_name_length; [done|]. right. unfold PG_IDENT_MAX. lia.
Qed.

(** From 58 bytes on, the identifier the server uses does not depend on
    the index: it is a prefix of the table name and the infix. *)
Lemma index_name_truncated {SH : Sha1} pg_table index_name infix :
  String.length infix = 5%nat -> (58 <= String.length pg_table <= PG_IDENT_MAX)%nat ->
  truncate_identifier (derive_index_name pg_table index_name infix)
  = pg_table +:+ str_take (PG_IDENT_MAX - String.length pg_table) infix.
Proof.
  intros Hi Hp. unfold truncate_identifier, derive_index_name. cbv zeta.
  destruct (Nat.leb _ _) eqn:Hle.
  { apply Nat.leb_le in Hle. rewrite !length_app_str, Hi in Hle. simpl in Hle. unfold PG_IDENT_MAX in *. lia. }
  rewrite str_take_app, str_take_all by lia. f_equal.
  rewrite str_take_app, Hi. replace (_ - _ - 5)%nat with 0%nat by (unfold PG_IDENT_MAX in *; lia).
  simpl. generalize (str_take (PG_IDENT_MAX - String.length pg_table) infix). intros s.
  induction s as [|c s IH]; [done|]. simpl. by f_equal.
Qed.

(** on a table whose derived name has 58 bytes or more (a client name
    of 51 letters is enough) every index of one kind gets the same
    identifier in PostgreSQL, because the derived index name is longer than
    63 bytes and its first 63 do not contain the index name: the second
    [CREATE INDEX IF NOT EXISTS] does nothing. On names of 45 bytes or
    fewer the derived index name is kept whole. *)
Theorem long_table_index_names_collide {SH : Sha1} pg_table index1 index2 :
  ((String.length pg_table <= 45)%nat ->
   truncate_identifier (derive_gsi_index_name pg_table index1) = derive_gsi_index_name pg_table index1)
  /\ ((58 <= String.length pg_table <= PG_IDENT_MAX)%nat ->
      truncate_identifier (derive_gsi_index_name pg_table index1)
      = truncate_identifier (derive_gsi_index_name pg_table index2)
      /\ truncate_identifier (derive_gsi_index_name pg_table index1) <> derive_gsi_index_name pg_table index1).
Proof.
  unfold derive_gsi_index_name. split; [by apply index_name_fits|].
  intros Hp. rewrite !index_name_truncated by done. split; [done|].
  intros Heq%(f_equal String.length). revert Heq.
  pose proof (proj1 (index_name_length pg_table index1 "_gsi_" eq_refl)) as H.
  rewrite length_app_str, length_str_take. simpl String.length at 2. unfold PG_IDENT_MAX in *. simpl String.length at 2.
  lia.
Qed.

(** ** SHA-1

    FIPS 180-4, as an instance of the parameter. *)
Module Sha1Reference.
Definition w32 (n : N) : N := N.land n 4294967295.
Definition add (a b : N) : N := w32 (a + b).
Definition rotl (k a : N) : N := N.lor (w32 (N.shiftl a k)) (N.shiftr a (32 - k)).
Definition inv (a : N) : N := N.lxor a 4294967295.

Definition big_endian (n : nat) (v : N) : list N :=
  map (fun i => N.land (N.shiftr v (8 * N.of_nat (n - 1 - i))) 255) (seq 0 n).
Definition padded (m : list N) : list N :=
  let len := length m in
  m ++ [128%N] ++ repeat 0%N ((119 - len mod 64) mod 64) ++ big_endian 8 (8 * N.of_nat len).

Fixpoint words (l : list N) : list N :=
  match l with
  | a :: b :: c :: d :: l' => (N.shiftl a 24 + N.shiftl b 16 + N.shiftl c 8 + d)%N :: words l'
  | _ => []
  end.
(** The message schedule, most recent word first. *)
Fixpoint extend (k : nat) (w : list N) : list N :=
  match k with
  | O => w
  | S k' => let x i := nth i w 0%N in
            extend k' (rotl 1 (N.lxor (N.lxor (x 2%nat) (x 7%nat)) (N.lxor (x 13%nat) (x 15%nat))) :: w)
  end.

Definition State : Type := N * N * N * N * N.
Definition fk (t : nat) (b c d : N) : N * N :=
  if Nat.ltb t 20 then (N.lor (N.land b c) (N.land (inv b) d), 1518500249%N)
  else if Nat.ltb t 40 then (N.lxor b (N.lxor c d), 1859775393%N)
  else if Nat.ltb t 60 then (N.lor (N.land b c) (N.lor (N.land b d) (N.land c d)), 2400959708%N)
  else (N.lxor b (N.lxor c d), 3395469782%N).
Definition round (st : State) (tw : nat * N) : State :=
  let '(a, b, c, d, e) := st in
  let '(f, k) := fk tw.1 b c d in
  (add (add (add (rotl 5 a) f) (add e k)) tw.2, a, rotl 30 b, c, d).
Definition block (st : State) (w : list N) : State :=
  let '(a, b, c, d, e) := st in
  let sched := rev (extend 64 (rev w)) in
  let '(a', b', c', d', e') := fold_left round (zip (seq 0 80) sched) st in
  (add a a', add b b', add c c', add d d', add e e').
Fixpoint blocks (n : nat) (st : State) (w : list N) : State :=
  match n with
  | O => st
  | S n' => match w with [] => st | _ => blocks n' (block st (take 16 w)) (drop 16 w) end
  end.
Definition to_byte (n : N) : Byte.byte := default Byte.x00 (Byte.of_N n).
Definition digest (s : string) : list Byte.byte :=
  let m := map (fun c => N.of_nat (nat_of_ascii c)) (list_ascii_of_string s) in
  let w := words (padded m) in
  let '(a, b, c, d, e) := blocks (length w) (1732584193, 4023233417, 2562383102, 271733878, 3285377520)%N w in
  map to_byte (concat (map (big_endian 4) [a; b; c; d; e])).

Lemma digest_length s : length (digest s) = 20%nat.
Proof. unfold digest. destruct (blocks _ _ _) as [[[[a b] c] d] e]. reflexivity. Qed.

Definition instance : Sha1 := {| sha1 := digest; sha1_length := digest_length |}.

Example digest_abc : hex8 (digest "abc") = "a9993e36".
Proof. vm_compute. reflexivity. Qed.
Example digest_two_blocks :
  hex8 (digest "abcdbcdecdefdefgefghfghighijhijkijkljklmklmnlmnomnopnopq") = "84983e44".
Proof. vm_compute. reflexivity. Qed.
End Sha1Reference.

Definition long_name : string := "rekt_t_" +:+ "aaaaaaaaaaaaaaaaaaaaaaaaaaaaaaaaaaaaaaaaaaaaaaaaaaa".

Lemma long_table_index_names_collide_witness :
  truncate_identifier (derive_gsi_index_name (SH := Sha1Reference.instance) long_name "by-tier")
  = truncate_identifier (derive_gsi_index_name (SH := Sha1Reference.instance) long_name "by-date").
Proof.
  apply (long_table_index_names_collide (SH := Sha1Reference.instance) long_name "by-tier" "by-date").
  vm_compute. lia.
Defined.
