(* ===== verification/Validation.v ===== *)
(** * Control-plane request validation (rekt-ddl, [validation.rs])

    The checks of CreateTable and UpdateTable on the request body, in the
    order of the source, and the typed plan they produce. A [HashMap] that
    is only looked up is a [gmap], a [HashSet] a [gset]; the one iteration
    over a [HashSet] goes in an arbitrary order, a parameter. *)

From S2P Require Import Prelude RustStr BTree Json Storage Catalog Reconciler ApiError DdlTypes.

(** The iteration order of a [HashSet<&str>]. *)
Class SetIter : Type := {
  set_iter : gset string -> list string;
  set_iter_elements : forall s x, x ∈ set_iter s <-> x ∈ s
}.

Definition is_valid_table_name_char (c : ascii) : bool :=
  is_ascii_alphanumeric c || Ascii.eqb c "_" || Ascii.eqb c "." || Ascii.eqb c "-".

Definition RESERVED_PREFIX : string := "_rektifier_".
Definition MIN_ATTR_NAME_BYTES : nat := 1.
Definition MAX_ATTR_NAME_BYTES : nat := 255.
Definition MAX_KEY_SCHEMA_LEN : nat := 2.
Definition MAX_LSIS_PER_TABLE : nat := 5.

Record LsiPlan : Type := mkLsiPlan {
  lp_name : string;
  lp_sort_attr : string;
  lp_sort_type : KeyType;
  lp_projection_type : option string;
  lp_projection_non_key_attrs : option (list string)
}.

Record GsiPlan : Type := mkGsiPlan {
  gp_name : string;
  gp_partition_attr : string;
  gp_partition_type : KeyType;
  gp_sort_attr : option string;
  gp_sort_type : option KeyType;
  gp_projection_type : option string;
  gp_projection_non_key_attrs : option (list string)
}.

Record CreateTablePlan : Type := mkCreateTablePlan {
  cp_table_name : string;
  cp_pk_attr : string;
  cp_pk_type : KeyType;
  cp_sk_attr : option string;
  cp_sk_type : option KeyType;
  cp_jsonb_col : string;
  cp_billing_mode : option string;
  cp_provisioned_rcu : option Z;
  cp_provisioned_wcu : option Z;
  cp_tags : Value;
  cp_lsis : list LsiPlan;
  cp_gsis : list GsiPlan
}.

(** ** Helpers *)

#[local] Notation Checked := (Result DdlError).

Definition invalid {A} (message : string) : Checked A := Err (DdlError_Validation message).
Definition show_nat (n : nat) : string := usize_to_string (N.of_nat n).
(** [{n}] of an [i64]. *)
Definition show_i64 (z : Z) : string :=
  match z with
  | Zneg p => "-" +:+ usize_to_string (Npos p)
  | _ => usize_to_string (Z.to_N z)
  end.
Definition in_table (table_name rest : string) : string := "table `" +:+ table_name +:+ "`: " +:+ rest.

Definition name_chars_ok (name : string) : bool := str_forall is_valid_table_name_char name.
(** [name.len() < 3 || name.len() > 255]. *)
Definition name_length_bad (name : string) : bool :=
  Nat.ltb (String.length name) 3 || Nat.ltb 255 (String.length name).

(** ** Names *)

Definition validate_table_name_simple (name : string) : Checked unit :=
  if name_length_bad name
  then invalid ("table name `" +:+ name +:+ "` must be between 3 and 255 characters")
  else if negb (name_chars_ok name)
  then invalid ("table name `" +:+ name +:+ "` contains characters outside [a-zA-Z0-9_.-]")
  else Ok tt.

Definition validate_table_name (name : string) : Checked unit :=
  if name_length_bad name
  then invalid ("table name `" +:+ name +:+ "` must be between 3 and 255 characters")
  else if negb (name_chars_ok name)
  then invalid ("table name `" +:+ name +:+ "` contains characters outside [a-zA-Z0-9_.-]")
  else if starts_with (str_lower name) RESERVED_PREFIX
  then invalid ("table names with the `_rektifier_` prefix are reserved (got `" +:+ name +:+ "`)")
  else Ok tt.

(** [validate_gsi_index_name] and [validate_lsi_index_name], which differ
    in the kind they name. *)
Definition validate_index_name (kind table_name name : string) : Checked unit :=
  if name_length_bad name
  then invalid (in_table table_name (kind +:+ " IndexName `" +:+ name +:+ "` must be between 3 and 255 characters"))
  else if negb (name_chars_ok name)
  then invalid (in_table table_name (kind +:+ " IndexName `" +:+ name +:+ "` contains characters outside [a-zA-Z0-9_.-]"))
  else Ok tt.
Definition validate_gsi_index_name : string -> string -> Checked unit := validate_index_name "GSI".
Definition validate_lsi_index_name : string -> string -> Checked unit := validate_index_name "LSI".

Definition check_attr_name (table_name name : string) : Checked unit :=
  let bytes := String.length name in
  if negb (Nat.leb MIN_ATTR_NAME_BYTES bytes && Nat.leb bytes MAX_ATTR_NAME_BYTES)
  then invalid (in_table table_name ("attribute name `" +:+ name +:+ "` must be "
         +:+ show_nat MIN_ATTR_NAME_BYTES +:+ "..=" +:+ show_nat MAX_ATTR_NAME_BYTES
         +:+ " bytes (got " +:+ show_nat bytes +:+ ")"))
  else Ok tt.

Definition check_key_names (table_name : string) (ks : list KeySchemaElement) : Checked unit :=
  for_each (fun kse => check_attr_name table_name (ks_attribute_name kse)) ks.

Definition validate_attribute_names (table_name : string) (req : CreateTableRequest) : Checked unit :=
  let? _ := for_each (fun ad => check_attr_name table_name (ad_attribute_name ad))
              (ct_attribute_definitions req) in
  let? _ := check_key_names table_name (ct_key_schema req) in
  let? _ := match ct_global_secondary_indexes req with
            | Some gsis => for_each (fun gsi => check_key_names table_name (gsi_key_schema gsi)) gsis
            | None => Ok tt
            end in
  match ct_local_secondary_indexes req with
  | Some lsis => for_each (fun lsi => check_key_names table_name (lsi_key_schema lsi)) lsis
  | None => Ok tt
  end.

Definition validate_attribute_definitions_nonempty (table_name : string) (req : CreateTableRequest)
  : Checked unit :=
  match ct_attribute_definitions req with
  | [] => invalid (in_table table_name "AttributeDefinitions must contain at least one entry")
  | _ => Ok tt
  end.

(** ** Key schemas *)

Definition validate_key_schema_shape (table_name : string) (key_schema : list KeySchemaElement) : Checked unit :=
  match key_schema with
  | [] => invalid (in_table table_name "KeySchema must contain at least one entry (a HASH partition key is required)")
  | _ =>
      if Nat.ltb MAX_KEY_SCHEMA_LEN (length key_schema)
      then invalid (in_table table_name ("KeySchema has " +:+ show_nat (length key_schema)
             +:+ " entries; the maximum is " +:+ show_nat MAX_KEY_SCHEMA_LEN +:+ " (HASH + optional RANGE)"))
      else Ok tt
  end.

(** The walk over the entries shared by the base table
    ([validate_key_schema_and_attrs]), a GSI ([validate_gsi_key_schema],
    which records that it saw an entry rather than its name) and an LSI
    ([validate_lsi_key_schema_shape]); [what] is the context of the
    messages. *)
Definition key_step (what : string) (st : option string * option string) (kse : KeySchemaElement)
  : Checked (option string * option string) :=
  let '(pk, sk) := st in
  if String.eqb (ks_key_type kse) "HASH"
  then match pk with
       | Some _ => invalid (what +:+ "KeySchema has more than one HASH entry")
       | None => Ok (Some (ks_attribute_name kse), sk)
       end
  else if String.eqb (ks_key_type kse) "RANGE"
  then match sk with
       | Some _ => invalid (what +:+ "KeySchema has more than one RANGE entry")
       | None => Ok (pk, Some (ks_attribute_name kse))
       end
  else invalid (what +:+ "KeySchema KeyType must be HASH or RANGE (got `" +:+ ks_key_type kse +:+ "`)").
Definition key_walk (what : string) (ks : list KeySchemaElement) : Checked (option string * option string) :=
  fold_result (key_step what) (None, None) ks.

Definition gsi_context (table_name index_name : string) : string :=
  in_table table_name ("GSI `" +:+ index_name +:+ "`: ").
Definition lsi_context (table_name index_name : string) : string :=
  in_table table_name ("LSI `" +:+ index_name +:+ "`: ").

Definition validate_gsi_key_schema (table_name : string) (gsi : GlobalSecondaryIndex) : Checked unit :=
  let what := gsi_context table_name (gsi_index_name gsi) in
  match gsi_key_schema gsi with
  | [] => invalid (what +:+ "KeySchema must contain at least one entry (HASH required)")
  | ks =>
      if Nat.ltb MAX_KEY_SCHEMA_LEN (length ks)
      then invalid (what +:+ "KeySchema has " +:+ show_nat (length ks) +:+ " entries; the maximum is "
                    +:+ show_nat MAX_KEY_SCHEMA_LEN +:+ " (HASH + optional RANGE)")
      else
        let? (saw_hash, _) := key_walk what ks in
        match saw_hash with
        | None => invalid (what +:+ "KeySchema must contain exactly one HASH entry")
        | Some _ => Ok tt
        end
  end.

Definition validate_lsi_key_schema_shape (table_name : string) (lsi : LocalSecondaryIndex)
  : Checked (string * string) :=
  let what := lsi_context table_name (lsi_index_name lsi) in
  if negb (Nat.eqb (length (lsi_key_schema lsi)) 2)
  then invalid (what +:+ "KeySchema must have exactly 2 entries (HASH + RANGE); got "
                +:+ show_nat (length (lsi_key_schema lsi)))
  else
    let? (hash_attr, range_attr) := key_walk what (lsi_key_schema lsi) in
    let? h := ok_or hash_attr (DdlError_Validation (what +:+ "KeySchema must contain exactly one HASH entry")) in
    let? r := ok_or range_attr (DdlError_Validation
                (what +:+ "KeySchema must contain exactly one RANGE entry (LSIs require a sort key)")) in
    Ok (h, r).

(** ** Attribute definitions *)

Definition parse_attribute_type (table_name attr_name raw : string) : Checked KeyType :=
  if String.eqb raw "S" then Ok KeyType_S
  else if String.eqb raw "N" then Ok KeyType_N
  else if String.eqb raw "B" then Ok KeyType_B
  else invalid (in_table table_name ("attribute `" +:+ attr_name +:+ "` has invalid AttributeType `" +:+ raw
                +:+ "` (expected S | N | B)")).

(** The type map of [validate_gsi_plans], [validate_lsi_structures] and
    [validate_update_table_gsi_create]: a later entry replaces an earlier
    one. *)
Definition attr_defs (table_name : string) (ads : list AttributeDefinition) : Checked (gmap string KeyType) :=
  fold_result (fun (defs : gmap string KeyType) ad =>
                 let? kt := parse_attribute_type table_name (ad_attribute_name ad) (ad_attribute_type ad) in
                 Ok (<[ad_attribute_name ad := kt]> defs)) ∅ ads.

(** The one of [validate_key_schema_and_attrs], which rejects a second
    entry. *)
Definition attr_defs_distinct (table_name : string) (ads : list AttributeDefinition)
  : Checked (gmap string KeyType) :=
  fold_result (fun (defs : gmap string KeyType) ad =>
                 let? kt := parse_attribute_type table_name (ad_attribute_name ad) (ad_attribute_type ad) in
                 match defs !! ad_attribute_name ad with
                 | Some _ => invalid (in_table table_name ("AttributeDefinitions has duplicate entry for `"
                                      +:+ ad_attribute_name ad +:+ "`"))
                 | None => Ok (<[ad_attribute_name ad := kt]> defs)
                 end) ∅ ads.

Definition key_attr_names (ks : list KeySchemaElement) : list string := map ks_attribute_name ks.
Definition or_empty {A} (o : option (list A)) : list A := default [] o.

(** [keyed]: the attributes of every key schema of the request. *)
Definition keyed_attrs (pk_attr : string) (sk : option string) (req : CreateTableRequest) : gset string :=
  {[pk_attr]} ∪ list_to_set (option_list sk)
  ∪ list_to_set (concat (map (fun g => key_attr_names (gsi_key_schema g)) (or_empty (ct_global_secondary_indexes req))))
  ∪ list_to_set (concat (map (fun l => key_attr_names (lsi_key_schema l)) (or_empty (ct_local_secondary_indexes req)))).

Definition check_defined (table_name : string) (defs : gmap string KeyType) (k : string) : Checked unit :=
  match defs !! k with
  | Some _ => Ok tt
  | None => invalid (in_table table_name ("KeySchema references attribute `" +:+ k
                     +:+ "` which has no AttributeDefinitions entry"))
  end.

Section validation.
Context {SI : SetIter}.

Definition validate_key_schema_and_attrs (table_name : string) (req : CreateTableRequest)
  : Checked (string * KeyType * option string * option KeyType) :=
  let? (pk, sk) := key_walk (in_table table_name "") (ct_key_schema req) in
  let? pk_attr := ok_or pk (DdlError_Validation
                    (in_table table_name "KeySchema must contain exactly one HASH entry")) in
  let? defs := attr_defs_distinct table_name (ct_attribute_definitions req) in
  let keyed := keyed_attrs pk_attr sk req in
  let? _ := for_each (check_defined table_name defs) (set_iter keyed) in
  let unused := List.filter (fun n => negb (bool_decide (n ∈ keyed)))
                  (map ad_attribute_name (ct_attribute_definitions req)) in
  match unused with
  | _ :: _ => invalid (in_table table_name ("AttributeDefinitions has unused entries: " +:+ debug_vec unused))
  | [] =>
      let? pk_type := expect (defs !! pk_attr) in
      let? sk_type := match sk with
                      | Some s => let? t := expect (defs !! s) in Ok (Some t)
                      | None => Ok None
                      end in
      Ok (pk_attr, pk_type, sk, sk_type)
  end.

(** ** Global secondary indexes *)

Definition validate_gsi_structures (table_name : string) (req : CreateTableRequest) : Checked unit :=
  let? _ := fold_result (fun (seen : gset string) gsi =>
              let? _ := validate_gsi_index_name table_name (gsi_index_name gsi) in
              if bool_decide (gsi_index_name gsi ∈ seen)
              then invalid (in_table table_name ("GlobalSecondaryIndexes has duplicate IndexName `"
                                                 +:+ gsi_index_name gsi +:+ "`"))
              else
                let? _ := validate_gsi_key_schema table_name gsi in
                Ok ({[gsi_index_name gsi]} ∪ seen)) ∅ (or_empty (ct_global_secondary_indexes req)) in
  Ok tt.

(** The second walk over a key schema: the last HASH and the last RANGE
    entry; any other type is [unreachable!]. *)
Definition pick_step (st : option string * option string) (kse : KeySchemaElement)
  : Checked (option string * option string) :=
  if String.eqb (ks_key_type kse) "HASH" then Ok (Some (ks_attribute_name kse), st.2)
  else if String.eqb (ks_key_type kse) "RANGE" then Ok (st.1, Some (ks_attribute_name kse))
  else Panic.

Definition projection_type_ok (pt : string) : bool :=
  String.eqb pt "ALL" || String.eqb pt "KEYS_ONLY" || String.eqb pt "INCLUDE".
Definition check_projection (kind table_name index_name : string) (p : Projection) : Checked unit :=
  match pj_projection_type p with
  | Some pt =>
      if projection_type_ok pt then Ok tt
      else invalid (in_table table_name (kind +:+ " `" +:+ index_name +:+ "` Projection.ProjectionType `" +:+ pt
                    +:+ "` is not one of ALL | KEYS_ONLY | INCLUDE"))
  | None => Ok tt
  end.

(** The body of the loop of [validate_gsi_plans] and the end of
    [validate_update_table_gsi_create], which differ in the ends of three
    messages ([missing_hash], [where_]). *)
Definition gsi_plan (missing_hash where_ table_name : string) (defs : gmap string KeyType)
    (base_pk_attr : string) (base_sk_attr : option string) (gsi : GlobalSecondaryIndex) : Checked GsiPlan :=
  let what := in_table table_name ("GSI `" +:+ gsi_index_name gsi +:+ "`") in
  let? (partition_attr, sort_attr) := fold_result pick_step (None, None) (gsi_key_schema gsi) in
  let? partition_attr := ok_or partition_attr (DdlError_Validation
                           (what +:+ ": KeySchema must contain a HASH entry" +:+ missing_hash)) in
  let? partition_type := ok_or (defs !! partition_attr) (DdlError_Validation
                           (what +:+ " partition attribute `" +:+ partition_attr
                            +:+ "` has no AttributeDefinitions entry" +:+ where_)) in
  let? sort_info := match sort_attr with
                    | Some s =>
                        let? st := ok_or (defs !! s) (DdlError_Validation
                                     (what +:+ " sort attribute `" +:+ s
                                      +:+ "` has no AttributeDefinitions entry" +:+ where_)) in
                        Ok (Some (s, st))
                    | None => Ok None
                    end in
  let? _ := check_projection "GSI" table_name (gsi_index_name gsi) (gsi_projection gsi) in
  if String.eqb partition_attr base_pk_attr && negb (bool_decide (is_Some sort_info))
  then invalid (what +:+ " has the same hash-only KeySchema as the base table — would be a redundant index")
  else if String.eqb partition_attr base_pk_attr && bool_decide (fst <$> sort_info = base_sk_attr)
  then invalid (what +:+ " KeySchema equals the base table's KeySchema — would be a redundant index")
  else Ok (mkGsiPlan (gsi_index_name gsi) partition_attr partition_type (fst <$> sort_info) (snd <$> sort_info)
             (pj_projection_type (gsi_projection gsi)) (pj_non_key_attributes (gsi_projection gsi))).

Definition validate_gsi_plans (table_name : string) (req : CreateTableRequest) (base_pk_attr : string)
    (base_sk_attr : option string) : Checked (list GsiPlan) :=
  match ct_global_secondary_indexes req with
  | None | Some [] => Ok []
  | Some gsis =>
      let? defs := attr_defs table_name (ct_attribute_definitions req) in
      collect (gsi_plan " (already enforced by validate_gsi_key_schema; this is a bug if reached)" ""
                 table_name defs base_pk_attr base_sk_attr) gsis
  end.

Definition validate_update_table_gsi_create (table_name : string) (gsi : GlobalSecondaryIndex)
    (attribute_definitions : option (list AttributeDefinition)) (base_pk_attr : string)
    (base_sk_attr : option string) (existing_gsi_names : list string) : Checked GsiPlan :=
  let? _ := validate_gsi_index_name table_name (gsi_index_name gsi) in
  if bool_decide (gsi_index_name gsi ∈ existing_gsi_names)
  then invalid (in_table table_name ("GSI `" +:+ gsi_index_name gsi +:+ "` already exists"))
  else
    let? _ := validate_gsi_key_schema table_name gsi in
    let? defs := attr_defs table_name (or_empty attribute_definitions) in
    gsi_plan "" " in the UpdateTable request" table_name defs base_pk_attr base_sk_attr gsi.

(** ** Local secondary indexes *)

Definition lsi_step (table_name pk_attr base_sk : string) (defs : gmap string KeyType)
    (st : gset string * gset string * list LsiPlan) (lsi : LocalSecondaryIndex)
  : Checked (gset string * gset string * list LsiPlan) :=
  let '(seen_names, taken_cols, out) := st in
  let n := lsi_index_name lsi in
  let? _ := validate_lsi_index_name table_name n in
  if bool_decide (n ∈ seen_names)
  then invalid (in_table table_name ("LocalSecondaryIndexes has duplicate IndexName `" +:+ n +:+ "`"))
  else
  let? (lsi_hash_attr, lsi_range_attr) := validate_lsi_key_schema_shape table_name lsi in
  if negb (String.eqb lsi_hash_attr pk_attr)
  then invalid (in_table table_name ("LSI `" +:+ n +:+ "` HASH attribute `" +:+ lsi_hash_attr
         +:+ "` must match the base table's HASH attribute `" +:+ pk_attr +:+ "` (LSIs share the base partition key)"))
  else if String.eqb lsi_range_attr base_sk
  then invalid (in_table table_name ("LSI `" +:+ n +:+ "` RANGE attribute `" +:+ lsi_range_attr
         +:+ "` must differ from the base table's RANGE attribute `" +:+ base_sk +:+ "` (would be a redundant index)"))
  else if bool_decide (lsi_range_attr ∈ taken_cols)
  then invalid (in_table table_name ("LSI `" +:+ n +:+ "` sort attribute `" +:+ lsi_range_attr
         +:+ "` collides with an existing column (base PK/SK or another LSI's sort attribute)"))
  else
  let? sort_type := ok_or (defs !! lsi_range_attr) (DdlError_Validation
                      (in_table table_name ("LSI `" +:+ n +:+ "` sort attribute `" +:+ lsi_range_attr
                       +:+ "` has no AttributeDefinitions entry"))) in
  let? _ := check_projection "LSI" table_name n (lsi_projection lsi) in
  Ok ({[n]} ∪ seen_names, {[lsi_range_attr]} ∪ taken_cols,
      out ++ [mkLsiPlan n lsi_range_attr sort_type (pj_projection_type (lsi_projection lsi))
                (pj_non_key_attributes (lsi_projection lsi))]).

Definition validate_lsi_structures (table_name : string) (req : CreateTableRequest) (pk_attr : string)
    (sk_attr : option string) : Checked (list LsiPlan) :=
  match ct_local_secondary_indexes req with
  | None | Some [] => Ok []
  | Some lsis =>
      if Nat.ltb MAX_LSIS_PER_TABLE (length lsis)
      then invalid (in_table table_name ("LocalSecondaryIndexes has " +:+ show_nat (length lsis)
             +:+ " entries; the maximum is " +:+ show_nat MAX_LSIS_PER_TABLE))
      else
        let? base_sk := ok_or sk_attr (DdlError_Validation (in_table table_name
             "LocalSecondaryIndexes require the base table to declare a composite key (HASH + RANGE); this table has no RANGE")) in
        let? defs := attr_defs table_name (ct_attribute_definitions req) in
        let? (_, _, out) := fold_result (lsi_step table_name pk_attr base_sk defs)
                               (∅, {[pk_attr; base_sk]}, []) lsis in
        Ok out
  end.

(** ** Table-level fields *)

Definition check_stream (spec : option StreamSpecification) : Checked unit :=
  match spec with
  | Some s => if stream_enabled s
              then invalid "StreamSpecification.StreamEnabled = true is not supported; DDB Streams parity is deferred (PLAN-10 D10)"
              else Ok tt
  | None => Ok tt
  end.
Definition validate_stream_not_enabled (req : CreateTableRequest) : Checked unit :=
  check_stream (ct_stream_specification req).

Definition billing_mode_ok (bm : string) : bool := String.eqb bm "PROVISIONED" || String.eqb bm "PAY_PER_REQUEST".
Definition check_billing (mode : option string) (throughput : option ProvisionedThroughput) : Checked unit :=
  let? _ := match mode with
            | Some bm => if billing_mode_ok bm then Ok tt
                         else invalid ("BillingMode `" +:+ bm +:+ "` is not one of PROVISIONED | PAY_PER_REQUEST")
            | None => Ok tt
            end in
  match throughput with
  | Some pt =>
      if Z.ltb (read_capacity_units pt) 1 || Z.ltb (write_capacity_units pt) 1
      then invalid ("ProvisionedThroughput.ReadCapacityUnits and .WriteCapacityUnits must be >= 1 (got "
                    +:+ show_i64 (read_capacity_units pt) +:+ " / " +:+ show_i64 (write_capacity_units pt) +:+ ")")
      else Ok tt
  | None => Ok tt
  end.
Definition validate_billing_mode (req : CreateTableRequest) : Checked unit :=
  check_billing (ct_billing_mode req) (ct_provisioned_throughput req).

Definition tags_to_json (tags : option (list Tag)) : Value :=
  VObject (BTreeMap.of_list (map (fun t => (tag_key t, VString (tag_value t))) (or_empty tags))).

(** ** Entry points *)

Definition validate_create_table (req : CreateTableRequest) : Checked CreateTablePlan :=
  let t := ct_table_name req in
  let? _ := validate_table_name t in
  let? _ := validate_attribute_definitions_nonempty t req in
  let? _ := validate_attribute_names t req in
  let? _ := validate_key_schema_shape t (ct_key_schema req) in
  let? (pk_attr, pk_type, sk_attr, sk_type) := validate_key_schema_and_attrs t req in
  let? _ := validate_gsi_structures t req in
  let? gsis := validate_gsi_plans t req pk_attr sk_attr in
  let? lsis := validate_lsi_structures t req pk_attr sk_attr in
  let? _ := validate_stream_not_enabled req in
  let? _ := validate_billing_mode req in
  let provisioned := ct_provisioned_throughput req in
  Ok (mkCreateTablePlan t pk_attr pk_type sk_attr sk_type "data" (ct_billing_mode req)
        (read_capacity_units <$> provisioned) (write_capacity_units <$> provisioned)
        (tags_to_json (ct_tags req)) lsis gsis).

(** [updates.iter().enumerate()]. *)
Definition check_gsi_update (iu : nat * GlobalSecondaryIndexUpdate) : Checked unit :=
  let '(idx, u) := iu in
  let set_count := length (List.filter id [bool_decide (is_Some (gu_create u)); bool_decide (is_Some (gu_update u));
                                           bool_decide (is_Some (gu_delete u))]) in
  if negb (Nat.eqb set_count 1)
  then invalid ("GlobalSecondaryIndexUpdates[" +:+ show_nat idx
                +:+ "]: exactly one of Create / Update / Delete must be set (got " +:+ show_nat set_count +:+ ")")
  else if bool_decide (is_Some (gu_update u))
  then invalid "GlobalSecondaryIndexUpdates[].Update (provisioned-throughput mutation on existing GSI) is not yet supported"
  else Ok tt.

Definition validate_update_table_body (req : UpdateTableRequest) : Checked unit :=
  let updates := or_empty (ut_global_secondary_index_updates req) in
  let? _ := for_each check_gsi_update (zip (seq 0 (length updates)) updates) in
  let? _ := check_stream (ut_stream_specification req) in
  check_billing (ut_billing_mode req) (ut_provisioned_throughput req).
End validation.
