(* ===== verification/ValidationSpec.v ===== *)
(** * What CreateTable accepts

    The rules of the request as one declarative relation between a request
    and its plan, the proof that [validate_create_table] decides it, and
    what follows for the plan. *)

From S2P Require Import Prelude RustStr BTree Json Storage Catalog ApiError DdlTypes Validation.

(** ** The rules *)

Definition name_ok (n : string) : Prop :=
  (3 <= String.length n <= 255)%nat /\ name_chars_ok n = true.
Definition attr_name_ok (n : string) : Prop := (1 <= String.length n <= 255)%nat.

(** A key schema: a HASH attribute and possibly a RANGE attribute, in
    either order. *)
Inductive key_shape : list KeySchemaElement -> string -> option string -> Prop :=
| key_hash h : key_shape [mkKeySchemaElement h "HASH"] h None
| key_hash_range h r : key_shape [mkKeySchemaElement h "HASH"; mkKeySchemaElement r "RANGE"] h (Some r)
| key_range_hash h r : key_shape [mkKeySchemaElement r "RANGE"; mkKeySchemaElement h "HASH"] h (Some r).

(** The definitions give attribute [a] the type [t]. *)
Definition typed (ads : list AttributeDefinition) (a : string) (t : KeyType) : Prop :=
  mkAttributeDefinition a (key_type_str t) ∈ ads.
Definition typed_opt (ads : list AttributeDefinition) (a : option string) (t : option KeyType) : Prop :=
  match a, t with
  | Some a, Some t => typed ads a t
  | None, None => True
  | _, _ => False
  end.
Definition def_ok (ad : AttributeDefinition) : Prop := exists t, ad_attribute_type ad = key_type_str t.

Definition projection_ok (p : Projection) : Prop :=
  match pj_projection_type p with Some pt => projection_type_ok pt = true | None => True end.

Record gsi_accepted (ads : list AttributeDefinition) (pk : string) (sk : option string)
    (g : GlobalSecondaryIndex) (p : GsiPlan) : Prop := {
  ga_name_ok : name_ok (gsi_index_name g);
  ga_shape : key_shape (gsi_key_schema g) (gp_partition_attr p) (gp_sort_attr p);
  ga_partition_type : typed ads (gp_partition_attr p) (gp_partition_type p);
  ga_sort_type : typed_opt ads (gp_sort_attr p) (gp_sort_type p);
  ga_projection : projection_ok (gsi_projection g);
  ga_not_redundant : gp_partition_attr p = pk -> gp_sort_attr p <> None /\ gp_sort_attr p <> sk;
  ga_name : gp_name p = gsi_index_name g;
  ga_projection_type : gp_projection_type p = pj_projection_type (gsi_projection g);
  ga_non_key : gp_projection_non_key_attrs p = pj_non_key_attributes (gsi_projection g)
}.

Record lsi_accepted (ads : list AttributeDefinition) (pk sk : string) (l : LocalSecondaryIndex) (p : LsiPlan)
  : Prop := {
  la_name_ok : name_ok (lsi_index_name l);
  la_shape : key_shape (lsi_key_schema l) pk (Some (lp_sort_attr p));
  la_not_pk : lp_sort_attr p <> pk;
  la_not_sk : lp_sort_attr p <> sk;
  la_type : typed ads (lp_sort_attr p) (lp_sort_type p);
  la_projection : projection_ok (lsi_projection l);
  la_name : lp_name p = lsi_index_name l;
  la_projection_type : lp_projection_type p = pj_projection_type (lsi_projection l);
  la_non_key : lp_projection_non_key_attrs p = pj_non_key_attributes (lsi_projection l)
}.

Definition gsis_of (req : CreateTableRequest) : list GlobalSecondaryIndex := or_empty (ct_global_secondary_indexes req).
Definition lsis_of (req : CreateTableRequest) : list LocalSecondaryIndex := or_empty (ct_local_secondary_indexes req).

(** Every attribute name the request mentions in a definition or a key. *)
Definition mentioned (req : CreateTableRequest) : list string :=
  map ad_attribute_name (ct_attribute_definitions req) ++ key_attr_names (ct_key_schema req)
  ++ concat (map (fun g => key_attr_names (gsi_key_schema g)) (gsis_of req))
  ++ concat (map (fun l => key_attr_names (lsi_key_schema l)) (lsis_of req)).

Definition throughput_ok (o : option ProvisionedThroughput) : Prop :=
  match o with
  | Some pt => (1 <= read_capacity_units pt)%Z /\ (1 <= write_capacity_units pt)%Z
  | None => True
  end.
Definition billing_ok (o : option string) : Prop :=
  match o with Some bm => billing_mode_ok bm = true | None => True end.
Definition stream_ok (o : option StreamSpecification) : Prop :=
  match o with Some s => stream_enabled s = false | None => True end.

Record request_accepted (req : CreateTableRequest) (plan : CreateTablePlan) : Prop := {
  ra_name_ok : name_ok (ct_table_name req);
  ra_not_reserved : starts_with (str_lower (ct_table_name req)) RESERVED_PREFIX = false;
  ra_attr_names : Forall attr_name_ok (mentioned req);
  ra_shape : key_shape (ct_key_schema req) (cp_pk_attr plan) (cp_sk_attr plan);
  ra_defs_typed : Forall def_ok (ct_attribute_definitions req);
  ra_defs_distinct : NoDup (map ad_attribute_name (ct_attribute_definitions req));
  ra_defs_used : forall a, a ∈ map ad_attribute_name (ct_attribute_definitions req)
                   <-> a ∈ keyed_attrs (cp_pk_attr plan) (cp_sk_attr plan) req;
  ra_pk_type : typed (ct_attribute_definitions req) (cp_pk_attr plan) (cp_pk_type plan);
  ra_sk_type : typed_opt (ct_attribute_definitions req) (cp_sk_attr plan) (cp_sk_type plan);
  ra_gsi_names : NoDup (map gsi_index_name (gsis_of req));
  ra_gsis : Forall2 (gsi_accepted (ct_attribute_definitions req) (cp_pk_attr plan) (cp_sk_attr plan))
              (gsis_of req) (cp_gsis plan);
  ra_lsi_count : (length (lsis_of req) <= 5)%nat;
  ra_lsi_names : NoDup (map lsi_index_name (lsis_of req));
  ra_lsi_columns : NoDup (map lp_sort_attr (cp_lsis plan));
  ra_lsis : match cp_sk_attr plan with
            | Some sk => Forall2 (lsi_accepted (ct_attribute_definitions req) (cp_pk_attr plan) sk)
                           (lsis_of req) (cp_lsis plan)
            | None => lsis_of req = [] /\ cp_lsis plan = []
            end;
  ra_stream : stream_ok (ct_stream_specification req);
  ra_billing : billing_ok (ct_billing_mode req);
  ra_throughput : throughput_ok (ct_provisioned_throughput req);
  ra_table_name : cp_table_name plan = ct_table_name req;
  ra_jsonb_col : cp_jsonb_col plan = "data";
  ra_billing_mode : cp_billing_mode plan = ct_billing_mode req;
  ra_rcu : cp_provisioned_rcu plan = read_capacity_units <$> ct_provisioned_throughput req;
  ra_wcu : cp_provisioned_wcu plan = write_capacity_units <$> ct_provisioned_throughput req;
  ra_tags : cp_tags plan = tags_to_json (ct_tags req)
}.

(** ** Each check decides its rule *)

Lemma length_bad_spec n : name_length_bad n = false <-> (3 <= String.length n <= 255)%nat.
Proof. unfold name_length_bad. rewrite orb_false_iff, !Nat.ltb_ge. lia. Qed.

Lemma index_name_spec kind t n : validate_index_name kind t n = Ok tt <-> name_ok n.
Proof.
  unfold validate_index_name, name_ok, invalid. rewrite <- length_bad_spec.
  destruct (name_length_bad n), (name_chars_ok n); simpl; naive_solver.
Qed.

Lemma table_name_spec n :
  validate_table_name n = Ok tt <-> name_ok n /\ starts_with (str_lower n) RESERVED_PREFIX = false.
Proof.
  unfold validate_table_name, name_ok, invalid. rewrite <- length_bad_spec.
  destruct (name_length_bad n), (name_chars_ok n), (starts_with _ _); simpl; naive_solver.
Qed.

Lemma attr_name_spec t n : check_attr_name t n = Ok tt <-> attr_name_ok n.
Proof.
  unfold check_attr_name, attr_name_ok, invalid, MIN_ATTR_NAME_BYTES, MAX_ATTR_NAME_BYTES.
  destruct (Nat.leb_spec 1 (String.length n)), (Nat.leb_spec (String.length n) 255); cbn;
    (split; [|]); try done; intros; lia || done.
Qed.

Lemma key_names_spec t ks : check_key_names t ks = Ok tt <-> Forall attr_name_ok (key_attr_names ks).
Proof.
  unfold check_key_names, key_attr_names. rewrite for_each_Ok_iff, Forall_map.
  apply Forall_iff. intros k. apply attr_name_spec.
Qed.

Lemma for_each_concat {A} (f : A -> Result DdlError unit) (g : A -> list string) l :
  (forall x, f x = Ok tt <-> Forall attr_name_ok (g x)) ->
  for_each f l = Ok tt <-> Forall attr_name_ok (concat (map g l)).
Proof.
  intros Hf. rewrite for_each_Ok_iff. induction l as [|x l IH]; [done|].
  simpl. rewrite Forall_cons, Forall_app, IH. by rewrite Hf.
Qed.

(** Sequencing of checks. *)
Lemma seq_unit {E} (a b : Result E unit) : (let? _ := a in b) = Ok tt <-> a = Ok tt /\ b = Ok tt.
Proof. destruct a as [[]| |], b as [[]| |]; naive_solver. Qed.

Lemma attribute_names_spec t req :
  validate_attribute_names t req = Ok tt <-> Forall attr_name_ok (mentioned req).
Proof.
  unfold validate_attribute_names, mentioned, gsis_of, lsis_of.
  rewrite !seq_unit, !Forall_app, key_names_spec.
  assert (forall l, for_each (fun ad => check_attr_name t (ad_attribute_name ad)) l = Ok tt
                    <-> Forall attr_name_ok (map ad_attribute_name l)) as ->.
  { intros l. rewrite for_each_Ok_iff, Forall_map. apply Forall_iff. intros a. apply attr_name_spec. }
  assert (forall o, (match o with
                     | Some gsis => for_each (fun gsi => check_key_names t (gsi_key_schema gsi)) gsis
                     | None => Ok tt end) = Ok tt
                    <-> Forall attr_name_ok (concat (map (fun g => key_attr_names (gsi_key_schema g)) (or_empty o))))
    as ->.
  { intros [l|]; [|by split]. apply for_each_concat. intros g. apply key_names_spec. }
  assert (forall o, (match o with
                     | Some lsis => for_each (fun lsi => check_key_names t (lsi_key_schema lsi)) lsis
                     | None => Ok tt end) = Ok tt
                    <-> Forall attr_name_ok (concat (map (fun l => key_attr_names (lsi_key_schema l)) (or_empty o))))
    as ->.
  { intros [l|]; [|by split]. apply for_each_concat. intros g. apply key_names_spec. }
  done.
Qed.

(** ** Key schemas *)

Lemma key_walk_shape what ks h r :
  key_walk what ks = Ok (Some h, r) <-> key_shape ks h r.
Proof.
  unfold key_walk. split.
  - destruct ks as [|[a1 t1] [|[a2 t2] [|[a3 t3] ks]]]; simpl; unfold key_step, invalid; simpl;
      try destruct (String.eqb_spec t1 "HASH") as [->|]; try destruct (String.eqb_spec t1 "RANGE") as [->|];
      try done; simpl;
      try destruct (String.eqb_spec t2 "HASH") as [->|]; try destruct (String.eqb_spec t2 "RANGE") as [->|];
      try done; simpl;
      try destruct (String.eqb_spec t3 "HASH") as [->|]; try destruct (String.eqb_spec t3 "RANGE") as [->|];
      try done; intros [= -> <-]; constructor.
  - by destruct 1.
Qed.

Lemma key_shape_length ks h r : key_shape ks h r -> length ks = (1 + length (option_list r))%nat.
Proof. by destruct 1. Qed.

Lemma key_shape_fun ks h r h' r' : key_shape ks h r -> key_shape ks h' r' -> h = h' /\ r = r'.
Proof. rewrite <- !(key_walk_shape ""). intros H1 H2. rewrite H1 in H2. by simplify_eq. Qed.

Lemma pick_shape ks h r : key_shape ks h r -> fold_result pick_step (None, None) ks = Ok (Some h, r).
Proof. by destruct 1. Qed.

Lemma gsi_key_schema_spec t g :
  validate_gsi_key_schema t g = Ok tt <-> exists h r, key_shape (gsi_key_schema g) h r.
Proof.
  unfold validate_gsi_key_schema, invalid. set (what := gsi_context _ _). split.
  - destruct (gsi_key_schema g) as [|k ks] eqn:Hks; [done|].
    destruct (Nat.ltb _ _); [done|]. destruct (key_walk what _) as [[[h|] r]| |] eqn:Hw; try done.
    intros _. exists h, r. by apply (key_walk_shape what).
  - intros (h & r & Hs). pose proof (key_shape_length _ _ _ Hs) as Hl.
    apply (key_walk_shape what) in Hs. destruct (gsi_key_schema g) as [|k ks]; [done|].
    replace (Nat.ltb _ _) with false; [by rewrite Hs|].
    symmetry. apply Nat.ltb_ge. rewrite Hl. unfold MAX_KEY_SCHEMA_LEN. destruct r; simpl; lia.
Qed.

Lemma lsi_key_schema_spec t l h r :
  validate_lsi_key_schema_shape t l = Ok (h, r) <-> key_shape (lsi_key_schema l) h (Some r).
Proof.
  unfold validate_lsi_key_schema_shape, invalid. set (what := lsi_context _ _).
  rewrite <- (key_walk_shape what). split.
  - destruct (Nat.eqb _ _); [|done]. simpl.
    destruct (key_walk what _) as [[[h'|] [r'|]]| |]; simpl; try done. by intros [= -> ->].
  - intros Hs. pose proof (key_shape_length _ _ _ (proj1 (key_walk_shape _ _ _ _) Hs)) as ->. simpl. by rewrite Hs.
Qed.

(** ** Attribute definitions *)

Lemma attribute_type_spec t n raw k : parse_attribute_type t n raw = Ok k <-> raw = key_type_str k.
Proof.
  unfold parse_attribute_type, invalid.
  destruct (String.eqb_spec raw "S") as [->|]; [|destruct (String.eqb_spec raw "N") as [->|];
    [|destruct (String.eqb_spec raw "B") as [->|]]]; destruct k; naive_solver.
Qed.

Lemma key_type_str_inj k k' : key_type_str k = key_type_str k' -> k = k'.
Proof. by destruct k, k'. Qed.

Section defs.
Context (t : string).
#[local] Notation distinct_step := (fun (defs : gmap string KeyType) ad =>
  let? kt := parse_attribute_type t (ad_attribute_name ad) (ad_attribute_type ad) in
  match defs !! ad_attribute_name ad with
  | Some _ => invalid (in_table t ("AttributeDefinitions has duplicate entry for `"
                                      +:+ ad_attribute_name ad +:+ "`"))
  | None => Ok (<[ad_attribute_name ad := kt]> defs)
  end).
#[local] Notation plain_step := (fun (defs : gmap string KeyType) ad =>
  let? kt := parse_attribute_type t (ad_attribute_name ad) (ad_attribute_type ad) in
  Ok (<[ad_attribute_name ad := kt]> defs)).

Lemma defs_inv ads : forall m0 m, fold_result distinct_step m0 ads = Ok m ->
  fold_result plain_step m0 ads = Ok m
  /\ Forall def_ok ads /\ NoDup (map ad_attribute_name ads)
  /\ (forall a, a ∈ map ad_attribute_name ads -> m0 !! a = None)
  /\ (forall a k, m !! a = Some k <-> m0 !! a = Some k \/ typed ads a k).
Proof.
  induction ads as [|[a raw] ads IH]; intros m0 m; simpl.
  { intros [= ->]. split_and!; [done|constructor|constructor|set_solver|]. intros a k. unfold typed. set_solver. }
  destruct (parse_attribute_type t a raw) as [kt| |] eqn:Hk; try done.
  apply attribute_type_spec in Hk as ->. destruct (m0 !! a) eqn:Ha; [done|]. intros H.
  destruct (IH _ _ H) as (Hplain & Hok & Hnd & Hnew & Hm). split_and!.
  - done.
  - constructor; [by exists kt|done].
  - constructor; [|done]. intros Hin%Hnew. by rewrite lookup_insert_eq in Hin.
  - intros x [->|Hx]%elem_of_cons; [done|]. specialize (Hnew x Hx).
    destruct (decide (x = a)) as [->|]; [by rewrite lookup_insert_eq in Hnew|]. by rewrite lookup_insert_ne in Hnew.
  - intros x k. rewrite Hm. unfold typed. rewrite elem_of_cons. destruct (decide (x = a)) as [->|Hx].
    + rewrite lookup_insert_eq. split; [intros [[= ->]|?]; by auto|].
      intros [?|[[= Hk]|?]]; [congruence| |by auto]. left. f_equal. by apply key_type_str_inj.
    + rewrite lookup_insert_ne by done. naive_solver.
Qed.

Lemma defs_total ads : forall m0, Forall def_ok ads -> NoDup (map ad_attribute_name ads) ->
  (forall a, a ∈ map ad_attribute_name ads -> m0 !! a = None) -> exists m, fold_result distinct_step m0 ads = Ok m.
Proof.
  induction ads as [|[a raw] ads IH]; intros m0; simpl; [by eauto|].
  intros [[k Hk] Hok]%Forall_cons [Ha Hnd]%NoDup_cons Hnew. simpl in Hk.
  apply (attribute_type_spec t a raw) in Hk as ->. rewrite Hnew by set_solver.
  apply IH; [done|done|]. intros x Hx. rewrite lookup_insert_ne by (by intros ->). apply Hnew. set_solver.
Qed.

Lemma attr_defs_distinct_spec ads m :
  attr_defs_distinct t ads = Ok m ->
  attr_defs t ads = Ok m /\ Forall def_ok ads /\ NoDup (map ad_attribute_name ads)
  /\ (forall a k, m !! a = Some k <-> typed ads a k).
Proof.
  intros H. destruct (defs_inv _ _ _ H) as (Hp & Hok & Hnd & _ & Hm). split_and!; [done..|].
  intros a k. rewrite Hm, lookup_empty. naive_solver.
Qed.

Lemma attr_defs_distinct_total ads :
  Forall def_ok ads -> NoDup (map ad_attribute_name ads) -> exists m, attr_defs_distinct t ads = Ok m.
Proof. intros Hok Hnd. apply defs_total; [done..|]. intros. apply lookup_empty. Qed.
End defs.

Lemma typed_name ads a k : typed ads a k -> a ∈ map ad_attribute_name ads.
Proof. intros H. apply list_elem_of_fmap. by exists (mkAttributeDefinition a (key_type_str k)). Qed.

Lemma name_typed ads a : Forall def_ok ads -> a ∈ map ad_attribute_name ads -> exists k, typed ads a k.
Proof.
  intros Hok ([n raw] & -> & Hin)%list_elem_of_fmap. rewrite Forall_forall in Hok.
  destruct (Hok _ Hin) as [k Hk]. simpl in Hk. exists k. unfold typed. by rewrite <- Hk.
Qed.

Lemma option_list_set (o : option string) a : a ∈ (list_to_set (option_list o) : gset string) <-> o = Some a.
Proof. destruct o; set_solver. Qed.

Section accept.
Context {SI : SetIter}.

(** The first four checks and the key attributes. *)
Lemma key_schema_and_attrs_spec t req pk pt sk st :
  validate_key_schema_and_attrs t req = Ok (pk, pt, sk, st)
  <-> key_shape (ct_key_schema req) pk sk
      /\ Forall def_ok (ct_attribute_definitions req)
      /\ NoDup (map ad_attribute_name (ct_attribute_definitions req))
      /\ (forall a, a ∈ map ad_attribute_name (ct_attribute_definitions req) <-> a ∈ keyed_attrs pk sk req)
      /\ typed (ct_attribute_definitions req) pk pt /\ typed_opt (ct_attribute_definitions req) sk st.
Proof.
  unfold validate_key_schema_and_attrs, invalid. set (ads := ct_attribute_definitions req).
  set (unused pk sk := List.filter (fun n => negb (bool_decide (n ∈ keyed_attrs pk sk req)))
                         (map ad_attribute_name ads)).
  assert (Hunused : forall pk sk, unused pk sk = [] <->
            forall a, a ∈ map ad_attribute_name ads -> a ∈ keyed_attrs pk sk req).
  { intros p s. unfold unused. split.
    - intros Hf a Ha. destruct (decide (a ∈ keyed_attrs p s req)) as [|Hn]; [done|]. exfalso.
      assert (a ∈ []) as Hin; [|set_solver]. rewrite <- Hf. apply list_elem_of_In, filter_In.
      split; [by apply list_elem_of_In|]. by rewrite bool_decide_false.
    - intros Hall. destruct (List.filter _ _) as [|x l] eqn:Hf; [done|]. exfalso.
      assert (x ∈ x :: l) as Hin by set_solver. rewrite <- Hf in Hin.
      apply list_elem_of_In, filter_In in Hin as [Hin%list_elem_of_In Hb].
      rewrite bool_decide_true in Hb by auto. done. }
  split.
  - intros H. destruct (key_walk _ _) as [[[h|] r]| |] eqn:Hw; simpl in H; try done.
    apply key_walk_shape in Hw. destruct (attr_defs_distinct t ads) as [m| |] eqn:Hd; try done.
    apply attr_defs_distinct_spec in Hd as (_ & Hok & Hnd & Hm).
    destruct (for_each _ _) as [[]| |] eqn:Hfe; try done.
    change (List.filter _ _) with (unused h r) in H.
    destruct (unused h r) as [|x l] eqn:Hu; [|done]. rewrite Hunused in Hu.
    assert (Hkeyed : forall a, a ∈ keyed_attrs h r req -> a ∈ map ad_attribute_name ads).
    { intros a Ha. rewrite for_each_Ok_iff, Forall_forall in Hfe.
      specialize (Hfe a (proj2 (set_iter_elements _ _) Ha)). unfold check_defined in Hfe.
      destruct (m !! a) as [k|] eqn:Hma; [|done]. apply Hm in Hma. by eapply typed_name. }
    destruct (m !! h) as [k|] eqn:Hh; simpl in H; [|done]. apply Hm in Hh.
    destruct r as [r|]; simpl in H.
    + destruct (m !! r) as [k'|] eqn:Hr; simpl in H; [|done]. apply Hm in Hr. simplify_eq.
      split_and!; try done. intros a. by split; auto.
    + simplify_eq. split_and!; try done. intros a. by split; auto.
  - intros (Hs & Hok & Hnd & Hused & Hpk & Hsk). apply (key_walk_shape (in_table t "")) in Hs. rewrite Hs.
    destruct (attr_defs_distinct_total t ads Hok Hnd) as [m Hd]. simpl. rewrite Hd.
    apply attr_defs_distinct_spec in Hd as (_ & _ & _ & Hm).
    assert (for_each (check_defined t m) (set_iter (keyed_attrs pk sk req)) = Ok tt) as ->.
    { apply for_each_Ok_iff, Forall_forall. intros a Ha%set_iter_elements%Hused.
      destruct (name_typed _ _ Hok Ha) as [k Hk%Hm]. unfold check_defined. by rewrite Hk. }
    change (List.filter _ _) with (unused pk sk).
    rewrite (proj2 (Hunused pk sk)) by (intros a; apply Hused).
    apply Hm in Hpk. rewrite Hpk. simpl. destruct sk as [sk|], st as [st|]; try done.
    simpl in Hsk. apply Hm in Hsk. by rewrite Hsk.
Qed.

(** ** Indexes *)

Lemma check_projection_spec kind t n p : check_projection kind t n p = Ok tt <-> projection_ok p.
Proof.
  unfold check_projection, projection_ok, invalid. destruct (pj_projection_type p) as [pt|]; [|by split].
  destruct (projection_type_ok pt); naive_solver.
Qed.

Lemma gsi_structures_spec t req :
  validate_gsi_structures t req = Ok tt
  <-> Forall (fun g => name_ok (gsi_index_name g) /\ exists h r, key_shape (gsi_key_schema g) h r) (gsis_of req)
      /\ NoDup (map gsi_index_name (gsis_of req)).
Proof.
  unfold validate_gsi_structures. change (or_empty _) with (gsis_of req).
  set (step := fun (seen : gset string) gsi => _).
  assert (Hfold : forall l seen, (exists s, fold_result step seen l = Ok s)
    <-> Forall (fun g => name_ok (gsi_index_name g) /\ exists h r, key_shape (gsi_key_schema g) h r) l
        /\ NoDup (map gsi_index_name l) /\ forall g, g ∈ l -> gsi_index_name g ∉ seen).
  { induction l as [|g l IH]; intros seen; simpl.
    { split; [intros _; split_and!; [constructor|constructor|set_solver]|by eauto]. }
    unfold step at 1, invalid. rewrite Forall_cons, NoDup_cons.
    setoid_rewrite list_elem_of_fmap. split.
    - intros [s Hs]. destruct (validate_gsi_index_name t _) as [[]| |] eqn:Hn; try done.
      apply index_name_spec in Hn. case_bool_decide as Hseen; [done|].
      destruct (validate_gsi_key_schema t g) as [[]| |] eqn:Hk; try done. apply gsi_key_schema_spec in Hk.
      destruct (proj1 (IH _) (ex_intro _ s Hs)) as (Hl & Hnd & Hfresh).
      split_and!; [done|done|done| |done|].
      + intros (g' & Heq & Hg'). apply (Hfresh g' Hg'). rewrite <- Heq. set_solver.
      + intros g' [->|Hg']%elem_of_cons; [done|]. specialize (Hfresh g' Hg'). set_solver.
    - intros ([[Hn Hk] Hl] & [Hg Hnd] & Hfresh).
      apply (index_name_spec "GSI" t) in Hn. unfold validate_gsi_index_name. rewrite Hn.
      rewrite bool_decide_false by (apply Hfresh; set_solver).
      apply (gsi_key_schema_spec t) in Hk. rewrite Hk. apply IH. split_and!; [done..|].
      intros g' Hg'. rewrite elem_of_union, elem_of_singleton. intros [Heq|Hin].
      + apply Hg. by exists g'.
      + by apply (Hfresh g'); [set_solver|]. }
  split.
  - intros H. destruct (fold_result step ∅ _) as [s| |] eqn:Hf; try done.
    by destruct (proj1 (Hfold _ _) (ex_intro _ s Hf)) as (? & ? & _).
  - intros [Hl Hnd]. destruct (proj2 (Hfold (gsis_of req) ∅)) as [s ->]; [|done].
    split_and!; [done..|set_solver].
Qed.

Lemma gsi_plan_spec mh wh t ads m pk sk g p :
  (forall a k, m !! a = Some k <-> typed ads a k) ->
  name_ok (gsi_index_name g) -> (exists h r, key_shape (gsi_key_schema g) h r) ->
  gsi_plan mh wh t m pk sk g = Ok p <-> gsi_accepted ads pk sk g p.
Proof.
  intros Hm Hn (h & r & Hs). unfold gsi_plan, invalid. rewrite (pick_shape _ _ _ Hs). cbn [ok_or].
  pose proof (check_projection_spec "GSI" t (gsi_index_name g) (gsi_projection g)) as Hproj. split.
  - intros H. destruct (m !! h) as [kt|] eqn:Hh; [|done]. cbn [ok_or] in H. apply Hm in Hh.
    destruct (check_projection _ _ _ _) as [[]| |] eqn:Hp;
      [|destruct r as [r|]; [destruct (m !! r)|]; done..].
    apply proj1 in Hproj. specialize (Hproj eq_refl).
    destruct r as [r|].
    + destruct (m !! r) as [rt|] eqn:Hr; [|done]. cbn in H. apply Hm in Hr. rewrite andb_false_r in H.
      destruct (String.eqb_spec h pk) as [->|Hne]; cbn in H.
      * case_bool_decide as Hsk; [done|]. simplify_eq. by constructor.
      * simplify_eq. constructor; try done.
    + cbn in H. rewrite andb_true_r in H. destruct (String.eqb_spec h pk) as [->|Hne]; [done|]. cbn in H.
      simplify_eq. by constructor.
  - intros [_ Hs' Hpt Hst Hp Hred Hname Hpj Hnk]. destruct p as [pn ph pht pr prt pp pnk]. simpl in *.
    destruct (key_shape_fun _ _ _ _ _ Hs Hs') as [<- <-]. apply Hm in Hpt. rewrite Hpt. cbn [ok_or].
    rewrite (proj2 Hproj Hp). destruct r as [r|], prt as [rt|]; try done; cbn in Hst |- *.
    + apply Hm in Hst. rewrite Hst. cbn. rewrite andb_false_r.
      destruct (String.eqb_spec h pk) as [->|Hne]; cbn; [|by subst].
      rewrite bool_decide_false by (by apply Hred). by subst.
    + destruct (String.eqb_spec h pk) as [->|Hne]; cbn; [|by subst]. by destruct (Hred eq_refl).
Qed.

Lemma lsi_step_spec t ads m pk sk seen taken out l res :
  (forall a k, m !! a = Some k <-> typed ads a k) -> pk ∈ taken ->
  lsi_step t pk sk m (seen, taken, out) l = Ok res
  <-> exists p, lsi_accepted ads pk sk l p /\ (lsi_index_name l ∉ seen) /\ (lp_sort_attr p ∉ taken)
               /\ res = ({[lsi_index_name l]} ∪ seen, {[lp_sort_attr p]} ∪ taken, out ++ [p]).
Proof.
  intros Hm Hpk. unfold lsi_step, invalid. cbv zeta.
  pose proof (check_projection_spec "LSI" t (lsi_index_name l) (lsi_projection l)) as Hproj. split.
  - intros H. destruct (validate_lsi_index_name t _) as [[]| |] eqn:Hn; try done. apply index_name_spec in Hn.
    case_bool_decide as Hseen; [done|].
    destruct (validate_lsi_key_schema_shape t l) as [[h r]| |] eqn:Hs; try done. apply lsi_key_schema_spec in Hs.
    destruct (String.eqb_spec h pk) as [->|]; [|done]. cbn in H.
    destruct (String.eqb_spec r sk) as [->|Hsk]; [done|]. case_bool_decide as Htaken; [done|].
    destruct (m !! r) as [rt|] eqn:Hr; [|done]. cbn in H. apply Hm in Hr.
    destruct (check_projection _ _ _ _) as [[]| |] eqn:Hp; try done.
    apply proj1 in Hproj. specialize (Hproj eq_refl). simplify_eq.
    eexists (mkLsiPlan _ r rt _ _). split_and!; [|done..]. constructor; try done. simpl. by intros ->.
  - intros (p & [Hn Hs Hnpk Hnsk Ht Hp Hname Hpj Hnk] & Hseen & Htaken & ->).
    apply (index_name_spec "LSI" t) in Hn. unfold validate_lsi_index_name. rewrite Hn.
    rewrite bool_decide_false by done. apply (lsi_key_schema_spec t) in Hs. rewrite Hs, String.eqb_refl. cbn.
    destruct (String.eqb_spec (lp_sort_attr p) sk); [done|]. rewrite bool_decide_false by done.
    apply Hm in Ht. rewrite Ht. cbn. rewrite (proj2 Hproj Hp). destruct p; simpl in *. by subst.
Qed.

Lemma lsi_fold_spec t ads m pk sk ls : forall seen taken out,
  (forall a k, m !! a = Some k <-> typed ads a k) -> pk ∈ taken ->
  forall out', (exists s' t', fold_result (lsi_step t pk sk m) (seen, taken, out) ls = Ok (s', t', out'))
  <-> exists ps, out' = out ++ ps /\ Forall2 (lsi_accepted ads pk sk) ls ps
        /\ NoDup (map lsi_index_name ls) /\ NoDup (map lp_sort_attr ps)
        /\ (forall l, l ∈ ls -> lsi_index_name l ∉ seen) /\ (forall p, p ∈ ps -> lp_sort_attr p ∉ taken).
Proof.
  induction ls as [|l ls IH]; intros seen taken out Hm Hpk out'; cbn [fold_result].
  { split.
    - intros (s' & t' & [= <- <- <-]). exists []. rewrite app_nil_r.
      split_and!; [done|constructor|constructor|constructor|set_solver|set_solver].
    - intros (ps & -> & Hf & _). inversion Hf. rewrite app_nil_r. by eauto. }
  split.
  - intros (s' & t' & H). destruct (lsi_step _ _ _ _ _ _) as [res| |] eqn:Hst; try done.
    apply (lsi_step_spec t ads) in Hst as (p & Hacc & Hseen & Htaken & ->); [|done|done].
    destruct (proj1 (IH _ _ _ Hm (elem_of_union_r _ _ _ Hpk) out') (ex_intro _ s' (ex_intro _ t' H)))
      as (ps & -> & Hf & Hn & Hc & Hs & Ht).
    exists (p :: ps). split_and!.
    + by rewrite <- app_assoc.
    + by constructor.
    + simpl. constructor; [|done]. intros (l' & Heq & Hl')%list_elem_of_fmap. specialize (Hs l' Hl'). set_solver.
    + simpl. constructor; [|done]. intros (p' & Heq & Hp')%list_elem_of_fmap. specialize (Ht p' Hp'). set_solver.
    + intros l' [->|Hl']%elem_of_cons; [done|]. specialize (Hs l' Hl'). set_solver.
    + intros p' [->|Hp']%elem_of_cons; [done|]. specialize (Ht p' Hp'). set_solver.
  - intros (ps & -> & Hf & Hn & Hc & Hs & Ht). inversion Hf as [|? p ? ps' Hacc Hf']; subst.
    simpl in Hn, Hc. apply NoDup_cons in Hn as [Hn1 Hn]. apply NoDup_cons in Hc as [Hc1 Hc].
    rewrite (proj2 (lsi_step_spec t ads m pk sk seen taken out l _ Hm Hpk)
               (ex_intro _ p (conj Hacc (conj (Hs l ltac:(set_solver)) (conj (Ht p ltac:(set_solver)) eq_refl))))).
    apply IH; [done|set_solver|]. exists ps'. rewrite <- app_assoc. split_and!; [done..| |].
    + intros l' Hl'. rewrite elem_of_union, elem_of_singleton. intros [Heq|Hin].
      * apply Hn1. rewrite <- Heq. by apply list_elem_of_fmap_2.
      * by apply (Hs l'); [set_solver|].
    + intros p' Hp'. rewrite elem_of_union, elem_of_singleton. intros [Heq|Hin].
      * apply Hc1. rewrite <- Heq. by apply list_elem_of_fmap_2.
      * by apply (Ht p'); [set_solver|].
Qed.
End accept.

(** ** The whole request *)

Lemma billing_spec mode pt : check_billing mode pt = Ok tt <-> billing_ok mode /\ throughput_ok pt.
Proof.
  unfold check_billing, invalid. rewrite seq_unit.
  match goal with |- (?a /\ ?b) <-> (?c /\ ?d) => cut ((a <-> c) /\ (b <-> d)); [tauto|split] end.
  - destruct mode as [bm|]; simpl; [|by split]. destruct (billing_mode_ok bm); naive_solver.
  - destruct pt as [[r w]|]; simpl; [|by split].
    destruct (Z.ltb_spec r 1), (Z.ltb_spec w 1); simpl; (split; [|]); try done; lia.
Qed.

Lemma stream_spec o : check_stream o = Ok tt <-> stream_ok o.
Proof. unfold check_stream, invalid. destruct o as [[[] v]|]; simpl; naive_solver. Qed.

Lemma Forall2_iff_in {A B} (P Q : A -> B -> Prop) l k :
  (forall x y, x ∈ l -> P x y <-> Q x y) -> Forall2 P l k <-> Forall2 Q l k.
Proof.
  revert k. induction l as [|x l IH]; intros [|y k] H; rewrite ?Forall2_cons, ?Forall2_nil;
    try (by split; intros Hf; inversion Hf).
  rewrite H, IH by set_solver. done.
Qed.

Section whole.
Context {SI : SetIter}.

Lemma lsi_structures_spec t req ads m pk sk ps :
  ads = ct_attribute_definitions req -> attr_defs t ads = Ok m ->
  (forall a k, m !! a = Some k <-> typed ads a k) ->
  validate_lsi_structures t req pk sk = Ok ps
  <-> (length (lsis_of req) <= 5)%nat /\ NoDup (map lsi_index_name (lsis_of req)) /\ NoDup (map lp_sort_attr ps)
      /\ match sk with
         | Some sk => Forall2 (lsi_accepted ads pk sk) (lsis_of req) ps
         | None => lsis_of req = [] /\ ps = []
         end.
Proof.
  intros -> Hd Hm. set (ads := ct_attribute_definitions req) in *.
  unfold validate_lsi_structures, invalid, lsis_of.
  assert (Hnil : Ok [] = Ok ps :> Result DdlError (list LsiPlan)
    <-> (length (@nil LocalSecondaryIndex) <= 5)%nat /\ NoDup (map lsi_index_name []) /\ NoDup (map lp_sort_attr ps)
      /\ match sk with
         | Some sk => Forall2 (lsi_accepted ads pk sk) [] ps
         | None => @nil LocalSecondaryIndex = [] /\ ps = []
         end).
  { split.
    - intros [= <-]. split_and!; [simpl; lia|constructor|constructor|]. destruct sk; [constructor|done].
    - intros (_ & _ & _ & H). destruct sk; [by inversion H|by destruct H as [_ ->]]. }
  destruct (ct_local_secondary_indexes req) as [ls|]; [|done]. simpl or_empty. destruct ls as [|l ls]; [done|].
  clear Hnil. set (L := l :: ls). destruct (Nat.ltb_spec MAX_LSIS_PER_TABLE (length L)) as [Hc|Hc].
  { unfold MAX_LSIS_PER_TABLE in Hc. split; [done|]. intros [? _]. lia. }
  unfold MAX_LSIS_PER_TABLE in Hc. destruct sk as [sk|]; simpl ok_or.
  2: { split; [done|]. intros (_ & _ & _ & H & _). discriminate H. }
  change (ct_attribute_definitions req) with ads. rewrite Hd.
  pose proof (lsi_fold_spec t ads m pk sk L ∅ {[pk; sk]} [] Hm ltac:(set_solver) ps) as Hf. split.
  - intros H. destruct (fold_result _ _ _) as [[[s' t'] out]| |]; try done. simplify_eq.
    destruct (proj1 Hf ltac:(eauto)) as (ps' & -> & Hacc & Hn & Hcol & _ & _). by split_and!.
  - intros (_ & Hn & Hcol & Hacc). destruct (proj2 Hf) as (s' & t' & ->); [|done].
    exists ps. split_and!; [done..|set_solver|]. intros p Hp.
    destruct (proj1 (list_elem_of_lookup _ _) Hp) as [i Hi].
    destruct (Forall2_lookup_r _ _ _ _ _ Hacc Hi) as (l' & _ & Hl').
    pose proof (la_not_pk _ _ _ _ _ Hl'). pose proof (la_not_sk _ _ _ _ _ Hl'). set_solver.
Qed.

Lemma gsi_plans_spec t req ads m pk sk ps :
  ads = ct_attribute_definitions req -> attr_defs t ads = Ok m ->
  (forall a k, m !! a = Some k <-> typed ads a k) ->
  Forall (fun g => name_ok (gsi_index_name g) /\ exists h r, key_shape (gsi_key_schema g) h r) (gsis_of req) ->
  validate_gsi_plans t req pk sk = Ok ps <-> Forall2 (gsi_accepted ads pk sk) (gsis_of req) ps.
Proof.
  intros -> Hd Hm Hg. unfold validate_gsi_plans, gsis_of in *.
  destruct (ct_global_secondary_indexes req) as [[|g gs]|]; simpl or_empty in *.
  1, 3: split; [intros [= <-]; constructor|intros H; by inversion H].
  rewrite Hd, collect_Ok_iff. rewrite Forall_forall in Hg. apply Forall2_iff_in. intros x p Hx.
  destruct (Hg x Hx) as [Hn Hs]. by apply gsi_plan_spec.
Qed.

Lemma nonempty_spec t req :
  validate_attribute_definitions_nonempty t req = Ok tt <-> ct_attribute_definitions req <> [].
Proof. unfold validate_attribute_definitions_nonempty, invalid. destruct (ct_attribute_definitions req); naive_solver. Qed.

Lemma key_schema_shape_spec t ks h r : key_shape ks h r -> validate_key_schema_shape t ks = Ok tt.
Proof. by destruct 1. Qed.

Lemma accepted_of_valid req plan : validate_create_table req = Ok plan -> request_accepted req plan.
Proof.
  unfold validate_create_table. set (t := ct_table_name req). intros H.
  destruct (validate_table_name t) as [[]| |] eqn:Hn; try done. apply table_name_spec in Hn as [Hn Hres].
  destruct (validate_attribute_definitions_nonempty t req) as [[]| |]; try done.
  destruct (validate_attribute_names t req) as [[]| |] eqn:Ha; try done. apply attribute_names_spec in Ha.
  destruct (validate_key_schema_shape t _) as [[]| |]; try done.
  destruct (validate_key_schema_and_attrs t req) as [[[[pk pt] sk] st]| |] eqn:Hk; try done.
  apply key_schema_and_attrs_spec in Hk as (Hs & Hok & Hnd & Hused & Hpt & Hst).
  destruct (attr_defs_distinct_total t _ Hok Hnd) as [m Hd].
  apply attr_defs_distinct_spec in Hd as (Hd & _ & _ & Hm).
  destruct (validate_gsi_structures t req) as [[]| |] eqn:Hg; try done. apply gsi_structures_spec in Hg as [Hg Hgn].
  destruct (validate_gsi_plans t req pk sk) as [gsis| |] eqn:Hgp; try done.
  apply (gsi_plans_spec t req (ct_attribute_definitions req) m) in Hgp; [|done..].
  destruct (validate_lsi_structures t req pk sk) as [lsis| |] eqn:Hl; try done.
  apply (lsi_structures_spec t req (ct_attribute_definitions req) m) in Hl as (Hlc & Hln & Hlcol & Hl); [|done..].
  destruct (validate_stream_not_enabled req) as [[]| |] eqn:Hstr; try done. apply stream_spec in Hstr.
  destruct (validate_billing_mode req) as [[]| |] eqn:Hb; try done. apply billing_spec in Hb as [Hb Htp].
  injection H as <-. by constructor.
Qed.

Lemma valid_of_accepted req plan : request_accepted req plan -> validate_create_table req = Ok plan.
Proof.
  intros [Hn Hres Ha Hs Hok Hnd Hused Hpt Hst Hgn Hg Hlc Hln Hlcol Hl Hstr Hb Htp E1 E2 E3 E4 E5 E6].
  unfold validate_create_table. set (t := ct_table_name req) in *.
  rewrite (proj2 (table_name_spec t)) by done.
  rewrite (proj2 (nonempty_spec t req)) by (intros E; unfold typed in Hpt; rewrite E in Hpt; set_solver).
  rewrite (proj2 (attribute_names_spec t req)) by done.
  rewrite (key_schema_shape_spec t _ _ _ Hs).
  rewrite (proj2 (key_schema_and_attrs_spec t req _ _ _ _)
             (conj Hs (conj Hok (conj Hnd (conj Hused (conj Hpt Hst)))))).
  destruct (attr_defs_distinct_total t _ Hok Hnd) as [m Hd].
  apply attr_defs_distinct_spec in Hd as (Hd & _ & _ & Hm).
  assert (Hgs : Forall (fun g => name_ok (gsi_index_name g) /\ exists h r, key_shape (gsi_key_schema g) h r) (gsis_of req)).
  { apply Forall_forall. intros g Hin. destruct (proj1 (list_elem_of_lookup _ _) Hin) as [i Hi].
    destruct (Forall2_lookup_l _ _ _ _ _ Hg Hi) as (p & _ & Hp). split; [apply Hp|]. do 2 eexists. apply Hp. }
  rewrite (proj2 (gsi_structures_spec t req)) by done.
  rewrite (proj2 (gsi_plans_spec t req _ m _ _ _ eq_refl Hd Hm Hgs) Hg).
  rewrite (proj2 (lsi_structures_spec t req _ m _ _ _ eq_refl Hd Hm) (conj Hlc (conj Hln (conj Hlcol Hl)))).
  unfold validate_stream_not_enabled, validate_billing_mode.
  rewrite (proj2 (stream_spec _) Hstr), (proj2 (billing_spec _ _)) by done.
  destruct plan. simpl in *. by subst.
Qed.

(** C6: CreateTable accepts a request, with a given plan, exactly when the
    declarative rules relate the two: names of 3 to 255 characters that are
    not reserved, a HASH and an optional RANGE key in either order, exactly
    the attributes some key uses defined once with a type, distinct index
    names, GSIs that are not the base key, at most five LSIs with the base
    partition key and columns of their own.  Of the GSI keys only those
    that are the base key itself are refused; the comments of the code also
    rule out every other use of a base key attribute, which is accepted. *)
Theorem create_table_validation_spec req plan :
  validate_create_table req = Ok plan <-> request_accepted req plan.
Proof. split; [apply accepted_of_valid | apply valid_of_accepted]. Qed.
End whole.
