(* ===== verification/CreateTable.v ===== *)
(** * The DDL of CreateTable (rekt-ddl, [create.rs])

    The block of statements for a validated plan: the columns, the primary
    key and one index per LSI and GSI. A column is kept as its parts until
    it is rendered. *)

From S2P Require Import Prelude RustStr Json Storage Catalog ApiError DdlTypes Naming Validation ValidationSpec.

Definition pg_key_type (t : KeyType) : string :=
  match t with KeyType_S => "text" | KeyType_N => "numeric" | KeyType_B => "bytea" end.

Definition generated_expr (attr : string) (kt : KeyType) : string :=
  match kt with
  | KeyType_S => "(data #>> '{" +:+ attr +:+ ",S}')"
  | KeyType_N => "((data #>> '{" +:+ attr +:+ ",N}')::numeric)"
  | KeyType_B => "decode(data #>> '{" +:+ attr +:+ ",B}', 'base64')"
  end.

(** A generated column: its name, its type and whether it is [NOT NULL]. *)
Record Column : Type := mkColumn { col_name : string; col_type : KeyType; col_not_null : bool }.

Definition render_column (c : Column) : string :=
  "    " +:+ col_name c +:+ " " +:+ pg_key_type (col_type c) +:+ " GENERATED ALWAYS AS ("
  +:+ generated_expr (col_name c) (col_type c) +:+ ") STORED" +:+ (if col_not_null c then " NOT NULL" else "").

(** [if emitted_cols.insert(name) { cols.push(..) }]. *)
Definition emit (st : gset string * list Column) (c : string * KeyType) : gset string * list Column :=
  let '(emitted_cols, cols) := st in
  if bool_decide (c.1 ∈ emitted_cols) then st
  else ({[c.1]} ∪ emitted_cols, cols ++ [mkColumn c.1 c.2 false]).

(** [if let (Some(a), Some(t)) = (attr, ty)]. *)
Definition opt_pair {A B} (a : option A) (b : option B) : list (A * B) :=
  match a, b with Some a, Some b => [(a, b)] | _, _ => [] end.

Definition key_columns (plan : CreateTablePlan) : list Column :=
  mkColumn (cp_pk_attr plan) (cp_pk_type plan) true
  :: map (fun c => mkColumn c.1 c.2 true) (opt_pair (cp_sk_attr plan) (cp_sk_type plan)).

(** The index columns in the order of the source: LSI sort attributes,
    then each GSI's partition and sort attribute. *)
Definition index_candidates (plan : CreateTablePlan) : list (string * KeyType) :=
  map (fun l => (lp_sort_attr l, lp_sort_type l)) (cp_lsis plan)
  ++ concat (map (fun g => (gp_partition_attr g, gp_partition_type g) :: opt_pair (gp_sort_attr g) (gp_sort_type g))
               (cp_gsis plan)).

Definition generated_columns (plan : CreateTablePlan) : list Column :=
  key_columns plan
  ++ (fold_left emit (index_candidates plan)
        ({[cp_pk_attr plan]} ∪ list_to_set (option_list (cp_sk_attr plan)), [])).2.

Definition has_sk (plan : CreateTablePlan) : bool :=
  bool_decide (opt_pair (cp_sk_attr plan) (cp_sk_type plan) <> []).
Definition primary_key_clause (plan : CreateTablePlan) : string :=
  if has_sk plan
  then "    PRIMARY KEY (" +:+ cp_pk_attr plan +:+ ", " +:+ default "" (cp_sk_attr plan) +:+ ")"
  else "    PRIMARY KEY (" +:+ cp_pk_attr plan +:+ ")".

Definition newline : string := byte_str [10].

Section create.
Context {SH : Sha1}.

Definition index_statement (idx pg_table cols include_clause : string) : string :=
  "CREATE INDEX IF NOT EXISTS " +:+ idx +:+ " ON " +:+ pg_table +:+ " (" +:+ cols +:+ ") " +:+ include_clause
  +:+ ";" +:+ newline.

Definition create_table_sql (plan : CreateTablePlan) (pg_table : string) : string :=
  let cols := ["    data jsonb NOT NULL"] ++ map render_column (generated_columns plan)
              ++ [primary_key_clause plan] in
  let table := "CREATE TABLE IF NOT EXISTS " +:+ pg_table +:+ " (" +:+ newline
               +:+ String.concat ("," +:+ newline) cols +:+ newline +:+ ");" +:+ newline in
  let include_clause := "INCLUDE (" +:+ cp_jsonb_col plan +:+ ")" in
  let lsis := map (fun l => index_statement (derive_lsi_index_name pg_table (lp_name l)) pg_table
                              (cp_pk_attr plan +:+ ", " +:+ lp_sort_attr l) include_clause) (cp_lsis plan) in
  let gsis := map (fun g => index_statement (derive_gsi_index_name pg_table (gp_name g)) pg_table
                              (match gp_sort_attr g with
                               | None => gp_partition_attr g
                               | Some s => gp_partition_attr g +:+ ", " +:+ s
                               end) include_clause) (cp_gsis plan) in
  table +:+ String.concat "" (lsis ++ gsis).

Definition derive_pg_table (plan : CreateTablePlan) : string := sanitize_pg_table_name (cp_table_name plan).
End create.

(** ** Facts *)

(** Rendered against the source's own test. *)
Definition events_plan : CreateTablePlan :=
  mkCreateTablePlan "Events" "device" KeyType_S (Some "ts") (Some KeyType_N) "data" None None None (VObject [])
    [mkLsiPlan "by_status" "status" KeyType_S (Some "ALL") None] [].
Example events_ddl :
  let sql := create_table_sql (SH := Sha1Reference.instance) events_plan "rekt_t_events" in
  str_contains sql "device text GENERATED ALWAYS AS ((data #>> '{device,S}')) STORED NOT NULL" = true
  /\ str_contains sql "ts numeric GENERATED ALWAYS AS (((data #>> '{ts,N}')::numeric)) STORED NOT NULL" = true
  /\ str_contains sql ("status text GENERATED ALWAYS AS ((data #>> '{status,S}')) STORED," +:+ newline) = true
  /\ str_contains sql "PRIMARY KEY (device, ts)" = true
  /\ str_contains sql "CREATE INDEX IF NOT EXISTS rekt_t_events_lsi_by_status_idx ON rekt_t_events (device, status) INCLUDE (data);" = true.
Proof. vm_compute. done. Qed.

Lemma emit_all l : forall S cols,
  NoDup (map col_name cols) -> (forall c, c ∈ cols -> col_name c ∈ S) ->
  let '(S', cols') := fold_left emit l (S, cols) in
  NoDup (map col_name cols')
  /\ (forall x, x ∈ map col_name cols' <-> x ∈ map col_name cols \/ (x ∈ l.*1 /\ x ∉ S))
  /\ (forall c, c ∈ cols' -> c ∈ cols \/ ((col_name c, col_type c) ∈ l /\ col_not_null c = false)).
Proof.
  induction l as [|[a t] l IH]; intros S cols Hnd HS; simpl.
  { split_and!; [done|set_solver|by auto]. }
  case_bool_decide as Ha.
  - specialize (IH S cols Hnd HS). destruct (fold_left _ _ _) as [S' cols']. destruct IH as (H1 & H2 & H3).
    split_and!; [done| |].
    + intros x. rewrite H2, elem_of_cons. split; [naive_solver|]. intros [?|[[->|?] ?]]; naive_solver.
    + intros c Hc. destruct (H3 c Hc) as [?|[? ?]]; [by auto|]. right. split; [by right|done].
  - assert (Hnd' : NoDup (map col_name (cols ++ [mkColumn a t false]))).
    { rewrite map_app. apply NoDup_app. split_and!; [done| |simpl; apply NoDup_singleton].
      intros x (c & -> & Hc)%list_elem_of_fmap Hx. apply HS in Hc. set_solver. }
    specialize (IH ({[a]} ∪ S) (cols ++ [mkColumn a t false]) Hnd').
    destruct (fold_left _ _ _) as [S' cols']. destruct IH as (H1 & H2 & H3).
    { intros c [Hc| ->%list_elem_of_singleton]%elem_of_app; [apply HS in Hc; set_solver|simpl; set_solver]. }
    split_and!; [done| |].
    + intros x. rewrite H2, map_app, elem_of_app, elem_of_cons, not_elem_of_union. simpl. rewrite list_elem_of_singleton.
      rewrite elem_of_singleton. destruct (decide (x = a)) as [->|]; naive_solver.
    + intros c Hc. destruct (H3 c Hc) as [[?| ->%list_elem_of_singleton]%elem_of_app|[? ?]]; [by auto| |].
      * right. simpl. split; [by left|done].
      * right. split; [by right|done].
Qed.

Lemma emitted_spec plan :
  let r := (fold_left emit (index_candidates plan)
              ({[cp_pk_attr plan]} ∪ list_to_set (option_list (cp_sk_attr plan)), [])).2 in
  NoDup (map col_name r)
  /\ (forall x, x ∈ map col_name r <->
        x ∈ (index_candidates plan).*1 /\ x <> cp_pk_attr plan /\ Some x <> cp_sk_attr plan)
  /\ (forall c, c ∈ r -> (col_name c, col_type c) ∈ index_candidates plan /\ col_not_null c = false).
Proof.
  set (S0 := {[cp_pk_attr plan]} ∪ _ : gset string).
  pose proof (emit_all (index_candidates plan) S0 [] ltac:(constructor) ltac:(set_solver)) as H.
  destruct (fold_left _ _ _) as [S' r]. simpl. destruct H as (H1 & H2 & H3). split_and!; [done| |].
  - intros x. rewrite H2. unfold S0. rewrite not_elem_of_union, option_list_set, elem_of_singleton.
    simpl. split; [intros [Hx|(? & ? & ?)]; [set_solver|naive_solver]|naive_solver].
  - intros c Hc. destruct (H3 c Hc) as [Hx|[? ?]]; [set_solver|done].
Qed.

Lemma opt_pair_typed ads a t c : typed_opt ads a t -> c ∈ opt_pair a t -> a = Some c.1 /\ typed ads c.1 c.2.
Proof. destruct a, t; simpl; try done; [|set_solver]. intros Ht ->%list_elem_of_singleton. done. Qed.

Lemma opt_pair_fst ads a t : typed_opt ads a t -> (opt_pair (A := string) (B := KeyType) a t).*1 = option_list a.
Proof. by destruct a, t. Qed.

Lemma key_shape_names ks h r : key_shape ks h r -> forall a, a ∈ key_attr_names ks <-> a = h \/ r = Some a.
Proof. destruct 1; simpl; intros a; rewrite !elem_of_cons, elem_of_nil; naive_solver. Qed.

Section accepted.
Context (req : CreateTableRequest) (plan : CreateTablePlan) (Hacc : request_accepted req plan).

Lemma candidates_typed c : c ∈ index_candidates plan -> typed (ct_attribute_definitions req) c.1 c.2.
Proof.
  unfold index_candidates. intros [(l & -> & Hl)%list_elem_of_fmap|Hg]%elem_of_app.
  - pose proof (ra_lsis _ _ Hacc) as Hls. destruct (cp_sk_attr plan) as [sk|].
    + apply list_elem_of_lookup in Hl as [i Hi].
      destruct (Forall2_lookup_r _ _ _ _ _ Hls Hi) as (l' & _ & Hl'). apply Hl'.
    + destruct Hls as [_ E]. rewrite E in Hl. set_solver.
  - apply list_elem_of_In, in_concat in Hg as (x & Hx & Hc). apply list_elem_of_In in Hx, Hc.
    apply list_elem_of_fmap in Hx as (g & -> & Hg).
    apply list_elem_of_lookup in Hg as [i Hi].
    destruct (Forall2_lookup_r _ _ _ _ _ (ra_gsis _ _ Hacc) Hi) as (g' & _ & Hg').
    apply elem_of_cons in Hc as [-> |Hc]; [apply Hg'|].
    by apply (opt_pair_typed _ _ _ _ (ga_sort_type _ _ _ _ _ Hg')) in Hc as [_ ?].
Qed.

Lemma candidates_names a :
  a ∈ (index_candidates plan).*1 <->
  (exists p, p ∈ cp_lsis plan /\ lp_sort_attr p = a)
  \/ (exists p, p ∈ cp_gsis plan /\ (gp_partition_attr p = a \/ gp_sort_attr p = Some a)).
Proof.
  unfold index_candidates. rewrite fmap_app, elem_of_app. apply Morphisms_Prop.or_iff_morphism.
  - rewrite <- list_fmap_compose. rewrite list_elem_of_fmap. naive_solver.
  - rewrite list_elem_of_fmap. split.
    + intros (c & -> & Hc). apply list_elem_of_In, in_concat in Hc as (x & Hx & Hc).
      apply list_elem_of_In in Hx, Hc. apply list_elem_of_fmap in Hx as (g & -> & Hg). exists g. split; [done|].
      apply elem_of_cons in Hc as [-> |Hc]; [by left|]. right.
      destruct (gp_sort_attr g), (gp_sort_type g); simpl in Hc; set_solver.
    + intros (p & Hp & Ha). pose proof Hp as Hin. apply list_elem_of_lookup in Hp as [i Hi].
      destruct (Forall2_lookup_r _ _ _ _ _ (ra_gsis _ _ Hacc) Hi) as (g & _ & Hg).
      pose proof (ga_sort_type _ _ _ _ _ Hg) as Hst.
      assert (forall c, c ∈ (gp_partition_attr p, gp_partition_type p) :: opt_pair (gp_sort_attr p) (gp_sort_type p) ->
                c ∈ concat (map (fun g => (gp_partition_attr g, gp_partition_type g)
                                  :: opt_pair (gp_sort_attr g) (gp_sort_type g)) (cp_gsis plan))) as Hc.
      { intros c Hc. apply list_elem_of_In, in_concat. eexists. split; [|by apply list_elem_of_In].
        apply in_map_iff. exists p. split; [done|]. by apply list_elem_of_In. }
      destruct Ha as [<-|Ha].
      * exists (gp_partition_attr p, gp_partition_type p). split; [done|]. apply Hc. by left.
      * rewrite Ha in Hst, Hc. destruct (gp_sort_type p) as [t|]; [|done].
        exists (a, t). split; [done|]. apply Hc. right. by left.
Qed.

(** The attributes of the index keys, as the request lists them. *)
Lemma keyed_names a :
  a ∈ keyed_attrs (cp_pk_attr plan) (cp_sk_attr plan) req <->
  a = cp_pk_attr plan \/ cp_sk_attr plan = Some a \/ a ∈ (index_candidates plan).*1.
Proof.
  rewrite candidates_names. unfold keyed_attrs. rewrite !elem_of_union, option_list_set, elem_of_singleton,
    !elem_of_list_to_set. change (or_empty (ct_global_secondary_indexes req)) with (gsis_of req).
  change (or_empty (ct_local_secondary_indexes req)) with (lsis_of req).
  assert (HG : a ∈ concat (map (fun g => key_attr_names (gsi_key_schema g)) (gsis_of req)) <->
    exists p, p ∈ cp_gsis plan /\ (gp_partition_attr p = a \/ gp_sort_attr p = Some a)).
  { rewrite list_elem_of_In, in_concat. setoid_rewrite in_map_iff. split.
    - intros (x & (g & <- & Hg) & Ha). apply list_elem_of_In, list_elem_of_lookup in Hg as [i Hi].
      destruct (Forall2_lookup_l _ _ _ _ _ (ra_gsis _ _ Hacc) Hi) as (p & Hp & Hgp). exists p.
      split; [by apply list_elem_of_lookup; exists i|].
      apply list_elem_of_In, (key_shape_names _ _ _ (ga_shape _ _ _ _ _ Hgp)) in Ha. naive_solver.
    - intros (p & Hp & Ha). apply list_elem_of_lookup in Hp as [i Hi].
      destruct (Forall2_lookup_r _ _ _ _ _ (ra_gsis _ _ Hacc) Hi) as (g & Hg & Hgp).
      exists (key_attr_names (gsi_key_schema g)). split.
      + exists g. split; [done|]. apply list_elem_of_In, list_elem_of_lookup. by exists i.
      + apply list_elem_of_In, (key_shape_names _ _ _ (ga_shape _ _ _ _ _ Hgp)). naive_solver. }
  assert (HL : a ∈ concat (map (fun l => key_attr_names (lsi_key_schema l)) (lsis_of req)) ->
    a = cp_pk_attr plan \/ exists p, p ∈ cp_lsis plan /\ lp_sort_attr p = a).
  { rewrite list_elem_of_In, in_concat. setoid_rewrite in_map_iff. intros (x & (l & <- & Hl) & Ha).
    pose proof (ra_lsis _ _ Hacc) as Hls. apply list_elem_of_In in Hl, Ha. destruct (cp_sk_attr plan) as [sk|].
    2: { destruct Hls as [E _]. rewrite E in Hl. set_solver. }
    apply list_elem_of_lookup in Hl as [i Hi].
    destruct (Forall2_lookup_l _ _ _ _ _ Hls Hi) as (p & Hp & Hlp).
    apply (key_shape_names _ _ _ (la_shape _ _ _ _ _ Hlp)) in Ha as [->|[= Ha]]; [by left|].
    right. exists p. split; [|done]. apply list_elem_of_lookup. by exists i. }
  assert (HL' : (exists p, p ∈ cp_lsis plan /\ lp_sort_attr p = a) ->
    a ∈ concat (map (fun l => key_attr_names (lsi_key_schema l)) (lsis_of req))).
  { intros (p & Hp & Ha). pose proof (ra_lsis _ _ Hacc) as Hls. destruct (cp_sk_attr plan) as [sk|].
    2: { destruct Hls as [_ E]. rewrite E in Hp. set_solver. }
    apply list_elem_of_lookup in Hp as [i Hi].
    destruct (Forall2_lookup_r _ _ _ _ _ Hls Hi) as (l & Hl & Hlp).
    rewrite list_elem_of_In, in_concat. exists (key_attr_names (lsi_key_schema l)). split.
    - apply in_map_iff. exists l. split; [done|]. apply list_elem_of_In, list_elem_of_lookup. by exists i.
    - apply list_elem_of_In, (key_shape_names _ _ _ (la_shape _ _ _ _ _ Hlp)). right. by f_equal. }
  rewrite HG. naive_solver.
Qed.
End accepted.

Lemma elem_of_opt (o : option string) a : a ∈ option_list o <-> o = Some a.
Proof. destruct o; simpl; set_solver. Qed.

Definition column_names (plan : CreateTablePlan) : list string := map col_name (generated_columns plan).

Lemma key_column_names req plan :
  request_accepted req plan -> map col_name (key_columns plan) = cp_pk_attr plan :: option_list (cp_sk_attr plan).
Proof.
  intros Hacc. unfold key_columns. simpl. f_equal. rewrite map_map.
  rewrite <- (opt_pair_fst _ _ _ (ra_sk_type _ _ Hacc)). done.
Qed.

Lemma column_names_spec req plan : request_accepted req plan -> forall a,
  a ∈ column_names plan <-> a ∈ map ad_attribute_name (ct_attribute_definitions req).
Proof.
  intros Hacc a. unfold column_names, generated_columns. rewrite map_app, elem_of_app.
  rewrite (key_column_names req plan Hacc).
  destruct (emitted_spec plan) as (_ & H2 & _). rewrite H2, (ra_defs_used _ _ Hacc a), (keyed_names req plan Hacc).
  rewrite elem_of_cons, elem_of_opt.
  destruct (decide (a = cp_pk_attr plan)), (decide (cp_sk_attr plan = Some a)); naive_solver.
Qed.

Lemma columns_typed req plan : request_accepted req plan -> forall c, c ∈ generated_columns plan ->
  typed (ct_attribute_definitions req) (col_name c) (col_type c)
  /\ (col_not_null c = true -> col_name c = cp_pk_attr plan \/ cp_sk_attr plan = Some (col_name c)).
Proof.
  intros Hacc c. unfold generated_columns. intros [Hk|He]%elem_of_app.
  - unfold key_columns in Hk. apply elem_of_cons in Hk as [->|Hk].
    { split; [apply Hacc|by left]. }
    apply list_elem_of_fmap in Hk as (x & -> & Hx). simpl.
    apply (opt_pair_typed _ _ _ _ (ra_sk_type _ _ Hacc)) in Hx as [-> Hx]. by auto.
  - destruct (emitted_spec plan) as (_ & _ & H3). destruct (H3 c He) as [Hc ->]. split; [|done].
    by apply (candidates_typed req plan Hacc) in Hc.
Qed.

Lemma columns_distinct req plan : request_accepted req plan ->
  NoDup (column_names plan) <-> cp_sk_attr plan <> Some (cp_pk_attr plan).
Proof.
  intros Hacc. unfold column_names, generated_columns. rewrite map_app, (key_column_names req plan Hacc), NoDup_app.
  destruct (emitted_spec plan) as (H1 & H2 & _). split.
  - intros (Hnd & _) E. rewrite E in Hnd. simpl in Hnd. apply NoDup_cons in Hnd. set_solver.
  - intros Hne. split_and!; [|intros x Hx; rewrite H2; rewrite elem_of_cons, elem_of_opt in Hx; naive_solver|done].
    apply NoDup_cons. split; [|destruct (cp_sk_attr plan); [apply NoDup_singleton|constructor]].
    by rewrite elem_of_opt.
Qed.

(** the CREATE TABLE of an accepted request has one generated column
    for each attribute the request defines and no other, each of the type
    the definition gives, and only the base key columns are [NOT NULL].
    The columns, the payload column [data] included, are distinct exactly
    when HASH and RANGE name different attributes and no attribute is
    called [data]: validation accepts the other requests too, and the
    statement then names a column twice. *)
Theorem created_columns {SI : SetIter} req plan :
  validate_create_table req = Ok plan ->
  (forall a, a ∈ column_names plan <-> a ∈ map ad_attribute_name (ct_attribute_definitions req))
  /\ (forall c, c ∈ generated_columns plan ->
        typed (ct_attribute_definitions req) (col_name c) (col_type c)
        /\ (col_not_null c = true -> col_name c = cp_pk_attr plan \/ cp_sk_attr plan = Some (col_name c)))
  /\ (NoDup ("data" :: column_names plan) <->
      cp_sk_attr plan <> Some (cp_pk_attr plan)
      /\ "data" ∉ map ad_attribute_name (ct_attribute_definitions req)).
Proof.
  intros Hacc%accepted_of_valid. split_and!.
  - by apply column_names_spec.
  - by apply columns_typed.
  - rewrite NoDup_cons, (columns_distinct req plan Hacc), (column_names_spec req plan Hacc). tauto.
Qed.

(** ** Examples *)

Definition elements_iter : SetIter.
Proof. refine {| set_iter := elements |}. intros s x. apply elem_of_elements. Defined.

Definition key (a t : string) : KeySchemaElement := mkKeySchemaElement a t.
Definition no_projection : Projection := mkProjection None None.
Definition orders_request (pk sk : string) : CreateTableRequest :=
  mkCreateTableRequest "Orders" [key pk "HASH"; key sk "RANGE"]
    (map (fun a => mkAttributeDefinition a "S") (remove_dups [pk; sk; "tier"])) None None
    (Some [mkGlobalSecondaryIndex "by-tier" [key "tier" "HASH"] no_projection None None]) None None None None None
    None None None.

Lemma created_columns_witness :
  exists plan, validate_create_table (SI := elements_iter) (orders_request "id" "ts") = Ok plan
  /\ column_names plan = ["id"; "ts"; "tier"] /\ NoDup ("data" :: column_names plan).
Proof.
  eexists. split; [vm_compute; reflexivity|]. split; [vm_compute; reflexivity|].
  apply (created_columns (SI := elements_iter) (orders_request "id" "ts")); [vm_compute; reflexivity|].
  split; [done|]. simpl. rewrite !elem_of_cons, elem_of_nil. naive_solver.
Defined.

(** HASH and RANGE on one attribute are accepted; the statement declares
    the column twice. *)
Example same_hash_and_range :
  exists plan, validate_create_table (SI := elements_iter) (orders_request "id" "id") = Ok plan
  /\ column_names plan = ["id"; "id"; "tier"].
Proof. eexists. split; vm_compute; reflexivity. Qed.
