(* ===== verification/TableSpecs.v ===== *)
(** * Index specs, entries and table descriptions

    What CreateTable stores for a plan ([build_lsi_specs],
    [build_gsi_specs], [entry_for_new_table] of rekt-ddl [lib.rs]), and the
    two functions that describe an entry on the wire:
    [synthesize_description] (rekt-ddl) and [table_description_from_entry]
    (rekt-server [ddl.rs]). *)

From S2P Require Import Prelude RustStr Json Storage Schema Catalog Reconciler.
From S2P Require Import ApiError DdlTypes Naming Validation ValidationSpec CreateTable.

Section specs.
Context {SH : Sha1}.

Definition build_lsi_specs (plan : CreateTablePlan) (pg_table : string) : list LsiSpec :=
  map (fun l => mkLsiSpec (lp_name l) (lp_sort_attr l) (lp_sort_type l) (lp_sort_attr l)
                  (derive_lsi_index_name pg_table (lp_name l)) (lp_projection_type l)
                  (lp_projection_non_key_attrs l) true None) (cp_lsis plan).

Definition build_gsi_specs (plan : CreateTablePlan) (pg_table : string) : list GsiSpec :=
  map (fun g => mkGsiSpec (gp_name g) (gp_partition_attr g) (gp_partition_type g) (gp_partition_attr g)
                  (gp_sort_attr g) (gp_sort_type g) (gp_sort_attr g)
                  (derive_gsi_index_name pg_table (gp_name g)) (gp_projection_type g)
                  (gp_projection_non_key_attrs g) GsiMode_Generated true None) (cp_gsis plan).

Definition entry_for_new_table (now : Z) (plan : CreateTablePlan) : TableEntry :=
  let pg_table := derive_pg_table plan in
  let lsis := build_lsi_specs plan pg_table in
  let gsis := build_gsi_specs plan pg_table in
  mkTableEntry
    (mkTableSchema (cp_table_name plan) pg_table (cp_pk_attr plan) (cp_pk_type plan) (cp_sk_attr plan)
       (cp_sk_type plan) (cp_jsonb_col plan)
       (hm_collect (map (fun s => (ls_name s, lsi_schema_of s)) lsis))
       (hm_collect (map (fun s => (gs_name s, gsi_schema_of s)) gsis)))
    TableStatus_Active true None now now "ddl" (cp_billing_mode plan) (cp_provisioned_rcu plan)
    (cp_provisioned_wcu plan) (cp_tags plan) (hm_collect (map (fun g => (gs_name g, g)) gsis)) lsis.
End specs.

(** ** Descriptions *)

Definition synthesize_table_arn (table_name : string) : string :=
  "arn:aws:dynamodb:::rektifier-table/" +:+ table_name.

Definition key_elements (pk : string) (sk : option string) : list KeySchemaElement :=
  mkKeySchemaElement pk "HASH" :: map (fun s => mkKeySchemaElement s "RANGE") (option_list sk).
Definition attr_def (c : string * KeyType) : AttributeDefinition :=
  mkAttributeDefinition c.1 (key_type_str c.2).
(** [if let (Some(sk_attr), Some(sk_type)) = ..]: both or neither. *)
Definition schema_keys (s : TableSchema) : list (string * KeyType) :=
  (pk_attr s, pk_type s) :: opt_pair (sk_attr s) (sk_type s).
Definition schema_key_elements (s : TableSchema) : list KeySchemaElement :=
  key_elements (pk_attr s) (fst <$> head (opt_pair (sk_attr s) (sk_type s))).
Definition billing_summary (entry : TableEntry) : option BillingModeSummary :=
  (fun bm => mkBillingModeSummary (Some bm) None) <$> te_billing_mode entry.

(** The fields both functions set alike. *)
Definition description (entry : TableEntry) (defs : list AttributeDefinition)
    (throughput : option ProvisionedThroughputDescription) (gsis : option (list GlobalSecondaryIndexDescription))
    (lsis : option (list LocalSecondaryIndexDescription)) : TableDescription :=
  let s := te_schema entry in
  mkTableDescription (Some (Schema.name s)) (Some (to_wire_str (te_status entry)))
    (Some (synthesize_table_arn (Schema.name s))) None (Some (te_creation_date_ms entry))
    (Some (schema_key_elements s)) (Some defs) throughput (billing_summary entry) (Some 0%Z) (Some 0%Z)
    gsis lsis None None None None None.

Definition synthesize_description (entry : TableEntry) : TableDescription :=
  description entry (map attr_def (schema_keys (te_schema entry))) None None None.

(** [if declared.insert(name) { attr_defs.push(..) }]. *)
Definition declare (st : gset string * list AttributeDefinition) (c : string * KeyType)
  : gset string * list AttributeDefinition :=
  if bool_decide (c.1 ∈ st.1) then st else ({[c.1]} ∪ st.1, st.2 ++ [attr_def c]).

Definition projection_desc (pt : option string) (nka : option (list string)) : option Projection :=
  Some (mkProjection (match pt with Some p => Some p | None => Some "ALL" end) nka).

Definition lsi_desc (pk : string) (l : LsiSpec) : LocalSecondaryIndexDescription :=
  mkLocalSecondaryIndexDescription (Some (ls_name l)) (Some (key_elements pk (Some (ls_sort_attr l))))
    (projection_desc (ls_projection_type l) (ls_projection_non_key_attrs l)) (Some 0%Z) (Some 0%Z) None.

Definition gsi_desc (g : GsiSpec) : GlobalSecondaryIndexDescription :=
  mkGlobalSecondaryIndexDescription (Some (gs_name g)) (Some (key_elements (gs_partition_attr g) (gs_sort_attr g)))
    (projection_desc (gs_projection_type g) (gs_projection_non_key_attrs g))
    (Some (if gs_serveable g then "ACTIVE" else "CREATING")) None None (Some 0%Z) (Some 0%Z) None.

(** [descs.sort_by(|a, b| a.index_name.cmp(&b.index_name))], a stable
    sort. *)
Section sort.
Context {A : Type} (index_name : A -> option string).
Definition name_le (a b : A) : bool :=
  match index_name a, index_name b with
  | Some x, Some y => negb (str_ltb y x)
  | None, _ => true
  | Some _, None => false
  end.
Fixpoint insert_by (x : A) (l : list A) : list A :=
  match l with
  | [] => [x]
  | y :: l' => if name_le x y then x :: l else y :: insert_by x l'
  end.
Definition sort_by : list A -> list A := foldr insert_by [].

Lemma insert_by_perm x l : insert_by x l ≡ₚ x :: l.
Proof. induction l as [|y l IH]; simpl; [done|]. destruct (name_le x y); [done|]. rewrite IH. by constructor. Qed.
Lemma sort_by_perm l : sort_by l ≡ₚ l.
Proof. induction l as [|x l IH]; simpl; [done|]. by rewrite insert_by_perm, IH. Qed.
End sort.

Definition index_attrs (entry : TableEntry) : list (string * KeyType) :=
  map (fun l => (ls_sort_attr l, ls_sort_type l)) (te_lsis entry)
  ++ concat (map (fun g => (gs_partition_attr g, gs_partition_type g) :: opt_pair (gs_sort_attr g) (gs_sort_type g))
               (gsi_values entry)).

Definition described_defs (entry : TableEntry) : list AttributeDefinition :=
  let keys := schema_keys (te_schema entry) in
  (fold_left declare (index_attrs entry) (list_to_set keys.*1, map attr_def keys)).2.

Definition table_description_from_entry (entry : TableEntry) : TableDescription :=
  let lsi_descs := match te_lsis entry with
                   | [] => None
                   | l => Some (sort_by ld_index_name (map (lsi_desc (pk_attr (te_schema entry))) l))
                   end in
  let gsi_descs := match gsi_values entry with
                   | [] => None
                   | l => Some (sort_by gd_index_name (map gsi_desc l))
                   end in
  let provisioned := if bool_decide (is_Some (te_provisioned_rcu entry)) || bool_decide (is_Some (te_provisioned_wcu entry))
                     then Some (mkProvisionedThroughputDescription (te_provisioned_rcu entry)
                                  (te_provisioned_wcu entry) None None None)
                     else None in
  description entry (described_defs entry) provisioned gsi_descs lsi_descs.

(** ** What the server makes of the statement

    An identifier that is not quoted is folded to lower case and cut to 63
    bytes; the columns then appear in [information_schema] under that
    name, and each index in [pg_indexes] with a definition that lists its
    columns. *)

Definition server_identifier (s : string) : string := truncate_identifier (str_lower s).

Definition created_info (plan : CreateTablePlan) : list ColumnInfo :=
  mkColumnInfo "data" "jsonb" "NEVER"
  :: map (fun c => mkColumnInfo (server_identifier (col_name c)) (pg_key_type (col_type c)) "ALWAYS")
       (generated_columns plan).

(** The indexes of the statement: name and column list. *)
Definition created_indexes {SH : Sha1} (plan : CreateTablePlan) (pg_table : string) : list (string * string) :=
  map (fun l => (derive_lsi_index_name pg_table (lp_name l), cp_pk_attr plan +:+ ", " +:+ lp_sort_attr l)) (cp_lsis plan)
  ++ map (fun g => (derive_gsi_index_name pg_table (gp_name g),
                    match gp_sort_attr g with
                    | None => gp_partition_attr g
                    | Some s => gp_partition_attr g +:+ ", " +:+ s
                    end)) (cp_gsis plan).

Record pg_created {SH : Sha1} (pg : PgAnswers) (plan : CreateTablePlan) : Prop := {
  pc_columns : columns_of pg (derive_pg_table plan) = inr (created_info plan);
  pc_primary_key : primary_key_of pg (derive_pg_table plan)
                   = inr (map server_identifier (cp_pk_attr plan :: option_list (cp_sk_attr plan)));
  pc_indexes : exists idx, indexes_of pg (derive_pg_table plan) = inr idx
               /\ forall n cols, (n, cols) ∈ created_indexes plan (derive_pg_table plan) ->
                  exists def, idx !! truncate_identifier n = Some def /\ str_contains def ("(" +:+ cols +:+ ")") = true
}.

Lemma str_lower_idem s : str_lower (str_lower s) = str_lower s.
Proof.
  assert (Hc : forall c, to_ascii_lowercase (to_ascii_lowercase c) = to_ascii_lowercase c).
  { intros c. apply Ascii.eqb_eq. revert c. apply all_ascii. vm_compute. reflexivity. }
  induction s as [|c s IH]; [done|]. unfold str_lower in *. cbn [str_map]. by rewrite Hc, IH.
Qed.

Lemma str_lower_take n s : str_lower (str_take n s) = str_take n (str_lower s).
Proof.
  revert s. induction n as [|n IH]; intros [|c s]; try done. cbn [str_take].
  unfold str_lower in *. cbn [str_map str_take]. by rewrite IH.
Qed.

Lemma server_identifier_lower s : str_lower (server_identifier s) = server_identifier s.
Proof. unfold server_identifier, truncate_identifier. by rewrite str_lower_take, str_lower_idem. Qed.

Lemma find_column_none cols a : (forall c, c ∈ cols -> ci_name c <> a) -> find_column cols a = None.
Proof.
  intros H. unfold find_column. destruct (List.find _ cols) as [c|] eqn:E; [|done].
  apply find_some in E as [Hin%list_elem_of_In Ha%String.eqb_eq]. by destruct (H c Hin).
Qed.

(** when a key attribute of an accepted request has an upper-case
    letter, the table CreateTable made is never serveable: the statement
    names the column without quotes, the server folds the name, and the
    reconciler looks for the attribute's own spelling. *)
Theorem mixed_case_key_unserveable {SH : Sha1} {SI : SetIter} req plan now pg :
  validate_create_table req = Ok plan -> pg_created pg plan ->
  str_lower (cp_pk_attr plan) <> cp_pk_attr plan ->
  exists v, introspect pg (entry_for_new_table now plan) = Ok v
  /\ rv_status v = TableStatus_Degraded /\ rv_serveable v = false
  /\ rv_reason v = Some ("column `" +:+ cp_pk_attr plan +:+ "`: missing").
Proof.
  intros Hacc%accepted_of_valid Hpg Hupper. unfold introspect, entry_for_new_table, fetch_columns. cbn [te_schema pg_table].
  rewrite (pc_columns _ _ Hpg). cbn [db]. rewrite bool_decide_false by done.
  cbn [jsonb_col]. rewrite (ra_jsonb_col _ _ Hacc).
  assert (check_jsonb_column (created_info plan) "data" = None) as -> by done.
  cbn [pk_attr pk_type]. unfold check_key_column, check_column_with_mode. rewrite find_column_none.
  - eexists. split; [reflexivity|]. by cbn.
  - unfold created_info. intros c [->|(d & -> & _)%list_elem_of_fmap]%elem_of_cons Heq; cbn in Heq.
    + apply Hupper. by rewrite <- Heq.
    + apply Hupper. rewrite <- Heq. apply server_identifier_lower.
Qed.

Section fresh.
Context {SH : Sha1} {SI : SetIter} (req : CreateTableRequest) (plan : CreateTablePlan).
Hypothesis (Hacc : request_accepted req plan).
Hypothesis (Hkeys : cp_sk_attr plan <> Some (cp_pk_attr plan)).
Hypothesis (Hdata : "data" ∉ column_names plan).
Hypothesis (Hplain : forall a, a ∈ column_names plan -> server_identifier a = a).

Lemma created_column_ok a t :
  typed (ct_attribute_definitions req) a t -> column_ok (created_info plan) a t true.
Proof.
  intros Ht. assert (Ha : a ∈ column_names plan).
  { apply (column_names_spec req plan Hacc). by eapply typed_name. }
  unfold column_names in Ha. pose proof Ha as Hin. apply list_elem_of_fmap in Ha as (c & -> & Hc).
  assert (col_type c = t) as <-.
  { destruct (columns_typed req plan Hacc c Hc) as [Hct _]. unfold typed in *.
    pose proof (NoDup_map_inj _ _ _ _ (ra_defs_distinct _ _ Hacc) Hct Ht eq_refl) as [= E]. by apply key_type_str_inj. }
  exists (mkColumnInfo (col_name c) (pg_key_type (col_type c)) "ALWAYS"). split; [|by destruct (col_type c)].
  unfold find_column, created_info. cbn [List.find ci_name].
  destruct (String.eqb_spec "data" (col_name c)) as [E|_]; [rewrite E in Hdata; done|].
  pose proof (proj2 (columns_distinct req plan Hacc) Hkeys) as Hnd. unfold column_names in *.
  clear Ht Hin. induction (generated_columns plan) as [|d l IH]; [set_solver|].
  cbn [map] in Hnd, Hdata, Hplain. apply NoDup_cons in Hnd as [Hd Hnd]. cbn [map List.find ci_name].
  rewrite Hplain by set_solver. destruct (String.eqb_spec (col_name d) (col_name c)) as [E|Hne].
  - apply elem_of_cons in Hc as [->|Hc]; [done|]. exfalso. apply Hd. rewrite E. by apply list_elem_of_fmap_2.
  - apply IH; [set_solver|set_solver|set_solver|done].
Qed.


Lemma check_lsi_served l columns idx pk :
  ls_serveable l = true -> ls_unserveable_reason l = None -> lsi_matches columns idx pk l ->
  check_lsi l columns idx pk = l.
Proof.
  intros Hs Hr Hm. destruct (check_lsi_spec l columns idx pk) as [[Hv Hreason] Hserve].
  apply Hserve in Hm. rewrite Hv. rewrite (proj1 Hreason Hm), Hm. destruct l; simpl in *. by subst.
Qed.

Lemma check_gsi_served g columns idx :
  gs_serveable g = true -> gs_unserveable_reason g = None -> gsi_matches columns idx g ->
  check_gsi g columns idx = g.
Proof.
  intros Hs Hr Hm. destruct (check_gsi_spec g columns idx) as [[Hv Hreason] Hserve].
  apply Hserve in Hm. rewrite Hv. rewrite (proj1 Hreason Hm), Hm. destruct g; simpl in *. by subst.
Qed.

#[local] Notation has_indexes idx :=
  (forall n cols, (n, cols) ∈ created_indexes plan (derive_pg_table plan) ->
     exists def, idx !! truncate_identifier n = Some def /\ str_contains def ("(" +:+ cols +:+ ")") = true).

Lemma fresh_lsi_ok idx l :
  has_indexes idx -> (String.length (derive_pg_table plan) <= 45)%nat ->
  l ∈ build_lsi_specs plan (derive_pg_table plan) -> check_lsi l (created_info plan) idx (cp_pk_attr plan) = l.
Proof.
  intros Hidx Hlen (p & -> & Hp)%list_elem_of_fmap. apply check_lsi_served; [done..|]. split.
  - apply created_column_ok. apply (candidates_typed req plan Hacc (lp_sort_attr p, lp_sort_type p)).
    unfold index_candidates. apply elem_of_app. left.
    by apply (list_elem_of_fmap_2 (fun l => (lp_sort_attr l, lp_sort_type l))).
  - destruct (Hidx (derive_lsi_index_name (derive_pg_table plan) (lp_name p))
                (cp_pk_attr plan +:+ ", " +:+ lp_sort_attr p)) as (def & Hd & Hc).
    { unfold created_indexes. apply elem_of_app. left. apply list_elem_of_fmap. by exists p. }
    unfold derive_lsi_index_name in *. rewrite index_name_fits in Hd by done. exists def. split; [done|].
    cbn [ls_sort_pg_col]. by rewrite <- !app_assoc_str in Hc.
Qed.

Lemma fresh_gsi_ok idx g :
  has_indexes idx -> (String.length (derive_pg_table plan) <= 45)%nat ->
  g ∈ build_gsi_specs plan (derive_pg_table plan) -> check_gsi g (created_info plan) idx = g.
Proof.
  intros Hidx Hlen (p & -> & Hp)%list_elem_of_fmap. apply check_gsi_served; [done..|].
  pose proof Hp as Hin. apply list_elem_of_lookup in Hin as [i Hi].
  destruct (Forall2_lookup_r _ _ _ _ _ (ra_gsis _ _ Hacc) Hi) as (g & _ & Hg). split; [|split].
  - apply created_column_ok. apply Hg.
  - cbn. intros c t Ec Et. apply created_column_ok. pose proof (ga_sort_type _ _ _ _ _ Hg) as Ht.
    by rewrite Ec, Et in Ht.
  - destruct (Hidx (derive_gsi_index_name (derive_pg_table plan) (gp_name p))
                (match gp_sort_attr p with
                 | None => gp_partition_attr p
                 | Some s => gp_partition_attr p +:+ ", " +:+ s
                 end)) as (def & Hd & Hc).
    { unfold created_indexes. apply elem_of_app. right. apply list_elem_of_fmap. by exists p. }
    unfold derive_gsi_index_name in *. rewrite index_name_fits in Hd by done. exists def. split; [done|].
    pose proof (ga_sort_type _ _ _ _ _ Hg) as Ht. unfold gsi_expected. cbn [gs_sort_pg_col gs_sort_type gs_partition_pg_col].
    destruct (gp_sort_attr p), (gp_sort_type p); try done. by rewrite <- !app_assoc_str in Hc.
Qed.
End fresh.

Lemma map_id_in {A} (f : A -> A) l : (forall x, x ∈ l -> f x = x) -> map f l = l.
Proof. induction l as [|x l IH]; intros H; [done|]. simpl. rewrite H, IH; set_solver. Qed.

Lemma Forall2_map_eq {A B C} (R : A -> B -> Prop) (f : A -> C) (g : B -> C) l k :
  (forall a b, R a b -> f a = g b) -> Forall2 R l k -> map f l = map g k.
Proof. intros H. induction 1; [done|]. simpl. f_equal; auto. Qed.

Lemma gsi_plan_names req plan :
  request_accepted req plan -> map gp_name (cp_gsis plan) = map gsi_index_name (gsis_of req).
Proof.
  intros Hacc. symmetry. eapply Forall2_map_eq; [|apply Hacc]. intros g p Hg. symmetry. apply Hg.
Qed.

(** The GSIs of the fresh entry, in the order of the plan. *)
Lemma fresh_gsi_values {SH : Sha1} req plan now :
  request_accepted req plan ->
  gsi_values (entry_for_new_table now plan) = build_gsi_specs plan (derive_pg_table plan).
Proof.
  intros Hacc. unfold gsi_values, entry_for_new_table. cbn [te_gsis].
  set (l := build_gsi_specs _ _).
  assert (Hnames : (map (fun g => (gs_name g, g)) l).*1 = map gp_name (cp_gsis plan)).
  { unfold l, build_gsi_specs. rewrite map_map. rewrite <- list_fmap_compose. done. }
  rewrite hm_collect_id.
  - rewrite <- list_fmap_compose. apply list_fmap_id.
  - rewrite Hnames, (gsi_plan_names req plan Hacc). apply Hacc.
Qed.

(** the table of an accepted request whose attribute names are plain
    lower-case identifiers of at most 63 bytes, with distinct columns and a
    derived name of at most 45 bytes, passes the reconciler as it was
    stored: ACTIVE, serveable, every index serveable. *)
Theorem fresh_table_served {SH : Sha1} {SI : SetIter} req plan now pg :
  validate_create_table req = Ok plan -> pg_created pg plan ->
  cp_sk_attr plan <> Some (cp_pk_attr plan) -> "data" ∉ column_names plan ->
  (forall a, a ∈ column_names plan -> server_identifier a = a) ->
  (String.length (derive_pg_table plan) <= 45)%nat ->
  introspect pg (entry_for_new_table now plan) = Ok (stored_verdict (entry_for_new_table now plan)).
Proof.
  intros Hacc%accepted_of_valid Hpg Hkeys Hdata Hplain Hlen.
  pose proof (created_column_ok req plan Hacc Hkeys Hdata Hplain) as Hcol.
  unfold introspect, fetch_columns, fetch_primary_key, fetch_indexes, stored_verdict.
  rewrite (fresh_gsi_values req plan now Hacc).
  set (entry := entry_for_new_table now plan).
  change (pg_table (te_schema entry)) with (derive_pg_table plan).
  rewrite (pc_columns _ _ Hpg). cbn [db]. rewrite bool_decide_false by done.
  change (jsonb_col (te_schema entry)) with (cp_jsonb_col plan). rewrite (ra_jsonb_col _ _ Hacc).
  assert (check_jsonb_column (created_info plan) "data" = None) as -> by done.
  change (pk_attr (te_schema entry)) with (cp_pk_attr plan). change (pk_type (te_schema entry)) with (cp_pk_type plan).
  unfold check_key_column. rewrite (proj2 (check_column_spec _ _ _ true)) by (apply Hcol, Hacc).
  assert (check_sk_column (created_info plan) (te_schema entry) = None) as ->.
  { unfold check_sk_column. cbn. pose proof (ra_sk_type _ _ Hacc) as Hsk.
    destruct (cp_sk_attr plan), (cp_sk_type plan); try done. apply check_column_spec. by apply Hcol. }
  rewrite (pc_primary_key _ _ Hpg). cbn [db].
  assert (map server_identifier (cp_pk_attr plan :: option_list (cp_sk_attr plan)) = expected_pk (te_schema entry)) as ->.
  { transitivity (cp_pk_attr plan :: option_list (cp_sk_attr plan)).
    - apply map_id_in. intros x Hx. apply Hplain. unfold column_names, generated_columns.
      rewrite map_app, elem_of_app, (key_column_names req plan Hacc). by left.
    - unfold expected_pk. cbn. by destruct (cp_sk_attr plan). }
  rewrite bool_decide_true by done. cbn [negb].
  destruct (pc_indexes _ _ Hpg) as (idx & Hi & Hidx).
  change (te_lsis entry) with (build_lsi_specs plan (derive_pg_table plan)).
  destruct (bool_decide _ && bool_decide _) eqn:Hnone.
  - apply andb_prop in Hnone as [Hl%bool_decide_eq_true Hg%bool_decide_eq_true].
    rewrite Hl. pose proof (fresh_gsi_values req plan now Hacc) as Hv. unfold gsi_values in Hv.
    change (te_gsis (entry_for_new_table now plan)) with (te_gsis entry) in Hv. rewrite Hg in Hv.
    simpl in Hv. rewrite <- Hv. done.
  - rewrite Hi. cbn [db]. do 2 f_equal; apply map_id_in; intros x Hx.
    + by apply (fresh_lsi_ok req plan Hacc Hkeys Hdata Hplain).
    + by apply (fresh_gsi_ok req plan Hacc Hkeys Hdata Hplain).
Qed.

(** ** Describing an entry *)

(** the description CreateTable, UpdateTable and DeleteTable return is
    the one DescribeTable returns exactly for tables without indexes and
    without provisioned throughput; the two functions are said to stay in
    sync. *)
Theorem descriptions_in_sync entry :
  synthesize_description entry = table_description_from_entry entry
  <-> te_lsis entry = [] /\ gsi_values entry = [] /\ te_provisioned_rcu entry = None /\ te_provisioned_wcu entry = None.
Proof.
  unfold synthesize_description, table_description_from_entry, description. split.
  - intros [= _ Hp Hg Hl]. destruct (te_lsis entry); [|done]. destruct (gsi_values entry); [|done].
    destruct (te_provisioned_rcu entry), (te_provisioned_wcu entry); try done.
  - intros (Hl & Hg & Hr & Hw). unfold described_defs, index_attrs. rewrite Hl, Hg, Hr, Hw. done.
Qed.

(** A GSI whose removal has started is unserveable, and is described as
    CREATING. *)
Lemma gsi_desc_status g : gd_index_status (gsi_desc g) = Some (if gs_serveable g then "ACTIVE" else "CREATING").
Proof. done. Qed.

Lemma declare_all l : forall S ds,
  NoDup (map ad_attribute_name ds) -> (forall d, d ∈ ds -> ad_attribute_name d ∈ S) ->
  (forall x, x ∈ S -> x ∈ map ad_attribute_name ds) ->
  let ds' := (fold_left declare l (S, ds)).2 in
  NoDup (map ad_attribute_name ds')
  /\ (forall x, x ∈ map ad_attribute_name ds' <-> x ∈ map ad_attribute_name ds \/ x ∈ l.*1)
  /\ (forall d, d ∈ ds' -> d ∈ ds \/ d ∈ map attr_def l).
Proof.
  induction l as [|[a t] l IH]; intros S ds Hnd HS HS'; cbn [fold_left].
  { split_and!; [done|set_solver|by auto]. }
  unfold declare at 2 4 6. cbn [fst snd]. case_bool_decide as Ha.
  - destruct (IH S ds Hnd HS HS') as (H1 & H2 & H3). split_and!; [done| |].
    + intros x. rewrite H2. csimpl. rewrite elem_of_cons. apply HS' in Ha. naive_solver.
    + intros d Hd. destruct (H3 d Hd); [by left|]. right. csimpl. by right.
  - assert (Hna : a ∉ map ad_attribute_name ds).
    { intros (d & -> & Hd)%list_elem_of_fmap. by apply HS in Hd. }
    destruct (IH ({[a]} ∪ S) (ds ++ [attr_def (a, t)])) as (H1 & H2 & H3).
    + rewrite map_app. apply NoDup_app. split_and!; [done| |apply NoDup_singleton]. cbn. set_solver.
    + intros d [Hd| ->%list_elem_of_singleton]%elem_of_app; [apply HS in Hd; set_solver|cbn; set_solver].
    + intros x [->%elem_of_singleton|Hx]%elem_of_union; rewrite map_app, elem_of_app; cbn; set_solver.
    + split_and!; [done| |].
      * intros x. rewrite H2, map_app, elem_of_app. csimpl. rewrite list_elem_of_singleton, elem_of_cons. tauto.
      * intros d Hd. destruct (H3 d Hd) as [[Hd'| ->%list_elem_of_singleton]%elem_of_app|Hd'];
          [by left|right; csimpl; by left|right; csimpl; by right].
Qed.

Lemma NoDup_map_inv {A B} (f : A -> B) l : NoDup (map f l) -> NoDup l.
Proof. apply NoDup_fmap_1. Qed.

(** Two lists without duplicates, equal as sets of names, whose elements
    are typed by the second, are permutations of each other. *)
Lemma defs_perm ds ads :
  NoDup (map ad_attribute_name ds) -> NoDup (map ad_attribute_name ads) ->
  (forall x, x ∈ map ad_attribute_name ds <-> x ∈ map ad_attribute_name ads) ->
  (forall d, d ∈ ds -> d ∈ ads) -> ds ≡ₚ ads.
Proof.
  intros Hds Hads Hnames Hsub. apply NoDup_Permutation; [by eapply NoDup_map_inv..|].
  intros d. split; [apply Hsub|]. intros Hd.
  destruct (proj1 (list_elem_of_fmap _ _ _) (proj2 (Hnames _) (list_elem_of_fmap_2 ad_attribute_name _ _ Hd)))
    as (d' & E & Hd'). by rewrite (NoDup_map_inj _ _ _ _ Hads Hd (Hsub _ Hd') E).
Qed.

Lemma key_shape_perm ks h r : key_shape ks h r -> key_elements h r ≡ₚ ks.
Proof. destruct 1; cbn; try done. apply Permutation_swap. Qed.

Lemma described_defs_perm {SH : Sha1} req plan now :
  request_accepted req plan -> cp_sk_attr plan <> Some (cp_pk_attr plan) ->
  described_defs (entry_for_new_table now plan) ≡ₚ ct_attribute_definitions req.
Proof.
  intros Hacc Hkeys. set (e := entry_for_new_table now plan).
  assert (Hidx : index_attrs e = index_candidates plan).
  { unfold index_attrs, index_candidates. change (te_lsis e) with (build_lsi_specs plan (derive_pg_table plan)).
    unfold e. rewrite (fresh_gsi_values req plan now Hacc). unfold build_lsi_specs, build_gsi_specs. by rewrite !map_map. }
  assert (Hkd : schema_keys (te_schema e) = (cp_pk_attr plan, cp_pk_type plan) :: opt_pair (cp_sk_attr plan) (cp_sk_type plan))
    by done.
  pose proof (ra_sk_type _ _ Hacc) as Hsk. unfold described_defs. rewrite Hidx, Hkd. set (keys := _ :: _).
  assert (Hk1 : keys.*1 = cp_pk_attr plan :: option_list (cp_sk_attr plan)).
  { unfold keys. csimpl. by rewrite (opt_pair_fst _ _ _ Hsk). }
  assert (Hk2 : map ad_attribute_name (map attr_def keys) = keys.*1) by (rewrite map_map; done).
  destruct (declare_all (index_candidates plan) (list_to_set keys.*1) (map attr_def keys)) as (H1 & H2 & H3).
  - rewrite Hk2, Hk1. apply NoDup_cons. rewrite elem_of_opt.
    split; [done|]. destruct (cp_sk_attr plan); [apply NoDup_singleton|constructor].
  - intros d Hd. rewrite elem_of_list_to_set, <- Hk2. by apply list_elem_of_fmap_2.
  - intros x. by rewrite elem_of_list_to_set, Hk2.
  - apply defs_perm; [done|apply Hacc| |].
    + intros x. rewrite H2, Hk2, Hk1, (ra_defs_used _ _ Hacc x), (keyed_names req plan Hacc), elem_of_cons, elem_of_opt.
      tauto.
    + intros d Hd. destruct (H3 d Hd) as [(c & -> & Hc)%list_elem_of_fmap|(c & -> & Hc)%list_elem_of_fmap].
      * unfold keys in Hc. apply elem_of_cons in Hc as [->|Hc]; [apply Hacc|].
        by apply (opt_pair_typed _ _ _ _ Hsk) in Hc as [_ ?].
      * by apply (candidates_typed req plan Hacc) in Hc.
Qed.

(** A GSI description answers a GSI of the request. *)
Definition gsi_answers (g : GlobalSecondaryIndex) (d : GlobalSecondaryIndexDescription) : Prop :=
  gd_index_name d = Some (gsi_index_name g) /\ gd_index_status d = Some "ACTIVE"
  /\ exists ks, gd_key_schema d = Some ks /\ ks ≡ₚ gsi_key_schema g.
Definition lsi_answers (l : LocalSecondaryIndex) (d : LocalSecondaryIndexDescription) : Prop :=
  ld_index_name d = Some (lsi_index_name l)
  /\ exists ks, ld_key_schema d = Some ks /\ ks ≡ₚ lsi_key_schema l.

Lemma answers_map {A B C} (R : A -> B -> Prop) (Q : A -> C -> Prop) (f : B -> C) l k :
  (forall a b, R a b -> Q a (f b)) -> Forall2 R l k -> Forall2 Q l (map f k).
Proof. intros H. induction 1; constructor; auto. Qed.

(** DescribeTable on the table of an accepted request gives the
    request back: its name, its key schema and its attribute definitions up
    to order, and a description, up to order, for each GSI (ACTIVE) and each
    LSI with the key schema it was declared with. *)
Theorem describe_round_trip {SH : Sha1} {SI : SetIter} req plan now :
  validate_create_table req = Ok plan -> cp_sk_attr plan <> Some (cp_pk_attr plan) ->
  let d := table_description_from_entry (entry_for_new_table now plan) in
  td_table_name d = Some (ct_table_name req) /\ td_table_status d = Some "ACTIVE"
  /\ (exists ks, td_key_schema d = Some ks /\ ks ≡ₚ ct_key_schema req)
  /\ (exists ds, td_attribute_definitions d = Some ds /\ ds ≡ₚ ct_attribute_definitions req)
  /\ (exists gs, or_empty (td_global_secondary_indexes d) ≡ₚ gs /\ Forall2 gsi_answers (gsis_of req) gs)
  /\ (exists ls, or_empty (td_local_secondary_indexes d) ≡ₚ ls /\ Forall2 lsi_answers (lsis_of req) ls).
Proof.
  intros Hacc%accepted_of_valid Hkeys d. unfold d, table_description_from_entry, description.
  cbn [td_table_name td_table_status td_key_schema td_attribute_definitions td_global_secondary_indexes
       td_local_secondary_indexes].
  split_and!.
  - by rewrite <- (ra_table_name _ _ Hacc).
  - done.
  - eexists. split; [done|]. rewrite <- (key_shape_perm _ _ _ (ra_shape _ _ Hacc)).
    unfold schema_key_elements. cbn. pose proof (ra_sk_type _ _ Hacc) as Hsk.
    by destruct (cp_sk_attr plan), (cp_sk_type plan).
  - eexists. split; [done|]. by apply described_defs_perm.
  - exists (map gsi_desc (build_gsi_specs plan (derive_pg_table plan))).
    rewrite (fresh_gsi_values req plan now Hacc). split.
    + destruct (build_gsi_specs _ _) as [|g gs]; [done|]. apply sort_by_perm.
    + unfold build_gsi_specs. rewrite map_map. eapply answers_map; [|apply (ra_gsis _ _ Hacc)].
      intros g p Hg. split; [by rewrite <- (ga_name _ _ _ _ _ Hg)|]. split; [done|].
      eexists. split; [done|]. apply key_shape_perm, Hg.
  - exists (map (lsi_desc (cp_pk_attr plan)) (build_lsi_specs plan (derive_pg_table plan))). split.
    + change (te_lsis (entry_for_new_table now plan)) with (build_lsi_specs plan (derive_pg_table plan)).
      destruct (build_lsi_specs _ _) as [|l ls]; [done|]. apply sort_by_perm.
    + unfold build_lsi_specs. rewrite map_map. pose proof (ra_lsis _ _ Hacc) as Hls.
      destruct (cp_sk_attr plan) as [sk|].
      * eapply answers_map; [|exact Hls]. intros l p Hl. split; [by rewrite <- (la_name _ _ _ _ _ Hl)|].
        eexists. split; [done|]. apply key_shape_perm, Hl.
      * destruct Hls as [-> ->]. constructor.
Qed.

(** ** Witnesses *)

(** The answers of a server that ran the statement of a plan. *)
Definition answers_for {SH : Sha1} (plan : CreateTablePlan) : PgAnswers :=
  mkPgAnswers None None None (fun _ => inr (created_info plan))
    (fun _ => inr (map server_identifier (cp_pk_attr plan :: option_list (cp_sk_attr plan))))
    (fun _ => inr (list_to_map (map (fun nc => (truncate_identifier nc.1,
                      "CREATE INDEX " +:+ nc.1 +:+ " ON t USING btree (" +:+ nc.2 +:+ ") INCLUDE (data)"))
                      (created_indexes plan (derive_pg_table plan)))))
    (fun _ => None).

#[local] Existing Instance Sha1Reference.instance.
#[local] Existing Instance elements_iter.

Definition orders_plan (pk sk : string) : CreateTablePlan :=
  match validate_create_table (orders_request pk sk) with Ok p => p | _ => events_plan end.

Lemma orders_created pk sk :
  cp_lsis (orders_plan pk sk) = [] ->
  map (fun g => (gp_name g, gp_partition_attr g, gp_sort_attr g)) (cp_gsis (orders_plan pk sk)) = [("by-tier", "tier", None)] ->
  str_contains ("CREATE INDEX " +:+ derive_gsi_index_name (derive_pg_table (orders_plan pk sk)) "by-tier"
     +:+ " ON t USING btree (" +:+ "tier" +:+ ") INCLUDE (data)") "(tier)" = true ->
  pg_created (answers_for (orders_plan pk sk)) (orders_plan pk sk).
Proof.
  intros Hl Hg Hc. constructor; [done..|]. eexists. split; [done|]. unfold created_indexes. rewrite Hl.
  destruct (cp_gsis (orders_plan pk sk)) as [|g [|]]; try done. cbn [map app].
  cbn in Hg. injection Hg as E1 E2 E3. rewrite E1, E2, E3. intros n cols [= -> ->]%list_elem_of_singleton.
  eexists. split; [|exact Hc]. cbn [map fst snd list_to_map foldr]. by rewrite lookup_insert_eq.
Qed.

Lemma fresh_table_served_witness :
  let plan := orders_plan "id" "ts" in
  introspect (answers_for plan) (entry_for_new_table 5 plan) = Ok (stored_verdict (entry_for_new_table 5 plan)).
Proof.
  cbv zeta. apply (fresh_table_served (orders_request "id" "ts")).
  - vm_compute. reflexivity.
  - apply orders_created; vm_compute; reflexivity.
  - vm_compute. discriminate.
  - replace (column_names (orders_plan "id" "ts")) with ["id"; "ts"; "tier"] by (vm_compute; reflexivity).
    rewrite !elem_of_cons, elem_of_nil. naive_solver.
  - replace (column_names (orders_plan "id" "ts")) with ["id"; "ts"; "tier"] by (vm_compute; reflexivity).
    intros a. rewrite !elem_of_cons, elem_of_nil. intros [->|[->|[->|[]]]]; vm_compute; reflexivity.
  - vm_compute. lia.
Defined.

Lemma mixed_case_key_unserveable_witness :
  let plan := orders_plan "userId" "ts" in
  exists v, introspect (answers_for plan) (entry_for_new_table 5 plan) = Ok v
  /\ rv_status v = TableStatus_Degraded /\ rv_serveable v = false
  /\ rv_reason v = Some ("column `" +:+ cp_pk_attr plan +:+ "`: missing").
Proof.
  cbv zeta. apply (mixed_case_key_unserveable (orders_request "userId" "ts")).
  - vm_compute. reflexivity.
  - apply orders_created; vm_compute; reflexivity.
  - vm_compute. discriminate.
Defined.

Lemma describe_round_trip_witness :
  td_table_name (table_description_from_entry (entry_for_new_table 5 (orders_plan "id" "ts"))) = Some "Orders".
Proof.
  apply (describe_round_trip (orders_request "id" "ts") (orders_plan "id" "ts") 5).
  - vm_compute. reflexivity.
  - vm_compute. discriminate.
Defined.
