(* ===== verification/DdlHandlers.v ===== *)
(** * Control-plane handlers (rekt-server, [ddl.rs])

    CreateTable, DeleteTable, UpdateTable, DescribeTable and ListTables
    over an abstract control-plane backend, with the JSON of their
    responses, and the paging of ListTables. *)

From S2P Require Import Prelude RustStr BTree Json Storage Schema Catalog Reconciler ApiError.
From S2P Require Import Base64Std Attr Winnow Backend Server.
From S2P Require Import DdlTypes Naming Validation CreateTable TableSpecs.

(** ** Parameters *)

(** [serde_json::from_slice] of each request type, and the number serde
    writes for the [f64] of a time in milliseconds divided by 1000. *)
Class DdlWire : Type := {
  de_create_table : bytes -> string + CreateTableRequest;
  de_delete_table : bytes -> string + DeleteTableRequest;
  de_update_table : bytes -> string + UpdateTableRequest;
  de_describe_table : bytes -> string + DescribeTableRequest;
  de_list_tables : bytes -> string + ListTablesRequest;
  seconds_literal : Z -> string
}.

(** The [DdlBackend] trait and the catalog handle beside it. *)
Class DdlBackend (St : Type) : Type := {
  ddl_create_table : CreateTableRequest -> St -> Result DdlError TableDescription * St;
  ddl_delete_table : DeleteTableRequest -> St -> Result DdlError TableDescription * St;
  ddl_update_table : UpdateTableRequest -> St -> Result DdlError TableDescription * St;
  catalog_of : St -> CatalogSnapshot
}.

(** ** ListTables *)

Definition LIST_TABLES_DEFAULT_LIMIT : N := 100.
Definition LIST_TABLES_MAX_LIMIT : N := 100.

Definition list_limit (limit : option N) : Result ApiError N :=
  match limit with
  | None => Ok LIST_TABLES_DEFAULT_LIMIT
  | Some n =>
      if N.eqb n 0 then Err (ApiError_Validation "ListTables.Limit must be between 1 and 100")
      else if N.ltb LIST_TABLES_MAX_LIMIT n
      then Err (ApiError_Validation ("ListTables.Limit must be between 1 and " +:+ usize_to_string LIST_TABLES_MAX_LIMIT))
      else Ok n
  end.

(** [iter().position(..)]. *)
Fixpoint position {A} (p : A -> bool) (l : list A) : option nat :=
  match l with
  | [] => None
  | x :: l' => if p x then Some O else S <$> position p l'
  end.

Definition list_page (all_names : list string) (start : option string) (limit : nat) : ListTablesResponse :=
  let start_idx := match start with
                   | None => O
                   | Some after => default (length all_names) (position (fun n => str_ltb after n) all_names)
                   end in
  let end_idx := Nat.min (start_idx + limit) (length all_names) in
  let table_names := take (end_idx - start_idx) (drop start_idx all_names) in
  mkListTablesResponse table_names
    (if Nat.ltb end_idx (length all_names) then last table_names else None).

Definition list_tables (catalog : CatalogSnapshot) (req : ListTablesRequest) : Result ApiError ListTablesResponse :=
  let? limit := list_limit (lt_limit req) in
  Ok (list_page (sorted_table_names catalog) (lt_exclusive_start_table_name req) (N.to_nat limit)).

(** ** JSON of the responses *)

Section json.
Context `{DdlWire}.

Definition num (z : Z) : Value := VNumber (show_i64 z).
(** A struct whose fields are skipped when [None]. *)
Definition skipping (fields : list (string * option Value)) : Value :=
  VObject (BTreeMap.of_list (concat (map (fun f => opt_field f.1 f.2) fields))).
Definition key_schema_json (k : KeySchemaElement) : Value :=
  VObject [("AttributeName", VString (ks_attribute_name k)); ("KeyType", VString (ks_key_type k))].
Definition attribute_definition_json (a : AttributeDefinition) : Value :=
  VObject [("AttributeName", VString (ad_attribute_name a)); ("AttributeType", VString (ad_attribute_type a))].
Definition projection_json (p : Projection) : Value :=
  skipping [("ProjectionType", VString <$> pj_projection_type p);
            ("NonKeyAttributes", json_strings <$> pj_non_key_attributes p)].
Definition throughput_json (t : ProvisionedThroughputDescription) : Value :=
  skipping [("ReadCapacityUnits", num <$> ptd_read_capacity_units t);
            ("WriteCapacityUnits", num <$> ptd_write_capacity_units t);
            ("NumberOfDecreasesToday", num <$> ptd_number_of_decreases_today t);
            ("LastIncreaseDateTime", (fun z => VNumber (seconds_literal z)) <$> ptd_last_increase_ms t);
            ("LastDecreaseDateTime", (fun z => VNumber (seconds_literal z)) <$> ptd_last_decrease_ms t)].
Definition gsi_description_json (g : GlobalSecondaryIndexDescription) : Value :=
  skipping [("IndexName", VString <$> gd_index_name g);
            ("KeySchema", (fun l => VArray (map key_schema_json l)) <$> gd_key_schema g);
            ("Projection", projection_json <$> gd_projection g);
            ("IndexStatus", VString <$> gd_index_status g);
            ("Backfilling", VBool <$> gd_backfilling g);
            ("ProvisionedThroughput", throughput_json <$> gd_provisioned_throughput g);
            ("IndexSizeBytes", num <$> gd_index_size_bytes g);
            ("ItemCount", num <$> gd_item_count g);
            ("IndexArn", VString <$> gd_index_arn g)].
Definition lsi_description_json (l : LocalSecondaryIndexDescription) : Value :=
  skipping [("IndexName", VString <$> ld_index_name l);
            ("KeySchema", (fun l => VArray (map key_schema_json l)) <$> ld_key_schema l);
            ("Projection", projection_json <$> ld_projection l);
            ("IndexSizeBytes", num <$> ld_index_size_bytes l);
            ("ItemCount", num <$> ld_item_count l);
            ("IndexArn", VString <$> ld_index_arn l)].
Definition billing_json (b : BillingModeSummary) : Value :=
  skipping [("BillingMode", VString <$> bms_billing_mode b);
            ("LastUpdateToPayPerRequestDateTime",
              (fun z => VNumber (seconds_literal z)) <$> bms_last_update_to_pay_per_request_ms b)].
Definition stream_json (s : StreamSpecification) : Value :=
  VObject (BTreeMap.of_list (("StreamEnabled", VBool (stream_enabled s))
             :: opt_field "StreamViewType" (VString <$> stream_view_type s))).
Definition table_class_json (t : TableClassSummary) : Value :=
  skipping [("TableClass", VString <$> tcs_table_class t);
            ("LastUpdateDateTime", (fun z => VNumber (seconds_literal z)) <$> tcs_last_update_ms t)].

Definition table_description_json (d : TableDescription) : Value :=
  skipping [("TableName", VString <$> td_table_name d);
            ("TableStatus", VString <$> td_table_status d);
            ("TableArn", VString <$> td_table_arn d);
            ("TableId", VString <$> td_table_id d);
            ("CreationDateTime", (fun z => VNumber (seconds_literal z)) <$> td_creation_date_ms d);
            ("KeySchema", (fun l => VArray (map key_schema_json l)) <$> td_key_schema d);
            ("AttributeDefinitions", (fun l => VArray (map attribute_definition_json l)) <$> td_attribute_definitions d);
            ("ProvisionedThroughput", throughput_json <$> td_provisioned_throughput d);
            ("BillingModeSummary", billing_json <$> td_billing_mode_summary d);
            ("ItemCount", num <$> td_item_count d);
            ("TableSizeBytes", num <$> td_table_size_bytes d);
            ("GlobalSecondaryIndexes", (fun l => VArray (map gsi_description_json l)) <$> td_global_secondary_indexes d);
            ("LocalSecondaryIndexes", (fun l => VArray (map lsi_description_json l)) <$> td_local_secondary_indexes d);
            ("StreamSpecification", stream_json <$> td_stream_specification d);
            ("LatestStreamLabel", VString <$> td_latest_stream_label d);
            ("LatestStreamArn", VString <$> td_latest_stream_arn d);
            ("TableClassSummary", table_class_json <$> td_table_class_summary d);
            ("DeletionProtectionEnabled", VBool <$> td_deletion_protection_enabled d)].

Definition list_tables_json (r : ListTablesResponse) : Value :=
  VObject (BTreeMap.of_list (("TableNames", json_strings (lt_table_names r))
             :: opt_field "LastEvaluatedTableName" (VString <$> lt_last_evaluated_table_name r))).

(** ** Handlers *)

Section handlers.
Context {St : Type} `{DdlBackend St}.

Definition ddl_call {A} (c : St -> Result DdlError A * St) : Run St A :=
  fun st => let '(r, st') := c st in (map_err api_of_ddl r, st').
Definition describe_response (d : TableDescription) : Response :=
  json_ok (VObject [("TableDescription", table_description_json d)]).

Definition handle_create_table (body : bytes) : Run St Response :=
  let! req := parse_request (de_create_table body) "CreateTable" in
  let! description := ddl_call (ddl_create_table req) in
  ret_result (Ok (describe_response description)).

Definition handle_delete_table (body : bytes) : Run St Response :=
  let! req := parse_request (de_delete_table body) "DeleteTable" in
  let! description := ddl_call (ddl_delete_table req) in
  ret_result (Ok (describe_response description)).

Definition handle_update_table (body : bytes) : Run St Response :=
  let! req := parse_request (de_update_table body) "UpdateTable" in
  let! description := ddl_call (ddl_update_table req) in
  ret_result (Ok (describe_response description)).

Definition handle_describe_table (body : bytes) : Run St Response :=
  let! req := parse_request (de_describe_table body) "DescribeTable" in
  let! catalog := fun st => (Ok (catalog_of st), st) in
  let! entry := ret_result (ok_or (catalog_get catalog (dsc_table_name req))
                              (ApiError_ResourceNotFound ("Table not found: " +:+ dsc_table_name req))) in
  ret_result (Ok (json_ok (VObject [("Table", table_description_json (table_description_from_entry entry))]))).

Definition handle_list_tables (body : bytes) : Run St Response :=
  let! req := parse_request (de_list_tables body) "ListTables" in
  let! catalog := fun st => (Ok (catalog_of st), st) in
  let! r := ret_result (list_tables catalog req) in
  ret_result (Ok (json_ok (list_tables_json r))).

(** The control-plane arms of [dispatch]. *)
Definition ddl_handlers (op : string) : option (bytes -> Run St Response) :=
  if String.eqb op "CreateTable" then Some handle_create_table
  else if String.eqb op "DeleteTable" then Some handle_delete_table
  else if String.eqb op "DescribeTable" then Some handle_describe_table
  else if String.eqb op "ListTables" then Some handle_list_tables
  else if String.eqb op "UpdateTable" then Some handle_update_table
  else None.
End handlers.
End json.

(** ** Paging through the tables *)

Lemma insert_name_elem s l x : x ∈ insert_name s l <-> x = s \/ x ∈ l.
Proof.
  induction l as [|t l IH]; simpl; [set_solver|].
  destruct (String.compare s t); rewrite ?elem_of_cons, ?IH; tauto || set_solver.
Qed.

Lemma insert_name_sorted s l : s ∉ l -> StronglySorted str_lt l -> StronglySorted str_lt (insert_name s l).
Proof.
  intros Hs Hl. induction Hl as [|t l Hl IH Ht]; simpl; [by repeat constructor|].
  destruct (String.compare s t) eqn:E.
  - apply str_compare_eq in E as ->. set_solver.
  - constructor; [by constructor|]. constructor; [done|].
    eapply Forall_impl; [exact Ht|]. intros u Hu. by eapply str_lt_trans.
  - constructor; [apply IH; set_solver|]. apply Forall_forall. intros x [->|Hx]%insert_name_elem.
    + by apply str_compare_gt.
    + rewrite Forall_forall in Ht. by apply Ht.
Qed.

Lemma sorted_table_names_elem c x : x ∈ sorted_table_names c <-> is_Some (catalog_get c x).
Proof.
  unfold sorted_table_names, catalog_get.
  assert (forall l, x ∈ foldr insert_name [] l <-> x ∈ l) as ->.
  { induction l as [|y l IH]; simpl; [done|]. rewrite insert_name_elem, IH. set_solver. }
  rewrite list_elem_of_fmap. split.
  - intros ([k e] & -> & He%elem_of_map_to_list). by exists e.
  - intros [e He]. exists (x, e). split; [done|]. by apply elem_of_map_to_list.
Qed.

Lemma sorted_table_names_sorted c : StronglySorted str_lt (sorted_table_names c).
Proof.
  unfold sorted_table_names. pose proof (NoDup_fst_map_to_list (cs_entries c)) as Hnd.
  induction (map_to_list (cs_entries c)).*1 as [|k l IH]; simpl; [constructor|].
  apply NoDup_cons in Hnd as [Hk Hnd]. apply insert_name_sorted; [|by apply IH].
  assert (forall l x, x ∈ foldr insert_name [] l <-> x ∈ l) as Hin; [|by rewrite Hin].
  intros l' x. induction l' as [|y l' IH']; simpl; [done|]. rewrite insert_name_elem, IH'. set_solver.
Qed.

(** [start] is where a page that begins at index [k] was asked for. *)
Definition starts_at (names : list string) (start : option string) (k : nat) : Prop :=
  match start with
  | None => k = O
  | Some a => (0 < k)%nat /\ last (take k names) = Some a
  end.

Lemma position_after xs a ys :
  StronglySorted str_lt (xs ++ a :: ys) ->
  default (length (xs ++ a :: ys)) (position (fun n => str_ltb a n) (xs ++ a :: ys)) = S (length xs).
Proof.
  induction xs as [|x xs IH]; intros Hs; cbn [app position].
  - replace (str_ltb a a) with false by (symmetry; apply not_true_iff_false; rewrite str_ltb_spec; apply str_lt_irrefl).
    destruct ys as [|y ys]; [done|]. cbn [position].
    replace (str_ltb a y) with true; [done|]. symmetry. apply str_ltb_spec.
    apply StronglySorted_inv in Hs as [_ Hs]. by apply Forall_cons in Hs as [? _].
  - apply StronglySorted_inv in Hs as [Hs Hx].
    replace (str_ltb a x) with false.
    + specialize (IH Hs). destruct (position _ _); simpl in *; lia.
    + symmetry. apply not_true_iff_false. rewrite str_ltb_spec. apply str_lt_antisym.
      rewrite Forall_forall in Hx. apply Hx. set_solver.
Qed.

Lemma list_page_at names start k limit :
  StronglySorted str_lt names -> (k <= length names)%nat -> starts_at names start k ->
  list_page names start limit
  = mkListTablesResponse (take limit (drop k names))
      (if Nat.ltb (k + limit) (length names) then last (take limit (drop k names)) else None).
Proof.
  intros Hs Hk Hst. unfold list_page.
  assert (match start with
          | None => O
          | Some after => default (length names) (position (fun n => str_ltb after n) names)
          end = k) as ->.
  { destruct start as [a|]; [|done]. destruct Hst as [Hpos Hlast].
    apply last_Some in Hlast as [l' Hl']. rewrite <- (take_drop k names) in Hs |- *. rewrite Hl' in Hs |- *.
    rewrite <- app_assoc in Hs |- *. cbn [app] in Hs |- *. rewrite position_after by done.
    apply (f_equal length) in Hl'. rewrite length_take, length_app in Hl'. simpl in Hl'. lia. }
  assert (take (Nat.min (k + limit) (length names) - k) (drop k names) = take limit (drop k names)) as ->.
  { destruct (decide (k + limit <= length names)%nat) as [|Hge].
    - f_equal. lia.
    - rewrite !take_ge; [done|rewrite length_drop; lia..]. }
  f_equal. destruct (Nat.ltb_spec (Nat.min (k + limit) (length names)) (length names)),
    (Nat.ltb_spec (k + limit) (length names)); try done; lia.
Qed.

(** A client that pages through ListTables, sending back the last name it
    got until none is returned. *)
Fixpoint list_all (fuel : nat) (catalog : CatalogSnapshot) (limit : option N) (start : option string)
  : Result ApiError (list (list string)) :=
  match fuel with
  | O => Ok []
  | S fuel' =>
      let? r := list_tables catalog (mkListTablesRequest start limit) in
      match lt_last_evaluated_table_name r with
      | None => Ok [lt_table_names r]
      | Some l => let? rest := list_all fuel' catalog limit (Some l) in Ok (lt_table_names r :: rest)
      end
  end.

Lemma list_all_from catalog limit n k start fuel :
  list_limit limit = Ok n -> (0 < n)%N ->
  let names := sorted_table_names catalog in
  (k <= length names)%nat -> starts_at names start k -> (length names - k < fuel)%nat ->
  exists pages, list_all fuel catalog limit start = Ok pages
  /\ concat pages = drop k names /\ Forall (fun p => (length p <= N.to_nat n)%nat) pages.
Proof.
  intros Hlim Hn names. revert k start. induction fuel as [|fuel IH]; intros k start Hk Hst Hf; [lia|].
  cbn [list_all]. unfold list_tables. cbn [lt_limit lt_exclusive_start_table_name]. rewrite Hlim. fold names.
  rewrite (list_page_at names start k) by (done || apply sorted_table_names_sorted).
  cbn [lt_last_evaluated_table_name lt_table_names].
  set (m := N.to_nat n). assert (0 < m)%nat by (unfold m; lia).
  assert (Hlen : (length (take m (drop k names)) <= m)%nat) by (rewrite length_take; lia).
  destruct (Nat.ltb_spec (k + m) (length names)) as [Hlt|Hge].
  - assert (Hdk : length (drop k names) = (length names - k)%nat) by apply length_drop.
    destruct (last (take m (drop k names))) as [a|] eqn:Hl.
    2: { apply last_None in Hl. apply (f_equal length) in Hl. rewrite length_take in Hl. simpl in Hl. lia. }
    destruct (IH (k + m)%nat (Some a)) as (pages & -> & Hc & Hp); [lia| |lia|].
    { split; [lia|].
      replace (take (k + m) names) with (take k names ++ take m (drop k names)).
      - by rewrite last_app, Hl.
      - rewrite <- (take_drop k names) at 3. rewrite take_app_ge; rewrite length_take; [f_equal; f_equal; lia|lia]. }
    eexists. split; [done|]. split; [|by constructor]. simpl. rewrite Hc, <- drop_drop. apply take_drop.
  - eexists. split; [done|]. split; [|by repeat constructor]. simpl. rewrite app_nil_r.
    apply take_ge. rewrite length_drop. lia.
Qed.

(** a client that follows [LastEvaluatedTableName] with any valid
    limit sees every table of the catalog exactly once, in increasing order
    of name, in pages of at most the limit, and stops after finitely many
    requests. *)
Theorem list_tables_complete catalog limit n :
  list_limit limit = Ok n ->
  exists pages, list_all (S (length (sorted_table_names catalog))) catalog limit None = Ok pages
  /\ Forall (fun p => (length p <= N.to_nat n)%nat) pages
  /\ StronglySorted str_lt (concat pages)
  /\ forall t, t ∈ concat pages <-> is_Some (catalog_get catalog t).
Proof.
  intros Hlim. assert (Hn : (0 < n)%N).
  { unfold list_limit in Hlim. destruct limit as [m|]; [|by injection Hlim as <-].
    destruct (N.eqb_spec m 0); [done|]. destruct (N.ltb _ m); [done|]. injection Hlim as <-. lia. }
  destruct (list_all_from catalog limit n 0 None (S (length (sorted_table_names catalog))))
    as (pages & H1 & H2 & H3); [done|done|lia|done|lia|].
  exists pages. rewrite H2, drop_0. split_and!; [done|done|apply sorted_table_names_sorted|apply sorted_table_names_elem].
Qed.

Definition three_tables : CatalogSnapshot :=
  from_entries (<["b" := entry_for_new_table (SH := Sha1Reference.instance) 1 events_plan]>
               (<["a" := entry_for_new_table (SH := Sha1Reference.instance) 2 events_plan]>
               (<["c" := entry_for_new_table (SH := Sha1Reference.instance) 3 events_plan]> ∅))).
Lemma list_tables_complete_witness :
  list_all 4 three_tables (Some 2%N) None = Ok [["a"; "b"]; ["c"]]
  /\ exists pages, list_all (S (length (sorted_table_names three_tables))) three_tables (Some 2%N) None = Ok pages
     /\ StronglySorted str_lt (concat pages).
Proof.
  split; [vm_compute; reflexivity|].
  destruct (list_tables_complete three_tables (Some 2%N) 2) as (pages & H1 & _ & H2 & _); [reflexivity|].
  by exists pages.
Defined.
