(* ===== verification/GsiState.v ===== *)
(** * GSI state rows (rekt-gsi, [state.rs] and [lib.rs])

    The phases of an online GSI, the rows of [_rektifier_gsi_state] and
    the statements on them, and the synchronous part of adding a GSI. A
    statement on the table is the function its SQL denotes; the DDL
    executed on the base table is a parameter. *)

From S2P Require Import Prelude RustStr BTree Json Storage Catalog Reconciler.

(** ** Phases *)

Inductive GsiPhase : Type :=
| GsiPhase_Declared
| GsiPhase_AddingColumn
| GsiPhase_Backfilling
| GsiPhase_Indexing
| GsiPhase_Active
| GsiPhase_RemovingIndex
| GsiPhase_RemovingColumn
| GsiPhase_Gone
| GsiPhase_Degraded
| GsiPhase_Failed.

#[export] Instance GsiPhase_eq_dec : EqDecision GsiPhase.
Proof. solve_decision. Defined.

(** [GsiPhase::as_str] and [GsiPhase::parse]. *)
Definition phase_as_str (p : GsiPhase) : string :=
  match p with
  | GsiPhase_Declared => "declared"
  | GsiPhase_AddingColumn => "adding_column"
  | GsiPhase_Backfilling => "backfilling"
  | GsiPhase_Indexing => "indexing"
  | GsiPhase_Active => "active"
  | GsiPhase_RemovingIndex => "removing_index"
  | GsiPhase_RemovingColumn => "removing_column"
  | GsiPhase_Gone => "gone"
  | GsiPhase_Degraded => "degraded"
  | GsiPhase_Failed => "failed"
  end.

Definition parse_phase (s : string) : option GsiPhase :=
  if String.eqb s "declared" then Some GsiPhase_Declared
  else if String.eqb s "adding_column" then Some GsiPhase_AddingColumn
  else if String.eqb s "backfilling" then Some GsiPhase_Backfilling
  else if String.eqb s "indexing" then Some GsiPhase_Indexing
  else if String.eqb s "active" then Some GsiPhase_Active
  else if String.eqb s "removing_index" then Some GsiPhase_RemovingIndex
  else if String.eqb s "removing_column" then Some GsiPhase_RemovingColumn
  else if String.eqb s "gone" then Some GsiPhase_Gone
  else if String.eqb s "degraded" then Some GsiPhase_Degraded
  else if String.eqb s "failed" then Some GsiPhase_Failed
  else None.

Definition is_in_flight (p : GsiPhase) : bool :=
  match p with
  | GsiPhase_Declared | GsiPhase_AddingColumn | GsiPhase_Backfilling | GsiPhase_Indexing
  | GsiPhase_RemovingIndex | GsiPhase_RemovingColumn => true
  | _ => false
  end.

(** ** Rows *)

(** A row of [_rektifier_gsi_state]; [gs_phase_text] is the text column. *)
Record GsiRow : Type := mkGsiRow {
  gr_gsi_id : string;
  gr_table_name : string;
  gr_gsi_name : string;
  gr_pg_table : string;
  gr_column_specs : Value;
  gr_index_name : string;
  gr_phase : string;
  gr_last_pk_copied : option Value;
  gr_declared_at_ms : Z;
  gr_activated_at_ms : option Z;
  gr_last_verified_at_ms : option Z;
  gr_last_modified_at_ms : Z;
  gr_error : option string
}.

(** [GsiState], the parsed row. *)
Record GsiState : Type := mkGsiState {
  st_gsi_id : string;
  st_table_name : string;
  st_gsi_name : string;
  st_pg_table : string;
  st_column_specs : Value;
  st_index_name : string;
  st_phase : GsiPhase;
  st_last_pk_copied : option Value;
  st_declared_at_ms : Z;
  st_activated_at_ms : option Z;
  st_last_verified_at_ms : option Z;
  st_last_modified_at_ms : Z;
  st_error : option string
}.

Inductive OrchestratorError : Type :=
| OrchestratorError_Pool (message : string)
| OrchestratorError_Db (message : string)
| OrchestratorError_AlterTable (message : string)
| OrchestratorError_CreateIndex (message : string)
| OrchestratorError_MalformedRow (gsi_id reason : string)
| OrchestratorError_UnknownPhase (phase : string).

(** [impl Display]. *)
Definition orchestrator_error_to_string (e : OrchestratorError) : string :=
  match e with
  | OrchestratorError_Pool m => "pool error: " +:+ m
  | OrchestratorError_Db m => "database error: " +:+ m
  | OrchestratorError_AlterTable m => "ALTER TABLE failed: " +:+ m
  | OrchestratorError_CreateIndex m => "CREATE INDEX failed: " +:+ m
  | OrchestratorError_MalformedRow g r => "malformed state row `" +:+ g +:+ "`: " +:+ r
  | OrchestratorError_UnknownPhase p => "unknown phase `" +:+ p +:+ "`"
  end.

Definition row_to_state (r : GsiRow) : Result OrchestratorError GsiState :=
  let? phase := ok_or (parse_phase (gr_phase r)) (OrchestratorError_UnknownPhase (gr_phase r)) in
  Ok (mkGsiState (gr_gsi_id r) (gr_table_name r) (gr_gsi_name r) (gr_pg_table r) (gr_column_specs r)
        (gr_index_name r) phase (gr_last_pk_copied r) (gr_declared_at_ms r) (gr_activated_at_ms r)
        (gr_last_verified_at_ms r) (gr_last_modified_at_ms r) (gr_error r)).

(** The parameters of [INSERT_STATE_SQL]. *)
Definition state_to_row (s : GsiState) : GsiRow :=
  mkGsiRow (st_gsi_id s) (st_table_name s) (st_gsi_name s) (st_pg_table s) (st_column_specs s) (st_index_name s)
    (phase_as_str (st_phase s)) (st_last_pk_copied s) (st_declared_at_ms s) (st_activated_at_ms s)
    (st_last_verified_at_ms s) (st_last_modified_at_ms s) (st_error s).

Definition gsi_id (table_name gsi_name : string) : string := table_name +:+ "::" +:+ gsi_name.

Definition column_spec_json (col : string) (t : KeyType) (attr : string) : Value :=
  VObject (BTreeMap.of_list [("col", VString col); ("type", VString (key_type_str t)); ("attr", VString attr)]).
Definition column_specs_json (gsi : GsiSpec) : Value :=
  VArray (column_spec_json (gs_partition_pg_col gsi) (gs_partition_type gsi) (gs_partition_attr gsi)
          :: match gs_sort_pg_col gsi, gs_sort_type gsi, gs_sort_attr gsi with
             | Some col, Some t, Some attr => [column_spec_json col t attr]
             | _, _, _ => []
             end).

(** ** Statements *)

(** [UNIQUE (table_name, gsi_name)]. *)
Definition same_gsi (a b : GsiRow) : bool :=
  String.eqb (gr_table_name a) (gr_table_name b) && String.eqb (gr_gsi_name a) (gr_gsi_name b).

(** [INSERT_STATE_SQL]: [ON CONFLICT (gsi_id) DO NOTHING]; a conflict on
    the other constraint is an error. *)
Definition insert_state_row (s : GsiState) (rows : list GsiRow) : Result OrchestratorError (list GsiRow) :=
  let r := state_to_row s in
  if existsb (fun r' => String.eqb (gr_gsi_id r') (gr_gsi_id r)) rows then Ok rows
  else if existsb (same_gsi r) rows
  then Err (OrchestratorError_Db "duplicate key value violates unique constraint")
  else Ok (rows ++ [r]).

(** [UPDATE_PHASE_SQL]. *)
Definition set_phase (phase : GsiPhase) (error : option string) (now : Z) (r : GsiRow) : GsiRow :=
  mkGsiRow (gr_gsi_id r) (gr_table_name r) (gr_gsi_name r) (gr_pg_table r) (gr_column_specs r) (gr_index_name r)
    (phase_as_str phase) (gr_last_pk_copied r) (gr_declared_at_ms r)
    (if String.eqb (phase_as_str phase) "active" then Some now else gr_activated_at_ms r)
    (gr_last_verified_at_ms r) now error.
Definition where_id (id : string) (f : GsiRow -> GsiRow) (rows : list GsiRow) : list GsiRow :=
  map (fun r => if String.eqb (gr_gsi_id r) id then f r else r) rows.
Definition update_phase (id : string) (phase : GsiPhase) (error : option string) (now : Z) (rows : list GsiRow)
  : list GsiRow := where_id id (set_phase phase error now) rows.

(** The statement of [run_chunk] on the row: the resume cursor. *)
Definition set_cursor (cursor : Value) (now : Z) (r : GsiRow) : GsiRow :=
  mkGsiRow (gr_gsi_id r) (gr_table_name r) (gr_gsi_name r) (gr_pg_table r) (gr_column_specs r) (gr_index_name r)
    (gr_phase r) (Some cursor) (gr_declared_at_ms r) (gr_activated_at_ms r) (gr_last_verified_at_ms r) now (gr_error r).

(** The stamp of a clean drift check. *)
Definition set_verified (now : Z) (r : GsiRow) : GsiRow :=
  mkGsiRow (gr_gsi_id r) (gr_table_name r) (gr_gsi_name r) (gr_pg_table r) (gr_column_specs r) (gr_index_name r)
    (gr_phase r) (gr_last_pk_copied r) (gr_declared_at_ms r) (gr_activated_at_ms r) (Some now)
    (gr_last_modified_at_ms r) (gr_error r).

(** [SELECT_STATE_SQL]; [gsi_id] is the primary key. *)
Definition find_row (id : string) (rows : list GsiRow) : option GsiRow :=
  List.find (fun r => String.eqb (gr_gsi_id r) id) rows.
Definition fetch_state (id : string) (rows : list GsiRow) : Result OrchestratorError (option GsiState) :=
  match find_row id rows with
  | Some r => let? s := row_to_state r in Ok (Some s)
  | None => Ok None
  end.

Definition fetch_states_by_phase (phases : list GsiPhase) (rows : list GsiRow) : Result OrchestratorError (list GsiState) :=
  collect row_to_state (List.filter (fun r => contains (map phase_as_str phases) (gr_phase r)) rows).

(** ** Adding a GSI *)

(** [key_type_sql]. *)
Definition key_type_sql (t : KeyType) : string :=
  match t with KeyType_S => "text" | KeyType_N => "numeric" | KeyType_B => "bytea" end.

Definition add_columns_sql (pg_table : string) (gsi : GsiSpec) : string :=
  let sort_clause := match gs_sort_pg_col gsi, gs_sort_type gsi with
                     | Some col, Some t => ", ADD COLUMN IF NOT EXISTS " +:+ col +:+ " " +:+ key_type_sql t +:+ " NULL"
                     | _, _ => EmptyString
                     end in
  "ALTER TABLE " +:+ pg_table +:+ " ADD COLUMN IF NOT EXISTS " +:+ gs_partition_pg_col gsi +:+ " "
  +:+ key_type_sql (gs_partition_type gsi) +:+ " NULL" +:+ sort_clause.

Definition declared_state (table_name pg_table : string) (gsi : GsiSpec) (now : Z) : GsiState :=
  mkGsiState (gsi_id table_name (gs_name gsi)) table_name (gs_name gsi) pg_table (column_specs_json gsi)
    (gs_index_name gsi) GsiPhase_Declared None now None None now None.

(** ** Facts *)

Lemma parse_phase_str p : parse_phase (phase_as_str p) = Some p.
Proof. by destruct p. Qed.

Lemma parse_phase_inv s p : parse_phase s = Some p -> phase_as_str p = s.
Proof.
  unfold parse_phase. intros H.
  repeat match type of H with (if String.eqb s ?k then _ else _) = _ =>
    destruct (String.eqb_spec s k) as [->|]; [by simplify_eq|] end. done.
Qed.

(** a phase survives being written to the table and read back, and a
    text the table holds parses to at most the phase it is the text of; a
    row written by [insert_state_row] reads back as the state it was. *)
Theorem phase_round_trip :
  (forall p, parse_phase (phase_as_str p) = Some p)
  /\ (forall s p, parse_phase s = Some p <-> s = phase_as_str p)
  /\ (forall s, row_to_state (state_to_row s) = Ok s).
Proof.
  split; [apply parse_phase_str|]. split.
  - intros s p. split; [intros H; symmetry; by apply parse_phase_inv|]. intros ->. apply parse_phase_str.
  - intros []. unfold row_to_state, state_to_row. simpl. by rewrite parse_phase_str.
Qed.

Lemma find_where_id id f rows :
  (forall r, gr_gsi_id (f r) = gr_gsi_id r) -> find_row id (where_id id f rows) = f <$> find_row id rows.
Proof.
  intros Hf. unfold find_row, where_id. induction rows as [|r rows IH]; [done|]. cbn [map List.find].
  destruct (String.eqb_spec (gr_gsi_id r) id) as [E|Hne]; simpl.
  - rewrite Hf, E, String.eqb_refl. done.
  - destruct (String.eqb_spec (gr_gsi_id r) id); [done|]. apply IH.
Qed.

Lemma find_update_phase id p e now rows :
  find_row id (update_phase id p e now rows) = set_phase p e now <$> find_row id rows.
Proof. by apply find_where_id. Qed.

Lemma find_where_other id id' f rows :
  (forall r, gr_gsi_id (f r) = gr_gsi_id r) -> id <> id' -> find_row id (where_id id' f rows) = find_row id rows.
Proof.
  intros Hf Hne. unfold find_row, where_id. induction rows as [|r rows IH]; [done|]. cbn [map List.find].
  destruct (String.eqb_spec (gr_gsi_id r) id') as [E|]; simpl.
  - rewrite Hf. destruct (String.eqb_spec (gr_gsi_id r) id); [congruence|]. done.
  - destruct (String.eqb (gr_gsi_id r) id); [done|]. apply IH.
Qed.

Lemma existsb_find id rows :
  existsb (fun r' => String.eqb (gr_gsi_id r') id) rows = bool_decide (is_Some (find_row id rows)).
Proof.
  unfold find_row. induction rows as [|r rows IH]; [done|]. simpl.
  destruct (String.eqb (gr_gsi_id r) id); [by rewrite bool_decide_true|]. done.
Qed.
