(* ===== verification/Backfill.v ===== *)
(** * The backfill worker (rekt-gsi, [backfill.rs])

    The chunked UPDATE that fills the columns of an online GSI. The rows
    of the base table are a list; the chunk statement is the function its
    SQL denotes. The native order of a key column, its text form, the
    order of text in the database's collation, the extraction of a column
    from the payload and the order of RETURNING are parameters. *)

From stdpp Require Import sorting.
From S2P Require Import Prelude RustStr BTree Json Storage Catalog Reconciler GsiState.

(** ** Configuration and columns *)

(** [chunk_size] and the throttle in milliseconds. *)
Record BackfillConfig : Type := mkBackfillConfig { chunk_size : nat; throttle_ms : Z }.
Definition default_backfill_config : BackfillConfig := mkBackfillConfig 1000 100.

Record ColSpec : Type := mkColSpec { cs_col : string; cs_attr : string; cs_key_type : KeyType }.

(** [unknown] is the reason given for an unknown type, which differs between
    [backfill.rs] and [verify.rs]. *)
Definition parse_column_spec (unknown : string -> string) (id : string) (v : Value) : Result OrchestratorError ColSpec :=
  let malformed reason := OrchestratorError_MalformedRow id reason in
  let? obj := ok_or (as_object v) (malformed "column_specs entry not an object") in
  let? col := ok_or (opt_str obj "col") (malformed "column_specs.col missing") in
  let? attr := ok_or (opt_str obj "attr") (malformed "column_specs.attr missing") in
  let? kt_str := ok_or (opt_str obj "type") (malformed "column_specs.type missing") in
  if String.eqb kt_str "S" then Ok (mkColSpec col attr KeyType_S)
  else if String.eqb kt_str "N" then Ok (mkColSpec col attr KeyType_N)
  else if String.eqb kt_str "B" then Ok (mkColSpec col attr KeyType_B)
  else Err (malformed (unknown kt_str)).
Definition parse_specs_with (unknown : string -> string) (st : GsiState) : Result OrchestratorError (list ColSpec) :=
  let? arr := ok_or (as_array (st_column_specs st))
                (OrchestratorError_MalformedRow (st_gsi_id st) "column_specs not an array") in
  collect (parse_column_spec unknown (st_gsi_id st)) arr.
Definition parse_column_specs : GsiState -> Result OrchestratorError (list ColSpec) :=
  parse_specs_with (fun t => "column_specs.type unknown: `" +:+ t +:+ "`").

Definition extract_sql (attr : string) (t : KeyType) : string :=
  match t with
  | KeyType_S => "data #>> '{" +:+ attr +:+ ",S}'"
  | KeyType_N => "(data #>> '{" +:+ attr +:+ ",N}')::numeric"
  | KeyType_B => "decode(data #>> '{" +:+ attr +:+ ",B}', 'base64')"
  end.

(** ** The cursor *)

Inductive ResumeCursor : Type :=
| ResumeCursor_Simple (pk : option string)
| ResumeCursor_Composite (key : option (string * string)).

Definition initial_cursor (composite : bool) (last_pk_copied : option Value) : ResumeCursor :=
  if composite
  then ResumeCursor_Composite
         (match last_pk_copied ≫= as_object with
          | Some obj => match opt_str obj "pk", opt_str obj "sk" with
                        | Some p, Some s => Some (p, s)
                        | _, _ => None
                        end
          | None => None
          end)
  else ResumeCursor_Simple (last_pk_copied ≫= as_str).

(** The value written to [last_pk_copied]. *)
Definition cursor_json (c : ResumeCursor) : option Value :=
  match c with
  | ResumeCursor_Simple pk => VString <$> pk
  | ResumeCursor_Composite key =>
      (fun ps => VObject (BTreeMap.of_list [("pk", VString ps.1); ("sk", VString ps.2)])) <$> key
  end.

(** ** One chunk *)

Section backfill.
Context {K V D : Type} `{EqDecision K}.
Variable key_lt : K -> K -> bool.
Variable key_text : K -> string.
Variable text_lt : string -> string -> bool.
Variable extract : ColSpec -> D -> option V.

(** A row: the primary-key columns in order, the payload, the other
    columns. *)
Record BRow : Type := mkBRow { br_key : list K; br_data : D; br_cols : gmap string V }.

Variable returning : list BRow -> list BRow.

(** [(pk::text, sk::text) > ($1, $2)], the comparison of two rows; the keys
    of a table have one length, so the case of a shorter one is free. *)
Fixpoint row_after (c : list string) (k : list K) : bool :=
  match c, k with
  | s :: c', x :: k' => text_lt s (key_text x) || (String.eqb s (key_text x) && row_after c' k')
  | [], _ :: _ => true
  | _, _ => false
  end.
(** [ORDER BY pk, sk]. *)
Fixpoint keys_lt (k l : list K) : bool :=
  match k, l with
  | x :: k', y :: l' => key_lt x y || (bool_decide (x = y) && keys_lt k' l')
  | [], _ :: _ => true
  | _, _ => false
  end.
Definition order_le (r s : BRow) : Prop := keys_lt (br_key s) (br_key r) = false.
#[export] Instance order_le_dec : RelDecision order_le.
Proof. intros r s. unfold order_le. apply _. Defined.

Definition resume (prev : option (list string)) (r : BRow) : bool :=
  match prev with Some c => row_after c (br_key r) | None => true end.
(** The null filter: the first column only. *)
Definition first_null (cols : list ColSpec) (r : BRow) : bool :=
  match cols with
  | c :: _ => bool_decide (br_cols r !! cs_col c = None)
  | [] => false
  end.
Definition candidate (cols : list ColSpec) (prev : option (list string)) (r : BRow) : bool :=
  resume prev r && first_null cols r.
(** The SET clause. *)
Definition fill (cols : list ColSpec) (r : BRow) : BRow :=
  mkBRow (br_key r) (br_data r)
    (fold_left (fun m c => match extract c (br_data r) with
                           | Some v => <[cs_col c := v]> m
                           | None => delete (cs_col c) m
                           end) cols (br_cols r)).

(** The CTE. *)
Definition chunk_of (cols : list ColSpec) (prev : option (list string)) (n : nat) (rows : list BRow) : list BRow :=
  take n (merge_sort order_le (List.filter (candidate cols prev) rows)).
(** [UPDATE .. FROM chunk WHERE ..]. *)
Definition update_chunk (cols : list ColSpec) (chunk : list BRow) (rows : list BRow) : list BRow :=
  map (fun r => if bool_decide (br_key r ∈ map br_key chunk) then fill cols r else r) rows.

(** [run_chunk] with the columns of the primary key: the number of rows,
    the next cursor and the table. *)
Definition run_chunk (cols : list ColSpec) (prev : option (list string)) (n : nat) (rows : list BRow)
  : nat * option (list string) * list BRow :=
  match cols with
  | [] => (O, prev, rows)
  | _ =>
      let chunk := chunk_of cols prev n rows in
      let rows' := update_chunk cols chunk rows in
      let returned := returning (List.filter (fun r => bool_decide (br_key r ∈ map br_key chunk)) rows') in
      (length returned,
       match last returned with Some r => Some (map key_text (br_key r)) | None => prev end,
       rows')
  end.

(** The loop of [run_backfill]. *)
Fixpoint backfill_loop (fuel : nat) (cols : list ColSpec) (prev : option (list string)) (n : nat) (rows : list BRow)
  : option (option (list string) * list BRow) :=
  match fuel with
  | O => None
  | S fuel' =>
      let '(count, prev', rows') := run_chunk cols prev n rows in
      if Nat.eqb count 0 then Some (prev', rows') else backfill_loop fuel' cols prev' n rows'
  end.

(** ** Completeness *)

(** The native order is a strict total order and text agrees with it. *)
Record text_order_agrees : Prop := {
  toa_irrefl : forall x, key_lt x x = false;
  toa_trans : forall x y z, key_lt x y = true -> key_lt y z = true -> key_lt x z = true;
  toa_total : forall x y, key_lt x y = true \/ x = y \/ key_lt y x = true;
  toa_text : forall x y, text_lt (key_text x) (key_text y) = key_lt x y
}.

Section facts.
Hypothesis Hord : text_order_agrees.

Lemma key_text_inj x y : key_text x = key_text y -> x = y.
Proof.
  intros E. pose proof (toa_text Hord x y) as H1. pose proof (toa_text Hord y x) as H2.
  pose proof (toa_text Hord x x) as H3. rewrite (toa_irrefl Hord) in H3. rewrite E in H1, H2, H3.
  destruct (toa_total Hord x y) as [H|[H|H]]; congruence.
Qed.

Lemma row_after_keys k l : row_after (map key_text k) l = keys_lt k l.
Proof.
  revert l. induction k as [|x k IH]; intros [|y l]; try done. cbn [map row_after keys_lt].
  rewrite (toa_text Hord), IH. f_equal. f_equal.
  destruct (String.eqb_spec (key_text x) (key_text y)) as [E|Hne].
  - by rewrite bool_decide_true by (by apply key_text_inj).
  - rewrite bool_decide_false; [done|]. congruence.
Qed.

Lemma keys_lt_irrefl k : keys_lt k k = false.
Proof. induction k as [|x k IH]; [done|]. simpl. by rewrite (toa_irrefl Hord), bool_decide_true, IH. Qed.

Lemma keys_lt_trans k l m : keys_lt k l = true -> keys_lt l m = true -> keys_lt k m = true.
Proof.
  pose proof (toa_trans Hord) as T.
  revert l m. induction k as [|x k IH]; intros [|y l] [|z m]; simpl; try done.
  rewrite !orb_true_iff, !andb_true_iff, !bool_decide_eq_true.
  intros [H1|[-> H1]] [H2|[-> H2]]; eauto.
Qed.

Lemma keys_lt_total k l : keys_lt k l = true \/ k = l \/ keys_lt l k = true.
Proof.
  revert l. induction k as [|x k IH]; intros [|y l]; simpl; try by auto.
  rewrite !orb_true_iff, !andb_true_iff, !bool_decide_eq_true.
  destruct (toa_total Hord x y) as [H|[->|H]]; [by auto| |by auto].
  destruct (IH l) as [H|[->|H]]; by auto.
Qed.

#[local] Instance order_le_trans : Transitive order_le.
Proof.
  intros r s t. unfold order_le. intros H1 H2. apply not_true_iff_false. intros H3.
  destruct (keys_lt_total (br_key r) (br_key s)) as [H|[E|H]]; [|rewrite E in *; congruence|congruence].
  pose proof (keys_lt_trans _ _ _ H3 H). congruence.
Qed.
#[local] Instance order_le_total : Total order_le.
Proof.
  intros r s. unfold order_le. destruct (keys_lt (br_key s) (br_key r)) eqn:H1; [|by left].
  right. apply not_true_iff_false. intros H2. pose proof (keys_lt_trans _ _ _ H1 H2). by rewrite keys_lt_irrefl in *.
Qed.

Variable cols : list ColSpec.

Lemma sorted_candidates prev rows :
  StronglySorted order_le (merge_sort order_le (List.filter (candidate cols prev) rows)).
Proof. apply StronglySorted_merge_sort; apply _. Qed.

Lemma chunk_candidates prev n rows r : r ∈ chunk_of cols prev n rows -> r ∈ rows /\ candidate cols prev r = true.
Proof.
  intros Hr. assert (r ∈ merge_sort order_le (List.filter (candidate cols prev) rows)) as Hm.
  { unfold chunk_of in Hr. apply list_elem_of_lookup in Hr as [i [Hi _]%lookup_take_Some].
    apply list_elem_of_lookup. by exists i. }
  rewrite merge_sort_Permutation in Hm. apply list_elem_of_In, filter_In in Hm as [Hin Hc].
  split; [by apply list_elem_of_In|done].
Qed.

(** Between two sorted halves. *)
Lemma sorted_split n (l : list BRow) r s :
  StronglySorted order_le l -> r ∈ take n l -> s ∈ drop n l -> order_le r s.
Proof.
  intros Hs. revert n. induction Hs as [|x l Hs IH Hx]; intros [|n]; simpl; try (set_solver).
  intros [->|Hr]%elem_of_cons Hd; [|by eapply IH].
  rewrite Forall_forall in Hx. apply Hx. apply list_elem_of_lookup in Hd as [i Hi]. rewrite lookup_drop in Hi.
  apply list_elem_of_lookup. by eexists.
Qed.

Lemma last_max (l : list BRow) m x :
  StronglySorted order_le l -> last l = Some m -> x ∈ l -> order_le x m.
Proof.
  intros Hs Hl Hx. apply last_Some in Hl as [l' ->]. apply elem_of_app in Hx as [Hx|Hx].
  - apply (sorted_split (length l') (l' ++ [m])); [done|by rewrite take_app_length|].
    rewrite drop_app_length. by left.
  - apply list_elem_of_singleton in Hx as ->. apply keys_lt_irrefl.
Qed.

(** A cursor some row's key was written to. *)
Definition cursor_ok (prev : option (list string)) : Prop :=
  match prev with None => True | Some c => exists k : list K, c = map key_text k end.

(** What is left to do from a cursor. *)
Definition filled (prev : option (list string)) (rows : list BRow) : list BRow :=
  map (fun r => if candidate cols prev r then fill cols r else r) rows.

Lemma resume_trans prev r s :
  cursor_ok prev -> resume prev r = true -> keys_lt (br_key r) (br_key s) = true -> resume prev s = true.
Proof.
  destruct prev as [c|]; [|done]. intros [k ->]. simpl. rewrite !row_after_keys. apply keys_lt_trans.
Qed.

(** The row of the chunk with the greatest key, from the rows returned. *)
Lemma chunk_last prev n rows :
  (forall l, returning l = merge_sort order_le l) -> chunk_of cols prev n rows <> [] ->
  let returned := returning (List.filter (fun r => bool_decide (br_key r ∈ map br_key (chunk_of cols prev n rows)))
                               (update_chunk cols (chunk_of cols prev n rows) rows)) in
  exists m, last returned = Some m /\ br_key m ∈ map br_key (chunk_of cols prev n rows)
  /\ forall c, c ∈ chunk_of cols prev n rows -> keys_lt (br_key m) (br_key c) = false.
Proof.
  intros Hret Hne. set (chunk := chunk_of cols prev n rows). rewrite Hret.
  set (sel := List.filter _ _). cbv zeta.
  assert (Hin : forall c, c ∈ chunk -> fill cols c ∈ merge_sort order_le sel).
  { intros c Hc. rewrite merge_sort_Permutation. unfold sel. apply list_elem_of_In, filter_In.
    assert (Hk : br_key c ∈ map br_key chunk) by (by apply list_elem_of_fmap_2).
    split; [|simpl; by rewrite bool_decide_true].
    apply in_map_iff. exists c. rewrite bool_decide_true by done. split; [done|].
    apply list_elem_of_In. by eapply chunk_candidates. }
  pose proof (StronglySorted_merge_sort order_le sel) as Hs.
  destruct (last (merge_sort order_le sel)) as [m|] eqn:Hl.
  - exists m. split; [done|]. split.
    + assert (m ∈ merge_sort order_le sel) as Hm by (apply last_Some in Hl as [l' ->]; set_solver).
      rewrite merge_sort_Permutation in Hm. unfold sel in Hm. apply list_elem_of_In, filter_In in Hm as [_ Hm].
      by apply bool_decide_eq_true in Hm.
    + intros c Hc. change (order_le (fill cols c) m). by eapply last_max; [| |by apply Hin].
  - apply last_None in Hl. rewrite Hl in Hin. destruct chunk as [|c chunk'] eqn:E; [by destruct (Hne E)|].
    exfalso. specialize (Hin c ltac:(set_solver)). set_solver.
Qed.

Lemma step_row prev n rows m r :
  cursor_ok prev -> NoDup (map br_key rows) -> r ∈ rows ->
  let chunk := chunk_of cols prev n rows in
  br_key m ∈ map br_key chunk -> (forall c, c ∈ chunk -> keys_lt (br_key m) (br_key c) = false) ->
  let prev' := Some (map key_text (br_key m)) in
  if bool_decide (br_key r ∈ map br_key chunk)
  then candidate cols prev r = true /\ candidate cols prev' (fill cols r) = false
  else candidate cols prev' r = candidate cols prev r.
Proof.
  intros Hc Hnd Hr chunk Hm Hmax prev'. case_bool_decide as Hin.
  - apply list_elem_of_fmap in Hin as (c & Ek & Hcc).
    destruct (chunk_candidates _ _ _ _ Hcc) as [Hcr Hcand].
    assert (r = c) as -> by (eapply (NoDup_map_inj br_key); eauto). split; [done|].
    unfold candidate, prev'. simpl resume. rewrite row_after_keys. by rewrite (Hmax c Hcc).
  - unfold candidate. destruct (first_null cols r) eqn:Hnull; [|by rewrite !andb_false_r]. rewrite !andb_true_r.
    unfold prev'. simpl resume. rewrite row_after_keys.
    destruct (resume prev r) eqn:Hp.
    + (* a candidate outside the chunk comes after every row of the chunk *)
      apply list_elem_of_fmap in Hm as (c & -> & Hcc).
      assert (r ∈ drop n (merge_sort order_le (List.filter (candidate cols prev) rows))) as Hd.
      { assert (r ∈ merge_sort order_le (List.filter (candidate cols prev) rows)) as Hs.
        { rewrite merge_sort_Permutation. apply list_elem_of_In, filter_In.
          split; [by apply list_elem_of_In|]. unfold candidate. by rewrite Hp, Hnull. }
        rewrite <- (take_drop n (merge_sort _ _)) in Hs. apply elem_of_app in Hs as [Hs|Hs]; [|done].
        exfalso. apply Hin. by apply list_elem_of_fmap_2. }
      pose proof (sorted_split n _ _ _ (sorted_candidates prev rows) Hcc Hd) as Hle. unfold order_le in Hle.
      destruct (keys_lt_total (br_key c) (br_key r)) as [H|[E|H]]; [done| |congruence].
      exfalso. apply Hin. rewrite <- E. by apply list_elem_of_fmap_2.
    + apply not_true_iff_false. intros H. apply list_elem_of_fmap in Hm as (c & E & Hcc). rewrite E in H.
      destruct (chunk_candidates _ _ _ _ Hcc) as [_ [Hres _]%andb_prop].
      pose proof (resume_trans _ _ _ Hc Hres H). congruence.
Qed.

Lemma count_map_lt {A} (p q : A -> bool) (f : A -> A) l :
  (forall x, x ∈ l -> q (f x) = true -> p x = true) -> (exists x, x ∈ l /\ p x = true /\ q (f x) = false) ->
  (length (List.filter q (map f l)) < length (List.filter p l))%nat.
Proof.
  intros Himp Hex. assert (Hle : forall l', (forall x, x ∈ l' -> x ∈ l) ->
    (length (List.filter q (map f l')) <= length (List.filter p l'))%nat).
  { induction l' as [|x l' IH]; intros Hsub; [done|]. simpl. specialize (IH ltac:(set_solver)).
    destruct (q (f x)) eqn:Hq; [rewrite (Himp x) by (try done; set_solver); simpl; lia|].
    destruct (p x); simpl; lia. }
  clear Himp. destruct Hex as (x & Hx & Hp & Hq).
  induction l as [|y l IH]; [set_solver|]. simpl. specialize (Hle l) as Hl.
  apply elem_of_cons in Hx as [->|Hx].
  - rewrite Hp, Hq. simpl. specialize (Hl ltac:(set_solver)). lia.
  - assert (length (List.filter q (map f l)) < length (List.filter p l))%nat.
    { apply IH; try done. intros l' Hsub. apply Hle. set_solver. }
    pose proof (Hle [y] ltac:(set_solver)) as Hy. simpl in Hy.
    destruct (q (f y)), (p y); simpl in *; lia.
Qed.

Lemma run_chunk_some prev n rows :
  cols <> [] -> run_chunk cols prev n rows
  = let chunk := chunk_of cols prev n rows in
    let rows' := update_chunk cols chunk rows in
    let returned := returning (List.filter (fun r => bool_decide (br_key r ∈ map br_key chunk)) rows') in
    (length returned,
     match last returned with Some r => Some (map key_text (br_key r)) | None => prev end, rows').
Proof. unfold run_chunk. by destruct cols. Qed.

(** An empty chunk: nothing is left. *)
Lemma empty_chunk prev n rows :
  (0 < n)%nat -> chunk_of cols prev n rows = [] ->
  filled prev rows = rows /\ update_chunk cols [] rows = rows.
Proof.
  intros Hn Hchunk. assert (List.filter (candidate cols prev) rows = []) as Hnone.
  { unfold chunk_of in Hchunk. apply (f_equal length) in Hchunk. rewrite length_take in Hchunk.
    rewrite (Permutation_length (merge_sort_Permutation order_le _)) in Hchunk. simpl in Hchunk.
    apply nil_length_inv. lia. }
  split.
  - unfold filled. rewrite <- (map_id rows) at 2. apply map_ext_in. intros r Hr.
    destruct (candidate cols prev r) eqn:Hcand; [|done]. exfalso.
    assert (In r (List.filter (candidate cols prev) rows)) as Hin by (by apply filter_In). by rewrite Hnone in Hin.
  - unfold update_chunk. rewrite <- (map_id rows) at 2. apply map_ext. intros r.
    by rewrite bool_decide_false by (simpl; set_solver).
Qed.

(** One chunk keeps what the loop is to achieve, and either ends it or
    leaves fewer candidates. *)
Lemma chunk_invariant prev n rows :
  (forall l, returning l = merge_sort order_le l) -> (0 < n)%nat -> cols <> [] ->
  cursor_ok prev -> NoDup (map br_key rows) ->
  let '(count, prev', rows') := run_chunk cols prev n rows in
  cursor_ok prev' /\ NoDup (map br_key rows') /\ filled prev' rows' = filled prev rows
  /\ if Nat.eqb count 0 then rows' = filled prev rows
     else (length (List.filter (candidate cols prev') rows') < length (List.filter (candidate cols prev) rows))%nat.
Proof.
  intros Hret Hn Hcols Hc Hnd. rewrite run_chunk_some by done. cbv zeta.
  destruct (decide (chunk_of cols prev n rows = [])) as [Hchunk|Hchunk].
  - destruct (empty_chunk prev n rows Hn Hchunk) as [Hfill Hup]. rewrite Hchunk, Hup.
    assert (forall l, List.filter (fun r : BRow => bool_decide (br_key r ∈ map br_key [])) l = []) as ->.
    { induction l as [|x l IHl]; [done|]. cbn [List.filter]. by rewrite bool_decide_false by (simpl; set_solver). }
    rewrite Hret. by split_and!.
  - destruct (chunk_last prev n rows Hret Hchunk) as (m & Hl & Hm & Hmax). cbv zeta in Hl.
    set (chunk := chunk_of cols prev n rows) in *. rewrite Hl.
    assert (Hstep := fun r Hr => step_row prev n rows m r Hc Hnd Hr Hm Hmax). cbv zeta in Hstep. fold chunk in Hstep.
    split_and!.
    + by exists (br_key m).
    + unfold update_chunk. rewrite map_map. erewrite map_ext; [exact Hnd|]. intros r. by case_bool_decide.
    + unfold filled, update_chunk. rewrite map_map. apply map_ext_in.
      intros r Hr%list_elem_of_In. specialize (Hstep r Hr). case_bool_decide; [|by rewrite Hstep].
      destruct Hstep as [H1 H2]. by rewrite H1, H2.
    + destruct (Nat.eqb_spec (length (returning (List.filter (fun r => bool_decide (br_key r ∈ map br_key chunk))
                                                   (update_chunk cols chunk rows)))) 0) as [E|_].
      { apply nil_length_inv in E. rewrite E in Hl. done. }
      unfold update_chunk. apply count_map_lt.
      * intros r Hr Hq. specialize (Hstep r Hr). case_bool_decide; [apply Hstep|by rewrite Hstep in Hq].
      * apply list_elem_of_fmap in Hm as (c & E & Hcc). destruct (chunk_candidates _ _ _ _ Hcc) as [Hcr Hcand].
        exists c. split; [done|]. split; [done|]. specialize (Hstep c Hcr).
        rewrite bool_decide_true in * by (by apply list_elem_of_fmap_2). apply Hstep.
Qed.

(** The loop fills exactly the candidates. *)
Lemma backfill_from n fuel : forall prev rows,
  (forall l, returning l = merge_sort order_le l) -> (0 < n)%nat -> cols <> [] ->
  cursor_ok prev -> NoDup (map br_key rows) ->
  (length (List.filter (candidate cols prev) rows) < fuel)%nat ->
  exists prev', backfill_loop fuel cols prev n rows = Some (prev', filled prev rows).
Proof.
  induction fuel as [|fuel IH]; intros prev rows Hret Hn Hcols Hc Hnd Hf; [lia|]. cbn [backfill_loop].
  pose proof (chunk_invariant prev n rows Hret Hn Hcols Hc Hnd) as Hinv.
  destruct (run_chunk cols prev n rows) as [[count prev'] rows']. destruct Hinv as (Hc' & Hnd' & Hfill & Hcase).
  destruct (Nat.eqb count 0).
  - exists prev'. by rewrite Hcase.
  - destruct (IH prev' rows' Hret Hn Hcols Hc' Hnd' ltac:(lia)) as [p Hp]. exists p. by rewrite Hp, Hfill.
Qed.

(** Some chunks committed, then the process stops. *)
Fixpoint chunks (j : nat) (prev : option (list string)) (n : nat) (rows : list BRow) : option (list string) * list BRow :=
  match j with
  | O => (prev, rows)
  | S j' => let '(_, prev', rows') := run_chunk cols prev n rows in chunks j' prev' n rows'
  end.

Lemma chunks_invariant n j : forall prev rows,
  (forall l, returning l = merge_sort order_le l) -> (0 < n)%nat -> cols <> [] ->
  cursor_ok prev -> NoDup (map br_key rows) ->
  let '(prev', rows') := chunks j prev n rows in
  cursor_ok prev' /\ NoDup (map br_key rows') /\ filled prev' rows' = filled prev rows /\ length rows' = length rows.
Proof.
  induction j as [|j IH]; intros prev rows Hret Hn Hcols Hc Hnd; cbn [chunks]; [by split_and!|].
  pose proof (chunk_invariant prev n rows Hret Hn Hcols Hc Hnd) as Hinv.
  assert (Hlen : length (run_chunk cols prev n rows).2 = length rows).
  { rewrite run_chunk_some by done. cbn. unfold update_chunk. apply length_map. }
  destruct (run_chunk cols prev n rows) as [[count prev'] rows']. destruct Hinv as (Hc' & Hnd' & Hfill & _).
  specialize (IH prev' rows' Hret Hn Hcols Hc' Hnd'). simpl in Hlen.
  destruct (chunks j prev' n rows') as [p r]. destruct IH as (? & ? & -> & ->). by split_and!.
Qed.

Lemma count_le {A} (p : A -> bool) l : (length (List.filter p l) <= length l)%nat.
Proof. induction l as [|x l IH]; simpl; [done|]. destruct (p x); simpl; lia. Qed.

(** Every column of the GSI gets the value its attribute has in the
    payload. *)
Lemma fill_columns r c :
  NoDup (map cs_col cols) -> c ∈ cols -> br_cols (fill cols r) !! cs_col c = extract c (br_data r).
Proof.
  unfold fill. cbn [br_cols]. generalize (br_cols r). induction cols as [|d l IH]; intros m Hnd Hc; [set_solver|].
  simpl in Hnd. apply NoDup_cons in Hnd as [Hd Hnd]. cbn [fold_left]. apply elem_of_cons in Hc as [->|Hc]; [|by apply IH].
  set (m' := match extract d (br_data r) with Some v => _ | None => _ end).
  assert (Hm : m' !! cs_col d = extract d (br_data r)).
  { unfold m'. destruct (extract d (br_data r)); [apply lookup_insert_eq|apply lookup_delete_eq]. }
  rewrite <- Hm. clear Hm IH. generalize m'. clear m'. induction l as [|e l IH]; intros m'; [done|]. cbn [fold_left].
  simpl in Hd, Hnd. apply NoDup_cons in Hnd as [_ Hnd]. rewrite IH; [|set_solver|done].
  destruct (extract e (br_data r)); [apply lookup_insert_ne|apply lookup_delete_ne]; set_solver.
Qed.

(** C7: when text compares like the keys do and rows are returned in key
    order, the backfill ends, however many chunks were committed before
    the process was restarted from the saved cursor: each row whose first
    index column was NULL has every index column computed from its payload,
    and no other row changed. *)
Theorem backfill_complete n rows j :
  (forall l, returning l = merge_sort order_le l) -> (0 < n)%nat -> cols <> [] -> NoDup (map cs_col cols) ->
  NoDup (map br_key rows) ->
  let '(prev, rows_j) := chunks j None n rows in
  (exists prev' rows', backfill_loop (S (length rows)) cols prev n rows_j = Some (prev', rows')
     /\ rows' = map (fun r => if first_null cols r then fill cols r else r) rows)
  /\ forall r c, c ∈ cols -> br_cols (fill cols r) !! cs_col c = extract c (br_data r).
Proof.
  intros Hret Hn Hcols Hnc Hnd. pose proof (chunks_invariant n j None rows Hret Hn Hcols I Hnd) as Hinv.
  destruct (chunks j None n rows) as [prev rows_j]. destruct Hinv as (Hc & Hnd' & Hfill & Hlen). split.
  - destruct (backfill_from n (S (length rows)) prev rows_j Hret Hn Hcols Hc Hnd') as [p Hp].
    { pose proof (count_le (candidate cols prev) rows_j). lia. }
    exists p, (filled prev rows_j). split; [done|]. rewrite Hfill. done.
  - intros r c Hcc. by apply fill_columns.
Qed.
End facts.

(** ** The worker *)

(** [resume] of the cursor, as the texts bound to [$1] and [$2]. *)
Definition cursor_texts (c : ResumeCursor) : option (list string) :=
  match c with
  | ResumeCursor_Simple pk => (fun s => [s]) <$> pk
  | ResumeCursor_Composite key => (fun ps => [ps.1; ps.2]) <$> key
  end.
Definition texts_value (texts : list string) : Value :=
  match texts with
  | [p; s] => VObject (BTreeMap.of_list [("pk", VString p); ("sk", VString s)])
  | _ => VString (default "" (head texts))
  end.

End backfill.

(** The saved cursor is read back as it was. *)
Lemma cursor_round_trip_json p s :
  cursor_texts (initial_cursor false (Some (texts_value [p]))) = Some [p]
  /\ cursor_texts (initial_cursor true (Some (texts_value [p; s]))) = Some [p; s].
Proof. split; reflexivity. Qed.

(** ** Key columns *)

(** Text keys, in the order of the bytes (collation [C]). *)
Definition text_identity (s : string) : string := s.
Lemma text_keys_agree : text_order_agrees str_ltb text_identity str_ltb.
Proof.
  constructor.
  - intros x. apply not_true_iff_false. rewrite str_ltb_spec. apply str_lt_irrefl.
  - intros x y z. rewrite !str_ltb_spec. apply str_lt_trans.
  - intros x y. rewrite !str_ltb_spec. unfold str_lt. destruct (String.compare x y) eqn:E.
    + right. left. by apply str_compare_eq.
    + by left.
    + right. right. by apply str_compare_gt.
  - done.
Qed.

(** [tier] from a payload that is the tier itself. *)
Definition tier_col : ColSpec := mkColSpec "tier" "tier" KeyType_S.
Definition tier_of (c : ColSpec) (d : option string) : option string := d.
Definition text_row (k : string) (d : option string) : BRow (K := string) (V := string) (D := option string) := mkBRow [k] d ∅.
Definition in_key_order {K D V} `{EqDecision K} (key_lt : K -> K -> bool) : list (BRow (K := K) (D := D) (V := V)) -> list BRow :=
  merge_sort (order_le key_lt).
Definition three_rows : list BRow := [text_row "b" (Some "gold"); text_row "c" None; text_row "a" (Some "tin")].

Lemma backfill_complete_witness :
  exists prev rows', backfill_loop str_ltb text_identity str_ltb tier_of (in_key_order str_ltb)
    4 [tier_col] None 1 three_rows = Some (prev, rows')
  /\ map (fun r => br_cols r !! "tier") rows' = [Some "gold"; None; Some "tin"].
Proof.
  destruct (backfill_complete str_ltb text_identity str_ltb tier_of (in_key_order str_ltb) text_keys_agree
              [tier_col] 1 three_rows 0) as [(prev & rows' & H & ->) _].
  - done.
  - lia.
  - done.
  - apply NoDup_singleton.
  - simpl. repeat (apply NoDup_cons; split; [set_solver|]). constructor.
  - exists prev. eexists. split; [exact H|]. vm_compute. reflexivity.
Defined.

(** Numeric keys, whose text is their decimal form. *)
Definition decimal (z : Z) : string := usize_to_string (Z.to_N z).
Definition num_row (z : Z) : BRow (K := Z) (V := string) (D := option string) := mkBRow [z] (Some "gold") ∅.
Definition sequential_ids : list BRow := map (fun i => num_row (90 + Z.of_nat i)) (seq 0 11).
Definition unfilled {K V D} (rows : list (BRow (K := K) (V := V) (D := D))) : list (list K) :=
  map br_key (List.filter (first_null [tier_col]) rows).

(** on a numeric key the backfill misses rows: it walks the rows in
    numeric order but resumes with a comparison of text. With chunks of ten
    rows (of a thousand by default) and ids 90 to 100 it finishes and
    leaves row 100 without its index column, although its payload has the
    attribute. *)
Theorem backfill_skips_numeric_keys :
  (forall r, r ∈ sequential_ids -> br_data r = Some "gold")
  /\ exists prev rows',
       backfill_loop Z.ltb decimal str_ltb tier_of (in_key_order Z.ltb) 12 [tier_col] None
         (chunk_size (mkBackfillConfig 10 100)) sequential_ids = Some (prev, rows')
       /\ unfilled rows' = [[100%Z]].
Proof.
  split; [by intros r (i & -> & _)%list_elem_of_fmap|].
  destruct (backfill_loop Z.ltb decimal str_ltb tier_of (in_key_order Z.ltb) 12 [tier_col] None
         (chunk_size (mkBackfillConfig 10 100)) sequential_ids) as [[prev rows']|] eqn:E.
  - exists prev, rows'. split; [done|].
    transitivity (match backfill_loop Z.ltb decimal str_ltb tier_of (in_key_order Z.ltb) 12 [tier_col] None
         (chunk_size (mkBackfillConfig 10 100)) sequential_ids with Some (_, r) => unfilled r | None => [] end).
    { by rewrite E. }
    vm_compute. reflexivity.
  - exfalso. revert E. vm_compute. discriminate.
Qed.

(** ** The null filter *)

Section null_filter.
Context {K V D : Type} `{EqDecision K}.
Variables (key_lt : K -> K -> bool) (key_text : K -> string) (text_lt : string -> string -> bool).
Variables (extract : ColSpec -> D -> option V) (returning : list (BRow (K := K) (V := V) (D := D)) -> list (BRow (K := K) (V := V) (D := D))).

(** A table on which the first column is never NULL is left as it is. *)
Lemma backfill_nothing cols prev n rows :
  returning [] = [] -> (forall r, r ∈ rows -> first_null cols r = false) ->
  backfill_loop key_lt key_text text_lt extract returning 1 cols prev n rows = Some (prev, rows).
Proof.
  intros Hret Hf. cbn [backfill_loop]. unfold run_chunk. destruct cols as [|c cols']; [done|].
  set (cols := c :: cols') in *.
  assert (List.filter (candidate key_text text_lt cols prev) rows = []) as Hnone.
  { destruct (List.filter _ _) as [|r l] eqn:E; [done|]. exfalso.
    assert (In r (r :: l)) as Hin by (by left). rewrite <- E in Hin. apply filter_In in Hin as [Hin Hc].
    apply list_elem_of_In in Hin. unfold candidate in Hc. rewrite (Hf r Hin), andb_false_r in Hc. done. }
  assert (chunk_of key_lt key_text text_lt cols prev n rows = []) as ->.
  { unfold chunk_of. rewrite Hnone. by destruct n. }
  assert (update_chunk extract cols [] rows = rows) as ->.
  { unfold update_chunk. rewrite <- (map_id rows) at 2. apply map_ext. intros r.
    by rewrite bool_decide_false by (simpl; set_solver). }
  assert (forall l, List.filter (fun r : BRow (K := K) (V := V) (D := D) => bool_decide (br_key r ∈ map br_key [])) l = []) as ->.
  { induction l as [|x l IHl]; [done|]. cbn [List.filter]. by rewrite bool_decide_false by (simpl; set_solver). }
  by rewrite Hret.
Qed.
End null_filter.
