(* ===== verification/GsiWorkers.v ===== *)
(** * The GSI workers (rekt-gsi, [lib.rs], [index.rs], [remove.rs],
    [verify.rs])

    The background coordinators that drive an online GSI to ACTIVE or to
    GONE, the drift check and the boot-time resume, as computations over
    the state rows, the metadata rows and the rest of the database. Each
    call to the server or the pool is numbered; which of them fail, and
    whether a failed call took effect before its reply was lost, are
    parameters. *)

From S2P Require Import Prelude RustStr BTree Json Storage Schema Catalog Reconciler.
From S2P Require Import GsiState Backfill.

(** ** The server *)

(** The effect of a DDL statement, what a DDL statement that fails
    leaves behind (a failed CREATE INDEX CONCURRENTLY: an invalid index),
    what has become of the database by the [n]-th call when nothing but the
    work of the server and of other sessions has gone on since the call
    before, the [indisvalid] of an index, one backfill chunk of a table (rows touched, the next cursor) and the
    sampled rows of a drift check (payload text, column text, expected
    text). *)
Class GsiServer (Phys : Type) : Type := {
  ddl : string -> Phys -> Phys;
  ddl_failed : string -> Phys -> Phys;
  elapse : nat -> Phys -> Phys;
  index_valid : string -> Phys -> option bool;
  pk_columns : string -> Phys -> list string;
  backfill_chunk : string -> list ColSpec -> option (list string) -> nat -> Phys -> nat * option (list string) * Phys;
  sampled : string -> ColSpec -> nat -> Phys -> list (string * option string * option string)
}.

Record GsiWorld (Phys : Type) : Type := mkGsiWorld {
  gw_states : list GsiRow;
  gw_tables : list MetadataRow;
  gw_phys : Phys;
  gw_calls : nat
}.
Arguments mkGsiWorld {Phys}.
Arguments gw_states {Phys}.
Arguments gw_tables {Phys}.
Arguments gw_phys {Phys}.
Arguments gw_calls {Phys}.

(** What happens at each call: the error it fails with, the time, and
    whether a COMMIT, or a statement outside a transaction, that failed was
    applied all the same. *)
Record Faults : Type := mkFaults {
  fault : nat -> option string;
  clock : nat -> Z;
  applied : nat -> bool
}.

Definition no_faults : Faults := mkFaults (fun _ => None) (fun n => Z.of_nat n) (fun _ => false).

(** [quote] of each module. *)
Fixpoint quote_body (s : string) : string :=
  match s with
  | EmptyString => EmptyString
  | String c s' => if Ascii.eqb c (ascii_of_nat 34) then String c (String c (quote_body s')) else String c (quote_body s')
  end.
Definition quote (ident : string) : string := byte_str [34] +:+ quote_body ident +:+ byte_str [34].

(** ** Index specs inside [gsi_specs] *)

(** [elem->>'name']; the specs store it as a string. *)
Definition elem_name (v : Value) : option string := as_object v ≫= fun obj => opt_str obj "name".
(** [elem || jsonb_build_object(..)]. *)
Definition merge_object (v : Value) (fields : list (string * Value)) : Value :=
  match v with VObject m => VObject (BTreeMap.insert_all fields m) | v => v end.
Definition serveable_fields (b : bool) (reason : option string) : list (string * Value) :=
  [("serveable", VBool b); ("unserveable_reason", json_opt VString reason)].

(** [SELECT jsonb_agg(CASE WHEN elem->>'name' = $2 THEN elem || .. ELSE elem
    END) FROM jsonb_array_elements(gsi_specs)], which is NULL on an empty
    array. *)
Definition set_serveable (gsi_name : string) (b : bool) (reason : option string) (specs : Value) : option Value :=
  match specs with
  | VArray (e :: l) =>
      Some (VArray (map (fun elem => if bool_decide (elem_name elem = Some gsi_name)
                                     then merge_object elem (serveable_fields b reason) else elem) (e :: l)))
  | _ => None
  end.
(** The removal's statement: [COALESCE((SELECT jsonb_agg(elem) .. WHERE
    elem->>'name' <> $2), '[]')]. *)
Definition remove_spec (gsi_name : string) (specs : Value) : Value :=
  match specs with
  | VArray l => VArray (List.filter (fun elem => match elem_name elem with
                                                 | Some n => negb (String.eqb n gsi_name)
                                                 | None => false
                                                 end) l)
  | v => v
  end.

Definition with_gsi_specs (specs : Value) (now : Z) (by_ : string) (r : MetadataRow) : MetadataRow :=
  mkMetadataRow (mr_table_name r) (mr_pg_table r) (mr_jsonb_col r) (mr_pk_attr r) (mr_pk_type r)
    (mr_sk_attr r) (mr_sk_type r) (mr_status r) (mr_serveable r) (mr_unserveable_reason r) now by_
    (mr_creation_date_ms r) (mr_tags r) (mr_billing_mode r) (mr_provisioned_rcu r) (mr_provisioned_wcu r)
    (mr_lsi_specs r) specs.
Definition find_table (t : string) (rows : list MetadataRow) : option MetadataRow :=
  List.find (fun r => String.eqb (mr_table_name r) t) rows.
Definition where_table (t : string) (f : MetadataRow -> MetadataRow) (rows : list MetadataRow) : list MetadataRow :=
  map (fun r => if String.eqb (mr_table_name r) t then f r else r) rows.

(** The UPDATE of [flip_gsi_serveable] and [demote_gsi_serveable] on the
    rows: the number of rows, or the NOT NULL violation. *)
Definition update_serveable (t gsi_name : string) (b : bool) (reason : option string) (by_ : string) (now : Z)
    (rows : list MetadataRow) : string + (nat * list MetadataRow) :=
  match find_table t rows with
  | None => inr (O, rows)
  | Some r =>
      match set_serveable gsi_name b reason (mr_gsi_specs r) with
      | None => inl "null value in column gsi_specs violates not-null constraint"
      | Some specs => inr (1%nat, where_table t (with_gsi_specs specs now by_) rows)
      end
  end.

(** ** Referenced columns ([remove.rs]) *)

Definition str_field (v : Value) (k : string) : option string := as_object v ≫= fun obj => opt_str obj k.

Definition refcount_referenced_columns (base_pk : string) (base_sk : option string) (lsi_json gsi_json : Value)
    (excluding_gsi : string) : list string :=
  base_pk :: option_list base_sk
  ++ omap (fun v => str_field v "sort_pg_col") (default [] (as_array lsi_json))
  ++ concat (map (fun v => if bool_decide (elem_name v = Some excluding_gsi) then []
                           else option_list (str_field v "partition_pg_col") ++ option_list (str_field v "sort_pg_col"))
               (default [] (as_array gsi_json))).

Definition derive_owned_columns (gsi_json : Value) (target_gsi : string) : list string :=
  concat (map (fun v => if bool_decide (elem_name v = Some target_gsi)
                        then option_list (str_field v "partition_pg_col") ++ option_list (str_field v "sort_pg_col")
                        else []) (default [] (as_array gsi_json))).

Definition build_referenced_columns (siblings : list GsiSpec) (base_pk : string) (base_sk : option string)
    (lsi_cols : list string) : list string :=
  base_pk :: option_list base_sk ++ lsi_cols
  ++ concat (map (fun g => gs_partition_pg_col g :: option_list (gs_sort_pg_col g)) siblings).

(** The statements of [drop_generated_gsi_in_tx], in order. *)
Definition drop_generated_gsi_sql (pg_table : string) (gsi : GsiSpec) (sibling_specs : list GsiSpec)
    (base_pk_col : string) (base_sk_col : option string) (lsi_cols : list string) : list string :=
  let referenced := build_referenced_columns sibling_specs base_pk_col base_sk_col lsi_cols in
  ("DROP INDEX IF EXISTS " +:+ quote (gs_index_name gsi))
  :: map (fun col => "ALTER TABLE " +:+ quote pg_table +:+ " DROP COLUMN IF EXISTS " +:+ quote col)
       (List.filter (fun col => negb (contains referenced col))
          (gs_partition_pg_col gsi :: option_list (gs_sort_pg_col gsi))).

(** ** Computations *)

Section workers.
Context {Phys : Type} `{GsiServer Phys} (env : Faults).

Definition W (A : Type) : Type := GsiWorld Phys -> Result OrchestratorError A * GsiWorld Phys.
Definition w_ret {A} (a : A) : W A := fun w => (Ok a, w).
Definition w_result {A} (r : Result OrchestratorError A) : W A := fun w => (r, w).
Definition w_bind {A B} (m : W A) (f : A -> W B) : W B :=
  fun w => match m w with
           | (Ok a, w') => f a w'
           | (Err e, w') => (Err e, w')
           | (Panic, w') => (Panic, w')
           end.
#[local] Notation "'do!' x := c 'in' k" := (w_bind c (fun x => k))
  (at level 10, x pattern, c at level 100, k at level 200).

Definition tick (w : GsiWorld Phys) : GsiWorld Phys :=
  mkGsiWorld (gw_states w) (gw_tables w) (gw_phys w) (S (gw_calls w)).

(** One call that reads, or runs inside a transaction, where what a failed
    statement did is rolled back: it fails, or takes effect and answers. *)
Definition call {A} (f : Z -> GsiWorld Phys -> (string + A) * GsiWorld Phys) : W A :=
  fun w => match fault env (gw_calls w) with
           | Some e => (Err (OrchestratorError_Db e), tick w)
           | None => match f (clock env (gw_calls w)) w with
                     | (inl e, _) => (Err (OrchestratorError_Db e), tick w)
                     | (inr a, w') => (Ok a, tick w')
                     end
           end.
Definition pool_get (what : string) : W unit :=
  fun w => match fault env (gw_calls w) with
           | Some e => (Err (OrchestratorError_Pool (what +:+ ": " +:+ e)), tick w)
           | None => (Ok tt, tick w)
           end.
(** [match call { Err(e) => .., Ok(a) => .. }]. *)
Definition w_try {A B} (m : W A) (ok : A -> W B) (err : OrchestratorError -> W B) : W B :=
  fun w => match m w with
           | (Ok a, w') => ok a w'
           | (Err e, w') => err e w'
           | (Panic, w') => (Panic, w')
           end.

(** A statement that commits by itself, with its effect when it succeeds and
    what it leaves when it fails. *)
Definition autocommit (done_ failed : Z -> GsiWorld Phys -> GsiWorld Phys) : W unit :=
  fun w => let now := clock env (gw_calls w) in
           match fault env (gw_calls w) with
           | Some e => (Err (OrchestratorError_Db e),
                        tick (if applied env (gw_calls w) then done_ now w else failed now w))
           | None => (Ok tt, tick (done_ now w))
           end.
Definition with_states (rows : list GsiRow) (w : GsiWorld Phys) : GsiWorld Phys :=
  mkGsiWorld rows (gw_tables w) (gw_phys w) (gw_calls w).
Definition with_phys (p : Phys) (w : GsiWorld Phys) : GsiWorld Phys :=
  mkGsiWorld (gw_states w) (gw_tables w) p (gw_calls w).

Definition set_states (f : Z -> list GsiRow -> list GsiRow) : W unit :=
  autocommit (fun now w => with_states (f now (gw_states w)) w) (fun _ w => w).
Definition put_phase (id : string) (p : GsiPhase) (error : option string) : W unit :=
  set_states (update_phase id p error).
Definition execute (sql : string) : W unit :=
  autocommit (fun _ w => with_phys (ddl sql (gw_phys w)) w) (fun _ w => with_phys (ddl_failed sql (gw_phys w)) w).
(** [fetch_state(..).await?.ok_or_else(no state row)?]. *)
Definition fetch (id : string) : W GsiState :=
  do! r := call (fun _ w => (inr (gw_states w), w)) in
  do! s := w_result (fetch_state id r) in
  w_result (ok_or s (OrchestratorError_MalformedRow id "no state row")).

(** A transaction: an error inside rolls back; a failed COMMIT may have
    been applied. *)
Definition in_tx {A} (body : W A) : W A :=
  fun w => match call (fun _ w => (inr tt, w)) w with
           | (Ok _, w0) =>
               match body w0 with
               | (Ok a, w1) =>
                   match fault env (gw_calls w1) with
                   | None => (Ok a, tick w1)
                   | Some e => (Err (OrchestratorError_Db e),
                                if applied env (gw_calls w1) then tick w1
                                else mkGsiWorld (gw_states w0) (gw_tables w0) (gw_phys w0) (S (gw_calls w1)))
                   end
               | (Err e, w1) => (Err e, mkGsiWorld (gw_states w0) (gw_tables w0) (gw_phys w0) (gw_calls w1))
               | (Panic, w1) => (Panic, mkGsiWorld (gw_states w0) (gw_tables w0) (gw_phys w0) (gw_calls w1))
               end
           | (Err e, w0) => (Err e, w0)
           | (Panic, w0) => (Panic, w0)
           end.

(** ** Backfill *)

(** The loop of [run_backfill]: a chunk and the cursor are one
    transaction. [fuel] bounds the chunks; running out of it is kept apart
    from every outcome of the loop. *)
Fixpoint backfill_chunks (fuel : nat) (s : GsiState) (cols : list ColSpec) (prev : option (list string)) (n : nat) : W unit :=
  match fuel with
  | O => w_result Panic
  | S fuel' =>
      match cols with
      | [] => w_ret tt
      | _ =>
          do! _ := pool_get "pool get" in
          do! pk := call (fun _ w => (inr (pk_columns (st_pg_table s) (gw_phys w)), w)) in
          match pk with
          | [] => w_result (Err (OrchestratorError_MalformedRow (st_gsi_id s)
                    ("table `" +:+ st_pg_table s +:+ "` has no PRIMARY KEY columns — backfill cannot proceed")))
          | _ =>
              do! r := in_tx
                (do! r := call (fun _ w => let '(count, prev', phys) := backfill_chunk (st_pg_table s) cols prev n (gw_phys w) in
                                           (inr (count, prev'), mkGsiWorld (gw_states w) (gw_tables w) phys (gw_calls w))) in
                 do! _ := if Nat.eqb r.1 0 then w_ret tt
                          else match r.2 with
                               | Some texts => set_states (fun now => where_id (st_gsi_id s) (set_cursor (texts_value texts) now))
                               | None => w_ret tt
                               end in
                 w_ret r) in
              if Nat.eqb r.1 0 then w_ret tt else backfill_chunks fuel' s cols r.2 n
          end
      end
  end.

Definition run_backfill (fuel : nat) (cfg : BackfillConfig) (id : string) : W unit :=
  do! _ := pool_get "pool get" in
  do! s := fetch id in
  if negb (bool_decide (st_phase s = GsiPhase_Backfilling)) then w_ret tt
  else
    do! composite := call (fun _ w => (inr (Nat.ltb 1 (length (pk_columns (st_pg_table s) (gw_phys w)))), w)) in
    do! cols := w_result (parse_column_specs s) in
    backfill_chunks fuel s cols (cursor_texts (initial_cursor composite (st_last_pk_copied s))) (chunk_size cfg).

(** ** Index creation *)

Definition parse_index_col (id : string) (v : Value) : Result OrchestratorError string :=
  ok_or (str_field v "col") (OrchestratorError_MalformedRow id "column_specs entry missing `col`").
Definition parse_index_cols (s : GsiState) : Result OrchestratorError (list string) :=
  let? arr := ok_or (as_array (st_column_specs s)) (OrchestratorError_MalformedRow (st_gsi_id s) "column_specs not array") in
  collect (parse_index_col (st_gsi_id s)) arr.

Definition create_index_sql (s : GsiState) (cols : list string) : string :=
  "CREATE INDEX CONCURRENTLY IF NOT EXISTS " +:+ quote (st_index_name s) +:+ " ON " +:+ quote (st_pg_table s)
  +:+ " (" +:+ String.concat ", " (map quote cols) +:+ ") INCLUDE (" +:+ quote "data" +:+ ")".

(** The driver's error behind a failed statement. *)
Definition driver_error (e : OrchestratorError) : string :=
  match e with OrchestratorError_Db m => m | e => orchestrator_error_to_string e end.

Definition failed_with {A} (id msg : string) : W A :=
  do! _ := put_phase id GsiPhase_Failed (Some msg) in
  w_result (Err (OrchestratorError_CreateIndex msg)).

(** The polling loop; [polls] is how many polls fit before the deadline,
    [timeout] the [Debug] of the configured duration.  The index may become
    valid, or vanish, between two polls. *)
Fixpoint poll_valid (polls : nat) (timeout : string) (s : GsiState) : W unit :=
  do! row := call (fun _ w => let phys := elapse (gw_calls w) (gw_phys w) in
                              (inr (index_valid (st_index_name s) phys), with_phys phys w)) in
  match row with
  | Some true => w_ret tt
  | Some false =>
      match polls with
      | O => failed_with (st_gsi_id s) ("index `" +:+ st_index_name s +:+ "` did not reach indisvalid=true within " +:+ timeout)
      | S polls' => poll_valid polls' timeout s
      end
  | None => failed_with (st_gsi_id s) ("index `" +:+ st_index_name s +:+ "` vanished after CREATE INDEX CONCURRENTLY")
  end.

(** Also the advisory lock, which changes nothing here. *)
Definition lock_table : W unit := call (fun _ w => (inr tt, w)).

Definition flip_gsi_serveable (t gsi_name : string) : W unit :=
  do! n := call (fun now w => match update_serveable t gsi_name true None "gsi-orchestrator" now (gw_tables w) with
                              | inl e => (inl e, w)
                              | inr (n, rows) => (inr n, mkGsiWorld (gw_states w) rows (gw_phys w) (gw_calls w))
                              end) in
  if Nat.eqb n 0
  then w_result (Err (OrchestratorError_MalformedRow (t +:+ "::" +:+ gsi_name) "table row missing from _rektifier_tables"))
  else w_ret tt.

Definition promote (id : string) (s : GsiState) : W unit :=
  in_tx (do! _ := lock_table in
         do! _ := put_phase id GsiPhase_Active None in
         flip_gsi_serveable (st_table_name s) (st_gsi_name s)).

Definition run_index_creation (polls : nat) (timeout id : string) : W unit :=
  do! _ := pool_get "pool get" in
  do! s := fetch id in
  if bool_decide (st_phase s = GsiPhase_Active) then w_ret tt
  else if negb (bool_decide (st_phase s = GsiPhase_Backfilling)) && negb (bool_decide (st_phase s = GsiPhase_Indexing))
  then w_result (Err (OrchestratorError_MalformedRow id
         ("cannot run index creation: phase is `" +:+ phase_as_str (st_phase s) +:+ "`, expected `backfilling` or `indexing`")))
  else
    do! _ := if negb (bool_decide (st_phase s = GsiPhase_Indexing)) then put_phase id GsiPhase_Indexing None else w_ret tt in
    do! cols := w_result (parse_index_cols s) in
    let create_sql := create_index_sql s cols in
    do! _ := w_try (execute create_sql) w_ret (fun _ =>
               do! _ := w_try (execute ("DROP INDEX IF EXISTS " +:+ quote (st_index_name s))) w_ret (fun _ => w_ret tt) in
               w_try (execute create_sql) w_ret (fun e2 =>
                 failed_with id ("CREATE INDEX CONCURRENTLY failed twice: " +:+ driver_error e2))) in
    do! _ := poll_valid polls timeout s in
    do! _ := pool_get "pool get 2" in
    promote id s.

(** [run_lifecycle_to_active]: the coordinator; it never fails. *)
Definition run_lifecycle_to_active (fuel polls : nat) (timeout id : string) : W unit :=
  w_try (run_backfill fuel default_backfill_config id)
    (fun _ => w_try (run_index_creation polls timeout id) w_ret (fun _ => w_ret tt))
    (fun e => w_try (pool_get "pool get")
                (fun _ => w_try (put_phase id GsiPhase_Failed (Some ("backfill: " +:+ orchestrator_error_to_string e)))
                            w_ret (fun _ => w_ret tt))
                (fun _ => w_ret tt)).

(** ** Removal *)

Definition start_dual_write_removal (id : string) : W unit := put_phase id GsiPhase_RemovingIndex None.

Fixpoint execute_all (sqls : list string) : W unit :=
  match sqls with
  | [] => w_ret tt
  | sql :: rest => do! _ := execute sql in execute_all rest
  end.

Definition remove_columns (id : string) (s : GsiState) : W unit :=
  in_tx (do! _ := lock_table in
         do! row := call (fun _ w => (match find_table (st_table_name s) (gw_tables w) with
                                      | Some r => inr r
                                      | None => inl "query returned an unexpected number of rows"
                                      end, w)) in
         let referenced := refcount_referenced_columns (mr_pk_attr row) (mr_sk_attr row) (mr_lsi_specs row)
                             (mr_gsi_specs row) (st_gsi_name s) in
         let dropped := List.filter (fun c => negb (contains referenced c))
                          (derive_owned_columns (mr_gsi_specs row) (st_gsi_name s)) in
         do! _ := execute_all (map (fun col => "ALTER TABLE " +:+ quote (st_pg_table s) +:+ " DROP COLUMN IF EXISTS "
                                               +:+ quote col) dropped) in
         do! _ := call (fun now w => (inr tt, mkGsiWorld (gw_states w)
                          (where_table (st_table_name s)
                             (fun r => with_gsi_specs (remove_spec (st_gsi_name s) (mr_gsi_specs r)) now "gsi-removal" r)
                             (gw_tables w)) (gw_phys w) (gw_calls w))) in
         put_phase id GsiPhase_Gone None).

Definition run_removal_to_gone (id : string) : W unit :=
  do! _ := pool_get "pool get" in
  do! s := fetch id in
  if bool_decide (st_phase s = GsiPhase_Gone) then w_ret tt
  else if negb (bool_decide (st_phase s = GsiPhase_RemovingIndex)) && negb (bool_decide (st_phase s = GsiPhase_RemovingColumn))
  then w_result (Err (OrchestratorError_MalformedRow id
         ("cannot run removal: phase is `" +:+ phase_as_str (st_phase s) +:+ "`, expected removing_*")))
  else
    do! _ := if bool_decide (st_phase s = GsiPhase_RemovingIndex)
             then w_try (execute ("DROP INDEX CONCURRENTLY IF EXISTS " +:+ quote (st_index_name s)))
                    (fun _ => put_phase id GsiPhase_RemovingColumn None)
                    (fun e => do! _ := put_phase id GsiPhase_Failed
                                         (Some ("DROP INDEX CONCURRENTLY: " +:+ driver_error e)) in
                              w_result (Err (OrchestratorError_CreateIndex
                                ("DROP INDEX CONCURRENTLY failed: " +:+ driver_error e))))
             else w_ret tt in
    do! _ := pool_get "pool get 2" in
    remove_columns id s.

(** ** Drift check *)

Record DriftMismatch : Type := mkDriftMismatch {
  dm_pk_text : string;
  dm_column_value : option string;
  dm_expected_from_jsonb : option string;
  dm_attr : string
}.
Record DriftReport : Type := mkDriftReport { dr_gsi_id : string; dr_sampled : nat; dr_mismatches : list DriftMismatch }.

(** [parse_column_specs] of [verify.rs]. *)
Definition parse_drift_specs : GsiState -> Result OrchestratorError (list ColSpec) :=
  parse_specs_with (fun t => "unknown type `" +:+ t +:+ "`").

Definition drift_step (s : GsiState) (n : nat) (acc : nat * list DriftMismatch) (c : ColSpec) : W (nat * list DriftMismatch) :=
  do! rows := call (fun _ w => (inr (sampled (st_pg_table s) c n (gw_phys w)), w)) in
  w_ret (acc.1 + length rows,
         acc.2 ++ omap (fun r => let '(data, col, expected) := r in
                                 if bool_decide (col = expected) then None
                                 else Some (mkDriftMismatch data col expected (cs_attr c))) rows)%nat.
Fixpoint drift_columns (s : GsiState) (n : nat) (acc : nat * list DriftMismatch) (cols : list ColSpec)
  : W (nat * list DriftMismatch) :=
  match cols with
  | [] => w_ret acc
  | c :: cols' => do! acc := drift_step s n acc c in drift_columns s n acc cols'
  end.

Definition run_drift_check (id : string) (sample_size : nat) : W DriftReport :=
  do! _ := pool_get "pool get" in
  do! s := fetch id in
  if negb (bool_decide (st_phase s = GsiPhase_Active)) && negb (bool_decide (st_phase s = GsiPhase_Degraded))
  then w_ret (mkDriftReport id 0 [])
  else
    do! specs := w_result (parse_drift_specs s) in
    match specs with
    | [] => w_ret (mkDriftReport id 0 [])
    | _ =>
        do! r := drift_columns s sample_size (O, []) specs in
        let '(sampled_total, mismatches) := r in
        do! _ := match mismatches with
                 | _ :: _ =>
                     do! _ := pool_get "pool get" in
                     in_tx (do! _ := put_phase id GsiPhase_Degraded
                                       (Some ("sampled drift check: " +:+ usize_to_string (N.of_nat (length mismatches))
                                              +:+ " mismatches out of " +:+ usize_to_string (N.of_nat sampled_total)
                                              +:+ " samples")) in
                            do! _ := call (fun now w =>
                              match update_serveable (st_table_name s) (st_gsi_name s) false (Some "sampled drift detected")
                                      "gsi-verify" now (gw_tables w) with
                              | inl e => (inl e, w)
                              | inr (n, rows) => (inr tt, mkGsiWorld (gw_states w) rows (gw_phys w) (gw_calls w))
                              end) in
                            w_ret tt)
                 | [] => w_try (set_states (fun now => where_id id (set_verified now))) w_ret (fun _ => w_ret tt)
                 end in
        w_ret (mkDriftReport id sampled_total mismatches)
    end.

(** ** Boot-time resume *)

Inductive Spawned : Type := SpawnLifecycle (gsi_id : string) | SpawnRemoval (gsi_id : string).

Definition resume_phases : list GsiPhase :=
  [GsiPhase_Declared; GsiPhase_AddingColumn; GsiPhase_Backfilling; GsiPhase_Indexing; GsiPhase_RemovingIndex;
   GsiPhase_RemovingColumn].
Definition spawn_for (s : GsiState) : list Spawned :=
  match st_phase s with
  | GsiPhase_Declared | GsiPhase_AddingColumn | GsiPhase_Backfilling | GsiPhase_Indexing => [SpawnLifecycle (st_gsi_id s)]
  | GsiPhase_RemovingIndex | GsiPhase_RemovingColumn => [SpawnRemoval (st_gsi_id s)]
  | _ => []
  end.
Definition boot_resume_in_flight : W (list Spawned) :=
  do! _ := pool_get "pool get" in
  do! r := call (fun _ w => (inr (gw_states w), w)) in
  do! rows := w_result (fetch_states_by_phase resume_phases r) in
  w_ret (concat (map spawn_for rows)).
End workers.
