(* ===== verification/GsiLifecycle.v ===== *)
(** * What the GSI workers guarantee

    For every pattern of failing calls: which phases the coordinators can
    leave a GSI in, that the promotion and the removal change the state
    row and the table's specs together, and that they reach the end when
    nothing fails. *)

From S2P Require Import Prelude RustStr BTree Json Storage Schema Catalog Reconciler.
From S2P Require Import GsiState Backfill GsiWorkers.

(** ** A small program logic *)

Section logic.
Context {Phys : Type} {GS : GsiServer Phys} (env : Faults).
#[local] Notation World := (GsiWorld Phys).

(** [Q] after success, [E] after an error, and no panic. *)
Definition wpg {A} (m : W (Phys := Phys) A) (Q : A -> World -> Prop) (E : World -> Prop) (w : World) : Prop :=
  match m w with
  | (Ok a, w') => Q a w'
  | (Err _, w') => E w'
  | (Panic, _) => False
  end.

Lemma wpg_ret {A} (a : A) Q E w : Q a w -> wpg (w_ret a) Q E w.
Proof. done. Qed.

Lemma wpg_err {A} e (Q : A -> World -> Prop) (E : World -> Prop) w : E w -> wpg (w_result (Err e)) Q E w.
Proof. done. Qed.

Lemma wpg_bind {A B} (m : W A) (f : A -> W B) Q E w :
  wpg m (fun a w' => wpg (f a) Q E w') E w -> wpg (w_bind m f) Q E w.
Proof. unfold wpg, w_bind. destruct (m w) as [[a|e|] w']; simpl; auto. Qed.

Lemma wpg_try {A B} (m : W A) (ok : A -> W B) (err : OrchestratorError -> W B) Q E w :
  wpg m (fun a w' => wpg (ok a) Q E w') (fun w' => forall e, wpg (err e) Q E w') w -> wpg (w_try m ok err) Q E w.
Proof. unfold wpg, w_try. destruct (m w) as [[a|e|] w']; simpl; auto. intros HE. apply HE. Qed.

Lemma wpg_mono {A} (m : W A) (Q Q' : A -> World -> Prop) (E E' : World -> Prop) w :
  wpg m Q E w -> (forall a w', Q a w' -> Q' a w') -> (forall w', E w' -> E' w') -> wpg m Q' E' w.
Proof. unfold wpg. destruct (m w) as [[a|e|] w']; auto. Qed.

Lemma wpg_pool what Q E w : (forall w', w' = tick w -> Q tt w' /\ E w') -> wpg (pool_get env what) Q E w.
Proof. intros HH. destruct (HH _ eq_refl). unfold wpg, pool_get. by destruct (fault env (gw_calls w)). Qed.

Lemma wpg_call {A} (f : Z -> World -> (string + A) * World) Q E w :
  E (tick w) -> (forall now, match f now w with (inl _, _) => E (tick w) | (inr a, w') => Q a (tick w') end) ->
  wpg (call env f) Q E w.
Proof.
  intros HE HQ. unfold wpg, call. destruct (fault env (gw_calls w)); [done|].
  specialize (HQ (clock env (gw_calls w))). by destruct (f _ w) as [[e|a] w'].
Qed.

Lemma wpg_autocommit done_ failed Q (E : World -> Prop) w :
  (forall now, Q tt (tick (done_ now w))) -> (forall now, E (tick (done_ now w)) /\ E (tick (failed now w))) ->
  wpg (autocommit env done_ failed) Q E w.
Proof.
  intros HQ HE. unfold wpg, autocommit. destruct (fault env (gw_calls w)); [|apply HQ].
  destruct (HE (clock env (gw_calls w))). by destruct (applied env (gw_calls w)).
Qed.

(** The rows and the database as before the transaction. *)
Definition restore (w0 w1 : World) (n : nat) : World := mkGsiWorld (gw_states w0) (gw_tables w0) (gw_phys w0) n.

Lemma wpg_in_tx {A} (body : W A) Q (E : World -> Prop) w :
  (forall n, E (restore w w n)) ->
  wpg body (fun a w1 => Q a (tick w1) /\ E (tick w1)) (fun _ => True) (tick w) ->
  wpg (in_tx env body) Q E w.
Proof.
  intros HE HB. unfold wpg, in_tx, call in *. destruct (fault env (gw_calls w)).
  { apply HE. }
  destruct (body (tick w)) as [[a|e|] w1]; [|apply HE|done]. destruct HB as [HQ HB].
  destruct (fault env (gw_calls w1)); [|done]. destruct (applied env (gw_calls w1)); [done|]. apply HE.
Qed.
End logic.

(** The backfill of a table ends: each chunk that touches a row leaves
    fewer rows to touch. *)
Class BackfillEnds (Phys : Type) `{GsiServer Phys} : Type := {
  pending : string -> list ColSpec -> option (list string) -> Phys -> nat;
  chunk_progress t cols prev n p c prev' p' :
    (0 < n)%nat -> backfill_chunk t cols prev n p = (c, prev', p') -> c <> O ->
    (pending t cols prev' p' < pending t cols prev p)%nat
}.

(** ** The create path *)

Section lifecycle.
Context {Phys : Type} {GS : GsiServer Phys} {BE : BackfillEnds Phys} (env : Faults).
#[local] Notation World := (GsiWorld Phys).
Variables (id : string) (w0 : World) (r : GsiRow).

(** The row of the GSI in phase [p], every other row and the tables as at
    the start. *)
Record mid (p : GsiPhase) (w : World) (r' : GsiRow) : Prop := {
  mid_find : find_row id (gw_states w) = Some r';
  mid_phase : gr_phase r' = phase_as_str p;
  mid_table : gr_table_name r' = gr_table_name r;
  mid_name : gr_gsi_name r' = gr_gsi_name r;
  mid_pg : gr_pg_table r' = gr_pg_table r;
  mid_cols : gr_column_specs r' = gr_column_specs r;
  mid_index : gr_index_name r' = gr_index_name r;
  mid_others : forall i, i <> id -> find_row i (gw_states w) = find_row i (gw_states w0);
  mid_tables : gw_tables w = gw_tables w0
}.
Definition in_phase (p : GsiPhase) (w : World) : Prop := exists r', mid p w r'.

Lemma mid_congr p w w' r' : gw_states w' = gw_states w -> gw_tables w' = gw_tables w -> mid p w r' -> mid p w' r'.
Proof. intros E1 E2 []. by constructor; rewrite ?E1, ?E2. Qed.

Lemma in_phase_congr p w w' : gw_states w' = gw_states w -> gw_tables w' = gw_tables w -> in_phase p w -> in_phase p w'.
Proof. intros E1 E2 [r' Hr]. exists r'. by eapply mid_congr. Qed.

Lemma find_row_id i rows x : find_row i rows = Some x -> gr_gsi_id x = i.
Proof. unfold find_row. intros [_ E%String.eqb_eq]%find_some. done. Qed.

Lemma wpg_put_phase p p' e (Q : unit -> World -> Prop) (E : World -> Prop) w :
  in_phase p w -> (forall w', in_phase p' w' -> gw_phys w' = gw_phys w -> Q tt w') ->
  (forall w', in_phase p w' -> E w') -> (forall w', in_phase p' w' -> E w') ->
  wpg (put_phase env id p' e) Q E w.
Proof.
  intros [r' Hr] HQ HE HE'.
  assert (Hn : forall now, in_phase p' (tick (with_states (update_phase id p' e now (gw_states w)) w))).
  { intros now. exists (set_phase p' e now r'). destruct Hr. constructor; try done.
    - cbn [gw_states tick with_states]. by rewrite find_update_phase, mid_find0.
    - intros i Hi. cbn [gw_states tick with_states]. unfold update_phase.
      rewrite find_where_other by done. by apply mid_others0. }
  apply wpg_autocommit; intros now; [by apply HQ|]. split; [by apply HE'|].
  apply HE. exists r'. by eapply mid_congr; [..|exact Hr].
Qed.

Lemma wpg_fetch p (Q : GsiState -> World -> Prop) (E : World -> Prop) w r' :
  mid p w r' -> (forall s w', row_to_state r' = Ok s -> st_phase s = p -> mid p w' r' -> gw_phys w' = gw_phys w -> Q s w') ->
  (forall w', in_phase p w' -> E w') -> wpg (fetch env id) Q E w.
Proof.
  intros Hr HQ HE. assert (Hm : mid p (tick w) r') by (by eapply mid_congr; [..|exact Hr]).
  unfold fetch. apply wpg_bind, wpg_call; [by apply HE; exists r'|]. intros _.
  unfold fetch_state. rewrite (mid_find _ _ _ Hr). unfold wpg, w_bind, w_result, row_to_state.
  rewrite (mid_phase _ _ _ Hr), parse_phase_str. cbn. apply HQ; [|done..].
  unfold row_to_state. by rewrite (mid_phase _ _ _ Hr), parse_phase_str.
Qed.

Lemma wpg_same {A} p (f : Z -> World -> (string + A) * World) (Q : A -> World -> Prop) (E : World -> Prop) w r' :
  mid p w r' -> (forall now, gw_states (f now w).2 = gw_states w /\ gw_tables (f now w).2 = gw_tables w) ->
  (forall w', in_phase p w' -> E w') ->
  (forall now a w', (f now w).1 = inr a -> gw_phys w' = gw_phys (f now w).2 -> mid p w' r' -> Q a w') ->
  wpg (call env f) Q E w.
Proof.
  intros Hr Hf HE HQ. apply wpg_call.
  - apply HE. exists r'. by eapply mid_congr; [..|exact Hr].
  - intros now. specialize (Hf now). specialize (HQ now). destruct (f now w) as [[e|a] w'] eqn:Ef; cbn in *.
    + apply HE. exists r'. by eapply mid_congr; [..|exact Hr].
    + apply HQ; [done..|]. destruct Hf. eapply mid_congr; [..|exact Hr]; done.
Qed.

Lemma row_to_state_fields r' s : row_to_state r' = Ok s ->
  st_gsi_id s = gr_gsi_id r' /\ st_pg_table s = gr_pg_table r' /\ st_table_name s = gr_table_name r'
  /\ st_gsi_name s = gr_gsi_name r' /\ st_index_name s = gr_index_name r' /\ st_column_specs s = gr_column_specs r'
  /\ st_last_pk_copied s = gr_last_pk_copied r'.
Proof. unfold row_to_state. destruct (parse_phase _); simpl; [|done]. intros [= <-]. done. Qed.

(** ** The backfill loop *)

Lemma wpg_backfill_chunks p n fuel : forall s cols prev w,
  (0 < n)%nat -> st_gsi_id s = id -> in_phase p w -> (pending (st_pg_table s) cols prev (gw_phys w) < fuel)%nat ->
  wpg (backfill_chunks env fuel s cols prev n) (fun _ w' => in_phase p w') (in_phase p) w.
Proof.
  induction fuel as [|fuel IH]; intros s cols prev w Hn Hid [r' Hr] Hf; [lia|]. cbn [backfill_chunks].
  destruct cols as [|c0 cols']; [by exists r'|]. set (cols := c0 :: cols') in *.
  apply wpg_bind, wpg_pool. intros w1 ->. assert (Hr1 : mid p (tick w) r') by (by eapply mid_congr; [..|exact Hr]).
  split; [|by exists r']. apply wpg_bind. eapply wpg_same; [exact Hr1|done|done|].
  intros _ pk w2 _ Hphys Hr2. cbn in Hphys. destruct pk as [|k pk]; [by exists r'|].
  apply wpg_bind, wpg_in_tx.
  { intros m. exists r'. by eapply mid_congr; [..|exact Hr2]. }
  set (w3 := tick w2). assert (Hr3 : mid p w3 r') by (by eapply mid_congr; [..|exact Hr2]).
  apply wpg_bind, wpg_call; [done|]. intros now.
  destruct (backfill_chunk _ _ _ _ (gw_phys w3)) as [[c prev'] phys'] eqn:Hchunk.
  assert (Hp3 : gw_phys w3 = gw_phys w) by done. rewrite Hp3 in Hchunk.
  apply wpg_bind. cbn [fst snd]. destruct (Nat.eqb_spec c 0) as [->|Hc].
  - apply wpg_ret, wpg_ret. cbn. assert (in_phase p (mkGsiWorld (gw_states w2) (gw_tables w2) phys' 0)) as Hin.
    { exists r'. by eapply mid_congr; [..|exact Hr2]. }
    split; by eapply in_phase_congr; [..|exact Hin].
  - set (w4 := tick (mkGsiWorld _ _ phys' _)).
    assert (Hnext : forall w', in_phase p w' -> gw_phys w' = phys' ->
      wpg (if Nat.eqb c 0 then w_ret tt else backfill_chunks env fuel s cols prev' n)
         (fun _ w' => in_phase p w') (in_phase p) w').
    { intros w' Hin Hph. destruct (Nat.eqb_spec c 0); [done|]. apply IH; [done|done|done|]. rewrite Hph.
      pose proof (chunk_progress _ _ _ _ _ _ _ _ Hn Hchunk Hc). lia. }
    destruct prev' as [texts|].
    + apply wpg_autocommit; [|done]. intros now'. apply wpg_ret. cbn [fst snd].
      assert (Hin : in_phase p (mkGsiWorld (where_id (st_gsi_id s) (set_cursor (texts_value texts) now') (gw_states w2))
                (gw_tables w2) phys' 0)).
      { exists (set_cursor (texts_value texts) now' r'). destruct Hr2. constructor; try done.
        - cbn [gw_states]. rewrite Hid, find_where_id by done. by rewrite mid_find0.
        - intros i Hi. cbn [gw_states]. rewrite Hid, find_where_other by done. by apply mid_others0. }
      split; [|by eapply in_phase_congr; [..|exact Hin]].
      apply Hnext; [|done]. by eapply in_phase_congr; [..|exact Hin].
    + apply wpg_ret, wpg_ret. cbn [fst snd].
      assert (Hin : in_phase p (mkGsiWorld (gw_states w2) (gw_tables w2) phys' 0)).
      { exists r'. by eapply mid_congr; [..|exact Hr2]. }
      split; [|by eapply in_phase_congr; [..|exact Hin]]. apply Hnext; [|done]. by eapply in_phase_congr; [..|exact Hin].
Qed.

(** ** Polling and promotion *)

Definition valid_index (w : World) : Prop := index_valid (gr_index_name r) (gw_phys w) = Some true.

Lemma wpg_failed {A} p msg (Q : A -> World -> Prop) (E : World -> Prop) w :
  in_phase p w -> (forall w', in_phase p w' -> E w') -> (forall w', in_phase GsiPhase_Failed w' -> E w') ->
  wpg (failed_with env id msg) Q E w.
Proof.
  intros Hp HE HF. unfold failed_with. apply wpg_bind. eapply wpg_put_phase; [exact Hp| |exact HE|exact HF].
  intros w' Hw' _. by apply wpg_err, HF.
Qed.

Lemma wpg_poll polls timeout s : forall w,
  in_phase GsiPhase_Indexing w -> st_gsi_id s = id -> st_index_name s = gr_index_name r ->
  wpg (poll_valid env polls timeout s) (fun _ w' => in_phase GsiPhase_Indexing w' /\ valid_index w')
     (fun w' => in_phase GsiPhase_Indexing w' \/ in_phase GsiPhase_Failed w') w.
Proof.
  induction polls as [|polls IH]; intros w [r' Hr] Hid Hidx; cbn [poll_valid]; apply wpg_bind;
    (eapply wpg_same; [exact Hr|done|by auto|]); intros _ [b|] w' Hb Hph Hr'; cbn in Hb, Hph; injection Hb as Hb;
    rewrite ?Hid.
  2, 4: eapply wpg_failed; [by exists r'|by auto..].
  all: destruct b.
  1, 3: apply wpg_ret; split; [by exists r'|unfold valid_index; by rewrite Hph, <- Hidx].
  - eapply wpg_failed; [by exists r'|by auto..].
  - apply IH; [by exists r'|done|done].
Qed.

Record promoted (w : World) : Prop := {
  pr_row : exists r', find_row id (gw_states w) = Some r' /\ gr_phase r' = "active" /\ gr_error r' = None
                      /\ is_Some (gr_activated_at_ms r');
  pr_tables : exists t specs now, find_table (gr_table_name r) (gw_tables w0) = Some t
    /\ set_serveable (gr_gsi_name r) true None (mr_gsi_specs t) = Some specs
    /\ gw_tables w = where_table (gr_table_name r) (with_gsi_specs specs now "gsi-orchestrator") (gw_tables w0);
  pr_index : valid_index w;
  pr_others : forall i, i <> id -> find_row i (gw_states w) = find_row i (gw_states w0)
}.

Lemma wpg_promote s w :
  in_phase GsiPhase_Indexing w -> valid_index w ->
  st_table_name s = gr_table_name r -> st_gsi_name s = gr_gsi_name r ->
  wpg (promote env id s) (fun _ w' => promoted w')
     (fun w' => in_phase GsiPhase_Indexing w' \/ promoted w') w.
Proof.
  intros [r' Hr] Hv Et En. unfold promote. apply wpg_in_tx.
  { intros n. left. exists r'. by eapply mid_congr; [..|exact Hr]. }
  apply wpg_bind, wpg_call; [done|]. intros _. apply wpg_bind, wpg_autocommit; [|done]. intros now1.
  unfold flip_gsi_serveable. rewrite Et, En. apply wpg_bind, wpg_call; [done|]. intros now.
  cbn [gw_tables tick with_states]. rewrite (mid_tables _ _ _ Hr). unfold update_serveable.
  destruct (find_table _ _) as [t|] eqn:Ht; [|by apply wpg_err].
  destruct (set_serveable _ _ _ _) as [specs|] eqn:Hs; [|done].
  apply wpg_ret. assert (Hp : forall n, promoted (mkGsiWorld (update_phase id GsiPhase_Active None now1 (gw_states w))
    (where_table (gr_table_name r) (with_gsi_specs specs now "gsi-orchestrator") (gw_tables w0)) (gw_phys w) n)).
  { intros n. constructor; [| |done|].
    - exists (set_phase GsiPhase_Active None now1 r'). cbn [gw_states]. by rewrite find_update_phase, (mid_find _ _ _ Hr).
    - by exists t, specs, now.
    - intros i Hi. cbn [gw_states]. unfold update_phase. rewrite find_where_other by done. by apply (mid_others _ _ _ Hr). }
  split; [|right]; apply Hp.
Qed.

(** Statements that touch neither the state rows nor the tables. *)
Lemma wpg_execute p sql (Q : unit -> World -> Prop) (E : World -> Prop) w :
  in_phase p w -> (forall w', in_phase p w' -> Q tt w') -> (forall w', in_phase p w' -> E w') ->
  wpg (execute env sql) Q E w.
Proof.
  intros [r' Hr] HQ HE. apply wpg_autocommit; intros now; [apply HQ|split; apply HE];
    exists r'; by eapply mid_congr; [..|exact Hr].
Qed.

(** Where the coordinator can stop. *)
Definition stopped (w : World) : Prop :=
  in_phase GsiPhase_Backfilling w \/ in_phase GsiPhase_Indexing w \/ in_phase GsiPhase_Failed w \/ promoted w.

Lemma wpg_index_creation polls timeout p w :
  in_phase p w -> p = GsiPhase_Backfilling \/ p = GsiPhase_Indexing ->
  wpg (run_index_creation env polls timeout id) (fun _ w' => promoted w') stopped w.
Proof.
  intros [r' Hr] Hp. unfold run_index_creation, stopped.
  assert (Hstop : forall w', in_phase p w' -> stopped w') by (unfold stopped; destruct Hp as [->| ->]; auto).
  apply wpg_bind, wpg_pool. intros w1 ->. assert (Hr1 : mid p (tick w) r') by (by eapply mid_congr; [..|exact Hr]).
  split; [|apply Hstop; by exists r']. apply wpg_bind. eapply wpg_fetch; [exact Hr1| |exact Hstop].
  intros s w2 Hs Hphase Hr2 _.
  destruct (row_to_state_fields r' s Hs) as (Eid & Epg & Et & En & Ei & Ec & _).
  rewrite (find_row_id _ _ _ (mid_find _ _ _ Hr2)) in Eid. rewrite (mid_table _ _ _ Hr2) in Et.
  rewrite (mid_name _ _ _ Hr2) in En. rewrite (mid_index _ _ _ Hr2) in Ei.
  rewrite Hphase, bool_decide_false by (by destruct Hp as [->| ->]).
  replace (negb _ && negb _) with false by (by destruct Hp as [->| ->]).
  apply wpg_bind. eapply (wpg_mono _ (fun _ w' => in_phase GsiPhase_Indexing w') _ stopped).
  { destruct Hp as [->| ->]; simpl.
    - eapply wpg_put_phase; [by exists r'|by auto|exact Hstop|unfold stopped; by auto].
    - apply wpg_ret. by exists r'. }
  2: done.
  intros _ w3 Hin. apply wpg_bind. destruct (parse_index_cols s) as [cols|e|] eqn:Hcols.
  2: { right. by left. }
  2: { exfalso. revert Hcols. unfold parse_index_cols. destruct (as_array _); simpl; [|done].
       apply collect_no_panic. intros v _. unfold parse_index_col. by destruct (str_field v "col"). }
  cbn [w_result wpg]. apply wpg_bind.
  eapply (wpg_mono _ (fun _ w' => in_phase GsiPhase_Indexing w') _ stopped); [| |done].
  - apply wpg_try. eapply wpg_execute; [exact Hin|by intros; apply wpg_ret|].
    intros w4 H4 _. apply wpg_bind, wpg_try.
    assert (Hagain : forall w', in_phase GsiPhase_Indexing w' ->
      wpg (w_try (execute env (create_index_sql s cols)) w_ret (fun e2 =>
            failed_with env id ("CREATE INDEX CONCURRENTLY failed twice: " +:+ driver_error e2)))
         (fun _ w' => in_phase GsiPhase_Indexing w') stopped w').
    { intros w' Hw'. apply wpg_try. eapply wpg_execute; [exact Hw'|by intros; apply wpg_ret|].
      intros w5 H5 e. eapply wpg_failed; [exact H5|unfold stopped; by auto..]. }
    eapply wpg_execute; [exact H4| |]; intros w5 H5; [apply wpg_ret|intros e; apply wpg_ret]; by apply Hagain.
  - intros _ w4 H4. apply wpg_bind. eapply wpg_mono; [by apply (wpg_poll polls timeout s)| |unfold stopped; naive_solver].
    intros _ w5 [H5 Hv]. apply wpg_bind, wpg_pool. intros w6 ->.
    assert (H6 : in_phase GsiPhase_Indexing (tick w5)) by (by eapply in_phase_congr; [..|exact H5]).
    split; [|right; by left]. eapply wpg_mono; [by apply (wpg_promote s)|done|unfold stopped; naive_solver].
Qed.

Lemma wpg_run_backfill fuel p w :
  in_phase p w -> (forall cols prev, pending (gr_pg_table r) cols prev (gw_phys w) < fuel)%nat ->
  wpg (run_backfill env fuel default_backfill_config id) (fun _ w' => in_phase p w') (in_phase p) w.
Proof.
  intros [r' Hr] Hf. unfold run_backfill.
  apply wpg_bind, wpg_pool. intros w1 ->. assert (Hr1 : mid p (tick w) r') by (by eapply mid_congr; [..|exact Hr]).
  split; [|by exists r']. apply wpg_bind. eapply wpg_fetch; [exact Hr1| |done].
  intros s w2 Hs Hphase Hr2 Hph. destruct (row_to_state_fields r' s Hs) as (Eid & Epg & _).
  rewrite (find_row_id _ _ _ (mid_find _ _ _ Hr2)) in Eid. rewrite (mid_pg _ _ _ Hr2) in Epg.
  destruct (negb _); [by exists r'|]. apply wpg_bind. eapply wpg_same; [exact Hr2|done|done|].
  intros _ composite w3 _ Hph3 Hr3. cbn in Hph3. apply wpg_bind.
  destruct (parse_column_specs s) as [cols|e|] eqn:Hcols; [|by exists r'|].
  - cbn [w_result wpg]. apply wpg_backfill_chunks; [cbn; lia|done|by exists r'|]. rewrite Hph3, Hph, Epg. apply Hf.
  - exfalso. revert Hcols. unfold parse_column_specs, parse_specs_with. destruct (as_array _); simpl; [|done].
    apply collect_no_panic. intros v _. unfold parse_column_spec. destruct (as_object v); simpl; [|done].
    destruct (opt_str _ "col"); simpl; [|done]. destruct (opt_str _ "attr"); simpl; [|done].
    destruct (opt_str _ "type") as [t|]; simpl; [|done]. by repeat destruct (String.eqb t _).
Qed.

Lemma wpg_lifecycle fuel polls timeout p w :
  in_phase p w -> p = GsiPhase_Backfilling \/ p = GsiPhase_Indexing ->
  (forall cols prev, pending (gr_pg_table r) cols prev (gw_phys w) < fuel)%nat ->
  wpg (run_lifecycle_to_active env fuel polls timeout id) (fun _ w' => stopped w') (fun _ => False) w.
Proof.
  intros Hin Hp Hf. assert (Hstop : forall w', in_phase p w' -> stopped w') by (unfold stopped; destruct Hp as [->| ->]; auto).
  unfold run_lifecycle_to_active. apply wpg_try. eapply wpg_mono; [by apply wpg_run_backfill| |].
  - intros [] w1 H1. apply wpg_try. eapply wpg_mono; [by eapply wpg_index_creation| |].
    + intros [] w2 H2. apply wpg_ret. by right; right; right.
    + intros w2 H2 e. by apply wpg_ret.
  - intros w1 H1 e. apply wpg_try, wpg_pool. intros w2 ->.
    assert (H2 : in_phase p (tick w1)) by (by eapply in_phase_congr; [..|exact H1]). split.
    + apply wpg_try. eapply wpg_put_phase; [exact H2| | |].
      * intros w3 H3 _. apply wpg_ret. by right; right; left.
      * intros w3 H3 e'. by apply wpg_ret, Hstop.
      * intros w3 H3 e'. apply wpg_ret. by right; right; left.
    + intros e'. by apply wpg_ret, Hstop.
Qed.
End lifecycle.

(** C5: whatever calls fail, the coordinator of a GSI that is backfilling
    or indexing ends, without a panic, with the GSI in one of four states:
    still backfilling, still indexing, failed, or active. The table's specs
    change only together with the phase becoming active, and then the index
    is valid and exactly this GSI's spec is made serveable; the rows of
    other GSIs never change. *)
Theorem lifecycle_outcome {Phys} {GS : GsiServer Phys} {BE : BackfillEnds Phys} env id (w : GsiWorld Phys) r fuel polls timeout :
  find_row id (gw_states w) = Some r -> gr_phase r = "backfilling" \/ gr_phase r = "indexing" ->
  (forall cols prev, pending (gr_pg_table r) cols prev (gw_phys w) < fuel)%nat ->
  exists w', run_lifecycle_to_active env fuel polls timeout id w = (Ok tt, w') /\ stopped id w r w'.
Proof.
  intros Hfind Hphase Hf.
  assert (exists p, in_phase id w r p w /\ (p = GsiPhase_Backfilling \/ p = GsiPhase_Indexing)) as (p & Hin & Hp).
  { destruct Hphase as [Hph|Hph]; [exists GsiPhase_Backfilling|exists GsiPhase_Indexing];
      (split; [exists r; by constructor|by auto]). }
  pose proof (wpg_lifecycle env id w r fuel polls timeout p w Hin Hp Hf) as Hwp. unfold wpg in Hwp.
  destruct (run_lifecycle_to_active env fuel polls timeout id w) as [[[]|e|] w']; [|done|done]. by exists w'.
Qed.

(** ** When nothing fails *)

Section quiet.
Context {Phys : Type} {GS : GsiServer Phys} {BE : BackfillEnds Phys} (env : Faults).
Hypothesis (Hquiet : forall n, fault env n = None).
#[local] Notation World := (GsiWorld Phys).
#[local] Notation never := (fun _ : World => False).

Lemma quiet_call {A} (f : Z -> World -> (string + A) * World) (Q : A -> World -> Prop) w :
  (forall now, match f now w with (inl _, _) => False | (inr a, w') => Q a (tick w') end) -> wpg (call env f) Q never w.
Proof.
  intros HQ. unfold wpg, call. rewrite Hquiet. specialize (HQ (clock env (gw_calls w))).
  by destruct (f _ w) as [[e|a] w'].
Qed.

Lemma quiet_pool what (Q : unit -> World -> Prop) w : Q tt (tick w) -> wpg (pool_get env what) Q never w.
Proof. intros HQ. unfold wpg, pool_get. by rewrite Hquiet. Qed.

Lemma quiet_in_tx {A} (body : W A) (Q : A -> World -> Prop) w :
  wpg body (fun a w1 => Q a (tick w1)) never (tick w) -> wpg (in_tx env body) Q never w.
Proof.
  intros HB. unfold wpg, in_tx, call in *. rewrite Hquiet. destruct (body (tick w)) as [[a|e|] w1]; [|done..].
  by rewrite Hquiet.
Qed.

Variables (id : string) (w0 : World) (r : GsiRow).
#[local] Notation mid := (mid id w0 r).
#[local] Notation in_phase := (in_phase id w0 r).

Lemma quiet_put_phase p p' e (Q : unit -> World -> Prop) w :
  in_phase p w -> (forall w', in_phase p' w' -> gw_phys w' = gw_phys w -> Q tt w') -> wpg (put_phase env id p' e) Q never w.
Proof.
  intros Hp HQ. pose proof (wpg_put_phase env id w0 r p p' e Q (fun _ => True) w Hp HQ (fun _ _ => I) (fun _ _ => I)) as Hw.
  unfold wpg, put_phase, set_states, autocommit in *. by rewrite Hquiet in *.
Qed.

Lemma quiet_fetch p (Q : GsiState -> World -> Prop) w r' :
  mid p w r' -> (forall s w', row_to_state r' = Ok s -> st_phase s = p -> mid p w' r' -> gw_phys w' = gw_phys w -> Q s w') ->
  wpg (fetch env id) Q never w.
Proof.
  intros Hr HQ. pose proof (wpg_fetch env id w0 r p Q (fun _ => True) w r' Hr HQ (fun _ _ => I)) as Hw.
  unfold wpg, fetch, w_bind, call, w_result, fetch_state in *. rewrite Hquiet in *.
  rewrite (mid_find _ _ _ _ _ _ Hr) in *. unfold row_to_state in *.
  rewrite (mid_phase _ _ _ _ _ _ Hr), parse_phase_str in *. done.
Qed.

Lemma quiet_backfill_chunks p n fuel : forall s cols prev w,
  (0 < n)%nat -> st_gsi_id s = id -> (forall ph, pk_columns (st_pg_table s) ph <> []) ->
  in_phase p w -> (pending (st_pg_table s) cols prev (gw_phys w) < fuel)%nat ->
  wpg (backfill_chunks env fuel s cols prev n) (fun _ w' => in_phase p w') never w.
Proof.
  intros s cols prev w Hn Hid Hpk Hin Hf.
  pose proof (wpg_backfill_chunks env id w0 r p n fuel s cols prev w Hn Hid Hin Hf) as Hw.
  unfold wpg in *. destruct (backfill_chunks env fuel s cols prev n w) as [[a|e|] w'] eqn:E; [done| |done]. clear Hw Hin Hf.
  revert cols prev w E. induction fuel as [|fuel IH]; intros cols prev w; cbn [backfill_chunks]; [done|].
  destruct cols as [|c0 cols']; [done|]. unfold w_bind at 1, pool_get. rewrite Hquiet.
  unfold w_bind at 1, call at 1. rewrite Hquiet. cbn [gw_phys tick].
  destruct (pk_columns (st_pg_table s) (gw_phys w)) as [|k pk] eqn:Epk; [by destruct (Hpk (gw_phys w))|].
  unfold w_bind at 1, in_tx, call at 1. rewrite Hquiet. unfold w_bind at 1, call at 1. rewrite Hquiet.
  cbn [gw_phys tick gw_states gw_tables gw_calls].
  destruct (backfill_chunk _ _ _ _ (gw_phys w)) as [[c prev'] phys']. unfold w_bind. cbn [fst snd].
  destruct (Nat.eqb c 0) eqn:Ec.
  - cbn. rewrite Hquiet. cbn. by rewrite Ec.
  - destruct prev' as [texts|]; unfold set_states, autocommit, w_ret; rewrite ?Hquiet; cbn; rewrite ?Hquiet, ?Ec; apply IH.
Qed.

(** The specs the orchestrator wrote parse back. *)
Lemma column_specs_parse s gsi :
  st_column_specs s = column_specs_json gsi ->
  is_ok (parse_column_specs s) = true /\ is_ok (parse_index_cols s) = true.
Proof.
  intros E. unfold parse_column_specs, parse_specs_with, parse_index_cols. rewrite E. unfold column_specs_json, column_spec_json.
  destruct (gs_sort_pg_col gsi), (gs_sort_type gsi) as [[]|], (gs_sort_attr gsi), (gs_partition_type gsi); by vm_compute.
Qed.

Lemma is_ok_Ok {E A} (x : Result E A) : is_ok x = true -> exists a, x = Ok a.
Proof. destruct x; [by eauto|done|done]. Qed.

Section progress.
Variables (gsi : GsiSpec) (t : MetadataRow) (g : GsiSpec) (gs : list GsiSpec).
Hypothesis (Hspecs : gr_column_specs r = column_specs_json gsi).
Hypothesis (Htable : find_table (gr_table_name r) (gw_tables w0) = Some t).
Hypothesis (Hgsis : mr_gsi_specs t = gsi_specs_to_json (g :: gs)).
Hypothesis (Hpk : forall ph, pk_columns (gr_pg_table r) ph <> []).
Hypothesis (Hvalid : forall sql n ph, index_valid (gr_index_name r) (elapse n (ddl sql ph)) = Some true).

Lemma quiet_backfill fuel p w :
  in_phase p w -> (forall cols prev, pending (gr_pg_table r) cols prev (gw_phys w) < fuel)%nat ->
  wpg (run_backfill env fuel default_backfill_config id) (fun _ w' => in_phase p w') never w.
Proof.
  intros [r' Hr] Hf. unfold run_backfill. apply wpg_bind, quiet_pool.
  assert (Hr1 : mid p (tick w) r') by (by eapply mid_congr; [..|exact Hr]).
  apply wpg_bind. eapply quiet_fetch; [exact Hr1|]. intros s w2 Hs Hphase Hr2 Hph.
  destruct (row_to_state_fields r' s Hs) as (Eid & Epg & _ & _ & _ & Ec & _).
  rewrite (find_row_id _ _ _ (mid_find _ _ _ _ _ _ Hr2)) in Eid. rewrite (mid_pg _ _ _ _ _ _ Hr2) in Epg.
  rewrite (mid_cols _ _ _ _ _ _ Hr2), Hspecs in Ec.
  destruct (negb _); [by exists r'|]. apply wpg_bind, quiet_call. intros _. apply wpg_bind.
  destruct (is_ok_Ok _ (proj1 (column_specs_parse s gsi Ec))) as [cols ->]. cbn [w_result wpg].
  apply quiet_backfill_chunks; [cbn; lia|done|by rewrite Epg| |cbn [gw_phys tick]; rewrite Hph, Epg; apply Hf].
  exists r'. by eapply mid_congr; [..|exact Hr2].
Qed.

Lemma quiet_index_creation polls timeout w :
  in_phase GsiPhase_Backfilling w -> wpg (run_index_creation env polls timeout id) (fun _ w' => promoted id w0 r w') never w.
Proof.
  intros [r' Hr]. unfold run_index_creation. apply wpg_bind, quiet_pool.
  assert (Hr1 : mid GsiPhase_Backfilling (tick w) r') by (by eapply mid_congr; [..|exact Hr]).
  apply wpg_bind. eapply quiet_fetch; [exact Hr1|]. intros s w2 Hs Hphase Hr2 _.
  destruct (row_to_state_fields r' s Hs) as (Eid & Epg & Et & En & Ei & Ec & _).
  rewrite (find_row_id _ _ _ (mid_find _ _ _ _ _ _ Hr2)) in Eid. rewrite (mid_table _ _ _ _ _ _ Hr2) in Et.
  rewrite (mid_name _ _ _ _ _ _ Hr2) in En. rewrite (mid_index _ _ _ _ _ _ Hr2) in Ei.
  rewrite (mid_cols _ _ _ _ _ _ Hr2), Hspecs in Ec. rewrite Hphase. cbn [negb bool_decide decide_rel].
  rewrite !bool_decide_false by done. cbn [negb andb]. rewrite bool_decide_true by done. cbn [negb andb].
  apply wpg_bind. eapply quiet_put_phase; [by exists r'|]. intros w3 [r3 H3] _.
  apply wpg_bind. destruct (is_ok_Ok _ (proj2 (column_specs_parse s gsi Ec))) as [cols ->]. cbn [w_result wpg].
  apply wpg_bind, wpg_try. unfold execute. unfold wpg at 1, autocommit. rewrite Hquiet. apply wpg_ret.
  set (w4 := tick _). assert (H4 : in_phase GsiPhase_Indexing w4) by (exists r3; by eapply mid_congr; [..|exact H3]).
  assert (Hv : index_valid (st_index_name s) (elapse (gw_calls w4) (gw_phys w4)) = Some true) by (rewrite Ei; apply Hvalid).
  clearbody w4. set (w5 := with_phys (elapse (gw_calls w4) (gw_phys w4)) w4).
  assert (H5 : in_phase GsiPhase_Indexing w5) by (by eapply in_phase_congr; [..|exact H4]).
  apply wpg_bind. destruct polls as [|polls]; cbn [poll_valid]; apply wpg_bind, quiet_call; intros _; cbv zeta; rewrite Hv;
    apply wpg_ret, wpg_bind, quiet_pool; fold w5.
  all: clear H4; rename H5 into H4.
  all: pose proof (wpg_promote env id w0 r s (tick (tick w5)) (in_phase_congr id w0 r _ w5 (tick (tick w5)) eq_refl eq_refl H4)
         ltac:(unfold valid_index; cbn; by rewrite <- Ei) Et En) as Hp.
  all: unfold wpg in *; destruct (promote env id s (tick (tick w5))) as [[[]|e|] w'] eqn:E; [done| |done]; exfalso.
  all: revert E; unfold promote, in_tx, call, w_bind, lock_table, put_phase, set_states, autocommit, flip_gsi_serveable, call, w_bind;
    rewrite !Hquiet; cbn [gw_tables tick with_states]; destruct H4 as [r4 H4]; rewrite (mid_tables _ _ _ _ _ _ H4), Et;
    unfold update_serveable; rewrite Htable, Hgsis; cbn; by rewrite Hquiet.
Qed.

Lemma quiet_lifecycle fuel polls timeout w :
  in_phase GsiPhase_Backfilling w -> (forall cols prev, pending (gr_pg_table r) cols prev (gw_phys w) < fuel)%nat ->
  wpg (run_lifecycle_to_active env fuel polls timeout id) (fun _ w' => promoted id w0 r w') never w.
Proof.
  intros Hin Hf. unfold run_lifecycle_to_active. apply wpg_try.
  eapply wpg_mono; [by apply quiet_backfill| |done]. intros [] w1 H1. apply wpg_try.
  eapply wpg_mono; [by apply quiet_index_creation| |done]. intros [] w2 H2. by apply wpg_ret.
Qed.
End progress.
End quiet.

(** ** The specs after a promotion *)

Lemma elem_name_spec g : elem_name (gsi_spec_to_json g) = Some (gs_name g).
Proof. by destruct g. Qed.

Lemma merge_serveable g b reason :
  merge_object (gsi_spec_to_json g) (serveable_fields b reason) = gsi_spec_to_json (gsi_with b reason g).
Proof. destruct g, reason; vm_compute; reflexivity. Qed.

(** One GSI's verdict fields replaced. *)
Definition mark (n : string) (b : bool) (reason : option string) (g : GsiSpec) : GsiSpec :=
  if String.eqb (gs_name g) n then gsi_with b reason g else g.

Lemma set_serveable_specs n b reason g gs :
  set_serveable n b reason (gsi_specs_to_json (g :: gs)) = Some (gsi_specs_to_json (map (mark n b reason) (g :: gs))).
Proof.
  assert (Hone : forall x, (if bool_decide (elem_name (gsi_spec_to_json x) = Some n)
                            then merge_object (gsi_spec_to_json x) (serveable_fields b reason) else gsi_spec_to_json x)
                           = gsi_spec_to_json (mark n b reason x)).
  { intros x. rewrite elem_name_spec. unfold mark. destruct (String.eqb_spec (gs_name x) n) as [->|Hne].
    - rewrite bool_decide_true by done. apply merge_serveable.
    - rewrite bool_decide_false by congruence. done. }
  change (gsi_specs_to_json (g :: gs)) with (VArray (gsi_spec_to_json g :: map gsi_spec_to_json gs)).
  change (gsi_specs_to_json (map (mark n b reason) (g :: gs)))
    with (VArray (map gsi_spec_to_json (map (mark n b reason) (g :: gs)))).
  unfold set_serveable. rewrite !map_map. do 2 f_equal. cbn [map]. rewrite Hone. f_equal.
  rewrite map_map. apply map_ext, Hone.
Qed.

(** when no call fails, the GSI of a table with a primary key, whose
    specs the orchestrator wrote and whose index becomes valid, reaches
    ACTIVE: the coordinator returns, the phase is [active] with the time of
    activation, and the table's specs are those before with exactly this
    GSI made serveable. *)
Theorem lifecycle_reaches_active {Phys} {GS : GsiServer Phys} {BE : BackfillEnds Phys}
    env id (w : GsiWorld Phys) r gsi t g gs fuel polls timeout :
  (forall n, fault env n = None) ->
  find_row id (gw_states w) = Some r -> gr_phase r = "backfilling" -> gr_column_specs r = column_specs_json gsi ->
  find_table (gr_table_name r) (gw_tables w) = Some t -> mr_gsi_specs t = gsi_specs_to_json (g :: gs) ->
  (forall ph, pk_columns (gr_pg_table r) ph <> []) ->
  (forall sql n ph, index_valid (gr_index_name r) (elapse n (ddl sql ph)) = Some true) ->
  (forall cols prev, pending (gr_pg_table r) cols prev (gw_phys w) < fuel)%nat ->
  exists w' r' now,
    run_lifecycle_to_active env fuel polls timeout id w = (Ok tt, w')
    /\ find_row id (gw_states w') = Some r' /\ gr_phase r' = "active" /\ is_Some (gr_activated_at_ms r')
    /\ gw_tables w' = where_table (gr_table_name r)
         (with_gsi_specs (gsi_specs_to_json (map (mark (gr_gsi_name r) true None) (g :: gs))) now "gsi-orchestrator") (gw_tables w).
Proof.
  intros Hq Hfind Hphase Hspecs Ht Hg Hpk Hv Hf.
  assert (Hin : in_phase id w r GsiPhase_Backfilling w) by (exists r; by constructor).
  pose proof (quiet_lifecycle env Hq id w r gsi t g gs Hspecs Ht Hg Hpk Hv fuel polls timeout w Hin Hf) as Hwp.
  unfold wpg in Hwp. destruct (run_lifecycle_to_active env fuel polls timeout id w) as [[[]|e|] w']; [|done|done].
  destruct Hwp as [(r' & H1 & H2 & _ & H3) (t' & specs & now & Ht' & Hs & Htab) _ _].
  rewrite Ht in Ht'. injection Ht' as <-. rewrite Hg, set_serveable_specs in Hs. injection Hs as <-.
  by exists w', r', now.
Qed.

(** ** The removal path *)

Section removal.
Context {Phys : Type} {GS : GsiServer Phys} (env : Faults).
#[local] Notation World := (GsiWorld Phys).
Variables (id : string) (w0 : World) (r : GsiRow).
#[local] Notation mid := (mid id w0 r).
#[local] Notation in_phase := (in_phase id w0 r).

Record gone (w : World) : Prop := {
  go_row : exists r', find_row id (gw_states w) = Some r' /\ gr_phase r' = "gone";
  go_tables : exists now, gw_tables w = where_table (gr_table_name r)
                (fun x => with_gsi_specs (remove_spec (gr_gsi_name r) (mr_gsi_specs x)) now "gsi-removal" x) (gw_tables w0);
  go_others : forall i, i <> id -> find_row i (gw_states w) = find_row i (gw_states w0)
}.

Definition removal_stopped (w : World) : Prop :=
  in_phase GsiPhase_RemovingIndex w \/ in_phase GsiPhase_RemovingColumn w \/ in_phase GsiPhase_Failed w \/ gone w.

Lemma wpg_execute_all sqls : forall (w : World) (Q : unit -> World -> Prop),
  (forall w', gw_states w' = gw_states w -> gw_tables w' = gw_tables w -> Q tt w') ->
  wpg (execute_all env sqls) Q (fun _ => True) w.
Proof.
  induction sqls as [|sql sqls IH]; intros w Q HQ; cbn [execute_all]; [by apply wpg_ret, HQ|].
  apply wpg_bind, wpg_autocommit; [|done]. intros _. apply IH. intros w' E1 E2. by apply HQ.
Qed.

(** The last transaction, on any failure pattern. *)
Lemma wpg_remove_columns s w :
  in_phase GsiPhase_RemovingColumn w -> st_table_name s = gr_table_name r -> st_gsi_name s = gr_gsi_name r ->
  wpg (remove_columns env id s) (fun _ w' => gone w')
     (fun w' => in_phase GsiPhase_RemovingColumn w' \/ gone w') w.
Proof.
  intros [r' Hr] Et En. unfold remove_columns. apply wpg_in_tx.
  { intros n. left. exists r'. by eapply mid_congr; [..|exact Hr]. }
  apply wpg_bind, wpg_call; [done|]. intros _. rewrite Et, En. apply wpg_bind, wpg_call; [done|]. intros _.
  destruct (find_table _ _) as [t|]; [|done]. apply wpg_bind, wpg_execute_all. intros w1 E1 E2.
  apply wpg_bind, wpg_call; [done|]. intros now. apply wpg_autocommit; [|done]. intros now'.
  cbn in E1, E2. rewrite (mid_tables _ _ _ _ _ _ Hr) in E2. cbn [gw_states gw_tables tick].
  assert (Hg : forall ph n, gone (mkGsiWorld (update_phase id GsiPhase_Gone None now' (gw_states w1))
    (where_table (gr_table_name r)
       (fun x => with_gsi_specs (remove_spec (gr_gsi_name r) (mr_gsi_specs x)) now "gsi-removal" x) (gw_tables w1)) ph n)).
  { intros ph n. constructor.
    - exists (set_phase GsiPhase_Gone None now' r'). cbn [gw_states].
      by rewrite find_update_phase, E1, (mid_find _ _ _ _ _ _ Hr).
    - exists now. cbn [gw_tables]. by rewrite E2.
    - intros i Hi. cbn [gw_states]. unfold update_phase. rewrite find_where_other, E1 by done.
      by apply (mid_others _ _ _ _ _ _ Hr). }
  split; [|right]; apply Hg.
Qed.

Lemma wpg_removal p w :
  in_phase p w -> p = GsiPhase_RemovingIndex \/ p = GsiPhase_RemovingColumn ->
  wpg (run_removal_to_gone env id) (fun _ w' => gone w') removal_stopped w.
Proof.
  intros [r' Hr] Hp. unfold run_removal_to_gone.
  assert (Hstop : forall w', in_phase p w' -> removal_stopped w') by (unfold removal_stopped; destruct Hp as [->| ->]; auto).
  apply wpg_bind, wpg_pool. intros w1 ->. assert (Hr1 : mid p (tick w) r') by (by eapply mid_congr; [..|exact Hr]).
  split; [|apply Hstop; by exists r']. apply wpg_bind. eapply wpg_fetch; [exact Hr1| |exact Hstop].
  intros s w2 Hs Hphase Hr2 _. destruct (row_to_state_fields r' s Hs) as (Eid & Epg & Et & En & _).
  rewrite (mid_table _ _ _ _ _ _ Hr2) in Et. rewrite (mid_name _ _ _ _ _ _ Hr2) in En.
  rewrite Hphase, bool_decide_false by (by destruct Hp as [->| ->]).
  replace (negb _ && negb _) with false by (by destruct Hp as [->| ->]).
  apply wpg_bind. eapply (wpg_mono _ (fun _ w' => in_phase GsiPhase_RemovingColumn w') _ removal_stopped); [| |done].
  - destruct Hp as [->| ->]; simpl; [|apply wpg_ret; by exists r'].
    apply wpg_try. eapply wpg_execute; [by exists r'| |].
    + intros w3 H3. eapply wpg_put_phase; [exact H3|by auto|exact Hstop|unfold removal_stopped; by auto].
    + intros w3 H3 e. apply wpg_bind. eapply wpg_put_phase; [exact H3| |exact Hstop|unfold removal_stopped; by auto].
      intros w4 H4 _. apply wpg_err. right. right. by left.
  - intros [] w3 H3. apply wpg_bind, wpg_pool. intros w4 ->.
    assert (H4 : in_phase GsiPhase_RemovingColumn (tick w3)) by (by eapply in_phase_congr; [..|exact H3]).
    split; [|right; by left]. eapply wpg_mono; [by apply wpg_remove_columns|done|unfold removal_stopped; naive_solver].
Qed.
End removal.

Section quiet_removal.
Context {Phys : Type} {GS : GsiServer Phys} (env : Faults).
Hypothesis (Hquiet : forall n, fault env n = None).
#[local] Notation World := (GsiWorld Phys).
#[local] Notation never := (fun _ : World => False).
Variables (id : string) (w0 : World) (r : GsiRow) (t : MetadataRow).
Hypothesis (Htable : find_table (gr_table_name r) (gw_tables w0) = Some t).

Lemma execute_all_quiet sqls : forall w : World, exists w', execute_all env sqls w = (Ok tt, w')
  /\ gw_states w' = gw_states w /\ gw_tables w' = gw_tables w.
Proof.
  induction sqls as [|sql sqls IH]; intros w; cbn [execute_all]; [by exists w|].
  unfold w_bind, execute, autocommit. rewrite Hquiet.
  match goal with |- context [execute_all env sqls ?w1] => destruct (IH w1) as (w' & -> & E1 & E2) end. by exists w'.
Qed.

Lemma quiet_remove_columns s (w : World) :
  st_table_name s = gr_table_name r -> gw_tables w = gw_tables w0 ->
  exists w', remove_columns env id s w = (Ok tt, w').
Proof.
  intros Et E. unfold remove_columns, in_tx, call at 1. rewrite Hquiet.
  unfold w_bind at 1, lock_table, call at 1. rewrite Hquiet. unfold w_bind at 1, call at 1. rewrite Hquiet.
  cbn [gw_tables tick]. rewrite Et, E, Htable. unfold w_bind at 1.
  match goal with |- context [execute_all env ?l ?w] => destruct (execute_all_quiet l w) as (w1 & -> & _) end.
  unfold w_bind, call. rewrite Hquiet. unfold put_phase, set_states, autocommit. rewrite !Hquiet. by eexists.
Qed.

Lemma quiet_removal p (w : World) :
  in_phase id w0 r p w -> p = GsiPhase_RemovingIndex \/ p = GsiPhase_RemovingColumn ->
  wpg (run_removal_to_gone env id) (fun _ w' => gone id w0 r w') never w.
Proof.
  intros Hin Hp. pose proof (wpg_removal env id w0 r p w Hin Hp) as Hw. destruct Hin as [r' Hr].
  unfold wpg in *. destruct (run_removal_to_gone env id w) as [[[]|e|] w'] eqn:E; [done| |done]. exfalso. revert E.
  unfold run_removal_to_gone. unfold w_bind at 1, pool_get at 1. rewrite Hquiet. unfold w_bind at 1, fetch.
  unfold w_bind at 1, call at 1. rewrite Hquiet. unfold w_bind at 1, w_result at 1, fetch_state. cbn [gw_states tick].
  rewrite (mid_find _ _ _ _ _ _ Hr). unfold row_to_state. rewrite (mid_phase _ _ _ _ _ _ Hr), parse_phase_str.
  cbn [ok_or w_result]. set (s := mkGsiState _ _ _ _ _ _ _ _ _ _ _ _ _).
  change (st_phase s) with p. rewrite bool_decide_false by (by destruct Hp as [->| ->]).
  replace (negb _ && negb _) with false by (by destruct Hp as [->| ->]).
  assert (Et : st_table_name s = gr_table_name r) by apply Hr.
  destruct Hp as [->| ->]; unfold w_bind; cbn [bool_decide decide_rel];
    [rewrite bool_decide_true by done|rewrite bool_decide_false by done];
    unfold w_try, execute, put_phase, set_states, autocommit, call, pool_get, w_ret; rewrite !Hquiet;
    match goal with |- context [remove_columns env id s ?w] =>
      destruct (quiet_remove_columns s w Et (mid_tables _ _ _ _ _ _ Hr)) as [w1 ->] end; done.
Qed.
End quiet_removal.

Lemma remove_spec_json n gs :
  remove_spec n (gsi_specs_to_json gs) = gsi_specs_to_json (List.filter (fun g => negb (String.eqb (gs_name g) n)) gs).
Proof.
  change (gsi_specs_to_json gs) with (VArray (map gsi_spec_to_json gs)).
  change (gsi_specs_to_json (List.filter (fun g => negb (String.eqb (gs_name g) n)) gs))
    with (VArray (map gsi_spec_to_json (List.filter (fun g => negb (String.eqb (gs_name g) n)) gs))).
  unfold remove_spec. f_equal. induction gs as [|g gs IH]; [done|]. cbn [map List.filter].
  rewrite elem_name_spec. destruct (negb _); cbn [map]; by rewrite IH.
Qed.

(** whatever calls fail while a GSI is being removed, the worker
    leaves it removing its index, removing its columns, failed, or gone,
    and the spec leaves the table's row exactly when the phase becomes
    [gone]. Unless the drop of the index itself failed, running the worker
    again with no failures finishes the removal. *)
Theorem removal_resumes {Phys} {GS : GsiServer Phys} env id (w : GsiWorld Phys) r t :
  find_row id (gw_states w) = Some r -> gr_phase r = "removing_index" \/ gr_phase r = "removing_column" ->
  find_table (gr_table_name r) (gw_tables w) = Some t ->
  let w1 := (run_removal_to_gone env id w).2 in
  removal_stopped id w r w1
  /\ forall env', (forall n, fault env' n = None) -> ~ in_phase id w r GsiPhase_Failed w1 ->
     exists w2, run_removal_to_gone env' id w1 = (Ok tt, w2) /\ gone id w r w2.
Proof.
  intros Hfind Hphase Ht. cbv zeta.
  assert (exists p, in_phase id w r p w /\ (p = GsiPhase_RemovingIndex \/ p = GsiPhase_RemovingColumn)) as (p & Hin & Hp).
  { destruct Hphase as [Hph|Hph]; [exists GsiPhase_RemovingIndex|exists GsiPhase_RemovingColumn];
      (split; [exists r; by constructor|by auto]). }
  pose proof (wpg_removal env id w r p w Hin Hp) as Hw. unfold wpg in Hw.
  assert (Hstop : removal_stopped id w r (run_removal_to_gone env id w).2).
  { destruct (run_removal_to_gone env id w) as [[[]|e|] w1]; [by right; right; right|done|done]. }
  split; [done|]. intros env' Hq Hnf. set (w1 := (run_removal_to_gone env id w).2) in *.
  assert (Hagain : forall p', in_phase id w r p' w1 -> p' = GsiPhase_RemovingIndex \/ p' = GsiPhase_RemovingColumn ->
    exists w2, run_removal_to_gone env' id w1 = (Ok tt, w2) /\ gone id w r w2).
  { intros p' Hin' Hp'. pose proof (quiet_removal env' Hq id w r t Ht p' w1 Hin' Hp') as Hw'. unfold wpg in Hw'.
    destruct (run_removal_to_gone env' id w1) as [[[]|e|] w2]; [by exists w2|done|done]. }
  destruct Hstop as [H|[H|[H|H]]]; [by eapply Hagain; eauto|by eapply Hagain; eauto|done|].
  destruct H as [(r' & Hr' & Hg) Htab Hoth]. exists (tick (tick w1)). split; [|by constructor; [exists r'| |]].
  unfold run_removal_to_gone, w_bind, pool_get, fetch, w_bind, call, w_result. rewrite !Hq.
  cbn [gw_states tick]. unfold fetch_state. rewrite Hr'. unfold row_to_state. rewrite Hg. done.
Qed.

(** ** Flags and the reconciler *)

Lemma check_gsi_flags b reason g columns idx : check_gsi (gsi_with b reason g) columns idx = check_gsi g columns idx.
Proof. by destruct g. Qed.

Lemma gsi_with_flags b reason b' reason' g : gsi_with b reason (gsi_with b' reason' g) = gsi_with b reason g.
Proof. by destruct g. Qed.

Lemma mark_flags n b reason g : exists b' reason', mark n b reason g = gsi_with b' reason' g.
Proof.
  unfold mark. destruct (String.eqb _ _); [by eauto|]. exists (gs_serveable g), (gs_unserveable_reason g). by destruct g.
Qed.

(** The verdict of the reconciler does not read the flags of a GSI. *)
Lemma introspect_flags pg e e' (f : GsiSpec -> GsiSpec) :
  (forall g, exists b reason, f g = gsi_with b reason g) ->
  te_gsis e' = prod_map id f <$> te_gsis e -> te_lsis e' = te_lsis e -> same_core (te_schema e) (te_schema e') ->
  introspect pg e' = introspect pg e.
Proof.
  intros Hf Hg Hl (E0 & E1 & E2 & E3 & E4 & E5 & E6).
  assert (Hv : gsi_values e' = map f (gsi_values e)).
  { unfold gsi_values. rewrite Hg. clear. induction (te_gsis e) as [|[k g] l IH]; [done|]. csimpl. f_equal. exact IH. }
  assert (Hdeg : forall reason, degrade_all_gsis (gsi_values e') reason = degrade_all_gsis (gsi_values e) reason).
  { intros reason. rewrite Hv. unfold degrade_all_gsis. rewrite map_map. apply map_ext. intros g.
    destruct (Hf g) as (b & rs & ->). apply gsi_with_flags. }
  assert (Hnil : bool_decide (te_gsis e' = []) = bool_decide (te_gsis e = [])).
  { rewrite Hg. by destruct (te_gsis e). }
  assert (Hcheck : forall columns idx, map (fun g => check_gsi g columns idx) (gsi_values e')
                                       = map (fun g => check_gsi g columns idx) (gsi_values e)).
  { intros columns idx. rewrite Hv, map_map. apply map_ext. intros g. destruct (Hf g) as (b & rs & ->).
    apply check_gsi_flags. }
  unfold introspect, degraded_with_indexes, check_sk_column, expected_pk.
  rewrite <- ?E1, <- ?E2, <- ?E3, <- ?E4, <- ?E5, <- ?E6, Hl, Hnil.
  destruct (fetch_columns pg _) as [columns| |]; [|done..].
  destruct (bool_decide (columns = [])); [by rewrite Hdeg|].
  destruct (check_jsonb_column _ _); [by rewrite Hdeg|]. destruct (check_key_column _ _ _); [by rewrite Hdeg|].
  destruct (match sk_attr (te_schema e) with Some _ => _ | None => _ end); [by rewrite Hdeg|].
  destruct (fetch_primary_key pg _) as [pk| |]; [|done..]. destruct (negb _); [by rewrite Hdeg|].
  destruct (if _ && _ then _ else _) as [idx| |]; [|done..]. by rewrite Hcheck.
Qed.

Lemma marked_row r e n b reason g gs now by_ :
  row_to_entry r = Ok e -> mr_gsi_specs r = gsi_specs_to_json (g :: gs) ->
  exists e', row_to_entry (with_gsi_specs (gsi_specs_to_json (map (mark n b reason) (g :: gs))) now by_ r) = Ok e'
  /\ te_gsis e' = prod_map id (mark n b reason) <$> te_gsis e /\ te_lsis e' = te_lsis e
  /\ same_core (te_schema e) (te_schema e').
Proof.
  intros He Hg. set (l := g :: gs) in *.
  assert (Hnames : map (fun x => (gs_name x, x)) (map (mark n b reason) l)
                   = prod_map id (mark n b reason) <$> map (fun x => (gs_name x, x)) l).
  { change (prod_map id (mark n b reason) <$> ?k) with (map (prod_map id (mark n b reason)) k).
    rewrite !map_map. apply map_ext. intros x. unfold prod_map, id, mark. cbn [fst snd].
    by destruct (String.eqb (gs_name x) n). }
  unfold row_to_entry in He |- *. rewrite Hg in He. cbn [with_gsi_specs mr_table_name mr_status mr_pk_type mr_sk_type
    mr_sk_attr mr_lsi_specs mr_gsi_specs].
  destruct (ok_or (parse_status (mr_status r)) _); [|done..].
  destruct (parse_key_type _ (mr_pk_type r)); [|done..].
  destruct (match mr_sk_type r with Some _ => _ | None => _ end); [|done..].
  destruct (negb _); [done|]. unfold gsi_specs_from_json, gsi_specs_to_json in *.
  destruct (lsi_specs_from_json _ (mr_lsi_specs r)); [|done..].
  rewrite (specs_round_trip _ _ _ _ _ (gsi_spec_round_trip _)) in He.
  rewrite (specs_round_trip _ _ _ _ _ (gsi_spec_round_trip _)). injection He as <-.
  eexists. split; [done|]. split; [|done]. cbn [te_gsis]. rewrite Hnames. apply hm_collect_map.
Qed.

(** the next pass of the reconciler computes the same verdict whether
    or not a GSI was marked serveable or unserveable in the table's row: a
    GSI demoted for drift, or whose removal has started, is served again as
    long as its columns and its index exist. *)
Theorem reconciler_overrides_gsi_flags pg r e g gs n b reason specs now by_ :
  row_to_entry r = Ok e -> mr_gsi_specs r = gsi_specs_to_json (g :: gs) ->
  set_serveable n b reason (mr_gsi_specs r) = Some specs ->
  exists e', row_to_entry (with_gsi_specs specs now by_ r) = Ok e' /\ introspect pg e' = introspect pg e.
Proof.
  intros He Hg Hs. rewrite Hg, set_serveable_specs in Hs. injection Hs as <-.
  destruct (marked_row r e n b reason g gs now by_ He Hg) as (e' & He' & Hgsis & Hlsis & Hcore).
  exists e'. split; [done|]. eapply introspect_flags; [apply mark_flags|done..].
Qed.

(** ** An in-memory server *)

Module MemServer.
(** The rows of one table, with distinct keys, and the statements run. *)
Record Phys : Type := mkPhys {
  rows : list (BRow (K := string) (V := string) (D := option string));
  keys_distinct : NoDup (map br_key rows);
  log : list string
}.

Definition chunk (cols : list ColSpec) (prev : option (list string)) (n : nat)
    (l : list (BRow (K := string) (V := string) (D := option string))) :=
  run_chunk str_ltb text_identity str_ltb tier_of (in_key_order str_ltb) cols prev n l.

Lemma chunk_keys cols prev n l : NoDup (map br_key l) -> NoDup (map br_key (chunk cols prev n l).2).
Proof.
  intros Hnd. unfold chunk, run_chunk. destruct cols as [|c cols]; [done|]. cbn [snd]. unfold update_chunk.
  rewrite map_map. erewrite map_ext; [exact Hnd|]. intros x. by case_bool_decide.
Qed.

#[global] Instance server : GsiServer Phys := {
  ddl sql p := mkPhys (rows p) (keys_distinct p) (log p ++ [sql]);
  ddl_failed _ p := p;
  elapse _ p := p;
  index_valid _ _ := Some true;
  pk_columns _ _ := ["id"];
  backfill_chunk _ cols prev n p :=
    ((chunk cols prev n (rows p)).1.1, (chunk cols prev n (rows p)).1.2,
     mkPhys (chunk cols prev n (rows p)).2 (chunk_keys cols prev n (rows p) (keys_distinct p)) (log p));
  sampled _ _ _ _ := []
}.

#[global] Instance ends : BackfillEnds Phys.
Proof.
  refine {| pending _ cols prev p := length (List.filter (candidate text_identity str_ltb cols prev) (rows p)) |}.
  intros t cols prev n p c prev' p' Hn Hc Hne.
  destruct (chunk cols prev n (rows p)) as [[count pr] rs] eqn:E.
  assert (Hf : count = c /\ pr = prev' /\ rs = rows p').
  { revert Hc. unfold backfill_chunk, server. intros Hc.
    pose proof (f_equal (fun x => x.1.1) Hc) as H1. pose proof (f_equal (fun x => x.1.2) Hc) as H2.
    pose proof (f_equal (fun x => rows x.2) Hc) as H3. cbn [fst snd rows] in H1, H2, H3. rewrite E in H1, H2, H3. done. }
  destruct Hf as (-> & -> & ->). clear Hc. destruct cols as [|c0 cols].
  { unfold chunk, run_chunk in E. injection E as <- _ _. by destruct Hne. }
  pose proof (chunk_invariant str_ltb text_identity str_ltb tier_of (in_key_order str_ltb) text_keys_agree (c0 :: cols)
    prev n (rows p) (fun _ => eq_refl) Hn ltac:(done)) as Hinv. fold (chunk (c0 :: cols) prev n (rows p)) in Hinv.
  rewrite E in Hinv. destruct Hinv as (_ & _ & _ & Hcase); [|apply keys_distinct|].
  - destruct prev as [texts|]; [|done]. exists texts. unfold text_identity. symmetry. apply map_id.
  - destruct (Nat.eqb_spec c 0); [by destruct Hne|exact Hcase].
Defined.
End MemServer.

Definition tier_spec (serveable : bool) : GsiSpec :=
  mkGsiSpec "by-tier" "tier" KeyType_S "tier" None None None "t_gsi_by_tier_idx" None None GsiMode_DualWrite serveable None.
Definition tier_table (serveable : bool) : MetadataRow :=
  mkMetadataRow "users" "rekt_t_users" "data" "id" "S" None None "ACTIVE" true None 0 "ddl" 0 (VObject []) None None None
    (VArray []) (gsi_specs_to_json [tier_spec serveable]).
Definition tier_state (phase : GsiPhase) : GsiRow :=
  set_phase phase None 1 (state_to_row (declared_state "users" "rekt_t_users" (tier_spec false) 0)).
Definition users_rows : list BRow := [text_row "b" (Some "gold"); text_row "a" None].
Lemma users_keys : NoDup (map br_key users_rows).
Proof. simpl. repeat (apply NoDup_cons; split; [set_solver|]). constructor. Qed.
Definition users_world (phase : GsiPhase) : GsiWorld MemServer.Phys :=
  mkGsiWorld [tier_state phase] [tier_table false] (MemServer.mkPhys users_rows users_keys []) 0.

Lemma users_pending phase t cols prev :
  (pending t cols prev (gw_phys (users_world phase)) < 3)%nat.
Proof.
  change (length (List.filter (candidate text_identity str_ltb cols prev) users_rows) < 3)%nat.
  pose proof (count_le (candidate text_identity str_ltb cols prev) users_rows). simpl in *. lia.
Qed.

(** The fifth call fails: the backfill's first chunk. *)
Definition fifth_fails : Faults := mkFaults (fun n => if Nat.eqb n 5 then Some "connection lost" else None) Z.of_nat (fun _ => false).

Lemma lifecycle_outcome_witness :
  exists w', run_lifecycle_to_active fifth_fails 3 0 "24h" "users::by-tier" (users_world GsiPhase_Backfilling) = (Ok tt, w')
  /\ stopped "users::by-tier" (users_world GsiPhase_Backfilling) (tier_state GsiPhase_Backfilling) w'.
Proof.
  apply (lifecycle_outcome fifth_fails "users::by-tier" (users_world GsiPhase_Backfilling) (tier_state GsiPhase_Backfilling) 3 0 "24h").
  - reflexivity.
  - by left.
  - intros. apply users_pending.
Defined.

Lemma lifecycle_reaches_active_witness :
  exists w' r' now,
    run_lifecycle_to_active no_faults 3 0 "24h" "users::by-tier" (users_world GsiPhase_Backfilling) = (Ok tt, w')
    /\ find_row "users::by-tier" (gw_states w') = Some r' /\ gr_phase r' = "active" /\ is_Some (gr_activated_at_ms r')
    /\ gw_tables w' = where_table "users"
         (with_gsi_specs (gsi_specs_to_json (map (mark "by-tier" true None) [tier_spec false])) now "gsi-orchestrator")
         (gw_tables (users_world GsiPhase_Backfilling)).
Proof.
  apply (lifecycle_reaches_active no_faults "users::by-tier" (users_world GsiPhase_Backfilling)
           (tier_state GsiPhase_Backfilling) (tier_spec false) (tier_table false) (tier_spec false) [] 3 0 "24h");
    try done; try reflexivity.
  intros. apply users_pending.
Defined.

Lemma removal_resumes_witness :
  removal_stopped "users::by-tier" (users_world GsiPhase_RemovingIndex) (tier_state GsiPhase_RemovingIndex)
    (run_removal_to_gone fifth_fails "users::by-tier" (users_world GsiPhase_RemovingIndex)).2.
Proof.
  apply (removal_resumes fifth_fails "users::by-tier" (users_world GsiPhase_RemovingIndex)
           (tier_state GsiPhase_RemovingIndex) (tier_table false)); [reflexivity|by left|reflexivity].
Defined.

Lemma reconciler_overrides_gsi_flags_witness :
  exists e', row_to_entry (with_gsi_specs
      (gsi_specs_to_json [gsi_with false (Some "sampled drift detected") (tier_spec true)]) 9 "gsi-verify" (tier_table true)) = Ok e'
  /\ forall pg e, row_to_entry (tier_table true) = Ok e -> introspect pg e' = introspect pg e.
Proof.
  destruct (row_to_entry (tier_table true)) as [e| |] eqn:He; [|vm_compute in He; discriminate..].
  destruct (reconciler_overrides_gsi_flags (mkPgAnswers None None None (fun _ => inl "") (fun _ => inl "") (fun _ => inl "") (fun _ => None))
              (tier_table true) e (tier_spec true) [] "by-tier" false (Some "sampled drift detected")
              (gsi_specs_to_json [gsi_with false (Some "sampled drift detected") (tier_spec true)]) 9 "gsi-verify")
    as (e' & He' & _); [done|reflexivity|reflexivity|].
  exists e'. split; [done|]. intros pg e1 [= <-].
  destruct (reconciler_overrides_gsi_flags pg
              (tier_table true) e (tier_spec true) [] "by-tier" false (Some "sampled drift detected")
              (gsi_specs_to_json [gsi_with false (Some "sampled drift detected") (tier_spec true)]) 9 "gsi-verify")
    as (e2 & He2 & Hi); [done|reflexivity|reflexivity|]. rewrite He' in He2. injection He2 as <-. exact Hi.
Defined.
