(* ===== verification/Ddl.v ===== *)
(** * The control plane over PostgreSQL (rekt-ddl, [lib.rs])

    [PgDdlBackend]: CreateTable, DeleteTable and UpdateTable as
    computations over the metadata rows, the GSI state rows, the rest of
    the database and the cached catalog. As for the GSI workers every call
    to the server or the pool is numbered and may fail. The catalog and the
    rows are independent in the initial state: what other instances and the
    workers committed since the last reconciliation is the difference
    between them. *)

From S2P Require Import Prelude RustStr BTree Json Storage Schema Catalog Reconciler ApiError.
From S2P Require Import DdlTypes Naming Validation ValidationSpec CreateTable TableSpecs DdlHandlers.
From S2P Require Import GsiState Backfill GsiWorkers.

(** ** Parameters *)

(** What the server answers besides [GsiServer]: whether a relation of that
    name exists in the current schema, the error of a statement it rejects,
    its text for a violated unique constraint, what it answers to the
    [n]-th call when that is a pass of the reconciler, and the iteration
    order of the [HashMap] that pass walks. *)
Class DdlServer (Phys : Type) {GS : GsiServer Phys} : Type := {
  relation_exists : string -> Phys -> bool;
  rejects : string -> Phys -> option string;
  conflict_message : string;
  answers : nat -> Phys -> PgAnswers;
  entries_order : gmap string TableEntry -> list (string * TableEntry);
  entries_order_perm m : entries_order m ≡ₚ map_to_list m
}.

(** The database, the cached catalog and the tasks spawned. *)
Record DdlWorld (Phys : Type) : Type := mkDdlWorld {
  dw_db : GsiWorld Phys;
  dw_catalog : CatalogSnapshot;
  dw_spawned : list Spawned
}.
Arguments mkDdlWorld {Phys}.
Arguments dw_db {Phys}.
Arguments dw_catalog {Phys}.
Arguments dw_spawned {Phys}.

(** ** Rows *)

Section rows.
Context {SH : Sha1}.

(** The row of [INSERT_CREATING_SQL]. *)
Definition creating_row (plan : CreateTablePlan) (pg_table : string) (now : Z) : MetadataRow :=
  mkMetadataRow (cp_table_name plan) pg_table (cp_jsonb_col plan) (cp_pk_attr plan) (key_type_str (cp_pk_type plan))
    (cp_sk_attr plan) (key_type_str <$> cp_sk_type plan) "CREATING" false None now "ddl" now (cp_tags plan)
    (cp_billing_mode plan) (cp_provisioned_rcu plan) (cp_provisioned_wcu plan)
    (lsi_specs_to_json (build_lsi_specs plan pg_table)) (gsi_specs_to_json (build_gsi_specs plan pg_table)).
End rows.

(** The INSERT: [table_name] is the primary key and [pg_table] is unique. *)
Definition insert_row (conflict : string) (r : MetadataRow) (rows : list MetadataRow) : string + list MetadataRow :=
  if existsb (fun r' => String.eqb (mr_table_name r') (mr_table_name r) || String.eqb (mr_pg_table r') (mr_pg_table r)) rows
  then inl conflict else inr (rows ++ [r]).

(** [UPDATE_TO_ACTIVE_SQL]. *)
Definition set_active (now : Z) (r : MetadataRow) : MetadataRow :=
  mkMetadataRow (mr_table_name r) (mr_pg_table r) (mr_jsonb_col r) (mr_pk_attr r) (mr_pk_type r) (mr_sk_attr r)
    (mr_sk_type r) "ACTIVE" true None now "ddl" (mr_creation_date_ms r) (mr_tags r) (mr_billing_mode r)
    (mr_provisioned_rcu r) (mr_provisioned_wcu r) (mr_lsi_specs r) (mr_gsi_specs r).

(** [COALESCE($n, col)]. *)
Definition coalesce {A} (new old : option A) : option A := match new with Some a => Some a | None => old end.

(** [UPDATE_TABLE_LEVEL_FIELDS_SQL], whose tags are always NULL. *)
Definition set_table_fields (billing : option string) (rcu wcu : option Z) (now : Z) (r : MetadataRow) : MetadataRow :=
  mkMetadataRow (mr_table_name r) (mr_pg_table r) (mr_jsonb_col r) (mr_pk_attr r) (mr_pk_type r) (mr_sk_attr r)
    (mr_sk_type r) (mr_status r) (mr_serveable r) (mr_unserveable_reason r) now "ddl" (mr_creation_date_ms r) (mr_tags r)
    (coalesce billing (mr_billing_mode r)) (coalesce rcu (mr_provisioned_rcu r)) (coalesce wcu (mr_provisioned_wcu r))
    (mr_lsi_specs r) (mr_gsi_specs r).

(** ** GSI updates *)

Definition gsi_updates (req : UpdateTableRequest) : list GlobalSecondaryIndexUpdate :=
  default [] (ut_global_secondary_index_updates req).
Definition gsi_creates (req : UpdateTableRequest) : list GlobalSecondaryIndex := omap gu_create (gsi_updates req).
Definition gsi_deletes (req : UpdateTableRequest) : list string := omap (fun u => da_index_name <$> gu_delete u) (gsi_updates req).

(** The spec of a GSI added online. *)
Definition new_gsi_spec {SH : Sha1} (pg_table : string) (plan : GsiPlan) : GsiSpec :=
  mkGsiSpec (gp_name plan) (gp_partition_attr plan) (gp_partition_type plan) (gp_partition_attr plan) (gp_sort_attr plan)
    (gp_sort_type plan) (gp_sort_attr plan) (derive_gsi_index_name pg_table (gp_name plan)) (gp_projection_type plan)
    (gp_projection_non_key_attrs plan) GsiMode_DualWrite false (Some "DualWrite GSI in CREATING phase").

Definition new_gsi_specs {SH : Sha1} (req : UpdateTableRequest) (entry : TableEntry) : Result DdlError (list GsiSpec) :=
  let s := te_schema entry in
  collect (fun g => let? plan := validate_update_table_gsi_create (ut_table_name req) g (ut_attribute_definitions req)
                                   (pk_attr s) (sk_attr s) (te_gsis entry).*1 in
                    Ok (new_gsi_spec (pg_table s) plan)) (gsi_creates req).

Definition gsi_of (entry : TableEntry) (n : string) : option GsiSpec :=
  snd <$> List.find (fun kv => String.eqb kv.1 n) (te_gsis entry).

(** The deletes of a GSI the cached entry does not have. *)
Fixpoint check_deletes (table : string) (entry : TableEntry) (names : list string) : Result DdlError unit :=
  match names with
  | [] => Ok tt
  | n :: names' =>
      if bool_decide (is_Some (gsi_of entry n)) then check_deletes table entry names'
      else Err (DdlError_ResourceNotFound ("GSI not found on table `" +:+ table +:+ "`: " +:+ n))
  end.

(** The specs UpdateTable writes: the cached ones without the deleted
    Generated ones, the deleted DualWrite ones marked, and the new ones. *)
Definition merged_specs (entry : TableEntry) (deletes : list string) (new : list GsiSpec) : list GsiSpec :=
  let is_mode m g := bool_decide (gs_mode g = m) in
  let kept := List.filter (fun g => negb (contains deletes (gs_name g) && is_mode GsiMode_Generated g)) (gsi_values entry) in
  let marked := map (fun g => if contains deletes (gs_name g) && is_mode GsiMode_DualWrite g
                              then gsi_with false (Some "GSI removal in progress") g else g) kept in
  sort_by (fun g => Some (gs_name g)) (marked ++ new).

(** ** Computations *)

Section ddl.
Context {SH : Sha1} {SI : SetIter} {Phys : Type} {GS : GsiServer Phys} {DS : DdlServer Phys}.
Context (env : Faults) (invalidate_on_local_ddl : bool).

Definition D (A : Type) : Type := DdlWorld Phys -> Result DdlError A * DdlWorld Phys.
Definition d_ret {A} (a : A) : D A := fun w => (Ok a, w).
Definition d_result {A} (r : Result DdlError A) : D A := fun w => (r, w).
Definition d_bind {A B} (m : D A) (f : A -> D B) : D B :=
  fun w => match m w with
           | (Ok a, w') => f a w'
           | (Err e, w') => (Err e, w')
           | (Panic, w') => (Panic, w')
           end.
#[local] Notation "'do!' x := c 'in' k" := (d_bind c (fun x => k))
  (at level 10, x pattern, c at level 100, k at level 200).

Definition with_db (w : DdlWorld Phys) (db : GsiWorld Phys) : DdlWorld Phys := mkDdlWorld db (dw_catalog w) (dw_spawned w).

(** A computation on the database whose error is converted by [conv]. *)
Definition on_db {A} (conv : OrchestratorError -> DdlError) (m : W (Phys := Phys) A) : D A :=
  fun w => match m (dw_db w) with
           | (Ok a, db) => (Ok a, with_db w db)
           | (Err e, db) => (Err (conv e), with_db w db)
           | (Panic, db) => (Panic, with_db w db)
           end.

(** [impl From<tokio_postgres::Error> for DdlError]. *)
Definition postgres_error (e : OrchestratorError) : DdlError := DdlError_Internal ("Postgres error: " +:+ driver_error e).
Definition stmt {A} : W A -> D A := on_db postgres_error.
(** [self.pool.get().await.map_err(..)]. *)
Definition pool_error (e : OrchestratorError) : DdlError :=
  DdlError_Catalog (CatalogError_Pool ("pool get failed: " +:+ driver_error e)).
Definition checkout : D unit := on_db pool_error (call env (fun _ w => (inr tt, w))).

(** The statements. *)
Definition update_rows (f : Z -> list MetadataRow -> string + list MetadataRow) (now : Z) : W (Phys := Phys) unit :=
  call env (fun _ w => match f now (gw_tables w) with
                       | inl e => (inl e, w)
                       | inr rows => (inr tt, mkGsiWorld (gw_states w) rows (gw_phys w) (gw_calls w))
                       end).
Definition batch_execute (sql : string) : W (Phys := Phys) unit :=
  call env (fun _ w => match rejects sql (gw_phys w) with
                       | Some e => (inl e, w)
                       | None => (inr tt, mkGsiWorld (gw_states w) (gw_tables w) (ddl sql (gw_phys w)) (gw_calls w))
                       end).
Definition now_ms : D Z := fun w => (Ok (clock env (gw_calls (dw_db w))), w).

(** [tx.rollback().await?; return Err(e)]. *)
Definition rollback {A} (e : DdlError) : D A :=
  do! _ := stmt (lock_table env) in
  d_result (Err e).
(** [if let Err(e) = statement { rollback; return Err(conv(e)) }]. *)
Definition or_rollback {A} (m : W A) (conv : string -> DdlError) : D A :=
  fun w => match m (dw_db w) with
           | (Ok a, db) => (Ok a, with_db w db)
           | (Err e, db) => rollback (conv (driver_error e)) (with_db w db)
           | (Panic, db) => (Panic, with_db w db)
           end.

(** The rows and the rest of the database as they were. *)
Definition undo (w0 w1 : DdlWorld Phys) (calls : nat) : DdlWorld Phys :=
  with_db w1 (mkGsiWorld (gw_states (dw_db w0)) (gw_tables (dw_db w0)) (gw_phys (dw_db w0)) calls).

(** A transaction; dropping it rolls back. *)
Definition transaction {A} (body : D A) : D A :=
  do! _ := stmt (lock_table env) in
  fun w0 =>
    match body w0 with
    | (Ok a, w1) =>
        let n := gw_calls (dw_db w1) in
        match fault env n with
        | None => (Ok a, with_db w1 (tick (dw_db w1)))
        | Some e => (Err (DdlError_Internal ("Postgres error: " +:+ e)),
                     if applied env n then with_db w1 (tick (dw_db w1)) else undo w0 w1 (S n))
        end
    | (Err e, w1) => (Err e, undo w0 w1 (gw_calls (dw_db w1)))
    | (Panic, w1) => (Panic, undo w0 w1 (gw_calls (dw_db w1)))
    end.

(** [self.reconciler.reconcile_now().await?]. *)
Definition reconcile : D unit :=
  fun w =>
    let db := dw_db w in
    let '(w', r) := reconcile_now (answers (gw_calls db) (gw_phys db)) entries_order (clock env (gw_calls db))
                      (mkWorld (gw_tables db) (dw_catalog w)) in
    (match r with Ok _ => Ok tt | Err e => Err (DdlError_Catalog e) | Panic => Panic end,
     mkDdlWorld (mkGsiWorld (gw_states db) (w_rows w') (gw_phys db) (S (gw_calls db))) (w_catalog w') (dw_spawned w)).
Definition invalidate : D unit := if invalidate_on_local_ddl then reconcile else d_ret tt.

Definition cached (name : string) : D (option TableEntry) := fun w => (Ok (catalog_get (dw_catalog w) name), w).
Definition cached_or (name : string) (e : DdlError) : D TableEntry :=
  do! o := cached name in d_result (ok_or o e).

(** ** CreateTable *)

Definition insert_error (plan : CreateTablePlan) (msg : string) : DdlError :=
  if str_contains msg "unique constraint" || str_contains msg "duplicate key"
  then DdlError_ResourceInUse ("Table already exists: " +:+ cp_table_name plan)
  else DdlError_Internal ("INSERT into _rektifier_tables failed: " +:+ msg).

Definition create_in_tx (plan : CreateTablePlan) (pg_table : string) : D unit :=
  do! _ := stmt (lock_table env) in
  do! pg_exists := stmt (call env (fun _ w => (inr (relation_exists pg_table (gw_phys w)), w))) in
  if pg_exists : bool
  then rollback (DdlError_Validation ("Table cannot be created: underlying PG name `" +:+ pg_table +:+ "` already in use"))
  else
    do! now := now_ms in
    do! _ := or_rollback (update_rows (fun now => insert_row conflict_message (creating_row plan pg_table now)) now)
               (insert_error plan) in
    do! _ := or_rollback (batch_execute (create_table_sql plan pg_table))
               (fun e => DdlError_Internal ("CREATE TABLE failed for `" +:+ cp_table_name plan +:+ "`: " +:+ e)) in
    or_rollback (update_rows (fun now rows => inr (where_table (cp_table_name plan) (set_active now) rows)) now)
      (fun e => DdlError_Internal ("UPDATE _rektifier_tables to ACTIVE failed: " +:+ e)).

Definition create_table (req : CreateTableRequest) : D TableDescription :=
  do! plan := d_result (validate_create_table req) in
  let pg_table := derive_pg_table plan in
  do! existing := cached (cp_table_name plan) in
  if bool_decide (is_Some existing)
  then d_result (Err (DdlError_ResourceInUse ("Table already exists: " +:+ cp_table_name plan)))
  else
    do! _ := checkout in
    do! _ := transaction (create_in_tx plan pg_table) in
    do! _ := invalidate in
    do! entry := cached_or (cp_table_name plan)
                   (DdlError_Internal ("post-CreateTable catalog miss for `" +:+ cp_table_name plan
                                       +:+ "` — reconcile bug?")) in
    d_ret (synthesize_description entry).

(** ** DeleteTable *)

Definition delete_row (t : string) (rows : list MetadataRow) : list MetadataRow :=
  List.filter (fun r => negb (String.eqb (mr_table_name r) t)) rows.

Definition delete_in_tx (t pg_table : string) : D unit :=
  do! _ := stmt (lock_table env) in
  do! _ := or_rollback (batch_execute ("DROP TABLE IF EXISTS " +:+ pg_table))
             (fun e => DdlError_Internal ("DROP TABLE failed for `" +:+ t +:+ "`: " +:+ e)) in
  do! deleted_rows := stmt (call env (fun _ w =>
       (inr (length (List.filter (fun r => String.eqb (mr_table_name r) t) (gw_tables w))),
        mkGsiWorld (gw_states w) (delete_row t (gw_tables w)) (gw_phys w) (gw_calls w)))) in
  if Nat.eqb deleted_rows 0
  then rollback (DdlError_ResourceNotFound ("Table not found at delete time: " +:+ t))
  else d_ret tt.

(** [description.table_status = Some(..)]. *)
Definition with_status (s : string) (d : TableDescription) : TableDescription :=
  mkTableDescription (td_table_name d) (Some s) (td_table_arn d) (td_table_id d) (td_creation_date_ms d) (td_key_schema d)
    (td_attribute_definitions d) (td_provisioned_throughput d) (td_billing_mode_summary d) (td_item_count d)
    (td_table_size_bytes d) (td_global_secondary_indexes d) (td_local_secondary_indexes d) (td_stream_specification d)
    (td_latest_stream_label d) (td_latest_stream_arn d) (td_table_class_summary d) (td_deletion_protection_enabled d).

Definition delete_table (req : DeleteTableRequest) : D TableDescription :=
  let t := dt_table_name req in
  do! _ := d_result (validate_table_name_simple t) in
  do! entry := cached_or t (DdlError_ResourceNotFound ("Table not found: " +:+ t)) in
  do! _ := checkout in
  do! _ := transaction (delete_in_tx t (pg_table (te_schema entry))) in
  do! _ := invalidate in
  d_ret (with_status (to_wire_str TableStatus_Deleting) (synthesize_description entry)).

(** ** UpdateTable *)

Fixpoint batch_execute_all (sqls : list string) : W (Phys := Phys) unit :=
  match sqls with
  | [] => w_ret tt
  | sql :: rest => w_bind (batch_execute sql) (fun _ => batch_execute_all rest)
  end.

(** [drop_generated_gsi_in_tx] (rekt-gsi [remove.rs]) on the cached entry. *)
Definition drop_generated_gsi_in_tx (entry : TableEntry) (gsi : GsiSpec) (n : string) : W (Phys := Phys) unit :=
  let s := te_schema entry in
  batch_execute_all (drop_generated_gsi_sql (pg_table s) gsi
    (List.filter (fun g => negb (String.eqb (gs_name g) n)) (gsi_values entry)) (pk_attr s) (sk_attr s)
    (map ls_sort_pg_col (te_lsis entry))).

Definition internal (what : string) (e : OrchestratorError) : DdlError :=
  DdlError_Internal (what +:+ orchestrator_error_to_string e).

(** One delete; the ids of the DualWrite ones are collected. *)
Definition delete_gsi (t : string) (entry : TableEntry) (n : string) : D (list string) :=
  do! gsi := d_result (ok_or (gsi_of entry n)
               (DdlError_Internal ("GSI `" +:+ n +:+ "` vanished from catalog between pre-check and tx"))) in
  match gs_mode gsi with
  | GsiMode_Generated =>
      do! _ := on_db (internal "GSI drop (Generated): ") (drop_generated_gsi_in_tx entry gsi n) in d_ret []
  | GsiMode_DualWrite =>
      let id := gsi_id t n in
      do! _ := on_db (internal "GSI drop (DualWrite): ") (start_dual_write_removal env id) in d_ret [id]
  end.
Fixpoint delete_gsis (t : string) (entry : TableEntry) (names : list string) : D (list string) :=
  match names with
  | [] => d_ret []
  | n :: names' => do! ids := delete_gsi t entry n in
                   do! rest := delete_gsis t entry names' in
                   d_ret (ids ++ rest)
  end.

(** [create_dual_write_gsi_in_tx] (rekt-gsi [lib.rs]). *)
Definition declare_gsi (t pg_table : string) (gsi : GsiSpec) (now : Z) : W (Phys := Phys) unit :=
  call env (fun _ w => match insert_state_row (declared_state t pg_table gsi now) (gw_states w) with
                       | Ok rows => (inr tt, mkGsiWorld rows (gw_tables w) (gw_phys w) (gw_calls w))
                       | Err e => (inl (driver_error e), w)
                       | Panic => (inl EmptyString, w)
                       end).
Definition alter_error (e : OrchestratorError) : OrchestratorError :=
  OrchestratorError_AlterTable ("ADD COLUMN failed: " +:+ driver_error e).
Definition create_dual_write_gsi_in_tx (t pg_table : string) (gsi : GsiSpec) : W (Phys := Phys) unit :=
  if negb (bool_decide (gs_mode gsi = GsiMode_DualWrite)) then w_result Panic
  else
    let id := gsi_id t (gs_name gsi) in
    w_bind (fun w => declare_gsi t pg_table gsi (clock env (gw_calls w)) w) (fun _ =>
    w_bind (w_try (batch_execute (add_columns_sql pg_table gsi)) w_ret (fun e => w_result (Err (alter_error e)))) (fun _ =>
    w_bind (put_phase env id GsiPhase_AddingColumn None) (fun _ =>
    put_phase env id GsiPhase_Backfilling None))).
Fixpoint create_gsis (t pg_table : string) (gsis : list GsiSpec) : D unit :=
  match gsis with
  | [] => d_ret tt
  | g :: rest => do! _ := on_db (internal "GSI orchestrator: ") (create_dual_write_gsi_in_tx t pg_table g) in
                 create_gsis t pg_table rest
  end.

Definition new_capacity (req : UpdateTableRequest) : option Z * option Z :=
  match ut_provisioned_throughput req with
  | Some pt => (Some (read_capacity_units pt), Some (write_capacity_units pt))
  | None => (None, None)
  end.

Definition update_in_tx (req : UpdateTableRequest) (entry : TableEntry) (new : list GsiSpec) : D (list string) :=
  let t := ut_table_name req in
  do! _ := stmt (lock_table env) in
  do! now := now_ms in
  do! _ := stmt (update_rows (fun now rows => inr (where_table t
             (set_table_fields (ut_billing_mode req) (new_capacity req).1 (new_capacity req).2 now) rows)) now) in
  do! removals := delete_gsis t entry (gsi_deletes req) in
  do! _ := if negb (bool_decide (gsi_deletes req = [])) || negb (bool_decide (new = []))
           then stmt (update_rows (fun now rows => inr (where_table t
                  (with_gsi_specs (gsi_specs_to_json (merged_specs entry (gsi_deletes req) new)) now "ddl") rows)) now)
           else d_ret tt in
  do! _ := create_gsis t (pg_table (te_schema entry)) new in
  d_ret removals.

Definition spawn (tasks : list Spawned) : D unit := fun w => (Ok tt, mkDdlWorld (dw_db w) (dw_catalog w) (dw_spawned w ++ tasks)).

Definition update_table (req : UpdateTableRequest) : D TableDescription :=
  let t := ut_table_name req in
  do! _ := d_result (validate_table_name_simple t) in
  do! _ := d_result (validate_update_table_body req) in
  do! entry := cached_or t (DdlError_ResourceNotFound ("Table not found: " +:+ t)) in
  do! _ := d_result (check_deletes t entry (gsi_deletes req)) in
  do! new := d_result (new_gsi_specs req entry) in
  do! _ := checkout in
  do! removals := transaction (update_in_tx req entry new) in
  do! _ := spawn (map (fun g => SpawnLifecycle (gsi_id t (gs_name g))) new ++ map SpawnRemoval removals) in
  do! _ := invalidate in
  do! entry' := cached_or t (DdlError_Internal ("post-UpdateTable catalog miss for `" +:+ t +:+ "`")) in
  d_ret (synthesize_description entry').

(** [impl DdlBackend for PgDdlBackend]. *)
#[export] Instance pg_ddl_backend : DdlBackend (DdlWorld Phys) := {
  ddl_create_table := create_table;
  ddl_delete_table := delete_table;
  ddl_update_table := update_table;
  catalog_of := dw_catalog
}.
End ddl.
