(* ===== verification/DdlCorrect.v ===== *)
(** * What the control plane guarantees

    CreateTable, DeleteTable and UpdateTable for every pattern of failing
    calls: each is done whole or not at all, the metadata row and the
    schema together, and what happens when nothing fails. *)

From S2P Require Import Prelude RustStr BTree Json Storage Schema Catalog Reconciler ApiError.
From S2P Require Import DdlTypes Naming Validation ValidationSpec CreateTable TableSpecs DdlHandlers.
From S2P Require Import GsiState Backfill GsiWorkers Ddl.

(** ** A small program logic *)

(** A world without the number of calls made. *)
Record Snap (Phys : Type) : Type := mkSnap {
  sn_states : list GsiRow;
  sn_tables : list MetadataRow;
  sn_phys : Phys;
  sn_catalog : CatalogSnapshot;
  sn_spawned : list Spawned
}.
Arguments mkSnap {Phys}.
Arguments sn_states {Phys}.
Arguments sn_tables {Phys}.
Arguments sn_phys {Phys}.
Arguments sn_catalog {Phys}.
Arguments sn_spawned {Phys}.

Definition snap {Phys} (w : DdlWorld Phys) : Snap Phys :=
  mkSnap (gw_states (dw_db w)) (gw_tables (dw_db w)) (gw_phys (dw_db w)) (dw_catalog w) (dw_spawned w).

Definition sn_with_tables {Phys} (rows : list MetadataRow) (s : Snap Phys) : Snap Phys :=
  mkSnap (sn_states s) rows (sn_phys s) (sn_catalog s) (sn_spawned s).
Definition sn_with_phys {Phys} (p : Phys) (s : Snap Phys) : Snap Phys :=
  mkSnap (sn_states s) (sn_tables s) p (sn_catalog s) (sn_spawned s).
Definition sn_with_states {Phys} (rows : list GsiRow) (s : Snap Phys) : Snap Phys :=
  mkSnap rows (sn_tables s) (sn_phys s) (sn_catalog s) (sn_spawned s).
(** What a transaction does not touch. *)
Definition outside {Phys} (s : Snap Phys) : CatalogSnapshot * list Spawned := (sn_catalog s, sn_spawned s).

Section logic.
Context {Phys : Type} {GS : GsiServer Phys} {DS : DdlServer Phys} (env : Faults).
#[local] Notation World := (DdlWorld Phys).

(** [Q] after success, [E] after a failure. *)
Definition wpd {A} (m : D (Phys := Phys) A) (Q : A -> World -> Prop) (E : World -> Prop) (w : World) : Prop :=
  match m w with
  | (Ok a, w') => Q a w'
  | (_, w') => E w'
  end.

Lemma wpd_bind {A B} (m : D A) (f : A -> D B) Q E w :
  wpd m (fun a w' => wpd (f a) Q E w') E w -> wpd (d_bind m f) Q E w.
Proof. unfold wpd, d_bind. destruct (m w) as [[a|e|] w']; auto. Qed.

Lemma wpd_ret {A} (a : A) Q E w : Q a w -> wpd (d_ret a) Q E w.
Proof. done. Qed.

Lemma wpd_result {A} (r : Result DdlError A) (Q : A -> World -> Prop) (E : World -> Prop) w :
  (forall a, r = Ok a -> Q a w) -> E w -> wpd (d_result r) Q E w.
Proof. intros HQ HE. unfold wpd, d_result. destruct r; auto. Qed.

Lemma wpd_mono {A} (m : D A) (Q Q' : A -> World -> Prop) (E E' : World -> Prop) w :
  wpd m Q E w -> (forall a w', Q a w' -> Q' a w') -> (forall w', E w' -> E' w') -> wpd m Q' E' w.
Proof. unfold wpd. destruct (m w) as [[a|e|] w']; auto. Qed.

Lemma wpd_call {A} conv (f : Z -> GsiWorld Phys -> (string + A) * GsiWorld Phys) Q (E : World -> Prop) w :
  (forall w', snap w' = snap w -> E w') ->
  (forall now, match f now (dw_db w) with
               | (inl _, _) => True
               | (inr a, db) => forall w', snap w' = snap (with_db w db) -> Q a w'
               end) -> wpd (on_db conv (call env f)) Q E w.
Proof.
  intros HE HQ. unfold wpd, on_db, call. destruct (fault env _); [by apply HE|].
  specialize (HQ (clock env (gw_calls (dw_db w)))). destruct (f _ _) as [[e|a] db]; [by apply HE|by apply HQ].
Qed.

Lemma wpd_or_rollback {A} conv (f : Z -> GsiWorld Phys -> (string + A) * GsiWorld Phys) Q (E : World -> Prop) w :
  (forall w', snap w' = snap w -> E w') ->
  (forall now, match f now (dw_db w) with
               | (inl _, _) => True
               | (inr a, db) => forall w', snap w' = snap (with_db w db) -> Q a w'
               end) -> wpd (or_rollback env (call env f) conv) Q E w.
Proof.
  intros HE HQ. assert (Hroll : forall e w', snap w' = snap w -> wpd (rollback env (A := A) e) Q E w').
  { intros e w' Hw. apply wpd_bind, wpd_call; [intros; apply HE; congruence|]. intros _ w2 Hw2.
    apply HE. rewrite Hw2. exact Hw. }
  unfold wpd at 1, or_rollback, call. destruct (fault env _); [by apply Hroll|].
  specialize (HQ (clock env (gw_calls (dw_db w)))). destruct (f _ _) as [[e|a] db]; [by apply Hroll|by apply HQ].
Qed.

(** A statement that changes nothing: the lock, the checkout. *)
Lemma wpd_lock conv Q (E : World -> Prop) w :
  (forall w', snap w' = snap w -> E w') -> (forall w', snap w' = snap w -> Q tt w') ->
  wpd (on_db conv (lock_table env)) Q E w.
Proof. intros HE HQ. by apply wpd_call. Qed.

Lemma wpd_now Q (E : World -> Prop) w : (forall now, Q now w) -> wpd (now_ms env) Q E w.
Proof. intros HQ. apply HQ. Qed.

(** The statements on the metadata rows and on the schema. *)
Section statements.
Variables (Q : unit -> World -> Prop) (E : World -> Prop) (w : World).
Hypothesis (HE : forall w', snap w' = snap w -> E w').

Lemma wpd_update_rows conv f now :
  (forall rows, f now (sn_tables (snap w)) = inr rows ->
     forall w', snap w' = sn_with_tables rows (snap w) -> Q tt w') ->
  wpd (on_db conv (update_rows env f now)) Q E w.
Proof.
  intros HQ. apply wpd_call; [done|]. intros _. cbn in HQ. destruct (f now _) as [e|rows]; [done|].
  intros w' Hw. by eapply HQ.
Qed.

Lemma wpd_update_rows_rb conv f now :
  (forall rows, f now (sn_tables (snap w)) = inr rows ->
     forall w', snap w' = sn_with_tables rows (snap w) -> Q tt w') ->
  wpd (or_rollback env (update_rows env f now) conv) Q E w.
Proof.
  intros HQ. apply wpd_or_rollback; [done|]. intros _. cbn in HQ. destruct (f now _) as [e|rows]; [done|].
  intros w' Hw. by eapply HQ.
Qed.

Lemma wpd_batch conv sql :
  (rejects sql (sn_phys (snap w)) = None ->
     forall w', snap w' = sn_with_phys (ddl sql (sn_phys (snap w))) (snap w) -> Q tt w') ->
  wpd (on_db conv (batch_execute env sql)) Q E w.
Proof.
  intros HQ. apply wpd_call; [done|]. intros _. cbn in HQ. destruct (rejects sql _) as [e|]; [done|].
  intros w' Hw. by apply HQ.
Qed.

Lemma wpd_batch_rb conv sql :
  (rejects sql (sn_phys (snap w)) = None ->
     forall w', snap w' = sn_with_phys (ddl sql (sn_phys (snap w))) (snap w) -> Q tt w') ->
  wpd (or_rollback env (batch_execute env sql) conv) Q E w.
Proof.
  intros HQ. apply wpd_or_rollback; [done|]. intros _. cbn in HQ. destruct (rejects sql _) as [e|]; [done|].
  intros w' Hw. by apply HQ.
Qed.
End statements.

Lemma wpd_transaction {A} (body : D A) Q (E : World -> Prop) w :
  (forall w', snap w' = snap w -> E w') ->
  (forall w0, snap w0 = snap w ->
     wpd body (fun a w1 => outside (snap w1) = outside (snap w) /\ forall w', snap w' = snap w1 -> Q a w' /\ E w')
       (fun w1 => outside (snap w1) = outside (snap w)) w0) ->
  wpd (transaction env body) Q E w.
Proof.
  intros HE HB. unfold transaction. apply wpd_bind, wpd_lock; [done|]. intros w0 Hw0. specialize (HB w0 Hw0).
  assert (Hundo : forall w1 n, outside (snap w1) = outside (snap w) -> E (undo w0 w1 n)).
  { intros w1 n Ho. apply HE. unfold undo, snap, with_db, outside in *. cbn in *. congruence. }
  unfold wpd in *. destruct (body w0) as [[a|e|] w1]; [|by apply Hundo..]. destruct HB as [Ho HB].
  destruct (fault env (gw_calls (dw_db w1))); [|by apply HB].
  destruct (applied env (gw_calls (dw_db w1))); [by apply HB|]. by apply Hundo.
Qed.
End logic.

(** A pass of the reconciler between two snapshots. *)
Section reconcile.
Context {Phys : Type} {GS : GsiServer Phys} {DS : DdlServer Phys} (env : Faults).

Definition reconciled (s s' : Snap Phys) (r : Result CatalogError nat) : Prop :=
  sn_states s' = sn_states s /\ sn_phys s' = sn_phys s /\ sn_spawned s' = sn_spawned s
  /\ exists n, reconcile_now (answers n (sn_phys s)) entries_order (clock env n) (mkWorld (sn_tables s) (sn_catalog s))
               = (mkWorld (sn_tables s') (sn_catalog s'), r).

Lemma wpd_reconcile (Q : unit -> DdlWorld Phys -> Prop) (E : DdlWorld Phys -> Prop) w :
  (forall w' n, reconciled (snap w) (snap w') (Ok n) -> Q tt w') ->
  (forall w' r, is_ok r = false -> reconciled (snap w) (snap w') r -> E w') ->
  wpd (reconcile env) Q E w.
Proof.
  intros HQ HE. unfold wpd, reconcile.
  destruct (reconcile_now _ _ _ _) as [[rows cat] r] eqn:Er. cbn [w_rows w_catalog].
  set (w' := mkDdlWorld _ _ _). assert (Hrec : reconciled (snap w) (snap w') r) by (do 3 (split; [done|]); by exists (gw_calls (dw_db w))).
  destruct r as [n|e|]; [by eapply HQ|eapply HE; [|exact Hrec]; done..].
Qed.

Lemma reconcile_rows_next pg now l : forall p p' n,
  reconcile_rows pg now p l = (p', Ok tt) -> (is_Some (ps_next p' !! n) <-> n ∈ l.*1 \/ is_Some (ps_next p !! n)).
Proof.
  induction l as [|[k e] l IH]; intros p p' n; cbn [reconcile_rows].
  { intros [= <-]. cbn. rewrite elem_of_nil. tauto. }
  intros H. assert (Hone : forall q u, reconcile_row pg now p (k, e) = (q, Ok u) -> exists e', ps_next q = <[k := e']> (ps_next p)).
  { intros q u. unfold reconcile_row. destruct (negb _); [intros [= <-]; by eexists|].
    destruct (introspect pg e) as [v|[]|]; try (intros [= <-]; by eexists). all: try done.
    case_bool_decide; [intros [= <-]; by eexists|]. destruct (update_verdict pg _); [done|]. intros [= <-]. by eexists. }
  destruct (reconcile_row pg now p (k, e)) as [q [u| |]] eqn:Eq; [|done..].
  destruct (Hone q u eq_refl) as [e' Hq]. rewrite (IH _ _ n H), Hq. cbn. rewrite elem_of_cons.
  destruct (decide (n = k)) as [->|Hne]; [rewrite lookup_insert_eq; naive_solver|].
  rewrite lookup_insert_ne by done. naive_solver.
Qed.

Lemma load_rows_all_ok rows m r : load_rows rows = Ok m -> r ∈ rows -> is_ok (row_to_entry r) = true.
Proof.
  unfold load_rows. generalize (∅ : gmap string TableEntry). induction rows as [|r0 rows IH]; intros m0 H Hr.
  { by apply elem_of_nil in Hr. }
  cbn [fold_result] in H. destruct (row_to_entry r0) eqn:E; [|done..].
  apply elem_of_cons in Hr as [->|Hr]; [by rewrite E|by eapply IH].
Qed.

(** After a successful pass the tables cached are those with a row. *)
Lemma reconciled_cached s s' n t :
  reconciled s s' (Ok n) -> NoDup (map mr_table_name (sn_tables s)) ->
  is_Some (catalog_get (sn_catalog s') t) <-> t ∈ map mr_table_name (sn_tables s).
Proof.
  intros (_ & _ & _ & k & H) Hnd. unfold reconcile_now in H. cbn [w_rows] in H.
  destruct (Reconciler.pool_get _); [done|]. destruct (load_snapshot _ _) as [m| |] eqn:Hm; [|done..].
  assert (Hload : load_rows (sn_tables s) = Ok m).
  { unfold load_snapshot in Hm. destruct (pool_get_load _); [done|]. by destruct (select_all _). }
  destruct (reconcile_rows _ _ _ _) as [p [[]| |]] eqn:Ep; [|done..]. injection H as _ H _. rewrite <- H. cbn.
  rewrite (reconcile_rows_next _ _ _ _ _ t Ep), (entries_order_perm m). cbn [ps_next]. rewrite lookup_empty. split.
  - intros [([t' e] & -> & He%elem_of_map_to_list)%list_elem_of_fmap|[? [=]]].
    apply (load_rows_spec _ _ Hload Hnd) in He as (r & Hr & <- & _). by apply (list_elem_of_fmap_2 mr_table_name).
  - intros (r & -> & Hr)%list_elem_of_fmap. left. pose proof (load_rows_all_ok _ _ r Hload Hr) as Hok.
    destruct (row_to_entry r) as [e| |] eqn:Er; [|done..]. apply list_elem_of_fmap. exists (mr_table_name r, e). split; [done|].
    apply elem_of_map_to_list, (load_rows_spec _ _ Hload Hnd). by exists r.
Qed.

(** A pass keeps the names of the rows. *)
Lemma reconciled_names s s' r :
  reconciled s s' r -> NoDup (map mr_table_name (sn_tables s)) ->
  map mr_table_name (sn_tables s') = map mr_table_name (sn_tables s).
Proof.
  intros (_ & _ & _ & k & H) Hnd.
  pose proof (reconcile_frame (answers k (sn_phys s)) entries_order (clock env k) (mkWorld (sn_tables s) (sn_catalog s))
    Hnd entries_order_perm) as Hf. rewrite H in Hf. destruct Hf as [Hf _]. cbn [w_rows] in Hf. clear H Hnd.
  induction Hf as [|x y l k' Hxy Hl IH]; [done|]. cbn. f_equal; [by apply row_frame_name in Hxy|exact IH].
Qed.
End reconcile.

(** ** CreateTable *)

Section create.
Context {SH : Sha1} {SI : SetIter} {Phys : Type} {GS : GsiServer Phys} {DS : DdlServer Phys}.
Context (env : Faults) (inv : bool).

Section plan.
Variable (plan : CreateTablePlan).
#[local] Notation pg := (derive_pg_table plan).
#[local] Notation sql := (create_table_sql plan pg).

Definition created_row (now : Z) : MetadataRow := set_active now (creating_row plan pg now).
Definition created (now : Z) (s : Snap Phys) : Snap Phys :=
  mkSnap (sn_states s) (sn_tables s ++ [created_row now]) (ddl sql (sn_phys s)) (sn_catalog s) (sn_spawned s).

(** Nothing stands in the way of the table. *)
Record creatable (s : Snap Phys) : Prop := {
  cr_relation : relation_exists pg (sn_phys s) = false;
  cr_rows : forall r, r ∈ sn_tables s -> mr_table_name r <> cp_table_name plan /\ mr_pg_table r <> pg;
  cr_sql : rejects sql (sn_phys s) = None
}.

Lemma where_table_other t f rows : (forall r, r ∈ rows -> mr_table_name r <> t) -> where_table t f rows = rows.
Proof.
  intros H. unfold where_table. rewrite <- (map_id rows) at 2. apply map_ext_in. intros r Hr.
  destruct (String.eqb_spec (mr_table_name r) t); [|done]. destruct (H r); [by apply list_elem_of_In|done].
Qed.

Lemma insert_row_fresh c r rows :
  insert_row c r rows = inr (rows ++ [r]) /\ (forall r', r' ∈ rows -> mr_table_name r' <> mr_table_name r /\ mr_pg_table r' <> mr_pg_table r)
  \/ insert_row c r rows = inl c /\ exists r', r' ∈ rows /\ (mr_table_name r' = mr_table_name r \/ mr_pg_table r' = mr_pg_table r).
Proof.
  unfold insert_row. destruct (existsb _ rows) eqn:E.
  - right. split; [done|]. apply existsb_exists in E as (r' & Hr & [H%String.eqb_eq|H%String.eqb_eq]%orb_prop);
      exists r'; rewrite list_elem_of_In; auto.
  - left. split; [done|]. intros r' Hr. split; intros Heq.
    all: assert (existsb (fun r' => String.eqb (mr_table_name r') (mr_table_name r) || String.eqb (mr_pg_table r') (mr_pg_table r)) rows = true)
           as H; [|congruence]; apply existsb_exists; exists r'; rewrite <- list_elem_of_In, Heq, String.eqb_refl, ?orb_true_r; done.
Qed.

Lemma create_in_tx_spec w0 :
  wpd (create_in_tx env plan pg) (fun _ w1 => exists now, creatable (snap w0) /\ snap w1 = created now (snap w0))
    (fun w1 => outside (snap w1) = outside (snap w0)) w0.
Proof.
  assert (HE : forall w w' : DdlWorld Phys, outside (snap w) = outside (snap w0) -> snap w' = snap w ->
                 outside (snap w') = outside (snap w0)) by (intros w w' Ho ->; exact Ho).
  unfold create_in_tx. apply wpd_bind, wpd_lock; [by intros; eapply HE|]. intros w1 H1.
  apply wpd_bind, wpd_call; [by intros; eapply HE; [rewrite H1|]|]. intros _ w2 H2.
  change (gw_phys (dw_db w1)) with (sn_phys (snap w1)). rewrite H1.
  assert (S2 : snap w2 = snap w0) by (rewrite H2; exact H1). clear H1 H2 w1.
  destruct (relation_exists pg _) eqn:Erel.
  { apply wpd_bind, wpd_lock; intros w' Hw; eapply HE; [rewrite S2|exact Hw|rewrite S2|exact Hw]; done. }
  apply wpd_bind, wpd_now. intros now.
  apply wpd_bind, wpd_update_rows_rb; [by intros; eapply HE; [rewrite S2|]|]. rewrite S2. intros rows Hrows w3 H3.
  destruct (insert_row_fresh conflict_message (creating_row plan pg now) (sn_tables (snap w0))) as [[Hi Hfresh]|[Hi _]];
    rewrite Hi in Hrows; [injection Hrows as <-|done].
  apply wpd_bind, wpd_batch_rb; [by intros; eapply HE; [rewrite H3|]|]. rewrite H3. intros Hrej w4 H4.
  apply wpd_update_rows_rb; [by intros; eapply HE; [rewrite H4|]|]. rewrite H4. intros rows [= <-] w5 ->.
  exists now. split; [by constructor|]. unfold created, sn_with_tables, sn_with_phys. cbn. f_equal.
  unfold where_table. rewrite map_app. f_equal; [|cbn; by rewrite String.eqb_refl].
  apply where_table_other. intros r Hr. by apply Hfresh.
Qed.
End plan.

(** CreateTable done: the row and the schema, then a pass of the
    reconciler. *)
Definition create_done (req : CreateTableRequest) (s : Snap Phys) (P : CreateTablePlan -> Snap Phys -> Prop) : Prop :=
  exists plan now, validate_create_table req = Ok plan /\ catalog_get (sn_catalog s) (cp_table_name plan) = None
                   /\ creatable plan s /\ P plan (created plan now s).

Lemma create_table_spec req w :
  NoDup (map mr_table_name (sn_tables (snap w))) ->
  wpd (create_table env inv req)
    (fun d w' => inv = true /\ create_done req (snap w) (fun plan s => exists n e,
       reconciled env s (snap w') (Ok n) /\ catalog_get (dw_catalog w') (cp_table_name plan) = Some e
       /\ d = synthesize_description e))
    (fun w' => snap w' = snap w \/ create_done req (snap w) (fun plan s =>
       snap w' = s \/ inv = true /\ exists r, is_ok r = false /\ reconciled env s (snap w') r)) w.
Proof.
  intros Hnd. unfold create_table. apply wpd_bind, wpd_result; [|by left]. intros plan Hplan.
  apply wpd_bind. unfold wpd at 1, cached. change (dw_catalog w) with (sn_catalog (snap w)).
  case_bool_decide as Hex; [by left|].
  assert (Hnone : catalog_get (sn_catalog (snap w)) (cp_table_name plan) = None) by (by apply eq_None_not_Some).
  apply wpd_bind, wpd_lock; [by intros; left|]. intros w1 H1.
  apply wpd_bind, wpd_transaction; [intros; left; congruence|]. intros w2 H2.
  eapply wpd_mono; [apply create_in_tx_spec| |by rewrite H2]. rewrite H2, H1.
  intros [] w3 (now & Hcr & H3). split; [by rewrite H3|]. intros w4 H4. rewrite H3 in H4. clear w1 H1 w2 H2 w3 H3.
  split; [|right; exists plan, now; by auto].
  apply wpd_bind. unfold invalidate. destruct inv.
  - apply wpd_reconcile; rewrite H4.
    + intros w5 n Hrec.
      assert (Hnd' : NoDup (map mr_table_name (sn_tables (created plan now (snap w))))).
      { cbn. rewrite map_app. apply NoDup_app. split; [done|]. split; [|apply NoDup_singleton].
        intros x Hx ->%list_elem_of_singleton. apply list_elem_of_fmap in Hx as (r & Heq & Hr).
        by destruct (cr_rows _ _ Hcr r Hr). }
      destruct (proj2 (reconciled_cached env _ _ n (cp_table_name plan) Hrec Hnd')) as [e He].
      * cbn. rewrite map_app. apply elem_of_app. right. by apply list_elem_of_singleton.
      * change (catalog_get (dw_catalog w5) (cp_table_name plan) = Some e) in He.
        apply wpd_bind, wpd_bind. unfold wpd at 1, cached. rewrite He. cbn [ok_or]. apply wpd_ret. split; [done|].
        exists plan, now. split_and!; [done..|]. by exists n, e.
    + intros w5 r Hr Hrec. right. exists plan, now. split_and!; [done..|]. right. by eauto.
  - apply wpd_ret, wpd_bind, wpd_bind. unfold wpd at 1, cached. change (dw_catalog w4) with (sn_catalog (snap w4)).
    rewrite H4. cbn [created sn_catalog]. rewrite Hnone. right. exists plan, now. split_and!; [done..|]. by left.
Qed.
End create.

(** C3: whatever calls fail, CreateTable happens whole or not at all. It
    answers with a description only when a valid request for a free name
    led to the row, ACTIVE and serveable, and its schema in one
    transaction, and the reconciler then cached the table it describes.
    When it fails, nothing has changed, or (the reply to the COMMIT was
    lost, the pass failed, or passes after a local DDL are switched off)
    the table has been created nevertheless. A pass that succeeds always
    finds the new table. *)
Theorem create_table_atomic {SH : Sha1} {SI : SetIter} {Phys} {GS : GsiServer Phys} {DS : DdlServer Phys} env inv req
    (w : DdlWorld Phys) :
  NoDup (map mr_table_name (gw_tables (dw_db w))) ->
  let '(r, w') := create_table env inv req w in
  match r with
  | Ok d => inv = true /\ create_done req (snap w) (fun plan s => exists n e,
       reconciled env s (snap w') (Ok n) /\ catalog_get (dw_catalog w') (cp_table_name plan) = Some e
       /\ d = synthesize_description e)
  | _ => snap w' = snap w \/ create_done req (snap w) (fun plan s =>
       snap w' = s \/ inv = true /\ exists rr, is_ok rr = false /\ reconciled env s (snap w') rr)
  end.
Proof.
  intros Hnd. pose proof (create_table_spec env inv req w Hnd) as H. unfold wpd in H.
  destruct (create_table env inv req w) as [[d|e|] w']; exact H.
Qed.

(** ** When nothing fails *)

Section quiet.
Context {Phys : Type} {GS : GsiServer Phys} {DS : DdlServer Phys} (env : Faults).
Hypothesis (Hquiet : forall n, fault env n = None).
#[local] Notation World := (DdlWorld Phys).
#[local] Notation never := (fun _ : World => False).

Lemma calm_call {A} conv (f : Z -> GsiWorld Phys -> (string + A) * GsiWorld Phys) (Q : A -> World -> Prop) w :
  (forall now, match f now (dw_db w) with
               | (inl _, _) => False
               | (inr a, db) => forall w', snap w' = snap (with_db w db) -> Q a w'
               end) ->
  wpd (on_db conv (call env f)) Q never w /\ forall conv', wpd (or_rollback env (call env f) conv') Q never w.
Proof.
  intros HQ. unfold wpd, on_db, or_rollback, call. rewrite Hquiet. specialize (HQ (clock env (gw_calls (dw_db w)))).
  destruct (f _ _) as [[e|a] db]; [done|]. split; [by apply HQ|]. intros _. by apply HQ.
Qed.

Lemma calm_lock conv (Q : unit -> World -> Prop) w :
  (forall w', snap w' = snap w -> Q tt w') -> wpd (on_db conv (lock_table env)) Q never w.
Proof. intros HQ. by apply calm_call. Qed.

Lemma calm_update_rows f now rows (Q : unit -> World -> Prop) w :
  f now (sn_tables (snap w)) = inr rows -> (forall w', snap w' = sn_with_tables rows (snap w) -> Q tt w') ->
  (forall conv, wpd (on_db conv (update_rows env f now)) Q never w)
  /\ forall conv, wpd (or_rollback env (update_rows env f now) conv) Q never w.
Proof.
  intros Hf HQ. cbn in Hf.
  split; intros conv; apply (calm_call postgres_error) || apply calm_call; intros _; cbv beta; rewrite Hf; intros w' Hw; by apply HQ.
Qed.

Lemma calm_batch sql (Q : unit -> World -> Prop) w :
  rejects sql (sn_phys (snap w)) = None ->
  (forall w', snap w' = sn_with_phys (ddl sql (sn_phys (snap w))) (snap w) -> Q tt w') ->
  (forall conv, wpd (on_db conv (batch_execute env sql)) Q never w)
  /\ forall conv, wpd (or_rollback env (batch_execute env sql) conv) Q never w.
Proof.
  intros Hf HQ. cbn in Hf.
  split; intros conv; apply (calm_call postgres_error) || apply calm_call; intros _; cbv beta; rewrite Hf; intros w' Hw; by apply HQ.
Qed.

Lemma calm_transaction {A} (body : D A) (Q : A -> World -> Prop) w :
  (forall w0, snap w0 = snap w -> wpd body (fun a w1 => forall w', snap w' = snap w1 -> Q a w') never w0) ->
  wpd (transaction env body) Q never w.
Proof.
  intros HB. unfold transaction. apply wpd_bind, calm_lock. intros w0 Hw0. specialize (HB w0 Hw0).
  unfold wpd in *. destruct (body w0) as [[a|e|] w1]; [|done..]. rewrite Hquiet. by apply HB.
Qed.
End quiet.

Section create_quiet.
Context {SH : Sha1} {SI : SetIter} {Phys : Type} {GS : GsiServer Phys} {DS : DdlServer Phys}.
Context (env : Faults) (Hquiet : forall n, fault env n = None).
Context (req : CreateTableRequest) (plan : CreateTablePlan) (Hplan : validate_create_table req = Ok plan).
#[local] Notation pg := (derive_pg_table plan).

Lemma created_row_entry now : row_to_entry (created_row plan now) = Ok (entry_for_new_table now plan).
Proof.
  apply accepted_of_valid in Hplan as Hacc. pose proof (ra_sk_type _ _ Hacc) as Hsk.
  unfold row_to_entry, created_row, set_active, creating_row, entry_for_new_table.
  cbn [mr_table_name mr_status mr_pk_type mr_sk_type mr_sk_attr mr_lsi_specs mr_gsi_specs].
  change (parse_status "ACTIVE") with (Some TableStatus_Active). cbn [ok_or].
  rewrite parse_key_type_str. unfold gsi_specs_from_json, gsi_specs_to_json, lsi_specs_from_json, lsi_specs_to_json.
  rewrite (specs_round_trip _ _ _ _ _ (gsi_spec_round_trip _)), (specs_round_trip _ _ _ _ _ (lsi_spec_round_trip _)).
  destruct (cp_sk_attr plan) as [a|], (cp_sk_type plan) as [k|]; cbn in Hsk; try done; cbn; rewrite ?parse_key_type_str; done.
Qed.

Lemma calm_create_in_tx w0 :
  creatable plan (snap w0) ->
  wpd (create_in_tx env plan pg) (fun _ w1 => exists now, snap w1 = created plan now (snap w0)) (fun _ => False) w0.
Proof.
  intros Hcr. unfold create_in_tx. apply wpd_bind, (calm_lock env Hquiet). intros w1 H1.
  apply wpd_bind, (calm_call env Hquiet). intros _ w2 H2. change (gw_phys (dw_db w1)) with (sn_phys (snap w1)).
  assert (S2 : snap w2 = snap w0) by (rewrite H2; exact H1).
  rewrite H1, (cr_relation _ _ Hcr). apply wpd_bind, wpd_now. intros now.
  destruct (insert_row_fresh conflict_message (creating_row plan pg now) (sn_tables (snap w0))) as [[Hi _]|[_ (r & Hr & Heq)]].
  2: { exfalso. destruct (cr_rows _ _ Hcr r Hr). by destruct Heq. }
  apply wpd_bind, (calm_update_rows env Hquiet _ _ (sn_tables (snap w0) ++ [creating_row plan pg now])); [by rewrite S2|].
  rewrite S2. intros w3 H3. apply wpd_bind, (calm_batch env Hquiet); rewrite H3; [apply Hcr|]. intros w4 H4.
  eapply (calm_update_rows env Hquiet); [reflexivity|]. rewrite H4. intros w5 ->.
  exists now. unfold created, sn_with_tables, sn_with_phys. cbn. f_equal.
  unfold where_table. rewrite map_app. f_equal; [|cbn; by rewrite String.eqb_refl].
  apply where_table_other. intros r Hr. by apply (cr_rows _ _ Hcr).
Qed.

Lemma calm_create_table inv (Q : TableDescription -> DdlWorld Phys -> Prop) E w :
  catalog_get (dw_catalog w) (cp_table_name plan) = None -> creatable plan (snap w) ->
  (forall w1 now, snap w1 = created plan now (snap w) ->
     wpd (d_bind (invalidate env inv) (fun _ =>
            d_bind (cached_or (cp_table_name plan) (DdlError_Internal ("post-CreateTable catalog miss for `"
                      +:+ cp_table_name plan +:+ "` — reconcile bug?")))
              (fun entry => d_ret (synthesize_description entry)))) Q E w1) ->
  wpd (create_table env inv req) Q E w.
Proof.
  intros Hnone Hcr HQ. unfold create_table. rewrite Hplan. apply wpd_bind. unfold wpd at 1, d_result.
  apply wpd_bind. unfold wpd at 1, cached. rewrite Hnone. rewrite bool_decide_false by (by intros []).
  apply wpd_bind. eapply (wpd_mono _ (fun _ w' => snap w' = snap w) _ (fun _ => False)); [by apply (calm_lock env Hquiet)| |done].
  intros [] w1 H1. apply wpd_bind.
  eapply (wpd_mono _ (fun _ w' => exists now, snap w' = created plan now (snap w)) _ (fun _ => False));
    [|intros [] w2 [now H2]; by eapply HQ|done].
  apply (calm_transaction env Hquiet). intros w2 H2.
  eapply wpd_mono; [apply calm_create_in_tx; by rewrite H2, H1| |done].
  intros [] w3 [now H3] w4 ->. exists now. by rewrite H3, H2, H1.
Qed.
End create_quiet.

(** C31: when no call fails, CreateTable of an accepted request with plain
    lower-case column names and a free name leaves the table cached, ACTIVE
    and serveable with every index serveable, and answers its description.
    With [invalidate_on_local_ddl] off the table is created all the same,
    and the answer is an error. *)
Theorem create_table_served {SH : Sha1} {SI : SetIter} {Phys} {GS : GsiServer Phys} {DS : DdlServer Phys} env req plan
    (w : DdlWorld Phys) :
  (forall n, fault env n = None) -> validate_create_table req = Ok plan ->
  catalog_get (dw_catalog w) (cp_table_name plan) = None -> creatable plan (snap w) -> rows_ok (gw_tables (dw_db w)) ->
  (forall n, pg_up (answers n (ddl (create_table_sql plan (derive_pg_table plan)) (gw_phys (dw_db w))))
             /\ pg_created (answers n (ddl (create_table_sql plan (derive_pg_table plan)) (gw_phys (dw_db w)))) plan) ->
  cp_sk_attr plan <> Some (cp_pk_attr plan) -> "data" ∉ column_names plan ->
  (forall a, a ∈ column_names plan -> server_identifier a = a) ->
  (String.length (derive_pg_table plan) <= 45)%nat ->
  (exists now w', let e := entry_for_new_table now plan in
     create_table env true req w = (Ok (synthesize_description e), w')
     /\ catalog_get (dw_catalog w') (cp_table_name plan) = Some e)
  /\ (exists now w' r, create_table env false req w = (r, w') /\ is_ok r = false /\ snap w' = created plan now (snap w)).
Proof.
  intros Hq Hplan Hnone Hcr Hok Hpg Hkeys Hdata Hplain Hlen. split.
  - assert (Hw : wpd (create_table env true req) (fun d w' => exists now, d = synthesize_description (entry_for_new_table now plan)
       /\ catalog_get (dw_catalog w') (cp_table_name plan) = Some (entry_for_new_table now plan)) (fun _ => False) w).
    { apply (calm_create_table env Hq req plan Hplan); [done..|]. intros w1 now H1.
      apply wpd_bind. unfold invalidate, wpd at 1, reconcile.
      change (gw_tables (dw_db w1)) with (sn_tables (snap w1)). change (gw_phys (dw_db w1)) with (sn_phys (snap w1)).
      set (n := gw_calls (dw_db w1)). rewrite H1. cbn [sn_tables sn_phys created snap].
      destruct (Hpg n) as [Hup Hcreated]. set (ans := answers n _) in *.
      destruct (reconcile_pass ans (clock env n) entries_order (mkWorld (gw_tables (dw_db w) ++ [created_row plan now]) (dw_catalog w1))
        Hup) as (next & -> & Hnext); [|apply entries_order_perm|].
      { cbn [w_rows]. destruct Hok as [Hnd Hall]. split.
        - rewrite map_app. apply NoDup_app. split; [done|]. split; [|apply NoDup_singleton].
          intros x Hx ->%list_elem_of_singleton. apply list_elem_of_fmap in Hx as (r & Heq & Hr).
          by destruct (cr_rows _ _ Hcr r Hr).
        - apply Forall_app. split; [done|]. constructor; [|done]. by rewrite (created_row_entry req). }
      assert (He : next !! cp_table_name plan = Some (entry_for_new_table now plan)).
      { apply Hnext. exists (created_row plan now), (entry_for_new_table now plan).
        split; [cbn [w_rows]; apply elem_of_app; right; by apply list_elem_of_singleton|].
        split; [done|]. split; [by apply (created_row_entry req)|]. unfold reconciled_entry.
        change (is_reconciler_owned _) with true. cbv iota.
        rewrite (fresh_table_served req plan now ans Hplan Hcreated Hkeys Hdata Hplain Hlen).
        symmetry. by eapply (new_entry_id (created_row plan now)), (created_row_entry req). }
      apply wpd_bind, wpd_bind. unfold wpd at 1, cached. cbn [dw_catalog w_catalog]. unfold catalog_get at 1. cbn [from_entries cs_entries].
      rewrite He. cbn [ok_or]. apply wpd_ret. by exists now. }
    unfold wpd in Hw. destruct (create_table env true req w) as [[d|e|] w']; [|done..].
    destruct Hw as (now & -> & Hc). by exists now, w'.
  - assert (Hw : wpd (create_table env false req) (fun d w' => False) (fun w' => exists now, snap w' = created plan now (snap w)) w).
    { apply (calm_create_table env Hq req plan Hplan); [done..|]. intros w1 now H1.
      apply wpd_bind. unfold invalidate. apply wpd_ret, wpd_bind, wpd_bind. unfold wpd at 1, cached.
      change (dw_catalog w1) with (sn_catalog (snap w1)). rewrite H1. cbn [created sn_catalog snap]. rewrite Hnone. by exists now. }
    unfold wpd in Hw. destruct (create_table env false req w) as [[d|e|] w']; [done|..];
      destruct Hw as [now Hw]; exists now, w'; by eexists.
Qed.

(** ** DeleteTable *)

Lemma NoDup_map_filter {A B} (f : A -> B) (p : A -> bool) l : NoDup (map f l) -> NoDup (map f (List.filter p l)).
Proof.
  induction l as [|x l IH]; [done|]. intros [Hx Hnd]%NoDup_cons. cbn [List.filter]. destruct (p x); [|by apply IH].
  cbn. apply NoDup_cons. split; [|by apply IH]. intros (y & Heq & Hy)%list_elem_of_fmap. apply Hx. rewrite Heq.
  apply (list_elem_of_fmap_2 f), list_elem_of_In. by apply list_elem_of_In, filter_In in Hy as [? _].
Qed.

Section delete.
Context {SH : Sha1} {SI : SetIter} {Phys : Type} {GS : GsiServer Phys} {DS : DdlServer Phys}.
Context (env : Faults) (inv : bool) (t : string).

Definition dropped (pg : string) (s : Snap Phys) : Snap Phys :=
  sn_with_tables (delete_row t (sn_tables s)) (sn_with_phys (ddl ("DROP TABLE IF EXISTS " +:+ pg) (sn_phys s)) s).

Lemma outside_eq (w0 w w' : DdlWorld Phys) : outside (snap w) = outside (snap w0) -> snap w' = snap w -> outside (snap w') = outside (snap w0).
Proof. intros Ho ->. exact Ho. Qed.

Lemma delete_in_tx_spec pg w0 :
  wpd (delete_in_tx env t pg) (fun _ w1 => is_Some (find_table t (sn_tables (snap w0))) /\ snap w1 = dropped pg (snap w0))
    (fun w1 => outside (snap w1) = outside (snap w0)) w0.
Proof.
  unfold delete_in_tx. apply wpd_bind, wpd_lock; [by intros; eapply outside_eq|]. intros w1 H1.
  apply wpd_bind, wpd_batch_rb; [by intros; eapply outside_eq; [rewrite H1|]|]. rewrite H1. intros _ w2 H2.
  apply wpd_bind, wpd_call; [by intros; eapply outside_eq; [rewrite H2|]|]. intros _ w3 H3.
  change (gw_tables (dw_db w2)) with (sn_tables (snap w2)).
  assert (S3 : snap w3 = dropped pg (snap w0)).
  { rewrite H3. unfold dropped. rewrite <- H2. unfold sn_with_tables, snap, with_db. cbn. f_equal.
    change (gw_tables (dw_db w2)) with (sn_tables (snap w2)). by rewrite H2. }
  rewrite H2. cbn [sn_tables sn_with_phys]. destruct (Nat.eqb_spec (length (List.filter (fun r => String.eqb (mr_table_name r) t) (sn_tables (snap w0)))) 0) as [Hz|Hnz].
  - apply wpd_bind, wpd_lock; intros w' Hw; [|apply wpd_result; [done|]]; by rewrite Hw, S3.
  - apply wpd_ret. split; [|done]. unfold find_table. destruct (List.find _ _) eqn:E; [done|]. exfalso. apply Hnz.
    destruct (List.filter _ _) as [|x l] eqn:F; [done|].
    assert (Hx : In x (x :: l)) by (by left). rewrite <- F in Hx. apply filter_In in Hx as [Hin Hx].
    by rewrite (find_none _ _ E x Hin) in Hx.
Qed.

(** A table dropped with its row, the cached entry being [e]. *)
Definition delete_done (s : Snap Phys) (P : TableEntry -> Snap Phys -> Prop) : Prop :=
  exists e, catalog_get (sn_catalog s) t = Some e /\ is_Some (find_table t (sn_tables s))
            /\ P e (dropped (pg_table (te_schema e)) s).

Lemma delete_table_spec w :
  wpd (delete_table env inv (mkDeleteTableRequest t))
    (fun d w' => delete_done (snap w) (fun e s =>
       td_table_status d = Some "DELETING" /\ td_table_name d = Some (Schema.name (te_schema e))
       /\ if inv then exists n, reconciled env s (snap w') (Ok n) else snap w' = s))
    (fun w' => snap w' = snap w \/ delete_done (snap w) (fun e s =>
       snap w' = s \/ inv = true /\ exists r, is_ok r = false /\ reconciled env s (snap w') r)) w.
Proof.
  unfold delete_table. cbn [dt_table_name]. apply wpd_bind, wpd_result; [intros _ _|by left].
  apply wpd_bind, wpd_bind. unfold wpd at 1, cached. apply wpd_result; [|by left]. intros e He.
  assert (Hget : catalog_get (dw_catalog w) t = Some e) by (destruct (catalog_get _ _); simpl in He; congruence).
  apply wpd_bind, wpd_lock; [by left|]. intros w1 H1.
  apply wpd_bind, wpd_transaction; [intros; left; congruence|]. intros w2 H2.
  eapply wpd_mono; [apply delete_in_tx_spec| |by rewrite H2]. rewrite H2, H1. intros [] w3 (Hrow & H3).
  split; [by rewrite H3|]. intros w4 H4. rewrite H3 in H4. split; [|right; exists e; by auto].
  apply wpd_bind. unfold invalidate. destruct inv.
  - apply wpd_reconcile; rewrite H4.
    + intros w5 n Hrec. apply wpd_ret. exists e. split_and!; try done. by exists n.
    + intros w5 r Hr Hrec. right. exists e. split_and!; [done..|]. right. by eauto.
  - apply wpd_ret, wpd_ret. exists e. by split_and!.
Qed.
End delete.

(** whatever calls fail, DeleteTable drops the table and deletes its
    row together or changes nothing, and an answer means both are gone from
    the database and, after a pass of the reconciler, from the catalog. The
    rows of the table's GSIs stay in the state table either way. *)
Theorem delete_table_atomic {SH : Sha1} {SI : SetIter} {Phys} {GS : GsiServer Phys} {DS : DdlServer Phys} env inv t
    (w : DdlWorld Phys) :
  NoDup (map mr_table_name (gw_tables (dw_db w))) ->
  let '(r, w') := delete_table env inv (mkDeleteTableRequest t) w in
  gw_states (dw_db w') = gw_states (dw_db w)
  /\ match r with
     | Ok d => td_table_status d = Some "DELETING" /\ find_table t (gw_tables (dw_db w')) = None
               /\ (inv = true -> catalog_get (dw_catalog w') t = None)
               /\ (exists pg, gw_phys (dw_db w') = ddl ("DROP TABLE IF EXISTS " +:+ pg) (gw_phys (dw_db w)))
     | _ => snap w' = snap w \/ (find_table t (gw_tables (dw_db w')) = None
               /\ exists pg, gw_phys (dw_db w') = ddl ("DROP TABLE IF EXISTS " +:+ pg) (gw_phys (dw_db w)))
     end.
Proof.
  intros Hnd. pose proof (delete_table_spec env inv t w) as H. unfold wpd in H.
  assert (Hgone : forall pg, t ∉ map mr_table_name (sn_tables (dropped t pg (snap w)))).
  { intros pg (r & Heq & Hr)%list_elem_of_fmap. cbn in Hr. unfold delete_row in Hr.
    apply list_elem_of_In, filter_In in Hr as [_ Hr]. by rewrite Heq, String.eqb_refl in Hr. }
  assert (Hnd' : forall pg, NoDup (map mr_table_name (sn_tables (dropped t pg (snap w))))).
  { intros pg. cbn. unfold delete_row. apply NoDup_map_filter, Hnd. }
  assert (Hnone : forall rows, t ∉ map mr_table_name rows -> find_table t rows = None).
  { intros rows Ht. unfold find_table. destruct (List.find _ rows) as [r|] eqn:E; [|done]. exfalso. apply Ht.
    apply find_some in E as [Hin <-%String.eqb_eq]. by apply (list_elem_of_fmap_2 mr_table_name), list_elem_of_In. }
  assert (Hrec : forall pg w' rr, reconciled env (dropped t pg (snap w)) (snap w') rr ->
            gw_states (dw_db w') = gw_states (dw_db w) /\ find_table t (gw_tables (dw_db w')) = None
            /\ gw_phys (dw_db w') = ddl ("DROP TABLE IF EXISTS " +:+ pg) (gw_phys (dw_db w))).
  { intros pg w' rr Hr. pose proof (reconciled_names env _ _ _ Hr (Hnd' pg)) as Hnames. destruct Hr as (Hs & Hp & _).
    split_and!; [exact Hs| |exact Hp]. apply Hnone. cbn in Hnames. rewrite Hnames. apply (Hgone pg). }
  assert (Hdrop : forall pg w', snap w' = dropped t pg (snap w) ->
            gw_states (dw_db w') = gw_states (dw_db w) /\ find_table t (gw_tables (dw_db w')) = None
            /\ gw_phys (dw_db w') = ddl ("DROP TABLE IF EXISTS " +:+ pg) (gw_phys (dw_db w))).
  { intros pg w' Hw. change (gw_states (dw_db w')) with (sn_states (snap w')). change (gw_phys (dw_db w')) with (sn_phys (snap w')).
    change (gw_tables (dw_db w')) with (sn_tables (snap w')). rewrite Hw. split_and!; [done| |done]. apply Hnone, (Hgone pg). }
  assert (Hfail : forall w', snap w' = snap w \/ delete_done t (snap w) (fun e s =>
       snap w' = s \/ inv = true /\ exists r, is_ok r = false /\ reconciled env s (snap w') r) ->
       gw_states (dw_db w') = gw_states (dw_db w)
       /\ (snap w' = snap w \/ (find_table t (gw_tables (dw_db w')) = None
            /\ exists pg, gw_phys (dw_db w') = ddl ("DROP TABLE IF EXISTS " +:+ pg) (gw_phys (dw_db w))))).
  { intros w' [Hw|(e & _ & _ & [Hw|(_ & rr & _ & Hr)])].
    - split; [by injection Hw|by left].
    - destruct (Hdrop _ _ Hw) as (? & ? & ?). eauto.
    - destruct (Hrec _ _ _ Hr) as (? & ? & ?). eauto. }
  destruct (delete_table env inv (mkDeleteTableRequest t) w) as [[d|e|] w']; [|by apply Hfail..].
  destruct H as (e & _ & _ & Hst & _ & Hw). destruct inv.
  - destruct Hw as [n Hr]. destruct (Hrec _ _ _ Hr) as (H1 & H2 & H3). split_and!; [done..| |by eauto].
    intros _. apply eq_None_not_Some. intros Hs. eapply (Hgone (pg_table (te_schema e))). by apply (reconciled_cached env _ _ n t Hr).
  - destruct (Hdrop _ _ Hw) as (H1 & H2 & H3). split_and!; [done..|by eauto].
Qed.
