(* ===== verification/DdlUpdate.v ===== *)
(** * What UpdateTable guarantees

    The transaction of UpdateTable for every pattern of failing calls, the
    state rows of the GSIs it deletes and creates, and what a stale cached
    entry or a left-over state row does to it. *)

From S2P Require Import Prelude RustStr BTree Json Storage Schema Catalog Reconciler ApiError.
From S2P Require Import DdlTypes Naming Validation ValidationSpec CreateTable TableSpecs DdlHandlers.
From S2P Require Import GsiState Backfill GsiWorkers Ddl DdlCorrect.

(** ** More rules *)

Section rules.
Context {Phys : Type} {GS : GsiServer Phys} {DS : DdlServer Phys} (env : Faults).
#[local] Notation World := (DdlWorld Phys).

Lemma wpd_on_bind {A B} conv (m : W (Phys := Phys) A) (f : A -> W B) Q (E : World -> Prop) w :
  wpd (on_db conv m) (fun a w' => wpd (on_db conv (f a)) Q E w') E w -> wpd (on_db conv (w_bind m f)) Q E w.
Proof.
  unfold wpd, on_db, w_bind. destruct (m (dw_db w)) as [[a|e|] db]; [|done..]. cbn [dw_db with_db].
  destruct (f a db) as [[b|e|] db']; done.
Qed.

Lemma wpd_on_ret {A} conv (a : A) Q (E : World -> Prop) w : Q a (with_db w (dw_db w)) -> wpd (on_db conv (w_ret a)) Q E w.
Proof. done. Qed.

Lemma wpd_on_try conv conv' {A} (m : W (Phys := Phys) A) g Q (E : World -> Prop) w :
  wpd (on_db conv' m) Q E w -> wpd (on_db conv (w_try m w_ret (fun e => w_result (Err (g e))))) Q E w.
Proof. unfold wpd, on_db, w_try, w_ret, w_result. by destruct (m (dw_db w)) as [[a|e|] db]. Qed.

Lemma wpd_states conv f Q (E : World -> Prop) w :
  (forall w', outside (snap w') = outside (snap w) -> E w') ->
  (forall now w', snap w' = sn_with_states (f now (sn_states (snap w))) (snap w) -> Q tt w') ->
  wpd (on_db conv (set_states env f)) Q E w.
Proof.
  intros HE HQ. unfold wpd, on_db, set_states, autocommit. destruct (fault env _); [|by eapply HQ].
  apply HE. by destruct (applied env _).
Qed.

Lemma wpd_batches conv sqls : forall (Q : unit -> World -> Prop) (E : World -> Prop) w,
  (forall p w', snap w' = sn_with_phys p (snap w) -> Q tt w') -> (forall p w', snap w' = sn_with_phys p (snap w) -> E w') ->
  wpd (on_db conv (batch_execute_all env sqls)) Q E w.
Proof.
  induction sqls as [|sql sqls IH]; intros Q E w HQ HE; cbn [batch_execute_all].
  { apply wpd_on_ret. by apply (HQ (gw_phys (dw_db w))). }
  apply wpd_on_bind, wpd_batch; [intros w' Hw; by apply (HE (gw_phys (dw_db w)))|]. intros _ w1 H1.
  apply IH; intros p w2 H2; [apply (HQ p)|apply (HE p)]; rewrite H2, H1; done.
Qed.
End rules.

(** ** State rows *)

Lemma set_phase_twice p e now p' e' now' r : p <> GsiPhase_Active ->
  set_phase p' e' now' (set_phase p e now r) = set_phase p' e' now' r.
Proof. by destruct p. Qed.

(** Everything of the row but the phase and what is stamped with it. *)
Definition inherits (old r : GsiRow) : Prop :=
  gr_gsi_id r = gr_gsi_id old /\ gr_table_name r = gr_table_name old /\ gr_gsi_name r = gr_gsi_name old
  /\ gr_pg_table r = gr_pg_table old /\ gr_column_specs r = gr_column_specs old /\ gr_index_name r = gr_index_name old
  /\ gr_last_pk_copied r = gr_last_pk_copied old /\ gr_declared_at_ms r = gr_declared_at_ms old.

Lemma inherits_trans a b c : inherits a b -> inherits b c -> inherits a c.
Proof. unfold inherits. intros; naive_solver congruence. Qed.

Lemma find_insert_state s rows rows' :
  insert_state_row s rows = Ok rows' ->
  (forall i, i <> st_gsi_id s -> find_row i rows' = find_row i rows)
  /\ find_row (st_gsi_id s) rows' = Some (default (state_to_row s) (find_row (st_gsi_id s) rows)).
Proof.
  unfold insert_state_row. cbv zeta. change (gr_gsi_id (state_to_row s)) with (st_gsi_id s). rewrite existsb_find.
  case_bool_decide as Hex.
  - intros [= <-]. split; [done|]. by destruct Hex as [r ->].
  - destruct (existsb _ rows); [done|]. intros [= <-]. apply eq_None_not_Some in Hex as Hnone. unfold find_row in *.
    assert (Happ : forall i, List.find (fun r => String.eqb (gr_gsi_id r) i) (rows ++ [state_to_row s])
              = match List.find (fun r => String.eqb (gr_gsi_id r) i) rows with
                | Some r => Some r
                | None => if String.eqb (st_gsi_id s) i then Some (state_to_row s) else None
                end).
    { intros i. clear. induction rows as [|r rows IH]; [done|]. cbn [List.find app].
      destruct (String.eqb (gr_gsi_id r) i); [done|exact IH]. }
    split; [intros i Hi|]; rewrite Happ.
    + destruct (String.eqb_spec (st_gsi_id s) i); [congruence|].
      by destruct (List.find (fun r => String.eqb (gr_gsi_id r) i) rows).
    + by rewrite Hnone, String.eqb_refl.
Qed.

Section update.
Context {SH : Sha1} {SI : SetIter} {Phys : Type} {GS : GsiServer Phys} {DS : DdlServer Phys}.
Context (env : Faults) (inv : bool) (t : string) (entry : TableEntry).

(** The DualWrite GSIs among [names], by state id. *)
Definition removal_ids (names : list string) : list string :=
  concat (map (fun n => match gsi_of entry n with
                        | Some g => if bool_decide (gs_mode g = GsiMode_DualWrite) then [gsi_id t n] else []
                        | None => []
                        end) names).

(** The state rows after the deletes. *)
Definition removed (ids : list string) (rows rows' : list GsiRow) : Prop :=
  forall i, if bool_decide (i ∈ ids)
            then exists now, find_row i rows' = set_phase GsiPhase_RemovingIndex None now <$> find_row i rows
            else find_row i rows' = find_row i rows.

Lemma removed_refl rows : removed [] rows rows.
Proof. intros i. by rewrite bool_decide_false by (by intros ?%elem_of_nil). Qed.

Lemma removed_phase i now rows : removed [i] rows (update_phase i GsiPhase_RemovingIndex None now rows).
Proof.
  intros j. destruct (decide (j = i)) as [->|Hne].
  - rewrite bool_decide_true by (by apply list_elem_of_singleton). exists now. by rewrite find_update_phase.
  - rewrite bool_decide_false by (by intros ?%list_elem_of_singleton). unfold update_phase. by rewrite find_where_other.
Qed.

Lemma removed_app a b r0 r1 r2 : removed a r0 r1 -> removed b r1 r2 -> removed (a ++ b) r0 r2.
Proof.
  intros Ha Hb i. specialize (Ha i). specialize (Hb i). destruct (decide (i ∈ b)) as [Ib|Ib].
  - rewrite (bool_decide_true (i ∈ b)) in Hb by done. rewrite bool_decide_true by (apply elem_of_app; by right).
    destruct Hb as [now Hb]. exists now. rewrite Hb. case_bool_decide; [|by rewrite Ha].
    destruct Ha as [now' ->]. destruct (find_row i r0) as [r|]; [|done]. cbn. by rewrite set_phase_twice.
  - rewrite (bool_decide_false (i ∈ b)) in Hb by done. rewrite Hb. destruct (decide (i ∈ a)) as [Ia|Ia].
    + rewrite (bool_decide_true (i ∈ a)) in Ha by done. by rewrite bool_decide_true by (apply elem_of_app; by left).
    + rewrite (bool_decide_false (i ∈ a)) in Ha by done.
      rewrite bool_decide_false; [done|]. rewrite elem_of_app. tauto.
Qed.

Lemma delete_gsi_spec n (w0 : DdlWorld Phys) :
  wpd (delete_gsi env t entry n)
    (fun ids w' => ids = removal_ids [n] /\ is_Some (gsi_of entry n) /\ sn_tables (snap w') = sn_tables (snap w0) /\ outside (snap w') = outside (snap w0)
                   /\ removed ids (sn_states (snap w0)) (sn_states (snap w')))
    (fun w' => outside (snap w') = outside (snap w0)) w0.
Proof.
  unfold delete_gsi. apply wpd_bind. unfold removal_ids. cbn [map concat]. rewrite app_nil_r.
  destruct (gsi_of entry n) as [g|]; [|done]. apply wpd_result; [|done]. intros g' [= <-].
  destruct (gs_mode g) eqn:Em.
  - rewrite bool_decide_false by done. apply wpd_bind, wpd_batches; intros p w' Hw; rewrite ?Hw; [|done].
    apply wpd_ret. rewrite Hw. split_and!; try done; apply removed_refl.
  - rewrite bool_decide_true by done. apply wpd_bind, wpd_states; [by intros w' ->|].
    intros now w' Hw. apply wpd_ret. rewrite Hw. split_and!; try done; apply removed_phase.
Qed.

Lemma delete_gsis_spec names : forall (w0 : DdlWorld Phys),
  wpd (delete_gsis env t entry names)
    (fun ids w' => ids = removal_ids names /\ Forall (fun n => is_Some (gsi_of entry n)) names
                   /\ sn_tables (snap w') = sn_tables (snap w0) /\ outside (snap w') = outside (snap w0)
                   /\ removed ids (sn_states (snap w0)) (sn_states (snap w')))
    (fun w' => outside (snap w') = outside (snap w0)) w0.
Proof.
  induction names as [|n names IH]; intros w0; cbn [delete_gsis].
  { apply wpd_ret. split_and!; try done; apply removed_refl. }
  apply wpd_bind. eapply wpd_mono; [apply delete_gsi_spec| |done]. intros ids w1 (E1 & S1 & T1 & O1 & R1).
  apply wpd_bind. eapply wpd_mono; [apply IH| |intros w' Hw; by rewrite Hw]. intros ids2 w2 (E2 & S2 & T2 & O2 & R2).
  apply wpd_ret. split_and!; [|by constructor|congruence|congruence|by eapply removed_app].
  rewrite E1, E2. unfold removal_ids. cbn [map concat]. by rewrite app_nil_r.
Qed.

(** The state row of a GSI just added: in phase backfilling, and otherwise
    the row that was there, or else the one declared for [g]. *)
Definition added (pg : string) (gsis : list GsiSpec) (rows rows' : list GsiRow) : Prop :=
  (forall i, i ∉ map (fun g => gsi_id t (gs_name g)) gsis -> find_row i rows' = find_row i rows)
  /\ (forall g, g ∈ gsis -> exists r, find_row (gsi_id t (gs_name g)) rows' = Some r
        /\ gr_phase r = "backfilling" /\ gr_error r = None
        /\ match find_row (gsi_id t (gs_name g)) rows with
           | Some old => inherits old r
           | None => exists g' now, g' ∈ gsis /\ gsi_id t (gs_name g') = gsi_id t (gs_name g)
                                    /\ inherits (state_to_row (declared_state t pg g' now)) r
           end).

Lemma inherits_phases old p e now p' e' now' : inherits old (set_phase p e now (set_phase p' e' now' old)).
Proof. done. Qed.

Lemma added_cons pg g gsis r0 r1 r2 : added pg [g] r0 r1 -> added pg gsis r1 r2 -> added pg (g :: gsis) r0 r2.
Proof.
  intros [F1 A1] [F2 A2]. split.
  - intros i Hi. cbn in Hi. apply not_elem_of_cons in Hi as [Hne Hi]. rewrite F2, F1; [done| |done].
    cbn. rewrite list_elem_of_singleton. congruence.
  - intros x Hx. set (i := gsi_id t (gs_name x)) in *. destruct (A1 g) as (rg & Hg & Hpg & Heg & Hin); [by left|].
    destruct (decide (i ∈ map (fun g => gsi_id t (gs_name g)) gsis)) as [Hl|Hl].
    + apply list_elem_of_fmap in Hl as (x' & Hxi & Hx'). destruct (A2 x' Hx') as (r & Hr & Hp & He & Hold).
      rewrite <- Hxi in *. exists r. split_and!; [done..|]. destruct (decide (i = gsi_id t (gs_name g))) as [Heq|Hne].
      * rewrite Heq, Hg in Hold. rewrite Heq. destruct (find_row (gsi_id t (gs_name g)) r0) as [old|].
        -- by eapply inherits_trans.
        -- destruct Hin as (g' & now & ->%list_elem_of_singleton & _ & Hin). exists g, now.
           split; [by left|]. split; [done|]. by eapply inherits_trans.
      * rewrite (F1 i) in Hold by (cbn; by rewrite list_elem_of_singleton).
        destruct (find_row i r0); [done|]. destruct Hold as (g' & now & Hg' & Heq' & Hi'). exists g', now.
        split; [by right|]. by split.
    + assert (x = g) as ->.
      { apply elem_of_cons in Hx as [->|Hx]; [done|]. destruct Hl. by apply (list_elem_of_fmap_2 (fun g => gsi_id t (gs_name g))). }
      exists rg. subst i. rewrite F2 by done. split_and!; [done..|]. destruct (find_row (gsi_id t (gs_name g)) r0); [done|].
      destruct Hin as (g' & now & ->%list_elem_of_singleton & Heq & Hin). exists g, now. split; [by left|]. by split.
Qed.

Lemma create_one_spec pg g (w0 : DdlWorld Phys) :
  gs_mode g = GsiMode_DualWrite ->
  wpd (on_db (internal "GSI orchestrator: ") (create_dual_write_gsi_in_tx env t pg g))
    (fun _ w' => sn_tables (snap w') = sn_tables (snap w0) /\ outside (snap w') = outside (snap w0)
                 /\ added pg [g] (sn_states (snap w0)) (sn_states (snap w')))
    (fun w' => outside (snap w') = outside (snap w0)) w0.
Proof.
  intros Hm. unfold create_dual_write_gsi_in_tx. rewrite bool_decide_true by done. cbn [negb].
  apply wpd_on_bind. eapply (wpd_mono _ (fun _ w1 => exists now rows,
    insert_state_row (declared_state t pg g now) (sn_states (snap w0)) = Ok rows /\ snap w1 = sn_with_states rows (snap w0))
    _ (fun w1 => outside (snap w1) = outside (snap w0))).
  - set (now := clock env (gw_calls (dw_db w0))). change (wpd (on_db (internal "GSI orchestrator: ") (declare_gsi env t pg g now))
      (fun _ w1 => exists now rows, insert_state_row (declared_state t pg g now) (sn_states (snap w0)) = Ok rows
                                    /\ snap w1 = sn_with_states rows (snap w0)) (fun w1 => outside (snap w1) = outside (snap w0)) w0).
    apply wpd_call; [by intros w' ->|]. intros _. change (gw_states (dw_db w0)) with (sn_states (snap w0)).
    destruct (insert_state_row _ _) as [rows|e|] eqn:Ei; [|done..]. intros w1 H1. by exists now, rows.
  - intros [] w1 (now & rows & Hins & H1). apply wpd_on_bind.
    eapply (wpd_on_try _ postgres_error), wpd_batch; [intros w' ->; by rewrite H1|]. intros _ w2 H2. rewrite H1 in H2.
    apply wpd_on_bind, wpd_states; [intros w' ->; by rewrite H2|]. intros n3 w3 H3. rewrite H2 in H3.
    apply wpd_states; [intros w' ->; by rewrite H3|]. intros n4 w4 ->. rewrite H3. split_and!; [done..|].
    apply find_insert_state in Hins as [Hoth Hme]. cbn [st_gsi_id declared_state] in *. cbn [sn_states sn_with_states sn_with_phys].
    split.
    + intros i Hi. cbn in Hi. rewrite list_elem_of_singleton in Hi. unfold update_phase.
      rewrite !find_where_other by done. by apply Hoth.
    + intros x ->%list_elem_of_singleton. rewrite !find_update_phase, Hme. eexists. split; [done|]. split_and!; [done..|].
      destruct (find_row _ (sn_states (snap w0))) as [old|]; [apply inherits_phases|].
      exists g, now. split; [by left|]. split; [done|]. apply inherits_phases.
  - done.
Qed.

Lemma create_gsis_spec pg gsis : forall (w0 : DdlWorld Phys),
  Forall (fun g => gs_mode g = GsiMode_DualWrite) gsis ->
  wpd (create_gsis env t pg gsis)
    (fun _ w' => sn_tables (snap w') = sn_tables (snap w0) /\ outside (snap w') = outside (snap w0)
                 /\ added pg gsis (sn_states (snap w0)) (sn_states (snap w')))
    (fun w' => outside (snap w') = outside (snap w0)) w0.
Proof.
  induction gsis as [|g gsis IH]; intros w0 Hm; cbn [create_gsis].
  { apply wpd_ret. split_and!; [done..|]. split; [done|]. by intros g ?%elem_of_nil. }
  apply Forall_cons in Hm as [Hg Hm]. apply wpd_bind.
  eapply wpd_mono; [by apply create_one_spec| |done]. intros [] w1 (T1 & O1 & A1).
  eapply wpd_mono; [by apply IH| |intros w' Hw; by rewrite Hw]. intros [] w2 (T2 & O2 & A2).
  split_and!; [congruence..|]. by eapply added_cons.
Qed.
End update.

(** ** The transaction and the request *)

Section request.
Context {SH : Sha1} {SI : SetIter} {Phys : Type} {GS : GsiServer Phys} {DS : DdlServer Phys}.
Context (env : Faults) (inv : bool) (req : UpdateTableRequest).
#[local] Notation t := (ut_table_name req).
#[local] Notation deletes := (gsi_deletes req).

(** What UpdateTable makes of the table's row. *)
Definition updated_row (entry : TableEntry) (new : list GsiSpec) (now : Z) (r : MetadataRow) : MetadataRow :=
  let r := set_table_fields (ut_billing_mode req) (new_capacity req).1 (new_capacity req).2 now r in
  if bool_decide (deletes = []) && bool_decide (new = []) then r
  else with_gsi_specs (gsi_specs_to_json (merged_specs entry deletes new)) now "ddl" r.

Record updated (entry : TableEntry) (new : list GsiSpec) (s s' : Snap Phys) : Prop := {
  up_tables : exists now, sn_tables s' = where_table t (updated_row entry new now) (sn_tables s);
  up_states : exists mid, removed (removal_ids t entry deletes) (sn_states s) mid
                          /\ added t (pg_table (te_schema entry)) new mid (sn_states s');
  up_outside : outside s' = outside s
}.

Lemma where_table_twice n f g rows :
  (forall r, mr_table_name (f r) = mr_table_name r) ->
  where_table n g (where_table n f rows) = where_table n (fun r => g (f r)) rows.
Proof.
  intros Hf. unfold where_table. rewrite map_map. apply map_ext. intros r.
  destruct (String.eqb (mr_table_name r) n) eqn:E; [by rewrite Hf, E|by rewrite E].
Qed.

Lemma update_in_tx_spec entry new (w0 : DdlWorld Phys) :
  Forall (fun g => gs_mode g = GsiMode_DualWrite) new ->
  wpd (update_in_tx env req entry new)
    (fun ids w' => ids = removal_ids t entry deletes /\ updated entry new (snap w0) (snap w'))
    (fun w' => outside (snap w') = outside (snap w0)) w0.
Proof.
  intros Hm. unfold update_in_tx. apply wpd_bind, wpd_lock; [by intros w' ->|]. intros w1 H1.
  apply wpd_bind, wpd_now. intros now.
  apply wpd_bind, wpd_update_rows; [intros w' ->; by rewrite H1|]. rewrite H1. intros rows [= <-] w2 H2.
  apply wpd_bind. eapply wpd_mono; [apply delete_gsis_spec| |intros w' ->; by rewrite H2].
  rewrite H2. intros ids w3 (Hids & _ & T3 & O3 & R3). cbn [sn_tables sn_states sn_with_tables] in *.
  apply wpd_bind. eapply (wpd_mono _ (fun _ w4 => sn_states (snap w4) = sn_states (snap w3) /\ outside (snap w4) = outside (snap w0)
    /\ sn_tables (snap w4) = where_table t (updated_row entry new now) (sn_tables (snap w0))) _ (fun w' => outside (snap w') = outside (snap w0))); [| |done].
  - unfold updated_row. destruct (bool_decide (deletes = []) && bool_decide (new = [])) eqn:Eb.
    + apply andb_prop in Eb as [-> ->]. cbn [negb orb]. apply wpd_ret. split_and!; [done..|]. by rewrite T3.
    + destruct (negb _ || negb _) eqn:Eb'; [|destruct (bool_decide (deletes = [])), (bool_decide (new = [])); done].
      apply wpd_update_rows; [intros w' ->; exact O3|]. rewrite T3. intros rows [= <-] w4 ->. split_and!; [done|exact O3|].
      cbn [sn_tables sn_with_tables]. by rewrite where_table_twice.
  - intros [] w4 (S4 & O4 & T4). apply wpd_bind.
    eapply wpd_mono; [by apply create_gsis_spec| |intros w' ->; exact O4].
    intros [] w5 (T5 & O5 & A5). apply wpd_ret. split; [done|]. constructor.
    + exists now. congruence.
    + exists (sn_states (snap w3)). split; [by rewrite <- Hids|]. by rewrite <- S4.
    + congruence.
Qed.

(** The request passes its checks against the cached entry. *)
Record update_accepted (s : Snap Phys) (entry : TableEntry) (new : list GsiSpec) : Prop := {
  ua_name : validate_table_name_simple t = Ok tt;
  ua_body : validate_update_table_body req = Ok tt;
  ua_entry : catalog_get (sn_catalog s) t = Some entry;
  ua_deletes : check_deletes t entry deletes = Ok tt;
  ua_new : new_gsi_specs req entry = Ok new
}.

Definition spawning (entry : TableEntry) (new : list GsiSpec) (s : Snap Phys) : Snap Phys :=
  mkSnap (sn_states s) (sn_tables s) (sn_phys s) (sn_catalog s)
    (sn_spawned s ++ map (fun g => SpawnLifecycle (gsi_id t (gs_name g))) new ++ map SpawnRemoval (removal_ids t entry deletes)).

Definition update_done (s : Snap Phys) (P : TableEntry -> list GsiSpec -> Snap Phys -> Prop) : Prop :=
  exists entry new s1, update_accepted s entry new /\ updated entry new s s1 /\ P entry new s1.

Lemma new_specs_dual_write entry new : new_gsi_specs req entry = Ok new -> Forall (fun g => gs_mode g = GsiMode_DualWrite) new.
Proof.
  unfold new_gsi_specs. cbv zeta. generalize (gsi_creates req). intros l. revert new.
  induction l as [|g l IH]; intros new; cbn [collect]; [intros [= <-]; constructor|].
  destruct (validate_update_table_gsi_create _ _ _ _ _ _) as [plan| |]; cbn; [|done..].
  destruct (collect _ l) as [rest| |]; cbn; [|done..]. intros [= <-]. constructor; [done|]. by apply IH.
Qed.

Lemma update_table_spec (w : DdlWorld Phys) :
  wpd (update_table env inv req)
    (fun d w' => update_done (snap w) (fun entry new s1 =>
       (if inv then exists n, reconciled env (spawning entry new s1) (snap w') (Ok n) else snap w' = spawning entry new s1)
       /\ exists e, catalog_get (dw_catalog w') t = Some e /\ d = synthesize_description e))
    (fun w' => snap w' = snap w \/ update_done (snap w) (fun entry new s1 =>
       snap w' = s1 \/ inv = true /\ exists r, reconciled env (spawning entry new s1) (snap w') r
         /\ (is_ok r = true -> catalog_get (dw_catalog w') t = None))) w.
Proof.
  unfold update_table. apply wpd_bind, wpd_result; [|by left]. intros [] Hname.
  apply wpd_bind, wpd_result; [|by left]. intros [] Hbody.
  apply wpd_bind, wpd_bind. unfold wpd at 1, cached. apply wpd_result; [|by left]. intros entry He.
  assert (Hget : catalog_get (sn_catalog (snap w)) t = Some entry).
  { cbn. destruct (catalog_get (dw_catalog w) t); simpl in He; congruence. }
  apply wpd_bind, wpd_result; [|by left]. intros [] Hdel.
  apply wpd_bind, wpd_result; [|by left]. intros new Hnew. pose proof (new_specs_dual_write _ _ Hnew) as Hmode.
  apply wpd_bind, wpd_lock; [by left|]. intros w1 H1.
  apply wpd_bind, wpd_transaction; [intros; left; congruence|]. intros w2 H2.
  eapply wpd_mono; [by apply update_in_tx_spec| |by rewrite H2]. rewrite H2, H1.
  intros ids w3 [-> Hup]. split; [by rewrite (up_outside _ _ _ _ Hup)|]. intros w4 H4. rewrite <- H4 in Hup.
  assert (Hdone : forall P : TableEntry -> list GsiSpec -> Snap Phys -> Prop, P entry new (snap w4) -> update_done (snap w) P).
  { intros P HP. by exists entry, new, (snap w4). }
  split; [|right; apply Hdone; by left]. apply wpd_bind. unfold wpd at 1, spawn. set (w5 := mkDdlWorld _ _ _).
  assert (H5 : snap w5 = spawning entry new (snap w4)) by done. clearbody w5.
  apply wpd_bind. unfold invalidate. destruct inv.
  - apply wpd_reconcile; rewrite H5.
    + intros w6 n Hrec. apply wpd_bind, wpd_bind. unfold wpd at 1, cached.
      destruct (catalog_get (dw_catalog w6) t) as [e|] eqn:Ee; cbn [ok_or].
      * apply wpd_ret, Hdone. split; [by exists n|by exists e].
      * right. apply Hdone. right. split; [done|]. by exists (Ok n).
    + intros w6 r Hr Hrec. right. apply Hdone. right. split; [done|]. exists r. split; [done|]. by rewrite Hr.
  - apply wpd_ret, wpd_bind, wpd_bind. unfold wpd at 1, cached.
    assert (Hc5 : catalog_get (dw_catalog w5) t = Some entry).
    { change (dw_catalog w5) with (sn_catalog (snap w5)). rewrite H5. cbn [spawning sn_catalog].
      assert (Ho := up_outside _ _ _ _ Hup). injection Ho as Ho _. cbn [sn_catalog]. change (sn_catalog (snap w4)) with (dw_catalog w4). by rewrite Ho. }
    rewrite Hc5. cbn [ok_or]. apply wpd_ret, Hdone. split; [done|by exists entry].
Qed.
End request.

(** C4: whatever calls fail, UpdateTable happens whole or not at all. Done,
    the table's row has the new settings (the old ones where the request
    has none) and, when the request touches GSIs, the merged specs; no
    other table's row and no other GSI's state row changes; the deleted
    DualWrite GSIs are in phase removing_index, the new ones backfilling;
    and exactly their coordinators are spawned, after the commit. When it
    fails, nothing has changed, or the transaction took effect and its
    reply was lost (no coordinator is spawned then), or the pass of the
    reconciler failed or did not find the table. *)
Theorem update_table_atomic {SH : Sha1} {SI : SetIter} {Phys} {GS : GsiServer Phys} {DS : DdlServer Phys} env inv req
    (w : DdlWorld Phys) :
  let '(r, w') := update_table env inv req w in
  match r with
  | Ok d => update_done req (snap w) (fun entry new s1 =>
       (if inv then exists n, reconciled env (spawning req entry new s1) (snap w') (Ok n)
        else snap w' = spawning req entry new s1)
       /\ exists e, catalog_get (dw_catalog w') (ut_table_name req) = Some e /\ d = synthesize_description e)
  | _ => snap w' = snap w \/ update_done req (snap w) (fun entry new s1 =>
       snap w' = s1 \/ inv = true /\ exists rr, reconciled env (spawning req entry new s1) (snap w') rr
         /\ (is_ok rr = true -> catalog_get (dw_catalog w') (ut_table_name req) = None))
  end.
Proof.
  pose proof (update_table_spec env inv req w) as H. unfold wpd in H.
  destruct (update_table env inv req w) as [[d|e|] w']; exact H.
Qed.

(** ** A stale cached entry, and a left-over state row *)

(** The row holds exactly these specs. *)
Definition stores (row : MetadataRow) (specs : list GsiSpec) : Prop := mr_gsi_specs row = gsi_specs_to_json specs.

Lemma gsi_id_inj t n n' : gsi_id t n = gsi_id t n' -> n = n'.
Proof.
  unfold gsi_id. induction t as [|c t IH]; [by intros [= ->]|]. intros H. apply IH. by injection H.
Qed.

Lemma gsi_plan_name a b t defs pk sk g plan : gsi_plan a b t defs pk sk g = Ok plan -> gp_name plan = gsi_index_name g.
Proof.
  unfold gsi_plan. destruct (fold_result _ _ _) as [[p s]| |]; cbn; [|done..]. destruct p; cbn; [|done].
  destruct (defs !! _); cbn; [|done]. destruct s as [s|]; cbn.
  - destruct (defs !! s); cbn; [|done]. destruct (check_projection _ _ _ _); cbn; [|done..].
    destruct (_ && _); [done|]. destruct (_ && _); [done|]. by intros [= <-].
  - destruct (check_projection _ _ _ _); cbn; [|done..].
    destruct (_ && _); [done|]. destruct (_ && _); [done|]. by intros [= <-].
Qed.

Lemma new_specs_names {SH : Sha1} req entry new :
  new_gsi_specs req entry = Ok new -> map gs_name new = map gsi_index_name (gsi_creates req).
Proof.
  unfold new_gsi_specs. cbv zeta. generalize (gsi_creates req). intros l. revert new.
  induction l as [|g l IH]; intros new; cbn [collect]; [by intros [= <-]|].
  destruct (validate_update_table_gsi_create _ _ _ _ _ _) as [plan| |] eqn:E; cbn; [|done..].
  destruct (collect _ l) as [rest| |]; cbn; [|done..]. intros [= <-]. cbn. f_equal; [|by apply IH].
  unfold validate_update_table_gsi_create in E. destruct (validate_gsi_index_name _ _); cbn in E; [|done..].
  case_bool_decide; [done|]. destruct (validate_gsi_key_schema _ _); cbn in E; [|done..].
  destruct (attr_defs _ _); cbn in E; [|done..]. by apply gsi_plan_name in E.
Qed.

Section consequences.
Context {SH : Sha1} {SI : SetIter} {Phys : Type} {GS : GsiServer Phys} {DS : DdlServer Phys}.
Context (env : Faults) (req : UpdateTableRequest) (w : DdlWorld Phys) (d : TableDescription) (w' : DdlWorld Phys).
Hypothesis (Hok : update_table env false req w = (Ok d, w')).

Lemma update_ok : update_done req (snap w) (fun entry new s1 =>
  gw_states (dw_db w') = sn_states s1 /\ gw_tables (dw_db w') = sn_tables s1).
Proof.
  pose proof (update_table_spec env false req w) as H. unfold wpd in H. rewrite Hok in H.
  destruct H as (entry & new & s1 & Ha & Hu & Hs & _). exists entry, new, s1. split_and!; [done..| |].
  - change (gw_states (dw_db w')) with (sn_states (snap w')). by rewrite Hs.
  - change (gw_tables (dw_db w')) with (sn_tables (snap w')). by rewrite Hs.
Qed.
End consequences.

Lemma find_where_table n f rows r :
  (forall r, mr_table_name (f r) = mr_table_name r) -> find_table n rows = Some r ->
  find_table n (where_table n f rows) = Some (f r).
Proof.
  intros Hf. unfold find_table, where_table. induction rows as [|x rows IH]; [done|]. cbn [List.find map].
  destruct (String.eqb (mr_table_name x) n) eqn:E.
  - intros [= ->]. by rewrite Hf, E.
  - rewrite E. exact IH.
Qed.

Lemma merged_keeps entry deletes new g :
  g ∈ gsi_values entry -> gs_name g ∉ deletes -> g ∈ merged_specs entry deletes new.
Proof.
  intros Hg Hn%contains_false. unfold merged_specs. rewrite sort_by_perm. apply elem_of_app. left.
  apply list_elem_of_In, in_map_iff. exists g. rewrite Hn. split; [done|].
  apply filter_In. split; [by apply list_elem_of_In|]. by rewrite Hn.
Qed.

Lemma merged_names entry deletes new n :
  n ∈ map gs_name (merged_specs entry deletes new) -> n ∈ map gs_name (gsi_values entry) \/ n ∈ map gs_name new.
Proof.
  intros (g & -> & Hg)%list_elem_of_fmap. unfold merged_specs in Hg. rewrite sort_by_perm in Hg.
  apply elem_of_app in Hg as [Hg|Hg]; [left|right; by apply (list_elem_of_fmap_2 gs_name)].
  apply list_elem_of_In, in_map_iff in Hg as (g0 & <- & [Hin _]%filter_In).
  apply list_elem_of_In, (list_elem_of_fmap_2 gs_name) in Hin. by destruct (_ && _).
Qed.

(** UpdateTable writes the specs of the entry it has cached, not those
    of the row. A GSI of the cached entry that the request does not delete
    is in the row afterwards, whether or not the row still had it, and one
    that only the row had is gone: a request that adds a GSI while the
    catalog is stale brings back a GSI whose removal has finished, and
    drops one another instance has added since. *)
Theorem stale_entry_overwrites_specs {SH : Sha1} {SI : SetIter} {Phys} {GS : GsiServer Phys} {DS : DdlServer Phys} env req
    (w : DdlWorld Phys) d w' entry row :
  update_table env false req w = (Ok d, w') ->
  catalog_get (dw_catalog w) (ut_table_name req) = Some entry ->
  find_table (ut_table_name req) (gw_tables (dw_db w)) = Some row -> gsi_creates req <> [] ->
  exists row' specs, find_table (ut_table_name req) (gw_tables (dw_db w')) = Some row'
    /\ stores row' specs
    /\ (forall g, g ∈ gsi_values entry -> gs_name g ∉ gsi_deletes req -> g ∈ specs)
    /\ (forall n, n ∈ map gs_name specs -> n ∈ map gs_name (gsi_values entry) \/ n ∈ map gsi_index_name (gsi_creates req)).
Proof.
  intros Hu Hget Hrow Hcr.
  destruct (update_ok env req w d w' Hu) as (entry' & new & s1 & Ha & Hup & _ & ->).
  assert (entry' = entry) as -> by (pose proof (ua_entry _ _ _ _ Ha) as He; cbn in He; congruence).
  pose proof (new_specs_names _ _ _ (ua_new _ _ _ _ Ha)) as Hnames.
  assert (Hne : new <> []) by (intros ->; by destruct (gsi_creates req)).
  destruct (up_tables _ _ _ _ _ Hup) as [now ->].
  exists (updated_row req entry new now row), (merged_specs entry (gsi_deletes req) new).
  assert (Hspec : forall r, updated_row req entry new now r = with_gsi_specs (gsi_specs_to_json (merged_specs entry (gsi_deletes req) new)) now "ddl"
    (set_table_fields (ut_billing_mode req) (new_capacity req).1 (new_capacity req).2 now r)).
  { intros r. unfold updated_row. by rewrite (bool_decide_false (new = [])), andb_false_r by done. }
  split; [apply find_where_table; [|done]; intros r; by rewrite Hspec|]. split; [unfold stores; by rewrite Hspec|].
  split; [intros g; apply merged_keeps|]. rewrite <- Hnames. intros n. apply merged_names.
Qed.

(** a GSI added under the name of one that was removed (or whose table
    was deleted) takes over the state row that one left behind: the phase
    is set to backfilling, but the resume cursor, the column list, the
    index name and the PostgreSQL table of the old GSI stay, so the
    backfill starts after the last key the old one had copied. *)
Theorem readded_gsi_keeps_cursor {SH : Sha1} {SI : SetIter} {Phys} {GS : GsiServer Phys} {DS : DdlServer Phys} env req
    (w : DdlWorld Phys) d w' g old :
  update_table env false req w = (Ok d, w') ->
  g ∈ gsi_creates req -> gsi_index_name g ∉ gsi_deletes req ->
  find_row (gsi_id (ut_table_name req) (gsi_index_name g)) (gw_states (dw_db w)) = Some old ->
  exists r, find_row (gsi_id (ut_table_name req) (gsi_index_name g)) (gw_states (dw_db w')) = Some r
    /\ gr_phase r = "backfilling" /\ inherits old r.
Proof.
  intros Hu Hg Hdel Hold.
  destruct (update_ok env req w d w' Hu) as (entry & new & s1 & Ha & Hup & -> & _).
  destruct (up_states _ _ _ _ _ Hup) as (mid & Hrem & _ & Hadd).
  apply (list_elem_of_fmap_2 gsi_index_name) in Hg.
  change (gsi_index_name <$> gsi_creates req) with (map gsi_index_name (gsi_creates req)) in Hg.
  rewrite <- (new_specs_names _ _ _ (ua_new _ _ _ _ Ha)) in Hg. apply list_elem_of_fmap in Hg as (spec & Hn & Hspec).
  destruct (Hadd spec Hspec) as (r & Hr & Hp & _ & Hinh). rewrite <- Hn in *.
  specialize (Hrem (gsi_id (ut_table_name req) (gsi_index_name g))). rewrite bool_decide_false in Hrem.
  - rewrite Hrem in Hinh. cbn [sn_states snap] in Hinh. rewrite Hold in Hinh. by exists r.
  - unfold removal_ids. intros (l & (n & <- & Hin)%in_map_iff & Hl)%list_elem_of_In%in_concat. rewrite <- list_elem_of_In in Hin, Hl.
    destruct (gsi_of entry n) as [x|]; [|by apply elem_of_nil in Hl]. case_bool_decide; [|by apply elem_of_nil in Hl].
    apply list_elem_of_singleton, gsi_id_inj in Hl. congruence.
Qed.
