(* ===== verification/DdlSamples.v ===== *)
(** * A server for the control plane

    A server that logs the statements it runs and answers the reconciler
    for the sample table, and the theorems about CreateTable, DeleteTable
    and UpdateTable applied to it. *)

From S2P Require Import Prelude RustStr BTree Json Storage Schema Catalog Reconciler ApiError.
From S2P Require Import DdlTypes Naming Validation ValidationSpec CreateTable TableSpecs DdlHandlers.
From S2P Require Import GsiState Backfill GsiWorkers Ddl DdlCorrect DdlUpdate.

#[local] Existing Instance Sha1Reference.instance.
#[local] Existing Instance elements_iter.

Definition sample_plan : CreateTablePlan := orders_plan "id" "ts".

#[local] Instance log_gsi : GsiServer (list string) := {
  ddl sql log := log ++ [sql];
  ddl_failed _ log := log;
  elapse _ log := log;
  index_valid _ _ := Some true;
  pk_columns _ _ := ["id"];
  backfill_chunk _ _ prev _ log := (O, prev, log);
  sampled _ _ _ _ := []
}.

#[local] Instance log_server : DdlServer (list string) := {
  relation_exists _ _ := false;
  rejects _ _ := None;
  conflict_message := "db error: ERROR: duplicate key value violates unique constraint";
  answers _ _ := answers_for sample_plan;
  entries_order := map_to_list;
  entries_order_perm _ := Permutation_refl _
}.

Definition empty_world : DdlWorld (list string) := mkDdlWorld (mkGsiWorld [] [] [] 0) (from_entries ∅) [].

(** The COMMIT of CreateTable is its eighth call; its reply is lost. *)
Definition commit_lost : Faults := mkFaults (fun n => if Nat.eqb n 7 then Some "connection lost" else None) Z.of_nat (fun _ => true).

Lemma create_table_atomic_witness :
  let '(r, w') := create_table commit_lost true (orders_request "id" "ts") empty_world in
  snap w' = snap empty_world \/ create_done (orders_request "id" "ts") (snap empty_world) (fun plan s =>
    snap w' = s \/ true = true /\ exists rr, is_ok rr = false /\ reconciled commit_lost s (snap w') rr).
Proof.
  pose proof (create_table_atomic commit_lost true (orders_request "id" "ts") empty_world (NoDup_nil_2)) as H.
  destruct (create_table commit_lost true (orders_request "id" "ts") empty_world) as [r w'] eqn:E.
  destruct r as [d|e|]; [exfalso; vm_compute in E; discriminate|exact H|exact H].
Defined.

Lemma sample_creatable : creatable sample_plan (snap empty_world).
Proof. constructor; [reflexivity| |reflexivity]. intros r Hr. by apply elem_of_nil in Hr. Qed.

Lemma create_table_served_witness :
  (exists now w', let e := entry_for_new_table now sample_plan in
     create_table no_faults true (orders_request "id" "ts") empty_world = (Ok (synthesize_description e), w')
     /\ catalog_get (dw_catalog w') (cp_table_name sample_plan) = Some e)
  /\ (exists now w' r, create_table no_faults false (orders_request "id" "ts") empty_world = (r, w') /\ is_ok r = false
     /\ snap w' = created sample_plan now (snap empty_world)).
Proof.
  apply (create_table_served no_faults (orders_request "id" "ts") sample_plan empty_world).
  - done.
  - vm_compute. reflexivity.
  - vm_compute. reflexivity.
  - exact sample_creatable.
  - split; constructor.
  - intros n. split; [done|]. apply orders_created; vm_compute; reflexivity.
  - vm_compute. discriminate.
  - replace (column_names sample_plan) with ["id"; "ts"; "tier"] by (vm_compute; reflexivity).
    rewrite !elem_of_cons, elem_of_nil. naive_solver.
  - replace (column_names sample_plan) with ["id"; "ts"; "tier"] by (vm_compute; reflexivity).
    intros a. rewrite !elem_of_cons, elem_of_nil. intros [->|[->|[->|[]]]]; vm_compute; reflexivity.
  - vm_compute. lia.
Defined.

(** The table as CreateTable leaves it; its GSI [by-date] was added online,
    removed and has left its state row, at cursor ["k9"], while the catalog
    of this instance still has it. *)
Definition date_spec : GsiSpec :=
  new_gsi_spec (derive_pg_table sample_plan) (mkGsiPlan "by-date" "date" KeyType_S None None None None).
Definition orders_stored (gsis : list GsiSpec) : MetadataRow :=
  with_gsi_specs (gsi_specs_to_json gsis) 1 "ddl" (created_row sample_plan 1).
Definition orders_entry (gsis : list GsiSpec) : TableEntry :=
  match row_to_entry (orders_stored gsis) with Ok e => e | _ => entry_for_new_table 1 sample_plan end.
Definition date_row : GsiRow :=
  set_cursor (texts_value ["k9"]) 2
    (set_phase GsiPhase_Gone None 2 (state_to_row (declared_state "Orders" (derive_pg_table sample_plan) date_spec 1))).
Definition orders_world (stored cached : list GsiSpec) : DdlWorld (list string) :=
  mkDdlWorld (mkGsiWorld [date_row] [orders_stored stored] [] 0) (from_entries {["Orders" := orders_entry cached]}) [].

Definition add_gsi (n a : string) : UpdateTableRequest :=
  mkUpdateTableRequest "Orders" (Some [mkAttributeDefinition a "S"]) None None
    (Some [mkGlobalSecondaryIndexUpdate (Some (mkGlobalSecondaryIndex n [key a "HASH"] no_projection None None)) None None])
    None None None None None None.

Lemma delete_table_atomic_witness :
  let '(r, w') := delete_table no_faults true (mkDeleteTableRequest "Orders") (orders_world [] []) in
  is_ok r = true /\ gw_states (dw_db w') = [date_row] /\ find_table "Orders" (gw_tables (dw_db w')) = None
  /\ catalog_get (dw_catalog w') "Orders" = None.
Proof.
  pose proof (delete_table_atomic no_faults true "Orders" (orders_world [] []) (NoDup_singleton _)) as H.
  destruct (delete_table no_faults true (mkDeleteTableRequest "Orders") (orders_world [] [])) as [r w'] eqn:E.
  destruct H as [Hs H]. destruct r as [d|e|]; [|exfalso; vm_compute in E; discriminate..].
  destruct H as (_ & Hf & Hc & _). split_and!; [done|exact Hs|exact Hf|by apply Hc].
Defined.

(** The removed GSI is back in the row. *)
Lemma stale_entry_overwrites_specs_witness :
  exists w' row' specs,
    (update_table no_faults false (add_gsi "by-owner" "owner") (orders_world [] [date_spec])).2 = w'
    /\ stores (orders_stored []) []
    /\ find_table "Orders" (gw_tables (dw_db w')) = Some row' /\ stores row' specs /\ date_spec ∈ specs.
Proof.
  destruct (update_table no_faults false (add_gsi "by-owner" "owner") (orders_world [] [date_spec])) as [r w'] eqn:E.
  destruct r as [d|e|]; [|exfalso; vm_compute in E; discriminate..].
  destruct (stale_entry_overwrites_specs no_faults (add_gsi "by-owner" "owner") (orders_world [] [date_spec]) d w'
              (orders_entry [date_spec]) (orders_stored []) E) as (row' & specs & H1 & H2 & H3 & _).
  - vm_compute. reflexivity.
  - vm_compute. reflexivity.
  - discriminate.
  - exists w', row', specs. split_and!; [done..|]. apply H3; [|by intros ?%elem_of_nil].
    replace (gsi_values (orders_entry [date_spec])) with [date_spec] by (vm_compute; reflexivity). by left.
Defined.

(** The GSI added again resumes after ["k9"]. *)
Lemma readded_gsi_keeps_cursor_witness :
  exists w' r, (update_table no_faults false (add_gsi "by-date" "day") (orders_world [] [])).2 = w'
    /\ find_row "Orders::by-date" (gw_states (dw_db w')) = Some r /\ gr_phase r = "backfilling"
    /\ gr_last_pk_copied r = Some (texts_value ["k9"]) /\ gr_column_specs r = column_specs_json date_spec.
Proof.
  destruct (update_table no_faults false (add_gsi "by-date" "day") (orders_world [] [])) as [res w'] eqn:E.
  destruct res as [d|e|]; [|exfalso; vm_compute in E; discriminate..].
  destruct (readded_gsi_keeps_cursor no_faults (add_gsi "by-date" "day") (orders_world [] []) d w'
              (mkGlobalSecondaryIndex "by-date" [key "day" "HASH"] no_projection None None) date_row E)
    as (r & H1 & H2 & _ & _ & _ & _ & H4 & _ & H3 & _).
  - by left.
  - by intros ?%elem_of_nil.
  - vm_compute. reflexivity.
  - exists w', r. by split_and!.
Defined.

(** Two Creates of one name in a request are both accepted. *)
Definition two_creates : UpdateTableRequest :=
  let add a := mkGlobalSecondaryIndexUpdate (Some (mkGlobalSecondaryIndex "dup" [key a "HASH"] no_projection None None)) None None in
  mkUpdateTableRequest "Orders" (Some [mkAttributeDefinition "a" "S"; mkAttributeDefinition "b" "N"]) None None
    (Some [add "a"; add "b"]) None None None None None None.

Example duplicate_creates_accepted :
  validate_update_table_body two_creates = Ok tt
  /\ exists new, new_gsi_specs two_creates (orders_entry []) = Ok new /\ map gs_name new = ["dup"; "dup"].
Proof. split; [vm_compute; reflexivity|]. eexists. split; vm_compute; reflexivity. Qed.
