(* ===== verification/AuthCache.v ===== *)
(** * The caches of the verifiers

    [SecretCache] (rekt-auth/src/sigv4/cache.rs) and [TokenCache]
    (rekt-auth/src/api_token/cache.rs) are the same structure at two
    types: a positive and a negative table with time-to-live.  The first
    section is that structure.  The second is the protocol both verifiers
    run around it: look up, on a miss ask the store, keep what the store
    answered.  The third lets any number of requests run that protocol
    interleaved, with each other and with the operator's changes to the
    store, and shows how long an answer can outlive the row it came from.

    An [Instant] is a number of nanoseconds, below the 2^63 seconds of the
    [timespec] behind it; adding a [Duration] past that panics. *)

From S2P Require Import Prelude.

(** [Instant + Duration]. *)
Definition instant_max : N := 2 ^ 63 * 1000000000.
Definition instant_add (t d : N) : option N := if (t + d <? instant_max)%N then Some (t + d)%N else None.

Lemma instant_add_Some t d x : instant_add t d = Some x <-> x = (t + d)%N /\ (t + d < instant_max)%N.
Proof. unfold instant_add. destruct (N.ltb_spec (t + d) instant_max); naive_solver lia. Qed.

Section ttl_cache.
Context {K V : Type} `{Countable K} (fetched_at : V -> N).

Record TtlCache : Type := mkTtlCache {
  positive : gmap K (V * N);
  negative : gmap K N;
  ttl : N;
  negative_ttl : N
}.

Definition cache_new (t nt : N) : TtlCache := mkTtlCache ∅ ∅ t nt.

(** [None] is a miss; [Some (inl ())] a fresh negative entry. *)
Definition cache_get (now : N) (k : K) (c : TtlCache) : option (unit + V) :=
  let negative_hit :=
    match negative c !! k with
    | Some expires_at => if (now <? expires_at)%N then Some (inl ()) else None
    | None => None
    end in
  match positive c !! k with
  | Some (v, expires_at) => if (now <? expires_at)%N then Some (inr v) else negative_hit
  | None => negative_hit
  end.

(** [None] is the panic of the addition, before anything is changed. *)
Definition insert_positive (k : K) (v : V) (c : TtlCache) : option TtlCache :=
  expires_at ← instant_add (fetched_at v) (ttl c);
  Some (mkTtlCache (<[k := (v, expires_at)]> (positive c)) (delete k (negative c)) (ttl c) (negative_ttl c)).

Definition insert_negative (now : N) (k : K) (c : TtlCache) : option TtlCache :=
  expires_at ← instant_add now (negative_ttl c);
  Some (mkTtlCache (positive c) (<[k := expires_at]> (negative c)) (ttl c) (negative_ttl c)).

(** An answer that is given once the cache has been written. *)
Definition keep {E A : Type} (r : Result E A) (written : option TtlCache) (c : TtlCache) : Result E A * TtlCache :=
  match written with Some c' => (r, c') | None => (Panic, c) end.

Definition cache_invalidate (k : K) (c : TtlCache) : TtlCache :=
  mkTtlCache (delete k (positive c)) (delete k (negative c)) (ttl c) (negative_ttl c).

Definition cache_len (c : TtlCache) : nat * nat := (size (positive c), size (negative c)).

Lemma cache_get_inr now k v c :
  cache_get now k c = Some (inr v) <-> exists x, positive c !! k = Some (v, x) /\ (now < x)%N.
Proof.
  unfold cache_get. split.
  - intros E. destruct (positive c !! k) as [[w x]|] eqn:Ep.
    + destruct (N.ltb_spec now x) as [Hx|Hx]; [injection E as ->; by exists x|].
      by destruct (negative c !! k) as [y|]; [destruct (now <? y)%N|].
    + by destruct (negative c !! k) as [y|]; [destruct (now <? y)%N|].
  - intros (x & -> & Hx). by rewrite (proj2 (N.ltb_lt _ _) Hx).
Qed.

Lemma cache_get_new now k t nt : cache_get now k (cache_new t nt) = None.
Proof. unfold cache_get. simpl. by rewrite !lookup_empty. Qed.

Lemma insert_positive_Some k v c c' :
  insert_positive k v c = Some c' <->
  (fetched_at v + ttl c < instant_max)%N /\
  c' = mkTtlCache (<[k := (v, (fetched_at v + ttl c)%N)]> (positive c)) (delete k (negative c)) (ttl c) (negative_ttl c).
Proof.
  unfold insert_positive. destruct (instant_add (fetched_at v) (ttl c)) as [x|] eqn:E; simpl.
  - apply instant_add_Some in E as [-> ?]. naive_solver.
  - split; [done|]. intros [Hl _]. by rewrite (proj2 (instant_add_Some _ _ _) (conj eq_refl Hl)) in E.
Qed.

Lemma insert_negative_Some now k c c' :
  insert_negative now k c = Some c' -> positive c' = positive c /\ ttl c' = ttl c.
Proof. unfold insert_negative. destruct (instant_add _ _); [|done]. by intros [= <-]. Qed.

Lemma cache_get_positive now k v c c' :
  insert_positive k v c = Some c' -> (now < fetched_at v + ttl c)%N -> cache_get now k c' = Some (inr v).
Proof.
  intros [_ ->]%insert_positive_Some Hn. apply cache_get_inr. exists (fetched_at v + ttl c)%N.
  split; [apply lookup_insert_eq | done].
Qed.

Lemma cache_get_invalidate now k c : cache_get now k (cache_invalidate k c) = None.
Proof. unfold cache_get, cache_invalidate; simpl. by rewrite !lookup_delete_eq. Qed.
End ttl_cache.
Arguments TtlCache K V {_ _}.

(** ** Look up, ask the store, remember *)

(** How a verifier takes the store's reply: a value to keep, a refusal to
    keep, or a failure of the store itself, which is not kept. *)
Inductive Outcome (E V : Type) : Type :=
| Accept (v : V)
| Refuse (e : E)
| Fault (e : E).
Arguments Accept {E V} v.
Arguments Refuse {E V} e.
Arguments Fault {E V} e.

Section lookup.
Context {K V E : Type} `{Countable K} (fetched_at : V -> N) (not_found : E).

Definition lookup_start (now : N) (k : K) (c : TtlCache K V) : option (Result E V) :=
  match cache_get now k c with
  | Some (inr v) => Some (Ok v)
  | Some (inl _) => Some (Err not_found)
  | None => None
  end.

Definition lookup_finish (now : N) (k : K) (o : Outcome E V) (c : TtlCache K V) : Result E V * TtlCache K V :=
  match o with
  | Accept v => keep (Ok v) (insert_positive fetched_at k v c) c
  | Refuse e => keep (Err e) (insert_negative now k c) c
  | Fault e => (Err e, c)
  end.

(** The two halves with nothing in between: the cache is read at [t0],
    the reply handled at [t1]. *)
Definition lookup_once (t0 t1 : N) (k : K) (o : Outcome E V) (c : TtlCache K V) : Result E V * TtlCache K V :=
  match lookup_start t0 k c with
  | Some r => (r, c)
  | None => lookup_finish t1 k o c
  end.

(** A time-to-live that no instant can be moved by: what the store
    accepts is never let in, the request panics. *)
Lemma huge_ttl_panics t0 t1 k v c :
  cache_get t0 k c = None -> (instant_max <= ttl c)%N -> lookup_once t0 t1 k (Accept v) c = (Panic, c).
Proof.
  intros Hg Ht. unfold lookup_once, lookup_start, lookup_finish, insert_positive, instant_add. rewrite Hg.
  by destruct (N.ltb_spec (fetched_at v + ttl c) instant_max); [lia|].
Qed.
End lookup.

(** ** Interleaved requests *)

Section histories.
Context {K V E Table Reply : Type} `{Countable K}.
Context (fetched_at : V -> N) (not_found : E).
(** What the store may answer, and what the verifier makes of an answer
    it handles at an instant and a wall-clock time. *)
Context (answers : Table -> K -> Reply -> Prop) (judge : N -> Z -> Reply -> Outcome E V).
Context (latency : N).

Inductive Pending : Type :=
| Waiting (k : K)
| Replied (k : K) (r : Reply) (read_at : N).

Record World : Type := mkWorld {
  now : N;
  wall : Z;
  table : Table;
  cache : TtlCache K V;
  pending : gmap nat Pending
}.

(** One step of the system, with the answer a request gets in it. *)
Inductive step : World -> option (K * Result E V) -> World -> Prop :=
| step_tick w d z :
    step w None (mkWorld (now w + d) z (table w) (cache w) (pending w))
| step_operator w t :
    step w None (mkWorld (now w) (wall w) t (cache w) (pending w))
| step_invalidate w k :
    step w None (mkWorld (now w) (wall w) (table w) (cache_invalidate k (cache w)) (pending w))
| step_hit w k r :
    lookup_start not_found (now w) k (cache w) = Some r ->
    step w (Some (k, r)) w
| step_miss w id k :
    lookup_start not_found (now w) k (cache w) = None -> pending w !! id = None ->
    step w None (mkWorld (now w) (wall w) (table w) (cache w) (<[id := Waiting k]> (pending w)))
| step_read w id k r :
    pending w !! id = Some (Waiting k) -> answers (table w) k r ->
    step w None (mkWorld (now w) (wall w) (table w) (cache w) (<[id := Replied k r (now w)]> (pending w)))
| step_finish w id k r t res c :
    pending w !! id = Some (Replied k r t) -> (now w <= t + latency)%N ->
    lookup_finish fetched_at (now w) k (judge (now w) (wall w) r) (cache w) = (res, c) ->
    step w (Some (k, res)) (mkWorld (now w) (wall w) (table w) c (delete id (pending w))).

(** A run, newest world first, with the answers given so far: the world
    a request was answered in, its key and its answer. *)
Inductive run (w0 : World) : list World -> list (World * K * Result E V) -> Prop :=
| run_start : run w0 [w0] []
| run_silent w ws evs w' :
    run w0 (w :: ws) evs -> step w None w' -> run w0 (w' :: w :: ws) evs
| run_answer w ws evs k r w' :
    run w0 (w :: ws) evs -> step w (Some (k, r)) w' -> run w0 (w' :: w :: ws) ((w, k, r) :: evs).

(** [v] was the judgement, at the instant [f], on an answer the store
    gave for [k] in a world of the run at most [latency] before. *)
Definition vouched (ws : list World) (k : K) (v : V) (f : N) : Prop :=
  exists wr wf r, wr ∈ ws /\ wf ∈ ws /\ answers (table wr) k r /\
    judge (now wf) (wall wf) r = Accept v /\ now wf = f /\ (now wr <= f)%N /\ (f <= now wr + latency)%N.

Lemma vouched_more w ws k v f : vouched ws k v f -> vouched (w :: ws) k v f.
Proof. intros (wr & wf & r & ? & ? & ?). exists wr, wf, r. split; [by right|]. split; [by right | done]. Qed.

Hypothesis judge_instant : forall t z r v, judge t z r = Accept v -> fetched_at v = t.

(** Every kept value is vouched for, and expires its time-to-live after
    it was judged; a reply on its way is one the store gave. *)
Definition sound_cache (T : N) (ws : list World) (c : TtlCache K V) : Prop :=
  ttl c = T /\
  forall k v x, positive c !! k = Some (v, x) ->
    x = (fetched_at v + T)%N /\ vouched ws k v (fetched_at v).
Definition sound_pending (ws : list World) (p : gmap nat Pending) : Prop :=
  forall id k r t, p !! id = Some (Replied k r t) ->
    exists wr, wr ∈ ws /\ now wr = t /\ answers (table wr) k r.
Definition ordered (ws : list World) : Prop :=
  match ws with [] => True | w :: _ => forall w', w' ∈ ws -> (now w' <= now w)%N end.

Lemma sound_cache_more w T ws c : sound_cache T ws c -> sound_cache T (w :: ws) c.
Proof. intros [Ht Hs]. split; [done|]. intros k v x E'. destruct (Hs k v x E') as [??]. eauto using vouched_more. Qed.
Lemma sound_pending_more w ws p : sound_pending ws p -> sound_pending (w :: ws) p.
Proof. intros Hs id k r t E'. destruct (Hs id k r t E') as (wr & ? & ?). exists wr. split; [by right | done]. Qed.

Lemma sound_cache_positive T ws c c' k v :
  sound_cache T ws c -> vouched ws k v (fetched_at v) -> insert_positive fetched_at k v c = Some c' -> sound_cache T ws c'.
Proof.
  intros [Ht Hs] Hv [_ ->]%insert_positive_Some. split; [done|]. simpl. intros k' v' x.
  destruct (decide (k = k')) as [->|Hne];
    [rewrite lookup_insert_eq; intros [= <- <-]; by rewrite Ht | rewrite lookup_insert_ne by done; apply Hs].
Qed.

Lemma sound_cache_delete T ws c k : sound_cache T ws c -> sound_cache T ws (cache_invalidate k c).
Proof.
  intros [Ht Hs]. split; [done|]. simpl. intros k' v' x. rewrite lookup_delete_Some. intros [_ ?]. by apply Hs.
Qed.

(** A reply that is handled vouches for what it yields. *)
Lemma finish_vouched w ws id k r t v :
  sound_pending (w :: ws) (pending w) -> ordered (w :: ws) ->
  pending w !! id = Some (Replied k r t) -> (now w <= t + latency)%N ->
  judge (now w) (wall w) r = Accept v -> vouched (w :: ws) k v (fetched_at v).
Proof.
  intros Hp Ho Ei Hl Hj. destruct (Hp _ _ _ _ Ei) as (wr & Hin & <- & Ha).
  exists wr, w, r. rewrite (judge_instant _ _ _ _ Hj). repeat split; try done; [left | by apply (Ho wr)].
Qed.

(** What a step answers is vouched for and not expired. *)
Definition fresh_answer (T : N) (ws : list World) (w : World) (k : K) (r : Result E V) : Prop :=
  match r with
  | Err _ | Panic => True
  | Ok v => vouched ws k v (fetched_at v) /\ (now w < fetched_at v + T \/ now w = fetched_at v)%N
  end.

Definition sound (T : N) (ws : list World) : Prop :=
  match ws with
  | [] => False
  | w :: _ => sound_cache T ws (cache w) /\ sound_pending ws (pending w) /\ ordered ws
  end.

Lemma step_sound T w ws e w' :
  sound T (w :: ws) -> step w e w' ->
  sound T (w' :: w :: ws) /\
  match e with Some (k, r) => fresh_answer T (w :: ws) w k r | None => True end.
Proof.
  intros (Hc & Hp & Ho) Hstep.
  assert (Ho' : (now w <= now w')%N) by (destruct Hstep; simpl; lia).
  assert (ordered (w' :: w :: ws)) as Hord.
  { intros u [->|Hu]%elem_of_cons; [lia|]. etrans; [by apply (Ho u) | done]. }
  pose proof (sound_cache_more w' _ _ _ Hc) as Hc'. pose proof (sound_pending_more w' _ _ Hp) as Hp'.
  destruct Hstep as [|w t|w k|w k r Hl|w id k Hl Hid|w id k r Hw Ha|w id k r t res c Hid Hlat Hf];
    unfold sound; simpl; (split; [|try exact I]); try (by split_and!).
  - split_and!; [by apply sound_cache_delete | done | done].
  - unfold lookup_start in Hl. destruct (cache_get (now w) k (cache w)) as [[u|v]|] eqn:Eg; try done;
      injection Hl as <-; simpl; [done|].
    apply cache_get_inr in Eg as (x & Ex & Hx). destruct (proj2 Hc _ _ _ Ex) as [-> ?]. split; [done | by left].
  - split_and!; [done | | done]. intros i k' r' t'.
    destruct (decide (id = i)) as [->|]; [by rewrite lookup_insert_eq | rewrite lookup_insert_ne by done; apply Hp'].
  - split_and!; [done | | done]. intros i k' r' t'.
    destruct (decide (id = i)) as [->|]; [|rewrite lookup_insert_ne by done; apply Hp'].
    rewrite lookup_insert_eq. intros [= <- <- <-]. exists w. repeat split; [by right; left | done].
  - split_and!; [| |done].
    + destruct (judge (now w) (wall w) r) as [v|e|e] eqn:Ej; simpl in Hf; unfold keep in Hf; [| |by injection Hf as <- <-].
      * destruct (insert_positive fetched_at k v (cache w)) eqn:Ei; injection Hf as <- <-; [|done].
        eapply sound_cache_positive; [done | | exact Ei]. apply vouched_more. by eapply finish_vouched.
      * destruct (insert_negative (now w) k (cache w)) eqn:Ei; injection Hf as <- <-; [|done].
        apply insert_negative_Some in Ei as [Hpos Httl]. destruct Hc' as [Ht Hs]. split; [by rewrite Httl|]. by rewrite Hpos.
    + intros i k' r' t'. rewrite lookup_delete_Some. intros [_ ?]. by eapply Hp'.
  - destruct (judge (now w) (wall w) r) as [v|e|e] eqn:Ej; simpl in Hf; unfold keep in Hf;
      [|destruct (insert_negative _ _ _)|]; try (by injection Hf as <- <-).
    destruct (insert_positive fetched_at k v (cache w)); injection Hf as <- <-; [|done].
    split; [by eapply finish_vouched|]. right. symmetry. by eapply judge_instant.
Qed.

Lemma run_sound T w0 ws evs :
  ttl (cache w0) = T -> positive (cache w0) = ∅ -> pending w0 = ∅ -> run w0 ws evs ->
  sound T ws /\ Forall (fun '(w, k, r) => w ∈ ws /\ fresh_answer T ws w k r) evs.
Proof.
  intros HT Hc Hp Hr. induction Hr as [|w ws evs w' _ [IHs IHe] Hs|w ws evs k r w' _ [IHs IHe] Hs].
  - split; [|constructor]. repeat split; [done | | | |].
    + by rewrite Hc, lookup_empty in H0.
    + by rewrite Hc, lookup_empty in H0.
    + intros id k r t. by rewrite Hp, lookup_empty.
    + intros u [->|[]%not_elem_of_nil]%elem_of_cons. lia.
  - destruct (step_sound _ _ _ _ _ IHs Hs) as [? _]. split; [done|].
    eapply Forall_impl; [exact IHe|]. intros [[u k] r] [? Hf]. split; [by right|].
    destruct r as [v|e|]; [|done|done]. destruct Hf. split; [by apply vouched_more | done].
  - destruct (step_sound _ _ _ _ _ IHs Hs) as [? Hf]. split; [done|]. constructor.
    + split; [by right; left|]. destruct r as [v|e|]; [|done|done]. destruct Hf. split; [by apply vouched_more | done].
    + eapply Forall_impl; [exact IHe|]. intros [[u k'] r'] [? Hf']. split; [by right|].
      destruct r' as [v|e|]; [|done|done]. destruct Hf'. split; [by apply vouched_more | done].
Qed.

(** When from the instant [T0] on the store gives no answer for [k] that
    would be accepted, no request for [k] is granted later than the
    time-to-live plus the latency after [T0]. *)
Lemma granted_bounded T w0 ws evs T0 w k v :
  ttl (cache w0) = T -> positive (cache w0) = ∅ -> pending w0 = ∅ -> run w0 ws evs ->
  (forall wr wf r v', wr ∈ ws -> wf ∈ ws -> (T0 <= now wr)%N -> (now wr <= now wf)%N -> answers (table wr) k r ->
     judge (now wf) (wall wf) r <> Accept v') ->
  (w, k, Ok v) ∈ evs -> (now w < T0 + latency + T)%N.
Proof.
  intros HT Hc Hp Hr Hrev Hin. destruct (run_sound _ _ _ _ HT Hc Hp Hr) as [_ Hf].
  rewrite Forall_forall in Hf. destruct (Hf _ Hin) as [_ [(wr & wf & r & Hwr & Hwf & Ha & Hj & Heq & Hle & Hlat) Hx]].
  assert (now wr < T0)%N by (destruct (N.lt_ge_cases (now wr) T0); [done | exfalso; apply (Hrev wr wf r v); try done; lia]).
  lia.
Qed.
End histories.
