(* ===== verification/Auth.v ===== *)
(** * The authentication chain

    rekt-auth/src/lib.rs, permissive.rs, audit.rs and sigv4/mod.rs:
    identities, the routing of a request to a verifier by its
    [Authorization] header, the verifier that accepts anyone, and the
    projection of the claims for the audit log.

    [http::request::Parts] is what the verifiers read of it: the method,
    the path and query of the URI, and the headers in order of arrival,
    names in lower case.  A header value is what [HeaderValue::to_str]
    makes of it: [None] when it has other bytes than visible ASCII. *)

From S2P Require Import Prelude RustStr BTree Json ApiError.

Inductive AuthScheme : Type :=
| AuthScheme_Sigv4
| AuthScheme_Jwt
| AuthScheme_ApiToken
| AuthScheme_Permissive.

#[export] Instance AuthScheme_eq_dec : EqDecision AuthScheme.
Proof. solve_decision. Defined.

Definition scheme_as_str (s : AuthScheme) : string :=
  match s with
  | AuthScheme_Sigv4 => "sigv4"
  | AuthScheme_Jwt => "jwt"
  | AuthScheme_ApiToken => "api_token"
  | AuthScheme_Permissive => "permissive"
  end.

Record Identity : Type := mkIdentity {
  id_scheme : AuthScheme;
  id_principal : string;
  id_issuer : option string;
  id_claims : btree Value
}.

Definition anonymous : Identity := mkIdentity AuthScheme_Permissive "anonymous" None [].

Record Parts : Type := mkParts {
  p_method : string;
  p_path : string;
  p_query : option string;
  p_headers : list (string * option string)
}.

(** [HeaderMap::get_all] and [HeaderMap::get]. *)
Definition header_values (name : string) (p : Parts) : list (option string) :=
  map snd (List.filter (fun h => String.eqb name h.1) (p_headers p)).
Definition header (name : string) (p : Parts) : option (option string) := head (header_values name p).

(** [String::from_utf8] on the bytes: the well-formed sequences of the
    Unicode standard, without overlong forms and surrogates. *)
Definition continuation (n : nat) : bool := Nat.leb 128 n && Nat.leb n 191.
Fixpoint utf8_valid (l : list nat) : bool :=
  match l with
  | [] => true
  | a :: l =>
      if Nat.ltb a 128 then utf8_valid l
      else match l with
           | [] => false
           | b :: l =>
               if Nat.leb 194 a && Nat.leb a 223 then continuation b && utf8_valid l
               else match l with
                    | [] => false
                    | c :: l =>
                        if Nat.leb 224 a && Nat.leb a 239 then
                          continuation b && continuation c
                          && (negb (Nat.eqb a 224) || Nat.leb 160 b)
                          && (negb (Nat.eqb a 237) || Nat.leb b 159) && utf8_valid l
                        else match l with
                             | [] => false
                             | d :: l =>
                                 Nat.leb 240 a && Nat.leb a 244 && continuation b && continuation c && continuation d
                                 && (negb (Nat.eqb a 240) || Nat.leb 144 b)
                                 && (negb (Nat.eqb a 244) || Nat.leb b 143) && utf8_valid l
                             end
                    end
           end
  end.
Definition from_utf8 (l : list Byte.byte) : option string :=
  if utf8_valid (map (fun b => N.to_nat (Byte.to_N b)) l) then Some (string_of_list_byte l) else None.
(** The invariant of every [String]. *)
Definition is_utf8 (s : string) : bool := utf8_valid (map (fun b => N.to_nat (Byte.to_N b)) (list_byte_of_string s)).

(** A verifier is an effect on the state the verifiers share. *)
Definition Verifier (St : Type) : Type := Parts -> list Byte.byte -> St -> Result AuthError Identity * St.

(** ** sigv4/mod.rs *)

Definition find_map {A B : Type} (f : A -> option B) : list A -> option B :=
  foldr (fun x k => match f x with Some y => Some y | None => k end) None.

Definition parse_access_key_id (auth : string) : option string :=
  match strip_prefix "AWS4-HMAC-SHA256 " auth with
  | None => None
  | Some rest =>
      match find_map (fun part => strip_prefix "Credential=" (trim part)) (split_on ","%char rest) with
      | None => None
      | Some credential =>
          match head (split_on "/"%char credential) with
          | None => None
          | Some akid => if str_is_empty akid then None else Some akid
          end
      end
  end.

(** ** permissive.rs *)

Definition permissive_verify {St : Type} : Verifier St := fun parts _ st =>
  let claims :=
    match header "authorization" parts with
    | Some (Some h) =>
        match parse_access_key_id h with
        | Some akid => BTreeMap.insert "aws_akid" (VString akid) []
        | None => []
        end
    | _ => []
    end in
  (Ok (mkIdentity AuthScheme_Permissive "anonymous" None claims), st).

(** ** The chain *)

Inductive HeaderRoute : Type :=
| HeaderRoute_Sigv4
| HeaderRoute_JwtBearer
| HeaderRoute_OpaqueBearer
| HeaderRoute_Missing
| HeaderRoute_Unknown.

(** [looks_like_jwt]: the loop over the characters, [dots] seen so far. *)
Fixpoint dots_from (dots : nat) (s : string) : bool :=
  match s with
  | EmptyString => false
  | String c s =>
      if Ascii.eqb c "."%char then
        if Nat.leb 2 (S dots) then true else dots_from (S dots) s
      else dots_from dots s
  end.
Definition looks_like_jwt (s : string) : bool := dots_from 0 s.

Definition classify_header (parts : Parts) : HeaderRoute :=
  match header "authorization" parts with
  | None => HeaderRoute_Missing
  | Some None => HeaderRoute_Unknown
  | Some (Some s) =>
      if starts_with s "AWS4-HMAC-SHA256 " then HeaderRoute_Sigv4
      else match strip_prefix "Bearer " s with
           | Some rest => if looks_like_jwt rest then HeaderRoute_JwtBearer else HeaderRoute_OpaqueBearer
           | None => HeaderRoute_Unknown
           end
  end.

Record AuthChain (St : Type) : Type := mkAuthChain {
  ch_sigv4 : option (Verifier St);
  ch_jwt : option (Verifier St);
  ch_api_token : option (Verifier St);
  ch_permissive : option (Verifier St)
}.
Arguments mkAuthChain {St}.
Arguments ch_sigv4 {St}.
Arguments ch_jwt {St}.
Arguments ch_api_token {St}.
Arguments ch_permissive {St}.

Section chain.
Context {St : Type}.

Definition chain_empty : AuthChain St := mkAuthChain None None None None.
Definition permissive_only : AuthChain St := mkAuthChain None None None (Some permissive_verify).
Definition with_sigv4 (v : Verifier St) (c : AuthChain St) : AuthChain St :=
  mkAuthChain (Some v) (ch_jwt c) (ch_api_token c) (ch_permissive c).
Definition with_jwt (v : Verifier St) (c : AuthChain St) : AuthChain St :=
  mkAuthChain (ch_sigv4 c) (Some v) (ch_api_token c) (ch_permissive c).
Definition with_api_token (v : Verifier St) (c : AuthChain St) : AuthChain St :=
  mkAuthChain (ch_sigv4 c) (ch_jwt c) (Some v) (ch_permissive c).
Definition with_permissive (v : Verifier St) (c : AuthChain St) : AuthChain St :=
  mkAuthChain (ch_sigv4 c) (ch_jwt c) (ch_api_token c) (Some v).

Definition chain_verify (c : AuthChain St) : Verifier St := fun parts body st =>
  match classify_header parts with
  | HeaderRoute_Sigv4 =>
      match ch_sigv4 c with
      | Some v => v parts body st
      | None =>
          match ch_permissive c with
          | Some p => p parts body st
          | None => (Err (AuthError_UnsupportedScheme "sigv4"), st)
          end
      end
  | HeaderRoute_JwtBearer =>
      match ch_jwt c with
      | Some v => v parts body st
      | None => (Err (AuthError_UnsupportedScheme "jwt"), st)
      end
  | HeaderRoute_OpaqueBearer =>
      match ch_api_token c with
      | Some v => v parts body st
      | None => (Err (AuthError_UnsupportedScheme "api_token"), st)
      end
  | HeaderRoute_Missing =>
      match ch_permissive c with
      | Some v => v parts body st
      | None => (Err AuthError_MissingAuthorization, st)
      end
  | HeaderRoute_Unknown => (Err AuthError_MalformedAuthorization, st)
  end.
End chain.

(** ** audit.rs *)

Definition ALWAYS_SAFE : list string :=
  ["iss"; "aud"; "sub"; "scheme"; "token_kind"; "aws_region"; "aws_service"].

Definition safe_claims_for_log (identity : Identity) (issuer_allowlist : list string) : btree Value :=
  fold_left (fun out '(k, v) =>
    let allowed := existsb (fun s => String.eqb s k) ALWAYS_SAFE
                   || existsb (fun s => String.eqb s k) issuer_allowlist in
    if allowed then BTreeMap.insert k v out else out) (id_claims identity) [].

(** ** Facts *)

Fixpoint count_dots (s : string) : nat :=
  match s with
  | EmptyString => 0
  | String c s => (if Ascii.eqb c "."%char then 1 else 0) + count_dots s
  end.

Lemma dots_from_spec n s : n < 2 -> dots_from n s = Nat.leb 2 (n + count_dots s).
Proof.
  revert n. induction s as [|c s IH]; intros n Hn; destruct n as [|[|n]]; try lia; try done;
    cbn [dots_from count_dots]; destruct (Ascii.eqb c "."%char); try done; rewrite IH by lia; done.
Qed.

Lemma looks_like_jwt_spec s : looks_like_jwt s = Nat.leb 2 (count_dots s).
Proof. unfold looks_like_jwt. by rewrite dots_from_spec by lia. Qed.

Lemma from_utf8_bytes s : is_utf8 s = true -> from_utf8 (list_byte_of_string s) = Some s.
Proof. unfold from_utf8, is_utf8. intros ->. by rewrite string_of_list_byte_of_string. Qed.

(** The verifier that decides a request: none when the header is not
    understood or the scheme is not configured. *)
Definition decider {St} (c : AuthChain St) (parts : Parts) : option (Verifier St) :=
  match header "authorization" parts with
  | None => ch_permissive c
  | Some None => None
  | Some (Some s) =>
      match strip_prefix "AWS4-HMAC-SHA256 " s, strip_prefix "Bearer " s with
      | Some _, _ => match ch_sigv4 c with Some v => Some v | None => ch_permissive c end
      | None, Some token => if Nat.leb 2 (count_dots token) then ch_jwt c else ch_api_token c
      | None, None => None
      end
  end.

Lemma chain_verify_decider {St} (c : AuthChain St) parts body st :
  match decider c parts with
  | Some v => chain_verify c parts body st = v parts body st
  | None => exists e, chain_verify c parts body st = (Err e, st)
  end.
Proof.
  unfold decider, chain_verify, classify_header, starts_with.
  destruct (header "authorization" parts) as [[s|]|].
  - destruct (strip_prefix "AWS4-HMAC-SHA256 " s) as [r|].
    + destruct (ch_sigv4 c); [done|]. destruct (ch_permissive c); eauto.
    + destruct (strip_prefix "Bearer " s) as [t|]; [|eauto].
      rewrite looks_like_jwt_spec. destruct (Nat.leb 2 _); [destruct (ch_jwt c) | destruct (ch_api_token c)]; eauto.
  - eauto.
  - destruct (ch_permissive c); eauto.
Qed.

Lemma fold_claims_spec (ok : string -> bool) (cs out : btree Value) k :
  BTreeMap.wf cs ->
  BTreeMap.get k (fold_left (fun out '(k, v) => if ok k then BTreeMap.insert k v out else out) cs out)
  = if ok k then match BTreeMap.get k cs with Some v => Some v | None => BTreeMap.get k out end
    else BTreeMap.get k out.
Proof.
  revert out. induction cs as [|[k' v] cs IH]; intros out Hwf; simpl; [by destruct (ok k)|].
  pose proof (BTreeMap.wf_get_None _ _ _ Hwf) as Hn. apply BTreeMap.wf_cons in Hwf as [_ Hwf].
  rewrite (IH _ Hwf). case_decide as Hk; [subst k'; rewrite Hn|].
  - destruct (ok k) eqn:Ek; [apply BTreeMap.get_insert_eq | done].
  - destruct (ok k') eqn:Ek'; [|done]. by rewrite BTreeMap.get_insert_ne.
Qed.

(** the audit log carries exactly the claims that are on the built-in
    list or on the issuer's list, with their values; nothing else of the
    identity's claims reaches it. *)
Theorem safe_claims_exact identity allow k :
  BTreeMap.wf (id_claims identity) ->
  BTreeMap.get k (safe_claims_for_log identity allow)
  = if decide (k ∈ ALWAYS_SAFE \/ k ∈ allow) then BTreeMap.get k (id_claims identity) else None.
Proof.
  intros Hwf. unfold safe_claims_for_log.
  rewrite (fold_claims_spec (fun k => existsb (fun s => String.eqb s k) ALWAYS_SAFE
             || existsb (fun s => String.eqb s k) allow)) by done.
  assert (Hex : forall l, existsb (fun s => String.eqb s k) l = true <-> k ∈ l).
  { intros l. rewrite existsb_exists. setoid_rewrite String.eqb_eq. rewrite list_elem_of_In. naive_solver. }
  case_decide as Hd.
  - rewrite <- !Hex, <- orb_true_iff in Hd. rewrite Hd. by destruct (BTreeMap.get k _).
  - rewrite <- !Hex, <- orb_true_iff in Hd. by rewrite (not_true_is_false _ Hd).
Qed.

(** ** The chain in front of the handlers

    [dispatch] (rekt-server/src/lib.rs) on the chain: no handler runs, and
    no stored row changes, for a request that the verifier of its scheme
    has not accepted. *)

From S2P Require Import Attr Base64Std Winnow Backend Server.

Section guarded.
Context `{Winnow} `{Base64} `{SerdeJson} `{Wire}.
Context {St : Type} `{Backend St} (state : AppState) (ddl_handler : string -> option (bytes -> Run St Response)).
Context {Au : Type}.

(** A request as the server answers it: [sa] is the state of the verifiers. *)
Definition serve (chain : AuthChain Au) (sa : Au) (panic : string) (parts : Parts) (body : bytes) (st : St) : Response * St :=
  respond panic
    (dispatch state ddl_handler (inr body) (fun b => (chain_verify chain parts b sa).1)
       match header "x-amz-target" parts with Some (Some t) => Some t | _ => None end) st.

(** C15: a request reaches an operation only if a verifier is configured
    for the scheme its [Authorization] header names, and this verifier has
    accepted it: SigV4 requests by the SigV4 verifier, or the permissive
    one when there is none; bearer tokens with two dots by the JWT
    verifier, others by the token verifier; requests without the header by
    the permissive one only.  Otherwise the stored rows stay as they are,
    and the client gets the very error the chain returned, or the 500 of a
    panic when the verifier panicked. *)
Theorem no_access_without_identity chain sa panic parts body st :
  (exists v id, decider chain parts = Some v /\ (v parts body sa).1 = Ok id
     /\ (chain_verify chain parts body sa).1 = Ok id) \/
  (exists e, (chain_verify chain parts body sa).1 = Err e
     /\ serve chain sa panic parts body st = (into_response (api_of_auth e), st)) \/
  ((chain_verify chain parts body sa).1 = Panic
     /\ (exists v, decider chain parts = Some v /\ (v parts body sa).1 = Panic)
     /\ serve chain sa panic parts body st = (panic_to_500 panic, st)).
Proof.
  unfold serve, respond, dispatch, run_bind, ret_result.
  pose proof (chain_verify_decider chain parts body sa) as Hd. cbn beta.
  destruct (decider chain parts) as [v|].
  - rewrite Hd. destruct (v parts body sa) as [[id|e|] sa'] eqn:Ev; cbn [fst map_err].
    + left. exists v, id. by rewrite Ev.
    + right. left. by exists e.
    + right. right. split; [done|]. split; [|done]. exists v. by rewrite Ev.
  - destruct Hd as [e ->]. cbn [fst map_err]. right. left. by exists e.
Qed.
End guarded.
