(* ===== verification/SigV4.v ===== *)
(** * The SigV4 verifier

    rekt-auth/src/sigv4/canonical.rs, store.rs, cache.rs and verifier.rs,
    and the encryption of crypto.rs: the canonical request, the signature,
    the store of encrypted secrets, and [Sigv4Verifier::verify].

    SHA-256, HMAC, AES-GCM, HKDF, hex and percent encoding, the grammar of
    header names and the date parser are crates of their own: classes with
    the laws their documentation gives. *)

From stdpp Require Import sorting.
From S2P Require Import Prelude RustStr BTree Json F64 ApiError Naming AuthCache Auth.

Class Sha256 : Type := {
  sha256 : list Byte.byte -> list Byte.byte;
  hmac_sha256 : list Byte.byte -> list Byte.byte -> list Byte.byte
}.

(** [hex::encode]: two lower-case digits per byte. *)
Class Hex : Type := {
  hex_encode : list Byte.byte -> string;
  hex_encode_digits : forall l, hex_encode l = String.concat "" (map hex_byte l)
}.

(** [percent_encoding]: the bytes of the set and those outside ASCII
    become [%XX], the others stay; decoding undoes it. *)
Definition upper_nibble (n : nat) : ascii := ascii_of_nat (if Nat.ltb n 10 then 48 + n else 55 + n).
Definition percent_byte (c : ascii) : string :=
  String "%" (String (upper_nibble (code c / 16)) (String (upper_nibble (code c mod 16)) "")).
Class PercentEncoding : Type := {
  utf8_percent_encode : (ascii -> bool) -> string -> string;
  percent_decode_lossy : string -> string;
  encode_empty : forall set, utf8_percent_encode set "" = "";
  encode_cons : forall set c s,
    utf8_percent_encode set (String c s) =
    (if set c || Nat.leb 128 (code c) then percent_byte c else String c "") +:+ utf8_percent_encode set s;
  decode_encode : forall set s, set "%"%char = true -> is_utf8 s = true ->
    percent_decode_lossy (utf8_percent_encode set s) = s
}.

(** [HeaderName::from_bytes] accepts tokens of RFC 7230 only. *)
Definition tchar (c : ascii) : bool := is_ascii_alphanumeric c || str_mem c "!#$%&'*+-.^_`|~".
Class HeaderNames : Type := {
  header_name_ok : string -> bool;
  header_name_token : forall s, header_name_ok s = true -> s <> "" /\ str_forall tchar s = true
}.

(** [NaiveDateTime::parse_from_str(_, "%Y%m%dT%H%M%SZ")], as seconds. *)
Class Chrono : Type := { parse_amz_date : string -> option Z }.

Inductive CryptoError : Type :=
| CryptoError_EncryptFailed
| CryptoError_DecryptFailed
| CryptoError_InvalidKeyLen (len : nat).

Definition crypto_error_to_string (e : CryptoError) : string :=
  match e with
  | CryptoError_EncryptFailed => "AES-GCM encryption failed"
  | CryptoError_DecryptFailed => "AES-GCM decryption failed (ciphertext tampered or wrong key)"
  | CryptoError_InvalidKeyLen n => "invalid key length: expected 32 bytes, got " +:+ usize_to_string (N.of_nat n)
  end.

Class Ciphers : Type := {
  aes_gcm_encrypt : list Byte.byte -> list Byte.byte -> list Byte.byte -> option (list Byte.byte);
  aes_gcm_decrypt : list Byte.byte -> list Byte.byte -> list Byte.byte -> option (list Byte.byte);
  hkdf_sha256 : list Byte.byte -> list Byte.byte -> list Byte.byte;
  aes_gcm_opens : forall key nonce pt ct,
    aes_gcm_encrypt key nonce pt = Some ct -> aes_gcm_decrypt key nonce ct = Some pt
}.

Notation octets := list_byte_of_string (only parsing).

(** ** canonical.rs *)

(** [CONTROLS] and the characters added to it. *)
Definition CONTROLS (c : ascii) : bool := Nat.ltb (code c) 32 || Nat.eqb (code c) 127.
Definition AWS_URI_ENCODE (c : ascii) : bool :=
  CONTROLS c || Nat.eqb (code c) 34 || str_mem c " !#$%&'()*+,:;<=>?@[\]^`{|}".

Definition str_join (sep : string) (l : list string) : string := String.concat sep l.

Section canonical.
Context {SH : Sha256} {HX : Hex} {PE : PercentEncoding} {HN : HeaderNames}.

Definition encode_path (path : string) : string :=
  if str_is_empty path then "/"
  else str_join "/" (map (utf8_percent_encode AWS_URI_ENCODE) (split_on "/"%char path)).

Definition encode_query_component (s : string) : string := utf8_percent_encode AWS_URI_ENCODE s.

Definition hex_sha256 (payload : list Byte.byte) : string := hex_encode (sha256 payload).

(** [kv.splitn(2, '=')]: before the first [=] and after it, if any. *)
Definition splitn2 (kv : string) : string * string :=
  let '(k, r) := span (fun c => negb (Ascii.eqb c "="%char)) kv in
  match r with EmptyString => (k, "") | String _ v => (k, v) end.

(** The parameters of a query, decoded. *)
Definition query_pairs (query : string) : list (string * string) :=
  map (fun kv => let '(k, v) := splitn2 kv in (percent_decode_lossy k, percent_decode_lossy v))
      (split_on "&"%char query).

(** The derived order of pairs. *)
Definition pair_le (p q : string * string) : Prop :=
  str_lt p.1 q.1 \/ (p.1 = q.1 /\ String.compare p.2 q.2 <> Gt).
#[export] Instance pair_le_dec : RelDecision pair_le.
Proof. intros [a b] [c d]. unfold pair_le, str_lt. simpl. apply _. Defined.

Definition canonical_query_string (query : string) : string :=
  if str_is_empty query then ""
  else
    let pairs := map (fun '(k, v) => (encode_query_component k, encode_query_component v)) (query_pairs query) in
    str_join "&" (map (fun '(k, v) => k +:+ "=" +:+ v) (merge_sort pair_le pairs)).

Definition is_ascii_whitespace (c : ascii) : bool :=
  Nat.eqb (code c) 32 || Nat.eqb (code c) 9 || Nat.eqb (code c) 10 || Nat.eqb (code c) 12 || Nat.eqb (code c) 13.

Fixpoint collapse (prev_ws : bool) (s : string) : string :=
  match s with
  | EmptyString => ""
  | String c s =>
      if is_ascii_whitespace c then if prev_ws then collapse true s else String " " (collapse true s)
      else String c (collapse false s)
  end.
Definition trim_collapse (s : string) : string := collapse false (trim s).

(** The values of one header, joined. *)
Definition joined_values (values : list (option string)) : string :=
  fold_left (fun joined v =>
    (if str_is_empty joined then joined else joined +:+ ",") +:+ trim_collapse (default "" v)) values "".

Definition name_le (p q : string * string) : Prop := String.compare p.1 q.1 <> Gt.
#[export] Instance name_le_dec : RelDecision name_le.
Proof. intros p q. unfold name_le. apply _. Defined.

Definition canonical_headers (parts : Parts) (signed_header_names : list string) : Result AuthError string :=
  let? entries := collect (fun name =>
      let lc := str_lower name in
      if header_name_ok lc then Ok (lc, joined_values (header_values lc parts)) else Panic) signed_header_names in
  Ok (String.concat "" (map (fun '(k, v) => k +:+ ":" +:+ v +:+ String (ascii_of_nat 10) "")
                            (merge_sort name_le entries))).

Definition nl : string := String (ascii_of_nat 10) "".

Definition canonical_request (parts : Parts) (query signed_headers payload_hash_hex : string)
    : Result AuthError string :=
  let canonical_uri := encode_path (p_path parts) in
  let canonical_qs := canonical_query_string query in
  let? canonical_h := canonical_headers parts (split_on ";"%char signed_headers) in
  Ok (p_method parts +:+ nl +:+ canonical_uri +:+ nl +:+ canonical_qs +:+ nl +:+ canonical_h +:+ nl
      +:+ signed_headers +:+ nl +:+ payload_hash_hex).

Definition string_to_sign (amz_date credential_scope canonical_req : string) : string :=
  "AWS4-HMAC-SHA256" +:+ nl +:+ amz_date +:+ nl +:+ credential_scope +:+ nl
  +:+ hex_sha256 (octets canonical_req).

Definition signing_key (secret date region service : string) : list Byte.byte :=
  let k_secret := "AWS4" +:+ secret in
  let k_date := hmac_sha256 (octets k_secret) (octets date) in
  let k_region := hmac_sha256 k_date (octets region) in
  let k_service := hmac_sha256 k_region (octets service) in
  hmac_sha256 k_service (octets "aws4_request").

Definition compute_signature (key : list Byte.byte) (sts : string) : string :=
  hex_encode (hmac_sha256 key (octets sts)).
End canonical.

(** ** crypto.rs and store.rs *)

Record Ciphertext : Type := mkCiphertext { ct_nonce : list Byte.byte; ct_bytes : list Byte.byte }.

Inductive StoreError : Type :=
| StoreError_Pool (m : string)
| StoreError_Pg (m : string)
| StoreError_Crypto (e : CryptoError)
| StoreError_Malformed (akid what : string).

Definition store_error_to_string (e : StoreError) : string :=
  match e with
  | StoreError_Pool m => "pool error: " +:+ m
  | StoreError_Pg m => "postgres error: " +:+ m
  | StoreError_Crypto e => "crypto error: " +:+ crypto_error_to_string e
  | StoreError_Malformed akid what => "malformed credential row for AKID " +:+ akid +:+ ": " +:+ what
  end.

Record CredentialRow : Type := mkCredentialRow {
  cr_access_key_id : string;
  cr_secret_access_key : string;
  cr_principal : string;
  cr_enabled : bool
}.

(** A row of [_rektifier_aws_credentials], without its primary key. *)
Record StoredCredential : Type := mkStoredCredential {
  sc_secret_aes_enc : list Byte.byte;
  sc_secret_nonce : list Byte.byte;
  sc_principal : string;
  sc_enabled : bool;
  sc_created_at_ms : Z;
  sc_last_used_ms : option Z
}.
Definition Credentials : Type := gmap string StoredCredential.

Section store.
Context {CI : Ciphers}.

(** The nonce is drawn at random. *)
Definition encrypt (nonce key plaintext : list Byte.byte) : CryptoError + Ciphertext :=
  match aes_gcm_encrypt key nonce plaintext with
  | Some ct => inr (mkCiphertext nonce ct)
  | None => inl CryptoError_EncryptFailed
  end.

Definition decrypt (key : list Byte.byte) (ct : Ciphertext) : CryptoError + list Byte.byte :=
  match aes_gcm_decrypt key (ct_nonce ct) (ct_bytes ct) with
  | Some pt => inr pt
  | None => inl CryptoError_DecryptFailed
  end.

Definition derive_subkey (master purpose : list Byte.byte) : list Byte.byte := hkdf_sha256 master purpose.

(** [duplicate] is the server's message for a taken primary key. *)
Definition insert_credential_row (duplicate : string) (nonce aes_key : list Byte.byte) (now_ms : Z)
    (row : CredentialRow) (t : Credentials) : StoreError + Credentials :=
  match encrypt nonce aes_key (octets (cr_secret_access_key row)) with
  | inl e => inl (StoreError_Crypto e)
  | inr ct =>
      match t !! cr_access_key_id row with
      | Some _ => inl (StoreError_Pg duplicate)
      | None => inr (<[cr_access_key_id row :=
                        mkStoredCredential (ct_bytes ct) (ct_nonce ct) (cr_principal row) (cr_enabled row) now_ms None]> t)
      end
  end.

(** [reply] is what the pool and the SELECT returned. *)
Definition fetch_credential_row (aes_key : list Byte.byte) (akid : string)
    (reply : StoreError + option StoredCredential) : StoreError + option CredentialRow :=
  match reply with
  | inl e => inl e
  | inr None => inr None
  | inr (Some row) =>
      if negb (Nat.eqb (length (sc_secret_nonce row)) 12) then
        inl (StoreError_Malformed akid "secret_nonce must be 12 bytes")
      else
        match decrypt aes_key (mkCiphertext (sc_secret_nonce row) (sc_secret_aes_enc row)) with
        | inl e => inl (StoreError_Crypto e)
        | inr pt =>
            match from_utf8 pt with
            | None => inl (StoreError_Malformed akid "decrypted secret is not UTF-8")
            | Some secret => inr (Some (mkCredentialRow akid secret (sc_principal row) (sc_enabled row)))
            end
        end
  end.
End store.

(** ** cache.rs *)

Record CachedSecret : Type := mkCachedSecret {
  cs_secret : string;
  cs_principal : string;
  cs_fetched_at : N
}.
Definition SecretCache : Type := TtlCache string CachedSecret.

(** ** verifier.rs *)

Definition DEFAULT_CLOCK_SKEW_SECS : Z := 15 * 60.
Definition SIGV4_AES_PURPOSE : list Byte.byte := octets "rektifier-sigv4-aes-v1".

Definition fetch_secret (t0 t1 : N) (akid : string) (reply : StoreError + option CredentialRow) (c : SecretCache)
    : Result AuthError CachedSecret * SecretCache :=
  match cache_get t0 akid c with
  | Some (inr s) => (Ok s, c)
  | Some (inl _) => (Err AuthError_IdentityNotFound, c)
  | None =>
      match reply with
      | inr (Some row) =>
          if cr_enabled row then
            let cached := mkCachedSecret (cr_secret_access_key row) (cr_principal row) t1 in
            keep (Ok cached) (insert_positive cs_fetched_at akid cached c) c
          else keep (Err AuthError_IdentityDisabled) (insert_negative t1 akid c) c
      | inr None => keep (Err AuthError_IdentityNotFound) (insert_negative t1 akid c) c
      | inl (StoreError_Crypto _) =>
          (Err (AuthError_Internal "credential decryption failed — master key mismatch"), c)
      | inl e => (Err (AuthError_Internal ("credential lookup failed: " +:+ store_error_to_string e)), c)
      end
  end.

Record ParsedAuth : Type := mkParsedAuth {
  pa_akid : string;
  pa_date : string;
  pa_region : string;
  pa_service : string;
  pa_signed_headers : string;
  pa_signature : string
}.

(** One part of the header: the three fields seen so far. *)
Definition auth_field (st : option string * option string * option string) (part : string) :=
  let '(credential, signed_headers, signature) := st in
  let part := trim part in
  match strip_prefix "Credential=" part with
  | Some v => (Some v, signed_headers, signature)
  | None =>
      match strip_prefix "SignedHeaders=" part with
      | Some v => (credential, Some v, signature)
      | None =>
          match strip_prefix "Signature=" part with
          | Some v => (credential, signed_headers, Some v)
          | None => st
          end
      end
  end.

Definition parse_authorization (auth : string) : Result AuthError ParsedAuth :=
  let malformed := AuthError_MalformedAuthorization in
  let? rest := ok_or (strip_prefix "AWS4-HMAC-SHA256 " auth) malformed in
  let '(credential, signed_headers, signature) :=
    fold_left auth_field (split_on ","%char rest) (None, None, None) in
  let? credential := ok_or credential malformed in
  let? signed_headers := ok_or signed_headers malformed in
  let? signature := ok_or signature malformed in
  match split_on "/"%char credential with
  | akid :: date :: region :: service :: terminator :: _ =>
      if negb (String.eqb terminator "aws4_request") then Err malformed
      else if str_is_empty akid then Err malformed
      else Ok (mkParsedAuth akid date region service signed_headers signature)
  | _ => Err malformed
  end.

Section verifier.
Context {SH : Sha256} {HX : Hex} {PE : PercentEncoding} {HN : HeaderNames} {CH : Chrono}.

Definition check_clock_skew (now_ts : Z) (amz_date : string) (max_skew_secs : Z) : Result AuthError unit :=
  let? signed_ts := ok_or (parse_amz_date amz_date) (AuthError_SignatureFailed "invalid X-Amz-Date") in
  if (max_skew_secs <? Z.abs (now_ts - signed_ts))%Z then
    Err (AuthError_SignatureFailed ("X-Amz-Date out of bounds (>" +:+
           i64_to_string max_skew_secs +:+ "s skew)"))
  else Ok tt.

(** The first half of [verify]: up to the credential it asks for. *)
Definition read_request (now_ts skew : Z) (parts : Parts) : Result AuthError (ParsedAuth * string) :=
  let? auth_header := ok_or (header "authorization" parts) AuthError_MissingAuthorization in
  let? auth_header := ok_or auth_header AuthError_MalformedAuthorization in
  let? parsed := parse_authorization auth_header in
  let? amz_date := ok_or (header "x-amz-date" parts) (AuthError_SignatureFailed "missing X-Amz-Date") in
  let? amz_date := ok_or amz_date AuthError_MalformedAuthorization in
  let? _ := check_clock_skew now_ts amz_date skew in
  Ok (parsed, amz_date).

(** The signature the server computes. *)
Definition expected_signature (parts : Parts) (body : list Byte.byte) (parsed : ParsedAuth)
    (amz_date secret : string) : Result AuthError string :=
  let payload_hash := hex_sha256 body in
  let query := default "" (p_query parts) in
  let? canonical := canonical_request parts query (pa_signed_headers parsed) payload_hash in
  let scope := pa_date parsed +:+ "/" +:+ pa_region parsed +:+ "/" +:+ pa_service parsed +:+ "/aws4_request" in
  let sts := string_to_sign amz_date scope canonical in
  let signing_k := signing_key secret (pa_date parsed) (pa_region parsed) (pa_service parsed) in
  Ok (compute_signature signing_k sts).

Definition sigv4_identity (parsed : ParsedAuth) (principal : string) : Identity :=
  mkIdentity AuthScheme_Sigv4 principal None
    (BTreeMap.insert "aws_service" (VString (pa_service parsed))
      (BTreeMap.insert "aws_region" (VString (pa_region parsed))
        (BTreeMap.insert "aws_akid" (VString (pa_akid parsed)) []))).

(** The second half: the signature is recomputed and compared. *)
Definition check_signature (parts : Parts) (body : list Byte.byte) (parsed : ParsedAuth) (amz_date : string)
    (secret : CachedSecret) : Result AuthError Identity :=
  let? computed := expected_signature parts body parsed amz_date (cs_secret secret) in
  if negb (String.eqb computed (pa_signature parsed)) then Err (AuthError_SignatureFailed "signature mismatch")
  else Ok (sigv4_identity parsed (cs_principal secret)).

(** [now_ts] is [Utc::now()] in seconds, [t0] and [t1] the instants at
    which the cache is read and the store's reply handled, [reply] what
    the store answers for a key. *)
Definition sigv4_verify (now_ts skew : Z) (t0 t1 : N) (reply : string -> StoreError + option CredentialRow)
    : Verifier SecretCache := fun parts body c =>
  match read_request now_ts skew parts with
  | Ok (parsed, amz_date) =>
      match fetch_secret t0 t1 (pa_akid parsed) (reply (pa_akid parsed)) c with
      | (Ok secret, c) => (check_signature parts body parsed amz_date secret, c)
      | (Err e, c) => (Err e, c)
      | (Panic, c) => (Panic, c)
      end
  | Err e => (Err e, c)
  | Panic => (Panic, c)
  end.
End verifier.
