(* ===== verification/SigV4Canonical.v ===== *)
(** * What a SigV4 signature binds

    The canonical request (rekt-auth/src/sigv4/canonical.rs) determines
    the request it was made from: the method, the path, the multiset of
    decoded query parameters, the payload hash, the list of signed headers
    and the normalised value of each.  Two requests that differ in one of
    these have different canonical requests, hence different inputs of the
    hash that is signed. *)

From stdpp Require Import sorting.
From S2P Require Import Prelude RustStr ApiError Naming Auth SigV4.

Definition newline : ascii := ascii_of_nat 10.

(** ** Splitting a string at a separator *)

Lemma split_last c a b a' b' :
  str_mem c b = false -> str_mem c b' = false -> a +:+ String c b = a' +:+ String c b' -> a = a' /\ b = b'.
Proof.
  revert a'. induction a as [|d a IH]; intros [|d' a']; simpl.
  - by intros _ _ [= ->].
  - intros Hb Hb' [= _ E]. rewrite E, str_mem_app in Hb. simpl in Hb. by rewrite Ascii.eqb_refl, orb_true_r in Hb.
  - intros Hb Hb' [= _ E]. rewrite <- E, str_mem_app in Hb'. simpl in Hb'. by rewrite Ascii.eqb_refl, orb_true_r in Hb'.
  - intros Hb Hb' [= -> E]. destruct (IH _ Hb Hb' E) as [-> ->]. done.
Qed.

Lemma str_join_cons sep a b l : str_join sep (a :: b :: l) = a +:+ sep +:+ str_join sep (b :: l).
Proof. done. Qed.

(** Texts joined with a separator none of them has. *)
Lemma str_join_inj c l l' :
  l <> [] -> l' <> [] -> Forall (fun s => str_mem c s = false) l -> Forall (fun s => str_mem c s = false) l' ->
  str_join (String c "") l = str_join (String c "") l' -> l = l'.
Proof.
  intros Hne Hne' Hl. revert l' Hne'. induction Hl as [|a l Ha Hl IH]; [done|].
  intros [|a' l'] Hne' Hl' E; [done|]. apply Forall_cons in Hl' as [Ha' Hl'].
  destruct l as [|b l], l' as [|b' l']; rewrite ?str_join_cons in E.
  - simpl in E. by subst.
  - simpl in E. rewrite E, str_mem_app in Ha. simpl in Ha. by rewrite Ascii.eqb_refl, orb_true_r in Ha.
  - simpl in E. rewrite <- E, str_mem_app in Ha'. simpl in Ha'. by rewrite Ascii.eqb_refl, orb_true_r in Ha'.
  - simpl in E. destruct (split_first _ _ _ _ _ Ha Ha' E) as [-> E']. f_equal. apply IH; [done|done|done|].
    apply E'.
Qed.

(** ** Percent encoding *)

Section percent.
Context {PE : PercentEncoding}.
Variable set : ascii -> bool.
Hypothesis set_percent : set "%"%char = true.

Lemma all_ascii_pair (P : ascii -> ascii -> bool) :
  forallb (fun a => forallb (P a) (map ascii_of_nat (seq 0 256))) (map ascii_of_nat (seq 0 256)) = true ->
  forall a b, P a b = true.
Proof. intros Ha a b. apply all_ascii. by apply (all_ascii (fun a => forallb (P a) (map ascii_of_nat (seq 0 256)))). Qed.

Lemma percent_byte_inj a b : percent_byte a = percent_byte b -> a = b.
Proof.
  assert (Ha : implb (String.eqb (percent_byte a) (percent_byte b)) (Ascii.eqb a b) = true).
  { revert a b. apply all_ascii_pair. by vm_compute. }
  intros E. rewrite (proj2 (String.eqb_eq _ _) E) in Ha. simpl in Ha. by apply Ascii.eqb_eq.
Qed.

Lemma percent_byte_app a b s t : percent_byte a +:+ s = percent_byte b +:+ t -> a = b /\ s = t.
Proof.
  assert (Hh : forall w x y z (u v : string),
    String "%" (String w (String x "")) +:+ u = String "%" (String y (String z "")) +:+ v -> w = y /\ x = z /\ u = v).
  { intros w x y z u v [= -> -> ->]. done. }
  intros (E1 & E2 & E3)%Hh. split; [|done]. apply percent_byte_inj. unfold percent_byte. by rewrite E1, E2.
Qed.

Lemma encode_inj s t : utf8_percent_encode set s = utf8_percent_encode set t -> s = t.
Proof.
  revert t. induction s as [|a s IH]; intros [|b t]; rewrite ?encode_empty, ?encode_cons.
  - done.
  - by destruct (set b || Nat.leb 128 (code b)).
  - by destruct (set a || Nat.leb 128 (code a)).
  - destruct (set a || Nat.leb 128 (code a)) eqn:Ea, (set b || Nat.leb 128 (code b)) eqn:Eb; intros E.
    + apply percent_byte_app in E as [-> E]. f_equal. by apply IH.
    + assert (b = "%"%char) as -> by (by injection E). by rewrite set_percent in Eb.
    + assert (a = "%"%char) as -> by (by injection E). by rewrite set_percent in Ea.
    + injection E as -> E2. f_equal. by apply IH.
Qed.

Lemma percent_byte_avoids c d : str_mem d (percent_byte c) = true -> is_ascii_alphanumeric d || Ascii.eqb d "%"%char = true.
Proof.
  intros Hd.
  assert (Ha : implb (str_mem d (percent_byte c)) (is_ascii_alphanumeric d || Ascii.eqb d "%"%char) = true).
  { revert c d Hd. intros c d _. revert c d. apply all_ascii_pair. by vm_compute. }
  by rewrite Hd in Ha.
Qed.

(** A character of the set that is neither [%] nor alphanumeric does not
    occur in an encoded text. *)
Lemma encode_avoids d s :
  set d = true -> is_ascii_alphanumeric d || Ascii.eqb d "%"%char = false -> str_mem d (utf8_percent_encode set s) = false.
Proof.
  intros Hd Hn. induction s as [|c s IH]; [by rewrite encode_empty|].
  rewrite encode_cons, str_mem_app, IH, orb_false_r.
  destruct (set c || Nat.leb 128 (code c)) eqn:Ec.
  - apply not_true_is_false. intros H. apply percent_byte_avoids in H. congruence.
  - simpl. rewrite orb_false_r. apply orb_false_iff in Ec as [Ec _].
    destruct (Ascii.eqb_spec d c); [congruence | done].
Qed.

Lemma encode_app s t : utf8_percent_encode set (s +:+ t) = utf8_percent_encode set s +:+ utf8_percent_encode set t.
Proof.
  induction s as [|c s IH]; simpl; [by rewrite encode_empty|].
  rewrite !encode_cons, IH. apply app_assoc_str.
Qed.
End percent.

(** ** The parts of the canonical request *)

Section binding.
Context {SH : Sha256} {HX : Hex} {PE : PercentEncoding} {HN : HeaderNames}.

Lemma split_on_nonempty c s : split_on c s <> [].
Proof. destruct s as [|d s]; simpl; [done|]. destruct (Ascii.eqb c d); [done|]. by destruct (split_on c s). Qed.

Lemma split_on_join c s : str_join (String c "") (split_on c s) = s.
Proof.
  induction s as [|d s IH]; [done|]. cbn [split_on]. pose proof (split_on_nonempty c s) as Hn.
  destruct (Ascii.eqb_spec c d) as [<-|Hne].
  - destruct (split_on c s) as [|w ws]; [done|]. rewrite str_join_cons, IH. done.
  - destruct (split_on c s) as [|w ws]; [done|]. rewrite <- IH. by destruct ws.
Qed.

Lemma encode_join set c l :
  set c = false -> Nat.leb 128 (code c) = false ->
  utf8_percent_encode set (str_join (String c "") l) = str_join (String c "") (map (utf8_percent_encode set) l).
Proof.
  intros Hs Hc. induction l as [|a [|b l] IH]; [apply encode_empty | done |].
  change (map (utf8_percent_encode set) (a :: b :: l))
    with (utf8_percent_encode set a :: utf8_percent_encode set b :: map (utf8_percent_encode set) l).
  rewrite !str_join_cons, !encode_app, IH. do 2 f_equal.
  rewrite encode_cons, Hs, Hc, encode_empty. done.
Qed.

(** Encoding the segments is encoding the path, as [/] is not encoded. *)
Lemma encode_path_whole path :
  encode_path path = utf8_percent_encode AWS_URI_ENCODE (if str_is_empty path then "/" else path).
Proof.
  unfold encode_path. destruct (str_is_empty path).
  - by rewrite encode_cons, encode_empty.
  - change "/" with (String "/"%char ""). rewrite <- encode_join by done. by rewrite split_on_join.
Qed.

Lemma encode_path_inj p q :
  encode_path p = encode_path q ->
  (if str_is_empty p then "/" else p) = (if str_is_empty q then "/" else q).
Proof. rewrite !encode_path_whole. by apply encode_inj. Qed.

Lemma encode_path_line p : str_mem newline (encode_path p) = false.
Proof. rewrite encode_path_whole. by apply encode_avoids. Qed.

Definition encoded_pair (p : string * string) : string * string :=
  (encode_query_component p.1, encode_query_component p.2).
Definition pair_text (p : string * string) : string := p.1 +:+ "=" +:+ p.2.

Lemma query_string_eq q :
  canonical_query_string q =
  if str_is_empty q then "" else str_join "&" (map pair_text (merge_sort pair_le (map encoded_pair (query_pairs q)))).
Proof.
  unfold canonical_query_string. destruct (str_is_empty q); [done|]. f_equal.
  assert (map (fun '(k, v) => (encode_query_component k, encode_query_component v)) (query_pairs q)
          = map encoded_pair (query_pairs q)) as -> by (apply map_ext; by intros []).
  apply map_ext. by intros [].
Qed.

Lemma query_pairs_nonempty q : query_pairs q <> [].
Proof. unfold query_pairs. pose proof (split_on_nonempty "&" q). by destruct (split_on "&" q). Qed.

Lemma encoded_text_avoids d p :
  AWS_URI_ENCODE d = true -> is_ascii_alphanumeric d || Ascii.eqb d "%"%char = false -> Ascii.eqb d "="%char = false ->
  str_mem d (pair_text (encoded_pair p)) = false.
Proof.
  intros H1 H2 H3. unfold pair_text, encoded_pair, encode_query_component. cbn [fst snd].
  rewrite !str_mem_app, !encode_avoids by done. cbn [str_mem]. by rewrite H3.
Qed.

(** The encoded pairs, in the order of the canonical string. *)
Definition sorted_pairs (q : string) : list (string * string) := merge_sort pair_le (map encoded_pair (query_pairs q)).

Lemma sorted_pairs_nonempty q : sorted_pairs q <> [].
Proof.
  unfold sorted_pairs. intros E. pose proof (merge_sort_Permutation pair_le (map encoded_pair (query_pairs q))) as Hp.
  rewrite E in Hp. apply Permutation_nil_l in Hp. pose proof (query_pairs_nonempty q). by destruct (query_pairs q).
Qed.

Lemma sorted_pairs_encoded q : Forall (fun p => exists p', p = encoded_pair p') (sorted_pairs q).
Proof.
  unfold sorted_pairs. rewrite merge_sort_Permutation. apply Forall_forall. intros p Hp.
  apply list_elem_of_fmap in Hp as (p' & -> & _). by exists p'.
Qed.

Lemma pair_text_inj ps ps' :
  Forall (fun p => exists p', p = encoded_pair p') ps -> Forall (fun p => exists p', p = encoded_pair p') ps' ->
  map pair_text ps = map pair_text ps' -> ps = ps'.
Proof.
  intros Hp. revert ps'. induction Hp as [|p ps [p0 ->] _ IH]; intros ps' Hp' E; destruct ps' as [|p' ps']; try done.
  apply Forall_cons in Hp' as [[p0' ->] Hp']. injection E as E1 E2. f_equal; [|by apply IH].
  unfold pair_text, encoded_pair, encode_query_component in E1. simpl in E1.
  apply split_first in E1 as [E1 E3]; [|by apply encode_avoids|by apply encode_avoids].
  unfold encoded_pair, encode_query_component. by rewrite E1, E3.
Qed.

Lemma map_inj {A B} (f : A -> B) l l' : (forall x y, f x = f y -> x = y) -> map f l = map f l' -> l = l'.
Proof.
  intros Hf. revert l'. induction l as [|x l IH]; intros [|y l']; simpl; try done.
  intros [= E1%Hf E2%IH]. by subst.
Qed.

Lemma encoded_pair_inj p q : encoded_pair p = encoded_pair q -> p = q.
Proof.
  destruct p, q. unfold encoded_pair, encode_query_component. simpl.
  intros [= E1%encode_inj E2%encode_inj]; [by subst | done | done].
Qed.

(** The decoded parameters of a query; an empty query has none. *)
Definition parameters (q : string) : list (string * string) := if str_is_empty q then [] else query_pairs q.

Lemma canonical_query_inj q q' :
  canonical_query_string q = canonical_query_string q' -> Permutation (parameters q) (parameters q').
Proof.
  rewrite !query_string_eq. unfold parameters. fold (sorted_pairs q) (sorted_pairs q').
  assert (Hj : forall q, str_join "&" (map pair_text (sorted_pairs q)) <> "").
  { intros q0 E. pose proof (sorted_pairs_nonempty q0). destruct (sorted_pairs q0) as [|[a b] l]; [done|].
    assert (str_mem "="%char (str_join "&" (map pair_text ((a, b) :: l))) = true) as Hm; [|by rewrite E in Hm].
    unfold pair_text. destruct l as [|p l]; simpl; rewrite !str_mem_app; simpl; by rewrite orb_true_r. }
  destruct (str_is_empty q), (str_is_empty q'); intros E; [done | by destruct (Hj q') | by destruct (Hj q) |].
  assert (Hfree : forall q, Forall (fun s => str_mem "&"%char s = false) (map pair_text (sorted_pairs q))).
  { intros q0. apply Forall_map. eapply Forall_impl; [apply sorted_pairs_encoded|].
    intros p [p' ->]. by apply encoded_text_avoids. }
  apply str_join_inj in E; [|by pose proof (sorted_pairs_nonempty q); destruct (sorted_pairs q)
                            |by pose proof (sorted_pairs_nonempty q'); destruct (sorted_pairs q')|done|done].
  apply pair_text_inj in E; [|apply sorted_pairs_encoded|apply sorted_pairs_encoded].
  unfold sorted_pairs in E.
  assert (Permutation (map encoded_pair (query_pairs q)) (map encoded_pair (query_pairs q'))) as Hp.
  { rewrite <- (merge_sort_Permutation pair_le (map encoded_pair (query_pairs q))).
    rewrite <- (merge_sort_Permutation pair_le (map encoded_pair (query_pairs q'))). by rewrite E. }
  apply Permutation_map_inv in Hp as (l & El & Hl). rewrite Hl.
  apply (map_inj encoded_pair) in El; [by rewrite El | apply encoded_pair_inj].
Qed.

Lemma str_join_avoids c sep l :
  str_mem c sep = false -> Forall (fun s => str_mem c s = false) l -> str_mem c (str_join sep l) = false.
Proof.
  intros Hs Hl. induction Hl as [|a [|b l] Ha Hl IH]; [done | done |].
  rewrite str_join_cons, !str_mem_app, Ha, Hs. exact IH.
Qed.

Lemma canonical_query_line q : str_mem newline (canonical_query_string q) = false.
Proof.
  rewrite query_string_eq. destruct (str_is_empty q); [done|]. apply str_join_avoids; [done|].
  apply Forall_map. eapply Forall_impl; [apply sorted_pairs_encoded|]. intros p [p' ->]. by apply encoded_text_avoids.
Qed.

(** ** The signed headers *)

Definition visible (c : ascii) : bool := in_range 32 126 c || Nat.eqb (code c) 9.

(** What the HTTP layer guarantees of a request: the method is a token,
    and a header value that is text is visible ASCII. *)
Definition parts_ok (p : Parts) : bool :=
  str_forall tchar (p_method p)
  && forallb (fun h => match h.2 with Some v => str_forall visible v | None => true end) (p_headers p).

Lemma strip_space_mem c s r : strip_space s = Some r -> str_mem c s = false -> str_mem c r = false.
Proof.
  unfold strip_space. induction white_space as [|w ws IH]; simpl; [done|].
  destruct (strip_prefix w s) as [r'|] eqn:E; [|done]. intros [= ->].
  apply strip_prefix_Some in E as ->. rewrite str_mem_app, orb_false_iff. by intros [].
Qed.

Lemma trim_start_mem c s : str_mem c s = false -> str_mem c (trim_start s) = false.
Proof.
  unfold trim_start. generalize (String.length s) as n. intros n. revert s.
  induction n as [|n IH]; intros s Hs; simpl; [done|].
  destruct (strip_space s) as [r|] eqn:E; [|done]. apply IH. by eapply strip_space_mem.
Qed.

Lemma trim_end_mem c s : str_mem c s = false -> str_mem c (trim_end s) = false.
Proof.
  induction s as [|d s IH]; intros Hs; [done|].
  change (trim_end (String d s)) with
    (match trim_start (String d s) with EmptyString => EmptyString | String _ _ => String d (trim_end s) end).
  destruct (trim_start (String d s)); [done|]. simpl in *. apply orb_false_iff in Hs as [Hd Hs].
  by rewrite Hd, IH.
Qed.

Lemma collapse_mem c b s : Ascii.eqb c " "%char = false -> str_mem c s = false -> str_mem c (collapse b s) = false.
Proof.
  intros Hc. revert b. induction s as [|d s IH]; intros b; simpl; [done|]. rewrite orb_false_iff. intros [Hd Hs].
  destruct (is_ascii_whitespace d); [destruct b|]; simpl; rewrite ?Hc, ?Hd; by apply IH.
Qed.

Lemma joined_values_line (vs : list (option string)) :
  Forall (fun v => match v with Some v => str_forall visible v = true | None => True end) vs ->
  str_mem newline (joined_values vs) = false.
Proof.
  intros Hv. unfold joined_values.
  match goal with |- context [fold_left ?f _ _] =>
    enough (Hg : forall acc, str_mem newline acc = false -> str_mem newline (fold_left f vs acc) = false) by (by apply Hg)
  end.
  induction Hv as [|v vs Hv _ IH]; intros acc Hacc; simpl; [done|]. apply IH.
  rewrite str_mem_app, orb_false_iff. split.
  - destruct (str_is_empty acc); [done|]. by rewrite str_mem_app, Hacc.
  - unfold trim_collapse, trim. apply collapse_mem; [done|]. apply trim_end_mem, trim_start_mem.
    destruct v as [v|]; [|done]. by apply (str_mem_forall visible).
Qed.

Lemma header_values_visible n p :
  parts_ok p = true ->
  Forall (fun v => match v with Some v => str_forall visible v = true | None => True end) (header_values n p).
Proof.
  unfold parts_ok, header_values. rewrite andb_true_iff. intros [_ Hh]. apply Forall_map, Forall_forall.
  intros [k v] [Hin _]%list_elem_of_In%filter_In. simpl.
  rewrite forallb_forall in Hh. specialize (Hh _ Hin). simpl in Hh. by destruct v.
Qed.

(** One entry per signed name. *)
Definition header_entry (p : Parts) (name : string) : string * string :=
  (str_lower name, joined_values (header_values (str_lower name) p)).
Definition header_line (e : string * string) : string := e.1 +:+ ":" +:+ e.2 +:+ nl.

Lemma canonical_headers_ok p names text :
  canonical_headers p names = Ok text ->
  Forall (fun n => header_name_ok (str_lower n) = true) names /\
  text = String.concat "" (map header_line (merge_sort name_le (map (header_entry p) names))).
Proof.
  unfold canonical_headers. intros E. res_inv. rename a into entries. apply collect_Ok_iff in E0.
  assert (Forall (fun n => header_name_ok (str_lower n) = true) names /\ entries = map (header_entry p) names) as [Hn ->].
  { clear -E0. induction E0 as [|n e names entries He _ [IH1 IH2]]; [done|].
    destruct (header_name_ok (str_lower n)) eqn:Hok; [|done]. injection He as <-.
    split; [by constructor|]. by rewrite IH2. }
  split; [done|]. f_equal. apply map_ext. by intros [].
Qed.

Lemma concat_cons a l : String.concat "" (a :: l) = a +:+ String.concat "" l.
Proof. destruct l; simpl; [by rewrite app_nil_r_str | done]. Qed.

Definition entry_ok (e : string * string) : Prop := str_mem ":"%char e.1 = false /\ str_mem newline e.2 = false.

Lemma header_line_app k v rest : header_line (k, v) +:+ rest = k +:+ String ":" (v +:+ String newline rest).
Proof. unfold header_line, nl. simpl. rewrite <- !app_assoc_str. simpl. by rewrite <- !app_assoc_str. Qed.

Lemma header_lines_inj es es' :
  Forall entry_ok es -> Forall entry_ok es' ->
  String.concat "" (map header_line es) = String.concat "" (map header_line es') -> es = es'.
Proof.
  intros He. revert es'. induction He as [|[k v] es [Hk Hv] _ IH]; intros [|[k' v'] es'] He'; cbn [map];
    rewrite ?concat_cons, ?header_line_app; intros E.
  - done.
  - by destruct k'.
  - by destruct k.
  - apply Forall_cons in He' as [[Hk' Hv'] He']. simpl in *.
    apply split_first in E as [-> E]; [|done|done]. apply split_first in E as [-> E]; [|done|done].
    f_equal. by apply IH.
Qed.

Lemma entries_ok p names :
  parts_ok p = true -> Forall (fun n => header_name_ok (str_lower n) = true) names ->
  Forall entry_ok (merge_sort name_le (map (header_entry p) names)).
Proof.
  intros Hp Hn. rewrite merge_sort_Permutation. apply Forall_map. eapply Forall_impl; [exact Hn|].
  intros n Hok. split; simpl.
  - apply header_name_token in Hok as [_ Hok]. by apply (str_mem_forall tchar).
  - apply joined_values_line. by apply header_values_visible.
Qed.

(** The canonical headers of one list of names determine the value of
    every name. *)
Lemma canonical_headers_inj p p' names text :
  parts_ok p = true -> parts_ok p' = true ->
  canonical_headers p names = Ok text -> canonical_headers p' names = Ok text ->
  Forall (fun n => joined_values (header_values (str_lower n) p) = joined_values (header_values (str_lower n) p')) names.
Proof.
  intros Hp Hp' E E'. apply canonical_headers_ok in E as [Hn E], E' as [_ E'].
  rewrite E in E'. apply header_lines_inj in E'; [|by apply entries_ok|by apply entries_ok].
  apply Forall_forall. intros n Hin.
  assert (header_entry p n ∈ map (header_entry p') names) as Hm.
  { rewrite <- (merge_sort_Permutation name_le), <- E', merge_sort_Permutation. by apply list_elem_of_fmap_2. }
  apply list_elem_of_fmap in Hm as (n' & En & _). unfold header_entry in En. injection En as E1 E2.
  by rewrite E2, <- E1.
Qed.

Lemma cut_line a b a' b' :
  str_mem newline a = false -> str_mem newline a' = false -> a +:+ nl +:+ b = a' +:+ nl +:+ b' -> a = a' /\ b = b'.
Proof. intros Ha Ha' E. by apply (split_first newline). Qed.

Lemma cut_last_line a b a' b' :
  str_mem newline b = false -> str_mem newline b' = false -> a +:+ nl +:+ b = a' +:+ nl +:+ b' -> a = a' /\ b = b'.
Proof. intros Hb Hb' E. by apply (split_last newline). Qed.

Lemma last_line_last a b c : a +:+ nl +:+ b +:+ nl +:+ c = (a +:+ nl +:+ b) +:+ nl +:+ c.
Proof. by rewrite !app_assoc_str. Qed.

Lemma method_line p : parts_ok p = true -> str_mem newline (p_method p) = false.
Proof. unfold parts_ok. rewrite andb_true_iff. intros [Hm _]. by apply (str_mem_forall tchar). Qed.

(** Two requests with the same canonical request, the text whose hash
    a SigV4 signature signs, agree in everything the text is made of: the
    method, the path, the decoded query parameters up to their order, the
    payload hash, the list of signed headers, and for each of them the
    normalised value. *)
Lemma canonical_request_binds p p' q q' sh sh' ph ph' text :
  parts_ok p = true -> parts_ok p' = true ->
  str_mem newline sh = false -> str_mem newline sh' = false ->
  str_mem newline ph = false -> str_mem newline ph' = false ->
  canonical_request p q sh ph = Ok text -> canonical_request p' q' sh' ph' = Ok text ->
  p_method p = p_method p' /\
  (if str_is_empty (p_path p) then "/" else p_path p) = (if str_is_empty (p_path p') then "/" else p_path p') /\
  Permutation (parameters q) (parameters q') /\
  sh = sh' /\ ph = ph' /\
  Forall (fun n => joined_values (header_values (str_lower n) p) = joined_values (header_values (str_lower n) p'))
    (split_on ";"%char sh).
Proof.
  intros Hp Hp' Hsh Hsh' Hph Hph'. unfold canonical_request. intros E E'.
  destruct (canonical_headers p _) as [h| |] eqn:Eh; [injection E as <- | done | done].
  destruct (canonical_headers p' _) as [h'| |] eqn:Eh'; [injection E' as E'; symmetry in E' | done | done].
  apply cut_line in E' as [Em E']; [|by apply method_line|by apply method_line].
  apply cut_line in E' as [Eu E']; [|by apply encode_path_line|by apply encode_path_line].
  apply cut_line in E' as [Eq E']; [|by apply canonical_query_line|by apply canonical_query_line].
  change (h +:+ nl +:+ sh +:+ nl +:+ ph = h' +:+ nl +:+ sh' +:+ nl +:+ ph') in E'. rewrite !last_line_last in E'.
  apply cut_last_line in E' as [E' ->]; [|done|done]. apply cut_last_line in E' as [-> ->]; [|done|done].
  split_and!; try done; [by apply encode_path_inj | by apply canonical_query_inj|].
  by eapply canonical_headers_inj.
Qed.
End binding.
