(* ===== verification/SigV4Verify.v ===== *)
(** * Correctness of the SigV4 verifier

    The [Authorization] value parses back; a client whose credential was
    registered and who signs its request as AWS documents it is accepted; two accepted
    requests with one signature are the same request, or a collision of
    the hash is at hand; a credential that was disabled or deleted is
    refused after the time-to-live of the cache.  A name in
    [SignedHeaders] that is no header name makes the verifier panic. *)

From stdpp Require Import sorting.
From S2P Require Import Prelude RustStr ApiError Naming AuthCache Auth SigV4 SigV4Canonical.

(** ** Parsing the header value *)

Definition graph : ascii -> bool := in_range 33 126.
Definition field_char (c : ascii) : bool := graph c && negb (Ascii.eqb c ","%char).
Definition scope_char (c : ascii) : bool := field_char c && negb (Ascii.eqb c "/"%char).

(** The fields a client may put in the header. *)
Definition fields_ok (p : ParsedAuth) : bool :=
  negb (str_is_empty (pa_akid p))
  && str_forall scope_char (pa_akid p) && str_forall scope_char (pa_date p)
  && str_forall scope_char (pa_region p) && str_forall scope_char (pa_service p)
  && str_forall field_char (pa_signed_headers p) && str_forall field_char (pa_signature p).

Definition credential_value (p : ParsedAuth) : string :=
  pa_akid p +:+ String "/" (pa_date p +:+ String "/" (pa_region p +:+ String "/" (pa_service p +:+ "/aws4_request"))).
Definition authorization_value (p : ParsedAuth) : string :=
  "AWS4-HMAC-SHA256 " +:+
  (("Credential=" +:+ credential_value p) +:+ String ","
    (" SignedHeaders=" +:+ pa_signed_headers p +:+ String "," (" Signature=" +:+ pa_signature p))).

Lemma split_on_none c s : str_mem c s = false -> split_on c s = [s].
Proof.
  induction s as [|d s IH]; simpl; [done|]. rewrite orb_false_iff. intros [-> Hs]. by rewrite (IH Hs).
Qed.

Lemma split_on_app c a b : str_mem c a = false -> split_on c (a +:+ String c b) = a :: split_on c b.
Proof.
  induction a as [|d a IH]; simpl; [by rewrite Ascii.eqb_refl|]. rewrite orb_false_iff.
  intros [-> Ha]. by rewrite (IH Ha).
Qed.

Lemma strip_space_graph c s : graph c = true -> strip_space (String c s) = None.
Proof.
  intros Hc. unfold strip_space.
  assert (Forall (fun w => match w with String d _ => graph d = false | EmptyString => False end) white_space) as Hw.
  { vm_compute. repeat constructor. }
  induction Hw as [|[|d w] ws Hd _ IH]; simpl; [done | done |].
  destruct (Ascii.eqb_spec d c) as [->|]; [congruence | done].
Qed.

Lemma trim_end_graph s : str_forall graph s = true -> trim_end s = s.
Proof.
  induction s as [|c s IH]; [done|]. cbn [str_forall]. rewrite andb_true_iff. intros [Hc Hs].
  change (trim_end (String c s)) with
    (match trim_start (String c s) with EmptyString => EmptyString | String _ _ => String c (trim_end s) end).
  rewrite trim_start_id by (by apply strip_space_graph). by rewrite IH.
Qed.

Lemma trim_graph s : str_forall graph s = true -> trim s = s.
Proof.
  intros Hs. unfold trim. rewrite trim_start_id; [by apply trim_end_graph|].
  destruct s as [|c s]; [done|]. simpl in Hs. apply andb_true_iff in Hs as [Hc _]. by apply strip_space_graph.
Qed.

Lemma trim_blank s : str_forall graph s = true -> trim (String " " s) = s.
Proof.
  intros Hs. transitivity (trim s); [|by apply trim_graph]. unfold trim. f_equal.
Qed.

Lemma field_graph s : str_forall field_char s = true -> str_forall graph s = true.
Proof. apply str_forall_impl. intros c [? _]%andb_true_iff. done. Qed.
Lemma scope_field s : str_forall scope_char s = true -> str_forall field_char s = true.
Proof. apply str_forall_impl. intros c [? _]%andb_true_iff. done. Qed.
Lemma field_no_comma s : str_forall field_char s = true -> str_mem ","%char s = false.
Proof. by apply str_mem_forall. Qed.
Lemma scope_no_slash s : str_forall scope_char s = true -> str_mem "/"%char s = false.
Proof. by apply str_mem_forall. Qed.

Lemma credential_field p : fields_ok p = true -> str_forall field_char (credential_value p) = true.
Proof.
  unfold fields_ok, credential_value. rewrite !andb_true_iff. intros [[[[[[_ Ha] Hd] Hr] Hs] _] _].
  apply scope_field in Ha, Hd, Hr, Hs.
  rewrite str_forall_app. simpl. rewrite str_forall_app. simpl. rewrite str_forall_app. simpl.
  rewrite str_forall_app, Ha, Hd, Hr, Hs. done.
Qed.

Lemma credential_split p :
  fields_ok p = true ->
  split_on "/"%char (credential_value p) = [pa_akid p; pa_date p; pa_region p; pa_service p; "aws4_request"].
Proof.
  unfold fields_ok, credential_value. rewrite !andb_true_iff. intros [[[[[[_ Ha] Hd] Hr] Hs] _] _].
  apply scope_no_slash in Ha, Hd, Hr, Hs. by rewrite !split_on_app.
Qed.

Lemma parse_authorization_value p : fields_ok p = true -> parse_authorization (authorization_value p) = Ok p.
Proof.
  intros Hok. pose proof (credential_field p Hok) as Hc. pose proof (credential_split p Hok) as Hsp.
  unfold fields_ok in Hok. rewrite !andb_true_iff in Hok. destruct Hok as [[[[[[Hne _] _] _] _] Hh] Hs].
  unfold parse_authorization, authorization_value.
  rewrite (proj2 (strip_prefix_Some _ _ _) eq_refl). cbn [ok_or].
  rewrite split_on_app by (rewrite str_mem_app, (field_no_comma _ Hc); done).
  rewrite (app_assoc_str " SignedHeaders="), split_on_app by (rewrite str_mem_app, (field_no_comma _ Hh); done).
  rewrite split_on_none by (rewrite str_mem_app, (field_no_comma _ Hs); done).
  cbn [fold_left]. unfold auth_field at 3.
  rewrite trim_graph by (rewrite str_forall_app, (field_graph _ Hc); done).
  rewrite (proj2 (strip_prefix_Some "Credential=" _ _) eq_refl).
  unfold auth_field at 2. change (" SignedHeaders=" +:+ pa_signed_headers p)
    with (String " " ("SignedHeaders=" +:+ pa_signed_headers p)).
  rewrite trim_blank by (rewrite str_forall_app, (field_graph _ Hh); done).
  rewrite (proj2 (strip_prefix_Some "SignedHeaders=" _ _) eq_refl).
  unfold auth_field. change (" Signature=" +:+ pa_signature p) with (String " " ("Signature=" +:+ pa_signature p)).
  rewrite trim_blank by (rewrite str_forall_app, (field_graph _ Hs); done).
  rewrite (proj2 (strip_prefix_Some "Signature=" _ _) eq_refl).
  simpl. rewrite Hsp. simpl. destruct (str_is_empty (pa_akid p)); [done|]. by destruct p.
Qed.

(** ** Hexadecimal *)

Section verifying.
Context {SH : Sha256} {HX : Hex} {PE : PercentEncoding} {HN : HeaderNames} {CH : Chrono} {CI : Ciphers}.

Lemma all_bytes (P : Byte.byte -> bool) :
  forallb P (map (fun n => default Byte.x00 (Byte.of_nat n)) (seq 0 256)) = true -> forall b, P b = true.
Proof.
  rewrite forallb_forall. intros Hp b. apply Hp. apply in_map_iff. exists (Byte.to_nat b). split.
  - by rewrite Byte.of_to_nat.
  - apply in_seq. pose proof (Byte.to_nat_bounded b). lia.
Qed.

Lemma hex_byte_inj a b : hex_byte a = hex_byte b -> a = b.
Proof.
  assert (Hh : implb (String.eqb (hex_byte a) (hex_byte b)) (Byte.eqb a b) = true).
  { revert b. apply all_bytes. revert a. apply (all_bytes (fun a => forallb _ _)). by vm_compute. }
  intros E. rewrite (proj2 (String.eqb_eq _ _) E) in Hh. simpl in Hh. by apply Byte.byte_dec_bl.
Qed.

Lemma hex_byte_app a b s t : hex_byte a +:+ s = hex_byte b +:+ t -> a = b /\ s = t.
Proof.
  assert (Hh : forall w x y z (u v : string),
    String w (String x "") +:+ u = String y (String z "") +:+ v -> w = y /\ x = z /\ u = v).
  { intros w x y z u v [= -> -> ->]. done. }
  intros (E1 & E2 & E3)%Hh. split; [|done]. apply hex_byte_inj. unfold hex_byte. by rewrite E1, E2.
Qed.

Lemma hex_encode_inj l l' : hex_encode l = hex_encode l' -> l = l'.
Proof.
  rewrite !hex_encode_digits. revert l'.
  induction l as [|a l IH]; intros [|b l']; cbn [map]; rewrite ?concat_cons; try done.
  intros [-> E]%hex_byte_app. f_equal. by apply IH.
Qed.

Lemma hex_encode_field l : str_forall field_char (hex_encode l) = true.
Proof.
  rewrite hex_encode_digits. induction l as [|a l IH]; [done|]. cbn [map].
  rewrite concat_cons, str_forall_app, IH, andb_true_r. revert a. apply all_bytes. by vm_compute.
Qed.

Lemma hex_encode_line l : str_mem newline (hex_encode l) = false.
Proof. apply (str_mem_forall field_char); [done | apply hex_encode_field]. Qed.

(** ** What acceptance means *)

Lemma read_request_Ok now_ts skew p parsed d :
  read_request now_ts skew p = Ok (parsed, d) <->
  exists auth ts, header "authorization" p = Some (Some auth) /\ parse_authorization auth = Ok parsed /\
    header "x-amz-date" p = Some (Some d) /\ parse_amz_date d = Some ts /\ (Z.abs (now_ts - ts) <= skew)%Z.
Proof.
  unfold read_request, check_clock_skew. split.
  - destruct (header "authorization" p) as [[auth|]|]; try done. cbn [ok_or].
    destruct (parse_authorization auth) as [pa| |] eqn:Ep; try done.
    destruct (header "x-amz-date" p) as [[d'|]|]; try done. cbn [ok_or].
    destruct (parse_amz_date d') as [ts|] eqn:Et; try done. cbn [ok_or].
    destruct (Z.ltb_spec skew (Z.abs (now_ts - ts))); try done. intros [= -> ->]. by exists auth, ts.
  - intros (auth & ts & -> & Hp & -> & Ht & Hs). cbn [ok_or]. rewrite Hp, Ht. cbn [ok_or].
    by rewrite (proj2 (Z.ltb_ge _ _) Hs).
Qed.

Lemma sigv4_accepts now_ts skew t0 t1 reply parts body c id c' :
  sigv4_verify now_ts skew t0 t1 reply parts body c = (Ok id, c') ->
  exists parsed amz_date secret,
    read_request now_ts skew parts = Ok (parsed, amz_date) /\
    fetch_secret t0 t1 (pa_akid parsed) (reply (pa_akid parsed)) c = (Ok secret, c') /\
    expected_signature parts body parsed amz_date (cs_secret secret) = Ok (pa_signature parsed) /\
    id = sigv4_identity parsed (cs_principal secret).
Proof.
  unfold sigv4_verify. destruct (read_request now_ts skew parts) as [[parsed amz_date]| |] eqn:Er; [|done|done].
  destruct (fetch_secret _ _ _ _ c) as [[secret|e|] c1] eqn:Ef; [|done|done]. intros [= Ec ->].
  unfold check_signature in Ec. destruct (expected_signature _ _ _ _ _) as [computed| |] eqn:Es; [|done|done].
  destruct (String.eqb_spec computed (pa_signature parsed)) as [->|]; [|done]. injection Ec as <-.
  by exists parsed, amz_date, secret.
Qed.

Lemma parts_headers_visible p n v : parts_ok p = true -> header n p = Some (Some v) -> str_forall visible v = true.
Proof.
  intros Hp Hh. pose proof (header_values_visible n p Hp) as Hv. unfold header in Hh.
  destruct (header_values n p) as [|w ws]; [done|]. injection Hh as ->. by apply Forall_cons in Hv as [Hv _].
Qed.

Lemma strip_prefix_forall f p s r : strip_prefix p s = Some r -> str_forall f s = true -> str_forall f r = true.
Proof. rewrite strip_prefix_Some. intros ->. rewrite str_forall_app, andb_true_iff. by intros []. Qed.

Lemma split_on_mem c d s w : str_mem d s = false -> w ∈ split_on c s -> str_mem d w = false.
Proof.
  revert w. induction s as [|e s IH]; intros w; simpl.
  - intros _ [->|[]%not_elem_of_nil]%elem_of_cons. done.
  - rewrite orb_false_iff. intros [He Hs]. destruct (Ascii.eqb c e).
    + intros [->|Hw]%elem_of_cons; [done | by apply IH].
    + pose proof (split_on_nonempty c s). destruct (split_on c s) as [|x xs]; [done|].
      intros [->|Hw]%elem_of_cons; simpl; [rewrite He; apply IH; [done|left] | apply IH; [done | by right]].
Qed.

Lemma auth_fields_line l st :
  Forall (fun w => str_mem newline w = false) l ->
  (forall sh, st.1.2 = Some sh -> str_mem newline sh = false) ->
  forall sh, (fold_left auth_field l st).1.2 = Some sh -> str_mem newline sh = false.
Proof.
  intros Hl. revert st. induction Hl as [|w l Hw _ IH]; intros [[cr sh0] sg] Hst; [done|]. cbn [fold_left]. apply IH.
  assert (str_mem newline (trim w) = false) as Ht by (by apply trim_end_mem, trim_start_mem).
  unfold auth_field. destruct (strip_prefix "Credential=" (trim w)); [done|].
  destruct (strip_prefix "SignedHeaders=" (trim w)) as [v|] eqn:E; [|by destruct (strip_prefix "Signature=" (trim w))].
  simpl. intros sh [= <-]. apply strip_prefix_Some in E. rewrite E, str_mem_app in Ht.
  by apply orb_false_iff in Ht as [_ Ht].
Qed.

(** The signed headers of a parsed header value are on one line. *)
Lemma parse_authorization_line auth p :
  str_mem newline auth = false -> parse_authorization auth = Ok p -> str_mem newline (pa_signed_headers p) = false.
Proof.
  intros Ha. unfold parse_authorization.
  destruct (strip_prefix "AWS4-HMAC-SHA256 " auth) as [rest|] eqn:Er; [|done]. cbn [ok_or].
  apply strip_prefix_Some in Er. rewrite Er, str_mem_app in Ha. apply orb_false_iff in Ha as [_ Ha].
  pose proof (auth_fields_line (split_on ","%char rest) (None, None, None)) as Hl.
  destruct (fold_left auth_field _ _) as [[cr sh] sg]. simpl in Hl.
  destruct cr as [cr|], sh as [sh|], sg as [sg|]; try done. cbn [ok_or].
  destruct (split_on "/"%char cr) as [|? [|? [|? [|? [|? ?]]]]]; try done.
  destruct (negb _); [done|]. destruct (str_is_empty _); [done|]. intros [= <-]. simpl.
  apply Hl; [|done|done]. apply Forall_forall. intros w. by apply split_on_mem.
Qed.

Lemma octets_inj s t : list_byte_of_string s = list_byte_of_string t -> s = t.
Proof. intros E. by rewrite <- (string_of_list_byte_of_string s), E, string_of_list_byte_of_string. Qed.

(** The text that is hashed, and the text that is signed. *)
Definition request_text (p : Parts) (body : list Byte.byte) (parsed : ParsedAuth) : Result AuthError string :=
  canonical_request p (default "" (p_query p)) (pa_signed_headers parsed) (hex_sha256 body).
Definition scope_of (parsed : ParsedAuth) : string :=
  pa_date parsed +:+ "/" +:+ pa_region parsed +:+ "/" +:+ pa_service parsed +:+ "/aws4_request".
Definition key_of (secret : string) (parsed : ParsedAuth) : list Byte.byte :=
  signing_key secret (pa_date parsed) (pa_region parsed) (pa_service parsed).

Lemma expected_signature_Ok p body parsed d secret sig :
  expected_signature p body parsed d secret = Ok sig <->
  exists text, request_text p body parsed = Ok text /\
    sig = compute_signature (key_of secret parsed) (string_to_sign d (scope_of parsed) text).
Proof.
  unfold expected_signature, request_text, key_of, scope_of.
  destruct (canonical_request _ _ _ _) as [text| |]; split; try (by intros (? & ? & ?)); try done.
  - intros [= <-]. by exists text.
  - by intros (? & [= <-] & ->).
Qed.

Definition collides {A B : Type} (f : A -> B) (x y : A) : Prop := x <> y /\ f x = f y.

(** Everything a signature covers is the same in both requests. *)
Definition same_request (sh : string) (p p' : Parts) (body body' : list Byte.byte) : Prop :=
  p_method p = p_method p' /\
  (if str_is_empty (p_path p) then "/" else p_path p) = (if str_is_empty (p_path p') then "/" else p_path p') /\
  Permutation (parameters (default "" (p_query p))) (parameters (default "" (p_query p'))) /\
  Forall (fun n => joined_values (header_values (str_lower n) p) = joined_values (header_values (str_lower n) p'))
    (split_on ";"%char sh) /\
  body = body'.

(** C14: when two requests are accepted with one [Authorization] value (so
    with one list of signed headers), one [X-Amz-Date] and one secret, they
    agree in method, path, query parameters,
    body and the signed headers, or two different inputs with the same
    SHA-256 or HMAC-SHA-256 value are among the texts the server has
    computed for them: a request cannot be changed under its signature. *)
Theorem tampering_needs_collision now_ts now_ts' skew p p' body body' parsed d secret id id' :
  parts_ok p = true -> parts_ok p' = true ->
  read_request now_ts skew p = Ok (parsed, d) -> read_request now_ts' skew p' = Ok (parsed, d) ->
  check_signature p body parsed d secret = Ok id -> check_signature p' body' parsed d secret = Ok id' ->
  same_request (pa_signed_headers parsed) p p' body body' \/
  exists text text', request_text p body parsed = Ok text /\ request_text p' body' parsed = Ok text' /\
    (collides sha256 body body' \/
     collides sha256 (octets text) (octets text') \/
     collides (hmac_sha256 (key_of (cs_secret secret) parsed))
       (octets (string_to_sign d (scope_of parsed) text)) (octets (string_to_sign d (scope_of parsed) text'))).
Proof.
  intros Hp Hp' Hr _ Hc Hc'.
  apply read_request_Ok in Hr as (auth & _ & Ha & Hpa & _).
  assert (str_mem newline (pa_signed_headers parsed) = false) as Hsh.
  { apply (parse_authorization_line auth); [|done].
    apply (str_mem_forall visible); [done|]. exact (parts_headers_visible _ _ _ Hp Ha). }
  assert (Hsig : forall q b i, check_signature q b parsed d secret = Ok i ->
            expected_signature q b parsed d (cs_secret secret) = Ok (pa_signature parsed)).
  { intros q b i. unfold check_signature. destruct (expected_signature q b _ _ _) as [sig| |]; try done.
    by destruct (String.eqb_spec sig (pa_signature parsed)) as [->|]. }
  apply Hsig, expected_signature_Ok in Hc as (text & Et & Es). apply Hsig, expected_signature_Ok in Hc' as (text' & Et' & Es').
  rewrite Es in Es'. apply hex_encode_inj in Es'.
  set (sts := string_to_sign d (scope_of parsed) text) in *. set (sts' := string_to_sign d (scope_of parsed) text') in *.
  destruct (decide (octets sts = octets sts')) as [E|Hne];
    [|right; exists text, text'; split_and!; [done|done|]; right; right; by split].
  apply octets_inj in E. subst sts sts'. unfold string_to_sign in E.
  do 6 apply app_inv_head_str in E. apply hex_encode_inj in E.
  destruct (decide (octets text = octets text')) as [E2|Hne];
    [|right; exists text, text'; split_and!; [done|done|]; right; left; by split].
  apply octets_inj in E2 as <-.
  destruct (decide (body = body')) as [->|Hne].
  - left. unfold request_text in Et, Et'.
    destruct (canonical_request_binds p p' _ _ _ _ _ _ _ Hp Hp' Hsh Hsh (hex_encode_line _) (hex_encode_line _) Et Et')
      as (? & ? & ? & _ & _ & ?). by split_and!.
  - right. exists text, text. split_and!; [done|done|]. left. split; [done|]. unfold request_text in Et, Et'.
    destruct (canonical_request_binds p p' _ _ _ _ _ _ _ Hp Hp' Hsh Hsh (hex_encode_line _) (hex_encode_line _) Et Et')
      as (_ & _ & _ & _ & Eh & _). by apply hex_encode_inj.
Qed.

(** ** A client that signs *)

Definition add_header (name value : string) (p : Parts) : Parts :=
  mkParts (p_method p) (p_path p) (p_query p) (p_headers p ++ [(name, Some value)]).
Definition with_signature (f : ParsedAuth) (sig : string) : ParsedAuth :=
  mkParsedAuth (pa_akid f) (pa_date f) (pa_region f) (pa_service f) (pa_signed_headers f) sig.

Lemma header_values_add n k v p :
  header_values n (add_header k v p) = header_values n p ++ (if String.eqb n k then [Some v] else []).
Proof.
  unfold header_values, add_header. simpl. rewrite List.filter_app, map_app. f_equal. simpl. by destruct (String.eqb n k).
Qed.

Lemma canonical_headers_ext p p' names :
  Forall (fun n => header_values (str_lower n) p = header_values (str_lower n) p') names ->
  canonical_headers p names = canonical_headers p' names.
Proof.
  intros Hn. unfold canonical_headers.
  assert (collect (fun name => if header_name_ok (str_lower name)
            then Ok (str_lower name, joined_values (header_values (str_lower name) p)) else Panic) names
          = collect (fun name => if header_name_ok (str_lower name)
            then Ok (E := AuthError) (str_lower name, joined_values (header_values (str_lower name) p')) else Panic) names) as E.
  { induction Hn as [|n names En _ IH]; [done|]. simpl. by rewrite En, IH. }
  by rewrite E.
Qed.

Lemma expected_signature_add p body f d secret v sig :
  Forall (fun n => str_lower n <> "authorization") (split_on ";"%char (pa_signed_headers f)) ->
  expected_signature (add_header "authorization" v p) body (with_signature f sig) d secret
  = expected_signature p body f d secret.
Proof.
  intros Hn. unfold expected_signature, canonical_request. simpl.
  rewrite (canonical_headers_ext (add_header "authorization" v p) p); [done|].
  eapply Forall_impl; [exact Hn|]. intros n Hne. rewrite header_values_add.
  by rewrite (proj2 (String.eqb_neq _ _) Hne), app_nil_r.
Qed.

(** ** A client of AWS

    What a client that follows the documentation of AWS sends, written
    without the server's code: every octet that is not unreserved is
    percent-encoded, once on the wire and once more in the canonical path;
    the parameters are sorted by their encoded names and values, the
    headers by name; the spaces of a header value are squeezed. *)

Definition unreserved (c : ascii) : bool := is_ascii_alphanumeric c || str_mem c "-._~".
Fixpoint uri_encode (s : string) : string :=
  match s with
  | EmptyString => ""
  | String c s => (if unreserved c then String c "" else percent_byte c) +:+ uri_encode s
  end.

Record ClientRequest : Type := mkClientRequest {
  cq_method : string;
  cq_segments : list string;
  cq_params : list (string * string);
  cq_signed : list (string * string);
  cq_unsigned : list (string * string);
  cq_payload : list Byte.byte
}.

Definition encoded_param (p : string * string) : string * string := (uri_encode p.1, uri_encode p.2).
Definition path_with (enc : string -> string) (r : ClientRequest) : string := "/" +:+ str_join "/" (map enc (cq_segments r)).
Definition wire (r : ClientRequest) : Parts :=
  mkParts (cq_method r) (path_with uri_encode r)
    (match cq_params r with [] => None | ps => Some (str_join "&" (map (fun p => pair_text (encoded_param p)) ps)) end)
    (map (fun h => (h.1, Some h.2)) (cq_signed r ++ cq_unsigned r)).

(** The words of a value, one space between them. *)
Definition squeeze (v : string) : string :=
  str_join " " (List.filter (fun w => negb (str_is_empty w)) (split_on " "%char v)).

Definition canonical_of (r : ClientRequest) (text signed : string) : Prop :=
  exists ps hs,
    Permutation ps (map encoded_param (cq_params r)) /\ Sorted pair_le ps /\
    Permutation hs (map (fun h => (h.1, squeeze h.2)) (cq_signed r)) /\ Sorted (fun h h' => str_lt h.1 h'.1) hs /\
    signed = str_join ";" (map fst hs) /\
    text = str_join nl
      [cq_method r; path_with (fun s => uri_encode (uri_encode s)) r; str_join "&" (map pair_text ps);
       String.concat "" (map header_line hs); signed; hex_encode (sha256 (cq_payload r))].

Definition client_signature (secret date region service amz_date text : string) : string :=
  let key := fold_left (fun k m => hmac_sha256 k (octets m)) [date; region; service; "aws4_request"]
               (octets ("AWS4" +:+ secret)) in
  hex_encode (hmac_sha256 key (octets (str_join nl
    ["AWS4-HMAC-SHA256"; amz_date; str_join "/" [date; region; service; "aws4_request"];
     hex_encode (sha256 (octets text))]))).

(** [p] is the request as the client sends it: the fields of its header
    are those of [f]. *)
Definition client_signs (r : ClientRequest) (secret amz_date : string) (f : ParsedAuth) (p : Parts) : Prop :=
  exists text, canonical_of r text (pa_signed_headers f) /\
    pa_date f = substring 0 8 amz_date /\
    pa_signature f = client_signature secret (pa_date f) (pa_region f) (pa_service f) amz_date text /\
    p = add_header "authorization" (authorization_value f) (wire r).

(** What the client may send: parameters are text without [/], header
    names are in lower case and occur once, values are printable. *)
Definition param_ok (s : string) : bool := is_utf8 s && negb (str_mem "/"%char s).
Record client_ok (r : ClientRequest) (amz_date : string) : Prop := {
  ck_params : Forall (fun p => param_ok p.1 = true /\ param_ok p.2 = true) (cq_params r);
  ck_signed : Forall (fun h => header_name_ok h.1 = true /\ str_lower h.1 = h.1 /\ h.1 <> "authorization" /\
                               str_forall (in_range 32 126) h.2 = true) (cq_signed r);
  ck_once : NoDup (map fst (cq_signed r));
  ck_unsigned : Forall (fun h => h.1 <> "authorization" /\ h.1 ∉ map fst (cq_signed r)) (cq_unsigned r);
  ck_date : ("x-amz-date", amz_date) ∈ cq_signed r
}.

Lemma uri_encode_std s : uri_encode s = utf8_percent_encode (fun c => negb (unreserved c)) s.
Proof.
  induction s as [|c s IH]; [by rewrite encode_empty|]. rewrite encode_cons. cbn [uri_encode]. rewrite IH.
  assert (Hc : implb (unreserved c) (negb (Nat.leb 128 (code c))) = true).
  { revert c. apply all_ascii. by vm_compute. }
  destruct (unreserved c); cbn [implb negb orb] in *; [|done]. apply negb_true_iff in Hc. by rewrite Hc.
Qed.

(** The server's set is the client's but for [/]. *)
Lemma uri_encode_server s : str_mem "/"%char s = false -> utf8_percent_encode AWS_URI_ENCODE s = uri_encode s.
Proof.
  induction s as [|c s IH]; [intros _; by rewrite encode_empty|].
  cbn [str_mem]. rewrite orb_false_iff. intros [Hc Hs]. rewrite encode_cons, (IH Hs). cbn [uri_encode].
  assert (Ha : Ascii.eqb "/"%char c || Bool.eqb (AWS_URI_ENCODE c || Nat.leb 128 (code c)) (negb (unreserved c)) = true).
  { clear. revert c. apply all_ascii. by vm_compute. }
  rewrite Hc in Ha. apply Bool.eqb_prop in Ha. rewrite Ha. by destruct (unreserved c).
Qed.

Lemma uri_encode_avoids d s :
  unreserved d = false -> is_ascii_alphanumeric d || Ascii.eqb d "%"%char = false -> str_mem d (uri_encode s) = false.
Proof. intros Hd Ha. rewrite uri_encode_std. apply encode_avoids; [by rewrite Hd | done..]. Qed.

Lemma uri_decode s : is_utf8 s = true -> percent_decode_lossy (uri_encode s) = s.
Proof. intros Hs. rewrite uri_encode_std. by apply decode_encode. Qed.

Lemma wire_path r : encode_path (path_with uri_encode r) = path_with (fun s => uri_encode (uri_encode s)) r.
Proof.
  rewrite encode_path_whole. unfold path_with. cbn [str_is_empty append]. rewrite encode_cons. cbn [append].
  change "/" with (String "/"%char ""). rewrite encode_join by done. do 2 f_equal.
  rewrite map_map. apply map_ext. intros s. apply uri_encode_server. by apply uri_encode_avoids.
Qed.

(** *** The query *)

Lemma split_on_str_join c l :
  l <> [] -> Forall (fun s => str_mem c s = false) l -> split_on c (str_join (String c "") l) = l.
Proof.
  intros Hne Hl. induction Hl as [|a l Ha Hl IH]; [done|]. destruct l as [|b l]; [by apply split_on_none|].
  rewrite str_join_cons. change (a +:+ String c "" +:+ str_join (String c "") (b :: l))
    with (a +:+ String c (str_join (String c "") (b :: l))).
  rewrite split_on_app by done. f_equal. by apply IH.
Qed.

Lemma splitn2_text k v : str_mem "="%char k = false -> splitn2 (k +:+ String "=" v) = (k, v).
Proof.
  unfold splitn2. intros Hk.
  assert (span (fun c => negb (Ascii.eqb c "="%char)) (k +:+ String "=" v) = (k, String "=" v)) as ->; [|done].
  induction k as [|c k IH]; [done|]. cbn [str_mem] in Hk. apply orb_false_iff in Hk as [Hc Hk].
  rewrite Ascii.eqb_sym in Hc. cbn [append span]. rewrite Hc. simpl. by rewrite (IH Hk).
Qed.

Lemma param_text_avoids d p :
  unreserved d = false -> is_ascii_alphanumeric d || Ascii.eqb d "%"%char = false -> Ascii.eqb d "="%char = false ->
  str_mem d (pair_text (encoded_param p)) = false.
Proof.
  intros H1 H2 H3. unfold pair_text, encoded_param. cbn [fst snd].
  rewrite !str_mem_app, !uri_encode_avoids by done. cbn [str_mem]. by rewrite H3.
Qed.

Lemma wire_query ps :
  ps <> [] -> Forall (fun p => param_ok p.1 = true /\ param_ok p.2 = true) ps ->
  query_pairs (str_join "&" (map (fun p => pair_text (encoded_param p)) ps)) = ps.
Proof.
  intros Hne Hps. unfold query_pairs. change "&" with (String "&"%char "").
  rewrite split_on_str_join.
  - rewrite map_map. clear Hne. induction Hps as [|[k v] ps [Hk Hv] _ IH]; [done|]. cbn [map]. rewrite IH. f_equal.
    unfold pair_text, encoded_param. cbn [fst snd]. simpl in *.
    apply andb_true_iff in Hk as [Hk _], Hv as [Hv _].
    change (uri_encode k +:+ "=" +:+ uri_encode v) with (uri_encode k +:+ String "=" (uri_encode v)).
    rewrite splitn2_text by (by apply uri_encode_avoids). by rewrite !uri_decode.
  - by destruct ps.
  - apply Forall_map, Forall_true. intros p. by apply param_text_avoids.
Qed.

#[local] Instance pair_le_total : Total pair_le.
Proof.
  intros [a b] [c d]. unfold pair_le, str_lt. simpl. rewrite (String.compare_antisym c a), (String.compare_antisym d b).
  destruct (String.compare a c) eqn:Eac; simpl; [|by left; left|by right; left].
  apply String.compare_eq_iff in Eac as ->. destruct (String.compare b d); simpl; naive_solver.
Qed.

Lemma compare_le s t : String.compare s t <> Gt <-> s = t \/ str_lt s t.
Proof.
  unfold str_lt. pose proof (String.compare_eq_iff s t) as He. destruct (String.compare s t) eqn:E; split; intros H.
  - left. by apply He.
  - done.
  - by right.
  - done.
  - done.
  - destruct H as [->|H]; [|done]. pose proof (str_lt_irrefl t) as Hi. unfold str_lt in Hi.
    pose proof (String.compare_antisym t t) as Ha. by rewrite E in Ha.
Qed.

#[local] Instance pair_le_trans : Transitive pair_le.
Proof.
  intros [a b] [c d] [e f]. unfold pair_le. simpl. rewrite !compare_le.
  intros [H1|[-> H1]] [H2|[-> H2]]; [left; by etrans | by left | by left | right; split; [done|]].
  destruct H1 as [->|H1], H2 as [->|H2]; [by left | by right | by right | right; by etrans].
Qed.

#[local] Instance pair_le_antisymm : AntiSymm (=) pair_le.
Proof.
  intros [a b] [c d]. unfold pair_le. simpl. rewrite !compare_le. intros [H1|[-> H1]] [H2|[E H2]].
  - by destruct (str_lt_antisym a c).
  - subst. by destruct (str_lt_irrefl a).
  - by destruct (str_lt_irrefl c).
  - destruct H1 as [->|H1]; [done|]. destruct H2 as [->|H2]; [done|]. by destruct (str_lt_antisym b d).
Qed.

Lemma sorted_params ps ps' :
  Permutation ps ps' -> Sorted pair_le ps -> merge_sort pair_le ps' = ps.
Proof.
  intros Hp Hs. apply (StronglySorted_unique pair_le);
    [apply (StronglySorted_merge_sort pair_le) | apply Sorted_StronglySorted; [exact pair_le_trans | done] |].
  by rewrite merge_sort_Permutation, Hp.
Qed.

Lemma param_texts_nonempty ps :
  ps <> [] -> str_is_empty (str_join "&" (map (fun p => pair_text (encoded_param p)) ps)) = false.
Proof.
  destruct ps as [|p l]; [done|]. intros _. cbn [map]. unfold pair_text at 1, encoded_param at 1. cbn [fst snd].
  destruct (uri_encode p.1) as [|c k], (map _ l); done.
Qed.

Lemma client_query_string ps ts :
  ps <> [] -> Forall (fun p => param_ok p.1 = true /\ param_ok p.2 = true) ps ->
  Permutation ts (map encoded_param ps) -> Sorted pair_le ts ->
  canonical_query_string (str_join "&" (map (fun p => pair_text (encoded_param p)) ps)) = str_join "&" (map pair_text ts).
Proof.
  intros Hne Hps Hp Hs. rewrite query_string_eq, param_texts_nonempty, wire_query by done.
  rewrite <- (sorted_params _ _ Hp Hs). do 3 f_equal.
  apply map_ext_Forall. eapply Forall_impl; [exact Hps|]. intros [k v] [Hk Hv].
  apply andb_true_iff in Hk as [_ Hk], Hv as [_ Hv]. apply negb_true_iff in Hk, Hv.
  unfold encoded_pair, encoded_param, encode_query_component. cbn [fst snd] in *. by rewrite !uri_encode_server.
Qed.

Lemma client_query r d ts :
  client_ok r d -> Permutation ts (map encoded_param (cq_params r)) -> Sorted pair_le ts ->
  canonical_query_string (default "" (p_query (wire r))) = str_join "&" (map pair_text ts).
Proof.
  intros [Hps _ _ _ _] Hp Hs. unfold wire. cbn [p_query]. destruct (cq_params r) as [|p l] eqn:El.
  - symmetry in Hp. apply Permutation_nil in Hp as ->. done.
  - by apply client_query_string.
Qed.

(** *** The headers *)

Lemma printable_cases c : in_range 32 126 c = true -> c = " "%char \/ (graph c = true /\ is_ascii_whitespace c = false).
Proof.
  intros Hc.
  assert (Ha : implb (in_range 32 126 c) (Ascii.eqb c " "%char || (graph c && negb (is_ascii_whitespace c))) = true).
  { clear. revert c. apply all_ascii. by vm_compute. }
  rewrite Hc in Ha. apply orb_true_iff in Ha as [->%Ascii.eqb_eq|[? ?%negb_true_iff]%andb_true_iff]; [by left | by right].
Qed.

Definition words (s : string) : list string := List.filter (fun w => negb (str_is_empty w)) (split_on " "%char s).

Lemma split_on_other c d s : Ascii.eqb c d = false ->
  exists w ws, split_on c s = w :: ws /\ split_on c (String d s) = String d w :: ws.
Proof.
  intros E. cbn [split_on]. rewrite E. pose proof (split_on_nonempty c s).
  destruct (split_on c s) as [|w ws]; [done|]. by exists w, ws.
Qed.

Lemma printable_not_space c : graph c = true -> Ascii.eqb " " c = false.
Proof. destruct (Ascii.eqb_spec " " c) as [<-|]; done. Qed.

Lemma trim_end_cons c s :
  trim_end (String c s) = match trim_start (String c s) with EmptyString => "" | String _ _ => String c (trim_end s) end.
Proof. done. Qed.

Lemma blank_no_words s : str_forall (in_range 32 126) s = true -> trim_start s = "" <-> words s = [].
Proof.
  induction s as [|c s IH]; [done|]. cbn [str_forall]. rewrite andb_true_iff. intros [Hc Hs].
  destruct (printable_cases c Hc) as [->|[Hg _]]; [exact (IH Hs)|].
  rewrite trim_start_id by (by apply strip_space_graph). split; [done|].
  destruct (split_on_other " " c s (printable_not_space _ Hg)) as (w & ws & _ & E). unfold words. by rewrite E.
Qed.

(** Removing the spaces at the end and collapsing the others, after a
    space and inside a word. *)
Lemma collapse_words s : str_forall (in_range 32 126) s = true ->
  collapse true (trim_end s) = squeeze s /\
  (forall w ws, split_on " "%char s = w :: ws ->
     collapse false (trim_end s) = str_join " " (w :: List.filter (fun w => negb (str_is_empty w)) ws)).
Proof.
  induction s as [|c s IH]; [by split; [|intros w ws [= <- <-]]|].
  cbn [str_forall]. rewrite andb_true_iff. intros [Hc Hs]. specialize (IH Hs) as [IH1 IH2].
  destruct (printable_cases c Hc) as [->|[Hg Hw]].
  - pose proof (blank_no_words s Hs) as Hb. rewrite trim_end_cons.
    change (trim_start (String " " s)) with (trim_start s).
    change (split_on " " (String " " s)) with ("" :: split_on " " s).
    change (squeeze (String " " s)) with (squeeze s). unfold squeeze in *. fold (words s) in *.
    destruct (trim_start s) as [|d t].
    + rewrite (proj1 Hb eq_refl). split; [done|]. intros w ws [= <- <-]. fold (words s). by rewrite (proj1 Hb eq_refl).
    + split; [exact IH1|]. intros w ws [= <- <-]. fold (words s). change (collapse false (String " " (trim_end s)))
        with (String " " (collapse true (trim_end s))). rewrite IH1.
      destruct (words s) as [|x xs]; [by pose proof (proj2 Hb eq_refl)|]. done.
  - rewrite trim_end_cons, trim_start_id by (by apply strip_space_graph).
    destruct (split_on_other " " c s (printable_not_space _ Hg)) as (w & ws & E & E').
    unfold squeeze. rewrite E'. cbn [collapse]. rewrite Hw, (IH2 _ _ E).
    cbn [List.filter str_is_empty negb]. split; [|intros ? ? [= <- <-]]; by destruct (List.filter _ ws).
Qed.

Lemma trim_start_printable s : str_forall (in_range 32 126) s = true ->
  str_forall (in_range 32 126) (trim_start s) = true /\ squeeze (trim_start s) = squeeze s /\
  match trim_start s with String c _ => graph c = true /\ is_ascii_whitespace c = false | EmptyString => True end.
Proof.
  induction s as [|c s IH]; [done|]. cbn [str_forall]. rewrite andb_true_iff. intros [Hc Hs].
  destruct (printable_cases c Hc) as [->|[Hg Hw]]; [exact (IH Hs)|].
  rewrite trim_start_id by (by apply strip_space_graph). cbn [str_forall]. by rewrite Hc, Hs.
Qed.

Lemma trim_collapse_squeeze v : str_forall (in_range 32 126) v = true -> trim_collapse v = squeeze v.
Proof.
  intros Hv. destruct (trim_start_printable v Hv) as (Ht & <- & Hf). unfold trim_collapse, trim.
  rewrite <- (proj1 (collapse_words _ Ht)). destruct (trim_start v) as [|c t] eqn:E; [done|]. destruct Hf as [Hg Hw].
  rewrite trim_end_cons, trim_start_id by (by apply strip_space_graph). cbn [collapse]. by rewrite Hw.
Qed.

Lemma header_values_once n v (l : list (string * string)) :
  NoDup (map fst l) -> (n, v) ∈ l ->
  map snd (List.filter (fun h => String.eqb n h.1) (map (fun h => (h.1, Some h.2)) l)) = [Some v].
Proof.
  intros Hd Hin. induction l as [|[k w] l IH]; [by apply not_elem_of_nil in Hin|]. cbn [map fst] in Hd.
  apply NoDup_cons in Hd as [Hk Hd]. cbn [map List.filter fst snd].
  apply elem_of_cons in Hin as [[= -> ->]|Hin].
  - rewrite String.eqb_refl. cbn [map snd]. f_equal. clear -Hk. induction l as [|[k' w'] l IH]; [done|].
    cbn [map fst] in Hk. apply not_elem_of_cons in Hk as [Hne Hk]. cbn [map List.filter fst].
    rewrite (proj2 (String.eqb_neq _ _) Hne). by apply IH.
  - destruct (String.eqb_spec n k) as [->|]; [|by apply IH].
    destruct Hk. apply list_elem_of_fmap. by exists (k, v).
Qed.

Lemma header_values_none n (l : list (string * string)) :
  n ∉ map fst l -> map snd (List.filter (fun h => String.eqb n h.1) (map (fun h => (h.1, Some h.2)) l)) = [].
Proof.
  induction l as [|[k w] l IH]; [done|]. cbn [map fst List.filter]. intros [Hne Hk]%not_elem_of_cons.
  rewrite (proj2 (String.eqb_neq _ _) Hne). by apply IH.
Qed.

Lemma wire_signed r d n v : client_ok r d -> (n, v) ∈ cq_signed r -> header_values n (wire r) = [Some v].
Proof.
  intros Hok Hin. unfold header_values, wire. cbn [p_headers]. rewrite map_app, List.filter_app, map_app.
  rewrite (header_values_once n v) by (done || apply (ck_once _ _ Hok)).
  rewrite header_values_none; [done|]. intros (h & -> & Hh)%list_elem_of_fmap.
  pose proof (ck_unsigned _ _ Hok) as Hu. rewrite Forall_forall in Hu. destruct (Hu _ Hh) as [_ []].
  apply list_elem_of_fmap. by exists (h.1, v).
Qed.

Lemma wire_authorization r d : client_ok r d -> header "authorization" (wire r) = None.
Proof.
  intros Hok. unfold header, header_values, wire. cbn [p_headers]. rewrite header_values_none; [done|].
  intros (h & E & [Hh|Hh]%elem_of_app)%list_elem_of_fmap.
  - pose proof (ck_signed _ _ Hok) as Hs. rewrite Forall_forall in Hs. by destruct (Hs _ Hh) as (_ & _ & [] & _).
  - pose proof (ck_unsigned _ _ Hok) as Hs. rewrite Forall_forall in Hs. by destruct (Hs _ Hh) as [[] _].
Qed.

(** The header list of the client, as the server reads it. *)
Definition signed_entry (r : ClientRequest) (h : string * string) : Prop :=
  header_name_ok (str_lower h.1) = true /\ str_lower h.1 <> "authorization" /\ header_entry (wire r) h.1 = h.

Lemma client_entries r d hs :
  client_ok r d -> Permutation hs (map (fun h => (h.1, squeeze h.2)) (cq_signed r)) -> Forall (signed_entry r) hs.
Proof.
  intros Hok ->. apply Forall_map, Forall_forall. intros [n v] Hin.
  pose proof (ck_signed _ _ Hok) as Hs. rewrite Forall_forall in Hs. destruct (Hs _ Hin) as (H1 & H2 & H3 & H4).
  unfold signed_entry, header_entry. cbn [fst snd] in *. rewrite H2, (wire_signed r d n v) by done.
  split_and!; [done|done|]. f_equal. by apply trim_collapse_squeeze.
Qed.

Lemma signed_names r d hs :
  client_ok r d -> Permutation hs (map (fun h => (h.1, squeeze h.2)) (cq_signed r)) ->
  split_on ";"%char (str_join ";" (map fst hs)) = map fst hs.
Proof.
  intros Hok Hp. apply split_on_str_join.
  - pose proof (ck_date _ _ Hok) as Hd. intros E. apply map_eq_nil in E as ->. apply Permutation_nil, map_eq_nil in Hp.
    rewrite Hp in Hd. by apply not_elem_of_nil in Hd.
  - apply Forall_map. rewrite Hp. apply Forall_map. eapply Forall_impl; [apply (ck_signed _ _ Hok)|].
    intros h [Hn _]. apply header_name_token in Hn as [_ Hn]. by apply (str_mem_forall tchar).
Qed.

Lemma collect_entries r hs :
  Forall (signed_entry r) hs ->
  collect (fun name => if header_name_ok (str_lower name)
     then Ok (E := AuthError) (str_lower name, joined_values (header_values (str_lower name) (wire r))) else Panic)
    (map fst hs) = Ok hs.
Proof.
  induction 1 as [|h hs (H1 & _ & H3) _ IH]; [done|]. simpl. rewrite H1, IH. simpl. by rewrite <- H3 at 3.
Qed.

#[local] Instance name_le_total : Total name_le.
Proof. intros p q. unfold name_le. rewrite (String.compare_antisym q.1). by destruct (String.compare p.1 q.1); auto. Qed.
#[local] Instance name_le_trans : Transitive name_le.
Proof.
  intros p q s. unfold name_le. rewrite !compare_le. intros [->|H1] [H2|H2]; [by left | by right | | right; by etrans].
  right. by rewrite <- H2.
Qed.

Lemma sorted_headers hs : Sorted (fun h h' => str_lt h.1 h'.1) hs -> merge_sort name_le hs = hs.
Proof.
  intros Hs. assert (Transitive (fun h h' : string * string => str_lt h.1 h'.1)) as Htr by (intros ???; apply str_lt_trans).
  apply Sorted_StronglySorted in Hs; [|exact Htr].
  apply (StronglySorted_unique_strong name_le); [|apply (StronglySorted_merge_sort name_le)| |apply merge_sort_Permutation].
  - intros x y Hx Hy. rewrite merge_sort_Permutation in Hx. unfold name_le. rewrite !compare_le.
    intros [E1|H1] [E2|H2]; [|by rewrite E1 in H2; destruct (str_lt_irrefl _ H2)
                             |by rewrite E2 in H1; destruct (str_lt_irrefl _ H1)|by destruct (str_lt_antisym _ _ H1)].
    clear E2. induction Hs as [|h hs Hs IH Hh]; [by apply not_elem_of_nil in Hx|].
    rewrite Forall_forall in Hh. apply elem_of_cons in Hx as [->|Hx], Hy as [->|Hy]; [done| | |by apply IH].
    + specialize (Hh _ Hy). simpl in Hh. rewrite E1 in Hh. by destruct (str_lt_irrefl _ Hh).
    + specialize (Hh _ Hx). simpl in Hh. rewrite E1 in Hh. by destruct (str_lt_irrefl _ Hh).
  - clear -Hs. induction Hs as [|h hs _ IH Hh]; constructor; [done|]. eapply Forall_impl; [exact Hh|].
    intros y Hy. apply compare_le. by right.
Qed.

(** The server's canonical request is the client's. *)
Lemma client_canonical r d text signed :
  client_ok r d -> canonical_of r text signed ->
  canonical_request (wire r) (default "" (p_query (wire r))) signed (hex_sha256 (cq_payload r)) = Ok text.
Proof.
  intros Hok (ps & hs & Hp & Hps & Hh & Hhs & -> & ->). unfold canonical_request, canonical_headers.
  rewrite (signed_names r d hs) by done. rewrite collect_entries by (by eapply client_entries).
  rewrite sorted_headers by done. cbn [p_path p_method wire]. rewrite wire_path.
  change (match cq_params r with [] => None | ps => Some (str_join "&" (map (fun p => pair_text (encoded_param p)) ps)) end)
    with (p_query (wire r)).
  rewrite (client_query r d ps) by done.
  assert (map (fun '(k, v) => k +:+ ":" +:+ v +:+ String (ascii_of_nat 10) "") hs = map header_line hs) as ->
    by (apply map_ext; by intros []).
  done.
Qed.

(** A row that was inserted is read back. *)
Lemma inserted_row_read dup nonce key now_ms row t t' :
  length nonce = 12 -> is_utf8 (cr_secret_access_key row) = true ->
  insert_credential_row dup nonce key now_ms row t = inr t' ->
  fetch_credential_row key (cr_access_key_id row) (inr (t' !! cr_access_key_id row)) = inr (Some row).
Proof.
  intros Hl Hu. unfold insert_credential_row, encrypt.
  destruct (aes_gcm_encrypt key nonce _) as [ct|] eqn:Ee; [|done]. simpl.
  destruct (t !! cr_access_key_id row); [done|]. intros [= <-].
  unfold Credentials in *. rewrite lookup_insert_eq. simpl. rewrite Hl. simpl. unfold decrypt. simpl.
  rewrite (aes_gcm_opens _ _ _ _ Ee), from_utf8_bytes by done. by destruct row.
Qed.

(** A request whose signature is the one the server computes. *)
Lemma signed_request_accepted dup nonce key now_ms row t t' now_ts skew t0 t1 p body f d ts c sig :
  length nonce = 12 -> is_utf8 (cr_secret_access_key row) = true -> cr_enabled row = true ->
  insert_credential_row dup nonce key now_ms row t = inr t' ->
  pa_akid f = cr_access_key_id row -> fields_ok (with_signature f sig) = true ->
  header "authorization" p = None ->
  Forall (fun n => str_lower n <> "authorization") (split_on ";"%char (pa_signed_headers f)) ->
  header "x-amz-date" p = Some (Some d) -> parse_amz_date d = Some ts -> (Z.abs (now_ts - ts) <= skew)%Z ->
  cache_get t0 (pa_akid f) c = None -> (t1 + ttl c < instant_max)%N ->
  expected_signature p body f d (cr_secret_access_key row) = Ok sig ->
  exists c', insert_positive cs_fetched_at (pa_akid f) (mkCachedSecret (cr_secret_access_key row) (cr_principal row) t1) c
             = Some c' /\
    sigv4_verify now_ts skew t0 t1 (fun k => fetch_credential_row key k (inr (t' !! k)))
      (add_header "authorization" (authorization_value (with_signature f sig)) p) body c
    = (Ok (sigv4_identity f (cr_principal row)), c').
Proof.
  intros Hl Hu Hen Hins Hak Hf Hauth Hn Hd Hts Hsk Hc Ht1 Es.
  pose proof (proj2 (insert_positive_Some cs_fetched_at (cr_access_key_id row)
    (mkCachedSecret (cr_secret_access_key row) (cr_principal row) t1) c _) (conj Ht1 eq_refl)) as Hi.
  eexists. split; [rewrite Hak; exact Hi|].
  set (v := authorization_value (with_signature f sig)).
  assert (read_request now_ts skew (add_header "authorization" v p) = Ok (with_signature f sig, d)) as Hr.
  { apply read_request_Ok. exists v, ts. unfold header in *. rewrite !header_values_add. simpl. rewrite app_nil_r.
    split_and!; [| by apply parse_authorization_value | done | done | done].
    by destruct (header_values "authorization" p). }
  unfold sigv4_verify. rewrite Hr. unfold fetch_secret. cbn [pa_akid with_signature]. rewrite Hc, Hak.
  rewrite (inserted_row_read _ _ _ _ _ _ _ Hl Hu Hins), Hen. cbn zeta.
  rewrite Hi. simpl. unfold check_signature.
  rewrite expected_signature_add by done. simpl. rewrite Es. simpl. by rewrite String.eqb_refl.
Qed.

Lemma client_expected r d secret f text :
  client_ok r d -> canonical_of r text (pa_signed_headers f) ->
  expected_signature (wire r) (cq_payload r) f d secret
  = Ok (client_signature secret (pa_date f) (pa_region f) (pa_service f) d text).
Proof.
  intros Hok Hc. apply expected_signature_Ok. exists text. split; [by apply (client_canonical r d)|].
  unfold client_signature, compute_signature, string_to_sign, key_of, signing_key, scope_of, hex_sha256. done.
Qed.

(** The fields of the header, apart from the list and the signature. *)
Definition scope_ok (f : ParsedAuth) : bool :=
  negb (str_is_empty (pa_akid f))
  && str_forall scope_char (pa_akid f) && str_forall scope_char (pa_date f)
  && str_forall scope_char (pa_region f) && str_forall scope_char (pa_service f).

Lemma tchar_field s : str_forall tchar s = true -> str_forall field_char s = true.
Proof.
  apply str_forall_impl. intros c Hc.
  assert (Ha : implb (tchar c) (field_char c) = true) by (revert c Hc; intros c _; revert c; apply all_ascii; by vm_compute).
  by rewrite Hc in Ha.
Qed.

Lemma join_field l : Forall (fun s => str_forall field_char s = true) l -> str_forall field_char (str_join ";" l) = true.
Proof.
  intros Hl. induction Hl as [|a [|b l] Ha Hl IH]; [done|done|]. by rewrite str_join_cons, !str_forall_app, Ha, IH.
Qed.

Lemma client_fields r d secret f p :
  client_ok r d -> client_signs r secret d f p -> scope_ok f = true -> fields_ok f = true.
Proof.
  intros Hok (text & (ps & hs & _ & _ & Hh & _ & Esh & _) & _ & Esig & _) Hs. unfold fields_ok, scope_ok in *.
  rewrite Hs, Esig. unfold client_signature. rewrite hex_encode_field, Esh, andb_true_r.
  apply join_field, Forall_map. rewrite Hh. apply Forall_map. eapply Forall_impl; [apply (ck_signed _ _ Hok)|].
  intros h [Hn _]. apply header_name_token in Hn as [_ Hn]. by apply tchar_field.
Qed.

(** C17: a client that follows the documentation of AWS, and whose
    credential was stored, enabled, with [insert_credential_row], is
    accepted as the credential's principal: the server's canonical request
    is the one the client has signed, and parsing, decryption and cache fit
    together.  The parameters of its query are text without [/] (the
    server leaves that character as it is), its clock is within the
    tolerance, and the cache holds nothing for the key: a negative entry
    that is still fresh refuses it.  The secret is kept in the cache. *)
Theorem registered_client_accepted dup nonce key now_ms row t t' now_ts skew t0 t1 r f d ts c p :
  length nonce = 12 -> is_utf8 (cr_secret_access_key row) = true -> cr_enabled row = true ->
  insert_credential_row dup nonce key now_ms row t = inr t' ->
  client_ok r d -> scope_ok f = true -> pa_akid f = cr_access_key_id row ->
  client_signs r (cr_secret_access_key row) d f p ->
  parse_amz_date d = Some ts -> (Z.abs (now_ts - ts) <= skew)%Z ->
  cache_get t0 (pa_akid f) c = None -> (t1 + ttl c < instant_max)%N ->
  exists c', insert_positive cs_fetched_at (pa_akid f) (mkCachedSecret (cr_secret_access_key row) (cr_principal row) t1) c
             = Some c' /\
    sigv4_verify now_ts skew t0 t1 (fun k => fetch_credential_row key k (inr (t' !! k))) p (cq_payload r) c
    = (Ok (sigv4_identity f (cr_principal row)), c').
Proof.
  intros Hl Hu Hen Hins Hok Hsc Hak Hsg Hts Hsk Hc Ht1. pose proof (client_fields _ _ _ _ _ Hok Hsg Hsc) as Hf.
  destruct Hsg as (text & Hcan & _ & Esig & ->).
  pose proof (client_expected r d (cr_secret_access_key row) f text Hok Hcan) as Es. rewrite <- Esig in Es.
  assert (with_signature f (pa_signature f) = f) as Ef by (by destruct f).
  pose proof (signed_request_accepted dup nonce key now_ms row t t' now_ts skew t0 t1 (wire r) (cq_payload r) f d ts c
    (pa_signature f)) as H. rewrite Ef in H. apply H; try done.
  - by eapply wire_authorization.
  - destruct Hcan as (ps & hs & _ & _ & Hh & _ & Esh & _). rewrite Esh, (signed_names r d hs) by done.
    apply Forall_map. eapply Forall_impl; [by eapply client_entries|]. by intros h (_ & ? & _).
  - unfold header. by rewrite (wire_signed r d _ d Hok (ck_date _ _ Hok)).
Qed.

(** ** Revocation *)

Definition judge_secret (now : N) (_ : Z) (reply : StoreError + option CredentialRow) : Outcome AuthError CachedSecret :=
  match reply with
  | inr (Some row) =>
      if cr_enabled row then Accept (mkCachedSecret (cr_secret_access_key row) (cr_principal row) now)
      else Refuse AuthError_IdentityDisabled
  | inr None => Refuse AuthError_IdentityNotFound
  | inl (StoreError_Crypto _) => Fault (AuthError_Internal "credential decryption failed — master key mismatch")
  | inl e => Fault (AuthError_Internal ("credential lookup failed: " +:+ store_error_to_string e))
  end.

(** [fetch_secret] is the lookup protocol with that judgement. *)
Lemma fetch_secret_lookup t0 t1 z akid reply c :
  fetch_secret t0 t1 akid reply c
  = lookup_once cs_fetched_at AuthError_IdentityNotFound t0 t1 akid (judge_secret t1 z reply) c.
Proof.
  unfold fetch_secret, lookup_once, lookup_start, lookup_finish, judge_secret.
  destruct (cache_get t0 akid c) as [[u|s]|]; [done|done|].
  destruct reply as [[]|[row|]]; try done. by destruct (cr_enabled row).
Qed.

(** The store answers with its row, or fails. *)
Definition credential_answers (key : list Byte.byte) (t : Credentials) (akid : string)
    (r : StoreError + option CredentialRow) : Prop :=
  r = fetch_credential_row key akid (inr (t !! akid)) \/ exists e, r = inl e.

(** C16: requests run interleaved with each other and with the operator's
    changes to the credentials.  When from the instant [T0] on the row of
    a key is absent or disabled, no request gets the secret of that key
    later than the time-to-live of the cache, plus the time a reply of the
    store may take, after [T0]. *)
Theorem revoked_credential_dies key latency T w0 ws evs T0 w akid secret :
  ttl (cache w0) = T -> positive (cache w0) = ∅ -> pending w0 = ∅ ->
  run cs_fetched_at AuthError_IdentityNotFound (credential_answers key) judge_secret latency w0 ws evs ->
  (forall u, u ∈ ws -> (T0 <= now u)%N ->
     match table u !! akid with Some row => sc_enabled row = false | None => True end) ->
  (w, akid, Ok secret) ∈ evs -> (now w < T0 + latency + T)%N.
Proof.
  intros HT Hc Hp Hrun Hrev Hin. eapply granted_bounded; [| | | | exact Hrun | | exact Hin]; try done.
  - intros t z r v. unfold judge_secret. destruct r as [[]|[row|]]; try done. destruct (cr_enabled row); [|done].
    by intros [= <-].
  - intros wr wf r v Hwr _ Ht _ Ha. specialize (Hrev wr Hwr Ht).
    destruct Ha as [->|[e ->]]; [|by destruct e].
    unfold fetch_credential_row. destruct (table wr !! akid) as [row|]; [|done].
    destruct (negb _); [done|]. destruct (decrypt _ _) as [|pt]; [done|]. destruct (from_utf8 pt); [|done].
    simpl. by rewrite Hrev.
Qed.

(** ** A panic *)

(** Some name in the list is not a header name. *)
Definition bad_name_listed (signed_headers : string) : Prop :=
  Exists (fun n => header_name_ok (str_lower n) = false) (split_on ";"%char signed_headers).

(** C39: a name in [SignedHeaders] that is not a header name, the empty
    name of [SignedHeaders=] for one, makes the verifier panic before it
    has compared any signature: a client that knows an enabled access key
    id but not the secret can cause it. *)
Theorem signed_headers_panic now_ts skew t0 t1 reply p body c parsed d secret c' :
  read_request now_ts skew p = Ok (parsed, d) ->
  fetch_secret t0 t1 (pa_akid parsed) (reply (pa_akid parsed)) c = (Ok secret, c') ->
  bad_name_listed (pa_signed_headers parsed) ->
  sigv4_verify now_ts skew t0 t1 reply p body c = (Panic, c').
Proof.
  intros Hr Hf Hn. unfold sigv4_verify, bad_name_listed in *. rewrite Hr, Hf. f_equal.
  unfold check_signature, expected_signature, canonical_request, canonical_headers.
  assert (collect (fun name => if header_name_ok (str_lower name)
            then Ok (E := AuthError) (str_lower name, joined_values (header_values (str_lower name) p)) else Panic)
            (split_on ";"%char (pa_signed_headers parsed)) = Panic) as ->; [|done].
  induction Hn as [n ns Hn|n ns _ IH]; simpl; [by rewrite Hn|].
  destruct (header_name_ok (str_lower n)); [|done]. by rewrite IH.
Qed.
End verifying.
