(* ===== verification/SigV4Std.v ===== *)
(** * A SigV4 server on concrete requests

    Instances of the parameters of [SigV4]: SHA-256 and HMAC as published,
    hexadecimal and percent encoding, the token grammar, the date format.
    AES-GCM, of which only the opening of what was sealed is assumed, is
    represented by a cipher that keeps the text.  The published AWS test
    vector is computed, and the theorems on the verifier are applied to it. *)

From stdpp Require Import sorting.
From S2P Require Import Prelude RustStr ApiError Naming AuthCache Auth SigV4 SigV4Canonical SigV4Verify.

(** ** SHA-256 (FIPS 180-4) and HMAC (RFC 2104) *)
Module Sha2.
Import Sha1Reference.
Definition rotr (k a : N) : N := rotl (32 - k) a.
Definition round_constants : list N :=
  [1116352408; 1899447441; 3049323471; 3921009573; 961987163; 1508970993; 2453635748; 2870763221;
    3624381080; 310598401; 607225278; 1426881987; 1925078388; 2162078206; 2614888103; 3248222580;
    3835390401; 4022224774; 264347078; 604807628; 770255983; 1249150122; 1555081692; 1996064986;
    2554220882; 2821834349; 2952996808; 3210313671; 3336571891; 3584528711; 113926993; 338241895;
    666307205; 773529912; 1294757372; 1396182291; 1695183700; 1986661051; 2177026350; 2456956037;
    2730485921; 2820302411; 3259730800; 3345764771; 3516065817; 3600352804; 4094571909; 275423344;
    430227734; 506948616; 659060556; 883997877; 958139571; 1322822218; 1537002063; 1747873779;
    1955562222; 2024104815; 2227730452; 2361852424; 2428436474; 2756734187; 3204031479; 3329325298]%N.
Definition initial : list N :=
  [1779033703; 3144134277; 1013904242; 2773480762; 1359893119; 2600822924; 528734635; 1541459225]%N.

Definition small0 (x : N) : N := N.lxor (rotr 7 x) (N.lxor (rotr 18 x) (N.shiftr x 3)).
Definition small1 (x : N) : N := N.lxor (rotr 17 x) (N.lxor (rotr 19 x) (N.shiftr x 10)).
Definition big0 (x : N) : N := N.lxor (rotr 2 x) (N.lxor (rotr 13 x) (rotr 22 x)).
Definition big1 (x : N) : N := N.lxor (rotr 6 x) (N.lxor (rotr 11 x) (rotr 25 x)).

(** The message schedule, most recent word first. *)
Fixpoint schedule (k : nat) (w : list N) : list N :=
  match k with
  | O => w
  | S k' => let x i := nth i w 0%N in
            schedule k' (add (add (small1 (x 1%nat)) (x 6%nat)) (add (small0 (x 14%nat)) (x 15%nat)) :: w)
  end.

Definition round256 (st : list N) (kw : N * N) : list N :=
  match st with
  | [a; b; c; d; e; f; g; h] =>
      let ch := N.lxor (N.land e f) (N.land (inv e) g) in
      let maj := N.lxor (N.land a b) (N.lxor (N.land a c) (N.land b c)) in
      let t1 := add (add h (big1 e)) (add ch (add kw.1 kw.2)) in
      let t2 := add (big0 a) maj in
      [add t1 t2; a; b; c; add d t1; e; f; g]
  | _ => st
  end.
Definition block256 (st w : list N) : list N :=
  zip_with add st (fold_left round256 (zip round_constants (rev (schedule 48 (rev w)))) st).
Fixpoint blocks256 (n : nat) (st w : list N) : list N :=
  match n with
  | O => st
  | S n' => match w with [] => st | _ => blocks256 n' (block256 st (take 16 w)) (drop 16 w) end
  end.
Definition digest256 (m : list Byte.byte) : list Byte.byte :=
  let w := words (padded (map Byte.to_N m)) in
  map to_byte (concat (map (big_endian 4) (blocks256 (length w) initial w))).

Definition hmac (key m : list Byte.byte) : list Byte.byte :=
  let key := if Nat.ltb 64 (length key) then digest256 key else key in
  let key := map Byte.to_N (key ++ repeat Byte.x00 (64 - length key)) in
  let pad (x : N) := map (fun k => to_byte (N.lxor k x)) key in
  digest256 (pad 92%N ++ digest256 (pad 54%N ++ m)).
End Sha2.

#[export] Instance sha2 : Sha256 := {| sha256 := Sha2.digest256; hmac_sha256 := Sha2.hmac |}.
#[export] Instance hex_std : Hex :=
  {| hex_encode := fun l => String.concat "" (map hex_byte l); hex_encode_digits := fun _ => eq_refl |}.

(** ** The other parameters *)

Fixpoint encode_bytes (set : ascii -> bool) (s : string) : string :=
  match s with
  | EmptyString => ""
  | String c s => (if set c || Nat.leb 128 (code c) then percent_byte c else String c "") +:+ encode_bytes set s
  end.

Definition hex_digit (c : ascii) : option nat :=
  if is_ascii_digit c then Some (code c - 48)
  else if in_range 97 102 c then Some (code c - 87)
  else if in_range 65 70 c then Some (code c - 55) else None.

Fixpoint decode_bytes (s : string) : string :=
  match s with
  | String "%" (String a (String b s' as r1) as r0) =>
      match hex_digit a, hex_digit b with
      | Some x, Some y => String (ascii_of_nat (16 * x + y)) (decode_bytes s')
      | _, _ => String "%" (decode_bytes r0)
      end
  | String c s' => String c (decode_bytes s')
  | EmptyString => ""
  end.

Lemma decode_percent_byte c s : decode_bytes (percent_byte c +:+ s) = String c (decode_bytes s).
Proof.
  assert (Hc : match hex_digit (upper_nibble (code c / 16)), hex_digit (upper_nibble (code c mod 16)) with
               | Some x, Some y => Ascii.eqb (ascii_of_nat (16 * x + y)) c
               | _, _ => false end = true).
  { revert c. apply all_ascii. by vm_compute. }
  unfold percent_byte. cbn [append decode_bytes].
  destruct (hex_digit (upper_nibble (code c / 16))) as [x|]; [|done].
  destruct (hex_digit (upper_nibble (code c mod 16))) as [y|]; [|done].
  apply Ascii.eqb_eq in Hc. by rewrite Hc.
Qed.

Lemma decode_other c s : c <> "%"%char -> decode_bytes (String c s) = String c (decode_bytes s).
Proof.
  intros Hc. destruct c as [[] [] [] [] [] [] [] []]; try reflexivity. by destruct Hc.
Qed.

Lemma decode_encode_bytes set s :
  set "%"%char = true -> is_utf8 s = true -> decode_bytes (encode_bytes set s) = s.
Proof.
  intros Hp _. induction s as [|c s IH]; [done|]. cbn [encode_bytes].
  destruct (set c || Nat.leb 128 (code c)) eqn:E.
  - by rewrite decode_percent_byte, IH.
  - cbn [append]. rewrite decode_other, IH; [done|]. intros ->. by rewrite Hp in E.
Qed.

#[export] Instance percent_std : PercentEncoding :=
  {| utf8_percent_encode := encode_bytes; percent_decode_lossy := decode_bytes;
     encode_empty := fun _ => eq_refl; encode_cons := fun _ _ _ => eq_refl; decode_encode := decode_encode_bytes |}.

Definition token (s : string) : bool := negb (str_is_empty s) && str_forall tchar s.
Lemma token_spec s : token s = true -> s <> "" /\ str_forall tchar s = true.
Proof. unfold token. rewrite andb_true_iff. intros [Hn Hs]. split; [by destruct s | done]. Qed.
#[export] Instance names_std : HeaderNames := {| header_name_ok := token; header_name_token := token_spec |}.

(** [YYYYMMDDTHHMMSSZ], by the days from the civil date. *)
Definition digits (s : string) : option Z :=
  foldr (fun c k => fun acc => match hex_digit c with
                             | Some d => if Nat.ltb d 10 then k (10 * acc + Z.of_nat d)%Z else None
                             | None => None end)
        (fun acc => Some acc) (list_ascii_of_string s) 0%Z.
Definition days_from_civil (y m d : Z) : Z :=
  let y := if (m <=? 2)%Z then (y - 1)%Z else y in
  let era := (y / 400)%Z in
  let yoe := (y - era * 400)%Z in
  let doy := ((153 * (m + (if (2 <? m)%Z then -3 else 9)) + 2) / 5 + d - 1)%Z in
  (era * 146097 + (yoe * 365 + yoe / 4 - yoe / 100 + doy) - 719468)%Z.
Definition amz_seconds (s : string) : option Z :=
  let sub i n := String.substring i n s in
  if negb (Nat.eqb (String.length s) 16 && String.eqb (sub 8 1) "T" && String.eqb (sub 15 1) "Z") then None
  else match digits (sub 0 4), digits (sub 4 2), digits (sub 6 2), digits (sub 9 2), digits (sub 11 2), digits (sub 13 2) with
       | Some y, Some mo, Some d, Some h, Some mi, Some sec =>
           if ((1 <=? mo) && (mo <=? 12) && (1 <=? d) && (d <=? 31) && (h <=? 23) && (mi <=? 59) && (sec <=? 60))%Z
           then Some (days_from_civil y mo d * 86400 + h * 3600 + mi * 60 + sec)%Z else None
       | _, _, _, _, _, _ => None
       end.
#[export] Instance chrono_std : Chrono := {| parse_amz_date := amz_seconds |}.

Lemma plain_opens (key nonce pt ct : list Byte.byte) : Some pt = Some ct -> Some ct = Some pt.
Proof. by intros ->. Qed.
#[export] Instance plain_cipher : Ciphers :=
  {| aes_gcm_encrypt := fun _ _ pt => Some pt; aes_gcm_decrypt := fun _ _ ct => Some ct;
     hkdf_sha256 := fun master purpose => Sha2.hmac master purpose; aes_gcm_opens := plain_opens |}.

(** ** The published test vector: GET / of example.amazonaws.com *)

Definition aws_parts : Parts :=
  mkParts "GET" "/" None [("host", Some "example.amazonaws.com"); ("x-amz-date", Some "20150830T123600Z")].
Definition aws_secret : string := "wJalrXUtnFEMI/K7MDENG+bPxRfiCYEXAMPLEKEY".
Definition aws_fields : ParsedAuth :=
  mkParsedAuth "AKIDEXAMPLE" "20150830" "us-east-1" "service" "host;x-amz-date" "".
Definition aws_signature : string := "5fa00fa31553b73ebf1942676e86291e8372ff2a2260956d9b8aae1d763fbf31".
Definition aws_now : Z := 1440938160.

Example sha256_empty : hex_sha256 [] = "e3b0c44298fc1c149afbf4c8996fb92427ae41e4649b934ca495991b7852b855".
Proof. vm_compute. reflexivity. Qed.
Example aws_clock : parse_amz_date "20150830T123600Z" = Some aws_now.
Proof. vm_compute. reflexivity. Qed.
Example aws_vector : expected_signature aws_parts [] aws_fields "20150830T123600Z" aws_secret = Ok aws_signature.
Proof. vm_compute. reflexivity. Qed.

Definition nonce12 : list Byte.byte := repeat Byte.x07 12.
Definition aws_row : CredentialRow := mkCredentialRow "AKIDEXAMPLE" aws_secret "aws:akid:AKIDEXAMPLE" true.
Definition aws_table : Credentials :=
  {[ "AKIDEXAMPLE" := mkStoredCredential (list_byte_of_string aws_secret) nonce12 "aws:akid:AKIDEXAMPLE" true 0 None ]}.
Definition aws_cache : SecretCache := cache_new 300 30.
Definition signed_parts : Parts :=
  add_header "authorization" (authorization_value (with_signature aws_fields aws_signature)) aws_parts.

Definition held_secret : CachedSecret := mkCachedSecret aws_secret "aws:akid:AKIDEXAMPLE" 1.
Definition kept : SecretCache := default aws_cache (insert_positive cs_fetched_at "AKIDEXAMPLE" held_secret aws_cache).

(** The same request as a client holds it, with a header that is not
    signed. *)
Definition aws_request : ClientRequest :=
  mkClientRequest "GET" [""] []
    [("x-amz-date", "20150830T123600Z"); ("host", "example.amazonaws.com")] [("user-agent", "curl")] [].

Lemma aws_request_ok : client_ok aws_request "20150830T123600Z".
Proof.
  constructor; simpl.
  - constructor.
  - apply (bool_decide_unpack _). vm_compute. exact I.
  - apply (bool_decide_unpack _). vm_compute. exact I.
  - apply (bool_decide_unpack _). vm_compute. exact I.
  - left.
Qed.

Lemma aws_client_signs :
  client_signs aws_request aws_secret "20150830T123600Z" (with_signature aws_fields aws_signature)
    (add_header "authorization" (authorization_value (with_signature aws_fields aws_signature)) (wire aws_request)).
Proof.
  eexists. split.
  - exists [], [("host", "example.amazonaws.com"); ("x-amz-date", "20150830T123600Z")].
    split; [done|]. split; [constructor|]. split; [apply perm_swap|].
    split; [repeat constructor|]. split; reflexivity.
  - split_and!; [reflexivity | vm_compute; reflexivity | reflexivity].
Qed.

Lemma aws_inserted : insert_credential_row "duplicate" nonce12 [] 0 aws_row ∅ = inr aws_table.
Proof. vm_compute. reflexivity. Qed.

(** [registered_client_accepted] at the test vector. *)
Lemma registered_client_witness :
  exists c', insert_positive cs_fetched_at "AKIDEXAMPLE" held_secret aws_cache = Some c' /\
    sigv4_verify aws_now DEFAULT_CLOCK_SKEW_SECS 0 1 (fun k => fetch_credential_row [] k (inr (aws_table !! k)))
      (add_header "authorization" (authorization_value (with_signature aws_fields aws_signature)) (wire aws_request))
      [] aws_cache
    = (Ok (sigv4_identity (with_signature aws_fields aws_signature) "aws:akid:AKIDEXAMPLE"), c').
Proof.
  apply (registered_client_accepted "duplicate" nonce12 [] 0 aws_row ∅ aws_table aws_now DEFAULT_CLOCK_SKEW_SECS 0 1
           aws_request (with_signature aws_fields aws_signature) "20150830T123600Z" aws_now aws_cache _
           eq_refl eq_refl eq_refl aws_inserted aws_request_ok eq_refl eq_refl aws_client_signs aws_clock).
  - vm_compute. discriminate.
  - vm_compute. reflexivity.
  - vm_compute. reflexivity.
Defined.

Definition signed_fields : ParsedAuth := with_signature aws_fields aws_signature.

(** [tampering_needs_collision] at the signed request and the same request
    with another header that is not signed. *)
Lemma tampering_witness :
  let p' := add_header "user-agent" "curl" signed_parts in
  check_signature signed_parts [] signed_fields "20150830T123600Z" held_secret
    = Ok (sigv4_identity signed_fields "aws:akid:AKIDEXAMPLE") /\
  (same_request "host;x-amz-date" signed_parts p' [] [] \/
   exists text text', request_text signed_parts [] signed_fields = Ok text /\ request_text p' [] signed_fields = Ok text' /\
    (collides sha256 [] [] \/
     collides sha256 (list_byte_of_string text) (list_byte_of_string text') \/
     collides (hmac_sha256 (key_of aws_secret signed_fields))
       (list_byte_of_string (string_to_sign "20150830T123600Z" (scope_of signed_fields) text))
       (list_byte_of_string (string_to_sign "20150830T123600Z" (scope_of signed_fields) text')))).
Proof.
  split; [vm_compute; reflexivity|].
  apply (tampering_needs_collision aws_now aws_now DEFAULT_CLOCK_SKEW_SECS signed_parts
           (add_header "user-agent" "curl" signed_parts) [] [] signed_fields "20150830T123600Z" held_secret
           (sigv4_identity signed_fields "aws:akid:AKIDEXAMPLE") (sigv4_identity signed_fields "aws:akid:AKIDEXAMPLE"));
    vm_compute; reflexivity.
Defined.

(** A client without the secret: [SignedHeaders=] and a made-up signature. *)
Definition hostile_parts : Parts :=
  add_header "authorization"
    "AWS4-HMAC-SHA256 Credential=AKIDEXAMPLE/20150830/us-east-1/service/aws4_request, SignedHeaders=, Signature=00" aws_parts.

Lemma signed_headers_panic_witness :
  fst (sigv4_verify aws_now DEFAULT_CLOCK_SKEW_SECS 0 1 (fun k => fetch_credential_row [] k (inr (aws_table !! k)))
    hostile_parts [] aws_cache) = Panic.
Proof.
  rewrite (signed_headers_panic aws_now DEFAULT_CLOCK_SKEW_SECS 0 1
    (fun k => fetch_credential_row [] k (inr (aws_table !! k))) hostile_parts [] aws_cache
    (mkParsedAuth "AKIDEXAMPLE" "20150830" "us-east-1" "service" "" "00") "20150830T123600Z" held_secret
    kept).
  - reflexivity.
  - vm_compute. reflexivity.
  - vm_compute. reflexivity.
  - apply Exists_cons_hd. vm_compute. reflexivity.
Defined.

(** A run in which the key is used once, disabled at 10 and used again
    from the cache at 20. *)
Notation AwsWorld := (World (K := string) (V := CachedSecret) (Table := Credentials) (Reply := StoreError + option CredentialRow)).
Definition world_at (t : N) (tbl : Credentials) (c : SecretCache) p : AwsWorld := mkWorld t 0 tbl c p.
Definition first_reply : StoreError + option CredentialRow :=
  fetch_credential_row [] "AKIDEXAMPLE" (inr (aws_table !! "AKIDEXAMPLE")).
Definition history : list AwsWorld :=
  [world_at 20 ∅ kept ∅; world_at 20 ∅ kept ∅; world_at 10 ∅ kept ∅; world_at 10 aws_table kept ∅;
   world_at 1 aws_table kept (delete 0 (<[0 := Replied "AKIDEXAMPLE" first_reply 1]> (<[0 := Waiting "AKIDEXAMPLE"]> ∅)));
   world_at 1 aws_table aws_cache (<[0 := Replied "AKIDEXAMPLE" first_reply 1]> (<[0 := Waiting "AKIDEXAMPLE"]> ∅));
   world_at 1 aws_table aws_cache (<[0 := Waiting "AKIDEXAMPLE"]> ∅);
   world_at 1 aws_table aws_cache ∅].

Lemma history_run :
  run cs_fetched_at AuthError_IdentityNotFound (credential_answers []) judge_secret 5
    (world_at 1 aws_table aws_cache ∅) history
    [(world_at 20 ∅ kept ∅, "AKIDEXAMPLE", Ok held_secret);
     (world_at 1 aws_table aws_cache (<[0 := Replied "AKIDEXAMPLE" first_reply 1]> (<[0 := Waiting "AKIDEXAMPLE"]> ∅)),
      "AKIDEXAMPLE", Ok held_secret)].
Proof.
  unfold history.
  eapply run_answer; [|by eapply (step_hit _ _ _ _ _ (world_at 20 ∅ kept ∅)); vm_compute].
  eapply run_silent; [|apply (step_tick _ _ _ _ _ (world_at 10 ∅ kept ∅) 10 0)].
  eapply run_silent; [|apply (step_operator _ _ _ _ _ (world_at 10 aws_table kept ∅) ∅)].
  eapply run_silent.
  2: { pose proof (step_tick cs_fetched_at AuthError_IdentityNotFound (credential_answers []) judge_secret 5
                     (world_at 1 aws_table kept (delete 0 (<[0 := Replied "AKIDEXAMPLE" first_reply 1]> (<[0 := Waiting "AKIDEXAMPLE"]> ∅)))) 9 0) as H.
       exact H. }
  eapply run_answer.
  2: { eapply (step_finish _ _ _ _ _ (world_at 1 aws_table aws_cache _) 0); [apply lookup_insert_eq | done |].
       vm_compute. reflexivity. }
  eapply run_silent; [|apply (step_read _ _ _ _ _ (world_at 1 aws_table aws_cache _) 0); [apply lookup_insert_eq | by left]].
  eapply run_silent; [|by apply (step_miss _ _ _ _ _ (world_at 1 aws_table aws_cache ∅) 0)].
  apply run_start.
Qed.

Lemma revoked_credential_witness : (20 < 11 + 5 + 300)%N.
Proof.
  apply (revoked_credential_dies [] 5 300 (world_at 1 aws_table aws_cache ∅) history _ 11 (world_at 20 ∅ kept ∅)
           "AKIDEXAMPLE" held_secret eq_refl eq_refl eq_refl history_run).
  - intros u Hu Ht. unfold history in Hu.
    rewrite !elem_of_cons, elem_of_nil in Hu.
    destruct Hu as [->|[->|[->|[->|[->|[->|[->|[->|[]]]]]]]]];
      first [exact I | exfalso; revert Ht; vm_compute; congruence].
  - left.
Defined.
