(* ===== verification/ApiToken.v ===== *)
(** * Opaque API tokens

    rekt-auth/src/api_token/: the token format, the hashed store, the
    cache and [ApiTokenVerifier::verify], with the theorems on them. *)

From S2P Require Import Prelude RustStr BTree Json F64 ApiError AuthCache Auth SigV4 SigV4Canonical.

(** ** format.rs *)

Inductive TokenKind : Type :=
| TokenKind_Pat
| TokenKind_Svc
| TokenKind_Test.

#[export] Instance TokenKind_eq_dec : EqDecision TokenKind.
Proof. solve_decision. Defined.

Definition kind_prefix (k : TokenKind) : string :=
  match k with
  | TokenKind_Pat => "rekt_pat_"
  | TokenKind_Svc => "rekt_svc_"
  | TokenKind_Test => "rekt_test_"
  end.

Definition detect (raw : string) : option (TokenKind * string) :=
  find_map (fun kind => match strip_prefix (kind_prefix kind) raw with
                        | Some rest => Some (kind, rest)
                        | None => None
                        end) [TokenKind_Pat; TokenKind_Svc; TokenKind_Test].

Definition BODY_LEN : nat := 28.
Definition ALPHABET : string := "0123456789abcdefghijklmnopqrstuvwxyzABCDEFGHIJKLMNOPQRSTUVWXYZ".

(** [random_base62]: [buf] is what the generator filled in. *)
Definition random_base62 (buf : list Byte.byte) : string :=
  foldr (fun b s => String (default "0"%char (String.get (Byte.to_nat b mod String.length ALPHABET) ALPHABET)) s) "" buf.
Definition mint (kind : TokenKind) (buf : list Byte.byte) : string := kind_prefix kind +:+ random_base62 buf.

(** ** cache.rs *)

Definition API_TOKEN_PEPPER_PURPOSE : list Byte.byte := octets "rektifier-api-token-pepper-v1".

Record CachedToken : Type := mkCachedToken {
  tk_principal : string;
  tk_expires_at_ms : option Z;
  tk_fetched_at : N
}.

#[export] Instance byte_eq_dec : EqDecision Byte.byte := Byte.byte_eq_dec.
#[export] Instance byte_countable : Countable Byte.byte := inj_countable Byte.to_N Byte.of_N Byte.of_to_N.

Definition TokenCache : Type := TtlCache (list Byte.byte) CachedToken.

(** ** store.rs *)

Inductive TokenStoreError : Type :=
| TokenStoreError_Pool (m : string)
| TokenStoreError_Pg (m : string).
Definition token_store_error_to_string (e : TokenStoreError) : string :=
  match e with
  | TokenStoreError_Pool m => "pool error: " +:+ m
  | TokenStoreError_Pg m => "postgres error: " +:+ m
  end.

Record ApiTokenRow : Type := mkApiTokenRow {
  tr_principal : string;
  tr_enabled : bool;
  tr_expires_at_ms : option Z
}.

(** A row of [_rektifier_api_tokens], without its primary key. *)
Record StoredToken : Type := mkStoredToken {
  st_principal : string;
  st_enabled : bool;
  st_expires_at_ms : option Z;
  st_created_at_ms : Z;
  st_last_used_ms : option Z
}.
Notation Tokens := (gmap (list Byte.byte) StoredToken).

Definition insert_token_hash (duplicate : string) (now_ms : Z) (token_hash : list Byte.byte) (principal : string)
    (expires_at_ms : option Z) (t : Tokens) : TokenStoreError + Tokens :=
  match t !! token_hash with
  | Some _ => inl (TokenStoreError_Pg duplicate)
  | None => inr (<[token_hash := mkStoredToken principal true expires_at_ms now_ms None]> t)
  end.

(** [reply] is what the pool and the SELECT returned. *)
Definition fetch_token_row (reply : TokenStoreError + option StoredToken) : TokenStoreError + option ApiTokenRow :=
  match reply with
  | inl e => inl e
  | inr None => inr None
  | inr (Some r) => inr (Some (mkApiTokenRow (st_principal r) (st_enabled r) (st_expires_at_ms r)))
  end.

(** ** mod.rs *)

Fixpoint trim_end_underscores (s : string) : string :=
  match s with
  | EmptyString => ""
  | String c s =>
      match trim_end_underscores s with
      | EmptyString => if Ascii.eqb c "_"%char then "" else String c ""
      | s' => String c s'
      end
  end.

Definition finalize_identity (t : CachedToken) (kind : TokenKind) : Identity :=
  let claims := BTreeMap.insert "token_kind" (VString (trim_end_underscores (kind_prefix kind))) [] in
  let claims := match tk_expires_at_ms t with
                | Some exp => BTreeMap.insert "exp_ms" (VNumber (i64_to_string exp)) claims
                | None => claims
                end in
  mkIdentity AuthScheme_ApiToken (tk_principal t) None claims.

Section tokens.
Context {SH : Sha256} {CI : Ciphers}.

Definition hmac_pepper (pepper : list Byte.byte) (token : string) : list Byte.byte := hmac_sha256 pepper (octets token).
Definition pepper_from_master (master_key : list Byte.byte) : list Byte.byte :=
  derive_subkey master_key API_TOKEN_PEPPER_PURPOSE.

Record ApiTokenVerifier : Type := mkApiTokenVerifier {
  av_pepper : list Byte.byte;
  av_accept_test_tokens : bool
}.
Definition api_token_new (pepper : list Byte.byte) : ApiTokenVerifier := mkApiTokenVerifier pepper false.
Definition with_test_tokens_enabled (enabled : bool) (v : ApiTokenVerifier) : ApiTokenVerifier :=
  mkApiTokenVerifier (av_pepper v) enabled.

(** The part before the cache: the token and its kind. *)
Definition read_token (v : ApiTokenVerifier) (parts : Parts) : Result AuthError (string * TokenKind) :=
  let? auth := ok_or (header "authorization" parts) AuthError_MissingAuthorization in
  let? auth := ok_or auth AuthError_MalformedAuthorization in
  let? token := ok_or (strip_prefix "Bearer " auth) AuthError_MalformedAuthorization in
  let? found := ok_or (detect token)
    (AuthError_TokenFailed "token prefix unrecognised (expected rekt_pat_/rekt_svc_/rekt_test_)") in
  let '(kind, _) := found in
  if bool_decide (kind = TokenKind_Test) && negb (av_accept_test_tokens v) then
    Err (AuthError_TokenFailed "test tokens are not accepted in this build")
  else Ok (token, kind).

(** [t0] and [t1] are the instants at which the cache is read and the
    reply handled, [now_ms] the wall clock then. *)
Definition api_token_verify (v : ApiTokenVerifier) (t0 t1 : N) (now_ms : Z)
    (reply : list Byte.byte -> TokenStoreError + option ApiTokenRow) : Verifier TokenCache := fun parts _ c =>
  match read_token v parts with
  | Ok (token, kind) =>
      let hash := hmac_pepper (av_pepper v) token in
      match cache_get t0 hash c with
      | Some (inr t) => (Ok (finalize_identity t kind), c)
      | Some (inl _) => (Err AuthError_IdentityNotFound, c)
      | None =>
          match reply hash with
          | inl e => (Err (AuthError_Internal ("api-token lookup failed: " +:+ token_store_error_to_string e)), c)
          | inr None => keep (Err AuthError_IdentityNotFound) (insert_negative t1 hash c) c
          | inr (Some row) =>
              if negb (tr_enabled row) then keep (Err AuthError_IdentityDisabled) (insert_negative t1 hash c) c
              else if match tr_expires_at_ms row with Some exp_ms => (exp_ms <? now_ms)%Z | None => false end then
                keep (Err (AuthError_TokenFailed "token expired")) (insert_negative t1 hash c) c
              else
                let cached := mkCachedToken (tr_principal row) (tr_expires_at_ms row) t1 in
                keep (Ok (finalize_identity cached kind)) (insert_positive tk_fetched_at hash cached c) c
          end
      end
  | Err e => (Err e, c)
  | Panic => (Panic, c)
  end.

(** ** Facts *)

Definition judge_token (now : N) (now_ms : Z) (reply : TokenStoreError + option ApiTokenRow) : Outcome AuthError CachedToken :=
  match reply with
  | inl e => Fault (AuthError_Internal ("api-token lookup failed: " +:+ token_store_error_to_string e))
  | inr None => Refuse AuthError_IdentityNotFound
  | inr (Some row) =>
      if negb (tr_enabled row) then Refuse AuthError_IdentityDisabled
      else if match tr_expires_at_ms row with Some exp_ms => (exp_ms <? now_ms)%Z | None => false end then
        Refuse (AuthError_TokenFailed "token expired")
      else Accept (mkCachedToken (tr_principal row) (tr_expires_at_ms row) now)
  end.

(** [verify] is the lookup protocol with that judgement. *)
Lemma api_token_verify_lookup v t0 t1 now_ms reply parts body c :
  api_token_verify v t0 t1 now_ms reply parts body c =
  match read_token v parts with
  | Ok (token, kind) =>
      let hash := hmac_pepper (av_pepper v) token in
      match lookup_once tk_fetched_at AuthError_IdentityNotFound t0 t1 hash (judge_token t1 now_ms (reply hash)) c with
      | (Ok t, c') => (Ok (finalize_identity t kind), c')
      | (Err e, c') => (Err e, c')
      | (Panic, c') => (Panic, c')
      end
  | Err e => (Err e, c)
  | Panic => (Panic, c)
  end.
Proof.
  unfold api_token_verify. destruct (read_token v parts) as [[token kind]| |]; [|done|done].
  unfold lookup_once, lookup_start, lookup_finish, judge_token. cbn zeta.
  destruct (cache_get _ _ _) as [[u|t]|]; [done|done|].
  unfold keep. destruct (reply _) as [e|[row|]]; [done| |by destruct (insert_negative _ _ _)].
  destruct (negb (tr_enabled row)); [by destruct (insert_negative _ _ _)|].
  destruct (match tr_expires_at_ms row with Some exp_ms => (exp_ms <? now_ms)%Z | None => false end);
    [by destruct (insert_negative _ _ _) | by destruct (insert_positive _ _ _ _)].
Qed.

Lemma detect_mint kind s : detect (kind_prefix kind +:+ s) = Some (kind, s).
Proof.
  destruct kind; unfold detect; cbn [find_map foldr].
  - by rewrite (proj2 (strip_prefix_Some _ _ _) eq_refl).
  - change (strip_prefix (kind_prefix TokenKind_Pat) (kind_prefix TokenKind_Svc +:+ s)) with (@None string).
    by rewrite (proj2 (strip_prefix_Some _ _ _) eq_refl).
  - change (strip_prefix (kind_prefix TokenKind_Pat) (kind_prefix TokenKind_Test +:+ s)) with (@None string).
    change (strip_prefix (kind_prefix TokenKind_Svc) (kind_prefix TokenKind_Test +:+ s)) with (@None string).
    by rewrite (proj2 (strip_prefix_Some _ _ _) eq_refl).
Qed.

Lemma all_nat_below (P : nat -> bool) n : forallb P (seq 0 n) = true -> forall i, i < n -> P i = true.
Proof. rewrite forallb_forall. intros Hp i Hi. apply Hp, in_seq. lia. Qed.

Lemma base62_chars buf : str_forall is_ascii_alphanumeric (random_base62 buf) = true.
Proof.
  induction buf as [|b buf IH]; [done|]. cbn [random_base62 foldr str_forall]. unfold random_base62 in IH. rewrite IH, andb_true_r.
  apply (all_nat_below (fun i => is_ascii_alphanumeric (default "0"%char (String.get i ALPHABET))) 62); [done|].
  change (String.length ALPHABET) with 62. apply Nat.mod_upper_bound. lia.
Qed.

Lemma base62_length buf : String.length (random_base62 buf) = length buf.
Proof. induction buf as [|b buf IH]; [done|]. cbn [random_base62 foldr String.length length]. by f_equal. Qed.

Lemma count_dots_none s : str_mem "."%char s = false -> count_dots s = 0.
Proof.
  induction s as [|c s IH]; cbn [str_mem count_dots]; [done|]. rewrite orb_false_iff. intros [Hc Hs].
  rewrite IH by done. destruct (Ascii.eqb_spec c "."%char) as [->|]; done.
Qed.

(** A minted token is routed to this verifier, not to the JWT one. *)
Lemma minted_route parts kind buf :
  header "authorization" parts = Some (Some ("Bearer " +:+ mint kind buf)) ->
  classify_header parts = HeaderRoute_OpaqueBearer.
Proof.
  intros Hh. unfold classify_header, starts_with. rewrite Hh.
  change (strip_prefix "AWS4-HMAC-SHA256 " ("Bearer " +:+ mint kind buf)) with (@None string).
  rewrite (proj2 (strip_prefix_Some _ _ _) eq_refl). rewrite looks_like_jwt_spec, count_dots_none; [done|].
  unfold mint. rewrite str_mem_app, (str_mem_forall is_ascii_alphanumeric "."%char _ eq_refl (base62_chars buf)).
  by destruct kind.
Qed.

Lemma read_token_ok v parts kind s :
  header "authorization" parts = Some (Some ("Bearer " +:+ kind_prefix kind +:+ s)) ->
  kind <> TokenKind_Test \/ av_accept_test_tokens v = true ->
  read_token v parts = Ok (kind_prefix kind +:+ s, kind).
Proof.
  intros Hh Hk. unfold read_token. rewrite Hh. cbn [ok_or].
  rewrite (proj2 (strip_prefix_Some _ _ _) eq_refl). cbn [ok_or]. rewrite detect_mint. cbn [ok_or].
  destruct Hk as [Hk| ->]; [by rewrite bool_decide_false | by rewrite andb_false_r].
Qed.

(** a token that was minted and whose hash was stored is accepted by
    the chain as the stored principal, until its expiry, at a server that
    takes its kind. *)
Theorem minted_token_accepted kind buf v dup now0 principal expires t t' t0 t1 now_ms parts body
    (chain : AuthChain TokenCache) (c : TokenCache) :
  header "authorization" parts = Some (Some ("Bearer " +:+ mint kind buf)) ->
  kind <> TokenKind_Test \/ av_accept_test_tokens v = true ->
  insert_token_hash dup now0 (hmac_pepper (av_pepper v) (mint kind buf)) principal expires t = inr t' ->
  (forall e, expires = Some e -> (now_ms <= e)%Z) ->
  cache_get t0 (hmac_pepper (av_pepper v) (mint kind buf)) c = None -> (t1 + ttl c < instant_max)%N ->
  fst (chain_verify (with_api_token (api_token_verify v t0 t1 now_ms (fun h => fetch_token_row (inr (t' !! h)))) chain)
    parts body c)
  = Ok (finalize_identity (mkCachedToken principal expires t1) kind).
Proof.
  intros Hh Hk Hi He Hc Ht. unfold chain_verify. rewrite (minted_route _ _ _ Hh). simpl.
  unfold api_token_verify. rewrite (read_token_ok v parts kind (random_base62 buf) Hh Hk). cbn zeta.
  fold (mint kind buf). rewrite Hc. unfold insert_token_hash in Hi. destruct (t !! _); [done|]. injection Hi as <-.
  rewrite lookup_insert_eq. simpl.
  set (cached := mkCachedToken principal expires t1).
  assert (is_Some (insert_positive tk_fetched_at (hmac_pepper (av_pepper v) (mint kind buf)) cached c)) as [c' Hc'].
  { eexists. by apply insert_positive_Some. }
  destruct expires as [e|]; [rewrite (proj2 (Z.ltb_ge _ _) (He e eq_refl))|]; fold cached; by rewrite Hc'.
Qed.

(** The store answers with its row, or fails. *)
Definition token_answers (t : Tokens) (hash : list Byte.byte) (r : TokenStoreError + option ApiTokenRow) : Prop :=
  r = fetch_token_row (inr (t !! hash)) \/ exists e, r = inl e.

(** C22: when from the instant [T0] on the row of a token is absent,
    disabled or past its expiry, no request with that token is let in
    later than the time-to-live of the cache, plus the time a reply of the
    store may take, after [T0]; requests and the operator's changes run
    interleaved. *)
Theorem revoked_token_dies latency T w0 ws evs T0 w hash tok :
  ttl (cache w0) = T -> positive (cache w0) = ∅ -> pending w0 = ∅ ->
  run tk_fetched_at AuthError_IdentityNotFound token_answers judge_token latency w0 ws evs ->
  (forall u, u ∈ ws -> (T0 <= now u)%N ->
     match table u !! hash with
     | Some row => st_enabled row = false \/
                   exists e, st_expires_at_ms row = Some e /\
                     forall u', u' ∈ ws -> (T0 <= now u')%N -> (e < wall u')%Z
     | None => True
     end) ->
  (w, hash, Ok tok) ∈ evs -> (now w < T0 + latency + T)%N.
Proof.
  intros HT Hc Hp Hrun Hrev Hin. eapply granted_bounded; [| | | | exact Hrun | | exact Hin]; try done.
  - intros t z r k. unfold judge_token. destruct r as [e|[row|]]; try done. destruct (negb _); [done|].
    destruct (match tr_expires_at_ms row with Some exp_ms => (exp_ms <? z)%Z | None => false end); [done|].
    by intros [= <-].
  - intros wr wf r k Hwr Hwf Ht Hle Ha. specialize (Hrev wr Hwr Ht).
    destruct Ha as [->|[e ->]]; [|done]. unfold fetch_token_row.
    destruct (table wr !! hash) as [row|]; [|done]. unfold judge_token. simpl.
    destruct Hrev as [->|(e & -> & He)]; [done|].
    destruct (negb (st_enabled row)); [done|].
    rewrite (proj2 (Z.ltb_lt _ _) (He wf Hwf ltac:(lia))). done.
Qed.

(** the expiry of a token is checked when its row is read and not
    again: while the entry is in the cache the token is accepted at any
    wall-clock time, past [expires_at_ms] too. *)
Theorem cached_token_outlives_expiry v t0 t1 now_ms reply parts body (c : TokenCache) kind s principal e x f :
  header "authorization" parts = Some (Some ("Bearer " +:+ kind_prefix kind +:+ s)) ->
  kind <> TokenKind_Test \/ av_accept_test_tokens v = true ->
  positive c !! hmac_pepper (av_pepper v) (kind_prefix kind +:+ s) = Some (mkCachedToken principal (Some e) f, x) ->
  (t0 < x)%N -> (e < now_ms)%Z ->
  api_token_verify v t0 t1 now_ms reply parts body c
  = (Ok (finalize_identity (mkCachedToken principal (Some e) f) kind), c).
Proof.
  intros Hh Hk Hp Hx _. unfold api_token_verify. rewrite (read_token_ok v parts kind s Hh Hk). cbn zeta. by rewrite (proj2 (cache_get_inr t0 _ (mkCachedToken principal (Some e) f) c) (ex_intro _ x (conj Hp Hx))).
Qed.
End tokens.
