(* ===== verification/Jwt.v ===== *)
(** * JSON web tokens

    rekt-auth/src/jwt/: issuer configurations and principals (issuer.rs),
    the presets (presets.rs), the published keys and their cache
    (jwks.rs), and [JwtVerifier::verify] (mod.rs), with the theorems on
    them.  The [jsonwebtoken], [url] and JSON crates are the class
    [JwtLib]. *)

From S2P Require Import Prelude RustStr BTree Json F64 ApiError Auth.

(** [jsonwebtoken::Algorithm]. *)
Inductive Algorithm : Type :=
| HS256 | HS384 | HS512 | ES256 | ES384 | RS256 | RS384 | RS512 | PS256 | PS384 | PS512 | EdDSA.
#[export] Instance Algorithm_eq_dec : EqDecision Algorithm.
Proof. solve_decision. Defined.

Definition symmetric (a : Algorithm) : bool :=
  match a with HS256 | HS384 | HS512 => true | _ => false end.

(** ** issuer.rs *)

Inductive PrincipalFormat : Type :=
| PrincipalFormat_Subject (prefix : string)
| PrincipalFormat_Email (prefix : string)
| PrincipalFormat_AzureObjectId (prefix : string)
| PrincipalFormat_Custom (template : string).

(** Durations are in seconds. *)
Record JwtIssuerConfig : Type := mkJwtIssuerConfig {
  ic_issuer : string;
  ic_jwks_url : string;
  ic_expected_audience : list string;
  ic_allowed_algs : list Algorithm;
  ic_clock_skew : N;
  ic_jwks_cache_ttl : N;
  ic_principal_format : PrincipalFormat;
  ic_safe_to_log_claims : list string
}.

Inductive IssuerConfigError : Type :=
| IssuerConfigError_InsecureJwksUrl (url : string)
| IssuerConfigError_InvalidJwksUrl (url : string)
| IssuerConfigError_EmptyAudience
| IssuerConfigError_EmptyAllowedAlgs
| IssuerConfigError_NoneAlgForbidden.

(** What a token header and the claims of a verified token are. *)
Record Header : Type := mkHeader { h_alg : Algorithm; h_typ : option string; h_kid : option string }.
Record Claims : Type := mkClaims {
  cl_iss : string;
  cl_aud : Value;
  cl_sub : option string;
  cl_exp : option Z;
  cl_extra : btree Value
}.
Record Validation : Type := mkValidation {
  va_issuer : list string;
  va_audience : list string;
  va_leeway : N;
  va_algorithms : list Algorithm
}.

(** The libraries: keys from their components, the header and the checked
    claims of a token, JSON documents, URLs.  [decode] accepts a token
    only for an issuer of the validation, and what serde flattens into
    [extra] are the claims without a field of their own. *)
Class JwtLib : Type := {
  Key : Type;
  from_rsa_components : string -> string -> string + Key;
  from_ec_components : string -> string -> string + Key;
  from_ed_components : string -> string + Key;
  decode_header : string -> string + Header;
  decode_token : string -> Key -> Validation -> string + Claims;
  base64_url_decode : string -> option (list Byte.byte);
  parse_object : list Byte.byte -> string + btree Value;
  url_scheme : string -> option string;
  alg_debug : Algorithm -> string;
  decode_issuer : forall token key v c, decode_token token key v = inr c -> cl_iss c ∈ va_issuer v;
  decode_extra : forall token key v c, decode_token token key v = inr c ->
    BTreeMap.wf (cl_extra c) /\
    Forall (fun k => BTreeMap.get k (cl_extra c) = None) ["iss"; "aud"; "sub"; "exp"]
}.

Section issuer.
Context {JL : JwtLib}.

Definition validate (c : JwtIssuerConfig) : IssuerConfigError + unit :=
  match url_scheme (ic_jwks_url c) with
  | None => inl (IssuerConfigError_InvalidJwksUrl (ic_jwks_url c))
  | Some scheme =>
      if negb (String.eqb scheme "https") then inl (IssuerConfigError_InsecureJwksUrl (ic_jwks_url c))
      else if bool_decide (ic_expected_audience c = []) then inl IssuerConfigError_EmptyAudience
      else if bool_decide (ic_allowed_algs c = []) then inl IssuerConfigError_EmptyAllowedAlgs
      else if existsb symmetric (ic_allowed_algs c) then inl IssuerConfigError_EmptyAllowedAlgs
      else inr tt
  end.
End issuer.

Definition claim_str (claims : btree Value) (name : string) : option string :=
  match BTreeMap.get name claims with Some v => as_str v | None => None end.

(** The loop of [render_template]: outside braces, or inside with the name
    read so far. *)
Fixpoint render_from (inside : option string) (claims : btree Value) (template : string) : option string :=
  match template with
  | EmptyString =>
      match inside with
      | None => Some ""
      | Some name => claim_str claims name
      end
  | String c t =>
      match inside with
      | None =>
          if Ascii.eqb c "{"%char then render_from (Some "") claims t
          else match render_from None claims t with Some r => Some (String c r) | None => None end
      | Some name =>
          if Ascii.eqb c "}"%char then
            match claim_str claims name with
            | Some v => match render_from None claims t with Some r => Some (v +:+ r) | None => None end
            | None => None
            end
          else render_from (Some (name +:+ String c "")) claims t
      end
  end.
Definition render_template (template : string) (claims : btree Value) : option string := render_from None claims template.

Definition resolve_principal (c : JwtIssuerConfig) (claims : btree Value) : option string :=
  let from name prefix := match claim_str claims name with Some v => Some (prefix +:+ v) | None => None end in
  match ic_principal_format c with
  | PrincipalFormat_Subject prefix => from "sub" prefix
  | PrincipalFormat_Email prefix => from "email" prefix
  | PrincipalFormat_AzureObjectId prefix => from "oid" prefix
  | PrincipalFormat_Custom template => render_template template claims
  end.

(** ** presets.rs *)

Definition DEFAULT_CLOCK_SKEW : N := 60.
Definition DEFAULT_JWKS_TTL : N := 600.

Definition gcp (audience : string) : JwtIssuerConfig :=
  mkJwtIssuerConfig "https://accounts.google.com" "https://www.googleapis.com/oauth2/v3/certs" [audience] [RS256]
    DEFAULT_CLOCK_SKEW DEFAULT_JWKS_TTL (PrincipalFormat_Email "gcp:user:") ["iss"; "sub"; "aud"; "azp"].

Definition azure (tenant_id audience : string) : JwtIssuerConfig :=
  mkJwtIssuerConfig ("https://sts.windows.net/" +:+ tenant_id +:+ "/")
    ("https://login.microsoftonline.com/" +:+ tenant_id +:+ "/discovery/v2.0/keys") [audience] [RS256]
    DEFAULT_CLOCK_SKEW DEFAULT_JWKS_TTL (PrincipalFormat_AzureObjectId "azure:sp:")
    ["iss"; "sub"; "aud"; "oid"; "tid"; "appid"].

Definition snowflake (account audience : string) : JwtIssuerConfig :=
  mkJwtIssuerConfig ("https://" +:+ account +:+ ".snowflakecomputing.com")
    ("https://" +:+ account +:+ ".snowflakecomputing.com/oauth/jwks") [audience] [RS256]
    DEFAULT_CLOCK_SKEW DEFAULT_JWKS_TTL (PrincipalFormat_Subject "snowflake:user:") ["iss"; "sub"; "aud"].

(** [trim_end_matches('/')]. *)
Fixpoint trim_end_slashes (s : string) : string :=
  match s with
  | EmptyString => ""
  | String c s =>
      match trim_end_slashes s with
      | EmptyString => if Ascii.eqb c "/"%char then "" else String c ""
      | s' => String c s'
      end
  end.

Definition databricks (workspace_url audience : string) : JwtIssuerConfig :=
  let workspace := trim_end_slashes workspace_url in
  mkJwtIssuerConfig (workspace +:+ "/oidc") (workspace +:+ "/oidc/.well-known/jwks.json") [audience] [RS256]
    DEFAULT_CLOCK_SKEW DEFAULT_JWKS_TTL (PrincipalFormat_Subject "databricks:user:") ["iss"; "sub"; "aud"].

Definition neon (project_id region audience : string) : JwtIssuerConfig :=
  let host := project_id +:+ "." +:+ region +:+ ".aws.neon.tech" in
  mkJwtIssuerConfig ("https://" +:+ host) ("https://" +:+ host +:+ "/.well-known/jwks.json") [audience] [RS256]
    DEFAULT_CLOCK_SKEW DEFAULT_JWKS_TTL (PrincipalFormat_Subject "neon:user:") ["iss"; "sub"; "aud"].

Definition generic (issuer jwks_url audience : string) (principal_format : PrincipalFormat) : JwtIssuerConfig :=
  mkJwtIssuerConfig issuer jwks_url [audience] [RS256] DEFAULT_CLOCK_SKEW DEFAULT_JWKS_TTL principal_format
    ["iss"; "sub"; "aud"].

Definition aws_cognito (user_pool_id region audience : string) : JwtIssuerConfig :=
  let base := "https://cognito-idp." +:+ region +:+ ".amazonaws.com/" +:+ user_pool_id in
  mkJwtIssuerConfig base (base +:+ "/.well-known/jwks.json") [audience] [RS256]
    DEFAULT_CLOCK_SKEW DEFAULT_JWKS_TTL (PrincipalFormat_Subject "cognito:user:") ["iss"; "sub"; "aud"; "client_id"].

(** ** jwks.rs *)

Inductive JwksError : Type :=
| JwksError_Fetch (url msg : string)
| JwksError_Parse (url msg : string)
| JwksError_UnknownKid (url kid : string)
| JwksError_UnsupportedAlg (kid alg : string).

Definition jwks_error_to_string (e : JwksError) : string :=
  match e with
  | JwksError_Fetch url msg => "jwks fetch failed for " +:+ url +:+ ": " +:+ msg
  | JwksError_Parse url msg => "jwks document for " +:+ url +:+ " is malformed: " +:+ msg
  | JwksError_UnknownKid url kid => "kid " +:+ kid +:+ " not found in jwks at " +:+ url +:+ " (cache+refresh)"
  | JwksError_UnsupportedAlg kid alg => "jwks key " +:+ kid +:+ " has unsupported alg " +:+ alg
  end.

Record RawJwk : Type := mkRawJwk {
  jk_kid : option string;
  jk_kty : string;
  jk_alg : option string;
  jk_n : option string;
  jk_e : option string;
  jk_x : option string;
  jk_y : option string;
  jk_crv : option string
}.

Definition parse_alg (s : string) : option Algorithm :=
  if String.eqb s "RS256" then Some RS256
  else if String.eqb s "RS384" then Some RS384
  else if String.eqb s "RS512" then Some RS512
  else if String.eqb s "PS256" then Some PS256
  else if String.eqb s "PS384" then Some PS384
  else if String.eqb s "PS512" then Some PS512
  else if String.eqb s "ES256" then Some ES256
  else if String.eqb s "ES384" then Some ES384
  else if String.eqb s "EdDSA" then Some EdDSA
  else None.

Section jwks.
Context {JL : JwtLib}.

Record PinnedKey : Type := mkPinnedKey { pk_kid : string; pk_alg : Algorithm; pk_key : Key }.

(** The key material of one entry of the document. *)
Definition jwk_key (url kid : string) (jwk : RawJwk) : JwksError + Key :=
  let parse msg := inl (JwksError_Parse url msg) in
  let rename what r := match r with inr k => inr k | inl e => parse (what +:+ " components for kid " +:+ kid +:+ ": " +:+ e) end in
  if String.eqb (jk_kty jwk) "RSA" then
    match jk_n jwk, jk_e jwk with
    | Some n, Some e => rename "rsa" (from_rsa_components n e)
    | _, _ => parse ("unsupported kty " +:+ jk_kty jwk +:+ " for kid " +:+ kid)
    end
  else if String.eqb (jk_kty jwk) "EC" then
    match jk_crv jwk, jk_x jwk, jk_y jwk with
    | Some _, Some x, Some y => rename "ec" (from_ec_components x y)
    | _, _, _ => parse ("EC key " +:+ kid +:+ " missing crv/x/y")
    end
  else if String.eqb (jk_kty jwk) "OKP" then
    match jk_x jwk with
    | Some x => rename "ed" (from_ed_components x)
    | None => parse ("OKP key " +:+ kid +:+ " missing x")
    end
  else parse ("unsupported kty " +:+ jk_kty jwk +:+ " for kid " +:+ kid).

Definition jwk_alg (jwk : RawJwk) : string :=
  match jk_alg jwk with
  | Some a => a
  | None =>
      if String.eqb (jk_kty jwk) "RSA" then "RS256"
      else if String.eqb (jk_kty jwk) "EC" then "ES256"
      else if String.eqb (jk_kty jwk) "OKP" then "EdDSA" else ""
  end.

(** One turn of the loop over the keys, [out] those pinned so far. *)
Definition pin_key (url : string) (out : list PinnedKey) (jwk : RawJwk) : Result JwksError (list PinnedKey) :=
  let kid := default ("(unkidded-" +:+ usize_to_string (N.of_nat (length out)) +:+ ")") (jk_kid jwk) in
  match parse_alg (jwk_alg jwk) with
  | None => Ok out
  | Some alg =>
      match jwk_key url kid jwk with
      | inl e => Err e
      | inr key => Ok (out ++ [mkPinnedKey kid alg key])
      end
  end.

(** [raw] is what serde makes of the body. *)
Definition parse_jwks (url : string) (raw : string + list RawJwk) : Result JwksError (list PinnedKey) :=
  match raw with
  | inl e => Err (JwksError_Parse url e)
  | inr keys => fold_result (pin_key url) [] keys
  end.

Record JwksCache : Type := mkJwksCache {
  jc_url : string;
  jc_ttl : N;
  jc_entry : option (list PinnedKey * N);
  jc_fetch_disabled : bool
}.

(** [built] says whether [reqwest] could build its client. *)
Definition jwks_new {E : Type} (built : bool) (url : string) (ttl : N) : Result E JwksCache :=
  let? _ := expect (if built then Some tt else None) in
  Ok (mkJwksCache url ttl None false).

(** What the HTTP GET yields: an error or a time-out, or a status line, its
    success, and the body as read and parsed. *)
Inductive Fetched : Type :=
| Fetched_Failed (msg : string)
| Fetched_Response (success : bool) (status : string) (body : string + (string + list RawJwk)).

Definition fetch_and_store (now : N) (f : Fetched) (c : JwksCache) : Result JwksError unit * JwksCache :=
  match f with
  | Fetched_Failed msg => (Err (JwksError_Fetch (jc_url c) msg), c)
  | Fetched_Response success status body =>
      if negb success then (Err (JwksError_Fetch (jc_url c) ("HTTP " +:+ status)), c)
      else match body with
           | inl e => (Err (JwksError_Fetch (jc_url c) e), c)
           | inr raw =>
               match parse_jwks (jc_url c) raw with
               | Ok keys => (Ok tt, mkJwksCache (jc_url c) (jc_ttl c) (Some (keys, now)) (jc_fetch_disabled c))
               | Err e => (Err e, c)
               | Panic => (Panic, c)
               end
           end
  end.

Definition jwks_lookup (kid : string) (c : JwksCache) : option PinnedKey :=
  match jc_entry c with
  | None => None
  | Some (keys, _) => List.find (fun k => String.eqb (pk_kid k) kid) keys
  end.

Definition is_stale (now : N) (c : JwksCache) : bool :=
  match jc_entry c with
  | Some (_, fetched_at) => (jc_ttl c <? now - fetched_at)%N
  | None => true
  end.

(** [schedule_refresh] has an empty body. *)
Definition schedule_refresh (c : JwksCache) : JwksCache := c.

Definition get_key (now : N) (f : Fetched) (kid : string) (c : JwksCache) : Result JwksError PinnedKey * JwksCache :=
  match jwks_lookup kid c with
  | Some k => (Ok k, if is_stale now c then schedule_refresh c else c)
  | None =>
      let '(r, c') := if jc_fetch_disabled c then (Ok tt, c) else fetch_and_store now f c in
      match r with
      | Ok _ => (ok_or (jwks_lookup kid c') (JwksError_UnknownKid (jc_url c') kid), c')
      | Err e => (Err e, c')
      | Panic => (Panic, c')
      end
  end.

(** ** mod.rs *)

Record IssuerEntry : Type := mkIssuerEntry { ie_config : JwtIssuerConfig; ie_jwks : JwksCache }.
Definition JwtVerifier : Type := gmap string IssuerEntry.

Definition add_issuer (built : bool) (config : JwtIssuerConfig) (v : JwtVerifier)
    : Result IssuerConfigError JwtVerifier :=
  let? _ := match validate config with inl e => Err e | inr u => Ok u end in
  let? cache := jwks_new built (ic_jwks_url config) (ic_jwks_cache_ttl config) in
  Ok (<[ic_issuer config := mkIssuerEntry config cache]> v).

(** [order] is the iteration order of the map, [fetch] what each URL
    answers. *)
Fixpoint warm_up (now : N) (fetch : string -> Fetched) (order : list string) (v : JwtVerifier)
    : Result AuthError unit * JwtVerifier :=
  match order with
  | [] => (Ok tt, v)
  | issuer :: order =>
      match v !! issuer with
      | None => warm_up now fetch order v
      | Some entry =>
          let '(r, c) := fetch_and_store now (fetch (jc_url (ie_jwks entry))) (ie_jwks entry) in
          let v := <[issuer := mkIssuerEntry (ie_config entry) c]> v in
          match r with
          | Ok _ => warm_up now fetch order v
          | Err e => (Err (AuthError_Internal ("JWKS warm-up failed for issuer " +:+ issuer +:+ ": " +:+ jwks_error_to_string e)), v)
          | Panic => (Panic, v)
          end
      end
  end.

Definition str_eq_ignore_case (a b : string) : bool := String.eqb (str_lower a) (str_lower b).

Definition failed {A : Type} (m : string) : Result AuthError A := Err (AuthError_TokenFailed m).
Definition or_failed {A : Type} (o : option A) (m : string) : Result AuthError A := ok_or o (AuthError_TokenFailed m).
Definition sum_failed {A : Type} (r : string + A) (m : string) : Result AuthError A :=
  match r with inr a => Ok a | inl e => failed (m +:+ e) end.

(** The checks before the key is looked up: the token, its header and the
    issuer it claims. *)
Definition read_jwt (parts : Parts) : Result AuthError (string * Header * string) :=
  let? auth := ok_or (header "authorization" parts) AuthError_MissingAuthorization in
  let? auth := ok_or auth AuthError_MalformedAuthorization in
  let? token := ok_or (strip_prefix "Bearer " auth) AuthError_MalformedAuthorization in
  let? hdr := sum_failed (decode_header token) "invalid JWT header: " in
  let? _ := match h_typ hdr with
            | Some t => if str_eq_ignore_case t "JWT" then Ok tt
                        else failed ("unsupported token typ=" +:+ t +:+ " (expected JWT)")
            | None => Ok tt
            end in
  let? _ := if negb (Nat.eqb (count_dots token) 2) then failed "token is not a 3-segment JWS (refusing JWE)" else Ok tt in
  let? payload_seg := or_failed (split_on "."%char token !! 1) "token missing payload segment" in
  let? payload_bytes := or_failed (base64_url_decode payload_seg) "payload segment not base64url" in
  let? prelim := sum_failed (parse_object payload_bytes) "payload not JSON: " in
  let? iss := or_failed (claim_str prelim "iss") "missing iss claim" in
  Ok (token, hdr, iss).

Definition jwt_claims (c : Claims) : btree Value :=
  let claims := BTreeMap.insert "iss" (VString (cl_iss c)) (cl_extra c) in
  let claims := match cl_sub c with Some sub => BTreeMap.insert "sub" (VString sub) claims | None => claims end in
  match cl_exp c with Some exp => BTreeMap.insert "exp" (VNumber (i64_to_string exp)) claims | None => claims end.

(** The checks after: the pinned algorithm, the signature and the claims,
    the principal. *)
Definition check_jwt (config : JwtIssuerConfig) (token kid : string) (hdr : Header) (pinned : PinnedKey)
    : Result AuthError Identity :=
  let? _ := if negb (bool_decide (pk_alg pinned = h_alg hdr)) then
              failed ("token alg " +:+ alg_debug (h_alg hdr) +:+ " does not match JWKS-pinned alg "
                      +:+ alg_debug (pk_alg pinned) +:+ " for kid " +:+ kid)
            else Ok tt in
  let? _ := if negb (bool_decide (pk_alg pinned ∈ ic_allowed_algs config)) then
              failed ("JWKS alg " +:+ alg_debug (pk_alg pinned) +:+ " not in issuer allowlist")
            else Ok tt in
  let validation := mkValidation [ic_issuer config] (ic_expected_audience config) (ic_clock_skew config) [pk_alg pinned] in
  let? c := sum_failed (decode_token token (pk_key pinned) validation) "signature/claim validation failed: " in
  let? principal := or_failed (resolve_principal config (jwt_claims c)) "principal could not be derived from claims" in
  Ok (mkIdentity AuthScheme_Jwt principal (Some (cl_iss c)) (jwt_claims c)).

Definition jwt_verify (now : N) (fetch : string -> Fetched) : Verifier JwtVerifier := fun parts _ v =>
  match read_jwt parts with
  | Ok (token, hdr, iss) =>
      match v !! iss with
      | None => (failed ("issuer " +:+ iss +:+ " not trusted"), v)
      | Some entry =>
          match h_kid hdr with
          | None => (failed "token header missing kid", v)
          | Some kid =>
              let '(r, c) := get_key now (fetch (jc_url (ie_jwks entry))) kid (ie_jwks entry) in
              let v := <[iss := mkIssuerEntry (ie_config entry) c]> v in
              match r with
              | Ok pinned => (check_jwt (ie_config entry) token kid hdr pinned, v)
              | Err (JwksError_UnknownKid _ _) => (failed ("unknown kid: " +:+ kid), v)
              | Err other => (Err (AuthError_Internal ("JWKS error: " +:+ jwks_error_to_string other)), v)
              | Panic => (Panic, v)
              end
          end
      end
  | Err e => (Err e, v)
  | Panic => (Panic, v)
  end.
End jwks.

(** ** Correctness

    Over every history of configuration, warm-up and requests: an accepted
    token names a configured issuer, was verified with a key this issuer
    published, under the algorithm the key was published with, which is
    allowed and never a symmetric one.  Two deviations: a key stays in
    use after its issuer has withdrawn it, and the audience is lost. *)

Section jwt.
Context {JL : JwtLib}.

(** ** Configurations *)

(** An issuer that is accepted has an HTTPS key URL, an audience, and a
    non-empty list of asymmetric algorithms. *)
Lemma validate_Ok c :
  validate c = inr tt <->
  url_scheme (ic_jwks_url c) = Some "https" /\ ic_expected_audience c <> [] /\ ic_allowed_algs c <> [] /\
  Forall (fun a => symmetric a = false) (ic_allowed_algs c).
Proof.
  unfold validate. destruct (url_scheme (ic_jwks_url c)) as [s|]; [|naive_solver].
  destruct (String.eqb_spec s "https") as [->|]; simpl; [|naive_solver].
  destruct (bool_decide_reflect (ic_expected_audience c = [])); [naive_solver|].
  destruct (bool_decide_reflect (ic_allowed_algs c = [])); [naive_solver|].
  destruct (existsb symmetric (ic_allowed_algs c)) eqn:Ex.
  - split; [done|]. intros (_ & _ & _ & Hf). apply existsb_exists in Ex as (a & Hin & Ha).
    rewrite Forall_forall in Hf. by rewrite Hf in Ha by (by apply list_elem_of_In).
  - split; [|done]. intros _. split_and!; [done|done|done|]. apply Forall_forall. intros a Hin.
    apply not_true_is_false. intros Ha. by rewrite (proj2 (existsb_exists _ _) (ex_intro _ a (conj (proj1 (list_elem_of_In _ _) Hin) Ha))) in Ex.
Qed.

(** ** Keys *)

Lemma parse_alg_asymmetric s a : parse_alg s = Some a -> symmetric a = false.
Proof. unfold parse_alg. repeat case_match; by intros [= <-]. Qed.

(** What the URLs have answered so far. *)
Variable published : string -> Fetched -> Prop.

(** A key that was in a document the URL served. *)
Definition served_at (url : string) (k : PinnedKey) : Prop :=
  exists status raw keys, published url (Fetched_Response true status (inr raw))
    /\ parse_jwks url raw = Ok keys /\ k ∈ keys.

Definition keys_ok (url : string) (keys : list PinnedKey) : Prop :=
  Forall (fun k => symmetric (pk_alg k) = false /\ served_at url k) keys.

Lemma pin_key_asymmetric url out jwk out' :
  Forall (fun k => symmetric (pk_alg k) = false) out -> pin_key url out jwk = Ok out' ->
  Forall (fun k => symmetric (pk_alg k) = false) out'.
Proof.
  intros Ho. unfold pin_key. destruct (parse_alg (jwk_alg jwk)) as [a|] eqn:Ea; [|by intros [= <-]].
  destruct (jwk_key _ _ _); [done|]. intros [= <-]. apply Forall_app. split; [done|].
  repeat constructor. by eapply parse_alg_asymmetric.
Qed.

Lemma parse_jwks_asymmetric url raw keys :
  parse_jwks url raw = Ok keys -> Forall (fun k => symmetric (pk_alg k) = false) keys.
Proof.
  destruct raw as [e|raw]; [done|].
  apply (fold_result_inv (pin_key url) (Forall (fun k => symmetric (pk_alg k) = false))); [|constructor].
  intros s x s' _. apply pin_key_asymmetric.
Qed.

Definition cache_ok (c : JwksCache) : Prop := forall keys t, jc_entry c = Some (keys, t) -> keys_ok (jc_url c) keys.

Lemma fetch_and_store_ok now f c :
  published (jc_url c) f -> cache_ok c ->
  cache_ok (fetch_and_store now f c).2 /\ jc_url (fetch_and_store now f c).2 = jc_url c.
Proof.
  intros Hp Hc. unfold fetch_and_store. destruct f as [m|ok st body]; [done|].
  destruct ok; [|done]. cbn [negb]. destruct body as [e|raw]; [done|].
  destruct (parse_jwks (jc_url c) raw) as [keys| |] eqn:Ep; [|done|done]. split; [|done].
  intros ks t [= <- <-]. pose proof (parse_jwks_asymmetric _ _ _ Ep) as Ha. unfold keys_ok. rewrite Forall_forall in *.
  intros k Hk. split; [by apply Ha|]. by exists st, raw, keys.
Qed.

(** The key [get_key] answers is in the cache it leaves. *)
Lemma get_key_spec now f kid c :
  published (jc_url c) f -> cache_ok c ->
  cache_ok (get_key now f kid c).2 /\ jc_url (get_key now f kid c).2 = jc_url c /\
  forall k, (get_key now f kid c).1 = Ok k -> jwks_lookup kid (get_key now f kid c).2 = Some k.
Proof.
  intros Hp Hc. unfold get_key. destruct (jwks_lookup kid c) as [k|] eqn:El.
  - assert ((if is_stale now c then schedule_refresh c else c) = c) as -> by (by destruct (is_stale now c)).
    split_and!; [done..|]. by intros k' [= <-].
  - set (r := if jc_fetch_disabled c then (Ok (E := JwksError) tt, c) else fetch_and_store now f c).
    assert (cache_ok r.2 /\ jc_url r.2 = jc_url c) as [Hc' Hu]
      by (unfold r; destruct (jc_fetch_disabled c); [done | by apply fetch_and_store_ok]).
    destruct r as [[u|e|] c']; simpl in *; (split_and!; [done|done|]); try done.
    intros k. destruct (jwks_lookup kid c'); simpl; [by intros [= <-] | done].
Qed.

Lemma jwks_lookup_kid kid c k :
  cache_ok c -> jwks_lookup kid c = Some k -> pk_kid k = kid /\ symmetric (pk_alg k) = false /\ served_at (jc_url c) k.
Proof.
  intros Hc. unfold jwks_lookup. destruct (jc_entry c) as [[keys t]|] eqn:Ee; [|done].
  intros [Hin Hk]%List.find_some. split; [by apply String.eqb_eq|].
  pose proof (Hc keys t Ee) as Hk'. unfold keys_ok in Hk'. rewrite Forall_forall in Hk'.
  by apply Hk', list_elem_of_In.
Qed.

(** ** Histories *)

(** An entry is of its issuer, was validated, and fetches from the URL of
    its configuration. *)
Definition entry_ok (iss : string) (e : IssuerEntry) : Prop :=
  ic_issuer (ie_config e) = iss /\ validate (ie_config e) = inr tt /\
  jc_url (ie_jwks e) = ic_jwks_url (ie_config e) /\ cache_ok (ie_jwks e).
Definition verifier_ok (v : JwtVerifier) : Prop := forall iss e, v !! iss = Some e -> entry_ok iss e.

Lemma verifier_ok_insert v iss e : verifier_ok v -> entry_ok iss e -> verifier_ok (<[iss := e]> v).
Proof.
  intros Hv He iss' e'. unfold JwtVerifier in *.
  destruct (decide (iss = iss')) as [->|]; [rewrite lookup_insert_eq; by intros [= <-] |].
  rewrite lookup_insert_ne by done. apply Hv.
Qed.

Lemma entry_ok_cache iss e c :
  entry_ok iss e -> cache_ok c -> jc_url c = jc_url (ie_jwks e) -> entry_ok iss (mkIssuerEntry (ie_config e) c).
Proof. intros (? & ? & Hu & _) Hc E. split_and!; [done|done|simpl; congruence|done]. Qed.

(** The GETs of a step answer what the URLs publish. *)
Definition genuine (fetch : string -> Fetched) : Prop := forall url, published url (fetch url).

Lemma warm_up_ok now fetch order v : genuine fetch -> verifier_ok v -> verifier_ok (warm_up now fetch order v).2.
Proof.
  intros Hg. revert v. induction order as [|iss order IH]; intros v Hv; simpl; [done|].
  destruct (v !! iss) as [e|] eqn:Ee; [|by apply IH]. pose proof (Hv iss e Ee) as He.
  destruct (fetch_and_store_ok now (fetch (jc_url (ie_jwks e))) (ie_jwks e) (Hg _) ltac:(apply He)) as [Hc' Hu].
  destruct (fetch_and_store _ _ _) as [r c']. simpl in *.
  assert (verifier_ok (<[iss := mkIssuerEntry (ie_config e) c']> v)) as Hv'
    by (apply verifier_ok_insert; [done | by apply entry_ok_cache]).
  destruct r; [by apply IH | done | done].
Qed.

Lemma jwt_verify_ok now fetch parts body v :
  genuine fetch -> verifier_ok v -> verifier_ok (jwt_verify now fetch parts body v).2.
Proof.
  intros Hg Hv. unfold jwt_verify. destruct (read_jwt parts) as [[[token hdr] iss]| |]; [|done|done].
  destruct (v !! iss) as [e|] eqn:Ee; [|done]. destruct (h_kid hdr) as [kid|]; [|done].
  pose proof (Hv iss e Ee) as He.
  destruct (get_key_spec now (fetch (jc_url (ie_jwks e))) kid (ie_jwks e) (Hg _) ltac:(apply He)) as (Hc' & Hu & _).
  destruct (get_key _ _ _ _) as [r c']. simpl in *.
  assert (verifier_ok (<[iss := mkIssuerEntry (ie_config e) c']> v)) as Hv'
    by (apply verifier_ok_insert; [done | by apply entry_ok_cache]).
  destruct r as [k|e'|]; [done | by destruct e' | done].
Qed.

(** The verifiers a server can have: issuers are added, keys fetched,
    requests verified, at any times and with what the URLs answer then. *)
Inductive reachable : JwtVerifier -> Prop :=
| reachable_new : reachable ∅
| reachable_add v built config v' : reachable v -> add_issuer built config v = Ok v' -> reachable v'
| reachable_warm_up v now fetch order : reachable v -> genuine fetch -> reachable (warm_up now fetch order v).2
| reachable_verify v now fetch parts body :
    reachable v -> genuine fetch -> reachable (jwt_verify now fetch parts body v).2.

Lemma reachable_ok v : reachable v -> verifier_ok v.
Proof.
  induction 1 as [|v built config v' _ IH Ha|v now fetch order _ IH Hg|v now fetch parts body _ IH Hg].
  - intros iss e. unfold JwtVerifier. by rewrite lookup_empty.
  - unfold add_issuer in Ha. destruct (validate config) as [|[]] eqn:Ev; [done|]. destruct built; [|done].
    injection Ha as <-. by apply verifier_ok_insert.
  - by apply warm_up_ok.
  - by apply jwt_verify_ok.
Qed.

(** *** What a token that is read looks like *)

Lemma split_dots s :
  length (split_on "."%char s) = S (count_dots s) /\ String.concat "." (split_on "."%char s) = s.
Proof.
  induction s as [|c s [IHl IHc]]; [done|]. cbn [split_on count_dots]. destruct (split_on "."%char s) as [|w l] eqn:E; [done|].
  rewrite (Ascii.eqb_sym "."%char c). destruct (Ascii.eqb_spec c "."%char) as [->|]; cbn [length] in *; (split; [lia|]).
  - change ("." +:+ String.concat "." (w :: l) = String "." s). by rewrite IHc.
  - rewrite <- IHc. by destruct l.
Qed.

Lemma three_segments s :
  count_dots s = 2 -> exists h p q, s = h +:+ "." +:+ p +:+ "." +:+ q /\ split_on "."%char s = [h; p; q].
Proof.
  intros Hd. destruct (split_dots s) as [Hl Hc]. rewrite Hd in Hl.
  destruct (split_on "."%char s) as [|h [|p [|q []]]]; try done. by exists h, p, q.
Qed.

Lemma read_jwt_Ok parts token hdr iss :
  read_jwt parts = Ok (token, hdr, iss) ->
  header "authorization" parts = Some (Some ("Bearer " +:+ token)) /\ decode_header token = inr hdr /\
  exists h p s, token = h +:+ "." +:+ p +:+ "." +:+ s /\ split_on "."%char token = [h; p; s] /\
    exists bytes claims, base64_url_decode p = Some bytes /\ parse_object bytes = inr claims /\
      claim_str claims "iss" = Some iss.
Proof.
  unfold read_jwt. destruct (header "authorization" parts) as [[auth|]|]; [|done|done]. cbn [ok_or].
  destruct (strip_prefix "Bearer " auth) as [tk|] eqn:Eb; [|done]. cbn [ok_or].
  destruct (decode_header tk) as [e|hd] eqn:Eh; [done|]. cbn [sum_failed].
  destruct (match h_typ hd with Some t => _ | None => _ end); [|done|done].
  destruct (Nat.eqb_spec (count_dots tk) 2) as [Hd|]; [|done]. cbn [negb].
  destruct (split_on "."%char tk !! 1) as [p|] eqn:Ep; [|done]. cbn [or_failed ok_or].
  destruct (base64_url_decode p) as [bytes|] eqn:E1; [|done]. cbn [or_failed ok_or].
  destruct (parse_object bytes) as [e|claims] eqn:E2; [done|]. cbn [sum_failed].
  destruct (claim_str claims "iss") as [i|] eqn:E3; [|done]. cbn [or_failed ok_or]. intros [= <- <- <-].
  apply strip_prefix_Some in Eb as ->. split; [done|]. split; [done|].
  destruct (three_segments tk Hd) as (h & p' & s & -> & Es). rewrite Es in Ep. injection Ep as ->.
  exists h, p, s. split; [done|]. split; [done|]. by exists bytes, claims.
Qed.

Lemma check_jwt_Ok config token kid hdr k id :
  check_jwt config token kid hdr k = Ok id ->
  pk_alg k = h_alg hdr /\ pk_alg k ∈ ic_allowed_algs config /\
  exists c, decode_token token (pk_key k)
      (mkValidation [ic_issuer config] (ic_expected_audience config) (ic_clock_skew config) [pk_alg k]) = inr c /\
    cl_iss c = ic_issuer config /\ resolve_principal config (jwt_claims c) = Some (id_principal id) /\
    id_issuer id = Some (ic_issuer config) /\ id_claims id = jwt_claims c.
Proof.
  unfold check_jwt. destruct (bool_decide_reflect (pk_alg k = h_alg hdr)) as [Ha|]; [|done].
  destruct (bool_decide_reflect (pk_alg k ∈ ic_allowed_algs config)) as [Hi|]; [|done]. cbn [negb].
  destruct (decode_token _ _ _) as [e|c] eqn:Ed; [done|]. cbn [sum_failed].
  destruct (resolve_principal config (jwt_claims c)) as [p|] eqn:Er; [|done]. cbn [or_failed ok_or].
  intros [= <-]. split_and!; [done|done|]. exists c.
  assert (cl_iss c = ic_issuer config) as Hiss.
  { apply decode_issuer in Ed. simpl in Ed. by apply list_elem_of_singleton in Ed. }
  split_and!; try done. simpl. by rewrite Hiss.
Qed.

(** C18: over every history of a verifier, a token is accepted only when
    it has three segments and the second names a configured issuer, with
    an HTTPS key URL and an audience; when the key with the id in its
    header was in a document that this very URL served; when the algorithm
    of the header is the one the key was published with, is on the
    issuer's list and is not symmetric; and when the library has verified
    signature, audience and times with this key and only this algorithm.
    The identity is of that issuer, its principal derived from the
    verified claims. *)
Theorem jwt_acceptance_sound v now fetch parts body id v' :
  reachable v -> genuine fetch -> jwt_verify now fetch parts body v = (Ok id, v') ->
  exists h p s bytes prelim hdr iss e kid k c,
    let token := h +:+ "." +:+ p +:+ "." +:+ s in
    header "authorization" parts = Some (Some ("Bearer " +:+ token)) /\ split_on "."%char token = [h; p; s] /\
    decode_header token = inr hdr /\ base64_url_decode p = Some bytes /\ parse_object bytes = inr prelim /\
    claim_str prelim "iss" = Some iss /\ h_kid hdr = Some kid /\
    v !! iss = Some e /\ url_scheme (ic_jwks_url (ie_config e)) = Some "https" /\
    served_at (ic_jwks_url (ie_config e)) k /\
    pk_kid k = kid /\ pk_alg k = h_alg hdr /\ pk_alg k ∈ ic_allowed_algs (ie_config e) /\ symmetric (pk_alg k) = false /\
    ic_expected_audience (ie_config e) <> [] /\
    decode_token token (pk_key k)
      (mkValidation [iss] (ic_expected_audience (ie_config e)) (ic_clock_skew (ie_config e)) [pk_alg k]) = inr c /\
    id_issuer id = Some iss /\ id_claims id = jwt_claims c /\
    resolve_principal (ie_config e) (jwt_claims c) = Some (id_principal id).
Proof.
  intros Hr%reachable_ok Hg. unfold jwt_verify. destruct (read_jwt parts) as [[[token hdr] iss]| |] eqn:Erd; [|done|done].
  destruct (v !! iss) as [e|] eqn:Ee; [|done]. destruct (h_kid hdr) as [kid|] eqn:Ek; [|done].
  destruct (Hr iss e Ee) as (Hi & Hv & Hu & Hc).
  destruct (get_key_spec now (fetch (jc_url (ie_jwks e))) kid (ie_jwks e) (Hg _) Hc) as (Hc' & Hu' & Hk).
  destruct (get_key _ _ _ _) as [r c']. simpl in Hc', Hu', Hk.
  destruct r as [k|[]|]; try done. intros [= Hck _].
  apply check_jwt_Ok in Hck as (Ha & Hin & c & Hd & _ & Hp & Hii & Hcl). rewrite Hi in *.
  destruct (jwks_lookup_kid _ _ _ Hc' (Hk k eq_refl)) as (Hkid & Hsym & Hpub). rewrite Hu', Hu in Hpub.
  apply validate_Ok in Hv as (Hs & Haud & _).
  apply read_jwt_Ok in Erd as (Hau & Hdh & h & p & sg & -> & Hsp & bytes & prelim & Hb & Hpo & Hcs).
  exists h, p, sg, bytes, prelim, hdr, iss, e, kid, k, c. by split_and!.
Qed.

(** ** Deviations *)

Lemma get_key_hit now f kid k c : jwks_lookup kid c = Some k -> get_key now f kid c = (Ok k, c).
Proof. unfold get_key. intros ->. by destruct (is_stale now c). Qed.

(** Calls of [get_key] at any times, each with what the issuer publishes
    by then. *)
Definition get_keys (kid : string) (calls : list (N * Fetched)) (c : JwksCache) : list (Result JwksError PinnedKey) * JwksCache :=
  fold_left (fun acc '(now, published) =>
     let '(r, c') := get_key now published kid acc.2 in (acc.1 ++ [r], c')) calls ([], c).

(** C40: a key in the cache is served at any later time, past the
    time-to-live and whatever the issuer publishes by then, and the cache
    is left as it is: nothing but a request for an unknown key id ever
    fetches the keys again. *)
Theorem stale_key_served_forever kid k c calls :
  jwks_lookup kid c = Some k -> get_keys kid calls c = (repeat (Ok k) (length calls), c).
Proof.
  intros Hl. unfold get_keys.
  enough (Hg : forall done, fold_left (fun acc '(now, published) =>
     let '(r, c') := get_key now published kid acc.2 in (acc.1 ++ [r], c')) calls (done, c)
     = (done ++ repeat (Ok k) (length calls), c)) by apply Hg.
  induction calls as [|[now f] calls IH]; intros done; cbn [fold_left fst snd length repeat]; [by rewrite app_nil_r|].
  rewrite (get_key_hit now f kid k c Hl), IH. by rewrite <- app_assoc.
Qed.

Lemma jwt_claims_aud token key val c :
  decode_token token key val = inr c -> BTreeMap.get "aud" (jwt_claims c) = None.
Proof.
  intros [_ Hx]%decode_extra. unfold jwt_claims.
  assert (BTreeMap.get "aud" (cl_extra c) = None) as Ha by (by inversion Hx as [|?? _ H1]; inversion H1).
  destruct (cl_sub c), (cl_exp c); by rewrite ?BTreeMap.get_insert_ne.
Qed.

Lemma render_needs claims name t rest :
  claim_str claims name = None -> str_mem "{"%char t = false -> str_mem "}"%char name = false ->
  render_template (t +:+ String "{" (name +:+ String "}" rest)) claims = None.
Proof.
  intros Hc Ht Hn. unfold render_template. induction t as [|c t IH]; cbn [String.append render_from].
  - assert (Hg : forall acc n, str_mem "}"%char n = false -> claim_str claims (acc +:+ n) = None ->
              render_from (Some acc) claims (n +:+ String "}" rest) = None).
    { intros acc n. revert acc. induction n as [|c n IHn]; intros acc Hm Ha; cbn [String.append render_from].
      - rewrite app_nil_r_str in Ha. by rewrite Ha.
      - cbn [str_mem] in Hm. apply orb_false_iff in Hm as [Hd Hm]. rewrite Ascii.eqb_sym, Hd. apply IHn; [done|].
        by rewrite <- app_assoc_str. }
    by apply Hg.
  - cbn [str_mem] in Ht. apply orb_false_iff in Ht as [Hd Ht]. rewrite Ascii.eqb_sym, Hd. by rewrite (IH Ht).
Qed.

(** the audience of an accepted token is not among the claims of its
    identity, although it was verified: the audit log never shows it, and
    a principal template that uses it matches no token. *)
Theorem audience_claim_lost config token kid hdr k id :
  check_jwt config token kid hdr k = Ok id ->
  BTreeMap.get "aud" (id_claims id) = None /\
  forall t rest, str_mem "{"%char t = false -> ic_principal_format config <> PrincipalFormat_Custom (t +:+ "{aud}" +:+ rest).
Proof.
  intros (_ & _ & c & Hd & _ & Hp & _ & ->)%check_jwt_Ok. pose proof (jwt_claims_aud _ _ _ _ Hd) as Ha.
  split; [done|]. intros t rest Ht Hf. unfold resolve_principal in Hp. rewrite Hf in Hp.
  change ("{aud}" +:+ rest) with (String "{" ("aud" +:+ String "}" rest)) in Hp.
  rewrite render_needs in Hp; [done | unfold claim_str; by rewrite Ha | done | done].
Qed.

End jwt.
