(* ===== verification/Config.v ===== *)
(** * The configuration (rekt-config)

    lib.rs and auth.rs: the tables of the TOML file as parsed, and their
    resolution into the configuration the binary uses, with every
    validation.  The TOML parser and [SocketAddr::from_str] are arguments;
    a parsed number is in the range of its type. *)

From S2P Require Import Prelude RustStr.

Inductive ConfigError : Type :=
| ConfigError_Io (m : string)
| ConfigError_ParseToml (m : string)
| ConfigError_Validation (reason : string).

Definition invalid {A : Type} (reason : string) : Result ConfigError A := Err (ConfigError_Validation reason).
Definition guard (b : bool) (reason : string) : Result ConfigError unit := if b then invalid reason else Ok tt.

(** ** Resolved types *)

Inductive SocketAddr : Type :=
| SocketAddr_V4 (a b c d port : N)
| SocketAddr_V6 (segments : list N) (port : N).

(** [addr.ip().is_loopback()]. *)
Definition is_loopback (a : SocketAddr) : bool :=
  match a with
  | SocketAddr_V4 a _ _ _ _ => (a =? 127)%N
  | SocketAddr_V6 s _ => bool_decide (s = [0; 0; 0; 0; 0; 0; 0; 1]%N)
  end.

Record ServerConfig : Type := mkServerConfig {
  sv_listen_addr : SocketAddr;
  sv_database_url : string;
  sv_request_timeout_ms : N
}.

(** [None] is a cap that is switched off. *)
Record Limits : Type := mkLimits {
  lim_max_item_size_bytes : option N;
  lim_max_partition_key_bytes : option N;
  lim_max_sort_key_bytes : option N;
  lim_max_attribute_name_bytes : option N;
  lim_max_nesting_depth : option N
}.
Definition ddb_limits : Limits := mkLimits (Some 409600%N) (Some 2048%N) (Some 1024%N) (Some 65536%N) (Some 32%N).

Record ConfigBatchLimits : Type := mkConfigBatchLimits {
  cb_batch_get_max_keys : N;
  cb_batch_write_max_requests : N;
  cb_transact_get_max_items : N;
  cb_transact_write_max_items : N
}.
Definition ddb_batch_limits : ConfigBatchLimits := mkConfigBatchLimits 100 25 100 100.

Record CatalogConfig : Type := mkCatalogConfig {
  cc_reconcile_interval_ms : N;
  cc_invalidate_on_local_ddl : bool
}.
Definition default_catalog : CatalogConfig := mkCatalogConfig 30000 true.

Inductive RecyclingMethod : Type :=
| RecyclingMethod_Fast
| RecyclingMethod_Verified
| RecyclingMethod_Clean.

Record PgRetryConfig : Type := mkPgRetryConfig {
  rt_max_attempts : N;
  rt_initial_backoff_ms : N;
  rt_max_backoff_ms : N;
  rt_jitter_pct : N
}.
Definition default_retry : PgRetryConfig := mkPgRetryConfig 3 50 1000 25.

Record PgConfig : Type := mkPgConfig {
  pg_max_pool_size : N;
  pg_wait_timeout_ms : N;
  pg_create_timeout_ms : N;
  pg_recycle_timeout_ms : N;
  pg_recycling_method : RecyclingMethod;
  pg_retry : PgRetryConfig
}.
Definition default_pg : PgConfig := mkPgConfig 16 5000 5000 1000 RecyclingMethod_Fast default_retry.

Inductive MasterKey : Type :=
| MasterKey_Env (name : string)
| MasterKey_File (path : string)
| MasterKey_Kms (uri : string).

Record Sigv4Config : Type := mkSigv4Config {
  sg_enabled : bool;
  sg_clock_skew_secs : Z;
  sg_cache_ttl_secs : N;
  sg_negative_cache_ttl_secs : N
}.
Definition default_sigv4 : Sigv4Config := mkSigv4Config false 900 300 30.

Record ApiTokenConfig : Type := mkApiTokenConfig {
  at_enabled : bool;
  at_accept_test_tokens : bool;
  at_cache_ttl_secs : N;
  at_negative_cache_ttl_secs : N
}.
Definition default_api_token : ApiTokenConfig := mkApiTokenConfig false false 300 30.

Inductive PrincipalFormatEntry : Type :=
| PrincipalFormatEntry_Subject (prefix : string)
| PrincipalFormatEntry_Email (prefix : string)
| PrincipalFormatEntry_AzureObjectId (prefix : string)
| PrincipalFormatEntry_Custom (template : string).

Record JwtIssuerEntry : Type := mkJwtIssuerEntry {
  je_preset : string;
  je_tenant_id : option string;
  je_account : option string;
  je_workspace_url : option string;
  je_project_id : option string;
  je_region : option string;
  je_user_pool_id : option string;
  je_issuer : option string;
  je_jwks_url : option string;
  je_principal_format : option PrincipalFormatEntry;
  je_expected_audience : list string;
  je_safe_to_log_claims : option (list string);
  je_clock_skew_secs : option N;
  je_jwks_cache_ttl_secs : option N
}.

Record AuthConfig : Type := mkAuthConfig {
  au_master_key : option MasterKey;
  au_permissive_enabled : bool;
  au_sigv4 : Sigv4Config;
  au_api_token : ApiTokenConfig;
  au_jwt_issuers : list JwtIssuerEntry;
  au_audit_log_enabled : bool
}.

Record Config : Type := mkConfig {
  cf_server : ServerConfig;
  cf_limits : Limits;
  cf_batch_limits : ConfigBatchLimits;
  cf_pg : PgConfig;
  cf_catalog : CatalogConfig;
  cf_auth : AuthConfig
}.

(** ** Tables as parsed *)

Inductive LimitField : Type :=
| LimitField_Number (n : N)
| LimitField_Unlimited.

(** [de_u64_or_unlimited] and [de_u32_or_unlimited] on the value serde has
    read: a number, a text, or nothing. *)
Definition de_or_unlimited (v : option (N + string)) : string + option LimitField :=
  match v with
  | None => inr None
  | Some (inl n) => inr (Some (LimitField_Number n))
  | Some (inr s) =>
      if String.eqb s "unlimited" then inr (Some LimitField_Unlimited)
      else inl ("expected positive integer or the string " +:+ String (ascii_of_nat 34) "unlimited"
                +:+ String (ascii_of_nat 34) ", got " +:+ String (ascii_of_nat 34) s +:+ String (ascii_of_nat 34) "")
  end.

Record RawLimits : Type := mkRawLimits {
  rl_max_item_size_bytes : option LimitField;
  rl_max_partition_key_bytes : option LimitField;
  rl_max_sort_key_bytes : option LimitField;
  rl_max_attribute_name_bytes : option LimitField;
  rl_max_nesting_depth : option LimitField
}.
Record RawBatchLimits : Type := mkRawBatchLimits {
  rb_batch_get_max_keys : option N;
  rb_batch_write_max_requests : option N;
  rb_transact_get_max_items : option N;
  rb_transact_write_max_items : option N
}.
Record RawCatalog : Type := mkRawCatalog {
  rc_reconcile_interval_ms : option N;
  rc_invalidate_on_local_ddl : option bool
}.
Record RawPgRetry : Type := mkRawPgRetry {
  rr_max_attempts : option N;
  rr_initial_backoff_ms : option N;
  rr_max_backoff_ms : option N;
  rr_jitter_pct : option N
}.
Record RawPg : Type := mkRawPg {
  rp_max_pool_size : option N;
  rp_wait_timeout_ms : option N;
  rp_create_timeout_ms : option N;
  rp_recycle_timeout_ms : option N;
  rp_recycling_method : option string;
  rp_retry : option RawPgRetry
}.
Record RawServer : Type := mkRawServer {
  rs_listen_addr : string;
  rs_database_url : string;
  rs_request_timeout_ms : option N
}.
Record RawSigv4 : Type := mkRawSigv4 {
  rsg_enabled : option bool;
  rsg_clock_skew_secs : option Z;
  rsg_cache_ttl_secs : option N;
  rsg_negative_cache_ttl_secs : option N
}.
Record RawApiToken : Type := mkRawApiToken {
  rat_enabled : option bool;
  rat_accept_test_tokens : option bool;
  rat_cache_ttl_secs : option N;
  rat_negative_cache_ttl_secs : option N
}.
Inductive RawPrincipalFormat : Type :=
| RawPrincipalFormat_Shorthand (s : string)
| RawPrincipalFormat_Table (kind prefix custom : option string).
Record RawJwtIssuer : Type := mkRawJwtIssuer {
  ri_preset : string;
  ri_expected_audience : list string;
  ri_tenant_id : option string;
  ri_account : option string;
  ri_workspace_url : option string;
  ri_project_id : option string;
  ri_region : option string;
  ri_user_pool_id : option string;
  ri_issuer : option string;
  ri_jwks_url : option string;
  ri_principal_format : option RawPrincipalFormat;
  ri_safe_to_log_claims : option (list string);
  ri_clock_skew_secs : option N;
  ri_jwks_cache_ttl_secs : option N
}.
Record RawAuth : Type := mkRawAuth {
  ra_master_key_env : option string;
  ra_master_key_file : option string;
  ra_master_key_kms : option string;
  ra_audit_log_enabled : option bool;
  ra_permissive : option (option bool);
  ra_sigv4 : option RawSigv4;
  ra_api_token : option RawApiToken;
  ra_jwt : option (list RawJwtIssuer)
}.
Record RawConfig : Type := mkRawConfig {
  rcf_server : RawServer;
  rcf_limits : option RawLimits;
  rcf_batch_limits : option RawBatchLimits;
  rcf_pg : option RawPg;
  rcf_catalog : option RawCatalog;
  rcf_auth : option RawAuth
}.

(** ** auth.rs *)

Definition resolve_principal_format (raw : RawPrincipalFormat) (preset_name : string)
    : Result ConfigError PrincipalFormatEntry :=
  match raw with
  | RawPrincipalFormat_Shorthand s =>
      if String.eqb s "subject" then Ok (PrincipalFormatEntry_Subject "")
      else if String.eqb s "email" then Ok (PrincipalFormatEntry_Email "")
      else if String.eqb s "azure_oid" then Ok (PrincipalFormatEntry_AzureObjectId "")
      else invalid ("auth.jwt.issuer (preset=" +:+ preset_name +:+ "): principal_format shorthand `" +:+ s
                    +:+ "` not recognised (valid: subject / email / azure_oid)")
  | RawPrincipalFormat_Table kind prefix custom =>
      match custom with
      | Some custom => Ok (PrincipalFormatEntry_Custom custom)
      | None =>
          let? kind := ok_or kind (ConfigError_Validation ("auth.jwt.issuer (preset=" +:+ preset_name
                         +:+ "): principal_format table missing `kind` or `custom`")) in
          let prefix := default "" prefix in
          if String.eqb kind "subject" then Ok (PrincipalFormatEntry_Subject prefix)
          else if String.eqb kind "email" then Ok (PrincipalFormatEntry_Email prefix)
          else if String.eqb kind "azure_oid" then Ok (PrincipalFormatEntry_AzureObjectId prefix)
          else invalid ("auth.jwt.issuer (preset=" +:+ preset_name +:+ "): principal_format kind `" +:+ kind
                        +:+ "` not recognised")
      end
  end.

Definition known_presets : list string :=
  ["gcp"; "azure"; "snowflake"; "databricks"; "neon"; "aws-cognito"; "aws_cognito"; "generic"].

Definition is_none {A : Type} (o : option A) : bool := match o with None => true | Some _ => false end.

(** The fields each preset needs. *)
Definition required_fields (r : RawJwtIssuer) (preset : string) : Result ConfigError unit :=
  if String.eqb preset "azure" then
    guard (is_none (ri_tenant_id r)) "auth.jwt.issuer (preset=azure) requires tenant_id"
  else if String.eqb preset "snowflake" then
    guard (is_none (ri_account r)) "auth.jwt.issuer (preset=snowflake) requires account"
  else if String.eqb preset "databricks" then
    guard (is_none (ri_workspace_url r)) "auth.jwt.issuer (preset=databricks) requires workspace_url"
  else if String.eqb preset "neon" then
    guard (is_none (ri_project_id r) || is_none (ri_region r)) "auth.jwt.issuer (preset=neon) requires project_id and region"
  else if String.eqb preset "aws-cognito" || String.eqb preset "aws_cognito" then
    guard (is_none (ri_user_pool_id r) || is_none (ri_region r))
      "auth.jwt.issuer (preset=aws-cognito) requires user_pool_id and region"
  else if String.eqb preset "generic" then
    let? _ := guard (is_none (ri_issuer r) || is_none (ri_jwks_url r))
                "auth.jwt.issuer (preset=generic) requires issuer and jwks_url" in
    guard (is_none (ri_principal_format r)) "auth.jwt.issuer (preset=generic) requires principal_format"
  else Ok tt.

Definition resolve_jwt_issuer (r : RawJwtIssuer) : Result ConfigError JwtIssuerEntry :=
  let preset := str_lower (ri_preset r) in
  let? _ := guard (negb (existsb (String.eqb preset) known_presets))
              ("auth.jwt.issuer.preset `" +:+ preset +:+ "` not recognised (valid: gcp / azure / snowflake / databricks / neon / aws-cognito / generic)") in
  let? _ := guard (bool_decide (ri_expected_audience r = []))
              ("auth.jwt.issuer (preset=" +:+ preset +:+ ") expected_audience must not be empty") in
  let? _ := required_fields r preset in
  let? principal_format :=
    match ri_principal_format r with
    | None => Ok None
    | Some rpf => let? f := resolve_principal_format rpf preset in Ok (Some f)
    end in
  Ok (mkJwtIssuerEntry preset (ri_tenant_id r) (ri_account r) (ri_workspace_url r) (ri_project_id r) (ri_region r)
        (ri_user_pool_id r) (ri_issuer r) (ri_jwks_url r) principal_format (ri_expected_audience r)
        (ri_safe_to_log_claims r) (ri_clock_skew_secs r) (ri_jwks_cache_ttl_secs r)).

Definition resolve_sigv4 (raw : option RawSigv4) : Sigv4Config :=
  match raw with
  | None => default_sigv4
  | Some r =>
      mkSigv4Config (default (sg_enabled default_sigv4) (rsg_enabled r))
        (default (sg_clock_skew_secs default_sigv4) (rsg_clock_skew_secs r))
        (default (sg_cache_ttl_secs default_sigv4) (rsg_cache_ttl_secs r))
        (default (sg_negative_cache_ttl_secs default_sigv4) (rsg_negative_cache_ttl_secs r))
  end.

Definition resolve_api_token (raw : option RawApiToken) : ApiTokenConfig :=
  match raw with
  | None => default_api_token
  | Some r =>
      mkApiTokenConfig (default (at_enabled default_api_token) (rat_enabled r))
        (default (at_accept_test_tokens default_api_token) (rat_accept_test_tokens r))
        (default (at_cache_ttl_secs default_api_token) (rat_cache_ttl_secs r))
        (default (at_negative_cache_ttl_secs default_api_token) (rat_negative_cache_ttl_secs r))
  end.

Definition resolve_auth (raw : option RawAuth) : Result ConfigError AuthConfig :=
  let raw := default (mkRawAuth None None None None None None None None) raw in
  let? master_key :=
    match ra_master_key_env raw, ra_master_key_file raw, ra_master_key_kms raw with
    | None, None, None => Ok None
    | Some s, None, None => Ok (Some (MasterKey_Env s))
    | None, Some p, None => Ok (Some (MasterKey_File p))
    | None, None, Some s => Ok (Some (MasterKey_Kms s))
    | _, _, _ => invalid "auth: exactly one of master_key_env / master_key_file / master_key_kms may be set"
    end in
  let permissive := default false (default None (ra_permissive raw)) in
  let sigv4 := resolve_sigv4 (ra_sigv4 raw) in
  let api_token := resolve_api_token (ra_api_token raw) in
  let? issuers := match ra_jwt raw with None => Ok [] | Some issuer => collect resolve_jwt_issuer issuer end in
  let? _ := guard ((sg_enabled sigv4 || at_enabled api_token) && is_none master_key)
              "auth.sigv4 / auth.api_token are enabled but no auth.master_key_{env,file,kms} is set" in
  Ok (mkAuthConfig master_key permissive sigv4 api_token issuers (default false (ra_audit_log_enabled raw))).

(** ** lib.rs *)

Definition resolve_catalog (raw : option RawCatalog) : CatalogConfig :=
  match raw with
  | None => default_catalog
  | Some raw => mkCatalogConfig (default (cc_reconcile_interval_ms default_catalog) (rc_reconcile_interval_ms raw))
                  (default (cc_invalidate_on_local_ddl default_catalog) (rc_invalidate_on_local_ddl raw))
  end.

(** [if let Some(n) = field { if n == 0 { return Err } out = n }]. *)
Definition positive_or (base : N) (v : option N) (reason : string) : Result ConfigError N :=
  match v with
  | None => Ok base
  | Some n => if (n =? 0)%N then invalid reason else Ok n
  end.

Definition resolve_retry (rraw : RawPgRetry) : Result ConfigError PgRetryConfig :=
  let? attempts := positive_or (rt_max_attempts default_retry) (rr_max_attempts rraw)
                     "pg.retry.max_attempts must be > 0 (use 1 to disable retries)" in
  let initial := default (rt_initial_backoff_ms default_retry) (rr_initial_backoff_ms rraw) in
  let max := default (rt_max_backoff_ms default_retry) (rr_max_backoff_ms rraw) in
  let? jitter := match rr_jitter_pct rraw with
                 | None => Ok (rt_jitter_pct default_retry)
                 | Some n => if (100 <? n)%N then invalid "pg.retry.jitter_pct must be in 0..=100" else Ok n
                 end in
  let? _ := guard (max <? initial)%N "pg.retry.initial_backoff_ms must be <= max_backoff_ms" in
  Ok (mkPgRetryConfig attempts initial max jitter).

Definition resolve_pg (raw : option RawPg) : Result ConfigError PgConfig :=
  match raw with
  | None => Ok default_pg
  | Some raw =>
      let? pool := positive_or (pg_max_pool_size default_pg) (rp_max_pool_size raw) "pg.max_pool_size must be > 0" in
      let? wait := positive_or (pg_wait_timeout_ms default_pg) (rp_wait_timeout_ms raw) "pg.wait_timeout_ms must be > 0" in
      let? create := positive_or (pg_create_timeout_ms default_pg) (rp_create_timeout_ms raw) "pg.create_timeout_ms must be > 0" in
      let? recycle := positive_or (pg_recycle_timeout_ms default_pg) (rp_recycle_timeout_ms raw) "pg.recycle_timeout_ms must be > 0" in
      let? method :=
        match rp_recycling_method raw with
        | None => Ok (pg_recycling_method default_pg)
        | Some m =>
            if String.eqb m "fast" then Ok RecyclingMethod_Fast
            else if String.eqb m "verified" then Ok RecyclingMethod_Verified
            else if String.eqb m "clean" then Ok RecyclingMethod_Clean
            else invalid ("pg.recycling_method `" +:+ m +:+ "` is not one of fast | verified | clean")
        end in
      let? retry := match rp_retry raw with None => Ok default_retry | Some rraw => resolve_retry rraw end in
      Ok (mkPgConfig pool wait create recycle method retry)
  end.

(** [apply_u64] and [apply_u32]. *)
Definition apply_limit (base : option N) (o : option LimitField) : option N :=
  match o with
  | None => base
  | Some (LimitField_Number n) => Some n
  | Some LimitField_Unlimited => None
  end.

Definition merge_limits (base : Limits) (raw : option RawLimits) : Limits :=
  match raw with
  | None => base
  | Some raw =>
      mkLimits (apply_limit (lim_max_item_size_bytes base) (rl_max_item_size_bytes raw))
        (apply_limit (lim_max_partition_key_bytes base) (rl_max_partition_key_bytes raw))
        (apply_limit (lim_max_sort_key_bytes base) (rl_max_sort_key_bytes raw))
        (apply_limit (lim_max_attribute_name_bytes base) (rl_max_attribute_name_bytes raw))
        (apply_limit (lim_max_nesting_depth base) (rl_max_nesting_depth raw))
  end.

Definition resolve_batch_limits (raw : option RawBatchLimits) : Result ConfigError ConfigBatchLimits :=
  match raw with
  | None => Ok ddb_batch_limits
  | Some raw =>
      let? g := positive_or 100 (rb_batch_get_max_keys raw) "batch_limits.batch_get_max_keys must be > 0" in
      let? w := positive_or 25 (rb_batch_write_max_requests raw) "batch_limits.batch_write_max_requests must be > 0" in
      let? tg := positive_or 100 (rb_transact_get_max_items raw) "batch_limits.transact_get_max_items must be > 0" in
      let? tw := positive_or 100 (rb_transact_write_max_items raw) "batch_limits.transact_write_max_items must be > 0" in
      Ok (mkConfigBatchLimits g w tg tw)
  end.

Section resolve.
Variable parse_addr : string -> string + SocketAddr.
Variable parse_toml : string -> string + RawConfig.

Definition resolve (raw : RawConfig) : Result ConfigError Config :=
  let server := rcf_server raw in
  let? listen_addr :=
    match parse_addr (rs_listen_addr server) with
    | inr a => Ok a
    | inl e => invalid ("server.listen_addr `" +:+ rs_listen_addr server +:+ "` is not a valid socket address: " +:+ e)
    end in
  let? _ := guard (str_is_empty (rs_database_url server)) "server.database_url must not be empty" in
  let limits := merge_limits ddb_limits (rcf_limits raw) in
  let? batch_limits := resolve_batch_limits (rcf_batch_limits raw) in
  let? request_timeout_ms := positive_or 30000 (rs_request_timeout_ms server) "server.request_timeout_ms must be > 0" in
  let? pg := resolve_pg (rcf_pg raw) in
  let catalog := resolve_catalog (rcf_catalog raw) in
  let? auth := resolve_auth (rcf_auth raw) in
  Ok (mkConfig (mkServerConfig listen_addr (rs_database_url server) request_timeout_ms) limits batch_limits pg catalog auth).

Definition load_from_str (s : string) : Result ConfigError Config :=
  match parse_toml s with
  | inl e => Err (ConfigError_ParseToml e)
  | inr raw => resolve raw
  end.

(** [read] is what [read_to_string] returned. *)
Definition load_from_path (read : string + string) : Result ConfigError Config :=
  match read with
  | inl e => Err (ConfigError_Io e)
  | inr s => load_from_str s
  end.
End resolve.

(** ** What a resolved configuration guarantees *)

(** An issuer entry has an audience and the fields of its preset. *)
Definition issuer_ok (e : JwtIssuerEntry) : Prop :=
  je_expected_audience e <> [] /\ je_preset e ∈ known_presets /\
  (je_preset e = "azure" -> is_Some (je_tenant_id e)) /\
  (je_preset e = "snowflake" -> is_Some (je_account e)) /\
  (je_preset e = "databricks" -> is_Some (je_workspace_url e)) /\
  (je_preset e = "neon" -> is_Some (je_project_id e) /\ is_Some (je_region e)) /\
  (je_preset e = "aws-cognito" \/ je_preset e = "aws_cognito" -> is_Some (je_user_pool_id e) /\ is_Some (je_region e)) /\
  (je_preset e = "generic" -> is_Some (je_issuer e) /\ is_Some (je_jwks_url e) /\ is_Some (je_principal_format e)).

Definition auth_ok (a : AuthConfig) : Prop :=
  (sg_enabled (au_sigv4 a) || at_enabled (au_api_token a) = true -> au_master_key a <> None) /\
  Forall issuer_ok (au_jwt_issuers a).

Definition retry_ok (r : PgRetryConfig) : Prop :=
  (0 < rt_max_attempts r /\ rt_initial_backoff_ms r <= rt_max_backoff_ms r /\ rt_jitter_pct r <= 100)%N.
Definition pg_ok (p : PgConfig) : Prop :=
  (0 < pg_max_pool_size p /\ 0 < pg_wait_timeout_ms p /\ 0 < pg_create_timeout_ms p /\ 0 < pg_recycle_timeout_ms p)%N
  /\ retry_ok (pg_retry p).
Definition batch_ok (b : ConfigBatchLimits) : Prop :=
  (0 < cb_batch_get_max_keys b /\ 0 < cb_batch_write_max_requests b /\
   0 < cb_transact_get_max_items b /\ 0 < cb_transact_write_max_items b)%N.

Definition config_ok (c : Config) : Prop :=
  sv_database_url (cf_server c) <> "" /\ (0 < sv_request_timeout_ms (cf_server c))%N /\
  batch_ok (cf_batch_limits c) /\ pg_ok (cf_pg c) /\ auth_ok (cf_auth c).

(** A cap of the [limits] block: it is off exactly when the file says
    "unlimited", and it is zero exactly when the file says zero. *)
Definition limit_ok (written : option LimitField) (l : option N) : Prop :=
  (l = None <-> written = Some LimitField_Unlimited) /\ (l = Some 0%N <-> written = Some (LimitField_Number 0)).
Definition limits_ok (raw : option RawLimits) (l : Limits) : Prop :=
  limit_ok (raw ≫= rl_max_item_size_bytes) (lim_max_item_size_bytes l) /\
  limit_ok (raw ≫= rl_max_partition_key_bytes) (lim_max_partition_key_bytes l) /\
  limit_ok (raw ≫= rl_max_sort_key_bytes) (lim_max_sort_key_bytes l) /\
  limit_ok (raw ≫= rl_max_attribute_name_bytes) (lim_max_attribute_name_bytes l) /\
  limit_ok (raw ≫= rl_max_nesting_depth) (lim_max_nesting_depth l).

Lemma apply_limit_ok n w : (n <> 0)%N -> limit_ok w (apply_limit (Some n) w).
Proof. intros Hn. unfold limit_ok. destruct w as [[m|]|]; simpl; split; split; congruence. Qed.

Lemma merge_limits_ok raw : limits_ok raw (merge_limits ddb_limits raw).
Proof. destruct raw as [r|]; unfold limits_ok; simpl; split_and!; by apply apply_limit_ok || split. Qed.

Lemma guard_Ok b reason u : guard b reason = Ok u <-> b = false.
Proof. destruct b, u; simpl; naive_solver. Qed.

Lemma is_none_Some {A} (o : option A) : is_none o = false <-> is_Some o.
Proof. destruct o; simpl; split; try done; by intros [? [=]] || eauto. Qed.

Lemma positive_or_Ok base v reason n : (0 < base)%N -> positive_or base v reason = Ok n -> (0 < n)%N.
Proof. intros Hb. destruct v as [m|]; simpl; [|by intros [= <-]]. destruct (N.eqb_spec m 0); [done|]. intros [= <-]. lia. Qed.

Lemma required_fields_Ok r preset f aud safe skew jttl :
  required_fields r preset = Ok tt -> aud <> [] -> preset ∈ known_presets ->
  (is_Some (ri_principal_format r) -> is_Some f) ->
  issuer_ok (mkJwtIssuerEntry preset (ri_tenant_id r) (ri_account r) (ri_workspace_url r) (ri_project_id r) (ri_region r)
        (ri_user_pool_id r) (ri_issuer r) (ri_jwks_url r) f aud safe skew jttl).
Proof.
  intros Hr Ha Hp Hf. unfold issuer_ok; simpl. split; [done|]. split; [done|].
  unfold required_fields in Hr.
  split_and!; intros Hpre;
    first [destruct Hpre as [Hpre|Hpre]; subst preset | subst preset]; cbn in Hr;
    match type of Hr with
    | guard _ _ = _ => apply guard_Ok in Hr
    | _ => let E := fresh "E" in destruct (guard _ _) as [[]| |] eqn:E in Hr; [|done|done];
           apply guard_Ok in E; apply guard_Ok in Hr; rewrite ?orb_false_iff, ?is_none_Some in E
    end;
    rewrite ?orb_false_iff, ?is_none_Some in Hr; naive_solver.
Qed.

Lemma resolve_jwt_issuer_ok r e : resolve_jwt_issuer r = Ok e -> issuer_ok e.
Proof.
  unfold resolve_jwt_issuer. intros E.
  destruct (guard (negb _) _) as [[]| |] eqn:E1; [|done|done]. apply guard_Ok, negb_false_iff in E1.
  destruct (guard (bool_decide _) _) as [[]| |] eqn:E2; [|done|done]. apply guard_Ok, bool_decide_eq_false in E2.
  destruct (required_fields _ _) as [[]| |] eqn:E3; [|done|done].
  apply existsb_exists in E1 as (p & Hin & Hp%String.eqb_eq).
  destruct (ri_principal_format r) as [rpf|] eqn:E4.
  - destruct (resolve_principal_format rpf _) as [f| |]; [|done|done]. injection E as <-.
    apply required_fields_Ok; try done. rewrite Hp. by apply list_elem_of_In.
  - injection E as <-. apply required_fields_Ok; try done; [rewrite Hp; by apply list_elem_of_In | by rewrite E4].
Qed.

Lemma resolve_auth_ok raw a : resolve_auth raw = Ok a -> auth_ok a.
Proof.
  unfold resolve_auth. cbn zeta. set (raw' := default _ raw). intros E.
  destruct (match ra_master_key_env raw' with Some _ => _ | None => _ end) as [mk| |]; [|done|done].
  destruct (match ra_jwt raw' with Some _ => _ | None => _ end) as [issuers| |] eqn:Ej; [|done|done].
  destruct (guard _ _) as [[]| |] eqn:Eg; [|done|done]. injection E as <-. apply guard_Ok in Eg.
  split; cbn [au_sigv4 au_api_token au_master_key au_jwt_issuers].
  - intros Hs ->. rewrite Hs in Eg. done.
  - destruct (ra_jwt raw') as [l|]; [|injection Ej as <-; constructor].
    apply collect_Ok_iff in Ej. induction Ej as [|r e l es He _ IH]; constructor; [by eapply resolve_jwt_issuer_ok | done].
Qed.

Lemma resolve_pg_ok raw p : resolve_pg raw = Ok p -> pg_ok p.
Proof.
  destruct raw as [raw|]; simpl; [|intros [= <-]; by vm_compute].
  repeat match goal with
  | |- context [positive_or ?b ?v ?m] => let E := fresh "E" in destruct (positive_or b v m) as [?| |] eqn:E; [|done|done];
                                          apply positive_or_Ok in E; [|done]
  end.
  destruct (match rp_recycling_method raw with Some _ => _ | None => _ end) as [m| |]; [|done|done].
  destruct (rp_retry raw) as [rr|].
  - destruct (resolve_retry rr) as [rt| |] eqn:Er; [|done|done]. intros [= <-]. split; [done|]. simpl.
    unfold resolve_retry in Er. destruct (positive_or _ _ _) as [at_| |] eqn:Ea; [|done|done].
    apply positive_or_Ok in Ea; [|done]. cbn zeta in Er.
    destruct (match rr_jitter_pct rr with Some _ => _ | None => _ end) as [j| |] eqn:Ejj; [|done|done].
    destruct (guard _ _) as [[]| |] eqn:Eg; [|done|done]. injection Er as <-. apply guard_Ok, N.ltb_ge in Eg.
    split_and!; simpl; [done|done|].
    destruct (rr_jitter_pct rr) as [n|]; [|injection Ejj as <-; by vm_compute].
    destruct (N.ltb_spec 100 n); [done|]. by injection Ejj as <-.
  - intros [= <-]. split; [done | by vm_compute].
Qed.

Lemma resolve_batch_ok raw b : resolve_batch_limits raw = Ok b -> batch_ok b.
Proof.
  destruct raw as [raw|]; simpl; [|intros [= <-]; by vm_compute].
  repeat match goal with
  | |- context [positive_or ?b ?v ?m] => let E := fresh "E" in destruct (positive_or b v m) as [?| |] eqn:E; [|done|done];
                                          apply positive_or_Ok in E; [|done]
  end.
  by intros [= <-].
Qed.

(** Every step of the resolution fails with an error or succeeds. *)
Lemma positive_or_no_panic base v reason : positive_or base v reason <> Panic.
Proof. unfold positive_or. by repeat case_match. Qed.
Lemma guard_no_panic b reason : guard b reason <> Panic.
Proof. by destruct b. Qed.

Ltac positive_steps :=
  repeat match goal with
  | |- context [positive_or ?b ?v ?m] =>
      let E := fresh "E" in destruct (positive_or b v m) as [?| |] eqn:E; [|done|by apply positive_or_no_panic in E]
  end.

Lemma resolve_batch_limits_no_panic raw : resolve_batch_limits raw <> Panic.
Proof. destruct raw as [raw|]; [|done]. unfold resolve_batch_limits. by positive_steps. Qed.

Lemma resolve_retry_no_panic raw : resolve_retry raw <> Panic.
Proof.
  unfold resolve_retry. positive_steps. cbn zeta.
  destruct (match rr_jitter_pct raw with Some _ => _ | None => _ end) eqn:Ej; [|done|].
  - destruct (guard _ _) eqn:Eg; [done|done|by apply guard_no_panic in Eg].
  - destruct (rr_jitter_pct raw) as [n|]; [|done]. by destruct (100 <? n)%N.
Qed.

Lemma resolve_pg_no_panic raw : resolve_pg raw <> Panic.
Proof.
  destruct raw as [raw|]; [|done]. unfold resolve_pg. positive_steps.
  destruct (match rp_recycling_method raw with Some _ => _ | None => _ end) eqn:Em; [|done|].
  - destruct (rp_retry raw) as [rr|]; [|done]. pose proof (resolve_retry_no_panic rr). by destruct (resolve_retry rr).
  - destruct (rp_recycling_method raw) as [m|]; [|done]. exfalso. revert Em. unfold invalid. by repeat case_match.
Qed.

Lemma resolve_principal_format_no_panic raw preset : resolve_principal_format raw preset <> Panic.
Proof. unfold resolve_principal_format, invalid. destruct raw as [s|kind prefix custom]; [by repeat case_match|].
  destruct custom; [done|]. destruct kind; [|done]. simpl. by repeat case_match. Qed.

Lemma resolve_jwt_issuer_no_panic r : resolve_jwt_issuer r <> Panic.
Proof.
  unfold resolve_jwt_issuer.
  destruct (guard (negb _) _) eqn:E1; [|done|by apply guard_no_panic in E1].
  destruct (guard (bool_decide _) _) eqn:E2; [|done|by apply guard_no_panic in E2].
  destruct (required_fields r _) eqn:E3; [| done |].
  - destruct (ri_principal_format r) as [f|]; [|done].
    pose proof (resolve_principal_format_no_panic f (str_lower (ri_preset r))).
    by destruct (resolve_principal_format f _).
  - exfalso. revert E3. unfold required_fields, guard, invalid. by repeat case_match.
Qed.

Lemma resolve_auth_no_panic raw : resolve_auth raw <> Panic.
Proof.
  unfold resolve_auth. cbn zeta. set (raw' := default _ raw).
  destruct (match ra_master_key_env raw' with Some _ => _ | None => _ end) as [mk| |] eqn:Em; [|done|by repeat case_match].
  destruct (match ra_jwt raw' with Some _ => _ | None => _ end) as [iss| |] eqn:Ej; [|done|].
  - destruct (guard _ _) eqn:Eg; [done|done|by apply guard_no_panic in Eg].
  - destruct (ra_jwt raw'); [|done]. by apply collect_no_panic in Ej; [|intros; apply resolve_jwt_issuer_no_panic].
Qed.

Lemma resolve_no_panic parse_addr raw : resolve parse_addr raw <> Panic.
Proof.
  unfold resolve. cbn zeta. destruct (parse_addr _); [done|].
  destruct (guard _ _) eqn:E0; [|done|by apply guard_no_panic in E0].
  destruct (resolve_batch_limits _) eqn:E1; [|done|by apply resolve_batch_limits_no_panic in E1].
  destruct (positive_or _ _ _) eqn:E2; [|done|by apply positive_or_no_panic in E2].
  destruct (resolve_pg _) eqn:E3; [|done|by apply resolve_pg_no_panic in E3].
  pose proof (resolve_auth_no_panic (rcf_auth raw)). by destruct (resolve_auth (rcf_auth raw)).
Qed.

Lemma resolve_limits parse_addr raw c : resolve parse_addr raw = Ok c -> limits_ok (rcf_limits raw) (cf_limits c).
Proof.
  unfold resolve. cbn zeta. destruct (parse_addr _); [done|].
  destruct (guard _ _); [|done|done]. destruct (resolve_batch_limits _); [|done|done].
  destruct (positive_or _ _ _); [|done|done]. destruct (resolve_pg _); [|done|done].
  destruct (resolve_auth _); [|done|done]. intros [= <-]. apply merge_limits_ok.
Qed.

Lemma resolve_ok parse_addr raw c : resolve parse_addr raw = Ok c -> config_ok c.
Proof.
  unfold resolve. cbn zeta. destruct (parse_addr _); [done|].
  destruct (guard _ _) eqn:E0; [|done|done]. apply guard_Ok in E0.
  destruct (resolve_batch_limits _) eqn:E1; [|done|done].
  destruct (positive_or _ _ _) eqn:E2; [|done|done].
  destruct (resolve_pg _) eqn:E3; [|done|done].
  destruct (resolve_auth _) eqn:E4; [|done|done]. intros [= <-].
  unfold config_ok; simpl. split_and!.
  - by destruct (rs_database_url (rcf_server raw)).
  - eapply positive_or_Ok; [|exact E2]; lia.
  - by eapply resolve_batch_ok.
  - by eapply resolve_pg_ok.
  - by eapply resolve_auth_ok.
Qed.

(** C21: a configuration that loads has a database URL, positive time-outs,
    pool sizes and batch caps, a retry policy with at least one attempt,
    ordered backoffs and a jitter of at most 100 percent, a master-key
    source when SigV4 or API tokens are on, and for each issuer an
    audience and the fields of its preset; loading never panics.  The caps
    of the [limits] block are not checked: each is off exactly when the
    file says so, and zero, which the comment on the field rules out,
    exactly when the file says zero. *)
Theorem loaded_config_valid parse_addr parse_toml read :
  load_from_path parse_addr parse_toml read <> Panic /\
  forall c, load_from_path parse_addr parse_toml read = Ok c ->
    config_ok c /\ exists text raw, read = inr text /\ parse_toml text = inr raw /\ limits_ok (rcf_limits raw) (cf_limits c).
Proof.
  split.
  - destruct read as [e|text]; [done|]. unfold load_from_path, load_from_str.
    destruct (parse_toml text) as [e|raw]; [done|]. apply resolve_no_panic.
  - intros c. destruct read as [e|text]; [done|]. unfold load_from_path, load_from_str.
    destruct (parse_toml text) as [e|raw] eqn:Et; [done|]. intros Hr. split; [by eapply resolve_ok|].
    exists text, raw. split_and!; [done|done|by eapply resolve_limits].
Qed.
