(* ===== verification/AuthWiring.v ===== *)
(** * Building the chain at start-up

    rekt-auth/src/master_key.rs and [parse_master_key] of crypto.rs, the
    wiring of the verifiers (rektifier/src/auth_wiring.rs) and the two
    conversions of main.rs, with the theorems that link them to the
    configuration: a configuration that loads is wired without a panic,
    and what guards the verifier that accepts anyone.

    The environment, the file system, the hex and base64 decoders, the
    PostgreSQL statements that create the tables and the JWKS endpoints
    are arguments. *)

From S2P Require Import Prelude RustStr ApiError Retry Server AuthCache Auth SigV4 ApiToken.
From S2P Require Import Jwt Config.

(** ** crypto.rs and master_key.rs *)

(** [hex::decode] and the three base64 engines. *)
Class KeyDecoders : Type := {
  hex_decode : string -> option (list Byte.byte);
  b64_standard : string -> option (list Byte.byte);
  b64_url_safe : string -> option (list Byte.byte);
  b64_url_safe_no_pad : string -> option (list Byte.byte)
}.

Inductive MasterKeyError : Type :=
| MasterKeyError_EnvMissing (name : string)
| MasterKeyError_EnvInvalid (name : string) (e : CryptoError)
| MasterKeyError_FileRead (path : string) (e : string)
| MasterKeyError_FileInvalid (path : string) (e : CryptoError)
| MasterKeyError_NotConfigured.

Inductive MasterKeySource : Type :=
| MasterKeySource_Env (name : string)
| MasterKeySource_File (path : string).

(** What the process finds around it: [std::env::var] (a value that is
    not Unicode counts as missing) and [std::fs::read]. *)
Record Environment : Type := mkEnvironment {
  env_var : string -> option string;
  read_file : string -> string + list Byte.byte
}.

Section wiring.
Context {KD : KeyDecoders}.

(** A decoded key counts when it has 32 bytes. *)
Definition of_32 (decoded : option (list Byte.byte)) : option (list Byte.byte) :=
  match decoded with
  | Some k => if Nat.eqb (length k) 32 then Some k else None
  | None => None
  end.

Definition parse_master_key (s : string) : CryptoError + list Byte.byte :=
  let trimmed := trim s in
  match (if Nat.eqb (String.length trimmed) 64 then of_32 (hex_decode trimmed) else None) with
  | Some k => inr k
  | None =>
      match of_32 (b64_standard trimmed) with
      | Some k => inr k
      | None =>
          match of_32 (b64_url_safe trimmed) with
          | Some k => inr k
          | None =>
              match of_32 (b64_url_safe_no_pad trimmed) with
              | Some k => inr k
              | None => inl (CryptoError_InvalidKeyLen (String.length trimmed))
              end
          end
      end
  end.

Definition load (env : Environment) (source : MasterKeySource) : MasterKeyError + list Byte.byte :=
  match source with
  | MasterKeySource_Env name =>
      match env_var env name with
      | None => inl (MasterKeyError_EnvMissing name)
      | Some raw =>
          match parse_master_key raw with
          | inr k => inr k
          | inl e => inl (MasterKeyError_EnvInvalid name e)
          end
      end
  | MasterKeySource_File path =>
      match read_file env path with
      | inl e => inl (MasterKeyError_FileRead path e)
      | inr contents =>
          if Nat.eqb (length contents) 32 then inr contents
          else match from_utf8 contents with
               | None => inl (MasterKeyError_FileInvalid path (CryptoError_InvalidKeyLen (length contents)))
               | Some as_text =>
                   match parse_master_key as_text with
                   | inr k => inr k
                   | inl e => inl (MasterKeyError_FileInvalid path e)
                   end
               end
      end
  end.

(** ** auth_wiring.rs *)

(** Why the process refuses to start. *)
Inductive BootError : Type :=
| BootError_NotLoopback
| BootError_BadSentinel (value : string)
| BootError_NoSentinel
| BootError_NoMasterKey
| BootError_Kms (uri : string)
| BootError_MasterKey (e : MasterKeyError)
| BootError_Tables (m : string)
| BootError_UnknownPreset (preset : string)
| BootError_EmptyAudience
| BootError_Issuer (preset : string) (e : IssuerConfigError)
| BootError_WarmUp (e : AuthError)
| BootError_NoVerifier.

Definition SENTINEL : string := "I_UNDERSTAND_THIS_IS_UNSAFE".

Definition enforce_dev_mode_guardrails (env : Environment) (listen_addr : SocketAddr)
    (permissive_only unsafe_modes_active : bool) : Result BootError unit :=
  if permissive_only && negb (is_loopback listen_addr) then Err BootError_NotLoopback
  else if unsafe_modes_active then
    match env_var env "REKTIFIER_ALLOW_UNSAFE_AUTH" with
    | Some v => if String.eqb v SENTINEL then Ok tt else Err (BootError_BadSentinel v)
    | None => Err BootError_NoSentinel
    end
  else Ok tt.

Definition resolve_master_key (env : Environment) (src : MasterKey) : Result BootError (list Byte.byte) :=
  let loaded source := match load env source with inr k => Ok k | inl e => Err (BootError_MasterKey e) end in
  match src with
  | MasterKey_Env name => loaded (MasterKeySource_Env name)
  | MasterKey_File p => loaded (MasterKeySource_File p)
  | MasterKey_Kms uri => Err (BootError_Kms uri)
  end.

Definition first_audience (entry : JwtIssuerEntry) : Result BootError string :=
  ok_or (head (je_expected_audience entry)) BootError_EmptyAudience.

Definition convert_principal_format (fmt : PrincipalFormatEntry) : PrincipalFormat :=
  match fmt with
  | PrincipalFormatEntry_Subject prefix => PrincipalFormat_Subject prefix
  | PrincipalFormatEntry_Email prefix => PrincipalFormat_Email prefix
  | PrincipalFormatEntry_AzureObjectId prefix => PrincipalFormat_AzureObjectId prefix
  | PrincipalFormatEntry_Custom template => PrincipalFormat_Custom template
  end.

Definition inflate_preset (entry : JwtIssuerEntry) (audience : string) : Result BootError JwtIssuerConfig :=
  let preset := je_preset entry in
  if String.eqb preset "gcp" then Ok (gcp audience)
  else if String.eqb preset "azure" then
    let? tenant := expect (je_tenant_id entry) in Ok (azure tenant audience)
  else if String.eqb preset "snowflake" then
    let? account := expect (je_account entry) in Ok (snowflake account audience)
  else if String.eqb preset "databricks" then
    let? url := expect (je_workspace_url entry) in Ok (databricks url audience)
  else if String.eqb preset "neon" then
    let? project := expect (je_project_id entry) in
    let? region := expect (je_region entry) in
    Ok (neon project region audience)
  else if String.eqb preset "aws-cognito" || String.eqb preset "aws_cognito" then
    let? pool := expect (je_user_pool_id entry) in
    let? region := expect (je_region entry) in
    Ok (aws_cognito pool region audience)
  else if String.eqb preset "generic" then
    let? issuer := expect (je_issuer entry) in
    let? url := expect (je_jwks_url entry) in
    let? fmt := expect (je_principal_format entry) in
    Ok (generic issuer url audience (convert_principal_format fmt))
  else Err (BootError_UnknownPreset preset).

(** The preset with the operator's overrides. *)
Definition inflate_issuer (entry : JwtIssuerEntry) : Result BootError JwtIssuerConfig :=
  let? audience := first_audience entry in
  let? cfg := inflate_preset entry audience in
  Ok (mkJwtIssuerConfig (ic_issuer cfg) (ic_jwks_url cfg) (je_expected_audience entry) (ic_allowed_algs cfg)
        (default (ic_clock_skew cfg) (je_clock_skew_secs entry))
        (default (ic_jwks_cache_ttl cfg) (je_jwks_cache_ttl_secs entry))
        (match je_principal_format entry with
         | Some fmt => if negb (String.eqb (je_preset entry) "generic") then convert_principal_format fmt
                       else ic_principal_format cfg
         | None => ic_principal_format cfg
         end)
        (default (ic_safe_to_log_claims cfg) (je_safe_to_log_claims entry))).

(** ** The verifiers and what they share *)

Context {SH : Sha256} {HX : Hex} {PE : PercentEncoding} {HN : HeaderNames} {CH : Chrono} {CI : Ciphers} {JL : JwtLib}.

(** The clocks and the answers of the stores, as a request meets them. *)
Record Surroundings : Type := mkSurroundings {
  su_utc : Z;
  su_lookup : N;
  su_reply : N;
  su_wall_ms : Z;
  su_credentials : string -> StoreError + option StoredCredential;
  su_tokens : list Byte.byte -> TokenStoreError + option StoredToken;
  su_fetch : string -> Fetched
}.

Record AuthState : Type := mkAuthState {
  as_secrets : SecretCache;
  as_tokens : TokenCache;
  as_issuers : JwtVerifier;
  as_around : Surroundings
}.

(** [Sigv4Verifier], with the key [new] derives. *)
Definition sigv4_verifier (master_key : list Byte.byte) (clock_skew_secs : Z) : Verifier AuthState := fun parts body st =>
  let su := as_around st in
  let aes_key := derive_subkey master_key SIGV4_AES_PURPOSE in
  let '(r, c) := sigv4_verify (su_utc su) clock_skew_secs (su_lookup su) (su_reply su)
                   (fun akid => fetch_credential_row aes_key akid (su_credentials su akid)) parts body (as_secrets st) in
  (r, mkAuthState c (as_tokens st) (as_issuers st) su).

Definition token_verifier (v : ApiTokenVerifier) : Verifier AuthState := fun parts body st =>
  let su := as_around st in
  let '(r, c) := api_token_verify v (su_lookup su) (su_reply su) (su_wall_ms su)
                   (fun h => fetch_token_row (su_tokens su h)) parts body (as_tokens st) in
  (r, mkAuthState (as_secrets st) c (as_issuers st) su).

Definition jwt_verifier : Verifier AuthState := fun parts body st =>
  let su := as_around st in
  let '(r, v) := jwt_verify (su_lookup su) (su_fetch su) parts body (as_issuers st) in
  (r, mkAuthState (as_secrets st) (as_tokens st) v su).

(** [tables] is what the CREATE TABLE of a store answered. *)
Definition ensure_table (tables : option string) : Result BootError unit :=
  match tables with None => Ok tt | Some m => Err (BootError_Tables m) end.

Definition secs (n : N) : N := (n * 1000000000)%N.

Definition build_sigv4 (created : option string) (master_key : list Byte.byte) (cfg : Sigv4Config)
    : Result BootError (Verifier AuthState * SecretCache) :=
  let? _ := ensure_table created in
  Ok (sigv4_verifier master_key (sg_clock_skew_secs cfg),
      cache_new (secs (sg_cache_ttl_secs cfg)) (secs (sg_negative_cache_ttl_secs cfg))).

Definition build_api_token (created : option string) (master_key : list Byte.byte) (cfg : ApiTokenConfig)
    : Result BootError (Verifier AuthState * TokenCache) :=
  let? _ := ensure_table created in
  let pepper := pepper_from_master master_key in
  Ok (token_verifier (with_test_tokens_enabled (at_accept_test_tokens cfg) (api_token_new pepper)),
      cache_new (secs (at_cache_ttl_secs cfg)) (secs (at_negative_cache_ttl_secs cfg))).

Definition add_entry (built : bool) (v : JwtVerifier) (entry : JwtIssuerEntry) : Result BootError JwtVerifier :=
  let? cfg := inflate_issuer entry in
  map_err (BootError_Issuer (je_preset entry)) (add_issuer built cfg v).

(** [built] as for [jwks_new]; [now], [fetch] and [order] as for
    [warm_up]. *)
Definition build_jwt (built : bool) (now : N) (fetch : string -> Fetched) (order : JwtVerifier -> list string)
    (entries : list JwtIssuerEntry) : Result BootError JwtVerifier :=
  let? v := fold_result (add_entry built) ∅ entries in
  match warm_up now fetch (order v) v with
  | (Ok _, v) => Ok v
  | (Err e, _) => Err (BootError_WarmUp e)
  | (Panic, _) => Panic
  end.

Record BuiltAuth : Type := mkBuiltAuth {
  ba_chain : AuthChain AuthState;
  ba_state : Surroundings -> AuthState;
  ba_audit_enabled : bool
}.

Record BootWorld : Type := mkBootWorld {
  bw_env : Environment;
  bw_credentials_table : option string;
  bw_tokens_table : option string;
  bw_http_client : bool;
  bw_now : N;
  bw_fetch : string -> Fetched;
  bw_order : JwtVerifier -> list string
}.

Definition strict_enabled (cfg : AuthConfig) : bool :=
  sg_enabled (au_sigv4 cfg) || at_enabled (au_api_token cfg) || negb (bool_decide (au_jwt_issuers cfg = [])).

Definition build_auth (w : BootWorld) (listen_addr : SocketAddr) (cfg : AuthConfig) : Result BootError BuiltAuth :=
  let permissive_only := au_permissive_enabled cfg && negb (strict_enabled cfg) in
  let? _ := enforce_dev_mode_guardrails (bw_env w) listen_addr permissive_only (au_permissive_enabled cfg) in
  let? master_key :=
    match au_master_key cfg, sg_enabled (au_sigv4 cfg) || at_enabled (au_api_token cfg) with
    | Some src, _ => let? k := resolve_master_key (bw_env w) src in Ok (Some k)
    | None, false => Ok None
    | None, true => Err BootError_NoMasterKey
    end in
  let? sig :=
    if sg_enabled (au_sigv4 cfg) then
      let? mk := expect master_key in
      let? b := build_sigv4 (bw_credentials_table w) mk (au_sigv4 cfg) in Ok (Some b)
    else Ok None in
  let? api :=
    if at_enabled (au_api_token cfg) then
      let? mk := expect master_key in
      let? b := build_api_token (bw_tokens_table w) mk (au_api_token cfg) in Ok (Some b)
    else Ok None in
  let? jwt :=
    if negb (bool_decide (au_jwt_issuers cfg = [])) then
      let? v := build_jwt (bw_http_client w) (bw_now w) (bw_fetch w) (bw_order w) (au_jwt_issuers cfg) in Ok (Some v)
    else Ok None in
  let chain := chain_empty in
  let chain := match sig with Some (v, _) => with_sigv4 v chain | None => chain end in
  let chain := match api with Some (v, _) => with_api_token v chain | None => chain end in
  let chain := match jwt with Some _ => with_jwt jwt_verifier chain | None => chain end in
  let chain := if au_permissive_enabled cfg then with_permissive permissive_verify chain else chain in
  match ch_sigv4 chain, ch_jwt chain, ch_api_token chain, ch_permissive chain with
  | None, None, None, None => Err BootError_NoVerifier
  | _, _, _, _ =>
      Ok (mkBuiltAuth chain
            (fun su => mkAuthState (match sig with Some (_, c) => c | None => cache_new 0 0 end)
                         (match api with Some (_, c) => c | None => cache_new 0 0 end)
                         (default ∅ jwt) su)
            (au_audit_log_enabled cfg))
  end.
End wiring.

(** ** main.rs *)

Definition rek_batch_limits (config : Config) : BatchLimits :=
  let b := cf_batch_limits config in
  mkBatchLimits (cb_batch_get_max_keys b) (cb_batch_write_max_requests b)
    (cb_transact_get_max_items b) (cb_transact_write_max_items b).

Definition rek_retry_policy (config : Config) : RetryPolicy :=
  let r := pg_retry (cf_pg config) in
  mkRetryPolicy (rt_max_attempts r) (from_millis (rt_initial_backoff_ms r)) (from_millis (rt_max_backoff_ms r)) (rt_jitter_pct r).

(** ** What holds of the chain *)

Section boot.
Context {KD : KeyDecoders}.

(** *** Keys *)

Lemma of_32_length o k : of_32 o = Some k -> length k = 32.
Proof. destruct o as [l|]; simpl; [|done]. destruct (Nat.eqb_spec (length l) 32); [|done]. by intros [= <-]. Qed.

Lemma parse_master_key_length s k : parse_master_key s = inr k -> length k = 32.
Proof.
  unfold parse_master_key. cbn zeta.
  destruct (if Nat.eqb (String.length (trim s)) 64 then _ else _) eqn:E1.
  - intros [= <-]. destruct (Nat.eqb _ 64); [|done]. by eapply of_32_length.
  - destruct (of_32 (b64_standard _)) eqn:E2; [intros [= <-]; by eapply of_32_length|].
    destruct (of_32 (b64_url_safe _)) eqn:E3; [intros [= <-]; by eapply of_32_length|].
    destruct (of_32 (b64_url_safe_no_pad _)) eqn:E4; [intros [= <-]; by eapply of_32_length | done].
Qed.

(** Whatever its source, a master key has 32 bytes. *)
Lemma load_length env src k : load env src = inr k -> length k = 32.
Proof.
  destruct src as [name|path]; simpl.
  - destruct (env_var env name) as [raw|]; [|done]. destruct (parse_master_key raw) eqn:E; [done|].
    intros [= <-]. by eapply parse_master_key_length.
  - destruct (read_file env path) as [e|c]; [done|]. destruct (Nat.eqb_spec (length c) 32); [by intros [= <-]|].
    destruct (from_utf8 c) as [t|]; [|done]. destruct (parse_master_key t) eqn:E; [done|].
    intros [= <-]. by eapply parse_master_key_length.
Qed.

(** *** No panic *)

Context {SH : Sha256} {HX : Hex} {PE : PercentEncoding} {HN : HeaderNames} {CH : Chrono} {CI : Ciphers} {JL : JwtLib}.

Lemma inflate_preset_no_panic e a : issuer_ok e -> inflate_preset e a <> Panic.
Proof.
  intros (_ & _ & Haz & Hsn & Hdb & Hne & Hco & Hge). unfold inflate_preset. cbn zeta.
  destruct (String.eqb (je_preset e) "gcp"); [done|].
  destruct (String.eqb_spec (je_preset e) "azure") as [E|_]; [by destruct (Haz E) as [? ->]|].
  destruct (String.eqb_spec (je_preset e) "snowflake") as [E|_]; [by destruct (Hsn E) as [? ->]|].
  destruct (String.eqb_spec (je_preset e) "databricks") as [E|_]; [by destruct (Hdb E) as [? ->]|].
  destruct (String.eqb_spec (je_preset e) "neon") as [E|_]; [by destruct (Hne E) as [[? ->] [? ->]]|].
  destruct (String.eqb_spec (je_preset e) "aws-cognito") as [E|_]; [by destruct (Hco (or_introl E)) as [[? ->] [? ->]]|].
  destruct (String.eqb_spec (je_preset e) "aws_cognito") as [E|_]; [by destruct (Hco (or_intror E)) as [[? ->] [? ->]]|].
  destruct (String.eqb_spec (je_preset e) "generic") as [E|_]; [by destruct (Hge E) as ([? ->] & [? ->] & [? ->]) | done].
Qed.

Lemma add_issuer_no_panic c v : add_issuer true c v <> Panic.
Proof. unfold add_issuer. by destruct (validate c). Qed.

Lemma add_entry_no_panic v e : issuer_ok e -> add_entry true v e <> Panic.
Proof.
  intros He. unfold add_entry, inflate_issuer, first_audience.
  destruct (head (je_expected_audience e)) as [a|]; [|done]. cbn [ok_or].
  pose proof (inflate_preset_no_panic e a He). destruct (inflate_preset e a); [|done|done]. cbn [map_err].
  match goal with |- map_err _ (add_issuer true ?c v) <> Panic => pose proof (add_issuer_no_panic c v) as Hn end.
  by destruct (add_issuer true _ v).
Qed.

Lemma fetch_and_store_no_panic now f c : (fetch_and_store now f c).1 <> Panic.
Proof.
  destruct f as [m|ok st [e|raw]]; simpl; [done | by destruct (negb ok)|]. destruct (negb ok); [done|].
  destruct raw as [e|keys]; simpl; [done|].
  assert (fold_result (pin_key (jc_url c)) [] keys <> Panic) as Hp.
  { apply (fold_result_no_panic _ (fun _ => True)); try done. intros s x _ _. unfold pin_key.
    destruct (parse_alg _); [|done]. by destruct (jwk_key _ _ _). }
  by destruct (fold_result _ _ _).
Qed.

Lemma warm_up_no_panic now fetch order v : (warm_up now fetch order v).1 <> Panic.
Proof.
  revert v. induction order as [|iss order IH]; intros v; simpl; [done|].
  destruct (v !! iss) as [e|]; [|apply IH].
  pose proof (fetch_and_store_no_panic now (fetch (jc_url (ie_jwks e))) (ie_jwks e)) as Hp.
  destruct (fetch_and_store _ _ _) as [[u|er|] c]; [apply IH | done | done].
Qed.

Lemma build_jwt_no_panic now fetch order entries : Forall issuer_ok entries -> build_jwt true now fetch order entries <> Panic.
Proof.
  intros Hf. rewrite Forall_forall in Hf. unfold build_jwt.
  assert (fold_result (add_entry true) ∅ entries <> Panic) as Hp.
  { apply (fold_result_no_panic _ (fun _ => True)); try done. intros s x Hx _. apply add_entry_no_panic. by apply Hf. }
  destruct (fold_result (add_entry true) ∅ entries) as [v| |]; [|done|done].
  pose proof (warm_up_no_panic now fetch (order v) v) as Hw. by destruct (warm_up now fetch (order v) v) as [[]?].
Qed.

Lemma resolve_master_key_no_panic env src : resolve_master_key env src <> Panic.
Proof. destruct src; unfold resolve_master_key; [by destruct (load _ _) | by destruct (load _ _) | done]. Qed.

Lemma build_auth_no_panic w addr cfg :
  auth_ok cfg -> bw_http_client w = true \/ au_jwt_issuers cfg = [] -> build_auth w addr cfg <> Panic.
Proof.
  intros [Hmk Hiss] Hhttp. unfold build_auth. cbn zeta.
  destruct (enforce_dev_mode_guardrails _ _ _ _) eqn:Eg; [|done|].
  2: { exfalso. revert Eg. unfold enforce_dev_mode_guardrails. repeat case_match; done. }
  destruct (match au_master_key cfg with Some _ => _ | None => _ end) as [mk| |] eqn:Em; [|done|].
  2: { exfalso. revert Em. destruct (au_master_key cfg) as [src|]; [|by destruct (_ || _)].
       pose proof (resolve_master_key_no_panic (bw_env w) src). by destruct (resolve_master_key _ src). }
  assert (Hk : sg_enabled (au_sigv4 cfg) || at_enabled (au_api_token cfg) = true -> is_Some mk).
  { intros Hs. destruct (au_master_key cfg) as [src|]; [|by destruct (Hmk Hs)].
    destruct (resolve_master_key _ src); [|done|done]. injection Em as <-. by eexists. }
  destruct (if sg_enabled (au_sigv4 cfg) then _ else _) as [sig| |] eqn:Es; [|done|].
  2: { exfalso. revert Es. destruct (sg_enabled (au_sigv4 cfg)); [|done]. destruct (Hk eq_refl) as [k ->]. simpl.
       unfold build_sigv4, ensure_table. by destruct (bw_credentials_table w). }
  destruct (if at_enabled (au_api_token cfg) then _ else _) as [api| |] eqn:Ea; [|done|].
  2: { exfalso. revert Ea. destruct (at_enabled (au_api_token cfg)); [|done].
       rewrite orb_true_r in Hk. destruct (Hk eq_refl) as [k ->]. simpl.
       unfold build_api_token, ensure_table. by destruct (bw_tokens_table w). }
  destruct (if negb (bool_decide (au_jwt_issuers cfg = [])) then _ else _) as [jwt| |] eqn:Ej; [|done|].
  2: { exfalso. revert Ej. destruct (bool_decide_reflect (au_jwt_issuers cfg = [])); [by intros [=]|]. cbn [negb].
       destruct Hhttp as [->|]; [|done].
       pose proof (build_jwt_no_panic (bw_now w) (bw_fetch w) (bw_order w) _ Hiss). by destruct (build_jwt _ _ _ _ _). }
  clear. destruct sig as [[? ?]|], api as [[? ?]|], jwt as [?|], (au_permissive_enabled cfg); by intros [=].
Qed.

(** C20: a configuration that loads is wired without a panic, whatever the
    environment, the database and the issuers answer: the [expect]s of the
    wiring that rely on the validation of the configuration, for the
    master key and for the fields of each preset, cannot fail.  The one
    [expect] on something else, the construction of the HTTP client of a
    key cache, is the condition: it has succeeded, or there is no issuer
    to build one for. *)
Theorem loaded_config_wires parse_addr raw c w :
  resolve parse_addr raw = Ok c -> bw_http_client w = true \/ au_jwt_issuers (cf_auth c) = [] ->
  build_auth w (sv_listen_addr (cf_server c)) (cf_auth c) <> Panic.
Proof. intros Hr%resolve_ok. apply build_auth_no_panic. apply Hr. Qed.

(** *** The guards *)

Lemma build_auth_Ok w addr cfg b :
  build_auth w addr cfg = Ok b ->
  (ch_permissive (ba_chain b) = if au_permissive_enabled cfg then Some permissive_verify else None) /\
  (is_Some (ch_sigv4 (ba_chain b)) <-> sg_enabled (au_sigv4 cfg) = true) /\
  (is_Some (ch_api_token (ba_chain b)) <-> at_enabled (au_api_token cfg) = true) /\
  (is_Some (ch_jwt (ba_chain b)) <-> au_jwt_issuers cfg <> []) /\
  enforce_dev_mode_guardrails (bw_env w) addr (au_permissive_enabled cfg && negb (strict_enabled cfg))
    (au_permissive_enabled cfg) = Ok tt.
Proof.
  unfold build_auth. cbn zeta. destruct (enforce_dev_mode_guardrails _ _ _ _) as [[]| |] eqn:Eg; [|done|done].
  destruct (match au_master_key cfg with Some _ => _ | None => _ end) as [mk| |]; [|done|done].
  destruct (if sg_enabled (au_sigv4 cfg) then _ else _) as [sig| |] eqn:Es; [|done|done].
  destruct (if at_enabled (au_api_token cfg) then _ else _) as [api| |] eqn:Ea; [|done|done].
  destruct (if negb (bool_decide (au_jwt_issuers cfg = [])) then _ else _) as [jwt| |] eqn:Ej; [|done|done].
  assert (Hs : is_Some sig <-> sg_enabled (au_sigv4 cfg) = true).
  { destruct (sg_enabled (au_sigv4 cfg)); [|injection Es as <-; by split; [intros [? [=]]|]].
    split; [done|]. intros _. destruct mk as [mk|]; [|done]. simpl in Es. destruct (build_sigv4 _ _ _); [|done|done].
    injection Es as <-. by eexists. }
  assert (Ha : is_Some api <-> at_enabled (au_api_token cfg) = true).
  { destruct (at_enabled (au_api_token cfg)); [|injection Ea as <-; by split; [intros [? [=]]|]].
    split; [done|]. intros _. destruct mk as [mk|]; [|done]. simpl in Ea. destruct (build_api_token _ _ _); [|done|done].
    injection Ea as <-. by eexists. }
  assert (Hj : is_Some jwt <-> au_jwt_issuers cfg <> []).
  { destruct (bool_decide_reflect (au_jwt_issuers cfg = [])) as [Hn|Hn]; simpl in Ej;
      [injection Ej as <-; split; [intros [? [=]] | done]|].
    split; [done|]. intros _. destruct (build_jwt _ _ _ _ _); [|done|done]. injection Ej as <-. by eexists. }
  clear Es Ea Ej. intros E.
  rewrite <- Hs, <- Ha, <- Hj.
  destruct sig as [[vs cs]|], api as [[va ca]|], jwt as [vj|], (au_permissive_enabled cfg); simpl in *;
    first [discriminate E | injection E as <-]; simpl; split_and!; try done; split; intros [? ?]; try done; by eexists.
Qed.

(** C19: the server starts with the verifier that accepts anyone only when
    the configuration enables it and the environment has the sentinel,
    and, unless another verifier is enabled too, only on a loopback
    address.  Without it, a request that has no [Authorization] header is
    refused.  Each other verifier is there exactly when it is enabled. *)
Theorem permissive_is_guarded w addr cfg b :
  build_auth w addr cfg = Ok b ->
  (au_permissive_enabled cfg = true ->
     env_var (bw_env w) "REKTIFIER_ALLOW_UNSAFE_AUTH" = Some SENTINEL /\
     (is_loopback addr = true \/ strict_enabled cfg = true)) /\
  (au_permissive_enabled cfg = false ->
     forall parts body st, header "authorization" parts = None ->
       chain_verify (ba_chain b) parts body st = (Err AuthError_MissingAuthorization, st)) /\
  (is_Some (ch_sigv4 (ba_chain b)) <-> sg_enabled (au_sigv4 cfg) = true) /\
  (is_Some (ch_api_token (ba_chain b)) <-> at_enabled (au_api_token cfg) = true) /\
  (is_Some (ch_jwt (ba_chain b)) <-> au_jwt_issuers cfg <> []).
Proof.
  intros (Hp & Hs & Ha & Hj & Hg)%build_auth_Ok. split_and!; try apply Hs; try apply Ha; try apply Hj.
  - intros Hen. rewrite Hen in Hg. unfold enforce_dev_mode_guardrails in Hg. cbn [andb] in Hg.
    destruct (negb (strict_enabled cfg) && negb (is_loopback addr)) eqn:El; [done|].
    destruct (env_var (bw_env w) "REKTIFIER_ALLOW_UNSAFE_AUTH") as [val|]; [|done].
    destruct (String.eqb val SENTINEL) eqn:Ev; [|done]. apply String.eqb_eq in Ev. split; [by rewrite Ev|].
    destruct (is_loopback addr); [by left|]. right. destruct (strict_enabled cfg); done.
  - intros Hdis parts body st Hh. rewrite Hdis in Hp. unfold chain_verify, classify_header. by rewrite Hh, Hp.
Qed.

(** with the permissive verifier enabled next to any other, the server
    also starts on a public address, and there accepts as [anonymous]
    every request that has no [Authorization] header; with SigV4 off, any
    request with a SigV4 header too, without looking at the signature. *)
Theorem anonymous_on_public_address w addr cfg b parts body st :
  build_auth w addr cfg = Ok b -> au_permissive_enabled cfg = true ->
  header "authorization" parts = None \/
    (sg_enabled (au_sigv4 cfg) = false /\ classify_header parts = HeaderRoute_Sigv4) ->
  exists id, chain_verify (ba_chain b) parts body st = (Ok id, st) /\ id_principal id = "anonymous".
Proof.
  intros (Hp & Hs & _)%build_auth_Ok Hen Hh. rewrite Hen in Hp. unfold chain_verify.
  destruct Hh as [Hh|[Hoff Hh]].
  - unfold classify_header. rewrite Hh, Hp. unfold permissive_verify. eexists. split; [done|]. done.
  - rewrite Hh. destruct (ch_sigv4 (ba_chain b)) as [v|]; [|rewrite Hp; eexists; by split].
    exfalso. assert (sg_enabled (au_sigv4 cfg) = true) by (apply Hs; by eexists). congruence.
Qed.

(** The retry policy of a loaded configuration is one the retry loop is
    proved for, when its longest backoff is below 2^56 milliseconds. *)
Lemma loaded_retry_sane c :
  config_ok c -> (rt_max_backoff_ms (pg_retry (cf_pg c)) < 2 ^ 56)%N -> sane_policy (rek_retry_policy c).
Proof.
  intros (_ & _ & _ & [_ (_ & _ & Hj)] & _) Hm. split; [done|]. simpl. unfold as_millis_u64, from_millis.
  rewrite N.div_mul by done. eapply N.le_lt_trans; [apply N.Div0.mod_le | done].
Qed.
End boot.
