(* ===== verification/AuthSamples.v ===== *)
(** * Tokens, JWTs and the wiring on concrete inputs

    The theorems of [ApiToken], [Jwt], [Config] and [AuthWiring]
    applied: a token that is used and deleted, an issuer that withdraws
    its keys, and a configuration with the permissive verifier next to a
    JWT issuer. *)

From S2P Require Import Prelude RustStr BTree Json ApiError Retry AuthCache Auth SigV4.
From S2P Require Import SigV4Canonical SigV4Verify SigV4Std ApiToken Jwt Config AuthWiring.

(** ** Samples: API tokens *)

Definition sample_buf : list Byte.byte := repeat Byte.x2a 28.
Definition sample_token : string := mint TokenKind_Pat sample_buf.
Definition sample_verifier : ApiTokenVerifier := api_token_new (repeat Byte.x07 32).
Definition sample_hash : list Byte.byte := hmac_pepper (av_pepper sample_verifier) sample_token.
Definition bearer (token : string) : Parts := mkParts "POST" "/" None [("authorization", Some ("Bearer " +:+ token))].
Definition sample_tokens : gmap (list Byte.byte) StoredToken :=
  <[sample_hash := mkStoredToken "user:alice" true (Some 2000%Z) 0%Z None]> ∅.

Lemma minted_token_witness :
  fst (chain_verify (with_api_token (api_token_verify sample_verifier 0 1 1000
         (fun h => fetch_token_row (inr (sample_tokens !! h)))) chain_empty) (bearer sample_token) [] (cache_new 300 30))
  = Ok (finalize_identity (mkCachedToken "user:alice" (Some 2000%Z) 1) TokenKind_Pat).
Proof.
  apply (minted_token_accepted TokenKind_Pat sample_buf sample_verifier "duplicate" 0%Z "user:alice" (Some 2000%Z) ∅
           sample_tokens 0 1 1000%Z (bearer sample_token) [] chain_empty (cache_new 300 30)).
  - reflexivity.
  - left. discriminate.
  - unfold insert_token_hash. rewrite lookup_empty. unfold sample_tokens, sample_hash, sample_token. reflexivity.
  - intros e [= <-]. lia.
  - apply cache_get_new.
  - vm_compute. reflexivity.
Defined.

Definition cached_token : CachedToken := mkCachedToken "user:alice" (Some 2000%Z) 1.
Definition token_cache : TokenCache :=
  default (cache_new 300 30) (insert_positive tk_fetched_at sample_hash cached_token (cache_new 300 30)).

(** The token expired at 2000; at 9000 it is still accepted. *)
Lemma cached_token_witness :
  api_token_verify sample_verifier 200 201 9000 (fun _ => inr None) (bearer sample_token) [] token_cache
  = (Ok (finalize_identity cached_token TokenKind_Pat), token_cache).
Proof.
  apply (cached_token_outlives_expiry sample_verifier 200 201 9000%Z (fun _ => inr None) (bearer sample_token) []
           token_cache TokenKind_Pat (random_base62 sample_buf) "user:alice" 2000%Z 301 1).
  - reflexivity.
  - left. discriminate.
  - unfold token_cache, insert_positive, sample_hash, sample_token. apply lookup_insert_eq.
  - lia.
  - lia.
Defined.

Notation TokenWorld := (World (K := list Byte.byte) (V := CachedToken) (Table := gmap (list Byte.byte) StoredToken)
                              (Reply := TokenStoreError + option ApiTokenRow)).
Definition one_key : list Byte.byte := [Byte.x01].
Definition one_row : StoredToken := mkStoredToken "user:alice" true (Some 2000%Z) 0%Z None.
Definition one_table : gmap (list Byte.byte) StoredToken := {[ one_key := one_row ]}.
Definition one_reply : TokenStoreError + option ApiTokenRow := fetch_token_row (inr (one_table !! one_key)).
Definition empty_tokens : TokenCache := cache_new 300 30.
Definition kept_tokens : TokenCache := default empty_tokens (insert_positive tk_fetched_at one_key cached_token empty_tokens).
Definition replied : TokenWorld :=
  mkWorld 1 0 one_table empty_tokens (<[0 := Replied one_key one_reply 1]> (<[0 := Waiting one_key]> ∅)).
Definition answered : TokenWorld :=
  mkWorld 1 0 one_table kept_tokens (delete 0 (<[0 := Replied one_key one_reply 1]> (<[0 := Waiting one_key]> ∅))).
Definition deleted (t : N) : TokenWorld := mkWorld t 0 ∅ kept_tokens (pending answered).
Definition token_history : list TokenWorld :=
  [deleted 10; deleted 1; answered; replied; mkWorld 1 0 one_table empty_tokens (<[0 := Waiting one_key]> ∅);
   mkWorld 1 0 one_table empty_tokens ∅].

(** A token is used at 1, its row deleted, and the clock runs on. *)
Lemma token_run :
  run tk_fetched_at AuthError_IdentityNotFound token_answers judge_token 5
    (mkWorld 1 0 one_table empty_tokens ∅) token_history [(replied, one_key, Ok cached_token)].
Proof.
  unfold token_history.
  eapply run_silent; [|apply (step_tick _ _ _ _ _ (deleted 1) 9 0)].
  eapply run_silent; [|apply (step_operator _ _ _ _ _ answered ∅)].
  eapply run_answer.
  2: { eapply (step_finish _ _ _ _ _ replied 0); [apply lookup_insert_eq | done |]. vm_compute. reflexivity. }
  eapply run_silent;
    [|apply (step_read _ _ _ _ _ (mkWorld 1 0 one_table empty_tokens _) 0); [apply lookup_insert_eq | by left]].
  eapply run_silent; [|by apply (step_miss _ _ _ _ _ (mkWorld 1 0 one_table empty_tokens ∅) 0)].
  apply run_start.
Qed.

Lemma revoked_token_witness : (1 < 2 + 5 + 300)%N.
Proof.
  apply (revoked_token_dies 5 300 (mkWorld 1 0 one_table empty_tokens ∅) token_history _ 2 replied one_key cached_token
           eq_refl eq_refl eq_refl token_run).
  - intros u Hu Ht. unfold token_history in Hu. rewrite !elem_of_cons, elem_of_nil in Hu.
    destruct Hu as [->|[->|[->|[->|[->|[->|[]]]]]]];
      first [exact I | exfalso; revert Ht; vm_compute; congruence].
  - left.
Defined.

(** ** Samples: JSON web tokens *)

Definition issuer_url : string := "https://issuer.example/".

(** A library that takes every token for a signed one of that issuer. *)
Definition sample_claims : Claims :=
  mkClaims issuer_url (VString "rektifier") (Some "alice") (Some 9999999999%Z) [("email", VString "a@b.c")].
Definition sample_decode (token key : string) (v : Validation) : string + Claims :=
  if decide (issuer_url ∈ va_issuer v) then inr sample_claims else inl "InvalidIssuer".
Lemma sample_decode_issuer token key v c : sample_decode token key v = inr c -> cl_iss c ∈ va_issuer v.
Proof. unfold sample_decode. case_decide; [|done]. by intros [= <-]. Qed.
Lemma sample_decode_extra token key v c :
  sample_decode token key v = inr c ->
  BTreeMap.wf (cl_extra c) /\ Forall (fun k => BTreeMap.get k (cl_extra c) = None) ["iss"; "aud"; "sub"; "exp"].
Proof.
  unfold sample_decode. case_decide; [|done]. intros [= <-]. split; [apply BTreeMap.wf_cons; split; constructor|].
  repeat constructor.
Qed.
#[export] Instance sample_jwt : JwtLib :=
  {| Key := string; from_rsa_components n e := inr (n +:+ e); from_ec_components x y := inr (x +:+ y);
     from_ed_components x := inr x; decode_header _ := inr (mkHeader RS256 (Some "JWT") (Some "k1"));
     decode_token := sample_decode; base64_url_decode _ := Some [];
     parse_object _ := inr [("iss", VString issuer_url)]; url_scheme _ := Some "https"; alg_debug _ := "RS256";
     decode_issuer := sample_decode_issuer; decode_extra := sample_decode_extra |}.

Definition sample_issuer (fmt : PrincipalFormat) : JwtIssuerConfig :=
  generic issuer_url "https://issuer.example/jwks" "rektifier" fmt.
Definition published : Fetched :=
  Fetched_Response true "200 OK"
    (inr (inr [mkRawJwk (Some "k1") "RSA" (Some "RS256") (Some "n") (Some "e") None None None;
               mkRawJwk (Some "k2") "oct" (Some "HS256") None None None None None])).
Definition withdrawn : Fetched := Fetched_Response true "200 OK" (inr (inr [])).
Definition sample_jwt_verifier : JwtVerifier :=
  <[issuer_url := mkIssuerEntry (sample_issuer (PrincipalFormat_Subject "ex:"))
                    (mkJwksCache "https://issuer.example/jwks" 600 None false)]> ∅.

Definition sample_identity : Identity :=
  mkIdentity AuthScheme_Jwt "ex:alice" (Some issuer_url) (jwt_claims sample_claims).
Definition after_verify : JwtVerifier := (jwt_verify 0 (fun _ => published) (bearer "h.p.s") [] sample_jwt_verifier).2.

(** Every URL publishes that document. *)
Definition always_published (url : string) (f : Fetched) : Prop := f = published.

Lemma jwt_acceptance_witness :
  exists h p s bytes prelim hdr iss e kid k c,
    let token := h +:+ "." +:+ p +:+ "." +:+ s in
    header "authorization" (bearer "h.p.s") = Some (Some ("Bearer " +:+ token)) /\ split_on "."%char token = [h; p; s] /\
    decode_header token = inr hdr /\ base64_url_decode p = Some bytes /\ parse_object bytes = inr prelim /\
    claim_str prelim "iss" = Some iss /\ h_kid hdr = Some kid /\
    sample_jwt_verifier !! iss = Some e /\ url_scheme (ic_jwks_url (ie_config e)) = Some "https" /\
    served_at always_published (ic_jwks_url (ie_config e)) k /\
    pk_kid k = kid /\ pk_alg k = h_alg hdr /\ pk_alg k ∈ ic_allowed_algs (ie_config e) /\ symmetric (pk_alg k) = false /\
    ic_expected_audience (ie_config e) <> [] /\
    decode_token token (pk_key k)
      (mkValidation [iss] (ic_expected_audience (ie_config e)) (ic_clock_skew (ie_config e)) [pk_alg k]) = inr c /\
    id_issuer sample_identity = Some iss /\ id_claims sample_identity = jwt_claims c /\
    resolve_principal (ie_config e) (jwt_claims c) = Some (id_principal sample_identity).
Proof.
  apply (jwt_acceptance_sound always_published sample_jwt_verifier 0 (fun _ => published) (bearer "h.p.s") [] sample_identity
           after_verify).
  - apply (reachable_add _ ∅ true (sample_issuer (PrincipalFormat_Subject "ex:"))); [apply reachable_new | reflexivity].
  - intros url. reflexivity.
  - vm_compute. reflexivity.
Defined.

Definition pinned_k1 : PinnedKey := mkPinnedKey "k1" RS256 ("ne" : Key).
Definition warm_cache : JwksCache :=
  (fetch_and_store 0 published (mkJwksCache "https://issuer.example/jwks" 600 None false)).2.

(** Fetched at 0 with a time-to-live of 600; at 1000 and at 1000000 the
    issuer publishes no key any more. *)
Lemma stale_key_witness :
  get_keys "k1" [(1000%N, withdrawn); (1000000%N, withdrawn)] warm_cache
  = ([Ok pinned_k1; Ok pinned_k1], warm_cache).
Proof. apply (stale_key_served_forever "k1" pinned_k1 warm_cache [(1000%N, withdrawn); (1000000%N, withdrawn)]). reflexivity. Defined.

Lemma audience_lost_witness :
  BTreeMap.get "aud" (id_claims sample_identity) = None /\
  forall t rest, str_mem "{"%char t = false -> PrincipalFormat_Subject "ex:" <> PrincipalFormat_Custom (t +:+ "{aud}" +:+ rest).
Proof.
  apply (audience_claim_lost (sample_issuer (PrincipalFormat_Subject "ex:")) "h.p.s" "k1"
           (mkHeader RS256 (Some "JWT") (Some "k1")) pinned_k1 sample_identity).
  vm_compute. reflexivity.
Defined.

(** ** Samples: the configuration and the chain *)

#[export] Instance no_decoders : KeyDecoders :=
  {| hex_decode := fun _ => Some (repeat Byte.x00 32); b64_standard := fun _ => None; b64_url_safe := fun _ => None;
     b64_url_safe_no_pad := fun _ => None |}.

Definition any_address : SocketAddr := SocketAddr_V4 0 0 0 0 9000.
Definition sample_raw_issuer : RawJwtIssuer :=
  mkRawJwtIssuer "Generic" ["rektifier"] None None None None None None (Some issuer_url)
    (Some "https://issuer.example/jwks") (Some (RawPrincipalFormat_Shorthand "subject")) None None None.
Definition sample_raw : RawConfig :=
  mkRawConfig (mkRawServer "0.0.0.0:9000" "postgres://localhost" None) None None None None
    (Some (mkRawAuth None None None None (Some (Some true)) None None (Some [sample_raw_issuer]))).
Definition sample_entry : JwtIssuerEntry :=
  mkJwtIssuerEntry "generic" None None None None None None (Some issuer_url) (Some "https://issuer.example/jwks")
    (Some (PrincipalFormatEntry_Subject "")) ["rektifier"] None None None.
Definition sample_auth : AuthConfig := mkAuthConfig None true default_sigv4 default_api_token [sample_entry] false.
Definition sample_config : Config :=
  mkConfig (mkServerConfig any_address "postgres://localhost" 30000) ddb_limits ddb_batch_limits default_pg default_catalog
    sample_auth.
Definition sample_world : BootWorld :=
  mkBootWorld (mkEnvironment (fun _ => Some SENTINEL) (fun _ => inl "not found")) None None true 0 (fun _ => published)
    (fun _ => [issuer_url]).

Lemma loaded_config_witness :
  load_from_path (fun _ => inr any_address) (fun _ => inr sample_raw) (inr "text") <> Panic /\ config_ok sample_config.
Proof.
  destruct (loaded_config_valid (fun _ => inr any_address) (fun _ => inr sample_raw) (inr "text")) as [Hn Hc].
  split; [exact Hn | apply (Hc sample_config); vm_compute; reflexivity].
Defined.

Lemma loaded_config_wires_witness : build_auth sample_world any_address sample_auth <> Panic.
Proof.
  apply (loaded_config_wires (fun _ => inr any_address) sample_raw sample_config sample_world).
  - vm_compute. reflexivity.
  - left. reflexivity.
Defined.

Definition sample_built : BuiltAuth :=
  mkBuiltAuth (with_permissive permissive_verify (with_jwt jwt_verifier chain_empty))
    (fun su => mkAuthState (cache_new 0 0) (cache_new 0 0)
                 (default ∅ (match build_jwt true 0 (fun _ => published) (fun _ => [issuer_url]) [sample_entry] with
                             | Ok v => Some v | _ => None end)) su) false.

Lemma sample_builds : build_auth sample_world any_address sample_auth = Ok sample_built.
Proof. reflexivity. Qed.

Lemma permissive_guarded_witness :
  env_var (bw_env sample_world) "REKTIFIER_ALLOW_UNSAFE_AUTH" = Some SENTINEL /\
  (is_loopback any_address = true \/ strict_enabled sample_auth = true).
Proof.
  apply (permissive_is_guarded sample_world any_address sample_auth sample_built sample_builds). reflexivity.
Defined.

Definition sample_around : Surroundings :=
  mkSurroundings 0 0 0 0 (fun _ => inr None) (fun _ => inr None) (fun _ => published).

(** Permissive mode and one JWT issuer, listening on all interfaces. *)
Lemma anonymous_witness :
  is_loopback any_address = false /\
  exists id, chain_verify (ba_chain sample_built) (mkParts "POST" "/" None []) [] (ba_state sample_built sample_around)
    = (Ok id, ba_state sample_built sample_around) /\ id_principal id = "anonymous".
Proof.
  split; [reflexivity|].
  apply (anonymous_on_public_address sample_world any_address sample_auth sample_built (mkParts "POST" "/" None []) []
           (ba_state sample_built sample_around) sample_builds); [reflexivity | left; reflexivity].
Defined.

Lemma safe_claims_witness :
  BTreeMap.get "email" (safe_claims_for_log sample_identity []) = None.
Proof.
  rewrite (safe_claims_exact sample_identity [] "email"); [reflexivity|].
  repeat (apply BTreeMap.wf_insert || apply BTreeMap.wf_cons || split || constructor).
Defined.
