(* ===== verification/RequestJson.v ===== *)
(** * Request bodies (rekt-protocol, [operations.rs])

    What the derived [Deserialize] implementations make of the JSON of a
    body, for every request type: the field names, which fields may be
    missing or null, which structs refuse unknown fields.  [request_wire]
    supplies the decoders that the handlers of [Server] take as a
    parameter.

    A struct may also be written as an array of its fields in order, as
    serde allows.  The reader of JSON text and the texts of serde's errors
    are the class [JsonText]; an object that repeats a key is outside the
    model, since a [Value] has each key once. *)

From S2P Require Import Prelude RustStr BTree Json Attr Operations Server.

(** [serde_json::from_slice] up to the document it denotes, serde's
    message for a type and a body, and the order in which a [HashMap] is
    iterated. *)
Class JsonText : Type := {
  json_read : bytes -> string + Value;
  serde_message : string -> bytes -> string;
  de_error_message : DeError -> string;
  value_debug_text : Value -> string;
  hash_order : forall A : Type, list (string * A) -> list (string * A);
  hash_order_perm : forall A (l : list (string * A)), Permutation (hash_order A l) l
}.
Arguments hash_order {_ A} l.

(** ** Fields *)

Definition accepted {E A : Type} (r : Result E A) : option A :=
  match r with Ok a => Some a | _ => None end.

Definition struct_fields (names : list string) (deny_unknown_fields : bool) (v : Value)
  : option (list (option Value)) :=
  match v with
  | VObject m =>
      if deny_unknown_fields && existsb (fun k => negb (contains names k)) (BTreeMap.keys m) then None
      else Some (map (fun n => BTreeMap.get n m) names)
  | VArray l =>
      if Nat.ltb (length names) (length l) then None
      else Some (map Some l ++ replicate (length names - length l) None)
  | _ => None
  end.

(** A field that must be there, and one of type [Option] with
    [#[serde(default)]]. *)
Definition required {A : Type} (de : Value -> option A) (o : option Value) : option A :=
  match o with Some v => de v | None => None end.
Definition optional {A : Type} (de : Value -> option A) (o : option Value) : option (option A) :=
  match o with
  | None | Some VNull => Some None
  | Some v => match de v with Some a => Some (Some a) | None => None end
  end.

Definition str_field (v : Value) : option string := as_str v.
Definition bool_field (v : Value) : option bool := match v with VBool b => Some b | _ => None end.
Definition u32_max : N := 4294967295%N.
Definition u32_field (v : Value) : option N :=
  match v with
  | VNumber s => match parse_usize s with Some n => if N.leb n u32_max then Some n else None | None => None end
  | _ => None
  end.

Fixpoint all_some {A B : Type} (f : A -> option B) (l : list A) : option (list B) :=
  match l with
  | [] => Some []
  | a :: l => match f a, all_some f l with Some b, Some bs => Some (b :: bs) | _, _ => None end
  end.

Definition vec_field {A : Type} (de : Value -> option A) (v : Value) : option (list A) :=
  match v with VArray l => all_some de l | _ => None end.

(** The entries of a map, in the order of the keys. *)
Definition map_entries {A : Type} (de : Value -> option A) (v : Value) : option (list (string * A)) :=
  match v with
  | VObject m => all_some (fun kv : string * Value =>
                   match de kv.2 with Some a => Some (kv.1, a) | None => None end) m
  | _ => None
  end.
Definition names_field (v : Value) : option Names :=
  match map_entries str_field v with Some l => Some (BTreeMap.of_list l) | None => None end.

Declare Scope opt_scope.
Delimit Scope opt_scope with opt.
Notation "'let*' x := c 'in' k" := (match c with Some x => k | None => None end)
  (at level 10, x pattern, c at level 100, k at level 200) : opt_scope.
Open Scope opt_scope.

(** ** The request types *)

Section requests.
Context `{Base64} `{JsonText}.

Definition item_field (v : Value) : option Item := accepted (item_from_value v).
Definition values_field (v : Value) : option Values := accepted (item_from_value v).
Definition hash_map_field {A : Type} (de : Value -> option A) (v : Value) : option (list (string * A)) :=
  let* l := map_entries de v in Some (hash_order l).

Definition put_item_request (v : Value) : option PutItemRequest :=
  match struct_fields ["TableName"; "Item"; "ExpressionAttributeNames"; "ExpressionAttributeValues";
                       "ConditionExpression"; "ReturnValues"] false v with
  | Some [a; b; c; d; e; f] =>
      let* a := required str_field a in let* b := required item_field b in let* c := optional names_field c in
      let* d := optional values_field d in let* e := optional str_field e in let* f := optional str_field f in
      Some (mkPutItemRequest a b c d e f)
  | _ => None
  end.

Definition get_item_request (v : Value) : option GetItemRequest :=
  match struct_fields ["TableName"; "Key"] false v with
  | Some [a; b] => let* a := required str_field a in let* b := required item_field b in Some (mkGetItemRequest a b)
  | _ => None
  end.

Definition delete_item_request (v : Value) : option DeleteItemRequest :=
  match struct_fields ["TableName"; "Key"; "ExpressionAttributeNames"; "ExpressionAttributeValues";
                       "ConditionExpression"; "ReturnValues"] false v with
  | Some [a; b; c; d; e; f] =>
      let* a := required str_field a in let* b := required item_field b in let* c := optional names_field c in
      let* d := optional values_field d in let* e := optional str_field e in let* f := optional str_field f in
      Some (mkDeleteItemRequest a b c d e f)
  | _ => None
  end.

Definition update_item_request (v : Value) : option UpdateItemRequest :=
  match struct_fields ["TableName"; "Key"; "UpdateExpression"; "ExpressionAttributeNames";
                       "ExpressionAttributeValues"; "ConditionExpression"; "ReturnValues"] false v with
  | Some [a; b; c; d; e; f; g] =>
      let* a := required str_field a in let* b := required item_field b in let* c := required str_field c in
      let* d := optional names_field d in let* e := optional values_field e in let* f := optional str_field f in
      let* g := optional str_field g in
      Some (mkUpdateItemRequest a b c d e f g)
  | _ => None
  end.

Definition query_request (v : Value) : option QueryRequest :=
  match struct_fields ["TableName"; "KeyConditionExpression"; "ExpressionAttributeNames";
                       "ExpressionAttributeValues"; "IndexName"; "ConsistentRead"; "Limit"; "ExclusiveStartKey";
                       "FilterExpression"; "ScanIndexForward"; "Select"; "ProjectionExpression"] false v with
  | Some [a; b; c; d; e; f; g; h; i; j; k; l] =>
      let* a := required str_field a in let* b := required str_field b in let* c := optional names_field c in
      let* d := optional values_field d in let* e := optional str_field e in let* f := optional bool_field f in
      let* g := optional u32_field g in let* h := optional item_field h in let* i := optional str_field i in
      let* j := optional bool_field j in let* k := optional str_field k in let* l := optional str_field l in
      Some (mkQueryRequest a b c d e f g h i j k l)
  | _ => None
  end.

Definition scan_request (v : Value) : option ScanRequest :=
  match struct_fields ["TableName"; "ConsistentRead"; "IndexName"; "Segment"; "TotalSegments"; "Limit";
                       "ExclusiveStartKey"; "FilterExpression"; "ExpressionAttributeNames";
                       "ExpressionAttributeValues"; "Select"; "ProjectionExpression"] false v with
  | Some [a; b; c; d; e; f; g; h; i; j; k; l] =>
      let* a := required str_field a in let* b := optional bool_field b in let* c := optional str_field c in
      let* d := optional u32_field d in let* e := optional u32_field e in let* f := optional u32_field f in
      let* g := optional item_field g in let* h := optional str_field h in let* i := optional names_field i in
      let* j := optional values_field j in let* k := optional str_field k in let* l := optional str_field l in
      Some (mkScanRequest a b c d e f g h i j k l)
  | _ => None
  end.

Definition keys_and_attributes (v : Value) : option KeysAndAttributes :=
  match struct_fields ["Keys"; "ConsistentRead"; "ProjectionExpression"; "ExpressionAttributeNames";
                       "AttributesToGet"] false v with
  | Some [a; b; c; d; e] =>
      let* a := required (vec_field item_field) a in let* b := optional bool_field b in let* c := optional str_field c in
      let* d := optional names_field d in let* e := optional (vec_field str_field) e in
      Some (mkKeysAndAttributes a b c d e)
  | _ => None
  end.

Definition batch_get_item_request (v : Value) : option BatchGetItemRequest :=
  match struct_fields ["RequestItems"; "ReturnConsumedCapacity"] false v with
  | Some [a; b] =>
      let* a := required (hash_map_field keys_and_attributes) a in let* b := optional str_field b in
      Some (mkBatchGetItemRequest a b)
  | _ => None
  end.

Definition put_request (v : Value) : option PutRequest :=
  match struct_fields ["Item"] true v with
  | Some [a] => let* a := required item_field a in Some (mkPutRequest a)
  | _ => None
  end.

Definition delete_request (v : Value) : option DeleteRequest :=
  match struct_fields ["Key"] true v with
  | Some [a] => let* a := required item_field a in Some (mkDeleteRequest a)
  | _ => None
  end.

Definition write_request (v : Value) : option WriteRequest :=
  match struct_fields ["PutRequest"; "DeleteRequest"] true v with
  | Some [a; b] =>
      let* a := optional put_request a in let* b := optional delete_request b in Some (mkWriteRequest a b)
  | _ => None
  end.

Definition batch_write_item_request (v : Value) : option BatchWriteItemRequest :=
  match struct_fields ["RequestItems"; "ReturnConsumedCapacity"; "ReturnItemCollectionMetrics"] false v with
  | Some [a; b; c] =>
      let* a := required (hash_map_field (vec_field write_request)) a in let* b := optional str_field b in
      let* c := optional str_field c in
      Some (mkBatchWriteItemRequest a b c)
  | _ => None
  end.

Definition get_spec_request (v : Value) : option Get :=
  match struct_fields ["TableName"; "Key"; "ProjectionExpression"; "ExpressionAttributeNames"] true v with
  | Some [a; b; c; d] =>
      let* a := required str_field a in let* b := required item_field b in let* c := optional str_field c in
      let* d := optional names_field d in
      Some (mkGet a b c d)
  | _ => None
  end.

Definition transact_get_item (v : Value) : option TransactGetItem :=
  match struct_fields ["Get"] true v with
  | Some [a] => let* a := optional get_spec_request a in Some (mkTransactGetItem a)
  | _ => None
  end.

Definition transact_get_items_request (v : Value) : option TransactGetItemsRequest :=
  match struct_fields ["TransactItems"; "ReturnConsumedCapacity"] false v with
  | Some [a; b] =>
      let* a := required (vec_field transact_get_item) a in let* b := optional str_field b in
      Some (mkTransactGetItemsRequest a b)
  | _ => None
  end.

Definition transact_put (v : Value) : option TransactPut :=
  match struct_fields ["TableName"; "Item"; "ConditionExpression"; "ExpressionAttributeNames";
                       "ExpressionAttributeValues"; "ReturnValuesOnConditionCheckFailure"] true v with
  | Some [a; b; c; d; e; f] =>
      let* a := required str_field a in let* b := required item_field b in let* c := optional str_field c in
      let* d := optional names_field d in let* e := optional values_field e in let* f := optional str_field f in
      Some (mkTransactPut a b c d e f)
  | _ => None
  end.

Definition transact_delete (v : Value) : option TransactDelete :=
  match struct_fields ["TableName"; "Key"; "ConditionExpression"; "ExpressionAttributeNames";
                       "ExpressionAttributeValues"; "ReturnValuesOnConditionCheckFailure"] true v with
  | Some [a; b; c; d; e; f] =>
      let* a := required str_field a in let* b := required item_field b in let* c := optional str_field c in
      let* d := optional names_field d in let* e := optional values_field e in let* f := optional str_field f in
      Some (mkTransactDelete a b c d e f)
  | _ => None
  end.

Definition transact_update (v : Value) : option TransactUpdate :=
  match struct_fields ["TableName"; "Key"; "UpdateExpression"; "ConditionExpression"; "ExpressionAttributeNames";
                       "ExpressionAttributeValues"; "ReturnValuesOnConditionCheckFailure"] true v with
  | Some [a; b; c; d; e; f; g] =>
      let* a := required str_field a in let* b := required item_field b in let* c := required str_field c in
      let* d := optional str_field d in let* e := optional names_field e in let* f := optional values_field f in
      let* g := optional str_field g in
      Some (mkTransactUpdate a b c d e f g)
  | _ => None
  end.

Definition transact_condition_check (v : Value) : option TransactConditionCheck :=
  match struct_fields ["TableName"; "Key"; "ConditionExpression"; "ExpressionAttributeNames";
                       "ExpressionAttributeValues"; "ReturnValuesOnConditionCheckFailure"] true v with
  | Some [a; b; c; d; e; f] =>
      let* a := required str_field a in let* b := required item_field b in let* c := required str_field c in
      let* d := optional names_field d in let* e := optional values_field e in let* f := optional str_field f in
      Some (mkTransactConditionCheck a b c d e f)
  | _ => None
  end.

Definition transact_write_item (v : Value) : option TransactWriteItem :=
  match struct_fields ["Put"; "Delete"; "Update"; "ConditionCheck"] true v with
  | Some [a; b; c; d] =>
      let* a := optional transact_put a in let* b := optional transact_delete b in
      let* c := optional transact_update c in let* d := optional transact_condition_check d in
      Some (mkTransactWriteItem a b c d)
  | _ => None
  end.

Definition transact_write_items_request (v : Value) : option TransactWriteItemsRequest :=
  match struct_fields ["TransactItems"; "ClientRequestToken"; "ReturnConsumedCapacity";
                       "ReturnItemCollectionMetrics"] false v with
  | Some [a; b; c; d] =>
      let* a := required (vec_field transact_write_item) a in let* b := optional str_field b in
      let* c := optional str_field c in let* d := optional str_field d in
      Some (mkTransactWriteItemsRequest a b c d)
  | _ => None
  end.

(** [parse_json::<T>(body)]. *)
Definition from_slice {T : Type} (de : Value -> option T) (type : string) (body : bytes) : string + T :=
  match json_read body with
  | inl e => inl e
  | inr v => match de v with Some r => inr r | None => inl (serde_message type body) end
  end.

#[export] Instance request_wire : Wire :=
  { de_put_item := from_slice put_item_request "PutItemRequest";
    de_get_item := from_slice get_item_request "GetItemRequest";
    de_delete_item := from_slice delete_item_request "DeleteItemRequest";
    de_update_item := from_slice update_item_request "UpdateItemRequest";
    de_query := from_slice query_request "QueryRequest";
    de_scan := from_slice scan_request "ScanRequest";
    de_batch_get_item := from_slice batch_get_item_request "BatchGetItemRequest";
    de_batch_write_item := from_slice batch_write_item_request "BatchWriteItemRequest";
    de_transact_get_items := from_slice transact_get_items_request "TransactGetItemsRequest";
    de_transact_write_items := from_slice transact_write_items_request "TransactWriteItemsRequest";
    de_error_to_string := de_error_message;
    value_debug := value_debug_text }.
End requests.

(** ** The bodies of requests *)

(** An object with the fields that are there, and further ones. *)
Definition present (fields : list (string * option Value)) : list (string * Value) :=
  omap (fun f => (fun v => (f.1, v)) <$> f.2) fields.
Definition object_of (fields : list (string * option Value)) (extra : list (string * Value)) : Value :=
  VObject (BTreeMap.of_list (present fields ++ extra)).

Lemma insert_all_present n o fields extra m :
  BTreeMap.insert_all (present ((n, o) :: fields) ++ extra) m =
  BTreeMap.insert_all (present fields ++ extra) (match o with Some v => BTreeMap.insert n v m | None => m end).
Proof. by destruct o. Qed.

Lemma keys_present fields k : k ∈ BTreeMap.keys (present fields) -> k ∈ fields.*1.
Proof.
  induction fields as [|[n [v|]] fields IH]; unfold present; simpl; [done| |]; rewrite !elem_of_cons; intros Hk.
  - destruct Hk as [->|Hk]; [by left | right; by apply IH].
  - right. by apply IH.
Qed.

Lemma get_present n o extra fields m :
  NoDup fields.*1 -> n ∉ BTreeMap.keys extra -> (n, o) ∈ fields -> n ∉ BTreeMap.keys m ->
  BTreeMap.get n (BTreeMap.insert_all (present fields ++ extra) m) = o.
Proof.
  intros Hnd He. revert m Hnd. induction fields as [|[k w] fields IH]; intros m Hnd Hin Hm; [by apply elem_of_nil in Hin|].
  apply NoDup_cons in Hnd as [Hk Hnd]. apply elem_of_cons in Hin as [[= <- <-]|Hin].
  - assert (BTreeMap.get n (reverse (present fields ++ extra)) = None) as Hn.
    { apply BTreeMap.get_None. unfold BTreeMap.keys. change (map fst) with (fmap (M := list) (@fst string Value)).
      rewrite fmap_reverse, elem_of_reverse, fmap_app, elem_of_app. intros [Hx|Hx]; [|done].
      by apply Hk, keys_present. }
    rewrite insert_all_present, BTreeMap.get_insert_all, Hn. destruct o as [v|]; [apply BTreeMap.get_insert_eq | by apply BTreeMap.get_None].
  - assert (n <> k) as Hne by (intros ->; apply Hk; by apply (list_elem_of_fmap_2 fst) in Hin).
    rewrite insert_all_present. apply IH; [done..|]. destruct w as [v|]; [|done]. rewrite BTreeMap.keys_insert. naive_solver.
Qed.

(** The fields of an object are read back; a struct that refuses unknown
    fields needs that there are none. *)
Lemma struct_fields_object ns vals deny extra :
  NoDup ns -> length vals = length ns -> (deny = true -> extra = []) -> Forall (fun n => n ∉ BTreeMap.keys extra) ns ->
  struct_fields ns deny (object_of (zip ns vals) extra) = Some vals.
Proof.
  intros Hnd Hl Hdeny Hex. unfold struct_fields, object_of.
  assert ((zip ns vals).*1 = ns) as Hz by (apply fst_zip; lia).
  assert (deny && existsb (fun k => negb (contains ns k)) (BTreeMap.keys (BTreeMap.of_list (present (zip ns vals) ++ extra))) = false) as ->.
  { destruct deny; [|done]. rewrite (Hdeny eq_refl), app_nil_r. cbn [andb]. apply not_true_iff_false. rewrite existsb_exists.
    intros (k & Hk%list_elem_of_In & Hc). apply negb_true_iff, contains_false in Hc. apply Hc. rewrite <- Hz.
    apply keys_present. unfold BTreeMap.of_list in Hk. apply dec_stable. intros Hn.
    revert Hk. apply BTreeMap.get_None. rewrite BTreeMap.get_insert_all.
    replace (BTreeMap.get k (reverse (present (zip ns vals)))) with (@None Value); [done|]. symmetry. apply BTreeMap.get_None.
    unfold BTreeMap.keys. change (map fst) with (fmap (M := list) (@fst string Value)).
    by rewrite fmap_reverse, elem_of_reverse. }
  f_equal. apply list_eq. intros i. change (map ?f) with (fmap (M := list) f). rewrite list_lookup_fmap.
  destruct (ns !! i) as [n|] eqn:Hn; simpl.
  - destruct (vals !! i) as [o|] eqn:Ho; [|apply lookup_lt_Some in Hn; apply lookup_ge_None in Ho; lia].
    f_equal. apply get_present; [by rewrite Hz | | | apply not_elem_of_nil].
    + rewrite Forall_forall in Hex. apply Hex. by eapply list_elem_of_lookup_2.
    + apply (list_elem_of_lookup_2 _ i). rewrite lookup_zip_with, Hn. simpl. by rewrite Ho.
  - apply lookup_ge_None in Hn. symmetry. apply lookup_ge_None. lia.
Qed.

Lemma read_object ns fields deny extra :
  ns = fields.*1 -> NoDup ns -> (deny = true -> extra = []) -> Forall (fun n => n ∉ BTreeMap.keys extra) ns ->
  struct_fields ns deny (object_of fields extra) = Some fields.*2.
Proof.
  intros -> Hnd Hd He. rewrite <- (zip_fst_snd fields) at 2. apply struct_fields_object; try done.
  by rewrite !length_fmap.
Qed.

(** ** Round trips *)

Definition all_of {A : Type} (P : A -> Prop) (o : option A) : Prop :=
  match o with Some a => P a | None => True end.
Definition wf_names (m : Names) : Prop := BTreeMap.wf m.
Definition name_values (m : Names) : Value := VObject (map (fun kv => (kv.1, VString kv.2)) m).
Definition strings (l : list string) : Value := VArray (map VString l).
Definition fits_u32 (n : N) : Prop := (n <= u32_max)%N.

Lemma all_some_map {A B C} (f : B -> option C) (g : A -> B) (h : A -> C) l :
  Forall (fun a => f (g a) = Some (h a)) l -> all_some f (map g l) = Some (map h l).
Proof. induction 1 as [|a l Ha _ IH]; simpl; [done|]. by rewrite Ha, IH. Qed.

Lemma read_vec {A} (de : Value -> option A) enc l :
  Forall (fun a => de (enc a) = Some a) l -> vec_field de (VArray (map enc l)) = Some l.
Proof. intros Hl. simpl. by rewrite (all_some_map _ _ (fun a => a)), map_id. Qed.

Lemma read_required {A} (de : Value -> option A) v a : de v = Some a -> required de (Some v) = Some a.
Proof. done. Qed.

(** No field of a request is encoded as null. *)
Definition not_null (v : Value) : Prop := v <> VNull.

Lemma read_optional {A} (de : Value -> option A) enc o :
  all_of (fun a => de (enc a) = Some a /\ not_null (enc a)) o -> optional de (enc <$> o) = Some o.
Proof.
  destruct o as [a|]; [|done]. intros [Ha Hn]. simpl in *. destruct (enc a); by rewrite ?Ha.
Qed.

Lemma all_of_impl {A} (P Q : A -> Prop) o : (forall a, P a -> Q a) -> all_of P o -> all_of Q o.
Proof. destruct o; simpl; auto. Qed.

Lemma read_str o : optional str_field (VString <$> o) = Some o.
Proof. apply read_optional. by destruct o. Qed.
Lemma read_bool o : optional bool_field (VBool <$> o) = Some o.
Proof. apply read_optional. by destruct o. Qed.
Lemma read_u32 o : all_of fits_u32 o -> optional u32_field (number <$> o) = Some o.
Proof.
  intros Ho. apply read_optional. revert Ho. apply all_of_impl. intros n Hn. split; [|done]. unfold fits_u32 in Hn.
  unfold u32_field, number. rewrite usize_roundtrip by (unfold usize_max, u32_max in *; lia). by rewrite (proj2 (N.leb_le _ _) Hn).
Qed.
Lemma read_names o : all_of wf_names o -> optional names_field (name_values <$> o) = Some o.
Proof.
  intros Ho. apply read_optional. revert Ho. apply all_of_impl. intros m Hm. split; [|done].
  unfold names_field, map_entries, name_values.
  rewrite (all_some_map _ _ (fun kv => kv)), map_id; [by rewrite of_list_wf|]. apply Forall_forall. by intros [].
Qed.
Lemma read_strings o : optional (vec_field str_field) (strings <$> o) = Some o.
Proof. apply read_optional. destruct o as [l|]; [|done]. split; [|done]. apply read_vec, Forall_forall. done. Qed.

Section bodies.
Context `{Base64} `{JsonText}.

Lemma read_item m : wf_item m -> item_field (item_to_value m) = Some m.
Proof. intros Hm. unfold item_field. by rewrite item_from_to_value. Qed.
Lemma read_values o : all_of wf_item o -> optional values_field (item_to_value <$> o) = Some o.
Proof. intros Ho. apply read_optional. revert Ho. apply all_of_impl. intros m Hm. split; [by apply read_item | done]. Qed.
Lemma read_opt_item o : all_of wf_item o -> optional item_field (item_to_value <$> o) = Some o.
Proof. exact (read_values o). Qed.
Lemma read_items l : Forall wf_item l -> vec_field item_field (VArray (map item_to_value l)) = Some l.
Proof. intros Hl. apply read_vec. apply (Forall_impl _ _ _ Hl). exact read_item. Qed.

Lemma read_hash_map {A} (de : Value -> option A) enc (m : btree A) :
  Forall (fun kv => de (enc kv.2) = Some kv.2) m ->
  hash_map_field de (VObject (map (fun kv => (kv.1, enc kv.2)) m)) = Some (hash_order m).
Proof.
  intros Hm. unfold hash_map_field, map_entries. rewrite (all_some_map _ _ (fun kv => kv)), map_id; [done|].
  apply (Forall_impl _ _ _ Hm). intros [k a] Ha. simpl in *. by rewrite Ha.
Qed.

(** The requests of each type that can be sent. *)
Definition wf_put_request (r : PutItemRequest) : Prop :=
  wf_item (put_item r) /\ all_of wf_names (put_expression_attribute_names r) /\
  all_of wf_item (put_expression_attribute_values r).
Definition wf_delete_request (r : DeleteItemRequest) : Prop :=
  wf_item (delete_key r) /\ all_of wf_names (delete_expression_attribute_names r) /\
  all_of wf_item (delete_expression_attribute_values r).
Definition wf_update_request (r : UpdateItemRequest) : Prop :=
  wf_item (update_key r) /\ all_of wf_names (update_expression_attribute_names r) /\
  all_of wf_item (update_expression_attribute_values r).
Definition wf_query_request (r : QueryRequest) : Prop :=
  all_of wf_names (query_expression_attribute_names r) /\ all_of wf_item (query_expression_attribute_values r) /\
  all_of fits_u32 (query_limit r) /\ all_of wf_item (query_exclusive_start_key r).
Definition wf_scan_request (r : ScanRequest) : Prop :=
  all_of fits_u32 (scan_segment r) /\ all_of fits_u32 (scan_total_segments r) /\ all_of fits_u32 (scan_limit r) /\
  all_of wf_item (scan_exclusive_start_key r) /\ all_of wf_names (scan_expression_attribute_names r) /\
  all_of wf_item (scan_expression_attribute_values r).
Definition wf_keys_request (r : KeysAndAttributes) : Prop :=
  Forall wf_item (ka_keys r) /\ all_of wf_names (ka_expression_attribute_names r).
Definition wf_write_request (r : WriteRequest) : Prop :=
  all_of (fun p => wf_item (pr_item p)) (wr_put_request r) /\ all_of (fun d => wf_item (dr_key d)) (wr_delete_request r).
Definition wf_get_request (r : Get) : Prop := wf_item (tg_key r) /\ all_of wf_names (tg_expression_attribute_names r).
Definition wf_transact_write (r : TransactWriteItem) : Prop :=
  all_of (fun p => wf_item (tp_item p) /\ all_of wf_names (tp_expression_attribute_names p) /\
                   all_of wf_item (tp_expression_attribute_values p)) (twi_put r) /\
  all_of (fun p => wf_item (td_key p) /\ all_of wf_names (td_expression_attribute_names p) /\
                   all_of wf_item (td_expression_attribute_values p)) (twi_delete r) /\
  all_of (fun p => wf_item (tu_key p) /\ all_of wf_names (tu_expression_attribute_names p) /\
                   all_of wf_item (tu_expression_attribute_values p)) (twi_update r) /\
  all_of (fun p => wf_item (tc_key p) /\ all_of wf_names (tc_expression_attribute_names p) /\
                   all_of wf_item (tc_expression_attribute_values p)) (twi_condition_check r).

(** The bodies. *)
Definition put_item_body (r : PutItemRequest) : list (string * option Value) :=
  [("TableName", Some (VString (put_table_name r))); ("Item", Some (item_to_value (put_item r)));
   ("ExpressionAttributeNames", name_values <$> put_expression_attribute_names r);
   ("ExpressionAttributeValues", item_to_value <$> put_expression_attribute_values r);
   ("ConditionExpression", VString <$> put_condition_expression r); ("ReturnValues", VString <$> put_return_values r)].
Definition get_item_body (r : GetItemRequest) : list (string * option Value) :=
  [("TableName", Some (VString (get_table_name r))); ("Key", Some (item_to_value (get_key r)))].
Definition delete_item_body (r : DeleteItemRequest) : list (string * option Value) :=
  [("TableName", Some (VString (delete_table_name r))); ("Key", Some (item_to_value (delete_key r)));
   ("ExpressionAttributeNames", name_values <$> delete_expression_attribute_names r);
   ("ExpressionAttributeValues", item_to_value <$> delete_expression_attribute_values r);
   ("ConditionExpression", VString <$> delete_condition_expression r);
   ("ReturnValues", VString <$> delete_return_values r)].
Definition update_item_body (r : UpdateItemRequest) : list (string * option Value) :=
  [("TableName", Some (VString (update_table_name r))); ("Key", Some (item_to_value (update_key r)));
   ("UpdateExpression", Some (VString (update_update_expression r)));
   ("ExpressionAttributeNames", name_values <$> update_expression_attribute_names r);
   ("ExpressionAttributeValues", item_to_value <$> update_expression_attribute_values r);
   ("ConditionExpression", VString <$> update_condition_expression r);
   ("ReturnValues", VString <$> update_return_values r)].
Definition query_body (r : QueryRequest) : list (string * option Value) :=
  [("TableName", Some (VString (query_table_name r)));
   ("KeyConditionExpression", Some (VString (query_key_condition_expression r)));
   ("ExpressionAttributeNames", name_values <$> query_expression_attribute_names r);
   ("ExpressionAttributeValues", item_to_value <$> query_expression_attribute_values r);
   ("IndexName", VString <$> query_index_name r); ("ConsistentRead", VBool <$> query_consistent_read r);
   ("Limit", number <$> query_limit r); ("ExclusiveStartKey", item_to_value <$> query_exclusive_start_key r);
   ("FilterExpression", VString <$> query_filter_expression r);
   ("ScanIndexForward", VBool <$> query_scan_index_forward r); ("Select", VString <$> query_select r);
   ("ProjectionExpression", VString <$> query_projection_expression r)].
Definition scan_body (r : ScanRequest) : list (string * option Value) :=
  [("TableName", Some (VString (scan_table_name r))); ("ConsistentRead", VBool <$> scan_consistent_read r);
   ("IndexName", VString <$> scan_index_name r); ("Segment", number <$> scan_segment r);
   ("TotalSegments", number <$> scan_total_segments r); ("Limit", number <$> scan_limit r);
   ("ExclusiveStartKey", item_to_value <$> scan_exclusive_start_key r);
   ("FilterExpression", VString <$> scan_filter_expression r);
   ("ExpressionAttributeNames", name_values <$> scan_expression_attribute_names r);
   ("ExpressionAttributeValues", item_to_value <$> scan_expression_attribute_values r);
   ("Select", VString <$> scan_select r); ("ProjectionExpression", VString <$> scan_projection_expression r)].
Definition keys_body (r : KeysAndAttributes) : Value :=
  object_of [("Keys", Some (VArray (map item_to_value (ka_keys r)))); ("ConsistentRead", VBool <$> ka_consistent_read r);
             ("ProjectionExpression", VString <$> ka_projection_expression r);
             ("ExpressionAttributeNames", name_values <$> ka_expression_attribute_names r);
             ("AttributesToGet", strings <$> ka_attributes_to_get r)] [].
Definition batch_get_body (items : btree KeysAndAttributes) (capacity : option string) : list (string * option Value) :=
  [("RequestItems", Some (VObject (map (fun kv => (kv.1, keys_body kv.2)) items)));
   ("ReturnConsumedCapacity", VString <$> capacity)].
Definition write_body (r : WriteRequest) : Value :=
  object_of [("PutRequest", (fun p => object_of [("Item", Some (item_to_value (pr_item p)))] []) <$> wr_put_request r);
             ("DeleteRequest", (fun d => object_of [("Key", Some (item_to_value (dr_key d)))] []) <$> wr_delete_request r)] [].
Definition batch_write_body (items : btree (list WriteRequest)) (capacity metrics : option string)
  : list (string * option Value) :=
  [("RequestItems", Some (VObject (map (fun kv => (kv.1, VArray (map write_body kv.2))) items)));
   ("ReturnConsumedCapacity", VString <$> capacity); ("ReturnItemCollectionMetrics", VString <$> metrics)].
Definition get_body (r : Get) : Value :=
  object_of [("TableName", Some (VString (tg_table_name r))); ("Key", Some (item_to_value (tg_key r)));
             ("ProjectionExpression", VString <$> tg_projection_expression r);
             ("ExpressionAttributeNames", name_values <$> tg_expression_attribute_names r)] [].
Definition transact_get_body (r : TransactGetItemsRequest) : list (string * option Value) :=
  [("TransactItems", Some (VArray (map (fun i => object_of [("Get", get_body <$> tgi_get i)] []) (tg_transact_items r))));
   ("ReturnConsumedCapacity", VString <$> tg_return_consumed_capacity r)].
Definition transact_put_body (p : TransactPut) : Value :=
  object_of [("TableName", Some (VString (tp_table_name p))); ("Item", Some (item_to_value (tp_item p)));
             ("ConditionExpression", VString <$> tp_condition_expression p);
             ("ExpressionAttributeNames", name_values <$> tp_expression_attribute_names p);
             ("ExpressionAttributeValues", item_to_value <$> tp_expression_attribute_values p);
             ("ReturnValuesOnConditionCheckFailure", VString <$> tp_return_values_on_condition_check_failure p)] [].
Definition transact_delete_body (p : TransactDelete) : Value :=
  object_of [("TableName", Some (VString (td_table_name p))); ("Key", Some (item_to_value (td_key p)));
             ("ConditionExpression", VString <$> td_condition_expression p);
             ("ExpressionAttributeNames", name_values <$> td_expression_attribute_names p);
             ("ExpressionAttributeValues", item_to_value <$> td_expression_attribute_values p);
             ("ReturnValuesOnConditionCheckFailure", VString <$> td_return_values_on_condition_check_failure p)] [].
Definition transact_update_body (p : TransactUpdate) : Value :=
  object_of [("TableName", Some (VString (tu_table_name p))); ("Key", Some (item_to_value (tu_key p)));
             ("UpdateExpression", Some (VString (tu_update_expression p)));
             ("ConditionExpression", VString <$> tu_condition_expression p);
             ("ExpressionAttributeNames", name_values <$> tu_expression_attribute_names p);
             ("ExpressionAttributeValues", item_to_value <$> tu_expression_attribute_values p);
             ("ReturnValuesOnConditionCheckFailure", VString <$> tu_return_values_on_condition_check_failure p)] [].
Definition transact_check_body (p : TransactConditionCheck) : Value :=
  object_of [("TableName", Some (VString (tc_table_name p))); ("Key", Some (item_to_value (tc_key p)));
             ("ConditionExpression", Some (VString (tc_condition_expression p)));
             ("ExpressionAttributeNames", name_values <$> tc_expression_attribute_names p);
             ("ExpressionAttributeValues", item_to_value <$> tc_expression_attribute_values p);
             ("ReturnValuesOnConditionCheckFailure", VString <$> tc_return_values_on_condition_check_failure p)] [].
Definition transact_item_body (i : TransactWriteItem) : Value :=
  object_of [("Put", transact_put_body <$> twi_put i); ("Delete", transact_delete_body <$> twi_delete i);
             ("Update", transact_update_body <$> twi_update i);
             ("ConditionCheck", transact_check_body <$> twi_condition_check i)] [].
Definition transact_write_body (r : TransactWriteItemsRequest) : list (string * option Value) :=
  [("TransactItems", Some (VArray (map transact_item_body (tw_transact_items r))));
   ("ClientRequestToken", VString <$> tw_client_request_token r);
   ("ReturnConsumedCapacity", VString <$> tw_return_consumed_capacity r);
   ("ReturnItemCollectionMetrics", VString <$> tw_return_item_collection_metrics r)].

(** Further fields, under names the struct does not have. *)
Definition other_fields (fields : list (string * option Value)) (extra : list (string * Value)) : Prop :=
  Forall (fun n => n ∉ BTreeMap.keys extra) fields.*1.

(** Reads the fields of an object, then each of them. *)
Ltac read_fields :=
  rewrite read_object;
    [ cbn [snd fmap list_fmap option_fmap option_map required]
    | reflexivity
    | apply (bool_decide_unpack _); vm_compute; exact I
    | done
    | first [assumption | apply Forall_forall; intros ? _; apply not_elem_of_nil] ];
  rewrite ?read_str, ?read_bool, ?read_strings;
  rewrite ?read_item, ?read_names, ?read_values, ?read_opt_item, ?read_u32, ?read_items by assumption;
  try reflexivity.
Ltac read_struct r := intros; destruct_and?; read_fields; try (by destruct r).

Lemma put_item_reads r extra : wf_put_request r -> other_fields (put_item_body r) extra ->
  put_item_request (object_of (put_item_body r) extra) = Some r.
Proof. unfold put_item_request, wf_put_request, other_fields, put_item_body. read_struct r. Qed.

Lemma get_item_reads r extra : wf_item (get_key r) -> other_fields (get_item_body r) extra ->
  get_item_request (object_of (get_item_body r) extra) = Some r.
Proof. unfold get_item_request, other_fields, get_item_body. read_struct r. Qed.

Lemma delete_item_reads r extra : wf_delete_request r -> other_fields (delete_item_body r) extra ->
  delete_item_request (object_of (delete_item_body r) extra) = Some r.
Proof. unfold delete_item_request, wf_delete_request, other_fields, delete_item_body. read_struct r. Qed.

Lemma update_item_reads r extra : wf_update_request r -> other_fields (update_item_body r) extra ->
  update_item_request (object_of (update_item_body r) extra) = Some r.
Proof. unfold update_item_request, wf_update_request, other_fields, update_item_body. read_struct r. Qed.

Lemma query_reads r extra : wf_query_request r -> other_fields (query_body r) extra ->
  query_request (object_of (query_body r) extra) = Some r.
Proof. unfold query_request, wf_query_request, other_fields, query_body. read_struct r. Qed.

Lemma scan_reads r extra : wf_scan_request r -> other_fields (scan_body r) extra ->
  scan_request (object_of (scan_body r) extra) = Some r.
Proof. unfold scan_request, wf_scan_request, other_fields, scan_body. read_struct r. Qed.

Lemma keys_read r : wf_keys_request r -> keys_and_attributes (keys_body r) = Some r.
Proof. unfold keys_and_attributes, wf_keys_request, keys_body. read_struct r. Qed.

Lemma get_reads r : wf_get_request r -> get_spec_request (get_body r) = Some r.
Proof. unfold get_spec_request, wf_get_request, get_body. read_struct r. Qed.

Lemma transact_put_reads r :
  wf_item (tp_item r) /\ all_of wf_names (tp_expression_attribute_names r) /\ all_of wf_item (tp_expression_attribute_values r) ->
  transact_put (transact_put_body r) = Some r.
Proof. unfold transact_put, transact_put_body. read_struct r. Qed.
Lemma transact_delete_reads r :
  wf_item (td_key r) /\ all_of wf_names (td_expression_attribute_names r) /\ all_of wf_item (td_expression_attribute_values r) ->
  transact_delete (transact_delete_body r) = Some r.
Proof. unfold transact_delete, transact_delete_body. read_struct r. Qed.
Lemma transact_update_reads r :
  wf_item (tu_key r) /\ all_of wf_names (tu_expression_attribute_names r) /\ all_of wf_item (tu_expression_attribute_values r) ->
  transact_update (transact_update_body r) = Some r.
Proof. unfold transact_update, transact_update_body. read_struct r. Qed.
Lemma transact_check_reads r :
  wf_item (tc_key r) /\ all_of wf_names (tc_expression_attribute_names r) /\ all_of wf_item (tc_expression_attribute_values r) ->
  transact_condition_check (transact_check_body r) = Some r.
Proof. unfold transact_condition_check, transact_check_body. read_struct r. Qed.

Lemma object_not_null fields extra : not_null (object_of fields extra).
Proof. done. Qed.

Lemma put_request_reads p : wf_item (pr_item p) -> put_request (object_of [("Item", Some (item_to_value (pr_item p)))] []) = Some p.
Proof. unfold put_request. read_struct p. Qed.
Lemma delete_request_reads d : wf_item (dr_key d) -> delete_request (object_of [("Key", Some (item_to_value (dr_key d)))] []) = Some d.
Proof. unfold delete_request. read_struct d. Qed.

(** An optional struct. *)
Lemma read_struct_field {A} (P : A -> Prop) (de : Value -> option A) enc o :
  (forall a, P a -> de (enc a) = Some a) -> (forall a, not_null (enc a)) -> all_of P o -> optional de (enc <$> o) = Some o.
Proof. intros Hd Hn Ho. apply read_optional. revert Ho. apply all_of_impl. auto. Qed.

Lemma write_request_reads r : wf_write_request r -> write_request (write_body r) = Some r.
Proof.
  intros [Hp Hd]. unfold write_request, write_body. read_fields.
  rewrite (read_struct_field _ _ _ _ put_request_reads) by done.
  rewrite (read_struct_field _ _ _ _ delete_request_reads) by done. by destruct r.
Qed.

Lemma transact_item_reads i : wf_transact_write i -> transact_write_item (transact_item_body i) = Some i.
Proof.
  intros (Hp & Hd & Hu & Hc). unfold transact_write_item, transact_item_body. read_fields.
  rewrite (read_struct_field _ _ _ _ transact_put_reads) by done.
  rewrite (read_struct_field _ _ _ _ transact_delete_reads) by done.
  rewrite (read_struct_field _ _ _ _ transact_update_reads) by done.
  rewrite (read_struct_field _ _ _ _ transact_check_reads) by done. by destruct i.
Qed.

Lemma transact_get_item_reads i :
  all_of wf_get_request (tgi_get i) -> transact_get_item (object_of [("Get", get_body <$> tgi_get i)] []) = Some i.
Proof.
  intros Hg. unfold transact_get_item. read_fields.
  rewrite (read_struct_field _ _ _ _ get_reads) by done. by destruct i.
Qed.

Lemma batch_get_reads (m : btree KeysAndAttributes) c extra :
  Forall (fun kv => wf_keys_request kv.2) m -> other_fields (batch_get_body m c) extra ->
  batch_get_item_request (object_of (batch_get_body m c) extra) = Some (mkBatchGetItemRequest (hash_order m) c).
Proof.
  unfold other_fields, batch_get_item_request, batch_get_body. intros Hm He. read_fields.
  rewrite read_hash_map by (apply (Forall_impl _ _ _ Hm); intros []; apply keys_read). done.
Qed.

Lemma batch_write_reads (m : btree (list WriteRequest)) c d extra :
  Forall (fun kv => Forall wf_write_request kv.2) m -> other_fields (batch_write_body m c d) extra ->
  batch_write_item_request (object_of (batch_write_body m c d) extra) = Some (mkBatchWriteItemRequest (hash_order m) c d).
Proof.
  unfold other_fields, batch_write_item_request, batch_write_body. intros Hm He. read_fields.
  rewrite (read_hash_map _ (fun l => VArray (map write_body l))); [done|].
  apply (Forall_impl _ _ _ Hm). intros [k l] Hl. apply read_vec, (Forall_impl _ _ _ Hl). exact write_request_reads.
Qed.

Lemma transact_get_reads r extra :
  Forall (fun i => all_of wf_get_request (tgi_get i)) (tg_transact_items r) -> other_fields (transact_get_body r) extra ->
  transact_get_items_request (object_of (transact_get_body r) extra) = Some r.
Proof.
  unfold other_fields, transact_get_items_request, transact_get_body. intros Hm He. read_fields.
  rewrite read_vec by (apply (Forall_impl _ _ _ Hm); exact transact_get_item_reads). by destruct r.
Qed.

Lemma transact_write_reads r extra :
  Forall wf_transact_write (tw_transact_items r) -> other_fields (transact_write_body r) extra ->
  transact_write_items_request (object_of (transact_write_body r) extra) = Some r.
Proof.
  unfold other_fields, transact_write_items_request, transact_write_body. intros Hm He. read_fields.
  rewrite read_vec by (apply (Forall_impl _ _ _ Hm); exact transact_item_reads). by destruct r.
Qed.

(** C37: every request of the ten types can be sent: the JSON object of its
    fields, with those that are [None] left out and with any fields of
    other names added, is decoded to exactly this request (the table map of a batch
    in the iteration order of the [HashMap]). *)
Theorem request_bodies_decode :
  (forall r extra, wf_put_request r -> other_fields (put_item_body r) extra ->
     put_item_request (object_of (put_item_body r) extra) = Some r) /\
  (forall r extra, wf_item (get_key r) -> other_fields (get_item_body r) extra ->
     get_item_request (object_of (get_item_body r) extra) = Some r) /\
  (forall r extra, wf_delete_request r -> other_fields (delete_item_body r) extra ->
     delete_item_request (object_of (delete_item_body r) extra) = Some r) /\
  (forall r extra, wf_update_request r -> other_fields (update_item_body r) extra ->
     update_item_request (object_of (update_item_body r) extra) = Some r) /\
  (forall r extra, wf_query_request r -> other_fields (query_body r) extra ->
     query_request (object_of (query_body r) extra) = Some r) /\
  (forall r extra, wf_scan_request r -> other_fields (scan_body r) extra ->
     scan_request (object_of (scan_body r) extra) = Some r) /\
  (forall m c extra, Forall (fun kv => wf_keys_request kv.2) m -> other_fields (batch_get_body m c) extra ->
     batch_get_item_request (object_of (batch_get_body m c) extra) = Some (mkBatchGetItemRequest (hash_order m) c)) /\
  (forall m c d extra, Forall (fun kv => Forall wf_write_request kv.2) m -> other_fields (batch_write_body m c d) extra ->
     batch_write_item_request (object_of (batch_write_body m c d) extra)
     = Some (mkBatchWriteItemRequest (hash_order m) c d)) /\
  (forall r extra, Forall (fun i => all_of wf_get_request (tgi_get i)) (tg_transact_items r) ->
     other_fields (transact_get_body r) extra ->
     transact_get_items_request (object_of (transact_get_body r) extra) = Some r) /\
  (forall r extra, Forall wf_transact_write (tw_transact_items r) -> other_fields (transact_write_body r) extra ->
     transact_write_items_request (object_of (transact_write_body r) extra) = Some r).
Proof.
  split_and!; auto using put_item_reads, get_item_reads, delete_item_reads, update_item_reads, query_reads, scan_reads,
    batch_get_reads, batch_write_reads, transact_get_reads, transact_write_reads.
Qed.
End bodies.
