(* ===== verification/Bench.v ===== *)
(** * The benchmark client (rekt-bench/src/main.rs)

    The workloads, the request each of them sends to a server, the keys it
    picks, the payloads, the seeding and the worker loop.  The client of
    rektifier and of DynamoDB local is [http_target]; the target that
    talks to PostgreSQL itself is not modelled.  [BenchPaths] proves that
    the server treats each workload the way its comment says. *)

From S2P Require Import Prelude RustStr BTree Json F64 Auth.

Inductive Workload : Type :=
| Workload_Put
| Workload_Get
| Workload_Mixed
| Workload_Delete
| Workload_PutCondInsertOnly
| Workload_PutAllOld
| Workload_DeleteCondExists
| Workload_DeleteAllOld
| Workload_UpdateDirectSet
| Workload_UpdateDirectInsertOnly
| Workload_UpdateDirectCond
| Workload_UpdateTxRmw
| Workload_UpdateTxRmwHot
| Workload_UpdateTxAddNum
| Workload_UpdateTxAddSet
| Workload_UpdateTxCondBeginsWith
| Workload_ScanFull
| Workload_ScanLimit
| Workload_ScanFiltered
| Workload_QueryPkOnly
| Workload_QuerySkRange
| Workload_QueryFiltered
| Workload_PutLsi
| Workload_PutGenGsi
| Workload_PutDwGsi
| Workload_PutMultiDwGsi
| Workload_QueryLsi
| Workload_QueryGenGsi
| Workload_QueryDwGsi.
#[export] Instance Workload_eq_dec : EqDecision Workload.
Proof. solve_decision. Defined.

Definition needs_working_set (w : Workload) : bool :=
  match w with
  | Workload_Put | Workload_Delete | Workload_UpdateDirectInsertOnly | Workload_PutCondInsertOnly => false
  | Workload_Get | Workload_Mixed | Workload_PutAllOld | Workload_DeleteCondExists | Workload_DeleteAllOld
  | Workload_UpdateDirectSet | Workload_UpdateDirectCond | Workload_UpdateTxRmw | Workload_UpdateTxAddNum
  | Workload_UpdateTxAddSet | Workload_UpdateTxCondBeginsWith | Workload_ScanFull | Workload_ScanLimit
  | Workload_ScanFiltered => true
  | Workload_UpdateTxRmwHot => false
  | Workload_QueryPkOnly | Workload_QuerySkRange | Workload_QueryFiltered => false
  | Workload_PutLsi | Workload_PutGenGsi | Workload_PutDwGsi | Workload_PutMultiDwGsi | Workload_QueryLsi
  | Workload_QueryGenGsi | Workload_QueryDwGsi => false
  end.

Definition needs_query_partition (w : Workload) : bool :=
  match w with
  | Workload_QueryPkOnly | Workload_QuerySkRange | Workload_QueryFiltered => true
  | _ => false
  end.

Definition index_table (w : Workload) : option string :=
  match w with
  | Workload_PutLsi | Workload_QueryLsi => Some "bench_lsi"
  | Workload_PutGenGsi | Workload_QueryGenGsi => Some "bench_gen_gsi"
  | Workload_PutDwGsi | Workload_QueryDwGsi => Some "bench_dw_gsi"
  | Workload_PutMultiDwGsi => Some "bench_multi_dw_gsi"
  | _ => None
  end.

Definition needs_index_partition (w : Workload) : bool :=
  match w with Workload_QueryLsi | Workload_QueryGenGsi | Workload_QueryDwGsi => true | _ => false end.

Definition BENCH_QUERY_PK : string := "q-bench-pk".
Definition BENCH_QUERY_PARTITION_SIZE : nat := 50.
Definition BENCH_QUERY_TABLE : string := "device_events".
Definition BENCH_INDEX_PK : string := "bench-idx-pk".
Definition BENCH_INDEX_PARTITION_SIZE : nat := 200.

(** ** Items *)

(** [json!({ .. })]. *)
Definition json_object (fields : list (string * Value)) : Value := VObject (BTreeMap.of_list fields).

Fixpoint repeat_str (n : nat) (s : string) : string :=
  match n with O => "" | S n => s +:+ repeat_str n s end.

(** [{n:0width$}]. *)
Definition zero_pad (width : nat) (n : N) : string :=
  let digits := usize_to_string n in repeat_str (width - String.length digits) "0" +:+ digits.

Definition full_item (pk : string) (payload : Value) : btree Value :=
  let m := BTreeMap.insert "id" (tagged "S" (VString pk)) [] in
  match payload with VObject p => BTreeMap.insert_all p m | _ => m end.

Definition make_payload (target_bytes : nat) : Value :=
  let fill_len := Nat.max (target_bytes - 60) 1 in
  json_object [("filler", tagged "S" (VString (repeat_str fill_len "x")))].

Definition seeded_payload (target_bytes : nat) : Value :=
  let fill_len := Nat.max (target_bytes - 120) 1 in
  json_object [("filler", tagged "S" (VString (repeat_str fill_len "x")));
               ("counter", tagged "N" (VString "0"));
               ("name", tagged "S" (VString "alice"))].

Definition tier_for_ts (ts : Z) : string :=
  match (ts mod 4)%Z with 0%Z => "bronze" | 1%Z => "silver" | 2%Z => "gold" | _ => "platinum" end.

Definition region_for_ts (ts : Z) : string :=
  match (ts mod 3)%Z with 0%Z => "us-east" | 1%Z => "eu-west" | _ => "ap-south" end.

Definition indexed_item (device : string) (ts : Z) : btree Value :=
  BTreeMap.of_list
    [("device_id", tagged "S" (VString device)); ("ts", tagged "N" (VString (i64_to_string ts)));
     ("score", tagged "N" (VString (i64_to_string ts))); ("tier", tagged "S" (VString (tier_for_ts ts)));
     ("region", tagged "S" (VString (region_for_ts ts)));
     ("bucket", tagged "N" (VString (i64_to_string (Z.rem ts 16))))].

Definition indexed_item_seed (device : string) (i : Z) : btree Value := indexed_item device i.

(** ** Targets *)

(** A call of a target: whether it returned [Ok], and what it leaves. *)
Definition Act (T : Type) : Type := T -> bool * T.

(** A loop with [?] over calls. *)
Fixpoint each {T : Type} (acts : list (Act T)) : Act T := fun t =>
  match acts with
  | [] => (true, t)
  | a :: acts => let '(ok, t') := a t in if ok then each acts t' else (false, t')
  end.

(** The methods of the trait. *)
Record Target (T : Type) : Type := mkTarget {
  t_put : string -> Value -> Act T;
  t_get : string -> Act T;
  t_delete : string -> Act T;
  t_put_cond_insert_only : string -> Value -> Act T;
  t_put_all_old : string -> Value -> Act T;
  t_delete_cond_exists : string -> Act T;
  t_delete_all_old : string -> Act T;
  t_update_fast_set : string -> Z -> Act T;
  t_update_fast_insert_only : string -> Value -> Act T;
  t_update_fast_cond : string -> Z -> Act T;
  t_update_slow_rmw_inc : string -> Z -> Act T;
  t_update_slow_add_num : string -> Z -> Act T;
  t_update_slow_add_set : string -> list string -> Act T;
  t_update_slow_cond_begins_with : string -> string -> string -> Act T;
  t_scan_full : Act T;
  t_scan_limit : N -> Act T;
  t_scan_filtered : N -> Act T;
  t_query_pk_only : string -> Act T;
  t_query_sk_range : string -> Z -> Z -> Act T;
  t_query_filtered : string -> Act T;
  t_seed_query_partition : string -> nat -> Act T;
  t_put_indexed : string -> string -> Z -> Act T;
  t_query_lsi : string -> string -> Z -> Z -> Act T;
  t_query_gsi : string -> string -> string -> Z -> Z -> Act T;
  t_seed_indexed_partition : string -> string -> nat -> Act T
}.
Arguments mkTarget {T}.
Arguments t_put {T}. Arguments t_get {T}. Arguments t_delete {T}. Arguments t_put_cond_insert_only {T}.
Arguments t_put_all_old {T}. Arguments t_delete_cond_exists {T}. Arguments t_delete_all_old {T}.
Arguments t_update_fast_set {T}. Arguments t_update_fast_insert_only {T}. Arguments t_update_fast_cond {T}.
Arguments t_update_slow_rmw_inc {T}. Arguments t_update_slow_add_num {T}. Arguments t_update_slow_add_set {T}.
Arguments t_update_slow_cond_begins_with {T}. Arguments t_scan_full {T}. Arguments t_scan_limit {T}.
Arguments t_scan_filtered {T}. Arguments t_query_pk_only {T}. Arguments t_query_sk_range {T}.
Arguments t_query_filtered {T}. Arguments t_seed_query_partition {T}. Arguments t_put_indexed {T}.
Arguments t_query_lsi {T}. Arguments t_query_gsi {T}. Arguments t_seed_indexed_partition {T}.

(** *** Requests over HTTP *)

Record HttpRequest : Type := mkHttpRequest { rq_target : string; rq_body : Value }.

Definition key_of (pk : string) : Value := json_object [("id", tagged "S" (VString pk))].
Definition n_value (z : Z) : Value := tagged "N" (VString (i64_to_string z)).
Definition s_value (s : string) : Value := tagged "S" (VString s).

Definition put (table pk : string) (payload : Value) : HttpRequest :=
  mkHttpRequest "DynamoDB_20120810.PutItem"
    (json_object [("TableName", VString table); ("Item", VObject (full_item pk payload))]).

Definition get (table pk : string) : HttpRequest :=
  mkHttpRequest "DynamoDB_20120810.GetItem" (json_object [("TableName", VString table); ("Key", key_of pk)]).

Definition delete (table pk : string) : HttpRequest :=
  mkHttpRequest "DynamoDB_20120810.DeleteItem" (json_object [("TableName", VString table); ("Key", key_of pk)]).

Definition put_cond_insert_only (table pk : string) (payload : Value) : HttpRequest :=
  mkHttpRequest "DynamoDB_20120810.PutItem"
    (json_object [("TableName", VString table); ("Item", VObject (full_item pk payload));
                  ("ConditionExpression", VString "attribute_not_exists(id)")]).

Definition put_all_old (table pk : string) (payload : Value) : HttpRequest :=
  mkHttpRequest "DynamoDB_20120810.PutItem"
    (json_object [("TableName", VString table); ("Item", VObject (full_item pk payload));
                  ("ReturnValues", VString "ALL_OLD")]).

Definition delete_cond_exists (table pk : string) : HttpRequest :=
  mkHttpRequest "DynamoDB_20120810.DeleteItem"
    (json_object [("TableName", VString table); ("Key", key_of pk);
                  ("ConditionExpression", VString "attribute_exists(id)")]).

Definition delete_all_old (table pk : string) : HttpRequest :=
  mkHttpRequest "DynamoDB_20120810.DeleteItem"
    (json_object [("TableName", VString table); ("Key", key_of pk); ("ReturnValues", VString "ALL_OLD")]).

Definition update_fast_set (table pk : string) (value : Z) : HttpRequest :=
  mkHttpRequest "DynamoDB_20120810.UpdateItem"
    (json_object [("TableName", VString table); ("Key", key_of pk); ("UpdateExpression", VString "SET #c = :v");
                  ("ExpressionAttributeNames", json_object [("#c", VString "counter")]);
                  ("ExpressionAttributeValues", json_object [(":v", n_value value)])]).

Definition update_fast_insert_only (table pk : string) (payload : Value) : HttpRequest :=
  let filler_value := default (s_value "") (value_get payload "filler") in
  mkHttpRequest "DynamoDB_20120810.UpdateItem"
    (json_object [("TableName", VString table); ("Key", key_of pk); ("UpdateExpression", VString "SET filler = :f");
                  ("ExpressionAttributeValues", json_object [(":f", filler_value)]);
                  ("ConditionExpression", VString "attribute_not_exists(id)")]).

Definition update_fast_cond (table pk : string) (value : Z) : HttpRequest :=
  mkHttpRequest "DynamoDB_20120810.UpdateItem"
    (json_object [("TableName", VString table); ("Key", key_of pk); ("UpdateExpression", VString "SET #c = :v");
                  ("ExpressionAttributeNames", json_object [("#c", VString "counter")]);
                  ("ExpressionAttributeValues", json_object [(":v", n_value value)]);
                  ("ConditionExpression", VString "attribute_exists(id)")]).

Definition update_slow_rmw_inc (table pk : string) (by_ : Z) : HttpRequest :=
  mkHttpRequest "DynamoDB_20120810.UpdateItem"
    (json_object [("TableName", VString table); ("Key", key_of pk); ("UpdateExpression", VString "SET #c = #c + :inc");
                  ("ExpressionAttributeNames", json_object [("#c", VString "counter")]);
                  ("ExpressionAttributeValues", json_object [(":inc", n_value by_)])]).

Definition update_slow_add_num (table pk : string) (by_ : Z) : HttpRequest :=
  mkHttpRequest "DynamoDB_20120810.UpdateItem"
    (json_object [("TableName", VString table); ("Key", key_of pk); ("UpdateExpression", VString "ADD #c :inc");
                  ("ExpressionAttributeNames", json_object [("#c", VString "counter")]);
                  ("ExpressionAttributeValues", json_object [(":inc", n_value by_)])]).

Definition update_slow_add_set (table pk : string) (items : list string) : HttpRequest :=
  mkHttpRequest "DynamoDB_20120810.UpdateItem"
    (json_object [("TableName", VString table); ("Key", key_of pk); ("UpdateExpression", VString "ADD tags :new");
                  ("ExpressionAttributeValues", json_object [(":new", tagged "SS" (VArray (map VString items)))])]).

Definition update_slow_cond_begins_with (table pk prefix marker : string) : HttpRequest :=
  mkHttpRequest "DynamoDB_20120810.UpdateItem"
    (json_object [("TableName", VString table); ("Key", key_of pk); ("UpdateExpression", VString "SET marker = :m");
                  ("ExpressionAttributeNames", json_object [("#n", VString "name")]);
                  ("ExpressionAttributeValues", json_object [(":m", s_value marker); (":p", s_value prefix)]);
                  ("ConditionExpression", VString "begins_with(#n, :p)")]).

Definition scan_full (table : string) : HttpRequest :=
  mkHttpRequest "DynamoDB_20120810.Scan" (json_object [("TableName", VString table)]).

Definition scan_limit (table : string) (limit : N) : HttpRequest :=
  mkHttpRequest "DynamoDB_20120810.Scan"
    (json_object [("TableName", VString table); ("Limit", VNumber (usize_to_string limit))]).

Definition scan_filtered (table : string) (limit : N) : HttpRequest :=
  mkHttpRequest "DynamoDB_20120810.Scan"
    (json_object [("TableName", VString table); ("Limit", VNumber (usize_to_string limit));
                  ("FilterExpression", VString "#c < :half");
                  ("ExpressionAttributeNames", json_object [("#c", VString "counter")]);
                  ("ExpressionAttributeValues", json_object [(":half", tagged "N" (VString "1"))])]).

Definition query_pk_only (pk : string) : HttpRequest :=
  mkHttpRequest "DynamoDB_20120810.Query"
    (json_object [("TableName", VString BENCH_QUERY_TABLE); ("KeyConditionExpression", VString "device_id = :pk");
                  ("ExpressionAttributeValues", json_object [(":pk", s_value pk)])]).

Definition query_sk_range (pk : string) (lo hi : Z) : HttpRequest :=
  mkHttpRequest "DynamoDB_20120810.Query"
    (json_object [("TableName", VString BENCH_QUERY_TABLE);
                  ("KeyConditionExpression", VString "device_id = :pk AND ts BETWEEN :lo AND :hi");
                  ("ExpressionAttributeValues",
                     json_object [(":pk", s_value pk); (":lo", n_value lo); (":hi", n_value hi)])]).

Definition query_filtered (pk : string) : HttpRequest :=
  mkHttpRequest "DynamoDB_20120810.Query"
    (json_object [("TableName", VString BENCH_QUERY_TABLE); ("KeyConditionExpression", VString "device_id = :pk");
                  ("FilterExpression", VString "flag = :on");
                  ("ExpressionAttributeValues", json_object [(":pk", s_value pk); (":on", s_value "on")])]).

Definition seed_query_row (pk : string) (i : nat) : HttpRequest :=
  let flag := if Nat.eqb (i mod 2) 0 then "on" else "off" in
  mkHttpRequest "DynamoDB_20120810.PutItem"
    (json_object [("TableName", VString BENCH_QUERY_TABLE);
                  ("Item", json_object [("device_id", s_value pk); ("ts", n_value (Z.of_nat i)); ("flag", s_value flag)])]).

Definition put_indexed (table device : string) (ts : Z) : HttpRequest :=
  mkHttpRequest "DynamoDB_20120810.PutItem"
    (json_object [("TableName", VString table); ("Item", VObject (indexed_item device ts))]).

Definition query_lsi (table pk : string) (lo hi : Z) : HttpRequest :=
  mkHttpRequest "DynamoDB_20120810.Query"
    (json_object [("TableName", VString table); ("IndexName", VString "by_device_score");
                  ("KeyConditionExpression", VString "device_id = :pk AND score BETWEEN :lo AND :hi");
                  ("ExpressionAttributeValues",
                     json_object [(":pk", s_value pk); (":lo", n_value lo); (":hi", n_value hi)])]).

Definition query_gsi (table index_name tier : string) (lo hi : Z) : HttpRequest :=
  mkHttpRequest "DynamoDB_20120810.Query"
    (json_object [("TableName", VString table); ("IndexName", VString index_name);
                  ("KeyConditionExpression", VString "tier = :t AND score BETWEEN :lo AND :hi");
                  ("ExpressionAttributeValues",
                     json_object [(":t", s_value tier); (":lo", n_value lo); (":hi", n_value hi)])]).

Definition seed_indexed_row (table pk : string) (i : nat) : HttpRequest :=
  mkHttpRequest "DynamoDB_20120810.PutItem"
    (json_object [("TableName", VString table); ("Item", VObject (indexed_item_seed pk (Z.of_nat i)))]).

(** The header part of [post]; the path is that of the endpoint. *)
Definition post_parts (path : string) (rq : HttpRequest) : Parts :=
  mkParts "POST" path None
    [("x-amz-target", Some (rq_target rq)); ("content-type", Some "application/x-amz-json-1.0");
     ("authorization", Some ("AWS4-HMAC-SHA256 Credential=local/20260101/us-east-1/dynamodb/aws4_request, " +:+
        "SignedHeaders=content-type;host;x-amz-target, Signature=deadbeef"))].

(** [HttpTarget]; [send] is [post]. *)
Definition http_target {T : Type} (send : HttpRequest -> Act T) (table : string) : Target T :=
  mkTarget
    (fun pk payload => send (put table pk payload))
    (fun pk => send (get table pk))
    (fun pk => send (delete table pk))
    (fun pk payload => send (put_cond_insert_only table pk payload))
    (fun pk payload => send (put_all_old table pk payload))
    (fun pk => send (delete_cond_exists table pk))
    (fun pk => send (delete_all_old table pk))
    (fun pk v => send (update_fast_set table pk v))
    (fun pk payload => send (update_fast_insert_only table pk payload))
    (fun pk v => send (update_fast_cond table pk v))
    (fun pk v => send (update_slow_rmw_inc table pk v))
    (fun pk v => send (update_slow_add_num table pk v))
    (fun pk items => send (update_slow_add_set table pk items))
    (fun pk prefix marker => send (update_slow_cond_begins_with table pk prefix marker))
    (send (scan_full table))
    (fun n => send (scan_limit table n))
    (fun n => send (scan_filtered table n))
    (fun pk => send (query_pk_only pk))
    (fun pk lo hi => send (query_sk_range pk lo hi))
    (fun pk => send (query_filtered pk))
    (fun pk n => each (map (fun i => send (seed_query_row pk i)) (seq 0 n)))
    (fun tbl device ts => send (put_indexed tbl device ts))
    (fun tbl pk lo hi => send (query_lsi tbl pk lo hi))
    (fun tbl index tier lo hi => send (query_gsi tbl index tier lo hi))
    (fun tbl pk n => each (map (fun i => send (seed_indexed_row tbl pk i)) (seq 0 n))).

(** ** The runner *)

(** [counter as i64]. *)
Definition as_i64 (n : N) : Z := if (n <? 2 ^ 63)%N then Z.of_N n else (Z.of_N n - 2 ^ 64)%Z.

Definition working_set_key (counter : N) (working_set : N) : string :=
  "bench-" +:+ zero_pad 8 (counter mod N.max working_set 1).

(** [format!("{prefix}{run_epoch_ms}-w{worker_id:02}-{counter:08}")]. *)
Definition fresh_key (prefix : string) (run_epoch_ms worker_id counter : N) : string :=
  prefix +:+ usize_to_string run_epoch_ms +:+ "-w" +:+ zero_pad 2 worker_id +:+ "-" +:+ zero_pad 8 counter.

Definition put_key (worker_id counter : N) : string :=
  "bench-w" +:+ zero_pad 2 worker_id +:+ "-" +:+ zero_pad 8 counter.

Section runner.
Context {T : Type} (target : Target T).

(** [workload.index_table().expect(..)]: the workloads that ask for it
    have one. *)
Definition dispatch_op (workload : Workload) (payload : Value) (worker_id counter working_set run_epoch_ms : N) : Act T :=
  let ws := working_set_key counter working_set in
  let table := default "" (index_table workload) in
  match workload with
  | Workload_Put => t_put target (put_key worker_id counter) payload
  | Workload_Get => t_get target ws
  | Workload_Mixed =>
      if (counter mod 2 =? 0)%N then t_put target (put_key worker_id counter) payload else t_get target ws
  | Workload_Delete => t_delete target (fresh_key "del-" run_epoch_ms worker_id counter)
  | Workload_PutCondInsertOnly =>
      t_put_cond_insert_only target (fresh_key "pci-" run_epoch_ms worker_id counter) payload
  | Workload_PutAllOld => t_put_all_old target ws payload
  | Workload_DeleteCondExists => t_delete_cond_exists target ws
  | Workload_DeleteAllOld => t_delete_all_old target ws
  | Workload_UpdateDirectSet => t_update_fast_set target ws (as_i64 counter)
  | Workload_UpdateDirectInsertOnly =>
      t_update_fast_insert_only target (fresh_key "ins-" run_epoch_ms worker_id counter) payload
  | Workload_UpdateDirectCond => t_update_fast_cond target ws (as_i64 counter)
  | Workload_UpdateTxRmw => t_update_slow_rmw_inc target ws 1
  | Workload_UpdateTxRmwHot => t_update_slow_rmw_inc target "bench-hot" 1
  | Workload_UpdateTxAddNum => t_update_slow_add_num target ws 1
  | Workload_UpdateTxAddSet => t_update_slow_add_set target ws ["tag-" +:+ usize_to_string (counter mod 16)]
  | Workload_UpdateTxCondBeginsWith =>
      t_update_slow_cond_begins_with target ws "ali" ("m" +:+ usize_to_string counter)
  | Workload_ScanFull => t_scan_full target
  | Workload_ScanLimit => t_scan_limit target 20
  | Workload_ScanFiltered => t_scan_filtered target 50
  | Workload_QueryPkOnly => t_query_pk_only target BENCH_QUERY_PK
  | Workload_QuerySkRange => t_query_sk_range target BENCH_QUERY_PK 15 34
  | Workload_QueryFiltered => t_query_filtered target BENCH_QUERY_PK
  | Workload_PutLsi | Workload_PutGenGsi | Workload_PutDwGsi | Workload_PutMultiDwGsi =>
      let device := "dev-w" +:+ zero_pad 2 worker_id +:+ "-" +:+ usize_to_string (counter / 1024) in
      t_put_indexed target table device (as_i64 counter)
  | Workload_QueryLsi => t_query_lsi target table BENCH_INDEX_PK 80 99
  | Workload_QueryGenGsi => t_query_gsi target table "by_tier_score" "gold" 0 199
  | Workload_QueryDwGsi => t_query_gsi target table "by_tier_score" "gold" 0 199
  end.

(** The part of [run] before the workers start. *)
Definition prepare (workload : Workload) (item_size working_set : nat) : Act T :=
  let payload := seeded_payload item_size in
  each
    ((if needs_working_set workload
      then map (fun i => t_put target ("bench-" +:+ zero_pad 8 (N.of_nat i)) payload) (seq 0 working_set) else [])
     ++ (if bool_decide (workload = Workload_UpdateTxRmwHot) then [t_put target "bench-hot" payload] else [])
     ++ (if needs_query_partition workload
         then [t_seed_query_partition target BENCH_QUERY_PK BENCH_QUERY_PARTITION_SIZE] else [])
     ++ (if needs_index_partition workload
         then [t_seed_indexed_partition target (default "" (index_table workload)) BENCH_INDEX_PK
                 BENCH_INDEX_PARTITION_SIZE] else [])).

(** *** One worker *)

(** What a worker adds to the statistics: operations and errors counted,
    and the latencies it hands to the histogram, each at least one
    microsecond. *)
Record Stats : Type := mkStats { s_ops : N; s_errors : N; s_samples : list N }.

Definition merge_stats (s l : Stats) : Stats :=
  mkStats (s_ops s + s_ops l) (s_errors s + s_errors l) (s_samples s ++ s_samples l).

(** [ticks] are the instant at the head of each iteration and the latency
    measured in it; the loop ends at the first instant past [run_until]. *)
Fixpoint worker_loop (workload : Workload) (payload : Value) (worker_id working_set run_epoch_ms : N)
    (warmup_until run_until : N) (ticks : list (N * N)) (counter : N) (local : Stats) (t : T) : Stats * T :=
  match ticks with
  | [] => (local, t)
  | (now, elapsed_us) :: ticks =>
      if (run_until <=? now)%N then (local, t)
      else
        let recording := (warmup_until <=? now)%N in
        let '(ok, t) := dispatch_op workload payload worker_id counter working_set run_epoch_ms t in
        let local :=
          if recording then
            if ok then mkStats (s_ops local + 1) (s_errors local) (s_samples local ++ [N.max elapsed_us 1])
            else mkStats (s_ops local + 1) (s_errors local + 1) (s_samples local)
          else local in
        worker_loop workload payload worker_id working_set run_epoch_ms warmup_until run_until ticks
          ((counter + 1) mod 2 ^ 64)%N local t
  end.
End runner.

Definition workload_label (w : Workload) : string :=
  match w with
  | Workload_Put => "PutItem"
  | Workload_Get => "GetItem"
  | Workload_Mixed => "mixed-50-50"
  | Workload_Delete => "DeleteItem (unconditional)"
  | Workload_PutCondInsertOnly => "PutItem-cond-insert-only"
  | Workload_PutAllOld => "PutItem-all-old"
  | Workload_DeleteCondExists => "DeleteItem-cond-attribute-exists"
  | Workload_DeleteAllOld => "DeleteItem-all-old"
  | Workload_UpdateDirectSet => "UpdateItem-direct-set (3a)"
  | Workload_UpdateDirectInsertOnly => "UpdateItem-direct-insert-only (4c)"
  | Workload_UpdateDirectCond => "UpdateItem-direct-cond (4d)"
  | Workload_UpdateTxRmw => "UpdateItem-tx-rmw (3b spread)"
  | Workload_UpdateTxRmwHot => "UpdateItem-tx-rmw-hot (3b hot-key)"
  | Workload_UpdateTxAddNum => "UpdateItem-tx-add-num (5)"
  | Workload_UpdateTxAddSet => "UpdateItem-tx-add-set (5)"
  | Workload_UpdateTxCondBeginsWith => "UpdateItem-tx-cond-begins-with (4e)"
  | Workload_ScanFull => "Scan (no limit)"
  | Workload_ScanLimit => "Scan (limit=20)"
  | Workload_ScanFiltered => "Scan (limit=50 + filter)"
  | Workload_QueryPkOnly => "Query (pk-only)"
  | Workload_QuerySkRange => "Query (sk range)"
  | Workload_QueryFiltered => "Query (pk + filter)"
  | Workload_PutLsi => "PutItem (table with 1 LSI)"
  | Workload_PutGenGsi => "PutItem (table with 1 CT-time GSI)"
  | Workload_PutDwGsi => "PutItem (table with 1 DualWrite GSI)"
  | Workload_PutMultiDwGsi => "PutItem (table with 3 DualWrite GSIs)"
  | Workload_QueryLsi => "Query (LSI by_device_score)"
  | Workload_QueryGenGsi => "Query (Generated GSI by_tier_score)"
  | Workload_QueryDwGsi => "Query (DualWrite GSI by_tier_score)"
  end.
