(* ===== verification/BenchPaths.v ===== *)
(** * The server under the benchmark

    What the server does with the requests of [Bench]: every workload is
    accepted and becomes exactly the call of the storage layer that its
    comment in the source names; and the increments of the hot row are
    counted, over every backend that meets its contract. *)

From S2P Require Import Prelude RustStr BTree Json Attr Base64Std Ast Winnow Parser ParserFuel.
From S2P Require Import ParserRoundTrip Reserved Substitute F64 EvalCondition EvalUpdate Storage Operations Schema Errors.
From S2P Require Import Plan Keys Checks KeyCondition Paging Projection Materialize Translate Catalog ApiError.
From S2P Require Import Backend Server ServerCorrect Auth RequestJson Bench.

Section paths.
Context `{Winnow} `{Base64} `{SerdeJson} `{JsonText}.
Context {St : Type} `{Backend St} (state : AppState) (ddl_handler : string -> option (bytes -> Run St Response)).
(** The text of a body, the path of the endpoint, a panic's payload. *)
Context (text : Value -> bytes) (path panic : string).

(** [post] to a server that runs the permissive chain. *)
Definition post (rq : HttpRequest) : Act St := fun st =>
  let '(r, st') := serve state ddl_handler permissive_only tt panic (post_parts path rq) (text (rq_body rq)) st in
  ((200 <=? resp_status r)%N && (resp_status r <? 300)%N, st').

(** A handler's answer as the client sees it. *)
Definition observed (h : Run St Response) : Act St := fun st =>
  let '(r, st') := respond panic h st in ((200 <=? resp_status r)%N && (resp_status r <? 300)%N, st').

Definition users_schema (s : TableSchema) : Prop :=
  pk_attr s = "id" /\ pk_type s = KeyType_S /\ sk_attr s = None.

Definition no_attributes : Run St Response := ret_result (Ok (attributes_response None)).

(** The payload of the fresh rows. *)
Definition filled (filler : string) : Value := json_object [("filler", s_value filler)].

Context (table : string) (entry : TableEntry).
Let s := te_schema entry.

Hypothesis Hentry : require_serveable (app_catalog state) table = Ok entry.

(** *** From a decoded request to the call *)

Lemma run_put body req plan st :
  de_put_item body = inr req -> put_table_name req = table -> translate_put_item req s = Ok plan ->
  handle_put_item state body st =
  (let! old_item := backend_call
     match pp_condition plan with
     | None => put_item_raw (write_shape s) (pp_pk plan) (pp_sk plan) (pp_item_json plan)
     | Some cp => put_with_condition_raw (write_shape s) (pp_pk plan) (pp_sk plan) (pp_item_json plan)
                    (fun existing => evaluate_condition existing (cp_condition cp))
     end in
   let! attributes := ret_result (put_delete_attributes (pp_return_values plan) old_item) in
   ret_result (Ok (attributes_response attributes))) st.
Proof.
  intros Hd Ht Hp. unfold handle_put_item, parse_request. rewrite Hd, bind_ok, Ht, Hentry, bind_ok.
  unfold translated. fold s. by rewrite Hp.
Qed.

Lemma run_delete body req plan st :
  de_delete_item body = inr req -> delete_table_name req = table -> translate_delete_item req s = Ok plan ->
  handle_delete_item state body st =
  (let! old_item := backend_call
     match dp_condition plan with
     | None => delete_item_raw (write_shape s) (dp_pk plan) (dp_sk plan)
     | Some cp => delete_with_condition_raw (write_shape s) (dp_pk plan) (dp_sk plan)
                    (fun existing => evaluate_condition existing (cp_condition cp))
     end in
   let! attributes := ret_result (put_delete_attributes (dp_return_values plan) old_item) in
   ret_result (Ok (attributes_response attributes))) st.
Proof.
  intros Hd Ht Hp. unfold handle_delete_item, parse_request. rewrite Hd, bind_ok, Ht, Hentry, bind_ok.
  unfold translated. fold s. by rewrite Hp.
Qed.

Lemma put_item_plan pk (m : Item) names values cond ret cp mode :
  users_schema s -> BTreeMap.get "id" m = Some (S_ pk) ->
  resolve_put_delete_return_values ret "PutItem" = Ok mode ->
  translate_condition cond (default [] names) (default [] values) s = Ok cp ->
  translate_put_item (mkPutItemRequest table m names values cond ret) s
  = Ok (mkPutItemPlan (KeyValue_S pk) None (item_to_value m) cp mode).
Proof.
  intros (Hpk & Hpt & Hsk) Hg Hm Hc. unfold translate_put_item, extract_key_pair, extract_key. simpl.
  rewrite Hpk, Hg, Hpt, Hsk. simpl. rewrite Hm. simpl. by rewrite Hc.
Qed.

(** *** The expressions *)

Notation named n := (mkRawPath [RawPathSegment_Name n]).
Notation aliased n := (mkRawPath [RawPathSegment_NameRef n]).

Lemma parse_printed t c : wf_condition c = true -> t = print_condition c -> parse_condition_expression t = Ok c.
Proof. intros Hc ->. apply parse_cond_top; [by apply show_condition_graph|]. apply parse_or_expr; [done|]. by left. Qed.

Definition id_missing : Condition := Condition_AttributeNotExists (name_path "id").
Definition id_there : Condition := Condition_AttributeExists (name_path "id").
Definition name_starts (prefix : string) : Condition := Condition_BeginsWith (name_path "name") (Operand_Value (S_ prefix)).
Definition counter_below : Condition := Condition_Compare Lt_ (Operand_Path (name_path "counter")) (Operand_Value (N_ "1")).
Definition flag_on : Condition := Condition_Compare Eq_ (Operand_Path (name_path "flag")) (Operand_Value (S_ "on")).

(** What a condition text becomes, once it is parsed and substituted. *)
Lemma condition_plan t raw c names values :
  is_blank t = false -> wf_condition raw = true -> t = print_condition raw ->
  substitute_condition names values raw = Ok c -> check_condition_paths_top_level c = Ok tt ->
  translate_condition (Some t) names values s = Ok (Some (mkConditionPlan (classify_condition c s) c)).
Proof.
  intros Hb Hw Ht Hs Hc. unfold translate_condition. rewrite Hb, (parse_printed t raw Hw Ht). cbn [map_err].
  rewrite Hs. cbn [map_err]. by rewrite Hc.
Qed.

Lemma id_missing_plan names values : users_schema s ->
  translate_condition (Some "attribute_not_exists(id)") names values s
  = Ok (Some (mkConditionPlan ConditionRouting_InsertOnlyOnPk id_missing)).
Proof.
  intros (Hpk & _). rewrite (condition_plan _ (RawCondition_AttributeNotExists (named "id")) id_missing) by (vm_compute; reflexivity).
  unfold classify_condition, id_missing. by rewrite Hpk.
Qed.

Lemma id_there_plan names values :
  translate_condition (Some "attribute_exists(id)") names values s
  = Ok (Some (mkConditionPlan ConditionRouting_SimpleSql id_there)).
Proof. by rewrite (condition_plan _ (RawCondition_AttributeExists (named "id")) id_there) by (vm_compute; reflexivity). Qed.

Lemma name_starts_plan marker prefix :
  translate_condition (Some "begins_with(#n, :p)") [("#n", "name")] [(":m", S_ marker); (":p", S_ prefix)] s
  = Ok (Some (mkConditionPlan ConditionRouting_NeedsTx (name_starts prefix))).
Proof.
  by rewrite (condition_plan _ (RawCondition_BeginsWith (aliased "n") (v_ref "p")) (name_starts prefix))
    by (vm_compute; reflexivity).
Qed.

Lemma counter_below_plan :
  translate_condition (Some "#c < :half") [("#c", "counter")] [(":half", N_ "1")] s
  = Ok (Some (mkConditionPlan ConditionRouting_SimpleSql counter_below)).
Proof.
  by rewrite (condition_plan _ (RawCondition_Compare Lt_ (RawOperand_Path (aliased "c")) (v_ref "half")) counter_below)
    by (vm_compute; reflexivity).
Qed.

Lemma flag_on_plan pk :
  translate_condition (Some "flag = :on") [] [(":on", S_ "on"); (":pk", S_ pk)] s
  = Ok (Some (mkConditionPlan ConditionRouting_SimpleSql flag_on)).
Proof.
  by rewrite (condition_plan _ (RawCondition_Compare Eq_ (RawOperand_Path (named "flag")) (v_ref "on")) flag_on)
    by (vm_compute; reflexivity).
Qed.

(** *** Updates *)

Definition users_key (pk : string) : Item := [("id", S_ pk)].

Lemma update_plan pk t raw e names values cond cp :
  users_schema s -> wf_update raw = true -> t = print_update raw ->
  substitute_update (default [] names) (default [] values) raw = Ok e -> is_empty_update e = false ->
  check_update_expression e s = Ok tt ->
  translate_condition cond (default [] names) (default [] values) s = Ok cp ->
  translate_update_item (mkUpdateItemRequest table (users_key pk) t names values cond None) s
  = Ok (mkUpdateItemPlan (KeyValue_S pk) None e cp ReturnValuesMode_None).
Proof.
  intros (Hpk & Hpt & Hsk) Hw -> Hs He Hk Hc. unfold translate_update_item. cbn [update_return_values update_key
    update_update_expression update_expression_attribute_names update_expression_attribute_values update_condition_expression].
  assert (extract_key_pair (users_key pk) s = Ok (KeyValue_S pk, None)) as ->.
  { unfold extract_key_pair, extract_key, users_key. by rewrite Hpk, Hpt, Hsk. }
  assert (reject_extra_key_attrs (users_key pk) s = Ok tt) as ->.
  { unfold reject_extra_key_attrs, is_key_attr, users_key. cbn. by rewrite Hpk. }
  rewrite (update_round_trip raw Hw). cbn [map_err resolve_update_return_values eqb orb]. 
  rewrite Hs. cbn [map_err]. rewrite He, Hk. simpl. by rewrite Hc.
Qed.

(** The end of [handle_update_item]. *)
Definition run_plan (plan : UpdateItemPlan) (key : Item) : Run St Response :=
  if needs_slow_path plan then dispatch_slow_path s plan key
  else
    let! outcome :=
      match up_condition plan with
      | None =>
          let! prims := translated (materialize_simple_update plan key) in
          backend_call (update_simple_raw (write_shape s) (up_pk plan) (up_sk plan) (sup_insert_item prims)
                          (sup_sets prims) (sup_removes prims))
      | Some cp =>
          match cp_routing cp with
          | ConditionRouting_InsertOnlyOnPk =>
              let! insert_item := translated (materialize_insert_only_update plan key) in
              backend_call (update_insert_only_raw (write_shape s) insert_item)
          | ConditionRouting_SimpleSql =>
              let! prims := translated (materialize_simple_sql_update plan) in
              backend_call (update_with_simple_condition_raw (write_shape s) (up_pk plan) (up_sk plan)
                              (ssup_sets prims) (ssup_removes prims) (cp_condition cp))
          | ConditionRouting_NeedsTx => ret_result Panic
          end
      end in
    update_response plan outcome.

Lemma run_update body req plan st :
  de_update_item body = inr req -> update_table_name req = table -> translate_update_item req s = Ok plan ->
  handle_update_item state body st = run_plan plan (update_key req) st.
Proof.
  intros Hd Ht Hp. unfold handle_update_item, parse_request. rewrite Hd, bind_ok, Ht, Hentry, bind_ok.
  unfold translated at 1. fold s. by rewrite Hp.
Qed.

Lemma set_not_key n r : users_schema s -> n <> "id" -> check_set_rhs_paths_top_level r = Ok tt ->
  check_update_expression (mkUpdateExpression [mkSetClause (name_path n) r] [] [] []) s = Ok tt.
Proof.
  intros (Hpk & _ & Hsk) Hn Hr. unfold check_update_expression. cbn. unfold is_key_attr.
  rewrite Hpk, Hsk, (proj2 (String.eqb_neq n "id") Hn). cbn. by rewrite Hr.
Qed.

Lemma add_not_key n v : users_schema s -> n <> "id" -> check_add_value_type v = Ok tt ->
  check_update_expression (mkUpdateExpression [] [] [mkAddAction (name_path n) v] []) s = Ok tt.
Proof.
  intros (Hpk & _ & Hsk) Hn Hr. unfold check_update_expression. cbn. unfold is_key_attr.
  rewrite Hpk, Hsk, (proj2 (String.eqb_neq n "id") Hn). cbn. by rewrite Hr.
Qed.

Definition set_literal (n : string) (v : AttributeValue) : UpdateExpression :=
  mkUpdateExpression [mkSetClause (name_path n) (SetRhs_Operand (Operand_Value v))] [] [] [].
Definition increment (by_ : Z) : UpdateExpression :=
  mkUpdateExpression [mkSetClause (name_path "counter")
    (SetRhs_Plus (Operand_Path (name_path "counter")) (Operand_Value (N_ (i64_to_string by_))))] [] [] [].
Definition add_to (n : string) (v : AttributeValue) : UpdateExpression :=
  mkUpdateExpression [] [] [mkAddAction (name_path n) v] [].

(** The storage call of a slow update, and what is answered. *)
Definition slow_call (pk : string) (cond : option Condition) (e : UpdateExpression) : Run St Response :=
  let! _ := backend_call (update_general_rmw_raw (write_shape s) (KeyValue_S pk) None
              (slow_apply cond e (users_key pk) (fun err => BackendError_Other (eval_error_to_string err)))) in
  no_attributes.

Lemma run_slow body pk t names values cond e cp st :
  de_update_item body = inr (mkUpdateItemRequest table (users_key pk) t names values cond None) ->
  translate_update_item (mkUpdateItemRequest table (users_key pk) t names values cond None) s
    = Ok (mkUpdateItemPlan (KeyValue_S pk) None e cp ReturnValuesMode_None) ->
  needs_slow_path (mkUpdateItemPlan (KeyValue_S pk) None e cp ReturnValuesMode_None) = true ->
  handle_update_item state body st = slow_call pk (cp_condition <$> cp) e st.
Proof. intros Hd Hp Hn. rewrite (run_update _ _ _ _ Hd eq_refl Hp). unfold run_plan. by rewrite Hn. Qed.

(** *** Over HTTP *)

Lemma post_runs op h rq st :
  rq_target rq = TARGET_PREFIX +:+ op -> data_handler state op = Some h -> post rq st = observed (h (text (rq_body rq))) st.
Proof.
  intros Ht Hh. unfold post, observed, serve, dispatch, run_bind, ret_result.
  assert (strip_prefix TARGET_PREFIX (TARGET_PREFIX +:+ op) = Some op) as Hs by done.
  assert (header "x-amz-target" (post_parts path rq) = Some (Some (rq_target rq))) as -> by done.
  destruct (chain_verify permissive_only (post_parts path rq) (text (rq_body rq)) tt) as [r []] eqn:Ec.
  assert (exists id, r = Ok id) as [id ->] by (injection Ec as <-; by eexists).
  cbn [fst map_err ok_or]. rewrite Ht. cbn [ok_or]. rewrite Hs. cbn [ok_or]. by rewrite Hh.
Qed.

Lemma decoded {T} (de : Value -> option T) ty v r :
  json_read (text v) = inr v -> de v = Some r -> from_slice de ty (text v) = inr r.
Proof. intros Hv Hr. unfold from_slice. by rewrite Hv, Hr. Qed.

(** What reaches the server is the document that was sent. *)
Definition arrives (rq : HttpRequest) : Prop := json_read (text (rq_body rq)) = inr (rq_body rq).

Lemma observed_ext h h' st : h st = h' st -> observed h st = observed h' st.
Proof. intros E. unfold observed, respond. by rewrite E. Qed.

Lemma slow_path_of rq pk t raw names values cond e cp st :
  arrives rq -> users_schema s -> rq_target rq = TARGET_PREFIX +:+ "UpdateItem" ->
  update_item_request (rq_body rq) = Some (mkUpdateItemRequest table (users_key pk) t names values cond None) ->
  wf_update raw = true -> t = print_update raw ->
  substitute_update (default [] names) (default [] values) raw = Ok e -> is_empty_update e = false ->
  check_update_expression e s = Ok tt ->
  translate_condition cond (default [] names) (default [] values) s = Ok cp ->
  needs_slow_path (mkUpdateItemPlan (KeyValue_S pk) None e cp ReturnValuesMode_None) = true ->
  post rq st = observed (slow_call pk (cp_condition <$> cp) e) st.
Proof.
  intros Ha Hu Ht Hr Hw Hp Hs He Hk Hc Hn. rewrite (post_runs "UpdateItem" (handle_update_item state)) by done.
  apply observed_ext. eapply run_slow; [by eapply decoded | by eapply update_plan | done].
Qed.

Lemma rmw_path pk by_ st : let rq := update_slow_rmw_inc table pk by_ in
  arrives rq -> users_schema s -> post rq st = observed (slow_call pk None (increment by_)) st.
Proof.
  intros rq Ha Hu.
  apply (slow_path_of rq pk "SET #c = #c + :inc"
    (mkRawUpdateExpression [mkRawSetClause (aliased "c") (RawSetRhs_Plus (RawOperand_Path (aliased "c")) (v_ref "inc"))] [] [] [])
    (Some [("#c", "counter")]) (Some [(":inc", N_ (i64_to_string by_))]) None _ None); try done.
  - by apply set_not_key.
Qed.

Lemma add_num_path pk by_ st : let rq := update_slow_add_num table pk by_ in
  arrives rq -> users_schema s -> post rq st = observed (slow_call pk None (add_to "counter" (N_ (i64_to_string by_)))) st.
Proof.
  intros rq Ha Hu.
  apply (slow_path_of rq pk "ADD #c :inc" (mkRawUpdateExpression [] [] [mkRawAddAction (aliased "c") (v_ref "inc")] [])
    (Some [("#c", "counter")]) (Some [(":inc", N_ (i64_to_string by_))]) None _ None); try done.
  by apply add_not_key.
Qed.

Lemma add_set_path pk tag st : let rq := update_slow_add_set table pk [tag] in
  arrives rq -> users_schema s -> post rq st = observed (slow_call pk None (add_to "tags" (Ss_ [tag]))) st.
Proof.
  intros rq Ha Hu.
  apply (slow_path_of rq pk "ADD tags :new" (mkRawUpdateExpression [] [] [mkRawAddAction (named "tags") (v_ref "new")] [])
    None (Some [(":new", Ss_ [tag])]) None _ None); try done.
  by apply add_not_key.
Qed.

Lemma begins_with_path pk prefix marker st : let rq := update_slow_cond_begins_with table pk prefix marker in
  arrives rq -> users_schema s ->
  post rq st = observed (slow_call pk (Some (name_starts prefix)) (set_literal "marker" (S_ marker))) st.
Proof.
  intros rq Ha Hu.
  apply (slow_path_of rq pk "SET marker = :m"
    (mkRawUpdateExpression [mkRawSetClause (named "marker") (RawSetRhs_Operand (v_ref "m"))] [] [] [])
    (Some [("#n", "name")]) (Some [(":m", S_ marker); (":p", S_ prefix)]) (Some "begins_with(#n, :p)") _
    (Some (mkConditionPlan ConditionRouting_NeedsTx (name_starts prefix)))); try done.
  - by apply set_not_key.
  - apply name_starts_plan.
Qed.

(** The same for the paths of one statement. *)
Lemma fast_path_of rq pk t raw names values cond e cp h st :
  arrives rq -> users_schema s -> rq_target rq = TARGET_PREFIX +:+ "UpdateItem" ->
  update_item_request (rq_body rq) = Some (mkUpdateItemRequest table (users_key pk) t names values cond None) ->
  wf_update raw = true -> t = print_update raw ->
  substitute_update (default [] names) (default [] values) raw = Ok e -> is_empty_update e = false ->
  check_update_expression e s = Ok tt ->
  translate_condition cond (default [] names) (default [] values) s = Ok cp ->
  run_plan (mkUpdateItemPlan (KeyValue_S pk) None e cp ReturnValuesMode_None) (users_key pk) st = h st ->
  post rq st = observed h st.
Proof.
  intros Ha Hu Ht Hr Hw Hp Hs He Hk Hc Hh. rewrite (post_runs "UpdateItem" (handle_update_item state)) by done.
  apply observed_ext. rewrite <- Hh.
  apply (run_update _ (mkUpdateItemRequest table (users_key pk) t names values cond None)); [by eapply decoded | done | by eapply update_plan].
Qed.

Definition direct_set (pk : string) (value : Z) : Run St Response :=
  let! _ := backend_call (update_simple_raw (write_shape s) (KeyValue_S pk) None
              (VObject [("counter", n_value value); ("id", s_value pk)]) [("counter", n_value value)] []) in
  no_attributes.

Lemma fast_set_path pk value st : let rq := update_fast_set table pk value in
  arrives rq -> users_schema s -> post rq st = observed (direct_set pk value) st.
Proof.
  intros rq Ha Hu.
  apply (fast_path_of rq pk "SET #c = :v"
    (mkRawUpdateExpression [mkRawSetClause (aliased "c") (RawSetRhs_Operand (v_ref "v"))] [] [] [])
    (Some [("#c", "counter")]) (Some [(":v", N_ (i64_to_string value))]) None
    (set_literal "counter" (N_ (i64_to_string value))) None); try done.
  - by apply set_not_key.
Qed.

Definition direct_insert (pk filler : string) : Run St Response :=
  let! _ := backend_call (update_insert_only_raw (write_shape s) (VObject [("filler", s_value filler); ("id", s_value pk)])) in
  no_attributes.

Lemma insert_only_path pk filler st : let rq := update_fast_insert_only table pk (filled filler) in
  arrives rq -> users_schema s -> post rq st = observed (direct_insert pk filler) st.
Proof.
  intros rq Ha Hu.
  apply (fast_path_of rq pk "SET filler = :f"
    (mkRawUpdateExpression [mkRawSetClause (named "filler") (RawSetRhs_Operand (v_ref "f"))] [] [] [])
    None (Some [(":f", S_ filler)]) (Some "attribute_not_exists(id)")
    (set_literal "filler" (S_ filler)) (Some (mkConditionPlan ConditionRouting_InsertOnlyOnPk id_missing))); try done.
  - by apply set_not_key.
  - by apply id_missing_plan.
Qed.

Definition direct_cond (pk : string) (value : Z) : Run St Response :=
  let! _ := backend_call (update_with_simple_condition_raw (write_shape s) (KeyValue_S pk) None
              [("counter", n_value value)] [] id_there) in
  no_attributes.

Lemma fast_cond_path pk value st : let rq := update_fast_cond table pk value in
  arrives rq -> users_schema s -> post rq st = observed (direct_cond pk value) st.
Proof.
  intros rq Ha Hu.
  apply (fast_path_of rq pk "SET #c = :v"
    (mkRawUpdateExpression [mkRawSetClause (aliased "c") (RawSetRhs_Operand (v_ref "v"))] [] [] [])
    (Some [("#c", "counter")]) (Some [(":v", N_ (i64_to_string value))]) (Some "attribute_exists(id)")
    (set_literal "counter" (N_ (i64_to_string value))) (Some (mkConditionPlan ConditionRouting_SimpleSql id_there))); try done.
  - by apply set_not_key.
  - apply id_there_plan.
Qed.

(** *** Single items *)

Definition returning (mode : ReturnValuesMode) (call : Call St (option Value)) : Run St Response :=
  let! old_item := backend_call call in
  let! attributes := ret_result (put_delete_attributes mode old_item) in
  ret_result (Ok (attributes_response attributes)).

Lemma put_path_of rq pk (m : Item) cond ret cp mode st :
  arrives rq -> users_schema s -> rq_target rq = TARGET_PREFIX +:+ "PutItem" ->
  put_item_request (rq_body rq) = Some (mkPutItemRequest table m None None cond ret) ->
  BTreeMap.get "id" m = Some (S_ pk) -> resolve_put_delete_return_values ret "PutItem" = Ok mode ->
  translate_condition cond [] [] s = Ok cp ->
  post rq st = observed (returning mode
    match cp with
    | None => put_item_raw (write_shape s) (KeyValue_S pk) None (item_to_value m)
    | Some cp => put_with_condition_raw (write_shape s) (KeyValue_S pk) None (item_to_value m)
                   (fun existing => evaluate_condition existing (cp_condition cp))
    end) st.
Proof.
  intros Ha Hu Ht Hr Hg Hm Hc. rewrite (post_runs "PutItem" (handle_put_item state)) by done. apply observed_ext.
  by rewrite (run_put _ _ _ _ (decoded _ _ _ _ Ha Hr) eq_refl (put_item_plan pk m None None cond ret cp mode Hu Hg Hm Hc)).
Qed.

Lemma delete_path_of rq pk cond ret cp mode st :
  arrives rq -> users_schema s -> rq_target rq = TARGET_PREFIX +:+ "DeleteItem" ->
  delete_item_request (rq_body rq) = Some (mkDeleteItemRequest table (users_key pk) None None cond ret) ->
  resolve_put_delete_return_values ret "DeleteItem" = Ok mode ->
  translate_condition cond [] [] s = Ok cp ->
  post rq st = observed (returning mode
    match cp with
    | None => delete_item_raw (write_shape s) (KeyValue_S pk) None
    | Some cp => delete_with_condition_raw (write_shape s) (KeyValue_S pk) None
                   (fun existing => evaluate_condition existing (cp_condition cp))
    end) st.
Proof.
  intros Ha Hu Ht Hr Hm Hc. rewrite (post_runs "DeleteItem" (handle_delete_item state)) by done. apply observed_ext.
  rewrite (run_delete _ _ (mkDeleteItemPlan (KeyValue_S pk) None cp mode) _ (decoded _ _ _ _ Ha Hr) eq_refl); [done|].
  destruct Hu as (Hpk & Hpt & Hsk). unfold translate_delete_item, extract_key_pair, extract_key, reject_extra_key_attrs, is_key_attr.
  cbn. rewrite Hpk, Hpt, Hsk. cbn. rewrite Hm. cbn. by rewrite Hc.
Qed.

Definition item_of (pk filler : string) : Item := [("filler", S_ filler); ("id", S_ pk)].

Lemma put_path pk filler st : let rq := put table pk (filled filler) in
  arrives rq -> users_schema s ->
  post rq st = observed (returning ReturnValuesMode_None
    (put_item_raw (write_shape s) (KeyValue_S pk) None (item_to_value (item_of pk filler)))) st.
Proof. intros rq Ha Hu. by apply (put_path_of rq pk (item_of pk filler) None None None). Qed.

Lemma put_all_old_path pk filler st : let rq := put_all_old table pk (filled filler) in
  arrives rq -> users_schema s ->
  post rq st = observed (returning ReturnValuesMode_AllOld
    (put_item_raw (write_shape s) (KeyValue_S pk) None (item_to_value (item_of pk filler)))) st.
Proof. intros rq Ha Hu. by apply (put_path_of rq pk (item_of pk filler) None (Some "ALL_OLD") None). Qed.

Lemma put_cond_path pk filler st : let rq := put_cond_insert_only table pk (filled filler) in
  arrives rq -> users_schema s ->
  post rq st = observed (returning ReturnValuesMode_None
    (put_with_condition_raw (write_shape s) (KeyValue_S pk) None (item_to_value (item_of pk filler))
       (fun existing => evaluate_condition existing id_missing))) st.
Proof.
  intros rq Ha Hu.
  apply (put_path_of rq pk (item_of pk filler) (Some "attribute_not_exists(id)") None
           (Some (mkConditionPlan ConditionRouting_InsertOnlyOnPk id_missing))); try done. by apply id_missing_plan.
Qed.

Lemma delete_path pk st : let rq := delete table pk in
  arrives rq -> users_schema s ->
  post rq st = observed (returning ReturnValuesMode_None (delete_item_raw (write_shape s) (KeyValue_S pk) None)) st.
Proof. intros rq Ha Hu. by apply (delete_path_of rq pk None None None). Qed.

Lemma delete_all_old_path pk st : let rq := delete_all_old table pk in
  arrives rq -> users_schema s ->
  post rq st = observed (returning ReturnValuesMode_AllOld (delete_item_raw (write_shape s) (KeyValue_S pk) None)) st.
Proof. intros rq Ha Hu. by apply (delete_path_of rq pk None (Some "ALL_OLD") None). Qed.

Lemma delete_cond_path pk st : let rq := delete_cond_exists table pk in
  arrives rq -> users_schema s ->
  post rq st = observed (returning ReturnValuesMode_None
    (delete_with_condition_raw (write_shape s) (KeyValue_S pk) None
       (fun existing => evaluate_condition existing id_there))) st.
Proof.
  intros rq Ha Hu. apply (delete_path_of rq pk (Some "attribute_exists(id)") None
           (Some (mkConditionPlan ConditionRouting_SimpleSql id_there))); try done. apply id_there_plan.
Qed.

Definition get_call (pk : string) : Run St Response :=
  let! stored := backend_call (get_item_raw (shape s) (KeyValue_S pk) None) in
  let! item := ret_result match stored with
                          | Some v => let? i := decode_item invalid_item v in Ok (Some i)
                          | None => Ok None
                          end in
  ret_result (Ok (json_ok (VObject (opt_field "Item" (item_to_value <$> item))))).

Lemma get_path pk st : let rq := get table pk in
  arrives rq -> users_schema s -> post rq st = observed (get_call pk) st.
Proof.
  intros rq Ha Hu. rewrite (post_runs "GetItem" (handle_get_item state)) by done. apply observed_ext.
  unfold handle_get_item, parse_request, de_get_item, request_wire.
  rewrite (decoded get_item_request _ _ (mkGetItemRequest table (users_key pk)) Ha eq_refl).
  rewrite bind_ok. cbn [get_table_name]. rewrite Hentry, bind_ok. fold s.
  assert (translate_get_item (mkGetItemRequest table (users_key pk)) s = Ok (mkGetItemPlan (KeyValue_S pk) None)) as Hp.
  { destruct Hu as (Hpk & Hpt & Hsk). unfold translate_get_item, extract_key_pair, extract_key, reject_extra_key_attrs, is_key_attr.
    cbn. by rewrite Hpk, Hpt, Hsk. }
  unfold translated. by rewrite Hp.
Qed.

(** *** Scans *)

Definition scan_call (filter : option Condition) (limit : option N) : Run St Response :=
  let! outcome := backend_call (scan_raw (shape s) ((fun c row => evaluate_condition (Some row) c) <$> filter) limit None) in
  page_response s false None outcome.

Lemma scan_path_of rq limit filter names values cp st :
  arrives rq -> rq_target rq = TARGET_PREFIX +:+ "Scan" ->
  scan_request (rq_body rq) = Some (mkScanRequest table None None None None limit None filter names values None None) ->
  validate_opt_limit limit = Ok limit ->
  translate_condition filter (default [] names) (default [] values) s = Ok cp ->
  post rq st = observed (scan_call (cp_condition <$> cp) limit) st.
Proof.
  intros Ha Ht Hr Hl Hc. rewrite (post_runs "Scan" (handle_scan state)) by done. apply observed_ext.
  unfold handle_scan, parse_request, de_scan, request_wire. rewrite (decoded scan_request _ _ _ Ha Hr).
  rewrite bind_ok. cbn [scan_table_name]. rewrite Hentry, bind_ok. fold s.
  assert (translate_scan (mkScanRequest table None None None None limit None filter names values None None) s
          = Ok (mkScanPlan limit None None cp false None None)) as Hp.
  { unfold translate_scan. cbn -[translate_condition validate_opt_limit resolve_select_and_projection].
    rewrite Hl. cbn -[translate_condition resolve_select_and_projection]. by rewrite Hc. }
  unfold translated. rewrite Hp. by destruct cp.
Qed.

Lemma scan_full_path st : let rq := scan_full table in arrives rq -> post rq st = observed (scan_call None None) st.
Proof. intros rq Ha. by apply (scan_path_of rq None None None None None). Qed.

Lemma scan_limit_path st : let rq := scan_limit table 20 in arrives rq -> post rq st = observed (scan_call None (Some 20%N)) st.
Proof. intros rq Ha. by apply (scan_path_of rq (Some 20%N) None None None None). Qed.

Lemma scan_filtered_path st : let rq := scan_filtered table 50 in
  arrives rq -> post rq st = observed (scan_call (Some counter_below) (Some 50%N)) st.
Proof.
  intros rq Ha. apply (scan_path_of rq (Some 50%N) (Some "#c < :half") (Some [("#c", "counter")]) (Some [(":half", N_ "1")])
    (Some (mkConditionPlan ConditionRouting_SimpleSql counter_below))); try done. apply counter_below_plan.
Qed.

(** *** Queries *)

Definition events_schema : Prop :=
  pk_attr s = "device_id" /\ pk_type s = KeyType_S /\ sk_attr s = Some "ts" /\ sk_type s = Some KeyType_N.

Definition query_call (index : option IndexSort) (pk : string) (sk : option SkCondition) (filter : option Condition) : Run St Response :=
  let! outcome := backend_call (query_raw (build_index_shape s index) (KeyValue_S pk) sk None None
                                  ((fun c row => evaluate_condition (Some row) c) <$> filter) true) in
  page_response s false None outcome.

Lemma query_path_of rq t raw c index effective sort pk sk filter values cp st :
  arrives rq -> rq_target rq = TARGET_PREFIX +:+ "Query" ->
  query_request (rq_body rq)
    = Some (mkQueryRequest table t None (Some values) index None None None filter None None None) ->
  is_blank t = false -> parse_condition_expression t = Ok raw ->
  substitute_condition [] values raw = Ok c ->
  resolve_index_for_query s index = Ok (effective, sort) ->
  extract_key_condition c effective = Ok (mkQueryKeyBounds (KeyValue_S pk) sk) ->
  translate_condition filter [] values s = Ok cp ->
  post rq st = observed (query_call sort pk sk (cp_condition <$> cp)) st.
Proof.
  intros Ha Ht Hr Hb Hp Hs Hi He Hc. rewrite (post_runs "Query" (handle_query state)) by done. apply observed_ext.
  unfold handle_query, parse_request, de_query, request_wire. rewrite (decoded query_request _ _ _ Ha Hr).
  rewrite bind_ok. cbn [query_table_name]. rewrite Hentry, bind_ok. fold s.
  assert (translate_query (mkQueryRequest table t None (Some values) index None None None filter None None None) s
          = Ok (mkQueryPlan (KeyValue_S pk) sk None None cp true false None sort)) as Hq.
  { unfold translate_query. cbn [query_key_condition_expression query_index_name query_expression_attribute_names
      query_expression_attribute_values query_limit query_exclusive_start_key query_filter_expression
      query_scan_index_forward query_select query_projection_expression from_option id].
    cbv zeta.
    rewrite Hb, Hi. cbn beta iota. rewrite Hp. cbn [map_err]. rewrite Hs. cbn [map_err]. rewrite He.
    cbn [validate_opt_limit kb_pk kb_sk_condition]. rewrite Hc. done. }
  unfold translated. rewrite Hq. by destruct cp.
Qed.

Definition is_attr (n : string) (v : AttributeValue) : Condition :=
  Condition_Compare Eq_ (Operand_Path (name_path n)) (Operand_Value v).
Definition in_range (n : string) (lo hi : Z) : Condition :=
  Condition_Between (Operand_Path (name_path n)) (Operand_Value (N_ (i64_to_string lo))) (Operand_Value (N_ (i64_to_string hi))).

Lemma point_bounds eff a pk :
  pk_attr eff = a -> pk_type eff = KeyType_S ->
  extract_key_condition (is_attr a (S_ pk)) eff = Ok (mkQueryKeyBounds (KeyValue_S pk) None).
Proof.
  intros Ha Ht. unfold extract_key_condition, is_attr, match_pk_equality. cbn. by rewrite Ha, String.eqb_refl, Ht.
Qed.

Lemma range_bounds eff a b pk lo hi :
  pk_attr eff = a -> pk_type eff = KeyType_S -> sk_attr eff = Some b -> sk_type eff = Some KeyType_N ->
  extract_key_condition (Condition_And (is_attr a (S_ pk)) (in_range b lo hi)) eff
  = Ok (mkQueryKeyBounds (KeyValue_S pk)
          (Some (SkCondition_Between (KeyValue_N (i64_to_string lo)) (KeyValue_N (i64_to_string hi))))).
Proof.
  intros Ha Ht Hb Hbt. unfold extract_key_condition, is_attr, in_range, match_pk_equality, match_sk_predicate.
  cbn. rewrite Ha, String.eqb_refl, Ht, Hb, Hbt. cbn. by rewrite String.eqb_refl.
Qed.

(** The parse of [a = :x AND b BETWEEN :lo AND :hi]. *)
Definition raw_range (a x b : string) : RawCondition :=
  RawCondition_And (RawCondition_Compare Eq_ (RawOperand_Path (named a)) (v_ref x))
                   (RawCondition_Between (RawOperand_Path (named b)) (v_ref "lo") (v_ref "hi")).

Lemma parse_range t a x b :
  wf_condition (raw_range a x b) = true ->
  t = show_condition (RawCondition_Compare Eq_ (RawOperand_Path (named a)) (v_ref x))
        (" AND " +:+ show_condition (RawCondition_Between (RawOperand_Path (named b)) (v_ref "lo") (v_ref "hi")) "") ->
  parse_condition_expression t = Ok (raw_range a x b).
Proof. intros [Ha Hb]%andb_true_iff ->. by apply parse_plain_and. Qed.

Lemma query_pk_only_path pk st : let rq := query_pk_only pk in
  table = BENCH_QUERY_TABLE -> arrives rq -> events_schema -> post rq st = observed (query_call None pk None None) st.
Proof.
  intros rq Et Ha (Hpk & Hpt & _).
  apply (query_path_of rq "device_id = :pk" (RawCondition_Compare Eq_ (RawOperand_Path (named "device_id")) (v_ref "pk"))
    (is_attr "device_id" (S_ pk)) None s None pk None None [(":pk", S_ pk)] None); try done.
  - by rewrite Et.
  - by apply parse_printed.
  - by apply point_bounds.
Qed.

Lemma query_filtered_path pk st : let rq := query_filtered pk in
  table = BENCH_QUERY_TABLE -> arrives rq -> events_schema ->
  post rq st = observed (query_call None pk None (Some flag_on)) st.
Proof.
  intros rq Et Ha (Hpk & Hpt & _).
  apply (query_path_of rq "device_id = :pk" (RawCondition_Compare Eq_ (RawOperand_Path (named "device_id")) (v_ref "pk"))
    (is_attr "device_id" (S_ pk)) None s None pk None (Some "flag = :on") [(":on", S_ "on"); (":pk", S_ pk)]
    (Some (mkConditionPlan ConditionRouting_SimpleSql flag_on))); try done.
  - by rewrite Et.
  - by apply parse_printed.
  - by apply point_bounds.
  - apply flag_on_plan.
Qed.

Definition between (lo hi : Z) : option SkCondition :=
  Some (SkCondition_Between (KeyValue_N (i64_to_string lo)) (KeyValue_N (i64_to_string hi))).

Lemma query_sk_range_path pk lo hi st : let rq := query_sk_range pk lo hi in
  table = BENCH_QUERY_TABLE -> arrives rq -> events_schema ->
  post rq st = observed (query_call None pk (between lo hi) None) st.
Proof.
  intros rq Et Ha (Hpk & Hpt & Hsk & Hst).
  apply (query_path_of rq "device_id = :pk AND ts BETWEEN :lo AND :hi" (raw_range "device_id" "pk" "ts")
    (Condition_And (is_attr "device_id" (S_ pk)) (in_range "ts" lo hi)) None s None pk (between lo hi) None
    [(":hi", N_ (i64_to_string hi)); (":lo", N_ (i64_to_string lo)); (":pk", S_ pk)] None); try done.
  - by rewrite Et.
  - by apply parse_range.
  - by apply range_bounds.
Qed.

(** *** Index queries *)

Definition lsi_of (l : LsiSchema) : Prop :=
  BTreeMap.get "by_device_score" (lsis s) = Some l /\ lsi_serveable l = true /\
  lsi_sort_attr l = "score" /\ lsi_sort_type l = KeyType_N.
Definition lsi_sort (l : LsiSchema) : IndexSort :=
  mkIndexSort "by_device_score" None (Some (mkIndexColumn (lsi_sort_pg_col l) KeyType_N)).

Lemma query_lsi_path l pk lo hi st : let rq := query_lsi table pk lo hi in
  arrives rq -> events_schema -> lsi_of l -> post rq st = observed (query_call (Some (lsi_sort l)) pk (between lo hi) None) st.
Proof.
  intros rq Ha (Hpk & Hpt & _) (Hl & Hsv & Hla & Hlt).
  eapply (query_path_of rq "device_id = :pk AND score BETWEEN :lo AND :hi" (raw_range "device_id" "pk" "score")
    (Condition_And (is_attr "device_id" (S_ pk)) (in_range "score" lo hi)) (Some "by_device_score") _ _ pk (between lo hi) None
    [(":hi", N_ (i64_to_string hi)); (":lo", N_ (i64_to_string lo)); (":pk", S_ pk)] None); try done.
  - by apply parse_range.
  - unfold resolve_index_for_query. rewrite Hl, Hsv, Hla, Hlt. done.
  - by apply range_bounds.
Qed.

Definition gsi_of (g : GsiSchema) : Prop :=
  BTreeMap.get "by_tier_score" (lsis s) = None /\ BTreeMap.get "by_tier_score" (gsis s) = Some g /\ gsi_serveable g = true /\
  gsi_partition_attr g = "tier" /\ gsi_partition_type g = KeyType_S /\
  gsi_sort_attr g = Some "score" /\ gsi_sort_type g = Some KeyType_N.

Lemma query_gsi_path g tier lo hi st : let rq := query_gsi table "by_tier_score" tier lo hi in
  arrives rq -> gsi_of g ->
  exists sort, resolve_index_for_query s (Some "by_tier_score") = Ok sort /\
    post rq st = observed (query_call sort.2 tier (between lo hi) None) st.
Proof.
  intros rq Ha (Hn & Hg & Hsv & Hp & Hpt & Hsa & Hst).
  assert (exists sort, resolve_index_for_query s (Some "by_tier_score") = Ok sort /\
            pk_attr sort.1 = "tier" /\ pk_type sort.1 = KeyType_S /\ sk_attr sort.1 = Some "score" /\
            sk_type sort.1 = Some KeyType_N) as ([eff sort] & Hr & Ea & Eb & Ec & Ed).
  { unfold resolve_index_for_query. rewrite Hn, Hg, Hsv. eexists. split; [reflexivity|]. by rewrite Hp, Hpt, Hsa, Hst. }
  exists (eff, sort). split; [done|].
  apply (query_path_of rq "tier = :t AND score BETWEEN :lo AND :hi" (raw_range "tier" "t" "score")
    (Condition_And (is_attr "tier" (S_ tier)) (in_range "score" lo hi)) (Some "by_tier_score") eff sort tier (between lo hi) None
    [(":hi", N_ (i64_to_string hi)); (":lo", N_ (i64_to_string lo)); (":t", S_ tier)] None); try done.
  - by apply parse_range.
  - by apply range_bounds.
Qed.

(** *** Indexed puts *)

Definition indexed (device : string) (ts : Z) : Item :=
  [("bucket", N_ (i64_to_string (Z.rem ts 16))); ("device_id", S_ device); ("region", S_ (region_for_ts ts));
   ("score", N_ (i64_to_string ts)); ("tier", S_ (tier_for_ts ts)); ("ts", N_ (i64_to_string ts))].

Lemma put_indexed_path device ts st : let rq := put_indexed table device ts in
  arrives rq -> events_schema ->
  post rq st = observed (returning ReturnValuesMode_None
    (put_item_raw (write_shape s) (KeyValue_S device) (Some (KeyValue_N (i64_to_string ts)))
       (item_to_value (indexed device ts)))) st.
Proof.
  intros rq Ha (Hpk & Hpt & Hsk & Hst). rewrite (post_runs "PutItem" (handle_put_item state)) by done. apply observed_ext.
  rewrite (run_put _ (mkPutItemRequest table (indexed device ts) None None None None)
    (mkPutItemPlan (KeyValue_S device) (Some (KeyValue_N (i64_to_string ts))) (item_to_value (indexed device ts)) None
       ReturnValuesMode_None)); [done| by eapply decoded | done |].
  unfold translate_put_item, extract_key_pair, extract_key. cbn. by rewrite Hpk, Hpt, Hsk, Hst.
Qed.

(** ** Every workload *)

(** The table a workload addresses, and what its schema has to be. *)
Definition bench_table (users : string) (w : Workload) : string :=
  if needs_query_partition w then BENCH_QUERY_TABLE else default users (index_table w).

Definition bench_schema (w : Workload) : Prop :=
  match w with
  | Workload_QueryPkOnly | Workload_QuerySkRange | Workload_QueryFiltered
  | Workload_PutLsi | Workload_PutGenGsi | Workload_PutDwGsi | Workload_PutMultiDwGsi => events_schema
  | Workload_QueryLsi => events_schema /\ exists l, lsi_of l
  | Workload_QueryGenGsi | Workload_QueryDwGsi => exists g, gsi_of g
  | _ => users_schema s
  end.

(** The request a workload sends: what a target that only records keeps. *)
Definition bench_request (users : string) (w : Workload) (payload : Value) (worker counter ws epoch : N) : HttpRequest :=
  (dispatch_op (http_target (fun rq _ => (true, rq)) users) w payload worker counter ws epoch (scan_full users)).2.

Lemma dispatch_sends {T} (send : HttpRequest -> Act T) users w payload worker counter ws epoch t :
  dispatch_op (http_target send users) w payload worker counter ws epoch t
  = send (bench_request users w payload worker counter ws epoch) t.
Proof. unfold bench_request. destruct w; simpl; try done. by case_match. Qed.

(** The index a query names. *)
Definition index_sort (name : string) : option IndexSort :=
  match resolve_index_for_query s (Some name) with Ok (_, sort) => sort | _ => None end.

(** The storage call a workload is to cause, and nothing else. *)
Definition expected_call (w : Workload) (filler : string) (worker counter ws epoch : N) : Run St Response :=
  let row := working_set_key counter ws in
  let put_of pk := put_item_raw (write_shape s) (KeyValue_S pk) None (item_to_value (item_of pk filler)) in
  let new_put := returning ReturnValuesMode_None (put_of (put_key worker counter)) in
  match w with
  | Workload_Put => new_put
  | Workload_Get => get_call row
  | Workload_Mixed => if (counter mod 2 =? 0)%N then new_put else get_call row
  | Workload_Delete =>
      returning ReturnValuesMode_None
        (delete_item_raw (write_shape s) (KeyValue_S (fresh_key "del-" epoch worker counter)) None)
  | Workload_PutCondInsertOnly =>
      let pk := fresh_key "pci-" epoch worker counter in
      returning ReturnValuesMode_None
        (put_with_condition_raw (write_shape s) (KeyValue_S pk) None (item_to_value (item_of pk filler))
           (fun existing => evaluate_condition existing id_missing))
  | Workload_PutAllOld => returning ReturnValuesMode_AllOld (put_of row)
  | Workload_DeleteCondExists =>
      returning ReturnValuesMode_None
        (delete_with_condition_raw (write_shape s) (KeyValue_S row) None
           (fun existing => evaluate_condition existing id_there))
  | Workload_DeleteAllOld => returning ReturnValuesMode_AllOld (delete_item_raw (write_shape s) (KeyValue_S row) None)
  | Workload_UpdateDirectSet => direct_set row (as_i64 counter)
  | Workload_UpdateDirectInsertOnly => direct_insert (fresh_key "ins-" epoch worker counter) filler
  | Workload_UpdateDirectCond => direct_cond row (as_i64 counter)
  | Workload_UpdateTxRmw => slow_call row None (increment 1)
  | Workload_UpdateTxRmwHot => slow_call "bench-hot" None (increment 1)
  | Workload_UpdateTxAddNum => slow_call row None (add_to "counter" (N_ "1"))
  | Workload_UpdateTxAddSet =>
      slow_call row None (add_to "tags" (Ss_ ["tag-" +:+ usize_to_string (counter mod 16)]))
  | Workload_UpdateTxCondBeginsWith =>
      slow_call row (Some (name_starts "ali")) (set_literal "marker" (S_ ("m" +:+ usize_to_string counter)))
  | Workload_ScanFull => scan_call None None
  | Workload_ScanLimit => scan_call None (Some 20%N)
  | Workload_ScanFiltered => scan_call (Some counter_below) (Some 50%N)
  | Workload_QueryPkOnly => query_call None BENCH_QUERY_PK None None
  | Workload_QuerySkRange => query_call None BENCH_QUERY_PK (between 15 34) None
  | Workload_QueryFiltered => query_call None BENCH_QUERY_PK None (Some flag_on)
  | Workload_PutLsi | Workload_PutGenGsi | Workload_PutDwGsi | Workload_PutMultiDwGsi =>
      let device := "dev-w" +:+ zero_pad 2 worker +:+ "-" +:+ usize_to_string (counter / 1024) in
      let ts := as_i64 counter in
      returning ReturnValuesMode_None
        (put_item_raw (write_shape s) (KeyValue_S device) (Some (KeyValue_N (i64_to_string ts)))
           (item_to_value (indexed device ts)))
  | Workload_QueryLsi => query_call (index_sort "by_device_score") BENCH_INDEX_PK (between 80 99) None
  | Workload_QueryGenGsi | Workload_QueryDwGsi => query_call (index_sort "by_tier_score") "gold" (between 0 199) None
  end.

#[local] Create HintDb bench.
#[local] Hint Resolve put_path put_all_old_path put_cond_path delete_path delete_all_old_path delete_cond_path get_path
  fast_set_path insert_only_path fast_cond_path rmw_path add_num_path add_set_path begins_with_path scan_full_path
  scan_limit_path scan_filtered_path query_pk_only_path query_filtered_path query_sk_range_path put_indexed_path : bench.

Lemma lsi_index l : lsi_of l -> index_sort "by_device_score" = Some (lsi_sort l).
Proof. intros (Hl & Hsv & Ha & Ht). unfold index_sort, resolve_index_for_query. by rewrite Hl, Hsv, Ht. Qed.

Lemma gsi_path g tier lo hi st : let rq := query_gsi table "by_tier_score" tier lo hi in
  arrives rq -> gsi_of g -> post rq st = observed (query_call (index_sort "by_tier_score") tier (between lo hi) None) st.
Proof.
  intros rq Ha Hg. destruct (query_gsi_path g tier lo hi st Ha Hg) as ([eff sort] & Hr & Hp).
  unfold index_sort. by rewrite Hr.
Qed.

Lemma workload_path users w filler worker counter ws epoch st :
  bench_table users w = table -> bench_schema w ->
  arrives (bench_request users w (filled filler) worker counter ws epoch) ->
  post (bench_request users w (filled filler) worker counter ws epoch) st
  = observed (expected_call w filler worker counter ws epoch) st.
Proof.
  intros Ht Hs. unfold bench_request, bench_table in *.
  destruct w; cbn -[append zero_pad] in Ht, Hs |- *; rewrite ?Ht; try (intros Ha; solve [auto with bench]).
  - case_match; cbn [snd]; auto with bench.
  - destruct Hs as [He [l Hl]]. rewrite (lsi_index l Hl). intros Ha. by apply query_lsi_path.
  - destruct Hs as [g Hg]. intros Ha. by apply (gsi_path g).
  - destruct Hs as [g Hg]. intros Ha. by apply (gsi_path g).
Qed.

(** C13: What each workload of the benchmark measures.  For each of the
    twenty-nine workloads and every worker, counter, working set and run,
    on a server whose table has the keys and indexes the workload uses: the
    request the client builds passes the authentication chain, is decoded,
    parsed, substituted and planned, and what runs is exactly one storage
    call: the single upsert for [SET c = :v], the insert-only statement for
    [attribute_not_exists(id)], the compiled [WHERE] for
    [attribute_exists(id)], the locked read-modify-write for arithmetic,
    [ADD] and [begins_with], the index for index queries, with the key,
    values, condition and range that [expected_call] lists.  (The comment
    of the LSI put workload names another key and fewer attributes than
    its code sends; the call is that of the code.)  The client counts a
    success exactly when its answer has a 2xx status. *)
Theorem workload_storage_call users w item_size worker counter ws epoch st :
  bench_table users w = table -> bench_schema w ->
  arrives (bench_request users w (make_payload item_size) worker counter ws epoch) ->
  dispatch_op (http_target post users) w (make_payload item_size) worker counter ws epoch st
  = observed (expected_call w (repeat_str (Nat.max (item_size - 60) 1) "x") worker counter ws epoch) st.
Proof. intros Ht Hs Ha. rewrite dispatch_sends. by apply workload_path. Qed.
End paths.

(** ** The hot-key workload counts

    The seeding of the hot row and any interleaving of the increments of
    any number of workers, over every backend that meets
    [BackendContract]. *)

From S2P Require Import ConditionSql.

Section hot.
Context `{Winnow} `{Base64} `{SerdeJson} `{JsonText} `{SqlCompare} `{RowKeys}.
Context {St : Type} `{Backend St} `{!Storage St} `{!BackendContract St} (state : AppState).
Context (ddl_handler : string -> option (bytes -> Run St Response)).
Context (text : Value -> bytes) (path panic : string) (table : string) (entry : TableEntry).
Let s := te_schema entry.
Let hot : Key := (KeyValue_S "bench-hot", None).

Hypothesis Hentry : require_serveable (app_catalog state) table = Ok entry.
Hypothesis Husers : users_schema s.
Hypothesis Hwritable : writable (write_shape s) hot.

(** The hot row with a filler and a count. *)
Definition hot_item (filler : string) (c : Z) : Item :=
  [("counter", N_ (i64_to_string c)); ("filler", S_ filler); ("id", S_ "bench-hot"); ("name", S_ "alice")].

Definition seed_filler (item_size : nat) : string := repeat_str (Nat.max (item_size - 120) 1) "x".

Lemma hot_keyed filler c : keyed (write_shape s) hot (item_to_value (hot_item filler c)).
Proof.
  apply keyed_shape, keyed_item. destruct Husers as (Hpk & Hpt & Hsk).
  apply extract_key_pair_Ok. unfold extract_key_pair, extract_key. simpl. by rewrite Hpk, Hpt, Hsk.
Qed.

(** *** What an answer says *)

(** The call reports a success exactly when it returned. *)
Lemma observed_call {A} (call : Call St A) (k : A -> Response) st :
  (forall a, resp_status (k a) = 200%N) ->
  observed panic (let! a := backend_call call in ret_result (Ok (k a))) st
  = (match (call st).1 with Ok _ => true | _ => false end, (call st).2).
Proof.
  intros Hk. unfold observed, respond, run_bind, backend_call, ret_result.
  destruct (call st) as [[a|e|] st'] eqn:E; simpl; [by rewrite Hk | | done].
  by destruct (api_of_backend e).
Qed.

(** *** One increment *)

Lemma increment_row filler c wrap :
  (0 <= c < 2 ^ 53 - 1)%Z ->
  slow_apply None (increment 1) (users_key "bench-hot") wrap (Some (item_to_value (hot_item filler c)))
  = Ok (UpdateDecision_Apply (item_to_value (hot_item filler (c + 1)))).
Proof.
  intros Hc. set (row := Some (item_to_value (hot_item filler c))).
  assert (Ha : compute_set_rhs (SetRhs_Plus (Operand_Path (name_path "counter")) (Operand_Value (N_ (i64_to_string 1)))) row
               = Ok (to_value (N_ (i64_to_string (c + 1))))).
  { transitivity (arith (Operand_Value (N_ (i64_to_string c))) (Operand_Value (N_ (i64_to_string 1))) row true); [done|].
    apply (integer_arithmetic_exact c 1); lia. }
  unfold slow_apply, apply_update_expression, increment, collect. cbn -[compute_set_rhs i64_to_string].
  unfold stage_set. cbn -[compute_set_rhs i64_to_string]. by rewrite Ha.
Qed.

(** The count of the hot row is [c], and every other row is that of [m]. *)
Definition hot_at (filler : string) (m m' : Rows) (c : Z) : Prop :=
  m' (pg_table s) hot = Some (item_to_value (hot_item filler c))
  /\ forall t k, t <> pg_table s \/ same_key hot k = false -> m' t k = m t k.

Lemma hot_at_eq filler m m1 m2 c : rows_eq m2 m1 -> hot_at filler m m1 c -> hot_at filler m m2 c.
Proof. intros E [Hr Ho]. split; [by rewrite (E _ _)|]. intros t k Hk. rewrite (E _ _). by apply Ho. Qed.

Lemma hot_at_write filler m m' d c :
  hot_at filler m m' d -> hot_at filler m (write (write_shape s) hot (Some (item_to_value (hot_item filler c))) m') c.
Proof.
  intros [_ Ho]. split; [apply set_row_self|]. intros t k Hk. unfold write.
  rewrite set_row_ne; [by apply Ho|]. destruct Hk as [Hk|Hk]; [left; by intros E | by right].
Qed.

Lemma increment_step filler m st c :
  arrives text (update_slow_rmw_inc table "bench-hot" 1) -> (0 <= c < 2 ^ 53 - 1)%Z ->
  healthy st -> hot_at filler m (rows st) c ->
  let '(ok, st') := post state ddl_handler text path panic (update_slow_rmw_inc table "bench-hot" 1) st in
  healthy st' /\ exists c', hot_at filler m (rows st') c' /\ (c' = c + 1 \/ c' = c /\ ok = false)%Z.
Proof.
  intros Ha Hc Hh Hat. rewrite (rmw_path state ddl_handler text path panic table entry Hentry "bench-hot" 1 st Ha Husers).
  unfold slow_call, no_attributes. rewrite (observed_call _ (fun _ => attributes_response None)) by done.
  set (apply := slow_apply None (increment 1) (users_key "bench-hot") _).
  assert (Hrow : apply (row_at (write_shape (te_schema entry)) hot (rows st))
                 = Ok (UpdateDecision_Apply (item_to_value (hot_item filler (c + 1))))).
  { change (row_at _ _ _) with (rows st (pg_table s) hot). rewrite (proj1 Hat). by apply increment_row. }
  pose proof (rmw_law (write_shape (te_schema entry)) (KeyValue_S "bench-hot") None apply st Hh Hwritable) as Hlaw.
  unfold performs, rmw_spec in Hlaw. fold hot in Hlaw. rewrite Hrow in Hlaw.
  specialize (Hlaw ltac:(intros d [= <-]; apply hot_keyed)).
  destruct (update_general_rmw_raw _ _ _ apply st) as [r st']. cbn [fst snd] in *.
  destruct Hlaw as [Hh' [[Hu [He|He]]|[-> He]]]; split; try done.
  - exists c. split; [by eapply hot_at_eq|]. right. by destruct r.
  - exists (c + 1)%Z. split; [|by left]. eapply hot_at_eq, hot_at_write; [exact He|done].
  - exists (c + 1)%Z. split; [|by left]. eapply hot_at_eq, hot_at_write; [exact He|done].
Qed.

(** *** Any interleaving *)

(** The operations of the workers in the order the server runs them, each
    with its worker and that worker's counter; the acknowledged ones are
    counted. *)
Fixpoint run_schedule (payload : Value) (ws epoch : N) (schedule : list (N * N)) (st : St) : nat * St :=
  match schedule with
  | [] => (0, st)
  | (worker, counter) :: schedule =>
      let '(ok, st) := dispatch_op (http_target (post state ddl_handler text path panic) table)
                         Workload_UpdateTxRmwHot payload worker counter ws epoch st in
      let '(n, st) := run_schedule payload ws epoch schedule st in
      ((if ok then 1 else 0) + n, st)
  end.

Lemma schedule_counts payload ws epoch filler m schedule : forall st c,
  arrives text (update_slow_rmw_inc table "bench-hot" 1) ->
  (0 <= c)%Z -> (c + Z.of_nat (length schedule) < 2 ^ 53)%Z -> healthy st -> hot_at filler m (rows st) c ->
  let '(n, st') := run_schedule payload ws epoch schedule st in
  healthy st' /\ exists c', hot_at filler m (rows st') c'
    /\ (c + Z.of_nat n <= c' <= c + Z.of_nat (length schedule))%Z.
Proof.
  induction schedule as [|[worker counter] schedule IH]; intros st c Ha Hc Hb Hh Hat; cbn [run_schedule length] in *.
  - split; [done|]. exists c. split; [done|lia].
  - cbn [dispatch_op http_target t_update_slow_rmw_inc].
    pose proof (increment_step filler m st c Ha ltac:(lia) Hh Hat) as Hs.
    destruct (post _ _ _ _ _ _ st) as [ok st1]. destruct Hs as [Hh1 (c1 & Hat1 & Hc1)].
    specialize (IH st1 c1 Ha ltac:(lia) ltac:(lia) Hh1 Hat1).
    destruct (run_schedule payload ws epoch schedule st1) as [n st2]. destruct IH as [Hh2 (c2 & Hat2 & Hc2)].
    split; [done|]. exists c2. split; [done|]. destruct ok; destruct Hc1 as [->|[-> ?]]; try done; lia.
Qed.

(** *** Seeding *)

Lemma hot_seed item_size st :
  arrives text (put table "bench-hot" (seeded_payload item_size)) ->
  post state ddl_handler text path panic (put table "bench-hot" (seeded_payload item_size)) st
  = observed panic (returning ReturnValuesMode_None
      (put_item_raw (write_shape s) (KeyValue_S "bench-hot") None (item_to_value (hot_item (seed_filler item_size) 0)))) st.
Proof.
  intros Ha.
  by apply (put_path_of state ddl_handler text path panic table entry Hentry _ "bench-hot"
    (hot_item (seed_filler item_size) 0) None None None).
Qed.

Lemma seed_step item_size ws st :
  arrives text (put table "bench-hot" (seeded_payload item_size)) -> healthy st ->
  let '(ready, st') := prepare (http_target (post state ddl_handler text path panic) table)
                         Workload_UpdateTxRmwHot item_size ws st in
  ready = true -> healthy st' /\ hot_at (seed_filler item_size) (rows st) (rows st') 0.
Proof.
  intros Ha Hh. unfold prepare. cbn [needs_working_set needs_query_partition needs_index_partition app each http_target t_put].
  rewrite bool_decide_eq_true_2 by done. cbn [app each]. rewrite (hot_seed _ st Ha).
  unfold returning. cbn [put_delete_attributes].
  pose proof (put_law (write_shape s) (KeyValue_S "bench-hot") None _ st Hh Hwritable (hot_keyed (seed_filler item_size) 0)) as Hlaw.
  unfold performs, put_spec in Hlaw.
  match goal with |- context [observed panic ?h st] =>
    replace (observed panic h st) with (observed panic (let! _ := backend_call (put_item_raw (write_shape s) (KeyValue_S "bench-hot") None
      (item_to_value (hot_item (seed_filler item_size) 0))) in ret_result (Ok (attributes_response None))) st) by done end.
  rewrite (observed_call _ (fun _ => attributes_response None)) by done.
  destruct (put_item_raw _ _ _ _ st) as [r st']. cbn [fst snd] in *.
  destruct Hlaw as [Hh' [[Hu _]|[-> He]]]; [by destruct r|]. intros _. split; [done|].
  split; [by rewrite (He _ _); apply set_row_self|]. intros t k Hk. rewrite (He _ _).
  apply set_row_ne. destruct Hk as [Hk|Hk]; [left; by intros E | by right].
Qed.

(** C12: The hot-key benchmark measures real increments.  Against any
    backend that meets the storage contract, once the hot row is seeded,
    whatever the interleaving of the workers' operations (fewer than
    [2^53] of them): the row ends with a counter that is at least the
    number of operations the clients saw succeed and at most the number
    sent, the other attributes and every other row of the database are
    untouched.  No acknowledged increment is lost and none is applied
    twice; the slack is the operations that reported an error after they
    were committed. *)
Theorem hot_counter_counts item_size working_set payload ws epoch schedule st :
  arrives text (put table "bench-hot" (seeded_payload item_size)) ->
  arrives text (update_slow_rmw_inc table "bench-hot" 1) ->
  (Z.of_nat (length schedule) < 2 ^ 53)%Z -> healthy st ->
  let target := http_target (post state ddl_handler text path panic) table in
  let '(ready, st1) := prepare target Workload_UpdateTxRmwHot item_size working_set st in
  let '(succeeded, st2) := run_schedule payload ws epoch schedule st1 in
  ready = true ->
  exists c, rows st2 (pg_table (te_schema entry)) (KeyValue_S "bench-hot", None)
            = Some (item_to_value (hot_item (seed_filler item_size) c))
    /\ (Z.of_nat succeeded <= c <= Z.of_nat (length schedule))%Z
    /\ forall t k, t <> pg_table (te_schema entry) \/ same_key (KeyValue_S "bench-hot", None) k = false ->
         rows st2 t k = rows st t k.
Proof.
  intros Hp Hu Hb Hh target. pose proof (seed_step item_size working_set st Hp Hh) as Hs. fold target in Hs.
  destruct (prepare target _ _ _ st) as [ready st1].
  pose proof (schedule_counts payload ws epoch (seed_filler item_size) (rows st) schedule st1 0 Hu ltac:(lia) ltac:(lia)) as Hr.
  destruct (run_schedule _ _ _ schedule st1) as [n st2]. intros Hready. destruct (Hs Hready) as [Hh1 Hat].
  destruct (Hr Hh1 Hat) as [_ (c & [Hrow Ho] & Hc)]. exists c. split_and!; [done|lia|lia|done].
Qed.
End hot.

