(* ===== verification/BenchSamples.v ===== *)
(** * The benchmark against a server in memory

    A writer and a reader of JSON documents (of strings without escapes),
    a server with a [users] table and a table with a secondary index, and
    the theorems of [RequestJson] and [BenchPaths] applied to them. *)

From S2P Require Import Prelude RustStr BTree Json Attr Base64Std Ast Winnow Parser Storage.
From S2P Require Import EvalCondition EvalUpdate Operations Schema Catalog ApiError ConditionSql Backend Server MemoryBackend.
From S2P Require Import Auth RequestJson Bench BenchPaths.

(** ** Documents *)

Definition quoted (s : string) : string := String "034"%char (s +:+ String "034"%char "").

Fixpoint write_json (v : Value) : string :=
  match v with
  | VNull => "null"
  | VBool b => if b then "true" else "false"
  | VNumber s => s
  | VString s => quoted s
  | VArray l => "[" +:+ String.concat "," (map write_json l) +:+ "]"
  | VObject m =>
      "{" +:+ String.concat "," (map (fun kv => match kv with (k, v) => quoted k +:+ ":" +:+ write_json v end) m) +:+ "}"
  end.

(** The characters up to the first that [stop] accepts. *)
Fixpoint span_until (stop : Ascii.ascii -> bool) (s : string) : string * string :=
  match s with
  | EmptyString => ("", "")
  | String c r => if stop c then ("", s) else let '(a, b) := span_until stop r in (String c a, b)
  end.

Definition is_quote (c : Ascii.ascii) : bool := Ascii.eqb c "034"%char.
Definition ends_word (c : Ascii.ascii) : bool :=
  Ascii.eqb c ","%char || Ascii.eqb c "]"%char || Ascii.eqb c "}"%char.

Definition read_string (s : string) : option (string * string) :=
  match span_until is_quote s with (a, String _ r) => Some (a, r) | _ => None end.

Fixpoint read_value (fuel : nat) (s : string) : option (Value * string) :=
  match fuel, s with
  | S f, String "034" r => '(a, r) ← read_string r; Some (VString a, r)
  | S f, String "[" (String "]" r) => Some (VArray [], r)
  | S f, String "[" r => '(l, r) ← read_elements f r; Some (VArray l, r)
  | S f, String "{" (String "}" r) => Some (VObject [], r)
  | S f, String "{" r => '(m, r) ← read_members f r; Some (VObject (BTreeMap.of_list m), r)
  | S f, s =>
      let '(w, r) := span_until ends_word s in
      Some (if String.eqb w "null" then VNull else if String.eqb w "true" then VBool true
            else if String.eqb w "false" then VBool false else VNumber w, r)
  | _, _ => None
  end
with read_elements (fuel : nat) (s : string) : option (list Value * string) :=
  match fuel with
  | S f => '(v, r) ← read_value f s;
      match r with
      | String "," r => '(l, r) ← read_elements f r; Some (v :: l, r)
      | String "]" r => Some ([v], r)
      | _ => None
      end
  | O => None
  end
with read_members (fuel : nat) (s : string) : option (list (string * Value) * string) :=
  match fuel, s with
  | S f, String "034" r => '(k, r) ← read_string r;
      match r with
      | String ":" r => '(v, r) ← read_value f r;
          match r with
          | String "," r => '(m, r) ← read_members f r; Some ((k, v) :: m, r)
          | String "}" r => Some ([(k, v)], r)
          | _ => None
          end
      | _ => None
      end
  | _, _ => None
  end.

Definition read_document (b : bytes) : string + Value :=
  match read_value (S (length b)) (String.string_of_list_byte b) with
  | Some (v, "") => inr v
  | _ => inl "expected value"
  end.

Definition written (v : Value) : bytes := String.list_byte_of_string (write_json v).

#[local] Instance plain_json : JsonText := {|
  json_read := read_document;
  serde_message _ _ := "invalid type";
  de_error_message _ := "invalid item";
  value_debug_text := write_json;
  hash_order _ l := l;
  hash_order_perm _ _ := Permutation_refl _
|}.
#[local] Instance display_json : SerdeJson := {| value_to_string := write_json |}.

(** ** A server *)

Definition bench_entry (schema : TableSchema) : TableEntry :=
  mkTableEntry schema TableStatus_Active true None 0 0 "test" None None None (VObject []) [] [].
Definition users_entry : TableEntry :=
  bench_entry (mkTableSchema "users" "users" "id" KeyType_S None None "data" [] []).
Definition gsi_entry : TableEntry :=
  bench_entry (mkTableSchema "bench_gen_gsi" "bench_gen_gsi" "device_id" KeyType_S (Some "ts") (Some KeyType_N) "data" []
    [("by_tier_score", mkGsiSchema "by_tier_score" "tier" KeyType_S "gsi_tier" (Some "score") (Some KeyType_N)
        (Some "gsi_score") false true None)]).
Definition bench_server : AppState :=
  mkAppState (from_entries {[ "users" := users_entry; "bench_gen_gsi" := gsi_entry ]}) default_batch_limits.
Definition no_ddl : string -> option (bytes -> Run Rows Response) := fun _ => None.
Definition no_rows : Rows := fun _ _ => None.
Notation bench_post := (post bench_server no_ddl written "/" "panic").

(** A bulk request decoded: a put with a condition and an unknown field. *)
Definition sample_put : PutItemRequest :=
  mkPutItemRequest "users" [("id", S_ "a"); ("n", N_ "7")] None (Some [(":one", N_ "1")]) (Some "n > :one") None.

Lemma request_bodies_witness :
  put_item_request (object_of (put_item_body sample_put) [("Unknown", VNull)]) = Some sample_put.
Proof.
  apply (proj1 request_bodies_decode).
  - split_and!; [| |split]; try done; repeat constructor.
  - apply (bool_decide_unpack _). vm_compute. exact I.
Defined.

(** The forty-first operation of worker 3 under three workloads. *)
Lemma workload_witness :
  dispatch_op (http_target bench_post "users") Workload_UpdateTxCondBeginsWith (make_payload 100) 3 41 10 7 no_rows
  = observed "panic" (expected_call users_entry Workload_UpdateTxCondBeginsWith (repeat_str 40 "x") 3 41 10 7) no_rows
  /\ dispatch_op (http_target bench_post "users") Workload_Mixed (make_payload 100) 3 42 10 7 no_rows
  = observed "panic" (expected_call users_entry Workload_Mixed (repeat_str 40 "x") 3 42 10 7) no_rows
  /\ dispatch_op (http_target bench_post "users") Workload_QueryGenGsi (make_payload 100) 3 41 10 7 no_rows
  = observed "panic" (expected_call gsi_entry Workload_QueryGenGsi (repeat_str 40 "x") 3 41 10 7) no_rows.
Proof.
  assert (Hu : require_serveable (app_catalog bench_server) "users" = Ok users_entry) by (vm_compute; reflexivity).
  assert (Hg : require_serveable (app_catalog bench_server) "bench_gen_gsi" = Ok gsi_entry) by (vm_compute; reflexivity).
  split_and!.
  - apply (workload_storage_call bench_server no_ddl written "/" "panic" "users" users_entry Hu "users"
      Workload_UpdateTxCondBeginsWith 100 3 41 10 7); [done|by split_and!|vm_compute; reflexivity].
  - apply (workload_storage_call bench_server no_ddl written "/" "panic" "users" users_entry Hu "users"
      Workload_Mixed 100 3 42 10 7); [done|by split_and!|vm_compute; reflexivity].
  - apply (workload_storage_call bench_server no_ddl written "/" "panic" "bench_gen_gsi" gsi_entry Hg "users"
      Workload_QueryGenGsi 100 3 41 10 7); [done| |vm_compute; reflexivity].
    eexists. repeat split.
Defined.

(** Three workers interleaved: five operations, all acknowledged. *)
Lemma hot_counter_witness :
  let target := http_target bench_post "users" in
  let '(ready, st1) := prepare target Workload_UpdateTxRmwHot 200 10 no_rows in
  let '(succeeded, st2) :=
    run_schedule bench_server no_ddl written "/" "panic" "users" VNull 10 7 [(0, 0); (1, 0); (0, 1); (2, 0); (1, 1)]%N st1 in
  ready = true -> exists c,
    rows st2 "users" (KeyValue_S "bench-hot", None) = Some (item_to_value (hot_item (seed_filler 200) c))
    /\ (Z.of_nat succeeded <= c <= 5)%Z
    /\ forall t k, t <> "users" \/ same_key (KeyValue_S "bench-hot", None) k = false -> rows st2 t k = rows no_rows t k.
Proof.
  assert (Hu : require_serveable (app_catalog bench_server) "users" = Ok users_entry) by (vm_compute; reflexivity).
  apply (hot_counter_counts bench_server no_ddl written "/" "panic" "users" users_entry Hu
    ltac:(by split_and!) I 200 10 VNull 10 7 [(0, 0); (1, 0); (0, 1); (2, 0); (1, 1)]%N no_rows);
    [vm_compute; reflexivity|vm_compute; reflexivity|cbn; lia|apply memory_healthy].
Defined.

Example hot_counter_is_five :
  let target := http_target bench_post "users" in
  let st1 := (prepare target Workload_UpdateTxRmwHot 200 10 no_rows).2 in
  let '(succeeded, st2) :=
    run_schedule bench_server no_ddl written "/" "panic" "users" VNull 10 7 [(0, 0); (1, 0); (0, 1); (2, 0); (1, 1)]%N st1 in
  succeeded = 5 /\ rows st2 "users" (KeyValue_S "bench-hot", None) = Some (item_to_value (hot_item (seed_filler 200) 5)).
Proof. vm_compute. by split. Qed.
